(* ===== verification/_CoqProject ===== *)
-Q . S2P
Prelude.v
Threads.v
Fields.v
Bitmap.v
PfState.v
Sample.v
GucCfg.v
Ctxs.v
Dbs.v
Ggtt.v
GgttProv.v
Migration.v
Sched.v
Provisioning.v
AutoProv.v
Push.v
Relay.v
VfState.v
Flr.v
FlrSync.v
FlrWork.v
FlrLive.v
FlrRuns.v
Service.v
RelayWait.v
VfIov.v
VfConf.v
VfPtes.v
VfPair.v
VfMap.v
Ctb.v
GucMmio.v
Memirq.v
VfInit.v
Ct.v
CtRuns.v
CtAnswers.v
Sriov.v
Enable.v
Power.v
Disable.v
Typed.v
Suspend.v
Sysfs.v
SysfsTree.v
GucIds.v
GucRuns.v
