(* ===== verification/Prelude.v ===== *)
(** * SR-IOV for i915: a verification development

    This library models the SR-IOV layer of the i915 graphics driver and proves what makes it
    correct. All source paths are relative to [src/drivers/gpu/drm/i915/].

    ** The program

    With SR-IOV one graphics device appears as a physical function (PF) and several virtual
    functions (VFs), each given to a virtual machine. The same driver runs on both sides. The
    driver of the PF divides the device: the address space of the GGTT, the contexts and the
    doorbells of the microcontroller GuC, execution time. It tells GuC what belongs to whom,
    resets and pauses VFs, serves the requests of their drivers and moves their state to another
    device. The driver of a VF asks GuC and the PF what it has got and maps pages through the PF.
    A device has one or two GTs (a root GT and a media GT), each with its own GuC. The parts, and
    the files of this library that model them, lowest first:

    - Generic: Prelude.v (tactics, lists, the state monad and its weakest preconditions),
      Threads.v (programs of atomic actions, alone or among other threads), Fields.v (bit fields
      of messages), Bitmap.v (the bitmap library of the kernel as an interface).
    - State: PfState.v has the structures of [gt/iov/intel_iov_types.h] as Records ([dev], with
      [intel_iov_provisioning] and [intel_iov_config] for each GT) and the environment [Env]:
      what GuC answers, whether an allocation succeeds, the range manager of the GGTT
      ([GgttSpace]). Sample.v has an instance of each class, in which witnesses are evaluated.
    - Provisioning ([gt/iov/intel_iov_provisioning.c]): GucCfg.v (the KLV messages to GuC and the
      encoding of a configuration), Ctxs.v (contexts), Dbs.v (doorbells), GgttProv.v (GGTT
      regions), Sched.v (execution quantum, preemption timeout, thresholds), Provisioning.v (the
      life cycle: automatic provisioning, release, validation, push, restart), AutoProv.v and
      Push.v (what automatic provisioning and push promise), Typed.v (every field stays in its C
      type).
    - GGTT ([gt/intel_ggtt.c], [gt/iov/intel_iov_ggtt.c]): Ggtt.v (owners of entries, shadow page
      tables, updates for a VF), Migration.v (saving and restoring, with
      [gt/iov/intel_iov_state.c] and the interface of the migration driver in [i915_sriov.c]).
    - Relay ([gt/iov/intel_iov_relay.c]): Relay.v (sending, with retries), RelayWait.v (receiving,
      and calls that wait for a response).
    - Services of the PF ([gt/iov/intel_iov_service.c]): Service.v.
    - State control ([gt/iov/intel_iov_state.c], [gt/iov/intel_iov_event.c]): VfState.v (handlers,
      workers and callers as programs), Flr.v (the system of all of them and the documented reset
      protocol it implements), FlrSync.v (the two GTs finish a reset together), FlrWork.v and
      FlrLive.v (a reset ends), FlrRuns.v (computed runs).
    - The VF ([gt/iov/intel_iov_query.c], the buffer of updates in [gt/iov/intel_iov_ggtt.c]):
      VfIov.v over the interface [VfTransport]; VfPtes.v (the buffer loses nothing), VfConf.v (a
      VF and GuC), VfPair.v and VfMap.v (a VF and its PF, composed end to end).
    - Interrupts of a VF ([gt/iov/intel_iov_memirq.c]): Memirq.v (the page through which the
      hardware reports interrupts to a VF, and its handler).
    - Start of a VF (the VF's part of [gt/iov/intel_iov.c]): VfInit.v (what it queries, and the
      balloons that keep its allocations inside its region).
    - Talking to GuC: Ctb.v (the ring buffers of [gt/uc/intel_guc_ct.c]), GucMmio.v (the mailbox,
      [gt/uc/intel_guc.c]), Ct.v (the operations of the transport), CtRuns.v and CtAnswers.v
      (what holds in all of its runs).
    - The driver's own contexts ([gt/uc/intel_guc_submission.c]): GucIds.v (the ids that GuC knows
      them by: allocation, stealing, references, release), GucRuns.v (runs of all of it, requests
      among other threads, the ids against the provisioning of contexts).
    - The device ([i915_sriov.c], the PF's part of [gt/iov/intel_iov.c], the links of
      [i915_sriov_sysfs.c]): Sriov.v (the operations), Enable.v (enabling VFs), Power.v (balance
      of power references), Disable.v (disabling VFs while resets run), Suspend.v (the state that
      GuC keeps of a VF, over a suspend).
    - User space: Sysfs.v (the attributes of [gt/iov/intel_iov_sysfs.c] and
      [i915_sriov_sysfs.c]: who can read and write what, and what it does), SysfsTree.v (the nodes
      they belong to, with reference counts).

    Definitions have the names of the C functions, constants and fields. A name that the source
    does not have is a piece of a C function, or its loop body, made a definition of its own.

    ** How the code is modelled

    - Sequential code is written in the state monad of this file. A function returns its C result
      (0 or a negative errno) and the new state; early returns, gotos and roll backs are written
      out. [wp] is the weakest precondition of an operation, and most proofs are chains of its
      rules.
    - A mutex makes what it protects atomic. Code that other threads can interrupt is a [prog]
      (Threads.v): one action per access to the shared state. [atomically] runs it alone; [safe]
      proves a guarantee of it under a rely on the other threads; [among] is a run of it among
      others. Memory is sequentially consistent.
    - Integers are [Z]. Wrap-around is written where C wraps (u8, u16, u32, s32), and where an
      assignment could truncate Typed.v shows that it does not.
    - What is not C code of the driver is a class: GuC ([Env], [SaveEnv], [GucRegs], [GucMailbox]),
      memory and the range manager ([Env], [GgttSpace]), the transport below the relay
      ([RelayEnv]), the kernel ([BitmapOps], [SriovEnv], [ServiceEnv] with its [bsearch]), the
      clients of the transport ([CtClient]), the device as a VF sees it ([MemirqEnv]), the parsing
      of numbers ([SysfsEnv]), kernel objects and memory ([TreeEnv]), the kernel's allocators of ids
      ([IdEnv]). Their laws
      are documented behaviour and are classes of their own; each has an instance. A reply of GuC
      is a function of the requests so far, the outcome of an allocation or of a call is a
      function of a counter of calls, so theorems hold for every sequence of answers.
    - Buffers that an operation copies are lists, a null pointer is [None] or the empty list. Use
      after free yields [None]. A store beyond an array is recorded, not performed.
    - Some fields are history only, for statements about runs: requests sent to GuC, messages
      sent, events of a reset ([v_trace]), leaked or live allocations ([d_live]), [f_overrun].
    - [GEM_BUG_ON] is compiled out and is a precondition where a theorem needs it. The debug and
      selftest options are off. Messages to the log have no effect.
    - Runtime power references are always obtained; forcewake has no effect.

    ** Fuel and bounds

    - The retry loop of the relay makes at most [ct_clears] attempts on -EBUSY, a bound of the
      transport's class ([RelayEnvLaws]); the retries of the mailbox are bounded by the fuel of
      [GucMmio], which [send_mmio_result] proves enough for a GuC that asks for fewer.
    - The query of the runtime registers takes fuel one more than the number of registers, enough
      by [query_runtime_complete]; without the protocol it has no bound, as
      [VfConf.runtime_query_spins] shows.
    - [pin_guc_id] makes the four attempts of the code.
    - The worker of the reset protocol ends in four runs ([worker_ends]).
    - [wait_for] and the polling of the workers look as often as their timeout allows, once per
      millisecond.
    - All other recursion is structural.

    ** What is proved

    - Isolation: no two functions share a context, a doorbell or a page of the GGTT, on any path
      of provisioning ([set_ctxs_keeps_exclusive], [set_dbs_keeps_exclusive],
      [set_ggtt_keeps_apart]; with a binder that fails, the pages of a region can keep their former
      owner); an update for a VF makes what it writes entries of this VF and stays in its region,
      but for the copies it asks for at the end ([pf_update_vf_ptes_owned], [service_answers],
      [mmio_relay_answers]); what VFs allocate lies in their own regions ([vfs_allocate_apart]);
      the driver of the PF uses no context id of a VF, and each of its own ids once
      ([guc_ids_exclusive], [request_guc_id_safe]); nothing that is written to sysfs, commands to
      VFs included, breaks any of this ([admin_writes_safe]).
    - All or nothing: automatic provisioning and enabling succeed entirely or leave nothing behind
      ([auto_all_or_nothing], [enable_all_or_nothing]); release releases everything
      ([fini_releases_all], [clear_needs_guc]); after a reset of GuC everything is pushed again,
      request by request ([restart_recovers]); the nodes of sysfs are set up entirely or not at
      all and leave nothing behind ([sysfs_tree_balanced]).
    - The reset protocol: every interleaving of handlers, workers and callers follows the
      documented steps ([flr_refines]), GTs finish together ([flr_sync]), a reset ends
      ([flr_completes], [worker_ends]) unless GuC refuses it ([flr_refused_spins]), and disabling
      VFs waits for the resets that it starts and finds ([disable_waits_for_resets]).
    - Communication: the ring buffers are queues ([ring_fifo], [reads_arrive]), the transport
      loses nothing, and reorders events only when one reader overtakes another ([messages_kept],
      [events_in_order], [events_delivered], [credits_add_up]), calls return what was answered to
      them ([answers_are_heard], [wait_outcome], [request_answered]), fences do not repeat ([fences_distinct]), no interrupt
      of a VF is lost ([irqs_served]).
    - End to end: the configuration a PF encodes is what the VF reads ([config_received],
      [encode_config_roundtrip]), the VF gets all registers ([query_runtime_complete]), and a
      mapping in the VF behind its first page reaches the page table ([buffered_updates_all],
      [vma_reaches_table]).
    - Round trips: migration without a binder ([ggtt_migrates]) and suspend
      ([guc_state_survives]); power references balance, but for those that a failed resume loses
      ([pm_balanced]); fields keep their types ([prov_typed]).
    - Behaviour that the code does not mean to have is proved by computed runs next to the
      operation it concerns, for example [FlrRuns.flr_progress_lost], [RelayWait.response_lost],
      [Sysfs.state_file_short], [VfInit.first_vf_refused],
      [VfMap.first_page_lost], [GucRuns.freed_in_lookup], [VfConf.runtime_query_overruns], [Power.failed_resume_unbalances].

    ** Not modelled

    - Display, GEM, the execution of requests (beyond their context ids) and GVT: upstream i915 code that the repository
      carries along; SR-IOV is what it adds, and reaches into them only by the calls that are
      parameters here (PXP, the GSC engine, the resume of a GT, MSI and PCI state).
    - Printing and debugfs ([gt/iov/intel_iov_debugfs.c]): they show the state that is modelled.
      The selftests and live tests of [gt/iov/].
    - The ordinary page table paths of [gt/intel_ggtt.c] that have nothing to do with VFs.
    - The display and submission tweaks of a VF, the stepping of the hardware
      ([intel_step_init]), the write to PCI space for Wa_14017568299, the cache workaround of the
      transport on Meteor Lake, the freeing of the transport's structures at unload.
    - [intel_iov_state_init], [_release] and [_reset] run before, after or without the threads of
      the reset protocol and are not steps of its concurrent system. *)

From Stdlib Require Export ZArith Lia Bool.
From stdpp Require Export base numbers option tactics decidable list_numbers list.

#[global] Set Default Proof Using "Type".
#[export] Set Default Goal Selector "!".
Open Scope Z_scope.

(** ** Tactics of the development *)

(** Case analysis on the scrutinee of the first [match] or [if] of the goal. *)
Ltac case_goal :=
  match goal with
  | |- context [ match ?e with _ => _ end ] =>
      lazymatch e with
      | context [ match _ with _ => _ end ] => fail
      | _ => destruct e eqn:?
      end
  end.

(** Reflect the boolean comparisons of the hypotheses into propositions. *)
Ltac propify :=
  repeat match goal with
  | H : negb _ = true |- _ => apply negb_true_iff in H
  | H : negb _ = false |- _ => apply negb_false_iff in H
  | H : (_ && _)%bool = true |- _ => apply andb_true_iff in H; destruct H
  | H : (_ || _)%bool = false |- _ => apply orb_false_iff in H; destruct H
  | H : (_ =? _)%Z = true |- _ => apply Z.eqb_eq in H
  | H : (_ =? _)%Z = false |- _ => apply Z.eqb_neq in H
  | H : (_ <? _)%Z = true |- _ => apply Z.ltb_lt in H
  | H : (_ <? _)%Z = false |- _ => apply Z.ltb_ge in H
  | H : (_ <=? _)%Z = true |- _ => apply Z.leb_le in H
  | H : (_ <=? _)%Z = false |- _ => apply Z.leb_gt in H
  | H : (_ >? _)%Z = true |- _ => rewrite Z.gtb_ltb in H; apply Z.ltb_lt in H
  | H : (_ >? _)%Z = false |- _ => rewrite Z.gtb_ltb in H; apply Z.ltb_ge in H
  | H : (_ >=? _)%Z = true |- _ => rewrite Z.geb_leb in H; apply Z.leb_le in H
  | H : (_ >=? _)%Z = false |- _ => rewrite Z.geb_leb in H; apply Z.leb_gt in H
  | H : (_ =? _)%nat = true |- _ => apply Nat.eqb_eq in H
  | H : (_ =? _)%nat = false |- _ => apply Nat.eqb_neq in H
  | H : (_ <=? _)%nat = true |- _ => apply Nat.leb_le in H
  | H : (_ <=? _)%nat = false |- _ => apply Nat.leb_gt in H
  | H : (_ <? _)%nat = true |- _ => apply Nat.ltb_lt in H
  | H : (_ <? _)%nat = false |- _ => apply Nat.ltb_ge in H
  end.

Lemma bool_eq_false (a b : bool) : (a = false <-> b = false) -> a = b.
Proof. destruct a, b; intuition congruence. Qed.

(** [lia] with the equations of [/] and [mod] by numerals in its context. *)
Ltac dlia := Z.div_mod_to_equations; lia.

(** ** Error codes (include/uapi/asm-generic/errno*.h, include/linux/errno.h) *)

Definition EPERM : Z := 1.
Definition ESRCH : Z := 3.
Definition EIO : Z := 5.
Definition E2BIG : Z := 7.
Definition EAGAIN : Z := 11.
Definition ENOMEM : Z := 12.
Definition EACCES : Z := 13.
Definition EBUSY : Z := 16.
Definition ENODEV : Z := 19.
Definition EINVAL : Z := 22.
Definition ENOSPC : Z := 28.
Definition ERANGE : Z := 34.
Definition ENOMSG : Z := 42.
Definition EBADRQC : Z := 56.
Definition EBADSLT : Z := 57.
Definition ENODATA : Z := 61.
Definition ETIME : Z := 62.
Definition ENOPKG : Z := 65.
Definition EPROTO : Z := 71.
Definition EOVERFLOW : Z := 75.
Definition EMSGSIZE : Z := 90.
Definition EOPNOTSUPP : Z := 95.
Definition EPFNOSUPPORT : Z := 96.
Definition ENOBUFS : Z := 105.
Definition ETIMEDOUT : Z := 110.
Definition ECONNREFUSED : Z := 111.
Definition ESTALE : Z := 116.
Definition EUCLEAN : Z := 117.
Definition EREMOTEIO : Z := 121.
Definition EDQUOT : Z := 122.
Definition ENOKEY : Z := 126.
Definition ERFKILL : Z := 132.

(** ** Machine integers

    A C integer is a [Z] in the range of its type; a conversion to an unsigned
    type of [w] bits is the reduction modulo [2^w]. *)

Definition u8 (x : Z) : Z := x mod 2 ^ 8.
Definition u16 (x : Z) : Z := x mod 2 ^ 16.
Definition u32 (x : Z) : Z := x mod 2 ^ 32.
Definition u64 (x : Z) : Z := x mod 2 ^ 64.

Definition U8_MAX : Z := 255.
Definition U16_MAX : Z := 65535.
Definition U64_MAX : Z := 2 ^ 64 - 1.

Definition is_u16 (x : Z) : Prop := 0 <= x < 2 ^ 16.
Definition is_u32 (x : Z) : Prop := 0 <= x < 2 ^ 32.
Definition is_u64 (x : Z) : Prop := 0 <= x < 2 ^ 64.

Lemma u16_small x : 0 <= x < 65536 -> u16 x = x.
Proof. intros; unfold u16; apply Z.mod_small; change (2 ^ 16) with 65536; lia. Qed.

Lemma u32_small x : 0 <= x < 4294967296 -> u32 x = x.
Proof. intros; unfold u32; apply Z.mod_small; change (2 ^ 32) with 4294967296; lia. Qed.

Lemma u64_small x : 0 <= x < 2 ^ 64 -> u64 x = x.
Proof. intros; unfold u64; apply Z.mod_small; lia. Qed.

Lemma u16_range x : 0 <= u16 x < 65536.
Proof. unfold u16; apply (Z.mod_pos_bound x 65536); lia. Qed.

Lemma u32_range x : 0 <= u32 x < 4294967296.
Proof. unfold u32; apply (Z.mod_pos_bound x 4294967296); lia. Qed.

Lemma u64_range x : 0 <= u64 x < 2 ^ 64.
Proof. unfold u64; apply Z.mod_pos_bound; lia. Qed.

(** [lia] for goals with conversions to u16. *)
Ltac ulia := unfold u16, is_u16, U16_MAX in *; change (2 ^ 16) with 65536 in *; dlia.

(** The value of an [int]. *)
Definition s32 (x : Z) : Z := if u32 x <? 2 ^ 31 then u32 x else u32 x - 2 ^ 32.

Lemma s32_small x : - 2147483648 <= x < 2147483648 -> s32 x = x.
Proof.
  intros Hx. unfold s32. change (2 ^ 31) with 2147483648. unfold u32. change (2 ^ 32) with 4294967296.
  destruct (Z.ltb_spec (x mod 4294967296) 2147483648); dlia.
Qed.

(** [lower_32_bits], [upper_32_bits] and [make_u64] *)
Definition lower_32_bits (x : Z) : Z := Z.land x 0xffffffff.
Definition upper_32_bits (x : Z) : Z := u32 (Z.shiftr x 32).
Definition make_u64 (hi lo : Z) : Z := Z.lor (Z.shiftl hi 32) lo.

Lemma lower_32_bits_mod x : lower_32_bits x = u32 x.
Proof. unfold lower_32_bits, u32. change 0xffffffff with (Z.ones 32). by apply Z.land_ones. Qed.

Lemma make_u64_split x :
  is_u64 x -> make_u64 (upper_32_bits x) (lower_32_bits x) = x.
Proof.
  intros Hx. unfold make_u64, upper_32_bits, u32, is_u64 in *.
  rewrite Z.mod_small, <- Z.ldiff_ones_r by
    (try rewrite Z.shiftr_div_pow2; change (2 ^ 64) with (2 ^ 32 * 2 ^ 32) in Hx; try dlia; lia).
  unfold lower_32_bits. change 0xffffffff with (Z.ones 32).
  apply Z.bits_inj'; intros n Hn. rewrite Z.lor_spec, Z.ldiff_spec, Z.land_spec.
  by destruct (Z.testbit x n), (Z.testbit (Z.ones 32) n).
Qed.

(** The kernel's [ALIGN] and [ALIGN_DOWN] at 64 bits; [a] is a power of two. *)
Definition ALIGN (x a : Z) : Z := Z.land (u64 (x + (a - 1))) (Z.lnot (a - 1)).
Definition ALIGN_DOWN (x a : Z) : Z := ALIGN (u64 (x - (a - 1))) a.
Definition IS_ALIGNED (x a : Z) : bool := Z.land x (a - 1) =? 0.

Lemma land_lnot_pow2 x k : 0 <= k -> Z.land x (Z.lnot (2 ^ k - 1)) = 2 ^ k * (x / 2 ^ k).
Proof.
  intros Hk. replace (2 ^ k - 1) with (Z.ones k) by (rewrite Z.ones_equiv; lia).
  rewrite <- Z.ldiff_land, Z.ldiff_ones_r by lia.
  rewrite Z.shiftl_mul_pow2, Z.shiftr_div_pow2 by lia. lia.
Qed.

Lemma ALIGN_pow2 x k :
  0 <= k -> 0 <= x -> x + (2 ^ k - 1) < 2 ^ 64 ->
  ALIGN x (2 ^ k) = 2 ^ k * ((x + (2 ^ k - 1)) / 2 ^ k).
Proof.
  intros Hk Hx Hov. unfold ALIGN.
  assert (0 < 2 ^ k) by (apply Z.pow_pos_nonneg; lia).
  rewrite land_lnot_pow2, u64_small by lia. reflexivity.
Qed.

Lemma ALIGN_DOWN_pow2 x k :
  0 <= k -> 0 <= x < 2 ^ 64 -> 2 ^ k <= 2 ^ 64 ->
  ALIGN_DOWN x (2 ^ k) = 2 ^ k * (x / 2 ^ k).
Proof.
  intros Hk Hx Hov. unfold ALIGN_DOWN, ALIGN, u64.
  assert (0 < 2 ^ k) by (apply Z.pow_pos_nonneg; lia).
  rewrite Zplus_mod_idemp_l.
  replace (x - (2 ^ k - 1) + (2 ^ k - 1)) with x by lia.
  rewrite Z.mod_small by lia. apply land_lnot_pow2; lia.
Qed.

(** [min3], [max_t] are [Z.min], [Z.max] once the operands are converted. *)
Definition min3 (a b c : Z) : Z := Z.min (Z.min a b) c.

(** C's [x ?: y] on an [int]. *)
Definition elvis (x y : Z) : Z := if x =? 0 then y else x.

(** ** The state monad *)

Definition st (S A : Type) : Type := S -> A * S.

#[export] Instance st_ret {S} : MRet (st S) := fun A a s => (a, s).
#[export] Instance st_bind {S} : MBind (st S) :=
  fun A B k m s => let '(a, s') := m s in k a s'.

Definition gets {S A} (f : S -> A) : st S A := fun s => (f s, s).
Definition modify {S} (f : S -> S) : st S unit := fun s => (tt, f s).

(** [wp m Q s]: running [m] from [s] ends in a result and a state that satisfy [Q]. *)
Definition wp {S A} (m : st S A) (Q : A -> S -> Prop) (s : S) : Prop :=
  Q (fst (m s)) (snd (m s)).

Section wp.
Context {S : Type}.

Lemma wp_ret {A} (a : A) (Q : A -> S -> Prop) s : Q a s -> wp (mret a) Q s.
Proof. done. Qed.

Lemma wp_bind {A B} (m : st S A) (k : A -> st S B) Q s :
  wp m (fun a s' => wp (k a) Q s') s -> wp (m ≫= k) Q s.
Proof. unfold wp, mbind, st_bind. by destruct (m s). Qed.

Lemma wp_gets {A} (f : S -> A) (Q : A -> S -> Prop) s : Q (f s) s -> wp (gets f) Q s.
Proof. done. Qed.

Lemma wp_modify (f : S -> S) (Q : unit -> S -> Prop) s : Q tt (f s) -> wp (modify f) Q s.
Proof. done. Qed.

Lemma wp_mono {A} (m : st S A) (Q R : A -> S -> Prop) s :
  wp m Q s -> (forall a s', Q a s' -> R a s') -> wp m R s.
Proof. unfold wp. auto. Qed.

Lemma wp_and {A} (m : st S A) (Q R : A -> S -> Prop) s :
  wp m Q s -> wp m R s -> wp m (fun a s' => Q a s' /\ R a s') s.
Proof. unfold wp. auto. Qed.

Lemma wp_run {A} (m : st S A) (Q : A -> S -> Prop) s a s' :
  m s = (a, s') -> wp m Q s -> Q a s'.
Proof. unfold wp. by intros ->. Qed.

Lemma run_wp {A} (m : st S A) (Q : A -> S -> Prop) s :
  (forall a s', m s = (a, s') -> Q a s') -> wp m Q s.
Proof. unfold wp. destruct (m s). auto. Qed.

(** The form in which the theorems state the result of an operation. *)
Lemma wp_let {A} (m : st S A) (Q : A -> S -> Prop) s :
  wp m Q s -> let '(a, s') := m s in Q a s'.
Proof. unfold wp. by destruct (m s). Qed.

Lemma wp_if {A} (b : bool) (m1 m2 : st S A) Q s :
  (b = true -> wp m1 Q s) -> (b = false -> wp m2 Q s) ->
  wp (if b then m1 else m2) Q s.
Proof. destruct b; auto. Qed.

Lemma bind_run {A B} (m : st S A) (k : A -> st S B) s a s' :
  m s = (a, s') -> (m ≫= k) s = k a s'.
Proof. unfold mbind, st_bind. by intros ->. Qed.
End wp.

(** One symbolic-execution step of a [wp] goal. *)
Ltac wp_step :=
  lazymatch goal with
  | |- wp (mret _) _ _ => apply wp_ret
  | |- wp (_ ≫= _) _ _ => apply wp_bind
  | |- wp (gets _) _ _ => apply wp_gets
  | |- wp (modify _) _ _ => apply wp_modify
  | |- wp (if _ then _ else _) _ _ => apply wp_if; intros ?
  end.
Ltac wp_steps := repeat wp_step.

(** ** Lists *)

(** [nth_default] with the default first: the C array read whose index the
    callers keep in range. *)
Notation "l .[ i | d ]" := (default d (l !! i)) (at level 1, left associativity, format "l .[ i | d ]").

Lemma elem_of_take {A} n (l : list A) x : x ∈ take n l -> x ∈ l.
Proof. rewrite <- (take_drop n l) at 2. rewrite elem_of_app. by left. Qed.

Definition sumZ (l : list Z) : Z := foldr Z.add 0 l.

Lemma sumZ_app l1 l2 : sumZ (l1 ++ l2) = sumZ l1 + sumZ l2.
Proof. unfold sumZ; induction l1; simpl; lia. Qed.

Lemma sumZ_nonneg l : Forall (fun x => 0 <= x) l -> 0 <= sumZ l.
Proof. unfold sumZ; induction 1; simpl; lia. Qed.

Definition maxZ (l : list Z) : Z := foldr Z.max 0 l.

Lemma maxZ_nonneg l : 0 <= maxZ l.
Proof. unfold maxZ; induction l; simpl; lia. Qed.

Lemma maxZ_elem l x : x ∈ l -> x <= maxZ l.
Proof. unfold maxZ; induction 1; simpl; lia. Qed.

Lemma maxZ_app l1 l2 : maxZ (l1 ++ l2) = Z.max (maxZ l1) (maxZ l2).
Proof.
  pose proof (maxZ_nonneg l2). unfold maxZ in *. induction l1; simpl; lia.
Qed.

Lemma maxZ_in l : 0 < maxZ l -> maxZ l ∈ l.
Proof.
  unfold maxZ; induction l as [|x l IH]; simpl; [lia|]. intros H.
  destruct (Z.max_spec x (foldr Z.max 0 l)) as [[? E]|[? E]]; rewrite E in *.
  - apply list_elem_of_further, IH. lia.
  - apply list_elem_of_here.
Qed.

Lemma maxZ_le_sum l : Forall (fun x => 0 <= x) l -> maxZ l <= sumZ l.
Proof.
  induction 1 as [|x l Hx Hl IH]; [done|].
  pose proof (sumZ_nonneg l Hl). unfold sumZ, maxZ in *. simpl. lia.
Qed.

(** ** Quotas that leave a reserve in the smaller holes

    [pf_get_max_ggtt] and [pf_get_ctxs_max_quota] walk the free holes with the same two
    statements, [reserved -= min3(reserved, size, max); max = max(max, size)]: every hole but
    the largest one pays for the reserve. *)

Definition reserve_step (acc : Z * Z) (size : Z) : Z * Z :=
  let '(reserved, mx) := acc in (reserved - min3 reserved size mx, Z.max mx size).

(** What remains of the largest hole. *)
Definition reserve_left (acc : Z * Z) : Z :=
  let '(reserved, mx) := acc in if reserved <? mx then mx - reserved else 0.

Lemma reserve_fold sizes r m :
  0 <= r -> 0 <= m -> Forall (fun s => 0 <= s) sizes ->
  foldl reserve_step (r, m) sizes =
    (Z.max 0 (r - (sumZ sizes + m - Z.max m (maxZ sizes))), Z.max m (maxZ sizes)).
Proof.
  intros Hr Hm Hs. revert r m Hr Hm.
  induction Hs as [|s l Hs Hl IH]; intros r m Hr Hm; unfold sumZ, maxZ in *; simpl; unfold min3.
  - f_equal; lia.
  - rewrite IH by lia.
    assert (foldr Z.max 0 l <= foldr Z.add 0 l) by (apply (maxZ_le_sum l Hl)).
    pose proof (maxZ_nonneg l). unfold maxZ in *. f_equal; lia.
Qed.

(** The quota is the largest hole, or all the free space less the reserve if that is less. *)
Lemma reserve_left_spec sizes r :
  0 <= r -> Forall (fun s => 0 <= s) sizes ->
  reserve_left (foldl reserve_step (r, 0) sizes) = Z.min (maxZ sizes) (Z.max 0 (sumZ sizes - r)).
Proof.
  intros Hr Hs. rewrite reserve_fold by (lia || done). simpl.
  pose proof (maxZ_le_sum sizes Hs). pose proof (maxZ_nonneg sizes).
  destruct (Z.ltb_spec (Z.max 0 (r - (sumZ sizes + 0 - Z.max 0 (maxZ sizes))))
    (Z.max 0 (maxZ sizes))); lia.
Qed.
