(* ===== verification/Threads.v ===== *)
(** * Programs that share a state

    A handler that other threads can interrupt is a program: a tree of atomic actions on the
    shared state, written in a monad. A program runs without interruption as a state
    transformer ([atomically]) or one action at a time between the actions of others, which its
    proof then sees as a relation on states, the rely ([safe]). *)

From stdpp Require Import relations.
From S2P Require Export Prelude.

Inductive prog (S A : Type) : Type :=
| Ret (a : A)
| Act (B : Type) (m : st S B) (k : B -> prog S A).
Arguments Ret {S A} a.
Arguments Act {S A B} m k.

Fixpoint prog_bind {S A B} (k : A -> prog S B) (p : prog S A) : prog S B :=
  match p with
  | Ret a => k a
  | Act m k' => Act m (fun b => prog_bind k (k' b))
  end.
#[export] Instance prog_mret {S} : MRet (prog S) := fun A => Ret.
#[export] Instance prog_mbind {S} : MBind (prog S) := fun A B => prog_bind.

(** One atomic action. *)
Definition atom {S A} (m : st S A) : prog S A := Act m Ret.

(** [for_each x in l: f x] *)
Fixpoint each {S A} (l : list A) (f : A -> prog S unit) : prog S unit :=
  match l with
  | [] => mret tt
  | x :: l => f x ≫= fun _ => each l f
  end.

(** [for_each x in l: if (f x) return true;] followed by [return false] *)
Fixpoint any {S A} (l : list A) (f : A -> prog S bool) : prog S bool :=
  match l with
  | [] => mret false
  | x :: l => found ← f x; if found : bool then mret true else any l f
  end.

(** [for_each x in l: err = f(x); if (bad(err)) return err;] followed by [return 0] *)
Fixpoint each_until {S A} (bad : Z -> bool) (l : list A) (f : A -> prog S Z) : prog S Z :=
  match l with
  | [] => mret 0
  | x :: l => err ← f x; if bad err then mret err else each_until bad l f
  end.

(** [result = 0; for_each x in l: err = f(x); if (err) result = result ?: err;] *)
Fixpoint each_result {S A} (l : list A) (f : A -> prog S Z) (result : Z) : prog S Z :=
  match l with
  | [] => mret result
  | x :: l => err ← f x; each_result l f (if negb (err =? 0) then elvis result err else result)
  end.

(** [wait_for(cond, ...)]: the condition is looked at until it holds, or [polls] times more. *)
Fixpoint wait_for {S} (cond : prog S bool) (polls : nat) : prog S bool :=
  c ← cond;
  if c : bool then mret true else
  match polls with O => mret false | S polls => wait_for cond polls end.

(** A program on a part of the state. *)
Fixpoint zoom {S T A} (get : T -> S) (put : S -> T -> T) (p : prog S A) : prog T A :=
  match p with
  | Ret a => Ret a
  | Act m k => Act (fun t => let '(b, s) := m (get t) in (b, put s t)) (fun b => zoom get put (k b))
  end.

(** ** Without interruption *)

Fixpoint atomically {S A} (p : prog S A) : st S A :=
  match p with
  | Ret a => mret a
  | Act m k => m ≫= fun b => atomically (k b)
  end.

Lemma atomically_bind {S A B} (p : prog S A) (k : A -> prog S B) s :
  atomically (p ≫= k) s = (atomically p ≫= fun a => atomically (k a)) s.
Proof.
  revert s. induction p as [a|C m k' IH]; intros s; [done|].
  unfold mbind at 1, prog_mbind. cbn [prog_bind atomically]. unfold mbind, st_bind.
  destruct (m s) as [c s']. apply IH.
Qed.

Lemma wp_atomically_bind {S A B} (p : prog S A) (k : A -> prog S B) Q s :
  wp (atomically p) (fun a s' => wp (atomically (k a)) Q s') s -> wp (atomically (p ≫= k)) Q s.
Proof. unfold wp. rewrite atomically_bind. unfold mbind, st_bind. by destruct (atomically p s). Qed.

(** ** Among others *)

(** What a thread does next: the state after its next action and the rest of its program. *)
Definition step_prog {S A} (p : prog S A) (s : S) : prog S A * S :=
  match p with
  | Ret a => (p, s)
  | Act m k => let '(b, s') := m s in (k b, s')
  end.

Section safe.
Context {S : Type} (I : S -> Prop) (R G : S -> S -> Prop) `{!PreOrder R}.

(** From [s] on, every action of [p] keeps the invariant [I] and is in the guarantee [G],
    provided that the others keep [I] and stay in the rely [R]; a result satisfies [Q]. *)
Fixpoint safe {A} (p : prog S A) (Q : A -> S -> Prop) (s : S) : Prop :=
  match p with
  | Ret a => forall s', R s s' -> I s' -> Q a s'
  | Act m k => forall s', R s s' -> I s' ->
      let '(b, s'') := m s' in G s' s'' /\ I s'' /\ safe (k b) Q s''
  end.

Lemma safe_interfere {A} (p : prog S A) Q s s' : R s s' -> safe p Q s -> safe p Q s'.
Proof using Type*.
  intros HR. destruct p as [a|B m k]; simpl; intros Hp s'' HR' HI; apply Hp; try done; by etransitivity.
Qed.

Lemma safe_ret {A} (a : A) (Q : A -> S -> Prop) s :
  (forall s', R s s' -> I s' -> Q a s') -> safe (mret a) Q s.
Proof. done. Qed.

Lemma safe_bind {A B} (p : prog S A) (k : A -> prog S B) Q s :
  I s -> safe p (fun a s' => safe (k a) Q s') s -> safe (p ≫= k) Q s.
Proof using Type*.
  revert s. induction p as [a|C m k' IH]; intros s HI.
  - simpl. intros Hk. by apply Hk.
  - unfold mbind, prog_mbind. cbn [prog_bind safe]. intros Hp s' HR HI'. specialize (Hp s' HR HI').
    destruct (m s') as [c s'']. destruct Hp as (HG & HI'' & Hp). split_and!; try done. by apply IH.
Qed.

Lemma safe_atom {A} (m : st S A) (Q : A -> S -> Prop) s :
  (forall s', R s s' -> I s' -> let '(a, s'') := m s' in
     G s' s'' /\ I s'' /\ forall s3, R s'' s3 -> I s3 -> Q a s3) -> safe (atom m) Q s.
Proof. done. Qed.

(** An action followed by the rest of the program. *)
Lemma safe_act {A B} (m : st S A) (k : A -> prog S B) Q s :
  (forall s', R s s' -> I s' -> wp m (fun a s'' => G s' s'' /\ I s'' /\ safe (k a) Q s'') s') ->
  safe (atom m ≫= k) Q s.
Proof. unfold wp. intros Hm s' HR HI. specialize (Hm s' HR HI). by destruct (m s'). Qed.

Lemma safe_mono {A} (p : prog S A) (Q Q' : A -> S -> Prop) s :
  safe p Q s -> (forall a s', Q a s' -> Q' a s') -> safe p Q' s.
Proof.
  intros Hp HQ. revert s Hp. induction p as [a|B m k IH]; simpl; intros s Hp s' HR HI.
  - by apply HQ, Hp.
  - specialize (Hp s' HR HI). destruct (m s') as [b s'']. destruct Hp as (?&?&?). split_and!; auto.
Qed.

(** A step of the thread itself. *)
Lemma safe_step {A} (p : prog S A) Q s :
  Reflexive G -> I s -> safe p Q s ->
  let '(p', s') := step_prog p s in G s s' /\ I s' /\ safe p' Q s'.
Proof using Type*.
  intros HG HI Hp. destruct p as [a|B m k]; simpl; [by split_and!|].
  specialize (Hp s ltac:(reflexivity) HI). by destruct (m s).
Qed.

(** The run of the thread to its end when nobody interrupts it. *)
Lemma safe_atomically {A} (p : prog S A) Q s :
  PreOrder G -> I s -> safe p Q s -> wp (atomically p) (fun a s' => G s s' /\ Q a s') s.
Proof using Type*.
  intros HG. revert s. induction p as [a|B m k IH]; intros s HI Hp.
  - split; [done|]. by apply Hp.
  - cbn [atomically]. apply wp_bind. specialize (Hp s ltac:(reflexivity) HI). unfold wp at 1.
    destruct (m s) as [b s']. destruct Hp as (HGs & HI' & Hk). eapply wp_mono; [by apply IH|].
    intros a s'' [HG' HQ]. split; [by etransitivity|done].
Qed.

(** Programs and loops of which nothing but the invariant is asked. *)
Definition safe_any {A} (p : prog S A) : Prop := forall s, I s -> safe p (fun _ _ => True) s.

Lemma safe_then {A B} (p : prog S A) (k : A -> prog S B) (L : A -> S -> Prop) Q s :
  safe p L s -> (forall a s, I s -> L a s -> safe (k a) Q s) -> I s -> safe (p ≫= k) Q s.
Proof using Type*.
  intros Hp Hk HI. apply safe_bind; [done|]. revert s HI Hp.
  induction p as [a|C m k' IH]; simpl; intros s HI Hp s' HR HI'; [by apply Hk; [|apply Hp]|].
  specialize (Hp s' HR HI'). destruct (m s') as [c s'']. destruct Hp as (?&?&?). split_and!; auto.
Qed.
Lemma safe_seq {A B} (p : prog S A) (k : A -> prog S B) Q s :
  safe p (fun _ _ => True) s -> (forall a s, I s -> safe (k a) Q s) -> I s -> safe (p ≫= k) Q s.
Proof using Type*. intros Hp Hk. eapply safe_then; [exact Hp|auto]. Qed.

Lemma safe_each {A} (l : list A) (f : A -> prog S unit) :
  (forall x, safe_any (f x)) -> safe_any (each l f).
Proof using Type*.
  intros Hf. induction l as [|x l IH]; intros s HI; [done|]. cbn [each].
  apply safe_seq; [by apply Hf| |done]. intros _. apply IH.
Qed.
End safe.

(** The runs of a thread among the others: its own steps, and changes within the rely. *)
Inductive among {S A} (I : S -> Prop) (R : S -> S -> Prop) : prog S A * S -> prog S A * S -> Prop :=
| OwnStep p s : among I R (p, s) (step_prog p s)
| OtherStep p s s' : R s s' -> I s' -> among I R (p, s) (p, s').

Section among.
Context {S A : Type} (I : S -> Prop) (R G : S -> S -> Prop) `{!PreOrder R} `{!Reflexive G}.
Implicit Types x y : prog S A * S.

Lemma among_safe x y Q :
  rtc (among I R) x y -> I x.2 -> safe I R G x.1 Q x.2 -> I y.2 /\ safe I R G y.1 Q y.2.
Proof using Type*.
  induction 1 as [x|x y z Hst _ IH]; [done|]. intros HI Hs.
  enough (I y.2 /\ safe I R G y.1 Q y.2) as [] by auto.
  destruct Hst as [p s|p s s' HR HI']; cbn [fst snd] in *.
  - pose proof (safe_step I R G p Q s _ HI Hs) as Hstep. destruct (step_prog p s) as [p2 s2]. by destruct Hstep as (_ & ? & ?).
  - split; [done|]. exact (safe_interfere I R G p Q s s' HR Hs).
Qed.

(** The guarantee holds of each step of the thread, the postcondition of its result. *)
Lemma among_step (p p1 : prog S A) s s1 Q :
  rtc (among I R) (p, s) (p1, s1) -> I s -> safe I R G p Q s -> G s1 (snd (step_prog p1 s1)).
Proof using Type*.
  intros Hrun HI Hs. destruct (among_safe _ _ Q Hrun HI Hs) as [HI1 Hs1]. cbn [fst snd] in *.
  pose proof (safe_step I R G p1 Q s1 _ HI1 Hs1) as Hstep. destruct (step_prog p1 s1). apply Hstep.
Qed.
Lemma among_result (p : prog S A) s a s1 Q :
  rtc (among I R) (p, s) (Ret a, s1) -> I s -> safe I R G p Q s -> Q a s1.
Proof using Type*.
  intros Hrun HI Hs. destruct (among_safe _ _ Q Hrun HI Hs) as [HI1 Hs1]. by apply Hs1.
Qed.
End among.

(** The first [k] steps of a thread that nobody interrupts. *)
Definition own_steps {S A} (k : nat) (x : prog S A * S) : prog S A * S := Nat.iter k (fun x => step_prog x.1 x.2) x.
Lemma among_own {S A} (I : S -> Prop) (R : S -> S -> Prop) k (x : prog S A * S) : rtc (among I R) x (own_steps k x).
Proof.
  induction k as [|k IH]; [done|]. eapply rtc_r; [exact IH|].
  change (own_steps (Datatypes.S k) x) with (step_prog (own_steps k x).1 (own_steps k x).2).
  destruct (own_steps k x). apply OwnStep.
Qed.

(** ** Programs all of whose actions are of one kind *)

Section all_acts.
Context {S : Type} (P : forall A, st S A -> Prop).

Fixpoint all_acts {A} (p : prog S A) : Prop :=
  match p with
  | Ret _ => True
  | Act m k => P _ m /\ forall b, all_acts (k b)
  end.

Lemma all_acts_ret {A} (a : A) : all_acts (mret a).
Proof. done. Qed.
Lemma all_acts_atom {A} (m : st S A) : P A m -> all_acts (atom m).
Proof. done. Qed.
Lemma all_acts_bind {A B} (p : prog S A) (k : A -> prog S B) :
  all_acts p -> (forall a, all_acts (k a)) -> all_acts (p ≫= k).
Proof. intros Hp Hk. induction p as [a|C m k' IH]; [apply Hk|]. destruct Hp. split; [done|]. intros b. by apply IH. Qed.
Lemma all_acts_if {A} (b : bool) (p q : prog S A) : all_acts p -> all_acts q -> all_acts (if b then p else q).
Proof. by destruct b. Qed.
Lemma all_acts_each {A} (l : list A) (f : A -> prog S unit) : (forall x, all_acts (f x)) -> all_acts (each l f).
Proof. intros Hf. induction l; [done|]. apply all_acts_bind; [apply Hf|done]. Qed.
Lemma all_acts_any {A} (l : list A) (f : A -> prog S bool) : (forall x, all_acts (f x)) -> all_acts (any l f).
Proof.
  intros Hf. induction l; [done|]. apply all_acts_bind; [apply Hf|]. intros []; [done|]. apply IHl.
Qed.

(** Such a program is safe when each action of the kind keeps the invariant and the guarantee;
    [L] is what it leaves true of its own. *)
Lemma safe_all_acts (I : S -> Prop) (R G : S -> S -> Prop) `{!PreOrder R} (L : S -> Prop) {A} (p : prog S A) s :
  (forall A (m : st S A) s, P A m -> I s -> L s -> let s' := snd (m s) in G s s' /\ I s' /\ L s') ->
  (forall s s', R s s' -> L s -> L s') -> all_acts p -> L s -> safe I R G p (fun _ => L) s.
Proof.
  intros HP HL. revert s. induction p as [a|C m k IH]; intros s Hp HLs s' HR HI; simpl; [by eapply HL|].
  destruct Hp as [Hm Hk]. pose proof (HP C m s' Hm HI ltac:(by eapply HL)) as H. simpl in H.
  destruct (m s') as [c s'']. destruct H as (HG & HI' & HL'). split_and!; try done. by apply IH.
Qed.
End all_acts.

(** ** Running an action, a loop of looks *)

Lemma wp_act {S A B} (m : st S A) (k : A -> prog S B) Q s :
  wp m (fun a s' => wp (atomically (k a)) Q s') s -> wp (atomically (atom m ≫= k)) Q s.
Proof. unfold wp. cbn. unfold mbind, st_bind. by destruct (m s). Qed.

Lemma any_looks {S A} (l : list A) (f : A -> prog S bool) (p : A -> bool) s :
  (forall x, atomically (f x) s = (p x, s)) -> atomically (any l f) s = (existsb p l, s).
Proof.
  intros Hf. induction l as [|x l IH]; [done|]. cbn [any existsb].
  rewrite atomically_bind. unfold mbind, st_bind. rewrite Hf. destruct (p x); [done|]. exact IH.
Qed.

Lemma atomically_zoom {S T A} (get : T -> S) (put : S -> T -> T) (p : prog S A) t :
  (forall t, put (get t) t = t) -> (forall s t, get (put s t) = s) ->
  (forall s s' t, put s (put s' t) = put s t) ->
  atomically (zoom get put p) t = let '(a, s) := atomically p (get t) in (a, put s t).
Proof.
  intros Hpg Hgp Hpp. revert t. induction p as [a|B m k IH]; intros t; cbn; [by rewrite Hpg|].
  unfold mbind, st_bind. destruct (m (get t)) as [b s]. rewrite IH, Hgp.
  destruct (atomically (k b) s). by rewrite Hpp.
Qed.

(** Loops whose bodies work on parts of the state of their own: what is true of a part before
    its body and after it. *)

Lemma wp_each {S A} (l : list A) (f : A -> prog S unit) (I : S -> Prop) (Before After : A -> S -> Prop) (Q : unit -> S -> Prop) s :
  NoDup l ->
  (forall x s, x ∈ l -> I s -> Before x s -> wp (atomically (f x)) (fun _ s' => I s' /\ After x s' /\
     forall y, y <> x -> (Before y s -> Before y s') /\ (After y s -> After y s')) s) ->
  I s -> (forall x, x ∈ l -> Before x s) -> (forall s', I s' -> (forall x, x ∈ l -> After x s') -> Q tt s') ->
  wp (atomically (each l f)) Q s.
Proof.
  intros Hnd Hf. enough (forall done todo s, done ++ todo = l -> I s -> (forall x, x ∈ done -> After x s) ->
    (forall x, x ∈ todo -> Before x s) ->
    (forall s', I s' -> (forall x, x ∈ l -> After x s') -> Q tt s') -> wp (atomically (each todo f)) Q s) as H.
  { intros HI HB HQ. apply (H [] l); [done|done|by intros x Hx%elem_of_nil|done|done]. }
  intros done todo. revert done. induction todo as [|x todo IH]; intros done s1 Hl HI HA HB HQ.
  - rewrite app_nil_r in Hl. subst. by apply HQ.
  - cbn [each]. apply wp_atomically_bind. subst l. apply NoDup_app in Hnd as Hnd'. destruct Hnd' as (_ & Hd & Hx).
    apply NoDup_cons in Hx as [Hx _].
    eapply wp_mono; [apply Hf; [apply elem_of_app; right; apply list_elem_of_here|done|apply HB, list_elem_of_here]|].
    intros [] s2 (HI2 & HA2 & Hk). cbv beta.
    apply (IH (done ++ [x])); [by rewrite <- app_assoc|done|..|done].
    + intros y [Hy | ->%list_elem_of_singleton]%elem_of_app; [|done].
      apply Hk; [|by apply HA]. intros ->. eapply Hd; [exact Hy|apply list_elem_of_here].
    + intros y Hy. apply Hk; [by intros ->|]. apply HB. by apply list_elem_of_further.
Qed.

(** The loop ends early: what the bodies before it and that one left. *)
Lemma wp_each_until {S A} (bad : Z -> bool) (l : list A) (f : A -> prog S Z) (I : S -> Prop)
    (Before After : A -> S -> Prop) (Failed : A -> Z -> S -> Prop) (Q : Z -> S -> Prop) s :
  NoDup l ->
  (forall x s, x ∈ l -> I s -> Before x s -> wp (atomically (f x)) (fun e s' => I s' /\
     (if bad e then Failed x e s' else After x s') /\
     forall y, y <> x -> (Before y s -> Before y s') /\ (After y s -> After y s')) s) ->
  I s -> (forall x, x ∈ l -> Before x s) ->
  (forall s', I s' -> (forall x, x ∈ l -> After x s') -> Q 0 s') ->
  (forall x e s', x ∈ l -> bad e = true -> I s' -> Failed x e s' ->
     (forall y, y ∈ l -> y <> x -> Before y s' \/ After y s') -> Q e s') ->
  wp (atomically (each_until bad l f)) Q s.
Proof.
  intros Hnd Hf. enough (forall done todo s, done ++ todo = l -> I s -> (forall x, x ∈ done -> After x s) ->
    (forall x, x ∈ todo -> Before x s) ->
    (forall s', I s' -> (forall x, x ∈ l -> After x s') -> Q 0 s') ->
    (forall x e s', x ∈ l -> bad e = true -> I s' -> Failed x e s' ->
       (forall y, y ∈ l -> y <> x -> Before y s' \/ After y s') -> Q e s') ->
    wp (atomically (each_until bad todo f)) Q s) as H.
  { intros HI HB HQ. apply (H [] l); [done|done|by intros x Hx%elem_of_nil|done|done]. }
  intros done todo. revert done. induction todo as [|x todo IH]; intros done s1 Hl HI HA HB HQ HF.
  - rewrite app_nil_r in Hl. subst. by apply HQ.
  - cbn [each_until]. apply wp_atomically_bind. subst l. apply NoDup_app in Hnd as Hnd'. destruct Hnd' as (_ & Hd & Hx).
    apply NoDup_cons in Hx as [Hx _].
    assert (forall y, y ∈ done -> y <> x) as Hdx by (intros y Hy ->; eapply Hd; [exact Hy|apply list_elem_of_here]).
    assert (x ∈ done ++ x :: todo) as Hin by (apply elem_of_app; right; apply list_elem_of_here).
    eapply wp_mono; [apply Hf; [done|done|apply HB, list_elem_of_here]|].
    intros e s2 (HI2 & HA2 & Hk). cbv beta. destruct (bad e) eqn:He.
    + apply (HF x); [done..|]. intros y [Hy|Hy]%elem_of_app Hyx.
      * right. apply Hk; auto.
      * apply elem_of_cons in Hy as [->|Hy]; [done|]. left. apply Hk; [done|].
        apply HB. by apply list_elem_of_further.
    + apply (IH (done ++ [x])); [by rewrite <- app_assoc|done|..|done|done].
      * intros y [Hy | ->%list_elem_of_singleton]%elem_of_app; [|done]. apply Hk; auto.
      * intros y Hy. apply Hk; [by intros ->|]. apply HB. by apply list_elem_of_further.
Qed.

(** ** Parts of the state that a program leaves alone *)

Section leaves.
Context {S X : Type} (F : S -> X).

Definition leaves {A} (p : prog S A) : Prop := forall s, F (snd (atomically p s)) = F s.

Lemma leaves_wp {A} (p : prog S A) (Q : A -> S -> Prop) s :
  leaves p -> (forall a s', F s' = F s -> Q a s') -> wp (atomically p) Q s.
Proof. intros Hp HQ. apply HQ, Hp. Qed.
Lemma leaves_ret {A} (a : A) : leaves (mret a).
Proof. done. Qed.
Lemma leaves_atom {A} (m : st S A) : (forall s, F (snd (m s)) = F s) -> leaves (atom m).
Proof. intros Hm s. cbn. unfold mbind, st_bind. specialize (Hm s). by destruct (m s). Qed.
Lemma leaves_gets {A} (f : S -> A) : leaves (atom (gets f)).
Proof. done. Qed.
Lemma leaves_bind {A B} (p : prog S A) (k : A -> prog S B) :
  leaves p -> (forall a, leaves (k a)) -> leaves (p ≫= k).
Proof.
  intros Hp Hk s. rewrite atomically_bind. unfold mbind, st_bind. specialize (Hp s).
  destruct (atomically p s) as [a s1]. by rewrite Hk.
Qed.
Lemma leaves_if {A} (b : bool) (p q : prog S A) : leaves p -> leaves q -> leaves (if b then p else q).
Proof. by destruct b. Qed.
Lemma leaves_each {A} (l : list A) (f : A -> prog S unit) : (forall x, leaves (f x)) -> leaves (each l f).
Proof. intros Hf. induction l; [done|]. by apply leaves_bind. Qed.
Lemma leaves_any {A} (l : list A) (f : A -> prog S bool) : (forall x, leaves (f x)) -> leaves (any l f).
Proof. intros Hf. induction l; [done|]. apply leaves_bind; [done|]. by intros []. Qed.
Lemma leaves_until {A} bad (l : list A) (f : A -> prog S Z) : (forall x, leaves (f x)) -> leaves (each_until bad l f).
Proof. intros Hf. induction l; [done|]. apply leaves_bind; [done|]. intros e. by apply leaves_if. Qed.
Lemma leaves_result {A} (l : list A) (f : A -> prog S Z) r : (forall x, leaves (f x)) -> leaves (each_result l f r).
Proof. intros Hf. revert r. induction l as [|x l IH]; intros r; [done|]. by apply leaves_bind. Qed.
Lemma leaves_wait (c : prog S bool) polls : leaves c -> leaves (wait_for c polls).
Proof.
  intros Hc. induction polls as [|polls IH]; (apply leaves_bind; [done|]); intros []; try done.
Qed.
End leaves.

Lemma leaves_zoom {S T X Y A} (F : S -> X) (F' : T -> Y) (get : T -> S) (put : S -> T -> T) (p : prog S A) :
  (forall t, put (get t) t = t) -> (forall s t, get (put s t) = s) ->
  (forall s s' t, put s (put s' t) = put s t) ->
  (forall s t, F s = F (get t) -> F' (put s t) = F' t) -> leaves F p -> leaves F' (zoom get put p).
Proof.
  intros H1 H2 H3 HF Hp t. rewrite atomically_zoom by done. specialize (Hp (get t)).
  destruct (atomically p (get t)). by apply HF.
Qed.

Create HintDb leaves.
#[export] Hint Resolve leaves_ret leaves_gets : leaves.
Ltac leaves_auto :=
  repeat first
    [ solve [eauto with leaves]
    | apply leaves_bind; [|intros ?]
    | apply leaves_if
    | apply leaves_each; intros ?
    | apply leaves_any; intros ?
    | apply leaves_until; intros ?
    | apply leaves_result; intros ?
    | apply leaves_wait
    | solve [apply leaves_atom; done]
    | match goal with
      | |- leaves _ (match ?x with _ => _ end) => destruct x
      end ].
