(* ===== verification/Fields.v ===== *)
(** * Bit fields of the GuC and IOV messages

    The kernel's [FIELD_GET], [FIELD_PREP] and [FIELD_MAX] on constant masks, the laws that
    decompose a dword packed with [|], and the constants of the KLV and HXG message layouts
    (gt/uc/abi/guc_klvs_abi.h, gt/uc/abi/guc_messages_abi.h). *)

From S2P Require Export Prelude.

(** ** The operations *)

(** [__bf_shf]: the index of the lowest bit of the mask. *)
Definition bf_shf (mask : Z) : Z := Z.log2 (Z.land mask (- mask)).
Definition FIELD_GET (mask reg : Z) : Z := Z.shiftr (Z.land reg mask) (bf_shf mask).
Definition FIELD_PREP (mask val : Z) : Z := Z.land (Z.shiftl val (bf_shf mask)) mask.
Definition FIELD_MAX (mask : Z) : Z := Z.shiftr mask (bf_shf mask).
Definition FIELD_FIT (mask val : Z) : bool := Z.land (Z.shiftl val (bf_shf mask)) (Z.lnot mask) =? 0.

(** [is_field mask w lo]: the mask has [w] ones from bit [lo] up. *)
Class is_field (mask w lo : Z) : Prop := {
  field_eq : mask = Z.shiftl (Z.ones w) lo;
  field_shf : bf_shf mask = lo;
  field_w : 0 <= w;
  field_lo : 0 <= lo;
}.
#[export] Hint Mode is_field + - - : typeclass_instances.

Ltac solve_field := constructor; [reflexivity | reflexivity | lia | lia].

(** ** Laws *)

Section laws.
Context (m w lo : Z) `{F : !is_field m w lo}.

Lemma FIELD_GET_bits x : FIELD_GET m x = Z.land (Z.shiftr x lo) (Z.ones w).
Proof using F.
  unfold FIELD_GET. rewrite field_shf, (field_eq (mask := m)).
  pose proof (field_lo (mask := m)). pose proof (field_w (mask := m)).
  apply Z.bits_inj'; intros n Hn.
  rewrite Z.shiftr_spec, !Z.land_spec, Z.shiftl_spec, Z.shiftr_spec by lia.
  f_equal. f_equal. lia.
Qed.

Lemma FIELD_GET_mod x : FIELD_GET m x = (x / 2 ^ lo) mod 2 ^ w.
Proof using F.
  pose proof (field_lo (mask := m)). pose proof (field_w (mask := m)).
  by rewrite FIELD_GET_bits, Z.land_ones, Z.shiftr_div_pow2 by lia.
Qed.

Lemma FIELD_GET_range x : 0 <= FIELD_GET m x < 2 ^ w.
Proof using F.
  rewrite FIELD_GET_mod. pose proof (field_w (mask := m)).
  apply Z.mod_pos_bound, Z.pow_pos_nonneg; lia.
Qed.

Lemma FIELD_GET_PREP v : FIELD_GET m (FIELD_PREP m v) = v mod 2 ^ w.
Proof using F.
  pose proof (field_lo (mask := m)). pose proof (field_w (mask := m)).
  rewrite FIELD_GET_bits. unfold FIELD_PREP.
  rewrite field_shf, (field_eq (mask := m)) at 1.
  rewrite <- Z.land_ones by lia.
  apply Z.bits_inj'; intros n Hn.
  rewrite !Z.land_spec, Z.shiftr_spec, Z.land_spec, !Z.shiftl_spec by lia.
  replace (n + lo - lo) with n by lia. by destruct (Z.testbit v n), (Z.testbit (Z.ones w) n).
Qed.

Lemma FIELD_GET_PREP_small v : 0 <= v < 2 ^ w -> FIELD_GET m (FIELD_PREP m v) = v.
Proof using F. intros. rewrite FIELD_GET_PREP. by apply Z.mod_small. Qed.
End laws.

Lemma FIELD_GET_lor m a b : FIELD_GET m (Z.lor a b) = Z.lor (FIELD_GET m a) (FIELD_GET m b).
Proof. unfold FIELD_GET. by rewrite Z.land_lor_distr_l, Z.shiftr_lor. Qed.

(** A field does not see the bits of a disjoint one. *)
Lemma FIELD_GET_PREP_disj m m' v :
  Z.land m m' = 0 -> FIELD_GET m (FIELD_PREP m' v) = 0.
Proof.
  intros H. unfold FIELD_GET, FIELD_PREP.
  rewrite <- Z.land_assoc, (Z.land_comm m' m), H, Z.land_0_r. apply Z.shiftr_0_l.
Qed.

Lemma FIELD_PREP_0 m : FIELD_PREP m 0 = 0.
Proof. unfold FIELD_PREP. by rewrite Z.shiftl_0_l, Z.land_0_l. Qed.

Lemma land_le_r a m : 0 <= m -> 0 <= Z.land a m <= m.
Proof.
  intros Hm. split; [apply Z.land_nonneg; by right|].
  assert (m - Z.land a m = Z.ldiff m (Z.land a m)) as E.
  { apply Z.sub_nocarry_ldiff, Z.bits_inj'; intros n Hn.
    rewrite Z.ldiff_spec, Z.land_spec, Z.bits_0.
    by destruct (Z.testbit a n), (Z.testbit m n). }
  assert (0 <= Z.ldiff m (Z.land a m)) by (apply Z.ldiff_nonneg; by left). lia.
Qed.

Lemma FIELD_PREP_range m v : 0 <= m -> 0 <= FIELD_PREP m v <= m.
Proof.
  intros Hm. unfold FIELD_PREP. by apply land_le_r.
Qed.

Lemma lor_range a b k : 0 <= k -> 0 <= a < 2 ^ k -> 0 <= b < 2 ^ k -> 0 <= Z.lor a b < 2 ^ k.
Proof.
  intros Hk Ha Hb. assert (0 <= Z.lor a b) by (apply Z.lor_nonneg; lia). split; [done|].
  destruct (Z.eq_dec a 0) as [->|]; [rewrite Z.lor_0_l; lia|].
  destruct (Z.eq_dec b 0) as [->|]; [rewrite Z.lor_0_r; lia|].
  assert (0 < Z.lor a b).
  { destruct (Z.eq_dec (Z.lor a b) 0) as [E|]; [|lia]. apply Z.lor_eq_0_iff in E. lia. }
  apply Z.log2_lt_pow2; [lia|]. rewrite Z.log2_lor by lia.
  apply Z.max_lub_lt; apply Z.log2_lt_pow2; lia.
Qed.

(** Reads a field of a dword packed with [|]: the goal's [FIELD_GET]s are rewritten to the
    packed values, each side condition being decided by computation. *)
Create Rewrite HintDb fields.
#[export] Hint Rewrite FIELD_GET_lor FIELD_PREP_0 Z.lor_0_r Z.lor_0_l : fields.
Ltac field_step :=
  match goal with
  | |- context [ FIELD_GET ?m (FIELD_PREP ?m ?v) ] =>
      rewrite (FIELD_GET_PREP_small m _ _ v) by (try assumption; lia)
  | |- context [ FIELD_GET ?m (FIELD_PREP ?m' ?v) ] =>
      rewrite (FIELD_GET_PREP_disj m m' v) by reflexivity
  end.
Ltac field_simpl := autorewrite with fields; repeat (field_step; autorewrite with fields).

(** ** KLV layout (gt/uc/abi/guc_klvs_abi.h) *)

Definition GUC_KLV_LEN_MIN : Z := 1.
Definition GUC_KLV_0_KEY : Z := 0xffff0000.
Definition GUC_KLV_0_LEN : Z := 0xffff.

#[export] Instance KLV_KEY_field : is_field GUC_KLV_0_KEY 16 16.
Proof. solve_field. Qed.
#[export] Instance KLV_LEN_field : is_field GUC_KLV_0_LEN 16 0.
Proof. solve_field. Qed.

Definition GUC_KLV_VGT_POLICY_SCHED_IF_IDLE_KEY : Z := 0x8001.
Definition GUC_KLV_VGT_POLICY_ADVERSE_SAMPLE_PERIOD_KEY : Z := 0x8002.
Definition GUC_KLV_VGT_POLICY_RESET_AFTER_VF_SWITCH_KEY : Z := 0x8D00.

Definition GUC_KLV_VF_CFG_GGTT_START_KEY : Z := 0x0001.
Definition GUC_KLV_VF_CFG_GGTT_SIZE_KEY : Z := 0x0002.
Definition GUC_KLV_VF_CFG_NUM_CONTEXTS_KEY : Z := 0x0004.
Definition GUC_KLV_VF_CFG_NUM_DOORBELLS_KEY : Z := 0x0006.
Definition GUC_KLV_VF_CFG_EXEC_QUANTUM_KEY : Z := 0x8a01.
Definition GUC_KLV_VF_CFG_PREEMPT_TIMEOUT_KEY : Z := 0x8a02.
Definition GUC_KLV_VF_CFG_THRESHOLD_CAT_ERR_KEY : Z := 0x8a03.
Definition GUC_KLV_VF_CFG_THRESHOLD_ENGINE_RESET_KEY : Z := 0x8a04.
Definition GUC_KLV_VF_CFG_THRESHOLD_PAGE_FAULT_KEY : Z := 0x8a05.
Definition GUC_KLV_VF_CFG_THRESHOLD_H2G_STORM_KEY : Z := 0x8a06.
Definition GUC_KLV_VF_CFG_THRESHOLD_IRQ_STORM_KEY : Z := 0x8a07.
Definition GUC_KLV_VF_CFG_THRESHOLD_DOORBELL_STORM_KEY : Z := 0x8a08.
Definition GUC_KLV_VF_CFG_BEGIN_DOORBELL_ID_KEY : Z := 0x8a0a.
Definition GUC_KLV_VF_CFG_BEGIN_CONTEXT_ID_KEY : Z := 0x8a0b.

(** ** HXG messages (gt/uc/abi/guc_messages_abi.h) *)

Definition GUC_HXG_MSG_MIN_LEN : Z := 1.
Definition GUC_HXG_MSG_0_ORIGIN : Z := 0x80000000.
Definition GUC_HXG_ORIGIN_HOST : Z := 0.
Definition GUC_HXG_ORIGIN_GUC : Z := 1.
Definition GUC_HXG_MSG_0_TYPE : Z := 0x70000000.
Definition GUC_HXG_TYPE_REQUEST : Z := 0.
Definition GUC_HXG_TYPE_EVENT : Z := 1.
Definition GUC_HXG_TYPE_FAST_REQUEST : Z := 2.
Definition GUC_HXG_TYPE_NO_RESPONSE_BUSY : Z := 3.
Definition GUC_HXG_TYPE_NO_RESPONSE_RETRY : Z := 5.
Definition GUC_HXG_TYPE_RESPONSE_FAILURE : Z := 6.
Definition GUC_HXG_TYPE_RESPONSE_SUCCESS : Z := 7.
Definition GUC_HXG_MSG_0_AUX : Z := 0xfffffff.
Definition GUC_HXG_REQUEST_MSG_0_DATA0 : Z := 0xfff0000.
Definition GUC_HXG_REQUEST_MSG_0_ACTION : Z := 0xffff.
Definition GUC_HXG_EVENT_MSG_0_DATA0 : Z := 0xfff0000.
Definition GUC_HXG_EVENT_MSG_0_ACTION : Z := 0xffff.
Definition GUC_HXG_RETRY_MSG_0_REASON : Z := 0xfffffff.
Definition GUC_HXG_FAILURE_MSG_0_HINT : Z := 0xfff0000.
Definition GUC_HXG_FAILURE_MSG_0_ERROR : Z := 0xffff.
Definition GUC_HXG_RESPONSE_MSG_0_DATA0 : Z := 0xfffffff.

#[export] Instance HXG_ORIGIN_field : is_field GUC_HXG_MSG_0_ORIGIN 1 31.
Proof. solve_field. Qed.
#[export] Instance HXG_TYPE_field : is_field GUC_HXG_MSG_0_TYPE 3 28.
Proof. solve_field. Qed.
#[export] Instance HXG_AUX_field : is_field GUC_HXG_MSG_0_AUX 28 0.
Proof. solve_field. Qed.
#[export] Instance HXG_DATA0_field : is_field GUC_HXG_REQUEST_MSG_0_DATA0 12 16.
Proof. solve_field. Qed.
#[export] Instance HXG_ACTION_field : is_field GUC_HXG_REQUEST_MSG_0_ACTION 16 0.
Proof. solve_field. Qed.
#[export] Instance HXG_HINT_field : is_field GUC_HXG_FAILURE_MSG_0_HINT 12 16.
Proof. solve_field. Qed.
#[export] Instance HXG_ERROR_field : is_field GUC_HXG_FAILURE_MSG_0_ERROR 16 0.
Proof. solve_field. Qed.
#[export] Instance HXG_RESP_DATA0_field : is_field GUC_HXG_RESPONSE_MSG_0_DATA0 28 0.
Proof. solve_field. Qed.

(** ** Messages of GuC (gt/uc/abi/guc_actions_pf_abi.h, guc_actions_vf_abi.h) *)

Definition GUC_ACTION_GUC2PF_VF_STATE_NOTIFY : Z := 0x5106.
Definition GUC_ACTION_GUC2PF_ADVERSE_EVENT : Z := 0x5104.
Definition GUC_ACTION_GUC2PF_RELAY_FROM_VF : Z := 0x5100.
Definition GUC_ACTION_GUC2VF_RELAY_FROM_PF : Z := 0x5102.
Definition GUC_ACTION_GUC2PF_MMIO_RELAY_SERVICE : Z := 0x5006.
