(* ===== verification/Bitmap.v ===== *)
(** * Kernel bitmaps (include/linux/bitmap.h)

    The driver calls the kernel's bitmap library to place contexts and doorbells. A bitmap is
    a [Z] read with [Z.testbit]; the operations are those of the class [BitmapOps], their
    documented behaviour the laws of [BitmapLaws]. The instance at the end shows that the laws
    can be met and evaluates the witnesses. *)

From S2P Require Export Prelude.

(** ** Interface *)

Class BitmapOps := {
  bitmap_set : Z -> Z -> Z -> Z;
  (** the pairs [(rs, re)] visited by [for_each_clear_bitrange] below [size] *)
  clear_bitranges : Z -> Z -> list (Z * Z);
  bitmap_weight : Z -> Z -> Z;
  bitmap_find_next_zero_area : Z -> Z -> Z -> Z -> Z -> Z;
}.

Definition bit_in (s n i : Z) : bool := (s <=? i) && (i <? s + n).

(** The bits of [s, e) are all [b]. *)
Definition bits_are (b : bool) (bm s e : Z) : Prop :=
  forall i, s <= i < e -> Z.testbit bm i = b.

(** [clear_runs bm size p l]: [l] lists, from left to right, the maximal runs of clear bits of
    [bm] between [p] and [size]. *)
Inductive clear_runs (bm size : Z) : Z -> list (Z * Z) -> Prop :=
| runs_nil p : bits_are true bm p size -> clear_runs bm size p []
| runs_cons p rs re l :
    p <= rs -> rs < re -> re <= size ->
    bits_are true bm p rs -> bits_are false bm rs re ->
    (re < size -> Z.testbit bm re = true) ->
    clear_runs bm size re l ->
    clear_runs bm size p ((rs, re) :: l).

Definition count_set (bm n : Z) : Z :=
  Z.of_nat (length (filter (fun i => Z.testbit bm i = true) (seqZ 0 n))).

Class BitmapLaws (B : BitmapOps) : Prop := {
  bitmap_set_spec bm s n i :
    0 <= s -> 0 <= n -> 0 <= i ->
    Z.testbit (bitmap_set bm s n) i = Z.testbit bm i || bit_in s n i;
  clear_bitranges_spec bm size : 0 <= size -> clear_runs bm size 0 (clear_bitranges bm size);
  bitmap_weight_spec bm n : 0 <= n -> bitmap_weight bm n = count_set bm n;
  zero_area_spec bm size nr :
    0 < nr -> 0 <= size ->
    let r := bitmap_find_next_zero_area bm size 0 nr 0 in
    (0 <= r /\ r + nr <= size /\ bits_are false bm r (r + nr)) \/
    (size < r /\ forall s, 0 <= s -> s + nr <= size -> ~ bits_are false bm s (s + nr));
}.

(** ** Properties of the runs *)

Definition run_size (r : Z * Z) : Z := r.2 - r.1.

Section runs.
Context {bm size : Z}.

Lemma clear_runs_range p l rs re :
  clear_runs bm size p l -> (rs, re) ∈ l ->
  p <= rs /\ rs < re /\ re <= size /\ bits_are false bm rs re.
Proof.
  induction 1 as [|p a b l Hp Hab Hb Hset Hclr Hend Hl IH]; intros Hin; [by apply elem_of_nil in Hin|].
  apply elem_of_cons in Hin as [[= -> ->]|Hin]; [done|].
  destruct (IH Hin) as (?&?&?&?). repeat split; try done; lia.
Qed.

(** Every clear range lies inside one run. *)
Lemma clear_runs_cover p l s n :
  clear_runs bm size p l -> p <= s -> 0 < n -> s + n <= size ->
  bits_are false bm s (s + n) ->
  exists rs re, (rs, re) ∈ l /\ rs <= s /\ s + n <= re.
Proof.
  intros Hr. revert s. induction Hr as [p Hset|p a b l Hp Hab Hb Hset Hclr Hend Hl IH];
    intros s Hs Hn Hsz Hbits.
  - specialize (Hset s ltac:(lia)). specialize (Hbits s ltac:(lia)). congruence.
  - destruct (Z.lt_ge_cases s a).
    { specialize (Hset s ltac:(lia)). specialize (Hbits s ltac:(lia)). congruence. }
    destruct (Z.lt_ge_cases s b).
    + exists a, b. split; [apply list_elem_of_here|]. split; [done|].
      destruct (Z.le_gt_cases (s + n) b); [done|].
      specialize (Hend ltac:(lia)). specialize (Hbits b ltac:(lia)). congruence.
    + destruct (IH s) as (rs & re & ? & ? & ?); try lia; [done|].
      exists rs, re. split; [by apply list_elem_of_further|done].
Qed.

Lemma clear_runs_sizes p l :
  clear_runs bm size p l -> Forall (fun r => 0 <= run_size r) l.
Proof. induction 1; constructor; [unfold run_size; simpl; lia|done]. Qed.

Lemma clear_runs_extend p q l :
  p <= q -> bits_are true bm p q -> clear_runs bm size q l -> clear_runs bm size p l.
Proof.
  intros Hpq Hpre Hr. inversion Hr as [|? rs re l' ? ? ? Hset]; subst; constructor;
    try done; try lia; intros i Hi; (destruct (Z.lt_ge_cases i q); [apply Hpre; lia|]); auto with lia.
Qed.

(** The runs and the set bits partition the bitmap. *)
Lemma clear_runs_le_last p l :
  clear_runs bm size p l -> p <= size -> sumZ (run_size <$> l) <= size - p.
Proof.
  induction 1 as [|p a b l Hp Hab Hb Hset Hclr Hend Hl IH]; intros; [unfold sumZ; simpl; lia|].
  rewrite fmap_cons. specialize (IH ltac:(lia)). unfold sumZ, run_size in *; simpl in *. lia.
Qed.
End runs.

(** ** Counting *)

Lemma count_set_range bm n : 0 <= n -> 0 <= count_set bm n <= n.
Proof.
  intros Hn. unfold count_set. pose proof (length_filter (fun i => Z.testbit bm i = true) (seqZ 0 n)).
  rewrite length_seqZ in *. lia.
Qed.

Lemma count_set_succ bm n :
  0 <= n -> count_set bm (n + 1) = count_set bm n + Z.b2z (Z.testbit bm n).
Proof.
  intros Hn. unfold count_set. rewrite (seqZ_app 0 n 1) by lia.
  rewrite list.filter_app, length_app, Nat2Z.inj_add. f_equal.
  change (seqZ (0 + n) 1) with [0 + 0 + n]%Z. cbn [filter list_filter].
  replace (0 + 0 + n) with n by lia.
  case_decide as H; [by rewrite H|]. by destruct (Z.testbit bm n).
Qed.

Lemma count_set_mono bm m n : 0 <= m <= n -> count_set bm m <= count_set bm n.
Proof.
  intros Hm. replace n with (m + (n - m)) by lia. assert (0 <= n - m) as Hk by lia. revert Hk.
  generalize (n - m). apply natlike_ind; [by rewrite Z.add_0_r|].
  intros k Hk IH. unfold Z.succ. rewrite Z.add_assoc, count_set_succ by lia.
  destruct (Z.testbit bm (m + k)); simpl; lia.
Qed.

(** Adding a clear range of [k] bits adds [k] to the count. *)
Lemma count_set_union bm bm' s k n :
  0 <= s -> 0 <= k -> s + k <= n ->
  bits_are false bm s (s + k) ->
  (forall i, 0 <= i -> Z.testbit bm' i = Z.testbit bm i || bit_in s k i) ->
  count_set bm' n = count_set bm n + k.
Proof.
  intros Hs Hk Hn Hclr Hbit.
  cut (forall m, 0 <= m -> count_set bm' m = count_set bm m + Z.max 0 (Z.min (m - s) k)).
  { intros H. rewrite H by lia. lia. }
  apply natlike_ind; [unfold count_set; simpl; lia|].
  intros m Hm IH. unfold Z.succ. rewrite !count_set_succ, IH, Hbit by lia.
  unfold bit_in. destruct (Z.leb_spec s m), (Z.ltb_spec m (s + k));
    rewrite ?orb_true_r, ?orb_false_r; simpl; try lia.
  rewrite (Hclr m) by lia. simpl. lia.
Qed.

Lemma count_set_0 n : 0 <= n -> count_set 0 n = 0.
Proof.
  revert n. apply natlike_ind; [done|]. intros n Hn IH. unfold Z.succ.
  by rewrite count_set_succ, IH, Z.bits_0 by done.
Qed.

(** A range of [k] equal bits. *)
Lemma count_set_const b bm s k :
  0 <= s -> 0 <= k -> bits_are b bm s (s + k) ->
  count_set bm (s + k) = count_set bm s + if b then k else 0.
Proof.
  intros Hs Hk. revert k Hk. apply (natlike_ind (fun k => bits_are b bm s (s + k) -> _)).
  - intros _. rewrite Z.add_0_r. by destruct b; rewrite Z.add_0_r.
  - intros k Hk IH Hb. unfold Z.succ. rewrite Z.add_assoc, count_set_succ, (Hb (s + k)) by lia.
    rewrite IH by (intros i Hi; apply Hb; lia). destruct b; simpl; lia.
Qed.

(** The clear runs and the set bits make up the bitmap. *)
Lemma clear_runs_count bm size p l :
  clear_runs bm size p l -> 0 <= p <= size ->
  sumZ (run_size <$> l) + count_set bm size = size - p + count_set bm p.
Proof.
  induction 1 as [p Hset|p a b l Hp Hab Hb Hset Hclr Hend Hl IH]; intros Hps.
  - pose proof (count_set_const true bm p (size - p) ltac:(lia) ltac:(lia)) as Hc.
    replace (p + (size - p)) with size in Hc by lia. rewrite Hc by done. unfold sumZ; simpl. lia.
  - rewrite fmap_cons. specialize (IH ltac:(lia)).
    pose proof (count_set_const true bm p (a - p) ltac:(lia) ltac:(lia)) as Hc1.
    pose proof (count_set_const false bm a (b - a) ltac:(lia) ltac:(lia)) as Hc2.
    replace (p + (a - p)) with a in Hc1 by lia. replace (a + (b - a)) with b in Hc2 by lia.
    specialize (Hc1 Hset). specialize (Hc2 Hclr).
    unfold sumZ, run_size in *; simpl in *. lia.
Qed.

(** ** Filling a bitmap in a loop *)

Section fill.
Context {I : Type} `{B : BitmapOps} `{!BitmapLaws B}.

(** The callers' loop: one [bitmap_set] per index that owns a range. *)
Definition fill_ranges (range : I -> option (Z * Z)) (bm : Z) (ids : list I) : Z :=
  foldl (fun bm i => match range i with Some (s, n) => bitmap_set bm s n | None => bm end) bm ids.

Lemma fill_ranges_ext range range' bm ids :
  (forall x, range x = range' x) -> fill_ranges range bm ids = fill_ranges range' bm ids.
Proof.
  intros Heq. unfold fill_ranges. revert bm.
  induction ids as [|x ids IH]; intros bm; simpl; [done|]. by rewrite IH, Heq.
Qed.

Definition range_has (range : I -> option (Z * Z)) (i : Z) (x : I) : bool :=
  match range x with Some (s, n) => bit_in s n i | None => false end.

Lemma fill_ranges_spec range bm ids i :
  0 <= i -> Forall (fun x => forall s n, range x = Some (s, n) -> 0 <= s /\ 0 <= n) ids ->
  Z.testbit (fill_ranges range bm ids) i = Z.testbit bm i || existsb (range_has range i) ids.
Proof using Type*.
  intros Hi Hr. unfold fill_ranges. revert bm.
  induction Hr as [|x ids Hx Hids IH]; intros bm; simpl; [by rewrite orb_false_r|].
  rewrite IH. unfold range_has at 2. destruct (range x) as [[s n]|]; [|done].
  destruct (Hx s n) as [? ?]; [done|]. by rewrite bitmap_set_spec, orb_assoc.
Qed.

(** A bit of the filled bitmap is clear iff no range holds it. *)
Lemma fill_ranges_clear range ids i :
  0 <= i -> Forall (fun x => forall s n, range x = Some (s, n) -> 0 <= s /\ 0 <= n) ids ->
  Z.testbit (fill_ranges range 0 ids) i = false <->
    forall x s n, x ∈ ids -> range x = Some (s, n) -> ~ (s <= i < s + n).
Proof using Type*.
  intros Hi Hr. rewrite fill_ranges_spec, Z.bits_0 by done. simpl.
  rewrite <- not_true_iff_false, existsb_exists. unfold range_has, bit_in. split.
  - intros Hno x s n Hx Hs Hin. apply Hno. exists x. split; [by apply list_elem_of_In|].
    rewrite Hs. apply andb_true_iff. lia.
  - intros Hno (x & Hx%list_elem_of_In & Hb). destruct (range x) as [[s n]|] eqn:E; [|done].
    propify. by apply (Hno x s n).
Qed.
End fill.

(** ** An implementation *)

Module Zbitmap.
Definition set (bm s n : Z) : Z := Z.lor bm (Z.shiftl (Z.ones n) s).

(** The run being scanned is [Some rs]. *)
Fixpoint runs (bm p : Z) (fuel : nat) (cur : option Z) : list (Z * Z) :=
  match fuel with
  | O => match cur with Some rs => [(rs, p)] | None => [] end
  | S f =>
      if Z.testbit bm p then
        match cur with
        | Some rs => (rs, p) :: runs bm (p + 1) f None
        | None => runs bm (p + 1) f None
        end
      else runs bm (p + 1) f (Some (default p cur))
  end.

Definition clear_at (bm nr s : Z) : bool :=
  forallb (fun i => negb (Z.testbit bm i)) (seqZ s nr).

Definition zero_area (bm size start nr : Z) : Z :=
  default (size + 1)
    (head (filter (fun s => clear_at bm nr s = true) (seqZ start (size - nr + 1 - start)))).
End Zbitmap.

#[export] Instance Zbitmap_ops : BitmapOps := {|
  bitmap_set := Zbitmap.set;
  clear_bitranges bm size := Zbitmap.runs bm 0 (Z.to_nat size) None;
  bitmap_weight := count_set;
  bitmap_find_next_zero_area bm size start nr _ := Zbitmap.zero_area bm size start nr;
|}.

Lemma Zbitmap_runs_spec bm fuel p cur size :
  0 <= p -> size = p + Z.of_nat fuel ->
  match cur with
  | None => clear_runs bm size p (Zbitmap.runs bm p fuel None)
  | Some rs => rs < p -> bits_are false bm rs p ->
      exists re l, Zbitmap.runs bm p fuel cur = (rs, re) :: l /\ p <= re <= size /\
        bits_are false bm rs re /\ (re < size -> Z.testbit bm re = true) /\
        clear_runs bm size re l
  end.
Proof.
  revert p cur. induction fuel as [|f IH]; intros p cur Hp Hs; cbn [Zbitmap.runs].
  - destruct cur as [rs|].
    + intros Hrs Hb. exists p, []. repeat split; try done; try lia.
      constructor. intros i Hi. lia.
    + constructor. intros i Hi. lia.
  - destruct (Z.testbit bm p) eqn:E.
    + pose proof (IH (p + 1) None ltac:(lia) ltac:(lia)) as Hn. cbv beta iota in Hn.
      assert (Hn' : clear_runs bm size p (Zbitmap.runs bm (p + 1) f None)).
      { apply (clear_runs_extend _ (p + 1)); [lia| |done].
        intros i Hi. by replace i with p by lia. }
      destruct cur as [rs|]; [|done].
      intros Hrs Hb. exists p, (Zbitmap.runs bm (p + 1) f None). repeat split; try done; lia.
    + pose proof (IH (p + 1) (Some (default p cur)) ltac:(lia) ltac:(lia)) as Hc.
      destruct cur as [rs|]; simpl in *.
      * intros Hrs Hb. destruct Hc as (re & l & -> & ? & ? & ? & ?); [lia| |].
        { intros i Hi. destruct (Z.eq_dec i p) as [->|]; [done|]. apply Hb. lia. }
        exists re, l. repeat split; try done; lia.
      * destruct Hc as (re & l & -> & ? & ? & ? & ?); [lia| |].
        { intros i Hi. replace i with p by lia. done. }
        constructor; try done; try lia. intros i Hi. lia.
Qed.

#[export] Instance Zbitmap_laws : BitmapLaws Zbitmap_ops.
Proof.
  constructor.
  - intros bm s n i Hs Hn Hi. cbn. unfold Zbitmap.set, bit_in. rewrite Z.lor_spec. f_equal.
    rewrite Z.shiftl_spec by lia.
    destruct (Z.leb_spec s i); simpl; [|by apply Z.testbit_neg_r; lia].
    rewrite Z.testbit_ones by lia. destruct (Z.ltb_spec i (s + n)), (Z.leb_spec 0 (i - s)),
      (Z.ltb_spec (i - s) n); simpl; lia.
  - intros bm size Hs. apply (Zbitmap_runs_spec bm (Z.to_nat size) 0 None); lia.
  - done.
  - intros bm size nr Hnr Hsz. cbn. unfold Zbitmap.zero_area.
    destruct (filter _ _) as [|r l] eqn:E; simpl.
    + right. split; [lia|]. intros s Hs Hle Hclr.
      apply (filter_nil_not_elem_of _ _ s E); [|apply elem_of_seqZ; lia].
      apply forallb_forall. intros i Hi%list_elem_of_In%elem_of_seqZ. by rewrite Hclr by lia.
    + left. assert (r ∈ r :: l) as Hr by apply list_elem_of_here.
      rewrite <- E in Hr. apply list_elem_of_filter in Hr as [Hc Hr%elem_of_seqZ].
      repeat split; try lia. intros i Hi. unfold Zbitmap.clear_at in Hc.
      rewrite forallb_forall in Hc. apply negb_true_iff, Hc.
      apply list_elem_of_In, elem_of_seqZ. lia.
Qed.
