(* ===== verification/PfState.v ===== *)
(** * State of the Physical Function

    The structures of gt/iov/intel_iov_types.h that the PF side keeps, the device state the
    provisioning code reads and writes, the environment it talks to (the GuC firmware, the
    memory allocator, the range manager of the GGTT) and the primitive actions of the state
    monad the components are written in. *)

From S2P Require Export Prelude Fields Bitmap.

(** ** Data *)

(** The GTs of the device: [to_gt(i915)] and [i915->media_gt]. *)
Inductive gt_id := GT_PRIMARY | GT_MEDIA.

#[export] Instance gt_id_eq_dec : EqDecision gt_id.
Proof. solve_decision. Defined.

Record drm_mm_node := { allocated : bool; start : Z; size : Z }.

Inductive intel_iov_threshold :=
  IOV_THRESHOLD_CAT_ERR | IOV_THRESHOLD_ENGINE_RESET | IOV_THRESHOLD_PAGE_FAULT
| IOV_THRESHOLD_H2G_STORM | IOV_THRESHOLD_IRQ_STORM | IOV_THRESHOLD_DOORBELL_STORM.

(** The list the [IOV_THRESHOLDS] macro iterates over. *)
Definition IOV_THRESHOLDS : list intel_iov_threshold :=
  [IOV_THRESHOLD_CAT_ERR; IOV_THRESHOLD_ENGINE_RESET; IOV_THRESHOLD_PAGE_FAULT;
   IOV_THRESHOLD_H2G_STORM; IOV_THRESHOLD_IRQ_STORM; IOV_THRESHOLD_DOORBELL_STORM].

Definition threshold_index (t : intel_iov_threshold) : nat :=
  match t with
  | IOV_THRESHOLD_CAT_ERR => 0 | IOV_THRESHOLD_ENGINE_RESET => 1
  | IOV_THRESHOLD_PAGE_FAULT => 2 | IOV_THRESHOLD_H2G_STORM => 3
  | IOV_THRESHOLD_IRQ_STORM => 4 | IOV_THRESHOLD_DOORBELL_STORM => 5
  end.

#[export] Instance threshold_eq_dec : EqDecision intel_iov_threshold.
Proof. solve_decision. Defined.

Record intel_iov_config := {
  ggtt_region : drm_mm_node;
  num_ctxs : Z;
  begin_ctx : Z;
  num_dbs : Z;
  begin_db : Z;
  exec_quantum : Z;
  preempt_timeout : Z;
  thresholds : list Z;
}.

Record intel_iov_spare_config := {
  spare_ggtt_size : Z;
  spare_num_ctxs : Z;
  spare_num_dbs : Z;
}.

Record intel_iov_policies := {
  sched_if_idle : bool;
  reset_engine : bool;
  sample_period : Z;
}.

Record intel_iov_provisioning := {
  auto_mode : bool;
  num_pushed : nat;
  worker_queued : bool;
  policies : intel_iov_policies;
  spare : intel_iov_spare_config;
  configs : list intel_iov_config;
  self_done : bool;
}.

(** The zeroed structures of [kcalloc]. *)
Definition node0 : drm_mm_node := {| allocated := false; start := 0; size := 0 |}.
Definition config0 : intel_iov_config := {|
  ggtt_region := node0; num_ctxs := 0; begin_ctx := 0; num_dbs := 0; begin_db := 0;
  exec_quantum := 0; preempt_timeout := 0; thresholds := replicate 6 0 |}.

(** [pf.ggtt.shadows_ggtt[]]: [shadow_region] is the VF whose [ggtt_region] is pointed to. *)
Record intel_iov_ggtt_shadow := {
  shadow_ptes : option (list Z);
  shadow_region : option nat;
  shadow_vfid : nat;
}.
Definition shadow0 : intel_iov_ggtt_shadow :=
  {| shadow_ptes := None; shadow_region := None; shadow_vfid := 0 |}.

(** A request sent with [intel_guc_send]: the message and the buffer it points to. *)
Record guc_req := { req_gt : gt_id; req_msg : list Z; req_blob : list Z }.

(** ** Field updates *)

Section setters.
Implicit Types c : intel_iov_config.

Definition set_region (x : drm_mm_node) c : intel_iov_config :=
  {| ggtt_region := x; num_ctxs := num_ctxs c; begin_ctx := begin_ctx c; num_dbs := num_dbs c;
     begin_db := begin_db c; exec_quantum := exec_quantum c;
     preempt_timeout := preempt_timeout c; thresholds := thresholds c |}.
Definition set_ctxs (b n : Z) c : intel_iov_config :=
  {| ggtt_region := ggtt_region c; num_ctxs := n; begin_ctx := b; num_dbs := num_dbs c;
     begin_db := begin_db c; exec_quantum := exec_quantum c;
     preempt_timeout := preempt_timeout c; thresholds := thresholds c |}.
Definition set_dbs (b n : Z) c : intel_iov_config :=
  {| ggtt_region := ggtt_region c; num_ctxs := num_ctxs c; begin_ctx := begin_ctx c;
     num_dbs := n; begin_db := b; exec_quantum := exec_quantum c;
     preempt_timeout := preempt_timeout c; thresholds := thresholds c |}.
Definition set_eq (x : Z) c : intel_iov_config :=
  {| ggtt_region := ggtt_region c; num_ctxs := num_ctxs c; begin_ctx := begin_ctx c;
     num_dbs := num_dbs c; begin_db := begin_db c; exec_quantum := x;
     preempt_timeout := preempt_timeout c; thresholds := thresholds c |}.
Definition set_pt (x : Z) c : intel_iov_config :=
  {| ggtt_region := ggtt_region c; num_ctxs := num_ctxs c; begin_ctx := begin_ctx c;
     num_dbs := num_dbs c; begin_db := begin_db c; exec_quantum := exec_quantum c;
     preempt_timeout := x; thresholds := thresholds c |}.
Definition set_threshold (t : intel_iov_threshold) (x : Z) c : intel_iov_config :=
  {| ggtt_region := ggtt_region c; num_ctxs := num_ctxs c; begin_ctx := begin_ctx c;
     num_dbs := num_dbs c; begin_db := begin_db c; exec_quantum := exec_quantum c;
     preempt_timeout := preempt_timeout c;
     thresholds := <[threshold_index t := x]> (thresholds c) |}.
Definition threshold_of (t : intel_iov_threshold) c : Z := (thresholds c).[threshold_index t | 0].
End setters.

Section prov_setters.
Implicit Types p : intel_iov_provisioning.

Definition set_auto_mode (x : bool) p : intel_iov_provisioning :=
  {| auto_mode := x; num_pushed := num_pushed p; worker_queued := worker_queued p;
     policies := policies p; spare := spare p; configs := configs p; self_done := self_done p |}.
Definition set_num_pushed (x : nat) p : intel_iov_provisioning :=
  {| auto_mode := auto_mode p; num_pushed := x; worker_queued := worker_queued p;
     policies := policies p; spare := spare p; configs := configs p; self_done := self_done p |}.
Definition set_worker (x : bool) p : intel_iov_provisioning :=
  {| auto_mode := auto_mode p; num_pushed := num_pushed p; worker_queued := x;
     policies := policies p; spare := spare p; configs := configs p; self_done := self_done p |}.
Definition set_policies (x : intel_iov_policies) p : intel_iov_provisioning :=
  {| auto_mode := auto_mode p; num_pushed := num_pushed p; worker_queued := worker_queued p;
     policies := x; spare := spare p; configs := configs p; self_done := self_done p |}.
Definition set_spare (x : intel_iov_spare_config) p : intel_iov_provisioning :=
  {| auto_mode := auto_mode p; num_pushed := num_pushed p; worker_queued := worker_queued p;
     policies := policies p; spare := x; configs := configs p; self_done := self_done p |}.
Definition set_configs (x : list intel_iov_config) p : intel_iov_provisioning :=
  {| auto_mode := auto_mode p; num_pushed := num_pushed p; worker_queued := worker_queued p;
     policies := policies p; spare := spare p; configs := x; self_done := self_done p |}.
Definition set_self_done (x : bool) p : intel_iov_provisioning :=
  {| auto_mode := auto_mode p; num_pushed := num_pushed p; worker_queued := worker_queued p;
     policies := policies p; spare := spare p; configs := configs p; self_done := x |}.
End prov_setters.

(** ** Environment *)

(** The range manager of the GGTT as the provisioning code uses it: [drm_mm] and the eviction
    of i915_gem_gtt.c behind [i915_gem_gtt_insert]. *)
Class GgttSpace := {
  gtt_space : Type;
  mm_pinned : gtt_space -> list (Z * Z);   (** unevictable nodes: start, size *)
  mm_holes : gtt_space -> list (Z * Z);    (** [drm_mm_for_each_hole]: start, end *)
  i915_gem_gtt_insert : gtt_space -> Z -> Z -> Z -> Z -> Z * Z * gtt_space;
      (** size, alignment, start, end: result, start of the node, new space *)
  drm_mm_remove_node : gtt_space -> Z * Z -> gtt_space;
}.

(** Two ranges given as (start, size) do not meet. *)
Definition ranges_disj (a b : Z * Z) : Prop := a.1 + a.2 <= b.1 \/ b.1 + b.2 <= a.1.

Class GgttSpaceLaws (M : GgttSpace) : Prop := {
  gtt_insert_ok m sz a s e st m' :
    i915_gem_gtt_insert m sz a s e = (0, st, m') ->
    s <= st /\ st + sz <= e /\ (a | st) /\
    (forall n, n ∈ mm_pinned m -> ranges_disj (st, sz) n) /\
    (forall n, n ∈ mm_pinned m' <-> n = (st, sz) \/ n ∈ mm_pinned m);
  gtt_insert_err m sz a s e err st m' :
    i915_gem_gtt_insert m sz a s e = (err, st, m') -> err <> 0 ->
    err < 0 /\ forall n, n ∈ mm_pinned m' <-> n ∈ mm_pinned m;
  mm_remove_spec m n k :
    k ∈ mm_pinned (drm_mm_remove_node m n) <-> k ∈ mm_pinned m /\ k <> n;
}.

Class Env := {
  env_gtt : GgttSpace;
  has_media_gt : bool;                        (** [i915->media_gt] is set *)
  env_alloc : nat -> bool;                    (** the n-th kernel allocation succeeds *)
  env_vma : nat -> Z;                         (** result of the n-th GuC buffer allocation *)
  env_vma_addr : nat -> Z;                    (** its [intel_guc_ggtt_offset] *)
  guc_reply : list guc_req -> guc_req -> Z;   (** result of [intel_guc_send] after a history *)
  ggtt_pin_bias : Z;
  ggtt_total : Z;
  wopcm_guc_size : gt_id -> Z;
  require_binder : bool;                      (** [i915_ggtt_require_binder] *)
  bind_ready : nat -> bool;                   (** [should_update_ggtt_with_bind] *)
  bind_fails_after : nat -> option nat;       (** entries a failing GPU request still wrote *)
  scratch_pte : Z;                            (** [ggtt->vm.scratch[0]->encode] *)
}.
#[export] Existing Instance env_gtt.

(** What is assumed of the environment: the documented results of the calls. *)
Class EnvLaws (E : Env) : Prop := {
  env_gtt_laws :: GgttSpaceLaws env_gtt;
  env_vma_err n : env_vma n <= 0;
  env_pin_bias : 0 <= ggtt_pin_bias /\ (4096 | ggtt_pin_bias);
  env_total : 0 <= ggtt_total < 2 ^ 64;
}.

(** An environment in which nothing fails: every allocation succeeds and GuC accepts every key. *)
Class EnvWorks (E : Env) : Prop := {
  works_alloc n : env_alloc n = true;
  works_vma n : env_vma n = 0;
  works_guc l r : guc_reply l r = 1;
}.

(** ** Device state *)

Record dev `{Env} := {
  d_prov : gt_id -> intel_iov_provisioning;
  d_totalvfs : nat;                           (** [sriov.pf.driver_vfs] *)
  d_numvfs : nat;                             (** [pci_num_vf()] *)
  d_status : Z;                               (** [sriov.pf.__status] *)
  d_disable_auto : bool;                      (** [sriov.pf.disable_auto_provisioning] *)
  d_ids_in_use : gt_id -> Z;                  (** [guc.submission_state.guc_ids_in_use] *)
  d_num_guc_ids : gt_id -> Z;                 (** [guc.submission_state.num_guc_ids] *)
  d_mm : gtt_space;
  d_ptes : Z -> Z;                            (** the GGTT page table, by page number *)
  d_shadows : option (list intel_iov_ggtt_shadow);
  d_log : list guc_req;                       (** requests sent to GuC, oldest first *)
  d_ticks : nat;                              (** allocations and GPU updates attempted *)
  d_live : Z;                                 (** temporary bitmaps not freed *)
}.

Section dev.
Context `{Env}.

Definition upd_prov (g : gt_id) (f : intel_iov_provisioning -> intel_iov_provisioning)
    (d : dev) : dev :=
  {| d_prov := fun g' => if decide (g' = g) then f (d_prov d g') else d_prov d g';
     d_totalvfs := d_totalvfs d; d_numvfs := d_numvfs d; d_status := d_status d;
     d_disable_auto := d_disable_auto d; d_ids_in_use := d_ids_in_use d;
     d_num_guc_ids := d_num_guc_ids d; d_mm := d_mm d; d_ptes := d_ptes d;
     d_shadows := d_shadows d; d_log := d_log d; d_ticks := d_ticks d; d_live := d_live d |}.
Definition upd_sriov (numvfs : nat) (status : Z) (noauto : bool) (d : dev) : dev :=
  {| d_prov := d_prov d; d_totalvfs := d_totalvfs d; d_numvfs := numvfs; d_status := status;
     d_disable_auto := noauto; d_ids_in_use := d_ids_in_use d;
     d_num_guc_ids := d_num_guc_ids d; d_mm := d_mm d; d_ptes := d_ptes d;
     d_shadows := d_shadows d; d_log := d_log d; d_ticks := d_ticks d; d_live := d_live d |}.
Definition upd_guc_ids (g : gt_id) (n : Z) (d : dev) : dev :=
  {| d_prov := d_prov d; d_totalvfs := d_totalvfs d; d_numvfs := d_numvfs d;
     d_status := d_status d; d_disable_auto := d_disable_auto d;
     d_ids_in_use := d_ids_in_use d;
     d_num_guc_ids := fun g' => if decide (g' = g) then n else d_num_guc_ids d g';
     d_mm := d_mm d; d_ptes := d_ptes d; d_shadows := d_shadows d; d_log := d_log d;
     d_ticks := d_ticks d; d_live := d_live d |}.
(** Updates of the GGTT: the range manager, the page table, the shadows. *)
Definition upd_ggtt (m : gtt_space) (t : Z -> Z) (s : option (list intel_iov_ggtt_shadow))
    (d : dev) : dev :=
  {| d_prov := d_prov d; d_totalvfs := d_totalvfs d; d_numvfs := d_numvfs d;
     d_status := d_status d; d_disable_auto := d_disable_auto d;
     d_ids_in_use := d_ids_in_use d; d_num_guc_ids := d_num_guc_ids d; d_mm := m;
     d_ptes := t; d_shadows := s; d_log := d_log d; d_ticks := d_ticks d; d_live := d_live d |}.
(** Updates of the counters and of the GuC's history. *)
Definition upd_hw (l : list guc_req) (t : nat) (v : Z) (d : dev) : dev :=
  {| d_prov := d_prov d; d_totalvfs := d_totalvfs d; d_numvfs := d_numvfs d;
     d_status := d_status d; d_disable_auto := d_disable_auto d;
     d_ids_in_use := d_ids_in_use d; d_num_guc_ids := d_num_guc_ids d; d_mm := d_mm d;
     d_ptes := d_ptes d; d_shadows := d_shadows d; d_log := l; d_ticks := t; d_live := v |}.

(** The configuration of VF [id] on [g]; callers keep [id <= totalvfs]. *)
Definition cfg (d : dev) (g : gt_id) (id : nat) : intel_iov_config :=
  (configs (d_prov d g)).[id | config0].

(** ** Actions *)

Definition get_prov (g : gt_id) : st dev intel_iov_provisioning := gets (fun d => d_prov d g).
Definition mod_prov (g : gt_id) (f : intel_iov_provisioning -> intel_iov_provisioning)
  : st dev unit := modify (upd_prov g f).
Definition get_cfg (g : gt_id) (id : nat) : st dev intel_iov_config := gets (fun d => cfg d g id).
Definition mod_cfg (g : gt_id) (id : nat) (f : intel_iov_config -> intel_iov_config)
  : st dev unit := mod_prov g (fun p => set_configs (alter f id (configs p)) p).

(** [intel_guc_send] *)
Definition intel_guc_send (r : guc_req) : st dev Z := fun d =>
  (guc_reply (d_log d) r, upd_hw (d_log d ++ [r]) (d_ticks d) (d_live d) d).

(** [intel_guc_allocate_and_map_vma]: the result and the address of the buffer. *)
Definition intel_guc_allocate_and_map_vma : st dev (Z * Z) := fun d =>
  ((env_vma (d_ticks d), env_vma_addr (d_ticks d)),
   upd_hw (d_log d) (S (d_ticks d)) (d_live d) d).

(** [bitmap_zalloc] and [bitmap_free] *)
Definition bitmap_zalloc : st dev (option Z) := fun d =>
  if env_alloc (d_ticks d)
  then (Some 0, upd_hw (d_log d) (S (d_ticks d)) (d_live d + 1) d)
  else (None, upd_hw (d_log d) (S (d_ticks d)) (d_live d) d).
Definition bitmap_free : st dev unit := fun d =>
  (tt, upd_hw (d_log d) (d_ticks d) (d_live d - 1) d).

(** An allocation that is kept (the shadow page table). *)
Definition kvzalloc : st dev bool := fun d =>
  (env_alloc (d_ticks d), upd_hw (d_log d) (S (d_ticks d)) (d_live d) d).

(** i915_sriov.c *)
Definition i915_sriov_pf_status (d : dev) : Z := elvis (d_status d) (- EBUSY).
Definition i915_sriov_pf_aborted (d : dev) : bool := d_status d <? 0.
(** [i915_sriov_pf_abort] and [pf_update_status]: the status becomes the error. *)
Definition i915_sriov_pf_abort (err : Z) : st dev unit :=
  modify (fun d => upd_sriov (d_numvfs d) err (d_disable_auto d) d).
Definition pf_update_status (status : Z) : st dev unit := i915_sriov_pf_abort status.
Definition i915_sriov_pf_is_auto_provisioning_enabled (d : dev) : bool := negb (d_disable_auto d).

(** ** Frames *)

(** [d'] differs from [d] by the GuC's history, the counters and nothing else. *)
Record same_pf (d d' : dev) : Prop := {
  same_prov g : d_prov d' g = d_prov d g;
  same_total : d_totalvfs d' = d_totalvfs d;
  same_num : d_numvfs d' = d_numvfs d;
  same_status : d_status d' = d_status d;
  same_auto : d_disable_auto d' = d_disable_auto d;
  same_ids : d_ids_in_use d' = d_ids_in_use d;
  same_nids : d_num_guc_ids d' = d_num_guc_ids d;
  same_mm : d_mm d' = d_mm d;
  same_ptes : d_ptes d' = d_ptes d;
  same_shadows : d_shadows d' = d_shadows d;
}.

#[export] Instance same_pf_preorder : PreOrder same_pf.
Proof.
  split; [constructor; auto|]. intros a b c [] []; constructor; intros; etransitivity; eauto.
Qed.

(** [d'] differs from [d] also in the GGTT: its nodes, its entries, its shadows. *)
Record same_conf (d d' : dev) : Prop := {
  conf_prov g : d_prov d' g = d_prov d g;
  conf_total : d_totalvfs d' = d_totalvfs d;
  conf_num : d_numvfs d' = d_numvfs d;
  conf_status : d_status d' = d_status d;
  conf_auto : d_disable_auto d' = d_disable_auto d;
  conf_ids : d_ids_in_use d' = d_ids_in_use d;
  conf_nids : d_num_guc_ids d' = d_num_guc_ids d;
  conf_live : d_live d' = d_live d;
}.

#[export] Instance same_conf_preorder : PreOrder same_conf.
Proof.
  split; [constructor; auto|]. intros a b c [] []; constructor; intros; etransitivity; eauto.
Qed.

Lemma same_pf_conf d d' : same_pf d d' -> d_live d' = d_live d -> same_conf d d'.
Proof. by intros [] ?. Qed.

Lemma conf_cfg d d' g id : same_conf d d' -> cfg d' g id = cfg d g id.
Proof. intros []. unfold cfg. by rewrite conf_prov0. Qed.

Lemma same_cfg d d' g id : same_pf d d' -> cfg d' g id = cfg d g id.
Proof. intros []. unfold cfg. by rewrite same_prov0. Qed.

Lemma same_hw l t v d : same_pf d (upd_hw l t v d).
Proof. by constructor. Qed.

(** An action that only talks to GuC: the state and the temporary allocations are kept. *)
Definition hw_only {A} (m : st dev A) : Prop :=
  forall d, wp m (fun _ d' => same_pf d d' /\ d_live d' = d_live d) d.

Lemma hw_only_wp {A} (m : st dev A) (Q : A -> dev -> Prop) d :
  hw_only m -> (forall a d', same_pf d d' -> d_live d' = d_live d -> Q a d') -> wp m Q d.
Proof. intros Hm HQ. eapply wp_mono; [apply Hm|]. intros a d' []. auto. Qed.

Lemma hw_only_ret {A} (a : A) : hw_only (mret a).
Proof. intros d. by apply wp_ret. Qed.

Lemma hw_only_bind {A B} (m : st dev A) (k : A -> st dev B) :
  hw_only m -> (forall a, hw_only (k a)) -> hw_only (m ≫= k).
Proof.
  intros Hm Hk d. apply wp_bind. eapply hw_only_wp; [apply Hm|]. intros a d' Hs Hl.
  eapply wp_mono; [apply Hk|]. intros b d'' [? ?]. split; [by etransitivity|congruence].
Qed.

Lemma hw_only_gets {A} (f : dev -> A) : hw_only (gets f).
Proof. intros d. by apply wp_gets. Qed.

Lemma hw_only_send r : hw_only (intel_guc_send r).
Proof. intros d. unfold wp; simpl. split; [apply same_hw|done]. Qed.

Lemma hw_only_vma : hw_only intel_guc_allocate_and_map_vma.
Proof. intros d. unfold wp; simpl. split; [apply same_hw|done]. Qed.

Lemma hw_only_if {A} (b : bool) (m1 m2 : st dev A) :
  hw_only m1 -> hw_only m2 -> hw_only (if b then m1 else m2).
Proof. by destruct b. Qed.

(** ** Symbolic execution of the primitives *)

Lemma wp_guc_send r (Q : Z -> dev -> Prop) d :
  (forall d', same_pf d d' -> d_live d' = d_live d -> d_log d' = d_log d ++ [r] ->
     Q (guc_reply (d_log d) r) d') ->
  wp (intel_guc_send r) Q d.
Proof. intros HQ. unfold wp; simpl. apply HQ; [apply same_hw|done|done]. Qed.

Lemma wp_vma (Q : Z * Z -> dev -> Prop) d :
  (forall ret addr d', same_pf d d' -> d_live d' = d_live d -> d_log d' = d_log d ->
     ret = env_vma (d_ticks d) -> Q (ret, addr) d') ->
  wp intel_guc_allocate_and_map_vma Q d.
Proof. intros HQ. unfold wp; simpl. apply HQ; [apply same_hw|done..]. Qed.

Lemma wp_bitmap_zalloc (Q : option Z -> dev -> Prop) d :
  (forall d', same_pf d d' -> d_live d' = d_live d + 1 -> d_log d' = d_log d -> Q (Some 0) d') ->
  (env_alloc (d_ticks d) = false ->
   forall d', same_pf d d' -> d_live d' = d_live d -> d_log d' = d_log d -> Q None d') ->
  wp bitmap_zalloc Q d.
Proof.
  intros H1 H2. unfold wp, bitmap_zalloc. destruct (env_alloc (d_ticks d)); simpl;
    [apply H1|apply H2]; try done; apply same_hw.
Qed.

Lemma wp_bitmap_free (Q : unit -> dev -> Prop) d :
  (forall d', same_pf d d' -> d_live d' = d_live d - 1 -> d_log d' = d_log d -> Q tt d') ->
  wp bitmap_free Q d.
Proof. intros HQ. unfold wp; simpl. apply HQ; [apply same_hw|done|done]. Qed.

Lemma wp_get_prov g (Q : intel_iov_provisioning -> dev -> Prop) d :
  Q (d_prov d g) d -> wp (get_prov g) Q d.
Proof. done. Qed.
Lemma wp_get_cfg g id (Q : intel_iov_config -> dev -> Prop) d :
  Q (cfg d g id) d -> wp (get_cfg g id) Q d.
Proof. done. Qed.
Lemma wp_mod_prov g f (Q : unit -> dev -> Prop) d : Q tt (upd_prov g f d) -> wp (mod_prov g f) Q d.
Proof. done. Qed.

(** ** Reading back the updates *)

Definition upd_cfg (g : gt_id) (id : nat) (f : intel_iov_config -> intel_iov_config) (d : dev)
  : dev := upd_prov g (fun p => set_configs (alter f id (configs p)) p) d.

Lemma wp_mod_cfg g id f (Q : unit -> dev -> Prop) d :
  Q tt (upd_cfg g id f d) -> wp (mod_cfg g id f) Q d.
Proof. done. Qed.

Lemma prov_upd g f d g' :
  d_prov (upd_prov g f d) g' = if decide (g' = g) then f (d_prov d g') else d_prov d g'.
Proof. done. Qed.

Lemma configs_upd_cfg g id f d g' :
  configs (d_prov (upd_cfg g id f d) g') =
    if decide (g' = g) then alter f id (configs (d_prov d g')) else configs (d_prov d g').
Proof. unfold upd_cfg. rewrite prov_upd. by case_decide. Qed.

Lemma length_configs_upd g id f d g' :
  length (configs (d_prov (upd_cfg g id f d) g')) = length (configs (d_prov d g')).
Proof. rewrite configs_upd_cfg. case_decide; [apply length_alter|done]. Qed.

Lemma cfg_upd_eq g id f d :
  (id < length (configs (d_prov d g)))%nat -> cfg (upd_cfg g id f d) g id = f (cfg d g id).
Proof.
  intros Hid. unfold cfg. rewrite configs_upd_cfg, decide_True, list_lookup_alter_eq by done.
  apply lookup_lt_is_Some in Hid as [c ->]. done.
Qed.

Lemma cfg_upd_ne g id f d g' id' :
  g' <> g \/ id' <> id -> cfg (upd_cfg g id f d) g' id' = cfg d g' id'.
Proof.
  intros Hne. unfold cfg. rewrite configs_upd_cfg. case_decide as Hg; [|done].
  destruct Hne; [done|]. by rewrite list_lookup_alter_ne by congruence.
Qed.

(** Updates up to [same_pf]. *)
Lemma same_upd_cfg g id f d d' : same_pf d d' -> same_pf (upd_cfg g id f d) (upd_cfg g id f d').
Proof.
  intros []. constructor; try done. intros g'. unfold upd_cfg. rewrite !prov_upd.
  case_decide; by rewrite same_prov0.
Qed.

Lemma conf_upd_cfg g id f d d' : same_conf d d' -> same_conf (upd_cfg g id f d) (upd_cfg g id f d').
Proof.
  intros []. constructor; try done. intros g'. unfold upd_cfg. rewrite !prov_upd.
  case_decide; by rewrite conf_prov0.
Qed.

Lemma upd_cfg_compose g id f h d :
  same_pf (upd_cfg g id (fun c => f (h c)) d) (upd_cfg g id f (upd_cfg g id h d)).
Proof.
  constructor; try done. intros g'. unfold upd_cfg. rewrite !prov_upd.
  case_decide; [|done]. unfold set_configs; simpl. f_equal.
  by rewrite list_alter_alter_eq.
Qed.

Lemma upd_cfg_ext g id f h d :
  (forall c, f c = h c) -> same_pf (upd_cfg g id f d) (upd_cfg g id h d).
Proof.
  intros Heq. constructor; try done. intros g'. unfold upd_cfg. rewrite !prov_upd.
  case_decide; [|done]. f_equal. apply list_alter_ext; auto.
Qed.

Lemma upd_cfg_noop g id f d : f (cfg d g id) = cfg d g id -> same_pf (upd_cfg g id f d) d.
Proof.
  intros Hf. constructor; try done. intros g'. unfold upd_cfg. rewrite prov_upd.
  case_decide as Hg; [|done]. subst g'. unfold cfg in Hf.
  assert (alter f id (configs (d_prov d g)) = configs (d_prov d g)) as ->.
  { apply list_eq. intros i. rewrite list_lookup_alter. case_decide as Hi; [|done]. subst i.
    destruct (configs (d_prov d g) !! id) as [c|]; [|done]. simpl in *. by rewrite Hf. }
  by destruct (d_prov d g).
Qed.

(** A field that [f] leaves alone, of any configuration. *)
Lemma cfg_upd_field {A} (F : intel_iov_config -> A) g id f d g' id' :
  (forall c, F (f c) = F c) -> F (cfg (upd_cfg g id f d) g' id') = F (cfg d g' id').
Proof.
  intros HF. unfold cfg. rewrite configs_upd_cfg. case_decide as Hg; [|done].
  destruct (decide (id' = id)) as [->|]; [|by rewrite list_lookup_alter_ne by congruence].
  rewrite list_lookup_alter_eq. destruct (configs _ !! id); [apply HF|done].
Qed.
End dev.

#[export] Hint Resolve same_hw : core.

(** The actions that only talk to GuC, found by their structure. *)
Create HintDb hw.
#[export] Hint Resolve hw_only_ret hw_only_gets hw_only_send hw_only_vma : hw.
Ltac hw_auto :=
  repeat first
    [ solve [auto with hw]
    | apply hw_only_bind; [|intros ?]
    | apply hw_only_if
    | match goal with |- hw_only (match ?x with _ => _ end) => destruct x end ].

(** Extends [wp_step] with the primitives whose effect is an equation. *)
Ltac pf_step :=
  lazymatch goal with
  | |- wp (get_prov _) _ _ => apply wp_get_prov
  | |- wp (get_cfg _ _) _ _ => apply wp_get_cfg
  | |- wp (mod_cfg _ _ _) _ _ => apply wp_mod_cfg
  | |- wp (mod_prov _ _) _ _ => apply wp_mod_prov
  | |- wp (intel_guc_send _) _ _ => apply wp_guc_send; intros ? ? ? ?
  | |- wp intel_guc_allocate_and_map_vma _ _ => apply wp_vma; intros ? ? ? ? ? ? ?
  | |- wp bitmap_zalloc _ _ => apply wp_bitmap_zalloc; intros ? ? ? ?
  | |- wp bitmap_free _ _ => apply wp_bitmap_free; intros ? ? ? ?
  | _ => wp_step
  end.
Ltac pf_steps := repeat (pf_step; cbn beta iota).
