(* ===== verification/Sample.v ===== *)
(** * A sample environment

    A GGTT range manager that meets [GgttSpaceLaws] and an environment in which every call
    succeeds: they show that the assumptions of the development can hold together, and the
    witnesses of its theorems are evaluated in them. *)

From stdpp Require Import sorting.
From S2P Require Export PfState.

(** ** A top-down range manager *)

Module Mm.
Definition disjb (a b : Z * Z) : bool := (a.1 + a.2 <=? b.1) || (b.1 + b.2 <=? a.1).

Definition fits (m : list (Z * Z)) (sz a s e st : Z) : bool :=
  (s <=? st) && (st + sz <=? e) && (st mod a =? 0) && forallb (disjb (st, sz)) m.

(** The places just below [e] and just below each node, the highest first. *)
Definition candidates (m : list (Z * Z)) (sz a e : Z) : list Z :=
  merge_sort Z.ge ((fun t => a * ((t - sz) / a)) <$> (e :: m.*1)).

Definition insert (m : list (Z * Z)) (sz a s e : Z) : Z * Z * list (Z * Z) :=
  match filter (fun st => fits m sz a s e st = true) (candidates m sz a e) with
  | [] => (- ENOSPC, 0, m)
  | st :: _ => (0, st, (st, sz) :: m)
  end.

Definition remove (m : list (Z * Z)) (n : Z * Z) : list (Z * Z) := filter (fun k => k <> n) m.

(** The gaps above [p] left by the nodes, in address order. *)
Fixpoint gaps (total p : Z) (sorted : list (Z * Z)) : list (Z * Z) :=
  match sorted with
  | [] => if p <? total then [(p, total)] else []
  | (s, n) :: rest =>
      if p <? s then (p, s) :: gaps total (Z.max p (s + n)) rest
      else gaps total (Z.max p (s + n)) rest
  end.

Definition by_start (a b : Z * Z) : Prop := a.1 <= b.1.
#[export] Instance by_start_dec : RelDecision by_start.
Proof. intros a b. unfold by_start. apply _. Defined.
Definition holes (total : Z) (m : list (Z * Z)) : list (Z * Z) :=
  gaps total 0 (merge_sort by_start m).
End Mm.

Definition sample_total : Z := 0x10000000.

Definition sample_gtt : GgttSpace := {|
  gtt_space := list (Z * Z);
  mm_pinned m := m;
  mm_holes m := Mm.holes sample_total m;
  i915_gem_gtt_insert := Mm.insert;
  drm_mm_remove_node := Mm.remove;
|}.

Lemma Mm_fits_spec m sz a s e st :
  Mm.fits m sz a s e st = true ->
  s <= st /\ st + sz <= e /\ (a | st) /\ forall n, n ∈ m -> ranges_disj (st, sz) n.
Proof.
  unfold Mm.fits. intros Hf. propify. rewrite forallb_forall in *.
  split_and!; try done.
  - destruct (Z.eq_dec a 0) as [->|]; [|by apply Z.mod_divide].
    rewrite Z.mod_0_r in *. subst. apply Z.divide_0_r.
  - intros n Hn%list_elem_of_In. specialize (H0 n Hn). unfold Mm.disjb in H0.
    apply orb_true_iff in H0 as [?|?]; propify; [by left|by right].
Qed.

#[export] Instance sample_gtt_laws : GgttSpaceLaws sample_gtt.
Proof.
  constructor; simpl.
  - intros m sz a s e st m'. unfold Mm.insert.
    destruct (filter _ _) as [|x l] eqn:Ef; [done|]. intros [= <- <-].
    assert (x ∈ x :: l) as Hx by apply list_elem_of_here. rewrite <- Ef in Hx.
    apply list_elem_of_filter in Hx as [(?&?&?&?)%Mm_fits_spec _].
    split_and!; try done. intros n. by rewrite elem_of_cons.
  - intros m sz a s e err st m'. unfold Mm.insert.
    destruct (filter _ _); intros [= <- <- <-] Hne; [|done]. by split.
  - intros m n k. unfold Mm.remove. rewrite list_elem_of_filter. tauto.
Qed.

(** ** The environment *)

Definition sample_env : Env := {|
  env_gtt := sample_gtt;
  has_media_gt := true;
  env_alloc _ := true;
  env_vma _ := 0;
  env_vma_addr n := 0x100000 + 4096 * Z.of_nat n;
  guc_reply _ _ := 1;
  ggtt_pin_bias := 0x100000;
  ggtt_total := sample_total;
  wopcm_guc_size _ := 0x100000;
  require_binder := false;
  bind_ready _ := false;
  bind_fails_after _ := None;
  scratch_pte := 1;
|}.

#[export] Instance sample_env_laws : EnvLaws sample_env.
Proof.
  constructor; try done.
  - apply sample_gtt_laws.
  - split; [done|]. by exists 256.
Qed.

#[export] Instance sample_env_works : EnvWorks sample_env.
Proof. by constructor. Qed.

(** Four VFs can be provisioned, none is; the PF owns the contexts [0 .. 12799). *)
Definition sample_pf_config : intel_iov_config := set_ctxs 0 12799 config0.
Definition sample_prov : intel_iov_provisioning := {|
  auto_mode := false; num_pushed := 0; worker_queued := false;
  policies := {| sched_if_idle := false; reset_engine := false; sample_period := 0 |};
  spare := {| spare_ggtt_size := 0; spare_num_ctxs := 0; spare_num_dbs := 0 |};
  configs := sample_pf_config :: replicate 4 config0;
  self_done := false |}.

Definition sample_dev : @dev sample_env := {|
  d_prov _ := sample_prov;
  d_totalvfs := 4; d_numvfs := 0; d_status := 4; d_disable_auto := false;
  d_ids_in_use _ := 100; d_num_guc_ids _ := 12799;
  d_mm := ([(0, 0x100000)] : list (Z * Z)) : @gtt_space (@env_gtt sample_env);
  d_ptes _ := 0; d_shadows := None; d_log := []; d_ticks := 0; d_live := 0 |}.
