(* ===== verification/GucCfg.v ===== *)
(** * Configuration messages to GuC

    The KLV requests of gt/iov/intel_iov_provisioning.c: the policy updates, the single-key VF
    updates, the encoding of a whole VF configuration and the decoder used to verify it. *)

From S2P Require Export PfState.

(** ** Requests *)

Definition GUC_ACTION_PF2GUC_UPDATE_VGT_POLICY : Z := 0x5502.
Definition GUC_ACTION_PF2GUC_UPDATE_VF_CFG : Z := 0x5503.

(** One KLV header. *)
Definition klv_header (key len : Z) : Z :=
  Z.lor (FIELD_PREP GUC_KLV_0_KEY key) (FIELD_PREP GUC_KLV_0_LEN len).

(** What the KLV helpers return for GuC's count of parsed keys. *)
Definition klv_result (ret : Z) : Z :=
  if ret <? 0 then ret else if ret =? 0 then - ENOKEY else if ret >? 1 then - EPROTO else 0.

Definition policy_cfg_req (g : gt_id) (addr sz : Z) (blob : list Z) : guc_req :=
  {| req_gt := g;
     req_msg := [GUC_ACTION_PF2GUC_UPDATE_VGT_POLICY; lower_32_bits addr; upper_32_bits addr; sz];
     req_blob := blob |}.

Definition vf_cfg_req (g : gt_id) (vfid addr sz : Z) (blob : list Z) : guc_req :=
  {| req_gt := g;
     req_msg := [GUC_ACTION_PF2GUC_UPDATE_VF_CFG; vfid; lower_32_bits addr; upper_32_bits addr; sz];
     req_blob := blob |}.

Section guc.
Context `{Env}.

Definition guc_action_update_policy_cfg (g : gt_id) (addr sz : Z) (blob : list Z) : st dev Z :=
  intel_guc_send (policy_cfg_req g addr sz blob).

Definition guc_action_update_vf_cfg (g : gt_id) (vfid : nat) (addr sz : Z) (blob : list Z)
  : st dev Z := intel_guc_send (vf_cfg_req g (Z.of_nat vfid) addr sz blob).

Definition guc_update_policy_klv32 (g : gt_id) (key value : Z) : st dev Z :=
  '(ret, addr) ← intel_guc_allocate_and_map_vma;
  if negb (ret =? 0) then mret ret else
  let blob := [klv_header key 1; value] in
  ret ← guc_action_update_policy_cfg g addr (GUC_KLV_LEN_MIN + 1) blob;
  mret (klv_result ret).

Definition guc_update_vf_klv32 (g : gt_id) (vfid : nat) (key value : Z) : st dev Z :=
  '(ret, addr) ← intel_guc_allocate_and_map_vma;
  if negb (ret =? 0) then mret ret else
  let blob := [klv_header key 1; value] in
  ret ← guc_action_update_vf_cfg g vfid addr (GUC_KLV_LEN_MIN + 1) blob;
  mret (klv_result ret).

Definition guc_update_vf_klv64 (g : gt_id) (vfid : nat) (key value : Z) : st dev Z :=
  '(ret, addr) ← intel_guc_allocate_and_map_vma;
  if negb (ret =? 0) then mret ret else
  let blob := [klv_header key 2; lower_32_bits value; upper_32_bits value] in
  ret ← guc_action_update_vf_cfg g vfid addr (GUC_KLV_LEN_MIN + 2) blob;
  mret (klv_result ret).

(** ** Policies *)

Definition pf_update_bool_policy (g : gt_id) (key : Z)
    (commit : bool -> intel_iov_policies -> intel_iov_policies) (value : bool) : st dev Z :=
  err ← guc_update_policy_klv32 g key (Z.b2z value);
  if negb (err =? 0) then mret err else
  mod_prov g (fun p => set_policies (commit value (policies p)) p) ≫= fun _ => mret 0.

Definition pf_update_policy_u32 (g : gt_id) (key : Z)
    (commit : Z -> intel_iov_policies -> intel_iov_policies) (value : Z) : st dev Z :=
  err ← guc_update_policy_klv32 g key value;
  if negb (err =? 0) then mret err else
  mod_prov g (fun p => set_policies (commit value (policies p)) p) ≫= fun _ => mret 0.

Definition with_sched_if_idle (b : bool) (p : intel_iov_policies) : intel_iov_policies :=
  {| sched_if_idle := b; reset_engine := reset_engine p; sample_period := sample_period p |}.
Definition with_reset_engine (b : bool) (p : intel_iov_policies) : intel_iov_policies :=
  {| sched_if_idle := sched_if_idle p; reset_engine := b; sample_period := sample_period p |}.
Definition with_sample_period (v : Z) (p : intel_iov_policies) : intel_iov_policies :=
  {| sched_if_idle := sched_if_idle p; reset_engine := reset_engine p; sample_period := v |}.

Definition pf_provision_sched_if_idle (g : gt_id) (enable : bool) : st dev Z :=
  pf_update_bool_policy g GUC_KLV_VGT_POLICY_SCHED_IF_IDLE_KEY with_sched_if_idle enable.
Definition pf_reprovision_sched_if_idle (g : gt_id) : st dev Z :=
  p ← get_prov g; pf_provision_sched_if_idle g (sched_if_idle (policies p)).
Definition intel_iov_provisioning_set_sched_if_idle (g : gt_id) (enable : bool) : st dev Z :=
  pf_provision_sched_if_idle g enable.
Definition intel_iov_provisioning_get_sched_if_idle (g : gt_id) (d : dev) : bool :=
  sched_if_idle (policies (d_prov d g)).

Definition pf_provision_reset_engine (g : gt_id) (enable : bool) : st dev Z :=
  pf_update_bool_policy g GUC_KLV_VGT_POLICY_RESET_AFTER_VF_SWITCH_KEY with_reset_engine enable.
Definition pf_reprovision_reset_engine (g : gt_id) : st dev Z :=
  p ← get_prov g; pf_provision_reset_engine g (reset_engine (policies p)).
Definition intel_iov_provisioning_set_reset_engine (g : gt_id) (enable : bool) : st dev Z :=
  pf_provision_reset_engine g enable.
Definition intel_iov_provisioning_get_reset_engine (g : gt_id) (d : dev) : bool :=
  reset_engine (policies (d_prov d g)).

Definition pf_provision_sample_period (g : gt_id) (value : Z) : st dev Z :=
  pf_update_policy_u32 g GUC_KLV_VGT_POLICY_ADVERSE_SAMPLE_PERIOD_KEY with_sample_period value.
Definition pf_reprovision_sample_period (g : gt_id) : st dev Z :=
  p ← get_prov g; pf_provision_sample_period g (sample_period (policies p)).
Definition intel_iov_provisioning_set_sample_period (g : gt_id) (value : Z) : st dev Z :=
  pf_provision_sample_period g value.
Definition intel_iov_provisioning_get_sample_period (g : gt_id) (d : dev) : Z :=
  sample_period (policies (d_prov d g)).
End guc.

(** ** When a changed configuration is pushed *)

Definition PFID : nat := 0.

Section push.
Context `{Env}.

Definition pf_is_vf_enabled (id : nat) (d : dev) : bool := (id <=? d_numvfs d)%nat.
Definition pf_is_config_pushed (g : gt_id) (id : nat) (d : dev) : bool :=
  (id <=? num_pushed (d_prov d g))%nat.
Definition pf_needs_push_config (g : gt_id) (id : nat) (d : dev) : bool :=
  negb (id =? PFID)%nat && pf_is_vf_enabled id d && pf_is_config_pushed g id d.

(** [pf_mark_manual_provisioning]: i915_sriov_pf_set_auto_provisioning(i915, false). *)
Definition pf_mark_manual_provisioning : st dev unit :=
  modify (fun d => upd_sriov (d_numvfs d) (d_status d) true d).

(** The tail of the [intel_iov_provisioning_set_*] functions. *)
Definition mark_manual_if (b : bool) : st dev unit :=
  if b then pf_mark_manual_provisioning else mret tt.

Lemma wp_mark_manual b (Q : unit -> dev -> Prop) d :
  Q tt d -> Q tt (upd_sriov (d_numvfs d) (d_status d) true d) -> wp (mark_manual_if b) Q d.
Proof. by destruct b. Qed.

(** Sends two 32-bit keys in turn, stopping at the first error. *)
Definition push_two_klv32 (g : gt_id) (id : nat) (key1 v1 key2 v2 : Z) : st dev Z :=
  needs ← gets (pf_needs_push_config g id);
  if negb needs then mret 0 else
  err ← guc_update_vf_klv32 g id key1 v1;
  if negb (err =? 0) then mret err else
  err ← guc_update_vf_klv32 g id key2 v2;
  if negb (err =? 0) then mret err else mret 0.

Lemma hw_push_two g id k1 v1 k2 v2 : hw_only (push_two_klv32 g id k1 v1 k2 v2).
Proof.
  unfold push_two_klv32. apply hw_only_bind; [apply hw_only_gets|intros needs].
  apply hw_only_if; [apply hw_only_ret|]. apply hw_only_bind.
  - unfold guc_update_vf_klv32, guc_action_update_vf_cfg. hw_auto.
  - intros err. apply hw_only_if; [apply hw_only_ret|]. apply hw_only_bind; [|intros ?; hw_auto].
    unfold guc_update_vf_klv32, guc_action_update_vf_cfg. hw_auto.
Qed.
End push.

(** ** Encoding of a VF configuration *)

Definition intel_iov_threshold_to_klv_key (t : intel_iov_threshold) : Z :=
  match t with
  | IOV_THRESHOLD_CAT_ERR => GUC_KLV_VF_CFG_THRESHOLD_CAT_ERR_KEY
  | IOV_THRESHOLD_ENGINE_RESET => GUC_KLV_VF_CFG_THRESHOLD_ENGINE_RESET_KEY
  | IOV_THRESHOLD_PAGE_FAULT => GUC_KLV_VF_CFG_THRESHOLD_PAGE_FAULT_KEY
  | IOV_THRESHOLD_H2G_STORM => GUC_KLV_VF_CFG_THRESHOLD_H2G_STORM_KEY
  | IOV_THRESHOLD_IRQ_STORM => GUC_KLV_VF_CFG_THRESHOLD_IRQ_STORM_KEY
  | IOV_THRESHOLD_DOORBELL_STORM => GUC_KLV_VF_CFG_THRESHOLD_DOORBELL_STORM_KEY
  end.

(** The dwords written at [cfg]; their number is the length of the list. *)
Definition encode_config_ggtt (config : intel_iov_config) : list Z :=
  let r := ggtt_region config in
  if allocated r then
    [klv_header GUC_KLV_VF_CFG_GGTT_START_KEY 2; lower_32_bits (start r); upper_32_bits (start r);
     klv_header GUC_KLV_VF_CFG_GGTT_SIZE_KEY 2; lower_32_bits (size r); upper_32_bits (size r)]
  else [].

Definition encode_threshold (config : intel_iov_config) (t : intel_iov_threshold) : list Z :=
  [klv_header (intel_iov_threshold_to_klv_key t) 1; threshold_of t config].

Definition encode_config (config : intel_iov_config) : list Z :=
  encode_config_ggtt config ++
  [klv_header GUC_KLV_VF_CFG_BEGIN_CONTEXT_ID_KEY 1; begin_ctx config;
   klv_header GUC_KLV_VF_CFG_NUM_CONTEXTS_KEY 1; num_ctxs config;
   klv_header GUC_KLV_VF_CFG_BEGIN_DOORBELL_ID_KEY 1; begin_db config;
   klv_header GUC_KLV_VF_CFG_NUM_DOORBELLS_KEY 1; num_dbs config;
   klv_header GUC_KLV_VF_CFG_EXEC_QUANTUM_KEY 1; exec_quantum config;
   klv_header GUC_KLV_VF_CFG_PREEMPT_TIMEOUT_KEY 1; preempt_timeout config] ++
  (IOV_THRESHOLDS ≫= encode_threshold config).

(** The walk of [pf_verify_config_klvs], returning the entries it reports: the key and the
    value, with [None] where a [GEM_BUG_ON] of the walk would fire. [fuel] bounds the number
    of entries; every entry takes at least its header, so the length of the buffer is enough. *)
Inductive klv_value := Klv32 (v : Z) | Klv64 (v : Z) | KlvN (vs : list Z).

Definition klv_value_of (len : Z) (vs : list Z) : klv_value :=
  match len with
  | 1 => Klv32 (vs.[0%nat | 0])
  | 2 => Klv64 (make_u64 (vs.[1%nat | 0]) (vs.[0%nat | 0]))
  | _ => KlvN vs
  end.

Fixpoint verify_klvs (fuel : nat) (cfg : list Z) : option (list (Z * klv_value)) :=
  match cfg, fuel with
  | [], _ => Some []
  | _ :: _, O => None
  | h :: cfg, S fuel =>
      let key := FIELD_GET GUC_KLV_0_KEY h in
      let len := FIELD_GET GUC_KLV_0_LEN h in
      if Z.of_nat (length cfg) <? len then None else
      let n := Z.to_nat len in
      rest ← verify_klvs fuel (drop n cfg);
      Some ((key, klv_value_of len (take n cfg)) :: rest)
  end.
Definition pf_verify_config_klvs (cfg : list Z) : option (list (Z * klv_value)) :=
  verify_klvs (length cfg) cfg.

(** ** Lemmas *)

Definition is_klv_key (key : Z) : Prop := 0 <= key < 2 ^ 16.

Lemma klv_header_key key len :
  is_klv_key key -> 0 <= len < 2 ^ 16 -> FIELD_GET GUC_KLV_0_KEY (klv_header key len) = key.
Proof. intros Hk Hl. unfold klv_header. field_simpl. done. Qed.

Lemma klv_header_len key len :
  is_klv_key key -> 0 <= len < 2 ^ 16 -> FIELD_GET GUC_KLV_0_LEN (klv_header key len) = len.
Proof. intros Hk Hl. unfold klv_header. field_simpl. done. Qed.

(** One more entry than the fuel is never read. *)
Lemma verify_klvs_cons fuel key len vs cfg :
  is_klv_key key -> 0 <= len < 2 ^ 16 -> Z.of_nat (length vs) = len ->
  verify_klvs (S fuel) (klv_header key len :: vs ++ cfg) =
    (rest ← verify_klvs fuel cfg; Some ((key, klv_value_of len vs) :: rest)).
Proof.
  intros Hk Hl Hvs. cbn [verify_klvs]. rewrite klv_header_key, klv_header_len by done.
  rewrite length_app, (proj2 (Z.ltb_ge _ _)) by lia.
  replace (Z.to_nat len) with (length vs) by lia.
  by rewrite drop_app_length, take_app_length.
Qed.

Lemma verify_klvs_mono fuel fuel' cfg r :
  verify_klvs fuel cfg = Some r -> (fuel <= fuel')%nat -> verify_klvs fuel' cfg = Some r.
Proof.
  revert fuel' cfg r. induction fuel as [|f IH]; intros [|f'] [|h cfg] r; try done; try lia.
  cbn [verify_klvs]. case_match; [done|]. intros Hb Hle.
  destruct (verify_klvs f _) as [rest|] eqn:E; [|done]. by rewrite (IH f' _ _ E) by lia.
Qed.

Section lemmas.
Context `{Env}.

Lemma klv_result_le ret : klv_result ret <= 0.
Proof. unfold klv_result, ENOKEY, EPROTO. repeat case_match; propify; lia. Qed.

Lemma klv_result_0 ret : klv_result ret = 0 <-> ret = 1.
Proof. unfold klv_result, ENOKEY, EPROTO. repeat case_match; propify; lia. Qed.

Lemma hw_update_policy_klv32 g key v : hw_only (guc_update_policy_klv32 g key v).
Proof. unfold guc_update_policy_klv32, guc_action_update_policy_cfg. hw_auto. Qed.

Lemma hw_update_vf_klv32 g id key v : hw_only (guc_update_vf_klv32 g id key v).
Proof. unfold guc_update_vf_klv32, guc_action_update_vf_cfg. hw_auto. Qed.

Lemma hw_update_vf_klv64 g id key v : hw_only (guc_update_vf_klv64 g id key v).
Proof. unfold guc_update_vf_klv64, guc_action_update_vf_cfg. hw_auto. Qed.

Lemma hw_update_vf_cfg g id addr sz blob : hw_only (guc_action_update_vf_cfg g id addr sz blob).
Proof. unfold guc_action_update_vf_cfg. hw_auto. Qed.
End lemmas.

(** A call to GuC: the state is kept, the result is zero or a negative error, and zero when
    nothing fails. *)
Definition guc_call `{E : Env} (m : st dev Z) : Prop :=
  forall d, wp m (fun ret d' => same_pf d d' /\ d_live d' = d_live d /\ ret <= 0 /\
                                (EnvWorks E -> ret = 0)) d.

Section calls.
Context `{E : Env} `{!EnvLaws E}.

Lemma guc_call_vma (k : Z -> st dev Z) :
  (forall addr d, wp (k addr) (fun ret d' => same_pf d d' /\ d_live d' = d_live d /\ ret <= 0 /\
     (EnvWorks E -> ret = 0)) d) ->
  guc_call ('(ret, addr) ← intel_guc_allocate_and_map_vma;
            if negb (ret =? 0) then mret ret else k addr).
Proof using Type*.
  intros Hk d. apply wp_bind, wp_vma. intros ret addr d1 Hs Hl _ ->.
  apply wp_if; intros Hb.
  - apply wp_ret. pose proof (env_vma_err (d_ticks d)). propify.
    split_and!; try done. intros HW. by rewrite works_vma in Hb.
  - eapply wp_mono; [apply Hk|]. intros a d2 (? & ? & ? & ?).
    split_and!; try done; [by etransitivity|congruence].
Qed.

Lemma guc_call_send g id addr sz blob d :
  wp (ret ← guc_action_update_vf_cfg g id addr sz blob; mret (klv_result ret))
    (fun ret d' => same_pf d d' /\ d_live d' = d_live d /\ ret <= 0 /\
       (EnvWorks E -> ret = 0)) d.
Proof using Type*.
  apply wp_bind, wp_guc_send. intros d' Hs Hl _. apply wp_ret.
  split_and!; try done; [apply klv_result_le|]. intros HW. by rewrite works_guc.
Qed.

Lemma call_klv32 g id key v : guc_call (guc_update_vf_klv32 g id key v).
Proof using Type*. apply guc_call_vma. intros. apply guc_call_send. Qed.

Lemma call_klv64 g id key v : guc_call (guc_update_vf_klv64 g id key v).
Proof using Type*. apply guc_call_vma. intros. apply guc_call_send. Qed.

Lemma call_ret0 : guc_call (mret 0).
Proof. intros d. by apply wp_ret. Qed.

(** Two calls in sequence, the second one made if the first succeeds. *)
Lemma guc_call_seq m k :
  guc_call m -> guc_call k ->
  guc_call (err ← m; if negb (err =? 0) then mret err else k).
Proof.
  intros Hm Hk d. apply wp_bind. eapply wp_mono; [apply Hm|].
  intros err d1 (Hs & Hl & Hle & HW). simpl. apply wp_if; intros Hb.
  - apply wp_ret. done.
  - eapply wp_mono; [apply Hk|]. intros a d2 (? & ? & ? & ?).
    split_and!; try done; [by etransitivity|congruence].
Qed.

Lemma call_push_two g id k1 v1 k2 v2 : guc_call (push_two_klv32 g id k1 v1 k2 v2).
Proof using Type*.
  intros d. apply wp_bind, wp_gets. apply wp_if; intros _; [by apply wp_ret|].
  apply guc_call_seq; [apply call_klv32|]. apply guc_call_seq; [apply call_klv32|].
  apply call_ret0.
Qed.
End calls.

#[export] Hint Resolve hw_update_policy_klv32 hw_update_vf_klv32 hw_update_vf_klv64
  hw_update_vf_cfg hw_push_two : hw.

(** ** Well-formed configurations and what their encoding says *)

Record config_wf (c : intel_iov_config) : Prop := {
  wf_start : is_u64 (start (ggtt_region c));
  wf_size : is_u64 (size (ggtt_region c));
}.

Definition config_klvs_ggtt (c : intel_iov_config) : list (Z * klv_value) :=
  let r := ggtt_region c in
  if allocated r then
    [(GUC_KLV_VF_CFG_GGTT_START_KEY, Klv64 (start r)); (GUC_KLV_VF_CFG_GGTT_SIZE_KEY, Klv64 (size r))]
  else [].

(** The entries a configuration stands for: each field under its key. *)
Definition config_klvs (c : intel_iov_config) : list (Z * klv_value) :=
  config_klvs_ggtt c ++
  [(GUC_KLV_VF_CFG_BEGIN_CONTEXT_ID_KEY, Klv32 (begin_ctx c));
   (GUC_KLV_VF_CFG_NUM_CONTEXTS_KEY, Klv32 (num_ctxs c));
   (GUC_KLV_VF_CFG_BEGIN_DOORBELL_ID_KEY, Klv32 (begin_db c));
   (GUC_KLV_VF_CFG_NUM_DOORBELLS_KEY, Klv32 (num_dbs c));
   (GUC_KLV_VF_CFG_EXEC_QUANTUM_KEY, Klv32 (exec_quantum c));
   (GUC_KLV_VF_CFG_PREEMPT_TIMEOUT_KEY, Klv32 (preempt_timeout c))] ++
  ((fun t => (intel_iov_threshold_to_klv_key t, Klv32 (threshold_of t c))) <$> IOV_THRESHOLDS).

(** [decodes l r]: the buffer [l] decodes to the entries [r]. *)
Definition decodes (l : list Z) (r : list (Z * klv_value)) : Prop :=
  exists fuel, (fuel <= length l)%nat /\ verify_klvs fuel l = Some r.

Lemma decodes_verify l r : decodes l r -> pf_verify_config_klvs l = Some r.
Proof. intros (f & Hf & E). by eapply verify_klvs_mono. Qed.

Lemma decodes_nil : decodes [] [].
Proof. by exists O. Qed.

Lemma decodes_cons key len vs l r :
  is_klv_key key -> 0 <= len < 2 ^ 16 -> Z.of_nat (length vs) = len -> decodes l r ->
  decodes (klv_header key len :: vs ++ l) ((key, klv_value_of len vs) :: r).
Proof.
  intros Hk Hl Hvs (f & Hf & E). exists (S f). split.
  - rewrite length_cons, length_app. lia.
  - by rewrite verify_klvs_cons, E by done.
Qed.

Lemma decodes_klv32 key v l r :
  is_klv_key key -> decodes l r ->
  decodes (klv_header key 1 :: v :: l) ((key, Klv32 v) :: r).
Proof. intros Hk Hd. by apply (decodes_cons key 1 [v] l r). Qed.

Lemma decodes_klv64 key v l r :
  is_klv_key key -> is_u64 v -> decodes l r ->
  decodes (klv_header key 2 :: lower_32_bits v :: upper_32_bits v :: l) ((key, Klv64 v) :: r).
Proof.
  intros Hk Hv Hd. pose proof (decodes_cons key 2 [lower_32_bits v; upper_32_bits v] l r Hk) as D.
  cbn [klv_value_of lookup list_lookup default] in D. unfold id in D.
  rewrite make_u64_split in D by done. by apply D.
Qed.

Ltac klv_key := split; [discriminate|reflexivity].

Lemma encode_threshold_decodes c ts l r :
  decodes l r ->
  decodes ((ts ≫= encode_threshold c) ++ l)
    (((fun t => (intel_iov_threshold_to_klv_key t, Klv32 (threshold_of t c))) <$> ts) ++ r).
Proof.
  intros Hd. induction ts as [|t ts IH]; [done|]. cbn.
  apply decodes_klv32; [destruct t; klv_key|done].
Qed.

Lemma encode_config_ggtt_decodes c l r :
  config_wf c -> decodes l r ->
  decodes (encode_config_ggtt c ++ l) (config_klvs_ggtt c ++ r).
Proof.
  intros [] Hd. unfold encode_config_ggtt, config_klvs_ggtt. destruct (allocated _); [|done].
  by repeat (apply decodes_klv64; [klv_key|done|]).
Qed.

Lemma encode_config_decodes c l r :
  config_wf c -> decodes l r -> decodes (encode_config c ++ l) (config_klvs c ++ r).
Proof.
  intros Hw Hd. unfold encode_config, config_klvs. rewrite <- !app_assoc.
  apply encode_config_ggtt_decodes; [done|].
  do 6 (apply decodes_klv32; [klv_key|]). by apply encode_threshold_decodes.
Qed.

Lemma encode_config_length c :
  length (encode_config c) = (length (encode_config_ggtt c) + 24)%nat.
Proof. unfold encode_config. rewrite length_app. done. Qed.

Lemma encode_config_ggtt_length c : (length (encode_config_ggtt c) <= 6)%nat.
Proof. unfold encode_config_ggtt. destruct (allocated _); simpl; lia. Qed.

(** ** Properties *)

(** C39: the buffer pushed to GuC for a VF decodes, with the driver's own KLV walk, to exactly
    the fields of the VF's configuration, each under its key, for a primary GT
    ([encode_config]) and with the root's GGTT region appended for a media GT; it always fits
    the 4K buffer it is written to. *)
Theorem encode_config_roundtrip c root :
  config_wf c -> config_wf root ->
  pf_verify_config_klvs (encode_config c) = Some (config_klvs c) /\
  pf_verify_config_klvs (encode_config c ++ encode_config_ggtt root) =
    Some (config_klvs c ++ config_klvs_ggtt root) /\
  Z.of_nat (length (encode_config c ++ encode_config_ggtt root)) * 4 <= 4096.
Proof.
  intros Hc Hr. split; [|split].
  - pose proof (encode_config_decodes c [] [] Hc decodes_nil) as D.
    rewrite !app_nil_r in D. by apply decodes_verify.
  - apply decodes_verify, encode_config_decodes; [done|].
    pose proof (encode_config_ggtt_decodes root [] [] Hr decodes_nil) as D.
    by rewrite !app_nil_r in D.
  - rewrite length_app, encode_config_length.
    pose proof (encode_config_ggtt_length c). pose proof (encode_config_ggtt_length root). lia.
Qed.

Definition example_config : intel_iov_config := {|
  ggtt_region := {| allocated := true; start := 0x123456000; size := 0x40000000 |};
  num_ctxs := 1024; begin_ctx := 1023; num_dbs := 16; begin_db := 32; exec_quantum := 20;
  preempt_timeout := 40000; thresholds := [1; 2; 3; 4; 5; 6] |}.

Lemma encode_config_roundtrip_witness :
  pf_verify_config_klvs (encode_config example_config) = Some (config_klvs example_config).
Proof. apply (encode_config_roundtrip example_config config0); by constructor. Defined.

(** What a policy setter does: if the buffer cannot be allocated its error is returned and
    nothing is sent; otherwise exactly one request goes out, carrying the one KLV [key = v],
    and the new value is kept exactly when GuC reports one parsed key. *)
Definition policy_outcome `{Env} (g : gt_id) (key v : Z)
    (commit : intel_iov_policies -> intel_iov_policies) (op : st dev Z) (d : dev) : Prop :=
  let '(err, d') := op d in
  let req := policy_cfg_req g (env_vma_addr (d_ticks d)) 2 [klv_header key 1; v] in
  let reply := guc_reply (d_log d) req in
  let old := policies (d_prov d g) in
  pf_verify_config_klvs (req_blob req) = Some [(key, Klv32 v)] /\
  (forall g' id, cfg d' g' id = cfg d g' id) /\
  if decide (env_vma (d_ticks d) = 0) then
    d_log d' = d_log d ++ [req] /\
    err = klv_result reply /\
    policies (d_prov d' g) = (if decide (reply = 1) then commit old else old)
  else
    d_log d' = d_log d /\ err = env_vma (d_ticks d) /\ policies (d_prov d' g) = old.

Lemma policy_klv32_run `{Env} g key v d :
  let req := policy_cfg_req g (env_vma_addr (d_ticks d)) 2 [klv_header key 1; v] in
  guc_update_policy_klv32 g key v d =
    if decide (env_vma (d_ticks d) = 0)
    then (klv_result (guc_reply (d_log d) req),
          upd_hw (d_log d ++ [req]) (S (d_ticks d)) (d_live d) d)
    else (env_vma (d_ticks d), upd_hw (d_log d) (S (d_ticks d)) (d_live d) d).
Proof.
  unfold guc_update_policy_klv32, guc_action_update_policy_cfg, mbind, st_bind. simpl.
  case_decide as E; [by rewrite E|]. by rewrite (proj2 (Z.eqb_neq _ _) E).
Qed.

Lemma policy_u32_outcome `{Env} g key commit v d :
  is_klv_key key -> policy_outcome g key v (commit v) (pf_update_policy_u32 g key commit v) d.
Proof.
  intros Hk. unfold policy_outcome, pf_update_policy_u32, mbind, st_bind.
  pose proof (decodes_verify _ _ (decodes_klv32 key v [] [] Hk decodes_nil)) as Hv.
  rewrite policy_klv32_run. set (req := policy_cfg_req _ _ _ _).
  destruct (decide (env_vma (d_ticks d) = 0)) as [E|E];
    [|by rewrite (proj2 (Z.eqb_neq _ _) E)].
  pose proof (klv_result_0 (guc_reply (d_log d) req)) as H0.
  destruct (Z.eqb_spec (klv_result (guc_reply (d_log d) req)) 0) as [E'|E']; simpl.
  - rewrite (decide_True (P := guc_reply _ _ = 1)), (decide_True (P := g = g)) by tauto.
    repeat split; [done| |done].
    intros g' id. unfold cfg; cbn. by case_decide.
  - by rewrite (decide_False (P := guc_reply _ _ = 1)) by tauto.
Qed.

Lemma policy_bool_outcome `{Env} g key commit b d :
  is_klv_key key ->
  policy_outcome g key (Z.b2z b) (commit b) (pf_update_bool_policy g key commit b) d.
Proof. apply (policy_u32_outcome g key (fun _ => commit b) (Z.b2z b) d). Qed.

(** Each of the three policy setters sends its own KLV and keeps the new value exactly when
    GuC confirms it; on any other reply or a failed allocation the policies are unchanged and
    an error is returned. Re-provisioning a policy sends the value already kept. *)
Theorem policies_commit_on_confirm `{Env} g (b : bool) (v : Z) d :
  policy_outcome g GUC_KLV_VGT_POLICY_SCHED_IF_IDLE_KEY (Z.b2z b) (with_sched_if_idle b)
    (intel_iov_provisioning_set_sched_if_idle g b) d /\
  policy_outcome g GUC_KLV_VGT_POLICY_RESET_AFTER_VF_SWITCH_KEY (Z.b2z b) (with_reset_engine b)
    (intel_iov_provisioning_set_reset_engine g b) d /\
  policy_outcome g GUC_KLV_VGT_POLICY_ADVERSE_SAMPLE_PERIOD_KEY v (with_sample_period v)
    (intel_iov_provisioning_set_sample_period g v) d /\
  policy_outcome g GUC_KLV_VGT_POLICY_ADVERSE_SAMPLE_PERIOD_KEY
    (intel_iov_provisioning_get_sample_period g d) id (pf_reprovision_sample_period g) d.
Proof.
  split; [|split; [|split]].
  - apply policy_bool_outcome. klv_key.
  - apply policy_bool_outcome. klv_key.
  - apply policy_u32_outcome. klv_key.
  - pose proof (policy_u32_outcome g GUC_KLV_VGT_POLICY_ADVERSE_SAMPLE_PERIOD_KEY
      with_sample_period (sample_period (policies (d_prov d g))) d ltac:(klv_key)) as Hp.
    unfold policy_outcome in *. change (pf_reprovision_sample_period g d) with
      (pf_update_policy_u32 g GUC_KLV_VGT_POLICY_ADVERSE_SAMPLE_PERIOD_KEY with_sample_period
        (sample_period (policies (d_prov d g))) d).
    destruct (pf_update_policy_u32 _ _ _ _ d) as [err d'].
    unfold intel_iov_provisioning_get_sample_period, id. by destruct (policies (d_prov d g)).
Qed.
