(* ===== verification/Ctxs.v ===== *)
(** * Provisioning of GuC contexts

    [pf_provision_ctxs] and what it uses in gt/iov/intel_iov_provisioning.c: the encoding of
    context ranges in packages of 128, the bitmap of the packages in use, the search for a hole,
    the quotas that keep the PF's spare contexts, and the invariant that no two functions share
    a context. *)

From S2P Require Export GucCfg Sample.

(** ** Packages of contexts *)

Definition GUC_MAX_CONTEXT_ID : Z := 65535.
Definition CTXS_GRANULARITY : Z := 128.
Definition CTXS_MODULO : Z := GUC_MAX_CONTEXT_ID mod CTXS_GRANULARITY.
Definition CTXS_DELTA : Z := CTXS_GRANULARITY - CTXS_MODULO.

Definition ctxs_bitmap_total_bits : Z :=
  u16 (ALIGN GUC_MAX_CONTEXT_ID CTXS_GRANULARITY / CTXS_GRANULARITY).

Definition __encode_ctxs_count (num_ctxs : Z) (first : bool) : Z :=
  u16 (if negb first then num_ctxs / CTXS_GRANULARITY
       else (num_ctxs + CTXS_DELTA) / CTXS_GRANULARITY).
Definition encode_vf_ctxs_count (num_ctxs : Z) : Z := __encode_ctxs_count num_ctxs false.

Definition __encode_ctxs_start (start_ctx : Z) (first : bool) : Z :=
  if start_ctx =? 0 then 0
  else u16 (if negb first then (start_ctx + CTXS_DELTA) / CTXS_GRANULARITY else 0).

Definition __decode_ctxs_count (num_bits : Z) (first : bool) : Z :=
  u16 (if negb first then num_bits * CTXS_GRANULARITY
       else num_bits * CTXS_GRANULARITY - CTXS_DELTA).
Definition decode_vf_ctxs_count (num_bits : Z) : Z := __decode_ctxs_count num_bits false.
Definition decode_pf_ctxs_count (num_bits : Z) : Z := __decode_ctxs_count num_bits true.

Definition __decode_ctxs_start (start_bit : Z) (first : bool) : Z :=
  u16 (if negb first then start_bit * CTXS_GRANULARITY - CTXS_DELTA else 0).
Definition decode_vf_ctxs_start (start_bit : Z) : Z := __decode_ctxs_start start_bit false.

Definition align_ctxs (id : nat) (num_ctxs : Z) : Z :=
  if num_ctxs =? 0 then 0 else
  let num_ctxs := u16 (ALIGN num_ctxs CTXS_GRANULARITY) in
  if (id =? 0)%nat then u16 (num_ctxs - CTXS_DELTA) else num_ctxs.

(** ** Operations *)

Definition SZ_256 : Z := 0x100.

Section ctxs.
Context `{E : Env} `{B : BitmapOps}.

Definition pf_get_min_spare_ctxs : Z := SZ_256.
Definition pf_get_spare_ctxs (g : gt_id) (d : dev) : Z :=
  Z.max (spare_num_ctxs (spare (d_prov d g))) pf_get_min_spare_ctxs.
Definition intel_iov_provisioning_get_spare_ctxs (g : gt_id) (d : dev) : Z :=
  pf_get_spare_ctxs g d.

Definition with_spare_ctxs (n : Z) (s : intel_iov_spare_config) : intel_iov_spare_config :=
  {| spare_ggtt_size := spare_ggtt_size s; spare_num_ctxs := n; spare_num_dbs := spare_num_dbs s |}.

Definition intel_iov_provisioning_set_spare_ctxs (g : gt_id) (sp : Z) : st dev Z :=
  if sp >? GUC_MAX_CONTEXT_ID then mret (- EINVAL) else
  if negb (sp =? 0) && (sp <? pf_get_min_spare_ctxs) then mret (- EINVAL) else
  mod_prov g (fun p => set_spare (with_spare_ctxs sp (spare p)) p) ≫= fun _ => mret 0.

Definition pf_is_valid_config_ctxs (g : gt_id) (id : nat) (d : dev) : bool :=
  negb (num_ctxs (cfg d g id) =? 0).

Definition pf_push_config_ctxs (g : gt_id) (id : nat) (begin num : Z) : st dev Z :=
  push_two_klv32 g id GUC_KLV_VF_CFG_BEGIN_CONTEXT_ID_KEY begin
    GUC_KLV_VF_CFG_NUM_CONTEXTS_KEY num.

Definition pf_get_ctxs_quota (g : gt_id) (id : nat) (d : dev) : Z := num_ctxs (cfg d g id).

(** The packages of [config], if it has contexts. *)
Definition ctxs_range (d : dev) (g : gt_id) (id : nat) : option (Z * Z) :=
  let config := cfg d g id in
  if num_ctxs config =? 0 then None else
  Some (__encode_ctxs_start (begin_ctx config) (id =? 0)%nat,
        __encode_ctxs_count (num_ctxs config) (id =? 0)%nat).

Definition ctxs_bitmap (g : gt_id) (d : dev) : Z :=
  fill_ranges (ctxs_range d g) 0 (seq 0 (S (d_totalvfs d))).

Definition pf_get_ctxs_bitmap (g : gt_id) : st dev (option Z) :=
  bm ← bitmap_zalloc;
  match bm with
  | None => mret None
  | Some _ => bm ← gets (ctxs_bitmap g); mret (Some bm)
  end.

(** One round of the search: [max_size], [index] and [last_equal] of the loop. *)
Definition ctxs_search_step (num_bits : Z) (acc : Z * Z * Z) (r : Z * Z) : Z * Z * Z :=
  let '(max_size, index, last_equal) := acc in
  let '(rs, re) := r in
  let size_bits := u16 (re - rs) in
  if size_bits =? num_bits then (max_size, index, u16 rs)
  else if (size_bits >? num_bits) && (num_bits <? max_size)
  then (size_bits, u16 (re - num_bits), last_equal)
  else acc.

Definition ctxs_search (num_bits : Z) (runs : list (Z * Z)) : Z :=
  let '(_, index, last_equal) := foldl (ctxs_search_step num_bits) (U16_MAX, U16_MAX, 0) runs in
  if negb (last_equal =? 0) then last_equal else index.

Definition pf_alloc_vf_ctxs_range (g : gt_id) (id : nat) (num_ctxs : Z) : st dev Z :=
  bm ← pf_get_ctxs_bitmap g;
  let num_bits := encode_vf_ctxs_count num_ctxs in
  match bm with
  | None => mret (- ENOMEM)
  | Some bm =>
      let index := ctxs_search num_bits (clear_bitranges bm ctxs_bitmap_total_bits) in
      bitmap_free ≫= fun _ =>
      if index >=? U16_MAX then mret (- ENOSPC) else mret (decode_vf_ctxs_start index)
  end.

Definition pf_alloc_ctxs_range (g : gt_id) (id : nat) (num_ctxs : Z) : st dev Z :=
  pf_alloc_vf_ctxs_range g id num_ctxs.

Definition __pf_provision_vf_ctxs (g : gt_id) (id : nat) (start_ctx num_ctxs : Z) : st dev Z :=
  mod_cfg g id (set_ctxs start_ctx num_ctxs) ≫= fun _ => mret 0.

Definition __pf_provision_ctxs (g : gt_id) (id : nat) (start_ctx num_ctxs : Z) : st dev Z :=
  err ← pf_push_config_ctxs g id start_ctx num_ctxs;
  if negb (err =? 0) then
    __pf_provision_vf_ctxs g id 0 0 ≫= fun _ => mret err
  else __pf_provision_vf_ctxs g id start_ctx num_ctxs.

Definition intel_guc_submission_ids_in_use (g : gt_id) (d : dev) : Z := u16 (d_ids_in_use d g).

Definition pf_reserved_ctxs (g : gt_id) (d : dev) : Z :=
  let used := intel_guc_submission_ids_in_use g d in
  let quota := pf_get_ctxs_quota g PFID d in
  let sp := pf_get_spare_ctxs g d in
  let avail := u16 (quota - used) in
  if sp <? avail then 0 else align_ctxs 1 (u16 (sp - avail)).

Definition pf_get_ctxs_free (g : gt_id) : st dev Z :=
  reserved ← gets (fun d => encode_vf_ctxs_count (pf_reserved_ctxs g d));
  bm ← pf_get_ctxs_bitmap g;
  match bm with
  | None => mret 0
  | Some bm =>
      let sum := foldl (fun sum r => u16 (sum + run_size r)) 0
                   (clear_bitranges bm ctxs_bitmap_total_bits) in
      bitmap_free ≫= fun _ =>
      let sum := if sum >? reserved then sum - reserved else 0 in
      mret (decode_vf_ctxs_count sum)
  end.

Definition pf_get_ctxs_max_quota (g : gt_id) : st dev Z :=
  reserved ← gets (fun d => encode_vf_ctxs_count (pf_reserved_ctxs g d));
  bm ← pf_get_ctxs_bitmap g;
  match bm with
  | None => mret 0
  | Some bm =>
      let acc := foldl reserve_step (reserved, 0)
                   ((fun r => u16 (run_size r)) <$> clear_bitranges bm ctxs_bitmap_total_bits) in
      bitmap_free ≫= fun _ =>
      mret (decode_vf_ctxs_count (reserve_left acc))
  end.

Definition pf_provision_ctxs (g : gt_id) (id : nat) (num_ctxs : Z) : st dev Z :=
  let ctxs_quota := align_ctxs id num_ctxs in
  if (id =? PFID)%nat then mret (- EOPNOTSUPP) else
  quota ← gets (pf_get_ctxs_quota g id);
  if ctxs_quota =? quota then mret 0 else
  ret ← __pf_provision_ctxs g id 0 0;
  if (num_ctxs =? 0) || negb (ret =? 0) then mret ret else
  max ← pf_get_ctxs_max_quota g;
  if ctxs_quota >? max then mret (- EDQUOT) else
  ret ← pf_alloc_ctxs_range g id ctxs_quota;
  if ret >=? 0 then __pf_provision_ctxs g id ret ctxs_quota else mret ret.

Definition intel_iov_provisioning_set_ctxs (g : gt_id) (id : nat) (num_ctxs : Z) : st dev Z :=
  valid ← gets (pf_is_valid_config_ctxs g id);
  let reprovisioning := valid || negb (num_ctxs =? 0) in
  err ← pf_provision_ctxs g id num_ctxs;
  mark_manual_if ((err =? 0) && reprovisioning && negb (id =? PFID)%nat) ≫= fun _ => mret err.

Definition intel_iov_provisioning_get_ctxs (g : gt_id) (id : nat) (d : dev) : Z :=
  pf_get_ctxs_quota g id d.
Definition intel_iov_provisioning_query_free_ctxs (g : gt_id) : st dev Z := pf_get_ctxs_free g.
Definition intel_iov_provisioning_query_max_ctxs (g : gt_id) : st dev Z := pf_get_ctxs_max_quota g.

(** [intel_guc_submission_limit_ids] of gt/uc/intel_guc_submission.c *)
Definition ETXTBSY : Z := 26.
Definition intel_guc_submission_limit_ids (g : gt_id) (limit : Z) : st dev Z :=
  used ← gets (fun d => d_ids_in_use d g);
  if limit >? GUC_MAX_CONTEXT_ID then mret (- E2BIG) else
  if negb (used =? 0) then mret (- ETXTBSY) else
  modify (upd_guc_ids g limit) ≫= fun _ => mret 0.

Definition pf_ctxs_share (total_vfs : nat) : Z :=
  let total := ctxs_bitmap_total_bits in
  let vfs := Z.of_nat total_vfs in
  decode_pf_ctxs_count (u16 (total - (total / (1 + vfs)) * vfs)).

Definition pf_assign_ctxs_for_pf (g : gt_id) : st dev unit :=
  pf_ctxs ← gets (fun d => pf_ctxs_share (d_totalvfs d));
  mod_cfg g PFID (set_ctxs 0 pf_ctxs) ≫= fun _ =>
  err ← intel_guc_submission_limit_ids g pf_ctxs;
  mret tt.
End ctxs.

(** ** Arithmetic of the packages *)

Definition NPKG : Z := 512.

Lemma total_bits_eq : ctxs_bitmap_total_bits = NPKG.
Proof. reflexivity. Qed.

Ltac pkg := unfold encode_vf_ctxs_count, decode_vf_ctxs_count, decode_pf_ctxs_count,
  decode_vf_ctxs_start, __encode_ctxs_count, __encode_ctxs_start, __decode_ctxs_count,
  __decode_ctxs_start, NPKG, GUC_MAX_CONTEXT_ID in *;
  change CTXS_GRANULARITY with 128 in *; change CTXS_DELTA with 1 in *; simpl negb in *;
  cbn beta iota in *.

Lemma align_ctxs_vf id n :
  (id <> 0)%nat -> 0 <= n <= 65408 -> align_ctxs id n = 128 * ((n + 127) / 128).
Proof.
  intros Hid Hn. unfold align_ctxs. destruct (Z.eqb_spec n 0) as [->|Hn0]; [done|].
  rewrite (proj2 (Nat.eqb_neq id 0)) by done.
  change CTXS_GRANULARITY with (2 ^ 7). rewrite ALIGN_pow2 by lia.
  change (2 ^ 7) with 128. change (128 - 1) with 127. ulia.
Qed.

Lemma align_ctxs_wrap id n : (id <> 0)%nat -> 65408 < n < 65536 -> align_ctxs id n = 0.
Proof.
  intros Hid Hn. unfold align_ctxs. rewrite (proj2 (Z.eqb_neq n 0)) by lia.
  rewrite (proj2 (Nat.eqb_neq id 0)) by done.
  change CTXS_GRANULARITY with (2 ^ 7). rewrite ALIGN_pow2 by lia.
  change (2 ^ 7) with 128. change (128 - 1) with 127. ulia.
Qed.

(** Every request is for a whole number of packages, at most 511. *)
Lemma align_ctxs_packages id n :
  (id <> 0)%nat -> 0 <= n < 65536 -> exists k, align_ctxs id n = 128 * k /\ 0 <= k <= 511.
Proof.
  intros Hid Hn. destruct (Z.le_gt_cases n 65408).
  - exists ((n + 127) / 128). rewrite align_ctxs_vf by lia. split; [done|]. dlia.
  - exists 0. rewrite align_ctxs_wrap by lia. split; [done|lia].
Qed.

Lemma encode_vf_packages k : 0 <= k <= 511 -> encode_vf_ctxs_count (128 * k) = k.
Proof. intros. pkg. ulia. Qed.

Lemma decode_vf_packages k : 0 <= k <= 511 -> decode_vf_ctxs_count k = 128 * k.
Proof. intros. pkg. ulia. Qed.

(** ** The search for a hole *)

(** The hole the loop settles on: the last one that fits exactly, or else the end of the last
    one that is larger. *)
Definition best_fit (num : Z) (runs : list (Z * Z)) : option Z :=
  match last (filter (fun r => run_size r = num) runs) with
  | Some r => Some r.1
  | None => (fun r => r.2 - num) <$> last (filter (fun r => num < run_size r) runs)
  end.

Definition pkg_runs (runs : list (Z * Z)) : Prop :=
  Forall (fun r => 0 < r.1 /\ r.1 < r.2 /\ r.2 <= NPKG) runs.

Lemma ctxs_search_foldl num runs :
  0 <= num < 65535 -> pkg_runs runs ->
  exists max_size, num < max_size /\
    foldl (ctxs_search_step num) (U16_MAX, U16_MAX, 0) runs =
    (max_size,
     default U16_MAX ((fun r => r.2 - num) <$> last (filter (fun r => num < run_size r) runs)),
     default 0 (fst <$> last (filter (fun r => run_size r = num) runs))).
Proof.
  intros Hnum Hr. induction runs as [|[rs re] runs IH] using rev_ind.
  { exists U16_MAX. split; [unfold U16_MAX; lia|done]. }
  apply Forall_app in Hr as [Hr Hl]. apply Forall_cons_1 in Hl as [Hl _]. simpl in Hl. unfold NPKG in Hl.
  destruct (IH Hr) as (m & Hm & Hf). clear IH Hr.
  rewrite foldl_app, Hf, !list.filter_app. simpl.
  assert (u16 (re - rs) = re - rs) as -> by (apply u16_small; lia).
  destruct (Z.eqb_spec (re - rs) num) as [Heq|Hne].
  - exists m. split; [done|].
    rewrite (filter_cons_False (fun r => num < run_size r)), filter_nil, app_nil_r
      by (unfold run_size; simpl; lia).
    rewrite (filter_cons_True (fun r => run_size r = num)), filter_nil, last_snoc by done.
    simpl. rewrite u16_small by lia. done.
  - rewrite (filter_cons_False (fun r => run_size r = num)), filter_nil, app_nil_r by done.
    rewrite (proj2 (Z.ltb_lt num m)), andb_true_r by done.
    destruct (Z.gtb_spec (re - rs) num) as [Hgt|Hle].
    + exists (re - rs). split; [lia|].
      rewrite (filter_cons_True (fun r => num < run_size r)), filter_nil, last_snoc by (unfold run_size; simpl; lia).
      simpl. rewrite u16_small by lia. done.
    + exists m. split; [done|].
      by rewrite (filter_cons_False (fun r => num < run_size r)), filter_nil, app_nil_r by (unfold run_size; simpl; lia).
Qed.

Lemma last_filter_elem {A} (P : A -> Prop) `{!forall x, Decision (P x)} l x :
  last (filter P l) = Some x -> P x /\ x ∈ l.
Proof. intros Hl. by apply last_Some_elem_of, list_elem_of_filter in Hl. Qed.

Lemma last_filter_None {A} (P : A -> Prop) `{!forall x, Decision (P x)} l x :
  last (filter P l) = None -> x ∈ l -> ~ P x.
Proof. intros Hl%last_None Hx HP. by eapply filter_nil_not_elem_of. Qed.

Lemma ctxs_search_best num runs :
  0 <= num < 65535 -> pkg_runs runs -> ctxs_search num runs = default U16_MAX (best_fit num runs).
Proof.
  intros Hnum Hr. unfold ctxs_search.
  destruct (ctxs_search_foldl num runs Hnum Hr) as (m & Hm & ->). unfold best_fit.
  destruct (last (filter (fun r => run_size r = num) runs)) as [[rs re]|] eqn:E; simpl; [|done].
  apply last_filter_elem in E as [_ Hin]. pose proof (proj1 (Forall_forall _ _) Hr _ Hin) as Hrs. simpl in Hrs.
  by rewrite (proj2 (Z.eqb_neq rs 0)) by lia.
Qed.

(** The chosen packages lie inside one of the holes. *)
Lemma best_fit_inside num runs i :
  best_fit num runs = Some i -> 0 <= num ->
  exists r, r ∈ runs /\ r.1 <= i /\ i + num <= r.2.
Proof.
  unfold best_fit. intros Hb Hnum.
  destruct (last (filter (fun r => run_size r = num) runs)) as [r|] eqn:E.
  - apply last_filter_elem in E as [Hs Hin]. injection Hb as <-. exists r. unfold run_size in *.
    split; [done|]. lia.
  - apply fmap_Some in Hb as (r & Hr & ->). apply last_filter_elem in Hr as [Hs Hin].
    exists r. unfold run_size in *. split; [done|]. lia.
Qed.

(** A hole is found as soon as there is one that is large enough. *)
Lemma best_fit_found num runs r :
  r ∈ runs -> num <= run_size r -> is_Some (best_fit num runs).
Proof.
  intros Hr Hs. unfold best_fit.
  destruct (last (filter (fun r => run_size r = num) runs)) eqn:E; [done|].
  destruct (last (filter (fun r => num < run_size r) runs)) eqn:E'; [done|].
  exfalso. apply (last_filter_None _ _ r E'); [done|].
  pose proof (last_filter_None _ _ r E Hr). simpl in *. lia.
Qed.

(** ** The invariant *)

(** The contexts of [config] are whole packages [s .. s + k) of the 512; the PF's start at
    package 0, which is one context short. *)
Definition ctx_slot (id : nat) (s k : Z) (c : intel_iov_config) : Prop :=
  0 < k /\ s + k <= NPKG /\
  if (id =? 0)%nat then s = 0 /\ begin_ctx c = 0 /\ num_ctxs c = 128 * k - 1
  else 1 <= s /\ begin_ctx c = 128 * s - 1 /\ num_ctxs c = 128 * k.

Definition ctx_cfg_ok (id : nat) (c : intel_iov_config) : Prop :=
  num_ctxs c = 0 \/ exists s k, ctx_slot id s k c.

Section inv.
Context `{E : Env}.

Record ctxs_inv (g : gt_id) (d : dev) : Prop := {
  ci_len : length (configs (d_prov d g)) = S (d_totalvfs d);
  ci_pf : num_ctxs (cfg d g PFID) <> 0;
  ci_cfg id : (id <= d_totalvfs d)%nat -> ctx_cfg_ok id (cfg d g id);
  ci_disj id id' r r' :
    (id <= d_totalvfs d)%nat -> (id' <= d_totalvfs d)%nat -> id <> id' ->
    ctxs_range d g id = Some r -> ctxs_range d g id' = Some r' -> ranges_disj r r';
}.

(** [x] is one of the context ids of [id]. *)
Definition owns_ctx (d : dev) (g : gt_id) (id : nat) (x : Z) : Prop :=
  begin_ctx (cfg d g id) <= x < begin_ctx (cfg d g id) + num_ctxs (cfg d g id).

(** No context id is owned twice and all are below the hardware limit. *)
Definition ctxs_exclusive (g : gt_id) (d : dev) : Prop :=
  forall id x, (id <= d_totalvfs d)%nat -> owns_ctx d g id x ->
    0 <= x < GUC_MAX_CONTEXT_ID /\
    forall id', (id' <= d_totalvfs d)%nat -> owns_ctx d g id' x -> id' = id.

Lemma ctx_slot_range d g id s k :
  ctx_slot id s k (cfg d g id) -> ctxs_range d g id = Some (s, k).
Proof.
  intros (Hk & Hs & Hc). unfold ctxs_range.
  destruct (id =? 0)%nat; destruct Hc as (Hs1 & Hb & Hn); rewrite (proj2 (Z.eqb_neq _ 0)) by lia;
    rewrite Hb, Hn; pkg; f_equal; f_equal; repeat case_match; propify; ulia.
Qed.

Lemma ctxs_range_slot d g id r :
  ctx_cfg_ok id (cfg d g id) -> ctxs_range d g id = Some r ->
  ctx_slot id r.1 r.2 (cfg d g id).
Proof.
  intros [Hn|(s & k & Hsl)] Hr.
  - unfold ctxs_range in Hr. by rewrite Hn in Hr.
  - rewrite (ctx_slot_range _ _ _ _ _ Hsl) in Hr. by injection Hr as <-.
Qed.

Lemma ctx_slot_bounds id s k c : ctx_slot id s k c -> 0 <= s /\ 0 < k /\ s + k <= NPKG.
Proof. intros (? & ? & Hc). destruct (id =? 0)%nat; destruct Hc as [? _]; lia. Qed.

Lemma ctxs_inv_exclusive g d : ctxs_inv g d -> ctxs_exclusive g d.
Proof.
  intros I. assert (forall id x, (id <= d_totalvfs d)%nat -> owns_ctx d g id x ->
    exists s k, ctxs_range d g id = Some (s, k) /\ ctx_slot id s k (cfg d g id) /\
      128 * s - 1 <= x < 128 * (s + k) - 1 /\ 0 <= x) as Hown.
  { intros id x Hid Hx. destruct (ci_cfg g d I id Hid) as [Hn|(s & k & Hsl)];
      unfold owns_ctx in Hx; [lia|].
    exists s, k. split; [by apply ctx_slot_range|]. split; [done|].
    destruct Hsl as (Hk & Hs & Hc). destruct (id =? 0)%nat; lia. }
  intros id x Hid Hx. destruct (Hown id x Hid Hx) as (s & k & Hr & Hsl & Hb & Hx0).
  pose proof (ctx_slot_bounds _ _ _ _ Hsl). unfold GUC_MAX_CONTEXT_ID, NPKG in *.
  split; [lia|]. intros id' Hid' Hx'.
  destruct (Hown id' x Hid' Hx') as (s' & k' & Hr' & Hsl' & Hb' & _).
  destruct (decide (id' = id)) as [|Hne]; [done|].
  destruct (ci_disj g d I id' id _ _ Hid' Hid Hne Hr' Hr); simpl in *; lia.
Qed.

(** The invariant only reads the configurations and the number of VFs. *)
Lemma ctxs_range_same d d' g id : cfg d' g id = cfg d g id -> ctxs_range d' g id = ctxs_range d g id.
Proof. unfold ctxs_range. by intros ->. Qed.

Lemma ctxs_inv_same g d d' : same_pf d d' -> ctxs_inv g d -> ctxs_inv g d'.
Proof.
  intros Hs [Hlen Hpf Hcfg Hdisj]. pose proof (same_cfg d d' g) as Hc.
  constructor; rewrite ?(same_total _ _ Hs).
  - by rewrite (same_prov _ _ Hs).
  - by rewrite Hc.
  - intros id. rewrite Hc by done. auto.
  - intros id id' r r' ? ? ?. rewrite !(ctxs_range_same d d') by (by apply Hc). eauto.
Qed.

(** Changing the contexts of one VF, to none or to packages no other function has. *)
Lemma ctxs_inv_upd g d id f :
  ctxs_inv g d -> id <> PFID -> (id <= d_totalvfs d)%nat ->
  ctx_cfg_ok id (f (cfg d g id)) ->
  (forall s k id' r, ctx_slot id s k (f (cfg d g id)) -> (id' <= d_totalvfs d)%nat -> id' <> id ->
     ctxs_range d g id' = Some r -> ranges_disj (s, k) r) ->
  ctxs_inv g (upd_cfg g id f d).
Proof.
  intros [Hlen Hpf Hcfg Hdisj] Hid Hle Hok Hnew.
  assert (cfg (upd_cfg g id f d) g id = f (cfg d g id)) as Heq
    by (apply cfg_upd_eq; rewrite Hlen; lia).
  assert (forall id', id' <> id -> cfg (upd_cfg g id f d) g id' = cfg d g id') as Hne
    by (intros; apply cfg_upd_ne; auto).
  constructor.
  - by rewrite length_configs_upd.
  - by rewrite Hne by done.
  - intros id' Hid'. destruct (decide (id' = id)) as [->|]; [by rewrite Heq|].
    rewrite Hne by done. by apply Hcfg.
  - assert (forall id' r r', (id' <= d_totalvfs d)%nat -> id' <> id ->
      ctxs_range (upd_cfg g id f d) g id = Some r ->
      ctxs_range (upd_cfg g id f d) g id' = Some r' -> ranges_disj r r') as Hone.
    { intros id' r r' Hid' Hni Hr Hr'.
      apply ctxs_range_slot in Hr; [|by rewrite Heq]. rewrite Heq in Hr.
      rewrite (ctxs_range_same d) in Hr' by (by apply Hne). destruct r. by eapply Hnew. }
    intros i1 i2 r1 r2 H1 H2 Hn Hr1 Hr2.
    destruct (decide (i1 = id)) as [->|]; [by eapply (Hone i2)|].
    destruct (decide (i2 = id)) as [->|].
    + destruct (Hone i1 r2 r1 H1 ltac:(done) Hr2 Hr1); [by right|by left].
    + rewrite (ctxs_range_same d) in Hr1 by (by apply Hne).
      rewrite (ctxs_range_same d) in Hr2 by (by apply Hne). by eapply (Hdisj i1 i2).
Qed.
End inv.

(** ** The operations keep the invariant *)

Section ops.
Context `{E : Env} `{!EnvLaws E} `{B : BitmapOps} `{!BitmapLaws B}.

(** The holes between the packages in use. *)
Definition ctxs_holes (g : gt_id) (d : dev) : list (Z * Z) :=
  clear_bitranges (ctxs_bitmap g d) NPKG.

Lemma ctxs_bitmap_same g d d' : same_pf d d' -> ctxs_bitmap g d' = ctxs_bitmap g d.
Proof.
  intros Hs. unfold ctxs_bitmap. rewrite (same_total _ _ Hs).
  apply fill_ranges_ext. intros id. apply ctxs_range_same. by apply same_cfg.
Qed.

Lemma ctxs_range_nonneg g d :
  ctxs_inv g d ->
  Forall (fun id => forall s n, ctxs_range d g id = Some (s, n) -> 0 <= s /\ 0 <= n)
    (seq 0 (S (d_totalvfs d))).
Proof.
  intros I. apply list.Forall_forall. intros id Hid%elem_of_seq s n Hr.
  apply ctxs_range_slot, ctx_slot_bounds in Hr; [simpl in Hr; lia|]. apply (ci_cfg g d I). lia.
Qed.

Lemma ctxs_bitmap_clear g d i :
  ctxs_inv g d -> 0 <= i ->
  Z.testbit (ctxs_bitmap g d) i = false <->
  forall id s k, (id <= d_totalvfs d)%nat -> ctxs_range d g id = Some (s, k) -> ~ (s <= i < s + k).
Proof using Type*.
  intros I Hi. unfold ctxs_bitmap. rewrite fill_ranges_clear by (done || by apply ctxs_range_nonneg).
  split; intros Hc id s k Hid Hr; (eapply Hc; [|done]); [apply elem_of_seq; lia|].
  apply elem_of_seq in Hid. lia.
Qed.

Lemma ctxs_holes_runs g d : clear_runs (ctxs_bitmap g d) NPKG 0 (ctxs_holes g d).
Proof using Type*. apply clear_bitranges_spec. unfold NPKG. lia. Qed.

Lemma ctxs_holes_pkg g d : ctxs_inv g d -> pkg_runs (ctxs_holes g d).
Proof using Type*.
  intros I. apply list.Forall_forall. intros [rs re] Hin. simpl.
  destruct (clear_runs_range _ _ _ _ (ctxs_holes_runs g d) Hin) as (H0 & Hlt & Hle & Hclr).
  split; [|done]. destruct (Z.eq_dec rs 0) as [->|]; [|lia].
  destruct (ci_cfg g d I PFID (Nat.le_0_l _)) as [Hn|(s & k & Hsl)]; [by destruct (ci_pf g d I)|].
  pose proof (Hclr 0 ltac:(lia)) as Hb. rewrite (ctxs_bitmap_clear g d 0 I ltac:(lia)) in Hb.
  exfalso. apply (Hb PFID s k); [apply Nat.le_0_l|by apply ctx_slot_range|]. destruct Hsl as (? & ? & -> & _). lia.
Qed.

Lemma wp_ctxs_bitmap g (Q : option Z -> dev -> Prop) d :
  (forall d', same_pf d d' -> d_live d' = d_live d + 1 -> Q (Some (ctxs_bitmap g d)) d') ->
  (~ EnvWorks E -> forall d', same_pf d d' -> d_live d' = d_live d -> Q None d') ->
  wp (pf_get_ctxs_bitmap g) Q d.
Proof.
  intros H1 H2. apply wp_bind, wp_bitmap_zalloc.
  - intros d' Hs Hl _. apply wp_bind, wp_gets, wp_ret.
    rewrite (ctxs_bitmap_same g d d' Hs). by apply H1.
  - intros Ha d' Hs Hl _. apply wp_ret, H2; [|done..]. intros HW.
    by rewrite works_alloc in Ha.
Qed.

(** The allocation of [k] packages. *)
Lemma wp_alloc_ctxs g id k (Q : Z -> dev -> Prop) d :
  ctxs_inv g d -> 0 <= k <= 511 ->
  (forall d', same_pf d d' -> d_live d' = d_live d ->
     (~ EnvWorks E -> Q (- ENOMEM) d') /\
     (best_fit k (ctxs_holes g d) = None -> Q (- ENOSPC) d') /\
     (forall i, best_fit k (ctxs_holes g d) = Some i -> 1 <= i <= NPKG -> Q (128 * i - 1) d')) ->
  wp (pf_alloc_ctxs_range g id (128 * k)) Q d.
Proof using Type*.
  intros I Hk HQ. apply wp_bind, wp_ctxs_bitmap.
  - intros d1 Hs1 Hl1. cbv beta iota zeta. rewrite encode_vf_packages by done.
    pose proof (ctxs_holes_pkg g d I) as Hpkg.
    rewrite total_bits_eq, ctxs_search_best by (lia || exact Hpkg).
    fold (ctxs_holes g d). apply wp_bind, wp_bitmap_free. intros d2 Hs2 Hl2 _.
    destruct (HQ d2) as (_ & H2 & H3); [by etransitivity|lia|].
    destruct (best_fit k (ctxs_holes g d)) as [i|] eqn:Eb; simpl.
    + destruct (best_fit_inside _ _ _ Eb ltac:(lia)) as (r & Hr & Hr1 & Hr2).
      pose proof (proj1 (list.Forall_forall _ _) Hpkg r Hr) as Hrp. simpl in Hrp. unfold NPKG in *.
      apply wp_if; intros Hi; unfold U16_MAX in Hi; propify; [lia|]. apply wp_ret.
      replace (decode_vf_ctxs_start i) with (128 * i - 1) by (pkg; ulia). apply H3; [done|lia].
    + by apply wp_ret, H2.
  - intros HW d1 Hs1 Hl1. apply wp_ret. by apply HQ.
Qed.

(** What the quota query reports when it gets its bitmap. *)
Definition ctxs_reserve (g : gt_id) (d : dev) : Z := encode_vf_ctxs_count (pf_reserved_ctxs g d).
Definition ctxs_max (g : gt_id) (d : dev) : Z :=
  let sizes := run_size <$> ctxs_holes g d in
  128 * Z.min (maxZ sizes) (Z.max 0 (sumZ sizes - ctxs_reserve g d)).

Lemma pkg_runs_sizes runs :
  pkg_runs runs -> (fun r => u16 (run_size r)) <$> runs = run_size <$> runs.
Proof.
  intros Hr. apply list_fmap_ext. intros i r Hi. apply u16_small. unfold run_size.
  eapply list.Forall_lookup_1 in Hr; [|done]. simpl in Hr. unfold NPKG in Hr. lia.
Qed.

Lemma ctxs_holes_max g d :
  ctxs_inv g d -> 0 <= maxZ (run_size <$> ctxs_holes g d) <= 511.
Proof using Type*.
  intros I. split; [apply maxZ_nonneg|].
  destruct (Z.le_gt_cases (maxZ (run_size <$> ctxs_holes g d)) 0) as [|Hpos]; [lia|].
  apply maxZ_in, list_elem_of_fmap in Hpos as (r & -> & Hr).
  pose proof (proj1 (list.Forall_forall _ _) (ctxs_holes_pkg g d I) r Hr) as Hp. simpl in Hp.
  unfold run_size, NPKG in *. lia.
Qed.

Lemma encode_vf_nonneg n : 0 <= encode_vf_ctxs_count n.
Proof. apply u16_range. Qed.

Lemma wp_max_quota g (Q : Z -> dev -> Prop) d :
  ctxs_inv g d ->
  (forall d', same_pf d d' -> d_live d' = d_live d ->
     Q (ctxs_max g d) d' /\ (~ EnvWorks E -> Q 0 d')) ->
  wp (pf_get_ctxs_max_quota g) Q d.
Proof using Type*.
  intros I HQ. apply wp_bind, wp_gets, wp_bind, wp_ctxs_bitmap.
  - intros d1 Hs1 Hl1. rewrite total_bits_eq. fold (ctxs_holes g d).
    rewrite pkg_runs_sizes by (by apply ctxs_holes_pkg).
    apply wp_bind, wp_bitmap_free. intros d2 Hs2 Hl2 _. apply wp_ret.
    pose proof (clear_runs_sizes _ _ (ctxs_holes_runs g d)) as Hsz. apply list.Forall_fmap in Hsz.
    rewrite reserve_left_spec by (done || apply encode_vf_nonneg).
    pose proof (ctxs_holes_max g d I). rewrite decode_vf_packages by (unfold ctxs_reserve; lia).
    apply HQ; [by etransitivity|lia].
  - intros HW d1 Hs1 Hl1. apply wp_ret. by apply HQ.
Qed.
End ops.

Section provision.
Context `{E : Env} `{!EnvLaws E} `{B : BitmapOps} `{!BitmapLaws B}.

Lemma wp_provision_range g id b n (Q : Z -> dev -> Prop) d :
  (forall d', same_pf (upd_cfg g id (set_ctxs b n) d) d' -> d_live d' = d_live d -> Q 0 d') ->
  (~ EnvWorks E -> forall err d', err < 0 -> same_pf (upd_cfg g id (set_ctxs 0 0) d) d' ->
     d_live d' = d_live d -> Q err d') ->
  wp (__pf_provision_ctxs g id b n) Q d.
Proof using Type*.
  intros H1 H2. apply wp_bind. eapply wp_mono; [apply call_push_two|].
  intros err d1 (Hs & Hl & Hle & HW). simpl. apply wp_if; intros Hb; propify.
  - apply wp_bind, wp_bind, wp_mod_cfg, wp_ret, wp_ret. apply H2; [tauto|lia| |done].
    by apply same_upd_cfg.
  - apply wp_bind, wp_mod_cfg, wp_ret. apply H1; [by apply same_upd_cfg|done].
Qed.

(** The reserve depends on the PF only. *)
Lemma ctxs_reserve_upd g d id f d' :
  id <> PFID -> same_pf (upd_cfg g id f d) d' -> ctxs_reserve g d' = ctxs_reserve g d.
Proof.
  intros Hid Hs. unfold ctxs_reserve, pf_reserved_ctxs, intel_guc_submission_ids_in_use,
    pf_get_ctxs_quota, pf_get_spare_ctxs.
  rewrite (same_cfg _ _ _ _ Hs), (same_prov _ _ Hs), (same_ids _ _ Hs), cfg_upd_ne by auto.
  unfold upd_cfg. rewrite prov_upd. by case_decide.
Qed.

Lemma ctxs_max_same g d d' : same_pf d d' -> ctxs_max g d' = ctxs_max g d.
Proof.
  intros Hs. unfold ctxs_max, ctxs_holes. rewrite (ctxs_bitmap_same g d d' Hs).
  assert (ctxs_reserve g d' = ctxs_reserve g d) as ->; [|done].
  unfold ctxs_reserve, pf_reserved_ctxs, intel_guc_submission_ids_in_use, pf_get_ctxs_quota,
    pf_get_spare_ctxs. by rewrite (same_cfg _ _ _ _ Hs), (same_prov _ _ Hs), (same_ids _ _ Hs).
Qed.

(** A whole-package range inside a hole meets no other range. *)
Lemma hole_free g d id s k r :
  ctxs_inv g d -> r ∈ ctxs_holes g d -> 0 < k -> r.1 <= s -> s + k <= r.2 ->
  (id <= d_totalvfs d)%nat -> forall r', ctxs_range d g id = Some r' -> ranges_disj (s, k) r'.
Proof using Type*.
  intros I Hr Hk Hs He Hid [s' k'] Hr'. destruct r as [rs re]; simpl in *.
  destruct (clear_runs_range _ _ _ _ (ctxs_holes_runs g d) Hr) as (H0 & Hlt & Hle & Hclr).
  pose proof (ctxs_range_slot d g id _ (ci_cfg g d I id Hid) Hr') as Hsl%ctx_slot_bounds.
  simpl in Hsl. unfold ranges_disj; simpl.
  destruct (Z.le_gt_cases (s + k) s'); [by left|].
  destruct (Z.le_gt_cases (s' + k') s); [by right|]. exfalso.
  pose proof (Hclr (Z.max s s') ltac:(lia)) as Hb.
  rewrite (ctxs_bitmap_clear g d _ I) in Hb by lia.
  apply (Hb id s' k' Hid Hr'). lia.
Qed.

Lemma ctxs_inv_release g d id :
  ctxs_inv g d -> id <> PFID -> (id <= d_totalvfs d)%nat ->
  ctxs_inv g (upd_cfg g id (set_ctxs 0 0) d).
Proof using Type*.
  intros I Hid Hle. apply ctxs_inv_upd; try done; [by left|].
  intros s k id' r (Hk & Hs & Hc). rewrite (proj2 (Nat.eqb_neq id 0)) in Hc by done.
  simpl in Hc. lia.
Qed.

(** Nothing is left of the contexts of a VF that asked for too many: the request wraps. *)
Lemma ctxs_inv_empty g d id b :
  ctxs_inv g d -> id <> PFID -> (id <= d_totalvfs d)%nat ->
  ctxs_inv g (upd_cfg g id (set_ctxs b 0) d).
Proof using Type*.
  intros I Hid Hle. apply ctxs_inv_upd; try done; [by left|].
  intros s k id' r (Hk & Hs & Hc). rewrite (proj2 (Nat.eqb_neq id 0)) in Hc by done.
  simpl in Hc. lia.
Qed.

Lemma ctxs_inv_take g d id i k :
  ctxs_inv g d -> id <> PFID -> (id <= d_totalvfs d)%nat -> 0 <= k <= 511 -> 1 <= i ->
  best_fit k (ctxs_holes g d) = Some i ->
  ctxs_inv g (upd_cfg g id (set_ctxs (128 * i - 1) (128 * k)) d).
Proof using Type*.
  intros I Hid Hle Hk Hi Hb.
  destruct (Z.eq_dec k 0) as [->|Hk0]; [by apply ctxs_inv_empty|].
  destruct (best_fit_inside _ _ _ Hb ltac:(lia)) as (r & Hr & Hr1 & Hr2).
  pose proof (proj1 (list.Forall_forall _ _) (ctxs_holes_pkg g d I) r Hr) as Hp. simpl in Hp.
  assert (ctx_slot id i k (set_ctxs (128 * i - 1) (128 * k) (cfg d g id))) as Hsl.
  { split; [lia|]. split; [lia|]. by rewrite (proj2 (Nat.eqb_neq id 0)) by done. }
  apply ctxs_inv_upd; try done; [right; by exists i, k|].
  intros s' k' id' r' (_ & _ & Hc) Hid' Hne Hr'.
  rewrite (proj2 (Nat.eqb_neq id 0)) in Hc by done. simpl in Hc.
  replace s' with i by lia. replace k' with k by lia.
  by eapply hole_free; [done|done|lia|..].
Qed.

(** The packages nobody owns. *)
Definition ctxs_free_pkgs (g : gt_id) (d : dev) : Z := sumZ (run_size <$> ctxs_holes g d).

Lemma ctxs_free_count g d : ctxs_free_pkgs g d = NPKG - count_set (ctxs_bitmap g d) NPKG.
Proof using Type*.
  pose proof (clear_runs_count _ _ _ _ (ctxs_holes_runs g d)) as Hc.
  change (count_set (ctxs_bitmap g d) 0) with 0 in Hc. unfold ctxs_free_pkgs, NPKG in *. lia.
Qed.

Lemma ctxs_free_same g d d' : same_pf d d' -> ctxs_free_pkgs g d' = ctxs_free_pkgs g d.
Proof. intros Hs. unfold ctxs_free_pkgs, ctxs_holes. by rewrite (ctxs_bitmap_same g d d'). Qed.

(** Taking [k] packages out of a hole. *)
Lemma ctxs_free_take g d id i k :
  ctxs_inv g d -> id <> PFID -> (id <= d_totalvfs d)%nat -> 0 < k <= 511 -> 1 <= i ->
  num_ctxs (cfg d g id) = 0 -> best_fit k (ctxs_holes g d) = Some i ->
  ctxs_free_pkgs g (upd_cfg g id (set_ctxs (128 * i - 1) (128 * k)) d) = ctxs_free_pkgs g d - k.
Proof using Type*.
  intros I Hid Hle Hk Hi Hz Hb.
  pose proof (ctxs_inv_take g d id i k I Hid Hle ltac:(lia) Hi Hb) as I'.
  destruct (best_fit_inside _ _ _ Hb ltac:(lia)) as ([rs re] & Hr & Hr1 & Hr2). simpl in *.
  destruct (clear_runs_range _ _ _ _ (ctxs_holes_runs g d) Hr) as (H0 & Hlt & Hre & Hclr).
  rewrite !ctxs_free_count.
  rewrite (count_set_union (ctxs_bitmap g d) _ i k NPKG); try lia.
  { intros j Hj. apply Hclr. lia. }
  set (d' := upd_cfg g id _ d) in *.
  assert (ctxs_range d' g id = Some (i, k)) as Hnew.
  { apply ctx_slot_range. unfold d'. rewrite cfg_upd_eq by (rewrite (ci_len g d I); lia).
    unfold ctx_slot, NPKG in *. rewrite (proj2 (Nat.eqb_neq id 0)) by done. simpl. lia. }
  assert (forall id', id' <> id -> ctxs_range d' g id' = ctxs_range d g id') as Hold
    by (intros; apply ctxs_range_same, cfg_upd_ne; auto).
  intros j Hj. apply bool_eq_false.
  destruct (bit_in i k j) eqn:Ein; rewrite ?orb_true_r, ?orb_false_r.
  - split; [|done]. rewrite (ctxs_bitmap_clear g d' j I' Hj). intros Hno.
    unfold bit_in in Ein. propify. exfalso. apply (Hno id i k); [done|done|lia].
  - rewrite !ctxs_bitmap_clear by done. unfold bit_in in Ein.
    split; intros Hno id' s n Hid' Hrng.
    + destruct (decide (id' = id)) as [->|Hne].
      * unfold ctxs_range in Hrng. by rewrite Hz in Hrng.
      * apply (Hno id' s n Hid'). by rewrite Hold.
    + destruct (decide (id' = id)) as [->|Hne].
      * rewrite Hnew in Hrng. injection Hrng as <- <-.
        apply andb_false_iff in Ein as [?|?]; propify; lia.
      * apply (Hno id' s n Hid'). by rewrite <- Hold.
Qed.

(** What [pf_provision_ctxs] leaves. *)
Definition ctxs_post (g : gt_id) (id : nat) (n : Z) (d : dev) (ret : Z) (d' : dev) : Prop :=
  ctxs_inv g d' /\
  (exists b m, same_pf (upd_cfg g id (set_ctxs b m) d) d') /\
  d_live d' = d_live d /\
  (ret = 0 /\ num_ctxs (cfg d' g id) = align_ctxs id n \/
   ret < 0 /\ num_ctxs (cfg d' g id) = 0) /\
  (EnvWorks E -> 0 < align_ctxs id n ->
   ret = if decide (num_ctxs (cfg d g id) = align_ctxs id n \/
                    align_ctxs id n <= ctxs_max g (upd_cfg g id (set_ctxs 0 0) d))
         then 0 else - EDQUOT) /\
  (ret = 0 -> 0 < align_ctxs id n -> num_ctxs (cfg d g id) <> align_ctxs id n ->
   ctxs_reserve g d <= ctxs_free_pkgs g d').

Lemma ctxs_post_compose g id b n d d1 d2 :
  same_pf (upd_cfg g id (set_ctxs 0 0) d) d1 -> same_pf (upd_cfg g id (set_ctxs b n) d1) d2 ->
  same_pf (upd_cfg g id (set_ctxs b n) d) d2.
Proof.
  intros H1 H2. etransitivity; [|exact H2].
  etransitivity; [|apply same_upd_cfg, H1]. etransitivity; [|apply upd_cfg_compose].
  by apply upd_cfg_ext.
Qed.

Lemma ctxs_num_upd g id b n d d' :
  (id < length (configs (d_prov d g)))%nat -> same_pf (upd_cfg g id (set_ctxs b n) d) d' ->
  num_ctxs (cfg d' g id) = n.
Proof. intros Hid Hs. by rewrite (same_cfg _ _ _ _ Hs), cfg_upd_eq. Qed.

(** The part after the old range was given up. *)
Lemma wp_provision_fresh g id k (Q : Z -> dev -> Prop) d :
  ctxs_inv g d -> id <> PFID -> (id <= d_totalvfs d)%nat -> 0 <= k <= 511 ->
  num_ctxs (cfg d g id) = 0 ->
  (forall ret d', ctxs_inv g d' -> d_live d' = d_live d ->
     (exists b n, same_pf (upd_cfg g id (set_ctxs b n) d) d' /\
        (ret = 0 /\ n = 128 * k \/ ret < 0 /\ n = 0)) ->
     (ret = 0 -> 0 < k -> ctxs_reserve g d <= ctxs_free_pkgs g d') ->
     (EnvWorks E -> 0 < k -> ret = if decide (128 * k <= ctxs_max g d) then 0 else - EDQUOT) ->
     Q ret d') ->
  wp (max ← pf_get_ctxs_max_quota g;
      if 128 * k >? max then mret (- EDQUOT) else
      ret ← pf_alloc_ctxs_range g id (128 * k);
      if ret >=? 0 then __pf_provision_ctxs g id ret (128 * k) else mret ret) Q d.
Proof using Type*.
  intros I Hid Hle Hk Hz HQ.
  assert (forall ret d1, ret < 0 -> same_pf d d1 -> d_live d1 = d_live d ->
    (EnvWorks E -> 0 < k -> ret = if decide (128 * k <= ctxs_max g d) then 0 else - EDQUOT) ->
    Q ret d1) as Hfail.
  { intros ret d1 Hneg Hs Hl HW. apply HQ; [by eapply ctxs_inv_same|done| |lia|done].
    exists (begin_ctx (cfg d g id)), (num_ctxs (cfg d g id)). split; [|by right].
    etransitivity; [apply upd_cfg_noop|exact Hs]. by destruct (cfg d g id). }
  apply wp_bind, wp_max_quota; [done|]. intros d1 Hs1 Hl1.
  assert (forall q, q = ctxs_max g d \/ q = 0 /\ ~ EnvWorks E ->
    wp (if 128 * k >? q then mret (- EDQUOT) else
      ret ← pf_alloc_ctxs_range g id (128 * k);
      if ret >=? 0 then __pf_provision_ctxs g id ret (128 * k) else mret ret) Q d1) as Hq;
    [|split; intros; apply Hq; auto].
  intros q Hq. assert (EnvWorks E -> q = ctxs_max g d) as HWq by tauto.
  apply wp_if; intros Hb; propify.
  { apply wp_ret, Hfail; try done. intros HW _. rewrite decide_False; [done|].
    rewrite <- HWq by done. lia. }
  pose proof (ctxs_inv_same _ _ _ Hs1 I) as I1.
  assert (ctxs_holes g d1 = ctxs_holes g d) as Hh by (unfold ctxs_holes; by rewrite (ctxs_bitmap_same g d d1)).
  apply wp_bind, wp_alloc_ctxs; [done|done|]. intros d2 Hs2 Hl2. rewrite Hh.
  assert (same_pf d d2) as Hs by (by etransitivity).
  pose proof (ctxs_inv_same _ _ _ Hs I) as I2.
  assert (d_totalvfs d2 = d_totalvfs d) as Ht by (apply (same_total _ _ Hs)).
  split; [|split].
  - intros HnW. apply wp_ret, Hfail; [done|done|lia|tauto].
  - intros Hno. apply wp_ret, Hfail; [done|done|lia|]. intros HW Hk0. exfalso.
    rewrite (HWq HW) in Hb. unfold ctxs_max in Hb.
    destruct (Z.le_gt_cases (maxZ (run_size <$> ctxs_holes g d)) 0) as [|Hpos]; [lia|].
    apply maxZ_in, list_elem_of_fmap in Hpos as (r & Hmax & Hr).
    destruct (best_fit_found k (ctxs_holes g d) r Hr) as [? ?]; [lia|congruence].
  - intros i Hi Hbnd. rewrite (Z.geb_leb _ 0), (proj2 (Z.leb_le 0 _)) by lia.
    assert (best_fit k (ctxs_holes g d2) = Some i) as Hi2
      by (unfold ctxs_holes in *; by rewrite (ctxs_bitmap_same g d d2)).
    apply wp_provision_range.
    + intros d3 Hs3 Hl3. apply HQ; [|lia| | |].
      * eapply ctxs_inv_same; [exact Hs3|]. apply ctxs_inv_take; try done; lia.
      * exists (128 * i - 1), (128 * k). split; [|by left].
        etransitivity; [apply same_upd_cfg, Hs|done].
      * intros _ Hk0. rewrite (ctxs_free_same _ _ _ Hs3), ctxs_free_take by
          (done || lia || by rewrite (same_cfg _ _ _ _ Hs)).
        rewrite (ctxs_free_same _ _ _ Hs). destruct Hq as [->|[-> _]]; [|lia].
        unfold ctxs_max in Hb. unfold ctxs_free_pkgs. lia.
      * intros HW _. rewrite decide_True; [done|]. rewrite <- HWq by done. lia.
    + intros HnW err d3 Herr Hs3 Hl3. apply HQ; [|lia| |lia|tauto].
      * eapply ctxs_inv_same; [exact Hs3|]. apply ctxs_inv_release; try done; lia.
      * exists 0, 0. split; [|auto]. etransitivity; [apply same_upd_cfg, Hs|done].
Qed.

Lemma wp_provision_ctxs g id n d :
  ctxs_inv g d -> id <> PFID -> (id <= d_totalvfs d)%nat -> 0 <= n < 65536 ->
  wp (pf_provision_ctxs g id n) (ctxs_post g id n d) d.
Proof using Type*.
  intros I Hid Hle Hn.
  assert (id < length (configs (d_prov d g)))%nat as Hlt by (rewrite (ci_len g d I); lia).
  destruct (align_ctxs_packages id n Hid Hn) as (k & Hal & Hk).
  unfold pf_provision_ctxs, ctxs_post. rewrite Hal. apply wp_if; intros Hb; propify; [done|].
  apply wp_bind, wp_gets. apply wp_if; intros Hq; propify.
  { apply wp_ret. unfold pf_get_ctxs_quota in Hq. split_and!; try done; [|by left|].
    - exists (begin_ctx (cfg d g id)), (num_ctxs (cfg d g id)). apply upd_cfg_noop.
      by destruct (cfg d g id).
    - intros _ _. rewrite decide_True; [done|]. by left. }
  apply wp_bind, wp_provision_range.
  - intros d1 Hs1 Hl1. apply wp_if; intros Hz.
    + apply wp_ret. apply orb_true_iff in Hz as [Hz|Hz]; [|done]. propify. subst n.
      assert (k = 0) as -> by (unfold align_ctxs in Hal; simpl in Hal; lia).
      split_and!; try done.
      * eapply ctxs_inv_same, ctxs_inv_release; done.
      * by exists 0, 0.
      * left. split; [done|]. by erewrite ctxs_num_upd.
    + pose proof (ctxs_inv_release g d id I Hid Hle) as I0.
      pose proof (ctxs_inv_same _ _ _ Hs1 I0) as I1.
      assert (ctxs_max g d1 = ctxs_max g (upd_cfg g id (set_ctxs 0 0) d)) as Hmax
        by (by apply ctxs_max_same).
      apply wp_provision_fresh; try done.
      { by rewrite (same_total _ _ Hs1). }
      { by erewrite ctxs_num_upd. }
      intros ret d2 I2 Hl2 (b & m & Hs2 & Hret) Hsp HW.
      assert (same_pf (upd_cfg g id (set_ctxs b m) d) d2) as Hs12 by (by eapply ctxs_post_compose).
      pose proof (ctxs_num_upd _ _ _ _ _ _ Hlt Hs12) as Hnum.
      split_and!; [done|by exists b, m|lia| | |].
      * destruct Hret as [[-> ->]|[Hneg ->]]; [by left|by right].
      * intros HE Hk0. rewrite (HW HE) by lia. rewrite Hmax.
        apply decide_ext. unfold pf_get_ctxs_quota in Hq. split; [by right|]. intros [|]; [done|done].
      * intros -> Hk0 Hne. erewrite <- ctxs_reserve_upd; [|exact Hid|exact Hs1].
        apply Hsp; [done|lia].
  - intros HnW err d1 Herr Hs1 Hl1. apply wp_if; intros Hb'.
    + apply wp_ret. split_and!; try done.
      * eapply ctxs_inv_same, ctxs_inv_release; done.
      * by exists 0, 0.
      * right. split; [done|]. by erewrite ctxs_num_upd.
      * lia.
    + propify. lia.
Qed.
End provision.

(** ** The free contexts and the PF's share *)

Section quota.
Context `{E : Env} `{!EnvLaws E} `{B : BitmapOps} `{!BitmapLaws B}.

Definition ctxs_free (g : gt_id) (d : dev) : Z :=
  128 * Z.max 0 (ctxs_free_pkgs g d - ctxs_reserve g d).

Lemma pkg_runs_sum runs acc :
  pkg_runs runs -> 0 <= acc -> acc + sumZ (run_size <$> runs) <= NPKG ->
  foldl (fun sum r => u16 (sum + run_size r)) acc runs = acc + sumZ (run_size <$> runs).
Proof.
  intros Hr. revert acc. induction Hr as [|r runs Hp Hr IH]; intros acc Hacc Hsum; [unfold sumZ; simpl; lia|].
  rewrite fmap_cons in *. unfold sumZ, NPKG, run_size in *; simpl in *.
  assert (0 <= foldr Z.add 0 (run_size <$> runs)).
  { apply (sumZ_nonneg (run_size <$> runs)), list.Forall_fmap. eapply list.Forall_impl; [exact Hr|].
    intros x Hx. unfold run_size; simpl in *. lia. }
  unfold run_size in *. rewrite u16_small, IH by lia. lia.
Qed.

Lemma ctxs_free_range g d : ctxs_inv g d -> 0 <= ctxs_free_pkgs g d <= 511.
Proof using Type*.
  intros I. pose proof (ctxs_holes_pkg g d I) as Hp. rewrite ctxs_free_count.
  pose proof (count_set_range (ctxs_bitmap g d) NPKG ltac:(done)).
  destruct (ci_cfg g d I PFID (Nat.le_0_l _)) as [Hn|(s & k & Hsl)]; [by destruct (ci_pf g d I)|].
  pose proof (ctx_slot_range _ _ _ _ _ Hsl) as Hr. destruct Hsl as (Hk & _ & -> & _).
  assert (Z.testbit (ctxs_bitmap g d) 0 = true) as H0.
  { apply not_false_iff_true. rewrite ctxs_bitmap_clear by done. intros Hno.
    apply (Hno PFID 0 k (Nat.le_0_l _) Hr). lia. }
  pose proof (count_set_const true (ctxs_bitmap g d) 0 1) as H1.
  pose proof (count_set_mono (ctxs_bitmap g d) 1 NPKG). unfold NPKG in *.
  change (count_set (ctxs_bitmap g d) 0) with 0 in H1. simpl (0 + 1) in H1.
  assert (count_set (ctxs_bitmap g d) 1 = 0 + 1); [|lia].
  apply H1; [lia|lia|]. intros i Hi. by replace i with 0 by lia.
Qed.

Lemma wp_ctxs_free g (Q : Z -> dev -> Prop) d :
  ctxs_inv g d ->
  (forall d', same_pf d d' -> d_live d' = d_live d ->
     Q (ctxs_free g d) d' /\ (~ EnvWorks E -> Q 0 d')) ->
  wp (pf_get_ctxs_free g) Q d.
Proof using Type*.
  intros I HQ. apply wp_bind, wp_gets, wp_bind, wp_ctxs_bitmap.
  - intros d1 Hs1 Hl1. rewrite total_bits_eq. fold (ctxs_holes g d).
    pose proof (ctxs_free_range g d I) as Hf. unfold ctxs_free_pkgs in Hf.
    rewrite pkg_runs_sum by (apply ctxs_holes_pkg || unfold NPKG; (done || lia)).
    apply wp_bind, wp_bitmap_free. intros d2 Hs2 Hl2 _. apply wp_ret.
    fold (ctxs_free_pkgs g d) in *. fold (ctxs_reserve g d).
    pose proof (encode_vf_nonneg (pf_reserved_ctxs g d)) as Hr. fold (ctxs_reserve g d) in Hr.
    replace (decode_vf_ctxs_count _) with (ctxs_free g d); [apply HQ; [by etransitivity|lia]|].
    unfold ctxs_free. rewrite <- decode_vf_packages by lia. f_equal.
    destruct (Z.gtb_spec (0 + ctxs_free_pkgs g d) (ctxs_reserve g d)); lia.
  - intros HW d1 Hs1 Hl1. apply wp_ret. by apply HQ.
Qed.

Lemma ctxs_share_slot n c :
  Z.of_nat n < 65536 -> exists k, 1 <= k <= NPKG /\ pf_ctxs_share n = 128 * k - 1 /\
    k + Z.of_nat n * (NPKG / (1 + Z.of_nat n)) = NPKG /\
    ctx_slot PFID 0 k (set_ctxs 0 (pf_ctxs_share n) c).
Proof.
  intros Hn. unfold pf_ctxs_share. rewrite total_bits_eq.
  pose proof (Z.mul_div_le NPKG (1 + Z.of_nat n) ltac:(lia)).
  pose proof (Z.div_pos NPKG (1 + Z.of_nat n) ltac:(done) ltac:(lia)).
  set (q := NPKG / (1 + Z.of_nat n)) in *. unfold NPKG in *.
  assert (q <= 512 - q * Z.of_nat n <= 512) as Hq by lia.
  assert (1 <= 512 - q * Z.of_nat n).
  { destruct (Z.eq_dec q 0) as [->|]; lia. }
  exists (512 - q * Z.of_nat n). rewrite (u16_small (512 - _)) by lia.
  assert (decode_pf_ctxs_count (512 - q * Z.of_nat n) = 128 * (512 - q * Z.of_nat n) - 1) as ->
    by (set (k := 512 - q * Z.of_nat n) in *; pkg; ulia).
  split_and!; try lia. unfold ctx_slot, NPKG; simpl. lia.
Qed.
End quota.

(** ** Properties *)

Section witnesses.
#[local] Existing Instance sample_env.

Lemma sample_cfg g id : (0 < id)%nat -> cfg sample_dev g id = config0.
Proof.
  intros Hid. unfold cfg. simpl. destruct id as [|id]; [lia|].
  change (default config0 (replicate 4 config0 !! id) = config0).
  destruct (replicate 4 config0 !! id) as [c|] eqn:Ec; [|done].
  by apply lookup_replicate in Ec as [-> _].
Qed.

Lemma sample_ctxs_inv g : ctxs_inv g sample_dev.
Proof.
  assert (forall id r, ctxs_range sample_dev g id = Some r -> id = PFID) as H0.
  { intros [|id] r Hr; [done|]. unfold ctxs_range in Hr.
    by rewrite sample_cfg in Hr by lia. }
  constructor; [done|done| |].
  - intros [|id] _; [|left; by rewrite sample_cfg by lia].
    right. exists 0, 100. by unfold ctx_slot, NPKG.
  - intros id id' r r' _ _ Hne Hr%H0 Hr'%H0. congruence.
Qed.
End witnesses.

Section properties.
Context `{E : Env} `{!EnvLaws E} `{B : BitmapOps} `{!BitmapLaws B}.

Lemma wp_set_ctxs g id n (Q : Z -> dev -> Prop) d :
  ctxs_inv g d -> id <> PFID -> (id <= d_totalvfs d)%nat -> 0 <= n < 65536 ->
  (forall ret d1 d2, ctxs_post g id n d ret d1 ->
     d2 = d1 \/ d2 = upd_sriov (d_numvfs d1) (d_status d1) true d1 -> Q ret d2) ->
  wp (intel_iov_provisioning_set_ctxs g id n) Q d.
Proof using Type*.
  intros I Hid Hle Hn HQ. apply wp_bind, wp_gets, wp_bind.
  eapply wp_mono; [by apply wp_provision_ctxs|]. intros ret d1 Hpost. simpl.
  apply wp_bind, wp_mark_manual; apply wp_ret; (eapply HQ; [done|auto]).
Qed.

(** C1: no two functions ever share a GuC context id. Whatever a VF asks for and whatever GuC
    and the allocator answer, [intel_iov_provisioning_set_ctxs] keeps the PF's and the VFs'
    context ranges disjoint, whole packages, below [GUC_MAX_CONTEXT_ID], changes no other
    VF's and no other GT's configuration, and frees every temporary bitmap. *)
Theorem set_ctxs_keeps_exclusive g id n d :
  ctxs_inv g d -> id <> PFID -> (id <= d_totalvfs d)%nat -> is_u16 n ->
  let '(_, d') := intel_iov_provisioning_set_ctxs g id n d in
  ctxs_inv g d' /\ ctxs_exclusive g d' /\ d_live d' = d_live d /\
  (forall g' id', g' <> g \/ id' <> id -> cfg d' g' id' = cfg d g' id').
Proof using Type*.
  intros I Hid Hle Hn. apply wp_let, wp_set_ctxs; try done.
  intros ret d1 d2 (I1 & (b & m & Hs) & Hl & _) Hd2.
  assert (ctxs_inv g d2) as I2 by (destruct Hd2 as [->| ->]; [done|by destruct I1]).
  split_and!; [done|by apply ctxs_inv_exclusive|by destruct Hd2 as [->| ->]|].
  intros g' id' Hne. trans (cfg d1 g' id'); [by destruct Hd2 as [->| ->]|].
  by rewrite (same_cfg _ _ _ _ Hs), cfg_upd_ne.
Qed.

(** What a request for contexts obtains. On success the VF owns exactly the requested
    number rounded up to packages of 128, and if that is a new range the packages still free
    cover the PF's reserve; on any error it owns none. When no call fails, the request is
    granted exactly when the VF already has that many or the rounded number is at most what
    [pf_get_ctxs_max_quota] reports once the VF's old range is released, and refused with
    -EDQUOT otherwise: -ENOSPC cannot happen. *)
Theorem set_ctxs_outcome g id n d :
  ctxs_inv g d -> id <> PFID -> (id <= d_totalvfs d)%nat -> 0 < n <= 65408 ->
  let quota := 128 * ((n + 127) / 128) in
  let '(ret, d') := intel_iov_provisioning_set_ctxs g id n d in
  (ret = 0 /\ intel_iov_provisioning_get_ctxs g id d' = quota \/
   ret < 0 /\ intel_iov_provisioning_get_ctxs g id d' = 0) /\
  (ret = 0 -> intel_iov_provisioning_get_ctxs g id d <> quota ->
   ctxs_reserve g d <= ctxs_free_pkgs g d') /\
  (EnvWorks E ->
   ret = if decide (intel_iov_provisioning_get_ctxs g id d = quota \/
                    quota <= ctxs_max g (upd_cfg g id (set_ctxs 0 0) d))
         then 0 else - EDQUOT).
Proof using Type*.
  intros I Hid Hle Hn quota.
  assert (align_ctxs id n = quota) as Hal by (apply align_ctxs_vf; [done|lia]).
  assert (0 < quota) as Hpos by (unfold quota; dlia).
  apply wp_let, wp_set_ctxs; try done; [lia|].
  intros ret d1 d2 (I1 & _ & _ & Hret & HW & Hsp) Hd2. rewrite Hal in *.
  unfold intel_iov_provisioning_get_ctxs, pf_get_ctxs_quota.
  assert (cfg d2 g id = cfg d1 g id) as -> by (by destruct Hd2 as [->| ->]).
  assert (ctxs_free_pkgs g d2 = ctxs_free_pkgs g d1) as -> by (by destruct Hd2 as [->| ->]).
  split_and!; auto.
Qed.
End properties.

Section properties2.
Context `{E : Env} `{!EnvLaws E} `{B : BitmapOps} `{!BitmapLaws B}.

(** what the context queries report when the bitmap can be allocated: the free contexts
    less the PF's reserve, and the largest hole, less whatever part of the reserve the other
    holes cannot cover. *)
Theorem query_ctxs_values g d :
  EnvWorks E -> ctxs_inv g d ->
  fst (intel_iov_provisioning_query_free_ctxs g d) =
    128 * Z.max 0 (sumZ (run_size <$> ctxs_holes g d) - ctxs_reserve g d) /\
  fst (intel_iov_provisioning_query_max_ctxs g d) =
    128 * Z.min (maxZ (run_size <$> ctxs_holes g d))
                (Z.max 0 (sumZ (run_size <$> ctxs_holes g d) - ctxs_reserve g d)).
Proof using Type*.
  intros HW I. split.
  - apply (wp_ctxs_free g (fun v _ => v = _)); [done|]. intros d' _ _. by split.
  - apply (wp_max_quota g (fun v _ => v = _)); [done|]. intros d' _ _. by split.
Qed.

(** The state once the PF's share is written. *)
Lemma share_establishes g d :
  length (configs (d_prov d g)) = S (d_totalvfs d) -> Z.of_nat (d_totalvfs d) < 65536 ->
  (forall id, num_ctxs (cfg d g id) = 0) ->
  let d1 := upd_cfg g PFID (set_ctxs 0 (pf_ctxs_share (d_totalvfs d))) d in
  ctxs_inv g d1 /\ num_ctxs (cfg d1 g PFID) = pf_ctxs_share (d_totalvfs d) /\
  ctxs_free_pkgs g d1 = Z.of_nat (d_totalvfs d) * (NPKG / (1 + Z.of_nat (d_totalvfs d))) /\
  128 * (NPKG - ctxs_free_pkgs g d1) - 1 = pf_ctxs_share (d_totalvfs d).
Proof using Type*.
  intros Hlen Hn Hz d1.
  destruct (ctxs_share_slot (d_totalvfs d) (cfg d g PFID) Hn) as (k & Hk & Hshare & Hsum & Hsl).
  assert (cfg d1 g PFID = set_ctxs 0 (pf_ctxs_share (d_totalvfs d)) (cfg d g PFID)) as Hpf
    by (apply cfg_upd_eq; rewrite Hlen; unfold PFID; lia).
  assert (forall id, id <> PFID -> ctxs_range d1 g id = None) as Hnone.
  { intros id Hid. unfold ctxs_range, d1. by rewrite cfg_upd_ne, Hz by auto. }
  rewrite <- Hpf in Hsl.
  assert (ctxs_inv g d1) as I.
  { constructor; [by unfold d1; rewrite length_configs_upd|rewrite Hpf; simpl; lia| |].
    - intros id _. destruct (decide (id = PFID)) as [->|]; [right; by exists 0, k|].
      left. unfold d1. by rewrite cfg_upd_ne, Hz by auto.
    - intros id id' r r' _ _ Hne Hr Hr'. destruct (decide (id = PFID)) as [->|];
        [rewrite Hnone in Hr' by auto|rewrite Hnone in Hr by auto]; done. }
  assert (ctxs_free_pkgs g d1 = NPKG - k) as Hfree; [|by rewrite Hpf, Hfree; simpl; split_and!; (done || lia)].
  pose proof (ctx_slot_range _ _ _ _ _ Hsl) as Hr.
  rewrite ctxs_free_count, (count_set_union 0 _ 0 k NPKG), count_set_0; try lia; try done.
  - intros i _. apply Z.bits_0.
  - intros i Hi. rewrite Z.bits_0. simpl. apply bool_eq_false.
    rewrite ctxs_bitmap_clear by done. unfold bit_in. rewrite andb_false_iff. split.
    + intros Hno. specialize (Hno PFID 0 k (Nat.le_0_l _) Hr). lia.
    + intros Hb id s n Hid Hrng. destruct (decide (id = PFID)) as [->|Hne].
      * rewrite Hr in Hrng. injection Hrng as <- <-. lia.
      * by rewrite Hnone in Hrng by done.
Qed.

(** The initial partition. From configurations without contexts, the PF gets one package
    short of a context ([0 .. 128k - 1)), the invariant holds, and what is left free is
    exactly an equal whole number of packages for each of the [total_vfs] VFs. *)
Theorem assign_ctxs_for_pf_partition g d :
  length (configs (d_prov d g)) = S (d_totalvfs d) -> Z.of_nat (d_totalvfs d) < 65536 ->
  (forall id, num_ctxs (cfg d g id) = 0) ->
  let '(_, d') := pf_assign_ctxs_for_pf g d in
  ctxs_inv g d' /\
  num_ctxs (cfg d' g PFID) = 128 * (NPKG - ctxs_free_pkgs g d') - 1 /\
  ctxs_free_pkgs g d' = Z.of_nat (d_totalvfs d) * (NPKG / (1 + Z.of_nat (d_totalvfs d))) /\
  (d_ids_in_use d g = 0 -> d_num_guc_ids d' g = num_ctxs (cfg d' g PFID)).
Proof using Type*.
  intros Hlen Hn Hz. destruct (share_establishes g d Hlen Hn Hz) as (I & Hpf & Hfree & Hk).
  apply wp_let, wp_bind, wp_gets, wp_bind, wp_mod_cfg. set (d1 := upd_cfg g PFID _ d) in *.
  assert (forall d2, d_prov d2 = d_prov d1 -> d_totalvfs d2 = d_totalvfs d1 ->
    ctxs_inv g d2 /\ ctxs_free_pkgs g d2 = ctxs_free_pkgs g d1 /\
    cfg d2 g PFID = cfg d1 g PFID) as Hd2.
  { intros [] H1 H2. simpl in *. subst. by destruct I. }
  pose proof (ctxs_free_range g d1 I).
  apply wp_bind, wp_bind, wp_gets. apply wp_if; intros Hb; propify;
    [unfold GUC_MAX_CONTEXT_ID, NPKG in *; lia|].
  apply wp_if; intros Hu; propify.
  - apply wp_ret, wp_ret. rewrite Hpf. split_and!; (done || lia).
  - apply wp_bind, wp_modify, wp_ret, wp_ret.
    destruct (Hd2 (upd_guc_ids g (pf_ctxs_share (d_totalvfs d)) d1)) as (I2 & Hf2 & Hc2); [done..|].
    rewrite Hc2, Hpf, Hf2. simpl. rewrite decide_True by done. split_and!; (done || lia).
Qed.
End properties2.

(** Where a new range is placed. For the maximal free runs of the bitmap, the loop of
    [pf_alloc_vf_ctxs_range] picks the start of the last run of exactly the needed size, or
    else the top of the last larger run; the place lies inside one free run, and there is one
    exactly when some run is large enough. It does not pick the smallest larger run. *)
Theorem ctxs_search_choice num runs :
  0 < num < U16_MAX -> pkg_runs runs ->
  ctxs_search num runs = default U16_MAX (best_fit num runs) /\
  (forall i, best_fit num runs = Some i -> exists r, r ∈ runs /\ r.1 <= i /\ i + num <= r.2) /\
  (is_Some (best_fit num runs) <-> exists r, r ∈ runs /\ num <= run_size r) /\
  (num = 3 -> runs = [(100, 104); (200, 300)] -> ctxs_search num runs = 297).
Proof.
  unfold U16_MAX. intros Hnum Hr. split; [|split; [|split]].
  - apply ctxs_search_best; [lia|done].
  - intros i Hi. apply best_fit_inside; [done|lia].
  - split.
    + intros [i Hi]. destruct (best_fit_inside _ _ _ Hi ltac:(lia)) as (r & Hin & H1 & H2).
      exists r. unfold run_size. split; [done|lia].
    + intros (r & Hin & Hs). by eapply best_fit_found.
  - intros -> ->. reflexivity.
Qed.

(** A request for more than 65408 contexts, which the u16 API accepts, is rounded up past
    65535 and wraps to zero: for a VF without contexts the call succeeds at once, sends nothing
    to GuC and leaves the VF without contexts. *)
Theorem set_ctxs_wraps `{E : Env} `{B : BitmapOps} g id n d :
  id <> PFID -> 65408 < n < 65536 -> intel_iov_provisioning_get_ctxs g id d = 0 ->
  let '(ret, d') := intel_iov_provisioning_set_ctxs g id n d in
  ret = 0 /\ intel_iov_provisioning_get_ctxs g id d' = 0 /\ d_log d' = d_log d.
Proof.
  intros Hid Hn Hz. apply wp_let, wp_bind, wp_gets, wp_bind.
  unfold pf_provision_ctxs. rewrite align_ctxs_wrap by done.
  rewrite (proj2 (Nat.eqb_neq id PFID)) by done.
  unfold intel_iov_provisioning_get_ctxs, pf_get_ctxs_quota in *.
  apply wp_bind, wp_gets. rewrite Hz. apply wp_ret. simpl. apply wp_bind.
  apply wp_mark_manual; apply wp_ret; by split_and!.
Qed.

Section witnesses2.
#[local] Existing Instance sample_env.

(** VF1 of the sample device takes 1000 contexts. *)
Lemma set_ctxs_keeps_exclusive_witness :
  let '(_, d') := intel_iov_provisioning_set_ctxs GT_PRIMARY 1 1000 sample_dev in
  ctxs_exclusive GT_PRIMARY d'.
Proof.
  pose proof (set_ctxs_keeps_exclusive GT_PRIMARY 1 1000 sample_dev
    (sample_ctxs_inv GT_PRIMARY) ltac:(done) ltac:(simpl; lia) ltac:(done)) as Hw.
  destruct (intel_iov_provisioning_set_ctxs GT_PRIMARY 1 1000 sample_dev).
  apply Hw.
Defined.

Lemma set_ctxs_outcome_witness :
  fst (intel_iov_provisioning_set_ctxs GT_PRIMARY 1 1000 sample_dev) =
    if decide (intel_iov_provisioning_get_ctxs GT_PRIMARY 1 sample_dev = 1024 \/
      1024 <= ctxs_max GT_PRIMARY (upd_cfg GT_PRIMARY 1 (set_ctxs 0 0) sample_dev))
    then 0 else - EDQUOT.
Proof.
  pose proof (set_ctxs_outcome GT_PRIMARY 1 1000 sample_dev
    (sample_ctxs_inv GT_PRIMARY) ltac:(done) ltac:(simpl; lia) ltac:(done)) as Hw.
  cbv zeta in Hw. change (128 * ((1000 + 127) / 128)) with 1024 in Hw.
  destruct (intel_iov_provisioning_set_ctxs GT_PRIMARY 1 1000 sample_dev).
  apply Hw, sample_env_works.
Defined.

Lemma query_ctxs_values_witness :
  fst (intel_iov_provisioning_query_free_ctxs GT_PRIMARY sample_dev) = 128 * 412.
Proof.
  rewrite (proj1 (query_ctxs_values GT_PRIMARY sample_dev sample_env_works
    (sample_ctxs_inv GT_PRIMARY))). vm_compute. reflexivity.
Defined.

Definition blank_dev : dev :=
  upd_prov GT_PRIMARY (set_configs (replicate 5 config0)) sample_dev.

Lemma assign_ctxs_for_pf_partition_witness :
  let '(_, d') := pf_assign_ctxs_for_pf GT_PRIMARY blank_dev in
  ctxs_free_pkgs GT_PRIMARY d' = 4 * 102.
Proof.
  assert (forall id, num_ctxs (cfg blank_dev GT_PRIMARY id) = 0) as Hz.
  { intros id. unfold cfg. simpl. change (num_ctxs (default config0 (replicate 5 config0 !! id)) = 0).
    destruct (replicate 5 config0 !! id) eqn:Ec; [|done].
    by apply lookup_replicate in Ec as [-> _]. }
  pose proof (assign_ctxs_for_pf_partition GT_PRIMARY blank_dev eq_refl ltac:(simpl; lia) Hz) as Hw.
  destruct (pf_assign_ctxs_for_pf GT_PRIMARY blank_dev). apply Hw.
Defined.

Lemma ctxs_search_choice_witness : ctxs_search 3 [(100, 104); (200, 300)] = 297.
Proof.
  apply (ctxs_search_choice 3 [(100, 104); (200, 300)]); [done| |done|done].
  by repeat constructor.
Defined.

Lemma set_ctxs_wraps_witness :
  let '(ret, d') := intel_iov_provisioning_set_ctxs GT_PRIMARY 1 65500 sample_dev in
  ret = 0 /\ intel_iov_provisioning_get_ctxs GT_PRIMARY 1 d' = 0 /\ d_log d' = d_log sample_dev.
Proof. apply (set_ctxs_wraps GT_PRIMARY 1 65500 sample_dev); done. Defined.
End witnesses2.
