(* ===== verification/Dbs.v ===== *)
(** * Provisioning of GuC doorbells

    [pf_provision_dbs] and what it uses in gt/iov/intel_iov_provisioning.c: the bitmap of the
    VFs' doorbells, the search for a free range that leaves the PF its spare doorbells, and the
    invariant that no two VFs share a doorbell. *)

From S2P Require Export GucCfg Sample.

Definition GUC_NUM_DOORBELLS : Z := 256.

(** ** Operations *)

Section dbs.
Context `{E : Env} `{B : BitmapOps}.

Definition pf_get_min_spare_dbs : Z := 0.
Definition pf_get_spare_dbs (g : gt_id) (d : dev) : Z :=
  Z.max (spare_num_dbs (spare (d_prov d g))) pf_get_min_spare_dbs.
Definition intel_iov_provisioning_get_spare_dbs (g : gt_id) (d : dev) : Z := pf_get_spare_dbs g d.

Definition with_spare_dbs (n : Z) (s : intel_iov_spare_config) : intel_iov_spare_config :=
  {| spare_ggtt_size := spare_ggtt_size s; spare_num_ctxs := spare_num_ctxs s; spare_num_dbs := n |}.

Definition intel_iov_provisioning_set_spare_dbs (g : gt_id) (sp : Z) : st dev Z :=
  if sp >? GUC_NUM_DOORBELLS then mret (- EINVAL) else
  if negb (sp =? 0) && (sp <? pf_get_min_spare_dbs) then mret (- EINVAL) else
  mod_prov g (fun p => set_spare (with_spare_dbs sp (spare p)) p) ≫= fun _ => mret 0.

Definition pf_is_valid_config_dbs (g : gt_id) (id : nat) (d : dev) : bool :=
  negb (num_dbs (cfg d g id) =? 0) || negb (begin_db (cfg d g id) =? 0).

Definition dbs_range (d : dev) (g : gt_id) (id : nat) : option (Z * Z) :=
  let config := cfg d g id in
  if num_dbs config =? 0 then None else Some (begin_db config, num_dbs config).

(** The VFs' doorbells; the PF's are not counted. *)
Definition dbs_bitmap (g : gt_id) (d : dev) : Z :=
  fill_ranges (dbs_range d g) 0 (seq 1 (d_totalvfs d)).

Definition pf_get_dbs_bitmap (g : gt_id) : st dev (option Z) :=
  bm ← bitmap_zalloc;
  match bm with
  | None => mret None
  | Some _ => bm ← gets (dbs_bitmap g); mret (Some bm)
  end.

Definition pf_alloc_dbs_range (g : gt_id) (num_dbs : Z) : st dev Z :=
  bm ← pf_get_dbs_bitmap g;
  match bm with
  | None => mret (- ENOMEM)
  | Some bm =>
      let used := bitmap_weight bm GUC_NUM_DOORBELLS in
      sp ← gets (pf_get_spare_dbs g);
      if used + sp + num_dbs >? GUC_NUM_DOORBELLS then mret (- EDQUOT) else
      let index := bitmap_find_next_zero_area bm GUC_NUM_DOORBELLS 0 num_dbs 0 in
      bitmap_free ≫= fun _ =>
      if index >=? GUC_NUM_DOORBELLS then mret (- ENOSPC) else mret index
  end.

Definition pf_push_config_dbs (g : gt_id) (id : nat) (begin num : Z) : st dev Z :=
  push_two_klv32 g id GUC_KLV_VF_CFG_BEGIN_DOORBELL_ID_KEY begin
    GUC_KLV_VF_CFG_NUM_DOORBELLS_KEY num.

(** The part of [pf_provision_dbs] after the old range was given up. *)
Definition pf_take_dbs (g : gt_id) (id : nat) (n : Z) : st dev Z :=
  if n =? 0 then mret 0 else
  ret ← pf_alloc_dbs_range g n;
  if ret <? 0 then mret ret else
  err ← pf_push_config_dbs g id ret n;
  if negb (err =? 0) then mret err else
  mod_cfg g id (set_dbs ret n) ≫= fun _ => mret 0.

Definition pf_provision_dbs (g : gt_id) (id : nat) (n : Z) : st dev Z :=
  config ← get_cfg g id;
  if n =? num_dbs config then mret 0 else
  if negb (num_dbs config =? 0) then
    mod_cfg g id (set_dbs 0 0) ≫= fun _ =>
    err ← pf_push_config_dbs g id 0 0;
    if negb (err =? 0) then mret err else pf_take_dbs g id n
  else pf_take_dbs g id n.

Definition intel_iov_provisioning_set_dbs (g : gt_id) (id : nat) (n : Z) : st dev Z :=
  valid ← gets (pf_is_valid_config_dbs g id);
  let reprovisioning := valid || negb (n =? 0) in
  err ← pf_provision_dbs g id n;
  mark_manual_if ((err =? 0) && reprovisioning && negb (id =? PFID)%nat) ≫= fun _ => mret err.

Definition intel_iov_provisioning_get_dbs (g : gt_id) (id : nat) (d : dev) : Z :=
  num_dbs (cfg d g id).

Definition pf_get_free_dbs (g : gt_id) : st dev Z :=
  bm ← pf_get_dbs_bitmap g;
  match bm with
  | None => mret 0
  | Some bm =>
      let used := bitmap_weight bm GUC_NUM_DOORBELLS in
      bitmap_free ≫= fun _ => mret (u16 (GUC_NUM_DOORBELLS - used))
  end.
Definition intel_iov_provisioning_query_free_dbs (g : gt_id) : st dev Z := pf_get_free_dbs g.

Definition pf_get_max_dbs (g : gt_id) : st dev Z :=
  bm ← pf_get_dbs_bitmap g;
  match bm with
  | None => mret 0
  | Some bm =>
      let limit := foldl (fun limit r => Z.max limit (u16 (run_size r))) 0
                     (clear_bitranges bm GUC_NUM_DOORBELLS) in
      bitmap_free ≫= fun _ => mret limit
  end.
Definition intel_iov_provisioning_query_max_dbs (g : gt_id) : st dev Z := pf_get_max_dbs g.
End dbs.

(** ** The invariant *)

Section inv.
Context `{E : Env}.

Definition is_vf (d : dev) (id : nat) : Prop := (1 <= id <= d_totalvfs d)%nat.

Definition db_cfg_ok (c : intel_iov_config) : Prop :=
  num_dbs c = 0 \/
  0 <= begin_db c /\ 0 < num_dbs c /\ begin_db c + num_dbs c <= GUC_NUM_DOORBELLS.

Record dbs_inv (g : gt_id) (d : dev) : Prop := {
  di_len : length (configs (d_prov d g)) = S (d_totalvfs d);
  di_cfg id : is_vf d id -> db_cfg_ok (cfg d g id);
  di_disj id id' r r' :
    is_vf d id -> is_vf d id' -> id <> id' ->
    dbs_range d g id = Some r -> dbs_range d g id' = Some r' -> ranges_disj r r';
}.

Lemma dbs_range_same d d' g id : cfg d' g id = cfg d g id -> dbs_range d' g id = dbs_range d g id.
Proof. unfold dbs_range. by intros ->. Qed.

Lemma dbs_range_ok d g id r :
  db_cfg_ok (cfg d g id) -> dbs_range d g id = Some r ->
  0 <= r.1 /\ 0 < r.2 /\ r.1 + r.2 <= GUC_NUM_DOORBELLS /\
  r = (begin_db (cfg d g id), num_dbs (cfg d g id)).
Proof.
  unfold dbs_range. intros [Hz|Hb] Hr; [by rewrite Hz in Hr|].
  rewrite (proj2 (Z.eqb_neq _ 0)) in Hr by lia. injection Hr as <-. simpl. split_and!; (done || lia).
Qed.

Lemma dbs_inv_same g d d' : same_pf d d' -> dbs_inv g d -> dbs_inv g d'.
Proof.
  intros Hs [Hlen Hcfg Hdisj]. pose proof (same_cfg d d' g) as Hc.
  constructor; unfold is_vf in *; rewrite ?(same_total _ _ Hs).
  - by rewrite (same_prov _ _ Hs).
  - intros id. rewrite Hc by done. auto.
  - intros id id' r r' ? ? ?. rewrite !(dbs_range_same d d') by (by apply Hc). eauto.
Qed.

Lemma dbs_inv_upd g d id f :
  dbs_inv g d -> (id <= d_totalvfs d)%nat ->
  db_cfg_ok (f (cfg d g id)) ->
  (id <> PFID -> forall id' r, num_dbs (f (cfg d g id)) <> 0 -> is_vf d id' -> id' <> id ->
     dbs_range d g id' = Some r ->
     ranges_disj (begin_db (f (cfg d g id)), num_dbs (f (cfg d g id))) r) ->
  dbs_inv g (upd_cfg g id f d).
Proof.
  intros [Hlen Hcfg Hdisj] Hid Hok Hnew.
  assert (cfg (upd_cfg g id f d) g id = f (cfg d g id)) as Heq
    by (apply cfg_upd_eq; rewrite Hlen; lia).
  assert (forall id', id' <> id -> cfg (upd_cfg g id f d) g id' = cfg d g id') as Hne
    by (intros; apply cfg_upd_ne; auto).
  constructor.
  - by rewrite length_configs_upd.
  - intros id' Hid'. destruct (decide (id' = id)) as [->|]; [by rewrite Heq|].
    rewrite Hne by done. by apply Hcfg.
  - assert (forall id' r r', is_vf d id -> is_vf d id' -> id' <> id ->
      dbs_range (upd_cfg g id f d) g id = Some r ->
      dbs_range (upd_cfg g id f d) g id' = Some r' -> ranges_disj r r') as Hone.
    { intros id' r r' Hvf Hid' Hni Hr Hr'.
      apply dbs_range_ok in Hr as (_ & Hpos & _ & ->); [|by rewrite Heq]. rewrite Heq in *.
      rewrite (dbs_range_same d) in Hr' by (by apply Hne).
      apply (Hnew ltac:(unfold is_vf, PFID in *; lia) id'); try done. simpl in Hpos. lia. }
    intros i1 i2 r1 r2 H1 H2 Hn Hr1 Hr2.
    destruct (decide (i1 = id)) as [->|]; [by eapply (Hone i2)|].
    destruct (decide (i2 = id)) as [->|].
    + destruct (Hone i1 r2 r1 H2 H1 ltac:(done) Hr2 Hr1); [by right|by left].
    + rewrite (dbs_range_same d) in Hr1 by (by apply Hne).
      rewrite (dbs_range_same d) in Hr2 by (by apply Hne). by eapply (Hdisj i1 i2).
Qed.
End inv.

(** ** The operations *)

Section ops.
Context `{E : Env} `{!EnvLaws E} `{B : BitmapOps} `{!BitmapLaws B}.

(** Doorbells held by the VFs. *)
Definition dbs_used (g : gt_id) (d : dev) : Z := count_set (dbs_bitmap g d) GUC_NUM_DOORBELLS.

Lemma dbs_bitmap_same g d d' : same_pf d d' -> dbs_bitmap g d' = dbs_bitmap g d.
Proof.
  intros Hs. unfold dbs_bitmap. rewrite (same_total _ _ Hs).
  apply fill_ranges_ext. intros id. apply dbs_range_same. by apply same_cfg.
Qed.

Lemma dbs_bitmap_clear g d i :
  dbs_inv g d -> 0 <= i ->
  Z.testbit (dbs_bitmap g d) i = false <->
  forall id s k, is_vf d id -> dbs_range d g id = Some (s, k) -> ~ (s <= i < s + k).
Proof using Type*.
  intros I Hi. unfold dbs_bitmap. rewrite fill_ranges_clear; [|done|].
  - split; intros Hc id s k Hid Hr; (eapply Hc; [|done]).
    + apply elem_of_seq. unfold is_vf in Hid. lia.
    + apply elem_of_seq in Hid. unfold is_vf. lia.
  - apply list.Forall_forall. intros id Hid%elem_of_seq s n Hr.
    apply dbs_range_ok in Hr; [simpl in Hr; lia|]. apply (di_cfg g d I). unfold is_vf. lia.
Qed.

Lemma wp_dbs_bitmap g (Q : option Z -> dev -> Prop) d :
  (forall d', same_pf d d' -> d_live d' = d_live d + 1 -> Q (Some (dbs_bitmap g d)) d') ->
  (~ EnvWorks E -> forall d', same_pf d d' -> d_live d' = d_live d -> Q None d') ->
  wp (pf_get_dbs_bitmap g) Q d.
Proof.
  intros H1 H2. apply wp_bind, wp_bitmap_zalloc.
  - intros d' Hs Hl _. apply wp_bind, wp_gets, wp_ret.
    rewrite (dbs_bitmap_same g d d' Hs). by apply H1.
  - intros Ha d' Hs Hl _. apply wp_ret, H2; [|done..]. intros HW.
    by rewrite works_alloc in Ha.
Qed.

(** A free range of [n] doorbells. *)
Definition dbs_hole (g : gt_id) (d : dev) (n s : Z) : Prop :=
  0 <= s /\ s + n <= GUC_NUM_DOORBELLS /\ bits_are false (dbs_bitmap g d) s (s + n).

Lemma wp_alloc_dbs g n (Q : Z -> dev -> Prop) d :
  0 < n ->
  (forall d', same_pf d d' ->
     (d_live d' = d_live d -> ~ EnvWorks E -> Q (- ENOMEM) d') /\
     (d_live d' = d_live d + 1 -> GUC_NUM_DOORBELLS < dbs_used g d + pf_get_spare_dbs g d + n ->
        Q (- EDQUOT) d') /\
     (d_live d' = d_live d -> dbs_used g d + pf_get_spare_dbs g d + n <= GUC_NUM_DOORBELLS ->
        ((forall s, ~ dbs_hole g d n s) -> Q (- ENOSPC) d') /\
        (forall s, dbs_hole g d n s -> Q s d'))) ->
  wp (pf_alloc_dbs_range g n) Q d.
Proof using Type*.
  intros Hn HQ. apply wp_bind, wp_dbs_bitmap.
  - intros d1 Hs1 Hl1. rewrite bitmap_weight_spec by done. fold (dbs_used g d).
    apply wp_bind, wp_gets. 
    assert (pf_get_spare_dbs g d1 = pf_get_spare_dbs g d) as ->
      by (unfold pf_get_spare_dbs; by rewrite (same_prov _ _ Hs1)).
    apply wp_if; intros Hb; propify.
    { apply wp_ret. destruct (HQ d1 Hs1) as (_ & H2 & _). apply H2; lia. }
    apply wp_bind, wp_bitmap_free. intros d2 Hs2 Hl2 _.
    destruct (HQ d2) as (_ & _ & H3); [by etransitivity|]. destruct (H3 ltac:(lia) Hb) as [H4 H5].
    pose proof (zero_area_spec (dbs_bitmap g d) GUC_NUM_DOORBELLS n Hn ltac:(done)) as Hz.
    cbv zeta in Hz. destruct Hz as [(H0 & Hle & Hclr)|[Hgt Hno]].
    + rewrite Z.geb_leb, (proj2 (Z.leb_gt _ _)) by lia.
      apply wp_ret, H5. done.
    + rewrite Z.geb_leb, (proj2 (Z.leb_le _ _)) by lia.
      apply wp_ret, H4. intros s (? & ? & ?). by apply (Hno s).
  - intros HW d1 Hs1 Hl1. apply wp_ret. destruct (HQ d1 Hs1) as (H1 & _). by apply H1.
Qed.

Lemma dbs_inv_clear g d id :
  dbs_inv g d -> (id <= d_totalvfs d)%nat -> dbs_inv g (upd_cfg g id (set_dbs 0 0) d).
Proof. intros I Hid. apply dbs_inv_upd; try done. by left. Qed.

Lemma dbs_inv_take g d id s n :
  dbs_inv g d -> (id <= d_totalvfs d)%nat -> 0 < n -> dbs_hole g d n s ->
  dbs_inv g (upd_cfg g id (set_dbs s n) d).
Proof using Type*.
  intros I Hid Hn (Hs & He & Hclr). apply dbs_inv_upd; try done.
  { right. simpl. lia. }
  intros _ id' [s' k'] _ Hvf Hne Hr. simpl.
  destruct (dbs_range_ok _ _ _ _ (di_cfg g d I id' Hvf) Hr) as (? & ? & ? & _).
  unfold ranges_disj; simpl in *. destruct (Z.le_gt_cases (s + n) s'); [by left|].
  destruct (Z.le_gt_cases (s' + k') s); [by right|]. exfalso.
  pose proof (Hclr (Z.max s s') ltac:(lia)) as Hb. rewrite (dbs_bitmap_clear g d _ I) in Hb by lia.
  apply (Hb id' s' k' Hvf Hr). lia.
Qed.

(** The doorbells held after a VF without any takes [n]. *)
Lemma dbs_used_take g d id s n :
  dbs_inv g d -> is_vf d id -> 0 < n -> dbs_hole g d n s -> num_dbs (cfg d g id) = 0 ->
  dbs_used g (upd_cfg g id (set_dbs s n) d) = dbs_used g d + n.
Proof using Type*.
  intros I Hvf Hn Hh Hz. assert (id <= d_totalvfs d)%nat as Hid by (unfold is_vf in Hvf; lia).
  pose proof (dbs_inv_take g d id s n I Hid Hn Hh) as I'. destruct Hh as (Hs & He & Hclr).
  unfold dbs_used. apply (count_set_union _ _ s); try lia; [done|].
  set (d' := upd_cfg g id _ d) in *.
  assert (cfg d' g id = set_dbs s n (cfg d g id)) as Hc
    by (apply cfg_upd_eq; rewrite (di_len g d I); lia).
  assert (dbs_range d' g id = Some (s, n)) as Hnew
    by (unfold dbs_range; rewrite Hc; simpl; by rewrite (proj2 (Z.eqb_neq n 0)) by lia).
  assert (forall id', id' <> id -> dbs_range d' g id' = dbs_range d g id') as Hold
    by (intros; apply dbs_range_same, cfg_upd_ne; auto).
  intros j Hj. apply bool_eq_false. rewrite orb_false_iff.
  rewrite (dbs_bitmap_clear g d' j I' Hj), (dbs_bitmap_clear g d j I Hj).
  unfold bit_in. rewrite andb_false_iff, Z.leb_gt, Z.ltb_ge. split.
  - intros Hno. split.
    + intros id' s' k' Hid' Hr. destruct (decide (id' = id)) as [->|Hne].
      { unfold dbs_range in Hr. by rewrite Hz in Hr. }
      apply (Hno id' s' k' Hid'). by rewrite Hold.
    + specialize (Hno id s n Hvf Hnew). lia.
  - intros [Hno Hb] id' s' k' Hid' Hr. destruct (decide (id' = id)) as [->|Hne].
    + rewrite Hnew in Hr. injection Hr as <- <-. lia.
    + apply (Hno id' s' k' Hid'). by rewrite <- Hold.
Qed.
End ops.

Section provision.
Context `{E : Env} `{!EnvLaws E} `{B : BitmapOps} `{!BitmapLaws B}.

Lemma dbs_used_same g d d' : same_pf d d' -> dbs_used g d' = dbs_used g d.
Proof. intros Hs. unfold dbs_used. by rewrite (dbs_bitmap_same g d d'). Qed.

Lemma dbs_hole_same g d d' n s : same_pf d d' -> dbs_hole g d' n s <-> dbs_hole g d n s.
Proof. intros Hs. unfold dbs_hole. by rewrite (dbs_bitmap_same g d d'). Qed.

Lemma spare_dbs_upd g id f d : pf_get_spare_dbs g (upd_cfg g id f d) = pf_get_spare_dbs g d.
Proof. unfold pf_get_spare_dbs, upd_cfg. rewrite prov_upd. by case_decide. Qed.

(** Whether [n] doorbells can be granted in [d]. *)
Definition dbs_quota_ok (g : gt_id) (d : dev) (n : Z) : Prop :=
  dbs_used g d + pf_get_spare_dbs g d + n <= GUC_NUM_DOORBELLS.

(** What taking [n > 0] doorbells for a VF without any leaves. *)
Definition take_post (g : gt_id) (id : nat) (n : Z) (d : dev) (ret : Z) (d' : dev) : Prop :=
  (ret = 0 /\ dbs_quota_ok g d n /\
     (exists s, dbs_hole g d n s /\ same_pf (upd_cfg g id (set_dbs s n) d) d') /\
     d_live d' = d_live d \/
   ret < 0 /\ same_pf d d' /\
     (d_live d' = d_live d \/
      ret = - EDQUOT /\ ~ dbs_quota_ok g d n /\ d_live d' = d_live d + 1)) /\
  (EnvWorks E ->
     (ret = - EDQUOT <-> ~ dbs_quota_ok g d n) /\
     (ret = - ENOSPC <-> dbs_quota_ok g d n /\ forall s, ~ dbs_hole g d n s)).

Lemma wp_take_dbs g id n d :
  0 < n -> wp (pf_take_dbs g id n) (take_post g id n d) d.
Proof using Type*.
  intros Hn. unfold pf_take_dbs. apply wp_if; intros Hz; propify; [lia|].
  apply wp_bind, wp_alloc_dbs; [done|]. intros d1 Hs1. unfold take_post, dbs_quota_ok.
  split; [|split].
  - intros Hl HW. apply wp_ret. split; [|tauto]. right. split_and!; auto. done.
  - intros Hl Hq. apply wp_ret. split.
    + right. split_and!; [done|done|]. right. split_and!; (done || lia).
    + intros _. split; [|split; [done|]]; [|intros []; lia]. split; [lia|done].
  - intros Hl Hq. split.
    + intros Hno. apply wp_ret. split.
      * right. split_and!; auto. done.
      * intros _. split; [split; [done|lia]|]. by split.
    + intros s Hh. destruct Hh as (Hs & He & Hc).
      rewrite (proj2 (Z.ltb_ge s 0)) by lia. apply wp_bind.
      eapply wp_mono; [apply call_push_two|]. intros err d2 (Hs2 & Hl2 & Hle & HW2). simpl.
      assert (same_pf d d2) as Hs12 by (by etransitivity).
      apply wp_if; intros Hb; propify.
      * apply wp_ret. split; [|tauto]. right. split_and!; [lia|done|left; lia].
      * apply wp_bind, wp_mod_cfg, wp_ret. split.
        { left. split_and!; [done|done| |simpl; lia]. exists s. split; [done|].
          by apply same_upd_cfg. }
        { intros _. split; (split; [done|]); [lia|]. intros [_ Hno]. by destruct (Hno s). }
Qed.

(** The state in which the new range is looked for. *)
Definition dbs_released (g : gt_id) (id : nat) (d : dev) : dev :=
  if num_dbs (cfg d g id) =? 0 then d else upd_cfg g id (set_dbs 0 0) d.

Definition dbs_post (g : gt_id) (id : nat) (n : Z) (d : dev) (ret : Z) (d' : dev) : Prop :=
  dbs_inv g d' /\
  (exists b m, same_pf (upd_cfg g id (set_dbs b m) d) d') /\
  (ret = 0 /\ num_dbs (cfg d' g id) = n \/ ret < 0 /\ num_dbs (cfg d' g id) = 0) /\
  (ret = 0 -> is_vf d id -> n <> 0 -> num_dbs (cfg d g id) <> n ->
     dbs_used g d' + pf_get_spare_dbs g d' <= GUC_NUM_DOORBELLS) /\
  (d_live d' = d_live d \/
   ret = - EDQUOT /\ ~ dbs_quota_ok g (dbs_released g id d) n /\ d_live d' = d_live d + 1) /\
  (EnvWorks E -> n <> num_dbs (cfg d g id) -> n <> 0 ->
     (ret = - EDQUOT <-> ~ dbs_quota_ok g (dbs_released g id d) n) /\
     (ret = - ENOSPC <-> dbs_quota_ok g (dbs_released g id d) n /\
                         forall s, ~ dbs_hole g (dbs_released g id d) n s)).

Lemma dbs_released_spec g id d :
  dbs_inv g d -> (id <= d_totalvfs d)%nat ->
  let dr := dbs_released g id d in
  exists b, same_pf (upd_cfg g id (set_dbs b 0) d) dr /\ dbs_inv g dr /\
    (id < length (configs (d_prov d g)))%nat /\ num_dbs (cfg dr g id) = 0.
Proof.
  intros I Hid dr. assert (id < length (configs (d_prov d g)))%nat as Hlt
    by (rewrite (di_len g d I); lia).
  unfold dr, dbs_released. destruct (Z.eqb_spec (num_dbs (cfg d g id)) 0) as [Hz|].
  - exists (begin_db (cfg d g id)). split_and!; try done. apply upd_cfg_noop.
    rewrite <- Hz. by destruct (cfg d g id).
  - exists 0. split_and!; try done; [by apply dbs_inv_clear|by rewrite cfg_upd_eq].
Qed.

(** From the taking to the whole operation; [d] is any state up to GuC's history. *)
Lemma take_dbs_post g id n d0 d1 ret d' :
  dbs_inv g d0 -> (id <= d_totalvfs d0)%nat -> 0 < n -> num_dbs (cfg d0 g id) <> n ->
  same_pf (dbs_released g id d0) d1 -> d_live d1 = d_live d0 ->
  take_post g id n d1 ret d' -> dbs_post g id n d0 ret d'.
Proof using Type*.
  intros I0 Hid Hn Hne Hs1 Hl1 [Hret HW].
  destruct (dbs_released_spec g id d0 I0 Hid) as (b0 & Hdr & Ir & Hlt & Hz1).
  set (dr := dbs_released g id d0) in *.
  pose proof (dbs_inv_same _ _ _ Hs1 Ir) as I1.
  assert (d_totalvfs d1 = d_totalvfs d0) as Ht
    by (rewrite (same_total _ _ Hs1); by rewrite (same_total _ _ Hdr)).
  rewrite <- (same_cfg _ _ _ _ Hs1) in Hz1.
  assert (forall m, dbs_quota_ok g d1 m <-> dbs_quota_ok g dr m) as Hq.
  { intros m. unfold dbs_quota_ok, pf_get_spare_dbs.
    by rewrite (dbs_used_same _ _ _ Hs1), (same_prov _ _ Hs1). }
  assert (forall m s, dbs_hole g d1 m s <-> dbs_hole g dr m s) as Hh
    by (intros; by apply dbs_hole_same).
  assert (EnvWorks E -> n <> num_dbs (cfg d0 g id) -> n <> 0 ->
     (ret = - EDQUOT <-> ~ dbs_quota_ok g dr n) /\
     (ret = - ENOSPC <-> dbs_quota_ok g dr n /\ forall s, ~ dbs_hole g dr n s)) as HW'.
  { intros HE _ _. rewrite <- Hq. destruct (HW HE) as [HA HB]. split; [done|]. rewrite HB.
    by setoid_rewrite Hh. }
  destruct Hret as [(-> & Hqo & (s & Hs & Hsame) & Hl)|(Hneg & Hsame & Hl)].
  - assert (same_pf (upd_cfg g id (set_dbs s n) d0) d') as Hs'.
    { etransitivity; [|exact Hsame]. etransitivity; [|apply same_upd_cfg, Hs1].
      etransitivity; [|apply same_upd_cfg, Hdr]. etransitivity; [|apply upd_cfg_compose].
      by apply upd_cfg_ext. }
    split_and!; [| |left| |left|done].
    + eapply dbs_inv_same; [exact Hsame|]. apply dbs_inv_take; try done. lia.
    + by exists s, n.
    + split; [done|]. by rewrite (same_cfg _ _ _ _ Hs'), cfg_upd_eq.
    + intros _ Hvf _ _. rewrite (dbs_used_same _ _ _ Hsame), dbs_used_take; try done;
        [|unfold is_vf in *; by rewrite Ht].
      unfold pf_get_spare_dbs at 1. rewrite (same_prov _ _ Hsame).
      fold (pf_get_spare_dbs g (upd_cfg g id (set_dbs s n) d1)). rewrite spare_dbs_upd.
      unfold dbs_quota_ok in Hqo. lia.
    + lia.
  - assert (same_pf (upd_cfg g id (set_dbs b0 0) d0) d') as Hs' by (do 2 (etransitivity; [eassumption|]); done).
    split_and!; [|by exists b0, 0|right|lia| |done].
    + by eapply dbs_inv_same; [|exact I1].
    + split; [done|]. by rewrite (same_cfg _ _ _ _ Hs'), cfg_upd_eq.
    + destruct Hl as [|(? & Hnq & ?)]; [left; lia|right].
      split_and!; [done|intros Hx; by apply Hnq, Hq|lia].
Qed.

Lemma wp_provision_dbs g id n d :
  dbs_inv g d -> (id <= d_totalvfs d)%nat -> 0 <= n ->
  wp (pf_provision_dbs g id n) (dbs_post g id n d) d.
Proof using Type*.
  intros I Hid Hn.
  assert (id < length (configs (d_prov d g)))%nat as Hlt by (rewrite (di_len g d I); lia).
  apply wp_bind, wp_get_cfg. apply wp_if; intros Heq; propify.
  { apply wp_ret. split_and!; try done; [|by left|by left].
    exists (begin_db (cfg d g id)), (num_dbs (cfg d g id)). apply upd_cfg_noop. by destruct (cfg d g id). }
  apply wp_if; intros Hz; propify.
  - apply wp_bind, wp_mod_cfg, wp_bind. set (d0 := upd_cfg g id _ d).
    assert (dbs_released g id d = d0) as Hrel
      by (unfold dbs_released; by rewrite (proj2 (Z.eqb_neq _ 0))).
    eapply wp_mono; [apply call_push_two|]. intros err d1 (Hs1 & Hl1 & Hle & HW). simpl.
    assert (dbs_inv g d1) as I1 by (eapply dbs_inv_same; [done|by apply dbs_inv_clear]).
    assert (num_dbs (cfg d1 g id) = 0) as Hz1
      by (rewrite (same_cfg _ _ _ _ Hs1); unfold d0; by rewrite cfg_upd_eq).
    apply wp_if; intros Hb; propify.
    + apply wp_ret. split_and!; [done|by exists 0, 0|right; split; [lia|done]|lia|by left|tauto].
    + unfold pf_take_dbs at 1. destruct (Z.eqb_spec n 0) as [->|Hn0].
      * apply wp_ret. split_and!; try done; [by exists 0, 0|by left|by left].
      * pose proof (wp_take_dbs g id n d1 ltac:(lia)) as Ht. unfold pf_take_dbs in Ht.
        rewrite (proj2 (Z.eqb_neq n 0)) in Ht by done.
        eapply wp_mono; [exact Ht|]. intros ret d' Hpost.
        apply (take_dbs_post g id n d d1); try done; try lia. by rewrite Hrel.
  - assert (dbs_released g id d = d) as Hrel by (unfold dbs_released; by rewrite Hz).
    eapply wp_mono; [apply wp_take_dbs; lia|]. intros ret d' Hpost.
    apply (take_dbs_post g id n d d); try done; try lia. by rewrite Hrel.
Qed.
End provision.

(** ** Properties *)

Section properties.
Context `{E : Env} `{!EnvLaws E} `{B : BitmapOps} `{!BitmapLaws B}.

Lemma wp_set_dbs g id n (Q : Z -> dev -> Prop) d :
  dbs_inv g d -> (id <= d_totalvfs d)%nat -> 0 <= n ->
  (forall ret d1 d2, dbs_post g id n d ret d1 ->
     d2 = d1 \/ d2 = upd_sriov (d_numvfs d1) (d_status d1) true d1 -> Q ret d2) ->
  wp (intel_iov_provisioning_set_dbs g id n) Q d.
Proof using Type*.
  intros I Hle Hn HQ. apply wp_bind, wp_gets, wp_bind.
  eapply wp_mono; [by apply wp_provision_dbs|]. intros ret d1 Hpost. simpl.
  apply wp_bind, wp_mark_manual; apply wp_ret; (eapply HQ; [done|auto]).
Qed.

(** C8: no two VFs ever share a doorbell, and the PF keeps its spare ones. Whatever is asked
    and answered, [intel_iov_provisioning_set_dbs] keeps the VFs' ranges disjoint and inside
    the 256 doorbells and changes no other configuration; a granted request leaves the VF
    exactly what it asked for and the VFs together at most 256 less the spare doorbells; a
    failed one leaves the VF none. *)
Theorem set_dbs_keeps_exclusive g id n d :
  dbs_inv g d -> is_vf d id -> is_u16 n ->
  let '(ret, d') := intel_iov_provisioning_set_dbs g id n d in
  dbs_inv g d' /\
  (forall g' id', g' <> g \/ id' <> id -> cfg d' g' id' = cfg d g' id') /\
  (ret = 0 /\ intel_iov_provisioning_get_dbs g id d' = n \/
   ret < 0 /\ intel_iov_provisioning_get_dbs g id d' = 0) /\
  (ret = 0 -> n <> 0 -> intel_iov_provisioning_get_dbs g id d <> n ->
   dbs_used g d' + intel_iov_provisioning_get_spare_dbs g d' <= GUC_NUM_DOORBELLS).
Proof using Type*.
  intros I Hvf [Hn _]. apply wp_let, wp_set_dbs; try done; [unfold is_vf in Hvf; lia|].
  intros ret d1 d2 (I1 & (b & m & Hs) & Hret & Hsp & _) Hd2.
  assert (dbs_inv g d2) as I2 by (destruct Hd2 as [->| ->]; [done|by destruct I1]).
  assert (forall g' id', cfg d2 g' id' = cfg d1 g' id') as Hc by (by destruct Hd2 as [->| ->]).
  unfold intel_iov_provisioning_get_dbs. rewrite Hc. split_and!; [done| |done|].
  - intros g' id' Hne. by rewrite Hc, (same_cfg _ _ _ _ Hs), cfg_upd_ne.
  - intros. destruct Hd2 as [->| ->]; by apply Hsp.
Qed.

(** Why a request for doorbells is refused when no call fails: -EDQUOT exactly when the
    VFs' doorbells, the spare ones and the request exceed 256, -ENOSPC exactly when they do
    not but no free range is long enough, success otherwise. The -EDQUOT exit does not free
    the temporary bitmap, every other path does. *)
Theorem set_dbs_refusals g id n d :
  EnvWorks E -> dbs_inv g d -> is_vf d id -> 0 < n < 2 ^ 16 ->
  intel_iov_provisioning_get_dbs g id d = 0 ->
  let '(ret, d') := intel_iov_provisioning_set_dbs g id n d in
  (ret = - EDQUOT <->
     GUC_NUM_DOORBELLS < dbs_used g d + intel_iov_provisioning_get_spare_dbs g d + n) /\
  (ret = - ENOSPC <->
     dbs_used g d + intel_iov_provisioning_get_spare_dbs g d + n <= GUC_NUM_DOORBELLS /\
     forall s, ~ dbs_hole g d n s) /\
  d_live d' <= d_live d + 1 /\ (d_live d' <> d_live d -> ret = - EDQUOT).
Proof using Type*.
  intros HW I Hvf Hn Hz.
  apply wp_let, wp_set_dbs; try done; [unfold is_vf in Hvf; lia|lia|].
  intros ret d1 d2 (I1 & _ & _ & _ & Hl & Hx) Hd2.
  unfold intel_iov_provisioning_get_dbs in Hz.
  destruct (Hx HW ltac:(lia) ltac:(lia)) as [HA HB].
  assert (dbs_released g id d = d) as Hrel by (unfold dbs_released; by rewrite Hz).
  rewrite Hrel in *. unfold dbs_quota_ok in *. rewrite Z.nle_gt in HA.
  assert (d_live d2 = d_live d1) as -> by (by destruct Hd2 as [->| ->]).
  split_and!; [done|done| |]; [lia|]. intros. destruct Hl as [|(? & _)]; [lia|done].
Qed.
End properties.

Section witnesses.
#[local] Existing Instance sample_env.

Lemma sample_dbs_inv g : dbs_inv g sample_dev.
Proof.
  assert (forall id, is_vf sample_dev id -> cfg sample_dev g id = config0) as H0.
  { intros id [Hid _]. destruct id as [|id]; [lia|]. unfold cfg. simpl.
    change (default config0 (replicate 4 config0 !! id) = config0).
    destruct (replicate 4 config0 !! id) as [c|] eqn:Ec; [|done].
    by apply lookup_replicate in Ec as [-> _]. }
  constructor; [done| |].
  - intros id Hid. left. by rewrite H0.
  - intros id id' r r' Hid _ _ Hr. unfold dbs_range in Hr. by rewrite H0 in Hr.
Qed.

Lemma set_dbs_keeps_exclusive_witness :
  let '(ret, d') := intel_iov_provisioning_set_dbs GT_PRIMARY 2 16 sample_dev in
  dbs_inv GT_PRIMARY d' /\ ret = 0 /\ intel_iov_provisioning_get_dbs GT_PRIMARY 2 d' = 16.
Proof.
  pose proof (set_dbs_keeps_exclusive GT_PRIMARY 2 16 sample_dev (sample_dbs_inv GT_PRIMARY)
    ltac:(unfold is_vf; simpl; lia) ltac:(done)) as Hw.
  destruct (intel_iov_provisioning_set_dbs GT_PRIMARY 2 16 sample_dev) as [ret d'] eqn:Er.
  destruct Hw as (I & _ & Hret & _). split; [exact I|].
  assert (ret = 0) as -> by (change ret with (fst (ret, d')); rewrite <- Er; by vm_compute).
  destruct Hret as [Hret|[? _]]; [exact Hret|done].
Defined.

Lemma set_dbs_refusals_witness :
  fst (intel_iov_provisioning_set_dbs GT_PRIMARY 1 257 sample_dev) = - EDQUOT.
Proof.
  pose proof (set_dbs_refusals GT_PRIMARY 1 257 sample_dev sample_env_works
    (sample_dbs_inv GT_PRIMARY) ltac:(unfold is_vf; simpl; lia) ltac:(done) ltac:(done)) as Hw.
  destruct (intel_iov_provisioning_set_dbs GT_PRIMARY 1 257 sample_dev) as [ret d'].
  destruct Hw as [Hw _]. apply Hw. by vm_compute.
Defined.
End witnesses.
