(* ===== verification/Ggtt.v ===== *)
(** * The GGTT page table and its shadows

    The ownership of GGTT pages: [i915_ggtt_set_space_owner] and
    [i915_ggtt_sgtable_update_ptes] of gt/intel_ggtt.c, the per-VF shadow page tables and the
    update of a VF's entries on its behalf of gt/iov/intel_iov_ggtt.c. *)

From S2P Require Export PfState Sample GucCfg.

(** ** Page table entries *)

Definition PAGE_SHIFT : Z := 12.
Definition PAGE_SIZE : Z := 4096.
Definition GEN8_PAGE_PRESENT : Z := 1.
Definition TGL_GGTT_PTE_VFID_MASK : Z := 0x1c.
Definition GEN12_GGTT_PTE_ADDR_MASK : Z := 0x3ffffffff000.
Definition MTL_GGTT_PTE_PAT_MASK : Z := 0x30000000000000.

#[export] Instance VFID_field : is_field TGL_GGTT_PTE_VFID_MASK 3 2.
Proof. solve_field. Qed.
#[export] Instance PTE_ADDR_field : is_field GEN12_GGTT_PTE_ADDR_MASK 34 12.
Proof. solve_field. Qed.
#[export] Instance PTE_PAT_field : is_field MTL_GGTT_PTE_PAT_MASK 2 52.
Proof. solve_field. Qed.

Definition tgl_prepare_vf_pte_vfid (vfid : Z) : Z := FIELD_PREP TGL_GGTT_PTE_VFID_MASK vfid.
Definition i915_ggtt_prepare_vf_pte (vfid : Z) : Z :=
  Z.lor (tgl_prepare_vf_pte_vfid vfid) GEN8_PAGE_PRESENT.

(** [gen8_set_pte] and the loops over it: [vs] written from entry [idx] up. *)
Definition gen8_set_pte (idx v : Z) (t : Z -> Z) : Z -> Z := fun i => if i =? idx then v else t i.
Fixpoint set_ptes (idx : Z) (vs : list Z) (t : Z -> Z) : Z -> Z :=
  match vs with
  | [] => t
  | v :: vs => set_ptes (idx + 1) vs (gen8_set_pte idx v t)
  end.

(** ** Shadow page tables (gt/iov/intel_iov_ggtt.c) *)

Definition ggtt_size_to_ptes_size (ggtt_size : Z) : Z := u32 (Z.shiftr ggtt_size PAGE_SHIFT * 8).

Section ggtt.
Context `{E : Env}.

Definition set_shadows (s : option (list intel_iov_ggtt_shadow)) (d : dev) : dev :=
  upd_ggtt (d_mm d) (d_ptes d) s d.
Definition set_table (t : Z -> Z) (d : dev) : dev := upd_ggtt (d_mm d) t (d_shadows d) d.
Definition set_mm (m : gtt_space) (d : dev) : dev := upd_ggtt m (d_ptes d) (d_shadows d) d.

Definition intel_iov_ggtt_shadow_init : st dev Z :=
  ok ← kvzalloc;
  if negb ok then mret (- ENOMEM) else
  modify (fun d => set_shadows (Some (replicate (S (d_totalvfs d)) shadow0)) d) ≫= fun _ => mret 0.

Definition intel_iov_ggtt_shadow_fini : st dev unit := modify (set_shadows None).

(** The region is the [ggtt_region] of the VF's configuration. *)
Definition intel_iov_ggtt_shadow_vf_alloc (vfid : nat) (region : drm_mm_node) : st dev Z :=
  sh ← gets d_shadows;
  match sh with
  | None => mret 0
  | Some shadows =>
      ok ← kvzalloc;
      if negb ok then mret (- ENOMEM) else
      let n := Z.to_nat (ggtt_size_to_ptes_size (size region) / 8) in
      modify (set_shadows (Some (<[vfid := {| shadow_ptes := Some (replicate n 0);
                                              shadow_region := Some vfid;
                                              shadow_vfid := vfid |}]> shadows))) ≫= fun _ =>
      mret 0
  end.

Definition intel_iov_ggtt_shadow_vf_free (vfid : nat) : st dev unit :=
  modify (fun d =>
    match d_shadows d with
    | None => d
    | Some shadows =>
        set_shadows (Some (alter (fun s =>
          {| shadow_ptes := None; shadow_region := shadow_region s; shadow_vfid := shadow_vfid s |})
          vfid shadows)) d
    end).

(** The node a shadow points to. *)
Definition shadow_node (s : intel_iov_ggtt_shadow) (d : dev) : drm_mm_node :=
  match shadow_region s with
  | Some id => ggtt_region (cfg d GT_PRIMARY id)
  | None => node0
  end.

Definition ggtt_addr_to_pte_offset (ggtt_addr : Z) : Z := u64 (ggtt_addr / PAGE_SIZE * 8).

(** The index into [ptes] that [ggtt_shadow_get_pte_ptr] computes, a u32. *)
Definition ggtt_shadow_get_pte_idx (s : intel_iov_ggtt_shadow) (ggtt_addr : Z) (d : dev) : Z :=
  u32 (ggtt_addr_to_pte_offset (u64 (ggtt_addr - start (shadow_node s d))) / 8).

Definition shadow_write (d : dev) (vfid : nat) (ggtt_addr pte : Z)
    (shadows : list intel_iov_ggtt_shadow) : list intel_iov_ggtt_shadow :=
  alter (fun s =>
    {| shadow_ptes := (fun ptes => <[Z.to_nat (ggtt_shadow_get_pte_idx s ggtt_addr d) := pte]> ptes)
                        <$> shadow_ptes s;
       shadow_region := shadow_region s; shadow_vfid := shadow_vfid s |}) vfid shadows.

(** Writes outside the VF's region, which [GEM_BUG_ON] rules out, have no effect here. *)
Definition intel_iov_ggtt_shadow_set_pte (vfid : nat) (ggtt_addr pte : Z) : st dev unit :=
  modify (fun d =>
    match d_shadows d with
    | None => d
    | Some shadows => set_shadows (Some (shadow_write d vfid ggtt_addr pte shadows)) d
    end).

Definition intel_iov_ggtt_shadow_get_pte (vfid : nat) (ggtt_addr : Z) (d : dev) : Z :=
  match d_shadows d with
  | None => 0
  | Some shadows =>
      let s := shadows.[vfid | shadow0] in
      default 0 (shadow_ptes s ≫= fun ptes =>
        ptes !! Z.to_nat (ggtt_shadow_get_pte_idx s ggtt_addr d))
  end.

(** ** Writing entries (gt/intel_ggtt.c) *)

(** MI_UPDATE_GTT updates 511 entries in a single command. *)
Definition bind_batch : nat := 511.

(** The loop of [gen8_ggtt_bind_ptes]: one request per batch; a request that fails has the
    GPU stop after some of its entries. *)
Fixpoint bind_batches (fuel : nat) (offset : Z) (vals : list Z) : st dev Z :=
  match fuel, vals with
  | _, [] => mret 1
  | O, _ => mret 0
  | S fuel, _ =>
      let batch := take bind_batch vals in
      failed ← gets (fun d => bind_fails_after (d_ticks d));
      modify (fun d => upd_hw (d_log d) (S (d_ticks d)) (d_live d) d) ≫= fun _ =>
      match failed with
      | Some k =>
          modify (fun d => set_table (set_ptes offset (take k batch) (d_ptes d)) d) ≫= fun _ => mret 0
      | None =>
          modify (fun d => set_table (set_ptes offset batch (d_ptes d)) d) ≫= fun _ =>
          bind_batches fuel (offset + Z.of_nat (length batch)) (drop bind_batch vals)
      end
  end.

(** The entries a scatter list (or, without one, [num_entries] equal entries) stands for. *)
Definition bind_values (pages : option (list Z)) (num_entries pte : Z) : list Z :=
  let n := Z.to_nat num_entries in
  match pages with
  | None => replicate n pte
  | Some addrs => take n ((fun addr => Z.lor pte addr) <$> addrs) ++
                  replicate (n - length addrs) scratch_pte
  end.

Definition gen8_ggtt_bind_ptes (offset : Z) (pages : option (list Z)) (num_entries pte : Z)
  : st dev Z :=
  let vals := bind_values pages num_entries pte in
  bind_batches (length vals) offset vals.

Definition sgtable_update_ptes_via_cpu (ggtt_addr : Z) (sg : option (list Z)) (pte_pattern : Z)
  : st dev Z :=
  let addrs := default [] sg in
  modify (fun d => set_table
    (set_ptes (ggtt_addr / PAGE_SIZE) ((fun addr => Z.lor pte_pattern addr) <$> addrs) (d_ptes d)) d)
    ≫= fun _ => mret (Z.of_nat (length addrs)).

Fixpoint shadow_fill (vfid : nat) (n : nat) (ggtt_addr pte : Z) : st dev unit :=
  match n with
  | O => mret tt
  | S n => intel_iov_ggtt_shadow_set_pte vfid ggtt_addr pte ≫= fun _ =>
           shadow_fill vfid n (u64 (ggtt_addr + PAGE_SIZE)) pte
  end.

Fixpoint shadow_set_all (vfid : nat) (ggtt_addr pte_pattern : Z) (addrs : list Z) : st dev unit :=
  match addrs with
  | [] => mret tt
  | addr :: addrs =>
      intel_iov_ggtt_shadow_set_pte vfid ggtt_addr (Z.lor pte_pattern addr) ≫= fun _ =>
      shadow_set_all vfid ggtt_addr pte_pattern addrs
  end.

Definition sgtable_update_shadow_ggtt (vfid : nat) (ggtt_addr : Z) (sg : option (list Z))
    (num_entries pte_pattern : Z) : st dev unit :=
  match sg with
  | None => shadow_fill vfid (Z.to_nat num_entries) ggtt_addr pte_pattern
  | Some addrs => shadow_set_all vfid ggtt_addr pte_pattern addrs
  end.

Definition i915_ggtt_sgtable_update_ptes (vfid : nat) (ggtt_addr : Z) (sg : option (list Z))
    (num_entries pte_pattern : Z) : st dev Z :=
  bind ← gets (fun d => bind_ready (d_ticks d));
  ret ← (if bind : bool
         then gen8_ggtt_bind_ptes (Z.shiftr ggtt_addr PAGE_SHIFT) sg num_entries pte_pattern
         else sgtable_update_ptes_via_cpu (u32 ggtt_addr) sg pte_pattern);
  (if (0 <? ret) && negb (vfid =? PFID)%nat
   then sgtable_update_shadow_ggtt vfid ggtt_addr sg num_entries pte_pattern
   else mret tt) ≫= fun _ =>
  mret (if negb (ret =? 0) then 0 else - EIO).

Definition i915_ggtt_set_space_owner (vfid : nat) (node : drm_mm_node) : st dev unit :=
  let pte := i915_ggtt_prepare_vf_pte (Z.of_nat vfid) in
  let base := start node in
  let sz := size node in
  bind ← gets (fun d => bind_ready (d_ticks d));
  ret ← (if require_binder && bind
         then i915_ggtt_sgtable_update_ptes vfid base None (sz / PAGE_SIZE) pte
         else mret 0);
  if negb (ret =? 0) then mret tt else
  modify (fun d => set_table
    (set_ptes (Z.shiftr base PAGE_SHIFT) (replicate (Z.to_nat (sz / PAGE_SIZE)) pte) (d_ptes d)) d).

(** ** Updating entries for a VF (gt/iov/intel_iov_ggtt.c) *)

Definition prepare_pattern_pte (source_pte vfid : Z) : Z :=
  Z.lor (Z.land source_pte MTL_GGTT_PTE_PAT_MASK) (i915_ggtt_prepare_vf_pte vfid).

(** [sg_add_ptes]: the addresses appended to the scatter list. *)
Definition sg_add_ptes (source_pte : Z) (count : nat) (duplicated : bool) : list Z :=
  let pfn := FIELD_GET GEN12_GGTT_PTE_ADDR_MASK source_pte in
  (fun i => u64 (Z.shiftl (if duplicated then pfn else pfn + Z.of_nat i) PAGE_SHIFT)) <$> seq 0 count.
Definition sg_add_pte (source_pte : Z) : list Z := sg_add_ptes source_pte 1 false.

Definition MMIO_UPDATE_GGTT_MODE_DUPLICATE : Z := 0.
Definition MMIO_UPDATE_GGTT_MODE_REPLICATE : Z := 1.
Definition MMIO_UPDATE_GGTT_MODE_DUPLICATE_LAST : Z := 2.
Definition MMIO_UPDATE_GGTT_MODE_REPLICATE_LAST : Z := 3.

(** The [switch] on the mode: the addresses to write, [None] for an unknown mode. *)
Definition expand_ptes (mode num_copies : Z) (ptes : list Z) : option (list Z) :=
  let copies := Z.to_nat (num_copies + 1) in
  let is_duplicated := (mode =? MMIO_UPDATE_GGTT_MODE_DUPLICATE) ||
                       (mode =? MMIO_UPDATE_GGTT_MODE_DUPLICATE_LAST) in
  if (mode =? MMIO_UPDATE_GGTT_MODE_DUPLICATE) || (mode =? MMIO_UPDATE_GGTT_MODE_REPLICATE) then
    Some (sg_add_ptes (ptes.[0%nat | 0]) copies is_duplicated ++ (tail ptes ≫= sg_add_pte))
  else if (mode =? MMIO_UPDATE_GGTT_MODE_DUPLICATE_LAST) || (mode =? MMIO_UPDATE_GGTT_MODE_REPLICATE_LAST) then
    Some ((removelast ptes ≫= sg_add_pte) ++ sg_add_ptes (default 0 (last ptes)) copies is_duplicated)
  else None.

(** [ptes] holds the [count] entries of the request. *)
Definition intel_iov_ggtt_pf_update_vf_ptes (g : gt_id) (vfid : nat) (pte_offset mode num_copies : Z)
    (ptes : list Z) : st dev Z :=
  config ← get_cfg g vfid;
  let node := ggtt_region config in
  let count := Z.of_nat (length ptes) in
  let ggtt_addr := u64 (start node + pte_offset * PAGE_SIZE) in
  let ggtt_addr_end := u64 (ggtt_addr + count * PAGE_SIZE - 1) in
  let vf_ggtt_end := u64 (start node + size node - 1) in
  let pte_pattern := prepare_pattern_pte (ptes.[0%nat | 0]) (Z.of_nat vfid) in
  if count =? 0 then mret (- EINVAL) else
  if ggtt_addr_end >? vf_ggtt_end then mret (- ERANGE) else
  let n_ptes := u16 (if negb (num_copies =? 0) then num_copies + count else count) in
  ok ← kvzalloc;
  if negb ok then mret (- ENOMEM) else
  ok ← kvzalloc;
  if negb ok then mret (- ENOMEM) else
  match expand_ptes mode num_copies ptes with
  | None => mret (- EINVAL)
  | Some addrs =>
      err ← i915_ggtt_sgtable_update_ptes vfid ggtt_addr (Some addrs) n_ptes pte_pattern;
      mret (if err <? 0 then err else n_ptes)
  end.
End ggtt.

(** ** Lemmas *)

Lemma set_ptes_lookup idx vs t i :
  set_ptes idx vs t i =
    if decide (idx <= i < idx + Z.of_nat (length vs)) then default 0 (vs !! Z.to_nat (i - idx)) else t i.
Proof.
  revert idx t. induction vs as [|v vs IH]; intros idx t; cbn [set_ptes length].
  - rewrite decide_False by lia. done.
  - rewrite IH. unfold gen8_set_pte. rewrite Nat2Z.inj_succ.
    destruct (decide (idx + 1 <= i < idx + 1 + Z.of_nat (length vs))).
    + rewrite decide_True by lia. replace (Z.to_nat (i - idx)) with (S (Z.to_nat (i - (idx + 1)))) by lia.
      done.
    + destruct (Z.eqb_spec i idx) as [->|].
      * rewrite decide_True by lia. by rewrite Z.sub_diag.
      * by rewrite decide_False by lia.
Qed.

(** A prefix of the entries written. *)
Lemma set_ptes_app idx vs ws t :
  set_ptes idx (vs ++ ws) t = set_ptes (idx + Z.of_nat (length vs)) ws (set_ptes idx vs t).
Proof.
  revert idx t. induction vs as [|v vs IH]; intros idx t; cbn [set_ptes length app].
  - by rewrite Z.add_0_r.
  - rewrite IH, Nat2Z.inj_succ. f_equal. lia.
Qed.

Lemma set_ptes_outside idx vs t i :
  ~ (idx <= i < idx + Z.of_nat (length vs)) -> set_ptes idx vs t i = t i.
Proof. intros Hi. by rewrite set_ptes_lookup, decide_False. Qed.

Lemma set_ptes_elem idx vs t i :
  idx <= i < idx + Z.of_nat (length vs) -> set_ptes idx vs t i ∈ vs.
Proof.
  intros Hi. rewrite set_ptes_lookup, decide_True by done.
  destruct (lookup_lt_is_Some_2 vs (Z.to_nat (i - idx))) as [v Hv]; [lia|].
  rewrite Hv. by eapply list_elem_of_lookup_2.
Qed.

Definition pte_vfid (pte : Z) : Z := FIELD_GET TGL_GGTT_PTE_VFID_MASK pte.
Definition pte_present (pte : Z) : bool := Z.testbit pte 0.
Definition pte_addr (pte : Z) : Z := FIELD_GET GEN12_GGTT_PTE_ADDR_MASK pte.

Lemma field_get_shifted m w lo x k :
  is_field m w lo -> lo + w <= k -> FIELD_GET m (Z.shiftl x k) = 0.
Proof.
  intros F Hk. rewrite (FIELD_GET_bits m w lo). pose proof (field_w (mask := m)).
  pose proof (field_lo (mask := m)). apply Z.bits_inj'; intros n Hn.
  rewrite Z.land_spec, Z.shiftr_spec, Z.shiftl_spec, Z.testbit_ones, Z.bits_0 by lia.
  destruct (Z.ltb_spec n w); [|by rewrite !andb_false_r].
  by rewrite Z.testbit_neg_r by lia.
Qed.

Lemma prepare_vf_pte_vfid vfid : 0 <= vfid < 8 -> pte_vfid (i915_ggtt_prepare_vf_pte vfid) = vfid.
Proof.
  intros Hv. unfold pte_vfid, i915_ggtt_prepare_vf_pte, tgl_prepare_vf_pte_vfid.
  rewrite FIELD_GET_lor, (FIELD_GET_PREP_small _ 3 2) by (apply _ || lia).
  change (FIELD_GET TGL_GGTT_PTE_VFID_MASK GEN8_PAGE_PRESENT) with 0. apply Z.lor_0_r.
Qed.

Lemma u64_shiftl x : u64 (Z.shiftl x PAGE_SHIFT) = Z.shiftl (x mod 2 ^ 52) PAGE_SHIFT.
Proof.
  unfold u64, PAGE_SHIFT. rewrite !Z.shiftl_mul_pow2 by lia.
  change (2 ^ 64) with (2 ^ 52 * 2 ^ 12). by rewrite Z.mul_mod_distr_r by lia.
Qed.

(** Every entry built for a VF belongs to it, whatever the VF sent. *)
Lemma pattern_owner src vfid x :
  0 <= vfid < 8 ->
  pte_vfid (Z.lor (prepare_pattern_pte src vfid) (u64 (Z.shiftl x PAGE_SHIFT))) = vfid /\
  pte_present (Z.lor (prepare_pattern_pte src vfid) (u64 (Z.shiftl x PAGE_SHIFT))) = true.
Proof.
  intros Hv. rewrite u64_shiftl. unfold prepare_pattern_pte. split.
  - unfold pte_vfid. rewrite !FIELD_GET_lor.
    rewrite (field_get_shifted _ 3 2) by (apply _ || done).
    fold (pte_vfid (i915_ggtt_prepare_vf_pte vfid)). rewrite prepare_vf_pte_vfid by done.
    unfold FIELD_GET. rewrite <- Z.land_assoc.
    change (Z.land MTL_GGTT_PTE_PAT_MASK TGL_GGTT_PTE_VFID_MASK) with 0.
    by rewrite Z.land_0_r, Z.lor_0_r.
  - unfold pte_present, i915_ggtt_prepare_vf_pte, GEN8_PAGE_PRESENT.
    rewrite !Z.lor_spec, Z.bit0_odd. change (Z.odd 1) with true.
    by rewrite !orb_true_r.
Qed.

Lemma length_sg_add_ptes p n b : length (sg_add_ptes p n b) = n.
Proof. unfold sg_add_ptes. by rewrite length_fmap, length_seq. Qed.

Lemma length_sg_singles ptes : length (ptes ≫= sg_add_pte) = length ptes.
Proof. induction ptes as [|p ptes IH]; [done|]. cbn. by rewrite IH. Qed.

Lemma expand_ptes_length mode copies ptes addrs :
  expand_ptes mode copies ptes = Some addrs -> 0 <= copies -> ptes <> [] ->
  Z.of_nat (length addrs) = copies + Z.of_nat (length ptes).
Proof.
  unfold expand_ptes. intros He Hc Hne.
  repeat case_match; try done; injection He as <-;
    rewrite length_app, length_sg_add_ptes, length_sg_singles.
  - destruct ptes; [done|]. simpl. lia.
  - destruct ptes as [|p ptes] using rev_ind; [done|].
    rewrite removelast_last, length_app. simpl. lia.
Qed.

(** The addresses are page addresses. *)
Lemma expand_ptes_pages mode copies ptes addrs a :
  expand_ptes mode copies ptes = Some addrs -> a ∈ addrs -> exists x, a = u64 (Z.shiftl x PAGE_SHIFT).
Proof.
  assert (forall p n b, a ∈ sg_add_ptes p n b -> exists x, a = u64 (Z.shiftl x PAGE_SHIFT)) as Hsg.
  { intros p n b Ha. unfold sg_add_ptes in Ha. apply list_elem_of_fmap in Ha as (i & -> & _). eauto. }
  assert (forall ps, a ∈ (ps ≫= sg_add_pte) -> exists x, a = u64 (Z.shiftl x PAGE_SHIFT)) as Hps.
  { intros ps Ha. apply list_elem_of_bind in Ha as (p & Ha & _). by eapply Hsg. }
  unfold expand_ptes. intros He Ha.
  repeat case_match; try done; injection He as <-; apply elem_of_app in Ha as [Ha|Ha]; eauto.
Qed.

Section ptes.
Context `{E : Env}.

(** [d'] differs from [d] in the GGTT and the counters only. *)
Lemma set_table_cfg t d g id : cfg (set_table t d) g id = cfg d g id.
Proof. done. Qed.

Lemma wp_shadow_any (m : st dev unit) (Q : unit -> dev -> Prop) d :
  (forall s, d_ptes (snd (m s)) = d_ptes s) ->
  (forall d', d_ptes d' = d_ptes d -> Q tt d') -> wp m Q d.
Proof.
  unfold wp. intros H1 H2. pose proof (H1 d) as Hd. destruct (m d) as [[] d']. by apply H2.
Qed.

Lemma shadow_set_pte_table vfid a p d :
  d_ptes (snd (intel_iov_ggtt_shadow_set_pte vfid a p d)) = d_ptes d.
Proof. unfold intel_iov_ggtt_shadow_set_pte, modify. simpl. by destruct (d_shadows d). Qed.

Lemma shadow_update_table vfid a sg n p d :
  d_ptes (snd (sgtable_update_shadow_ggtt vfid a sg n p d)) = d_ptes d.
Proof.
  unfold sgtable_update_shadow_ggtt. destruct sg as [addrs|].
  - revert d. induction addrs as [|x addrs IH]; intros d; [done|].
    cbn [shadow_set_all]. unfold mbind, st_bind.
    pose proof (shadow_set_pte_table vfid a (Z.lor p x) d) as Hx.
    destruct (intel_iov_ggtt_shadow_set_pte _ _ _ d) as [[] d1]. simpl in Hx. by rewrite IH.
  - generalize (Z.to_nat n) as k. intros k. revert a d. induction k as [|k IH]; intros a d; [done|].
    cbn [shadow_fill]. unfold mbind, st_bind.
    pose proof (shadow_set_pte_table vfid a p d) as Hx.
    destruct (intel_iov_ggtt_shadow_set_pte _ _ _ d) as [[] d1]. simpl in Hx. by rewrite IH.
Qed.

(** The batches write a prefix of the entries, all of them when the loop reports success; the
    fuel is enough. *)
Lemma wp_bind_batches fuel : forall offset vals (Q : Z -> dev -> Prop) d,
  (length vals <= fuel)%nat ->
  (forall ret d' m, (m <= length vals)%nat -> ret = 1 /\ m = length vals \/ ret = 0 /\ (exists n, is_Some (bind_fails_after n)) ->
     d_ptes d' = set_ptes offset (take m vals) (d_ptes d) -> same_conf d d' -> Q ret d') ->
  wp (bind_batches fuel offset vals) Q d.
Proof.
  induction fuel as [|fuel IH]; intros offset vals Q d Hf HQ.
  { destruct vals; [|simpl in Hf; lia]. apply wp_ret. by apply (HQ 1 _ 0%nat); auto. }
  destruct vals as [|v vals']; [apply wp_ret; by apply (HQ 1 _ 0%nat); auto|].
  remember (v :: vals') as vals eqn:Hv. assert (0 < length vals)%nat by (subst; simpl; lia).
  cbn [bind_batches]. rewrite Hv at 1. apply wp_bind, wp_gets, wp_bind, wp_modify.
  destruct (bind_fails_after (d_ticks d)) as [k|] eqn:Hk.
  - apply wp_bind, wp_modify, wp_ret.
    apply (HQ 0 _ (Nat.min (Nat.min k bind_batch) (length vals))); [lia|right; by eauto| |by constructor].
    cbn. rewrite take_take. by rewrite <- (take_take _ _ (length vals)), (take_ge _ (length vals)).
  - apply wp_bind, wp_modify. apply IH; [rewrite length_drop; unfold bind_batch; lia|].
    intros ret d' m Hm Hret Ht Hc. rewrite length_drop in Hm, Hret.
    apply (HQ ret _ (length (take bind_batch vals) + m)%nat); rewrite ?length_take; [lia|destruct Hret as [[-> ->]|Hret]; [left; lia|by right]|..].
    + rewrite Ht. cbn [d_ptes set_table upd_ggtt upd_hw]. rewrite <- set_ptes_app. f_equal.
      destruct (Nat.le_gt_cases bind_batch (length vals)).
      * rewrite Nat.min_l by done. apply take_take_drop.
      * assert (m = 0%nat) as -> by lia. rewrite drop_ge, take_nil, app_nil_r by lia.
        by rewrite !take_ge by lia.
    + etransitivity; [|exact Hc]. by constructor.
Qed.

Lemma bind_values_length pages n pte :
  length (bind_values pages n pte) = Z.to_nat n.
Proof.
  unfold bind_values. destruct pages as [addrs|]; [|by rewrite length_replicate].
  rewrite length_app, length_take, length_fmap, length_replicate. lia.
Qed.

(** What an update writes: a prefix of the entries, all of them when it succeeds. *)
Lemma wp_update_ptes vfid addr sg n pat (Q : Z -> dev -> Prop) d :
  is_u32 addr -> Z.of_nat (length sg) = n ->
  (forall ret d' m, (m <= length sg)%nat -> (ret = 0 -> 0 < n -> m = length sg) ->
     ret = 0 \/ ret = - EIO ->
     d_ptes d' = set_ptes (addr / PAGE_SIZE) (take m ((fun a => Z.lor pat a) <$> sg)) (d_ptes d) ->
     Q ret d') ->
  wp (i915_ggtt_sgtable_update_ptes vfid addr (Some sg) n pat) Q d.
Proof.
  intros Ha Hn HQ. apply wp_bind, wp_gets, wp_bind.
  assert (forall ret d1 m, (m <= length sg)%nat -> (ret <> 0 -> m = length sg) ->
    d_ptes d1 = set_ptes (addr / PAGE_SIZE) (take m ((fun a => Z.lor pat a) <$> sg)) (d_ptes d) ->
    wp ((if (0 <? ret) && negb (vfid =? PFID)%nat
         then sgtable_update_shadow_ggtt vfid addr (Some sg) n pat else mret tt) ≫= fun _ =>
        mret (if negb (ret =? 0) then 0 else - EIO)) Q d1) as Hrest.
  { intros ret d1 m Hm Hr Ht. apply wp_bind, wp_shadow_any.
    - intros s. case_match; [apply shadow_update_table|done].
    - intros d2 Ht2. apply wp_ret. destruct (Z.eqb_spec ret 0) as [Hr0|Hr0]; simpl.
      + eapply (HQ _ _ m); [done|done|by right|congruence].
      + eapply (HQ _ _ m); [done|by intros; apply Hr|by left|congruence]. }
  apply wp_if; intros Hb.
  - assert (bind_values (Some sg) n pat = (fun a => Z.lor pat a) <$> sg) as Hvals.
    { unfold bind_values. subst n. rewrite Nat2Z.id, Nat.sub_diag, app_nil_r.
      by rewrite take_ge by (by rewrite length_fmap). }
    unfold gen8_ggtt_bind_ptes. rewrite Hvals, Z.shiftr_div_pow2 by done.
    apply wp_bind_batches; [done|]. intros ret d' m Hm Hret Ht _. rewrite length_fmap in Hm, Hret.
    apply (Hrest ret _ m); [done|lia|exact Ht].
  - apply wp_bind, wp_modify, wp_ret. apply (Hrest _ _ (length sg)); auto. simpl.
    rewrite take_ge by (by rewrite length_fmap). by rewrite u32_small.
Qed.

(** Equal entries without a scatter list, with a binder that is ready and does not fail. *)
Lemma wp_update_ptes_fill vfid addr n pat (Q : Z -> dev -> Prop) d :
  bind_ready (d_ticks d) = true -> (forall k, bind_fails_after k = None) ->
  (forall d', d_ptes d' = set_ptes (Z.shiftr addr PAGE_SHIFT) (replicate (Z.to_nat n) pat) (d_ptes d) -> Q 0 d') ->
  wp (i915_ggtt_sgtable_update_ptes vfid addr None n pat) Q d.
Proof.
  intros Hb Hf HQ. apply wp_bind, wp_gets. rewrite Hb. apply wp_bind. unfold gen8_ggtt_bind_ptes.
  apply wp_bind_batches; [done|]. intros ret d' m _ [[-> ->]|(_ & k & Hk)] Ht _; [|rewrite Hf in Hk; by apply is_Some_None in Hk].
  rewrite take_ge in Ht by done. apply wp_bind, wp_shadow_any.
  - intros s. case_match; [apply shadow_update_table|done].
  - intros d2 Ht2. apply wp_ret, HQ. by rewrite Ht2.
Qed.
End ptes.

(** ** Properties *)

Section properties.
Context `{E : Env}.

(** Without a binder, [i915_ggtt_set_space_owner] gives every page of the node, and no
    other page, to the VF: its entries are present, carry the VF's identifier and point
    nowhere. *)
Theorem set_space_owner_owns vfid node d i :
  require_binder = false -> (vfid < 8)%nat ->
  0 <= start node -> 0 <= size node -> (PAGE_SIZE | start node) -> (PAGE_SIZE | size node) ->
  let '(_, d') := i915_ggtt_set_space_owner vfid node d in
  if decide (start node <= i * PAGE_SIZE < start node + size node)
  then pte_vfid (d_ptes d' i) = Z.of_nat vfid /\ pte_present (d_ptes d' i) = true /\
       pte_addr (d_ptes d' i) = 0
  else d_ptes d' i = d_ptes d i.
Proof.
  intros Hb Hv Hs0 Hn0 [s Hs] [n Hn]. apply wp_let, wp_bind, wp_gets, wp_bind.
  rewrite Hb. simpl. apply wp_ret. simpl. apply wp_modify. simpl.
  rewrite Hs, Hn, Z.shiftr_div_pow2 by done. change (2 ^ PAGE_SHIFT) with PAGE_SIZE.
  rewrite !Z.div_mul by done. rewrite set_ptes_lookup, length_replicate. unfold PAGE_SIZE in *.
  destruct (decide (s * 4096 <= i * 4096 < s * 4096 + n * 4096)).
  - rewrite decide_True, lookup_replicate_2 by lia. simpl. split_and!.
    + apply prepare_vf_pte_vfid. lia.
    + unfold pte_present, i915_ggtt_prepare_vf_pte, GEN8_PAGE_PRESENT.
      rewrite Z.lor_spec, Z.bit0_odd. change (Z.odd 1) with true. apply orb_true_r.
    + unfold pte_addr, i915_ggtt_prepare_vf_pte, tgl_prepare_vf_pte_vfid.
      rewrite FIELD_GET_lor, FIELD_GET_PREP_disj by done. done.
  - by rewrite decide_False by lia.
Qed.

Lemma wp_pf_update g vfid off mode copies ptes (Q : Z -> dev -> Prop) d :
  let r := ggtt_region (cfg d g vfid) in
  let base := start r + off * PAGE_SIZE in
  let n := copies + Z.of_nat (length ptes) in
  0 <= start r -> 0 <= off -> 0 <= copies -> n < 65536 ->
  base + Z.of_nat (length ptes) * PAGE_SIZE <= 2 ^ 32 -> 0 < start r + size r <= 2 ^ 32 ->
  (forall ret d', ret < 0 -> d_ptes d' = d_ptes d -> Q ret d') ->
  (forall ret d' addrs m, ptes <> [] -> base + Z.of_nat (length ptes) * PAGE_SIZE <= start r + size r ->
     expand_ptes mode copies ptes = Some addrs -> (m <= length addrs)%nat ->
     ret = n /\ m = length addrs \/ ret = - EIO ->
     d_ptes d' = set_ptes (base / PAGE_SIZE)
       (take m ((fun a => Z.lor (prepare_pattern_pte (ptes.[0%nat | 0]) (Z.of_nat vfid)) a) <$> addrs))
       (d_ptes d) -> Q ret d') ->
  wp (intel_iov_ggtt_pf_update_vf_ptes g vfid off mode copies ptes) Q d.
Proof.
  intros r base n Hs Ho Hc Hn Hend Hreg Hfail Hok.
  apply wp_bind, wp_get_cfg. fold r. unfold PAGE_SIZE in *.
  apply wp_if; intros Hb; propify; [apply wp_ret, Hfail; done|].
  assert (ptes <> []) as Hne by (intros ->; done).
  apply wp_if; intros Hb2; propify; [apply wp_ret, Hfail; done|].
  fold base in Hb2 |- *. rewrite (u64_small base), !u64_small in Hb2 by lia.
  unfold kvzalloc at 1. apply wp_bind. unfold wp at 1. simpl. apply wp_if; intros _; [apply wp_ret, Hfail; done|].
  apply wp_bind. unfold wp at 1. simpl. apply wp_if; intros _; [apply wp_ret, Hfail; done|].
  destruct (expand_ptes mode copies ptes) as [addrs|] eqn:Ee; [|apply wp_ret, Hfail; done].
  pose proof (expand_ptes_length _ _ _ _ Ee Hc Hne) as Hlen.
  assert ((if negb (copies =? 0) then copies + Z.of_nat (length ptes) else Z.of_nat (length ptes)) = n) as ->
    by (unfold n; destruct (Z.eqb_spec copies 0); simpl; lia).
  rewrite u16_small by lia. apply wp_bind, wp_update_ptes; [unfold is_u32; rewrite u64_small; lia|lia|].
  intros ret d2 m Hm Hmax Hret Ht. apply wp_ret. rewrite u64_small in Ht by lia. simpl in Ht.
  destruct Hret as [->| ->].
  - simpl. eapply (Hok _ _ addrs m); try done; [lia|]. left. split; [done|]. apply Hmax; [done|lia].
  - eapply (Hok _ _ addrs m); try done; [lia|]. by right.
Qed.

(** A request that ends beyond the region is refused. *)
Lemma wp_pf_update_beyond g vfid off mode copies ptes (Q : Z -> dev -> Prop) d :
  let r := ggtt_region (cfg d g vfid) in
  let last := start r + (off + Z.of_nat (length ptes)) * PAGE_SIZE in
  0 <= start r -> 0 <= size r -> start r + size r <= 2 ^ 32 -> 0 <= off < 2 ^ 32 ->
  0 < start r + size r -> Z.of_nat (length ptes) < 65536 ->
  start r + size r < last ->
  (forall ret, ret < 0 -> Q ret d) ->
  wp (intel_iov_ggtt_pf_update_vf_ptes g vfid off mode copies ptes) Q d.
Proof.
  intros r last Hs Hz Hreg Ho Hp Hn Hl HQ. apply wp_bind, wp_get_cfg. fold r. unfold PAGE_SIZE in *.
  change (2 ^ 32) with 4294967296 in *.
  assert (forall x, 0 <= x < 2 ^ 60 -> u64 x = x) as Hu by (intros; apply u64_small; lia).
  change (2 ^ 60) with 1152921504606846976 in Hu.
  apply wp_if; intros Hb; propify; [by apply wp_ret, HQ|].
  apply wp_if; intros Hb2; propify; [by apply wp_ret, HQ|].
  unfold last in *. rewrite (Hu (start r + off * 4096)) in Hb2 by lia. rewrite !Hu in Hb2 by lia. lia.
Qed.

(** The entries that changed belong to VF [vfid] and are entries [lo .. hi) of the table. *)
Definition owned_changes (vfid : nat) (lo hi : Z) (d d' : dev) : Prop :=
  forall i, d_ptes d' i <> d_ptes d i ->
    pte_vfid (d_ptes d' i) = Z.of_nat vfid /\ pte_present (d_ptes d' i) = true /\ lo <= i < hi.

Lemma owned_changes_same vfid lo hi d d' : d_ptes d' = d_ptes d -> owned_changes vfid lo hi d d'.
Proof. intros He i. by rewrite He. Qed.
Lemma owned_changes_trans vfid lo hi a b c :
  owned_changes vfid lo hi a b -> owned_changes vfid lo hi b c -> owned_changes vfid lo hi a c.
Proof.
  intros H1 H2 i Hi. destruct (decide (d_ptes c i = d_ptes b i)) as [He|He]; [|by apply H2].
  rewrite He in *. by apply H1.
Qed.

Lemma wp_pf_update_owned g vfid off mode copies ptes (Q : Z -> dev -> Prop) d :
  let r := ggtt_region (cfg d g vfid) in
  let first := start r / PAGE_SIZE + off in
  let count := Z.of_nat (length ptes) in
  (vfid < 8)%nat -> 0 <= start r -> 0 < size r -> start r + size r <= 2 ^ 32 ->
  (PAGE_SIZE | start r) -> (PAGE_SIZE | size r) -> 0 <= off < 2 ^ 32 -> 0 <= copies -> copies + count < 65536 ->
  (forall ret d', ret < 0 \/ ret = count + copies ->
     owned_changes vfid first (first + count + copies) d d' ->
     d_ptes d' = d_ptes d \/ (first + count) * PAGE_SIZE <= start r + size r -> Q ret d') ->
  wp (intel_iov_ggtt_pf_update_vf_ptes g vfid off mode copies ptes) Q d.
Proof.
  intros r first count Hv Hs Hsz Hreg [s Hsr] [z Hz] Ho Hc Hn HQ.
  assert (start r / PAGE_SIZE = s) as Hdiv by (by rewrite Hsr, Z.div_mul).
  destruct (Z.lt_ge_cases (start r + size r) (start r + (off + count) * PAGE_SIZE)) as [Hend|Hend].
  { apply wp_pf_update_beyond; fold r count; try lia. intros ret Hneg.
    apply HQ; [by left|by apply owned_changes_same|by left]. }
  apply wp_pf_update; fold r count; unfold PAGE_SIZE in *; try done; try lia.
  { intros ret d' Hneg Ht. apply HQ; [by left|by apply owned_changes_same|by left]. }
  intros ret d' addrs m Hne Hin He Hm Hret Ht. fold count in Hret.
  pose proof (expand_ptes_length _ _ _ _ He Hc Hne) as Hlen. fold count in Hlen.
  assert ((start r + off * 4096) / 4096 = first) as Hfirst
    by (unfold first; rewrite Hdiv, Hsr, <- Z.mul_add_distr_r, Z.div_mul; done).
  rewrite Hfirst in Ht. apply HQ; [destruct Hret as [[-> _]| ->]; [right; lia|by left]| |right; unfold first; lia].
  intros i Hi. set (vals := take m _) in Ht.
  assert (length vals <= length addrs)%nat as Hlv
    by (unfold vals; rewrite length_take, length_fmap; lia).
  destruct (decide (first <= i < first + Z.of_nat (length vals))) as [Hir|Hir];
    [|by rewrite Ht, set_ptes_outside in Hi].
  assert (d_ptes d' i ∈ vals) as Hel by (rewrite Ht; by apply set_ptes_elem).
  apply elem_of_take, list_elem_of_fmap in Hel as (a & Ha & Hain).
  destruct (expand_ptes_pages _ _ _ _ _ He Hain) as (x & ->). rewrite Ha.
  destruct (pattern_owner (ptes.[0%nat | 0]) (Z.of_nat vfid) x ltac:(lia)) as [H1 H2].
  split_and!; [exact H1|exact H2|lia|lia].
Qed.

(** C9: updating GGTT entries for a VF. Whatever the VF asks for, an entry the PF changes is
    present and belongs to that VF, lies among the [count + copies] entries from the
    requested offset of the VF's region, and the [count] requested entries lie inside the
    region (so with no copies nothing outside the region changes); on success exactly
    [count + copies] entries were written, on other results the reply is a negative error. *)
Theorem pf_update_vf_ptes_owned g vfid off mode copies ptes d :
  let r := ggtt_region (cfg d g vfid) in
  let first := start r / PAGE_SIZE + off in
  let count := Z.of_nat (length ptes) in
  (vfid < 8)%nat -> 0 <= start r -> 0 < size r -> start r + size r <= 2 ^ 32 ->
  (PAGE_SIZE | start r) -> (PAGE_SIZE | size r) -> 0 <= off < 2 ^ 32 -> 0 <= copies -> copies + count < 65536 ->
  let '(ret, d') := intel_iov_ggtt_pf_update_vf_ptes g vfid off mode copies ptes d in
  (ret < 0 \/ ret = count + copies) /\
  forall i, d_ptes d' i <> d_ptes d i ->
    pte_vfid (d_ptes d' i) = Z.of_nat vfid /\ pte_present (d_ptes d' i) = true /\
    first <= i < first + count + copies /\
    (first + count) * PAGE_SIZE <= start r + size r.
Proof.
  intros r first count Hv Hs Hsz Hreg Hsr Hz Ho Hc Hn. apply wp_let, wp_pf_update_owned; try done.
  intros ret d' Hret Hown Hin. split; [done|]. intros i Hi. destruct (Hown i Hi) as (?&?&?).
  destruct Hin as [He|]; [by rewrite He in Hi|done].
Qed.
End properties.

(** ** Samples *)

Definition sample_node (s n : Z) : drm_mm_node := {| allocated := true; start := s; size := n |}.

Section witnesses.
#[local] Existing Instance sample_env.

(** VF1 has the page 0x200, VF2 the page 0x201; the shadows are in use. *)
Definition sample_two_vfs : dev :=
  upd_ggtt (d_mm sample_dev)
    (set_ptes 0x200 [i915_ggtt_prepare_vf_pte 1; i915_ggtt_prepare_vf_pte 2] (fun _ => 0))
    (Some (replicate 5 shadow0))
    (upd_cfg GT_PRIMARY 1 (set_region (sample_node 0x200000 0x1000))
      (upd_cfg GT_PRIMARY 2 (set_region (sample_node 0x201000 0x1000)) sample_dev)).

(** VF3 has the two pages 0x300 and 0x301 and a shadow page table. *)
Definition sample_shadowed : dev :=
  upd_ggtt (d_mm sample_dev) (fun _ => 0)
    (Some (<[3%nat := {| shadow_ptes := Some [0; 0]; shadow_region := Some 3%nat; shadow_vfid := 3 |}]>
      (replicate 5 shadow0)))
    (upd_cfg GT_PRIMARY 3 (set_region (sample_node 0x300000 0x2000)) sample_dev).

Lemma set_space_owner_owns_witness :
  let '(_, d') := i915_ggtt_set_space_owner 3 (sample_node 0x300000 0x2000) sample_dev in
  pte_vfid (d_ptes d' 0x301) = 3.
Proof.
  pose proof (set_space_owner_owns 3 (sample_node 0x300000 0x2000) sample_dev 0x301
    eq_refl ltac:(lia) ltac:(done) ltac:(done) ltac:(by exists 0x300) ltac:(by exists 2)) as Hw.
  destruct (i915_ggtt_set_space_owner 3 _ sample_dev). apply Hw.
Defined.

Lemma pf_update_vf_ptes_owned_witness :
  let '(ret, d') := intel_iov_ggtt_pf_update_vf_ptes GT_PRIMARY 3 1 0 0 [0x5000] sample_shadowed in
  ret < 0 \/ ret = 1.
Proof.
  pose proof (pf_update_vf_ptes_owned GT_PRIMARY 3 1 0 0 [0x5000] sample_shadowed
    ltac:(lia) ltac:(done) ltac:(done) ltac:(done) ltac:(by exists 0x300) ltac:(by exists 2)
    ltac:(done) ltac:(done) ltac:(done)) as Hw.
  destruct (intel_iov_ggtt_pf_update_vf_ptes _ _ _ _ _ _ _). apply Hw.
Defined.

(** The range check of [intel_iov_ggtt_pf_update_vf_ptes] ignores the copies: VF1, whose
    region is the single page 0x200, asks for its first entry replicated once and takes over
    page 0x201, which belonged to VF2. *)
Theorem update_copies_overrun :
  let '(ret, d') := intel_iov_ggtt_pf_update_vf_ptes GT_PRIMARY 1 0
    MMIO_UPDATE_GGTT_MODE_REPLICATE 1 [0x5000] sample_two_vfs in
  ret = 2 /\ pte_vfid (d_ptes sample_two_vfs 0x201) = 2 /\ pte_vfid (d_ptes d' 0x201) = 1 /\
  pte_addr (d_ptes d' 0x201) = 6.
Proof. vm_compute. done. Qed.

(** [sgtable_update_shadow_ggtt] never advances its address over a scatter list: after a
    VF updates two entries, the page table holds both but its shadow holds the second entry in
    the first slot and nothing in the second. *)
Theorem shadow_update_one_slot :
  let '(ret, d') := intel_iov_ggtt_pf_update_vf_ptes GT_PRIMARY 3 0
    MMIO_UPDATE_GGTT_MODE_DUPLICATE 0 [0x5000; 0x9000] sample_shadowed in
  ret = 2 /\
  d_ptes d' 0x300 <> d_ptes d' 0x301 /\ pte_addr (d_ptes d' 0x301) = 9 /\
  intel_iov_ggtt_shadow_get_pte 3 0x300000 d' = d_ptes d' 0x301 /\
  intel_iov_ggtt_shadow_get_pte 3 0x301000 d' = 0.
Proof. vm_compute. done. Qed.
End witnesses.

(** An environment like the sample one whose GGTT updates must go through the GPU and fail. *)
Definition sample_env_binder : Env := {|
  env_gtt := sample_gtt; has_media_gt := true; env_alloc _ := true; env_vma _ := 0;
  env_vma_addr _ := 0x100000; guc_reply _ _ := 1; ggtt_pin_bias := 0x100000;
  ggtt_total := sample_total; wopcm_guc_size _ := 0x100000;
  require_binder := true; bind_ready _ := true; bind_fails_after _ := Some 0%nat; scratch_pte := 1 |}.

(** When the binder is required and ready, a failed GPU update is taken for a done one:
    [i915_ggtt_set_space_owner] returns without writing the entries, which keep their previous
    owner. *)
Theorem set_space_owner_binder_failure `{E : Env} vfid node d :
  PAGE_SIZE <= size node -> require_binder = true -> bind_ready (d_ticks d) = true -> bind_fails_after (d_ticks d) = Some 0%nat ->
  let '(_, d') := i915_ggtt_set_space_owner vfid node d in forall i, d_ptes d' i = d_ptes d i.
Proof.
  intros Hsz Hb Hr Hf. apply wp_let, wp_bind, wp_gets, wp_bind. rewrite Hb, Hr. simpl.
  apply wp_bind, wp_gets, wp_bind. rewrite Hr. unfold gen8_ggtt_bind_ptes, bind_values.
  rewrite length_replicate.
  assert (0 < Z.to_nat (size node / PAGE_SIZE))%nat as Hn.
  { unfold PAGE_SIZE in *. apply Z2Nat.inj_lt with (n := 0); dlia. }
  destruct (Z.to_nat (size node / PAGE_SIZE)) as [|n]; [lia|]. cbn [bind_batches replicate].
  apply wp_bind, wp_gets, wp_bind, wp_modify. rewrite Hf.
  apply wp_bind, wp_modify, wp_ret, wp_bind, wp_ret, wp_ret. done.
Qed.

Lemma set_space_owner_binder_failure_witness :
  let '(_, d') := @i915_ggtt_set_space_owner sample_env_binder 1 (sample_node 0x200000 0x1000)
    {| d_prov _ := sample_prov; d_totalvfs := 4; d_numvfs := 0; d_status := 4;
       d_disable_auto := false; d_ids_in_use _ := 0; d_num_guc_ids _ := 0;
       d_mm := ([] : list (Z * Z)) : @gtt_space (@env_gtt sample_env_binder);
       d_ptes _ := 7; d_shadows := None; d_log := []; d_ticks := 0; d_live := 0 |} in
  forall i, d_ptes d' i = 7.
Proof. apply (@set_space_owner_binder_failure sample_env_binder); done. Defined.

(** ** What the updates leave alone *)

Section keeps.
Context `{E : Env}.

Definition keeps_conf (m : st dev unit) : Prop :=
  forall d, same_conf d (snd (m d)) /\ d_mm (snd (m d)) = d_mm d /\ d_log (snd (m d)) = d_log d.

Lemma keeps_bind m k : keeps_conf m -> keeps_conf (k tt) -> keeps_conf (m ≫= k).
Proof.
  intros Hm Hk d. unfold mbind, st_bind. destruct (Hm d) as (H1 & H2 & H5).
  destruct (m d) as [[] d1]. destruct (Hk d1) as (H3 & H4 & H6). simpl in *.
  split_and!; [by etransitivity|congruence|congruence].
Qed.

Lemma keeps_shadow_set vfid a p : keeps_conf (intel_iov_ggtt_shadow_set_pte vfid a p).
Proof. intros d. unfold intel_iov_ggtt_shadow_set_pte, modify. simpl. by destruct (d_shadows d). Qed.

Lemma keeps_shadow_update vfid a sg n p : keeps_conf (sgtable_update_shadow_ggtt vfid a sg n p).
Proof.
  destruct sg as [addrs|]; simpl.
  - induction addrs as [|x addrs IH]; [done|].
    by apply keeps_bind; [apply keeps_shadow_set|].
  - generalize (Z.to_nat n) as k. intros k. revert a. induction k as [|k IH]; intros a; [done|].
    apply keeps_bind; [apply keeps_shadow_set|apply IH].
Qed.

Lemma bind_batches_keeps fuel offset vals d :
  let d' := snd (bind_batches fuel offset vals d) in same_conf d d' /\ d_mm d' = d_mm d /\ d_log d' = d_log d.
Proof.
  revert offset vals d. induction fuel as [|fuel IH]; intros offset [|v vals] d; try done.
  cbn [bind_batches]. unfold mbind, st_bind, gets, modify. simpl.
  destruct (bind_fails_after (d_ticks d)); [done|].
  destruct (IH (offset + Z.of_nat (length (take bind_batch (v :: vals))))
    (drop bind_batch (v :: vals)) (set_table (set_ptes offset (take bind_batch (v :: vals)) (d_ptes d))
      (upd_hw (d_log d) (S (d_ticks d)) (d_live d) d))) as (H1 & H2 & H5).
  split_and!; [|exact H2|exact H5]. etransitivity; [|exact H1]. by constructor.
Qed.

Lemma update_ptes_keeps vfid a sg n p d :
  let d' := snd (i915_ggtt_sgtable_update_ptes vfid a sg n p d) in
  same_conf d d' /\ d_mm d' = d_mm d /\ d_log d' = d_log d.
Proof.
  unfold i915_ggtt_sgtable_update_ptes, gets, mbind, st_bind.
  set (m := if bind_ready (d_ticks d) then _ else _).
  assert (same_conf d (snd (m d)) /\ d_mm (snd (m d)) = d_mm d /\ d_log (snd (m d)) = d_log d) as (H1 & H2 & H5).
  { unfold m. destruct (bind_ready _); [|done]. apply bind_batches_keeps. }
  destruct (m d) as [ret d1]. simpl in *.
  destruct ((0 <? ret) && negb (vfid =? PFID)%nat); [|done].
  destruct (keeps_shadow_update vfid a sg n p d1) as (H3 & H4 & H6).
  destruct (sgtable_update_shadow_ggtt vfid a sg n p d1) as [[] d2]. simpl in *.
  split_and!; [by etransitivity|congruence|congruence].
Qed.

Lemma pf_update_keeps g vfid off mode copies ptes d :
  let d' := snd (intel_iov_ggtt_pf_update_vf_ptes g vfid off mode copies ptes d) in
  same_conf d d' /\ d_log d' = d_log d.
Proof.
  assert (forall d', d_log d' = d_log d -> same_conf d d' -> same_conf d d' /\ d_log d' = d_log d) as Hs by done.
  unfold intel_iov_ggtt_pf_update_vf_ptes, get_cfg, gets, kvzalloc, mbind, st_bind.
  cbn beta iota zeta. case_match; [done|]. case_match; [done|].
  destruct (env_alloc (d_ticks d)); cbn [negb]; [|by apply Hs; constructor].
  match goal with |- context [env_alloc ?n] => destruct (env_alloc n); cbn [negb];
    [|by apply Hs; constructor] end.
  case_match; [|by apply Hs; constructor].
  match goal with |- context [i915_ggtt_sgtable_update_ptes ?v ?a ?sg ?n ?p ?d1] =>
    destruct (update_ptes_keeps v a sg n p d1) as (Hk & _ & Hl);
    destruct (i915_ggtt_sgtable_update_ptes v a sg n p d1) as [ret d2] end.
  simpl in Hk, Hl |- *. apply Hs; [by rewrite Hl|]. etransitivity; [|exact Hk]. by constructor.
Qed.
End keeps.
