(* ===== verification/GgttProv.v ===== *)
(** * Provisioning of the GGTT

    [pf_provision_ggtt] and what it uses in gt/iov/intel_iov_provisioning.c: the quotas over the
    holes of the range manager, the allocation, ownership, shadow and push of a VF's region with
    their roll-back, and the invariant that the VFs' regions are disjoint, aligned and owned. *)

From S2P Require Export Ggtt.

(** ** Operations *)

(** i915_utils.h: whether rounding [a] up to the power of two [b] overflows, and the result. *)
Definition check_round_up_overflow (a b : Z) : bool * Z :=
  if a =? 0 then (false, 0)
  else let r := Z.lor (a - 1) (b - 1) + 1 in (U64_MAX <? r, u64 r).

Definition GUC_GGTT_TOP : Z := 0xFEE00000.
Definition SZ_64M : Z := 0x04000000.
Definition SZ_4K : Z := 0x1000.

Definition pf_get_ggtt_alignment : Z := SZ_4K.
Definition pf_get_min_spare_ggtt : Z := SZ_64M.

Section ops.
Context `{E : Env}.

Definition pf_get_spare_ggtt (g : gt_id) (d : dev) : Z :=
  Z.max (spare_ggtt_size (spare (d_prov d g))) pf_get_min_spare_ggtt.
Definition intel_iov_provisioning_get_spare_ggtt (g : gt_id) (d : dev) : Z := pf_get_spare_ggtt g d.

Definition with_spare_ggtt (n : Z) (s : intel_iov_spare_config) : intel_iov_spare_config :=
  {| spare_ggtt_size := n; spare_num_ctxs := spare_num_ctxs s; spare_num_dbs := spare_num_dbs s |}.

Definition intel_iov_provisioning_set_spare_ggtt (g : gt_id) (sz : Z) : st dev Z :=
  if negb (sz =? 0) && (sz <? pf_get_min_spare_ggtt) then mret (- EINVAL) else
  let '(overflow, r) := check_round_up_overflow sz pf_get_ggtt_alignment in
  let sz := if overflow then U64_MAX else r in
  mod_prov g (fun p => set_spare (with_spare_ggtt sz (spare p)) p) ≫= fun _ => mret 0.

(** The usable part of a hole: above the pin bias, in whole pages. *)
Definition clip_hole (h : Z * Z) : option Z :=
  let hole_start := ALIGN (Z.max h.1 ggtt_pin_bias) pf_get_ggtt_alignment in
  let hole_end := ALIGN_DOWN h.2 pf_get_ggtt_alignment in
  if hole_start >=? hole_end then None else Some (hole_end - hole_start).

Definition hole_sizes (d : dev) : list Z := omap clip_hole (mm_holes (d_mm d)).

Definition pf_get_free_ggtt (g : gt_id) (d : dev) : Z :=
  let sp := pf_get_spare_ggtt g d in
  let free := foldl (fun free sz => u64 (free + sz)) 0 (hole_sizes d) in
  if free >? sp then free - sp else 0.

Definition pf_get_max_ggtt (g : gt_id) (d : dev) : Z :=
  reserve_left (foldl reserve_step (pf_get_spare_ggtt g d, 0) (hole_sizes d)).

Definition pf_is_valid_config_ggtt (g : gt_id) (id : nat) (d : dev) : bool :=
  allocated (ggtt_region (cfg d g id)).

Definition __pf_push_config_ggtt (g : gt_id) (id : nat) (base sz : Z) : st dev Z :=
  needs ← gets (pf_needs_push_config g id);
  if negb needs then mret 0 else
  err ← guc_update_vf_klv64 g id GUC_KLV_VF_CFG_GGTT_SIZE_KEY sz;
  if negb (err =? 0) then mret err else
  err ← guc_update_vf_klv64 g id GUC_KLV_VF_CFG_GGTT_START_KEY base;
  if negb (err =? 0) then mret err else mret 0.

Definition pf_push_config_ggtt (g : gt_id) (id : nat) (base sz : Z) : st dev Z :=
  err ← __pf_push_config_ggtt g id base sz;
  err2 ← (if has_media_gt then __pf_push_config_ggtt GT_MEDIA id base sz else mret 0);
  mret (elvis err err2).

(** The statements at the [release] label, up to the check of [err]. *)
Definition pf_release_ggtt (g : gt_id) (id : nat) : st dev unit :=
  node ← gets (fun d => ggtt_region (cfg d g id));
  i915_ggtt_set_space_owner PFID node ≫= fun _ =>
  intel_iov_ggtt_shadow_vf_free id ≫= fun _ =>
  modify (fun d => set_mm (drm_mm_remove_node (d_mm d) (start node, size node)) d) ≫= fun _ =>
  mod_cfg g id (set_region {| allocated := false; start := start node; size := size node |}).

(** [i915_gem_gtt_insert] on the VF's node. *)
Definition pf_insert_ggtt (g : gt_id) (id : nat) (sz : Z) : st dev Z := fun d =>
  let '(err, s, m) := i915_gem_gtt_insert (d_mm d) sz pf_get_ggtt_alignment ggtt_pin_bias GUC_GGTT_TOP in
  if err =? 0
  then (0, upd_cfg g id (set_region {| allocated := true; start := s; size := sz |}) (set_mm m d))
  else (err, set_mm m d).

Definition pf_release_err (g : gt_id) (id : nat) (err : Z) : st dev Z :=
  pf_release_ggtt g id ≫= fun _ => mret err.

(** The part after the node is inserted. *)
Definition pf_fill_ggtt (g : gt_id) (id : nat) : st dev Z :=
  node ← gets (fun d => ggtt_region (cfg d g id));
  err ← intel_iov_ggtt_shadow_vf_alloc id node;
  if negb (err =? 0) then pf_release_err g id err else
  i915_ggtt_set_space_owner id node ≫= fun _ =>
  err ← pf_push_config_ggtt g id (start node) (size node);
  if negb (err =? 0) then pf_release_err g id err else mret 0.

(** The part after the old region was given up. *)
Definition pf_take_ggtt (g : gt_id) (id : nat) (sz : Z) : st dev Z :=
  if sz =? 0 then mret 0 else
  if sz >? ggtt_total then mret (- E2BIG) else
  max ← gets (pf_get_max_ggtt g);
  if sz >? max then mret (- EDQUOT) else
  err ← pf_insert_ggtt g id sz;
  if negb (err =? 0) then mret err else pf_fill_ggtt g id.

Definition pf_provision_ggtt (g : gt_id) (id : nat) (sz : Z) : st dev Z :=
  if decide (g = GT_MEDIA) then mret (- ENODEV) else
  let '(overflow, sz) := check_round_up_overflow sz pf_get_ggtt_alignment in
  if overflow : bool then mret (- EOVERFLOW) else
  node ← gets (fun d => ggtt_region (cfg d g id));
  if allocated node then
    if sz =? size node then mret 0 else
    err ← pf_push_config_ggtt g id 0 0;
    pf_release_ggtt g id ≫= fun _ =>
    if negb (err =? 0) then mret err else pf_take_ggtt g id sz
  else pf_take_ggtt g id sz.

Definition intel_iov_provisioning_set_ggtt (g : gt_id) (id : nat) (sz : Z) : st dev Z :=
  valid ← gets (pf_is_valid_config_ggtt g id);
  let reprovisioning := valid || negb (sz =? 0) in
  err ← pf_provision_ggtt g id sz;
  mark_manual_if ((err =? 0) && reprovisioning) ≫= fun _ => mret err.

Definition intel_iov_provisioning_get_ggtt (g : gt_id) (id : nat) (d : dev) : Z :=
  let node := ggtt_region (cfg d GT_PRIMARY id) in
  if allocated node then size node else 0.

Definition intel_iov_provisioning_query_free_ggtt (g : gt_id) (d : dev) : Z := pf_get_free_ggtt g d.
Definition intel_iov_provisioning_query_max_ggtt (g : gt_id) (d : dev) : Z := pf_get_max_ggtt g d.
End ops.

(** ** Rounding and quotas *)

Lemma lor_pow2_round a k :
  0 <= k -> 0 <= a -> Z.lor a (2 ^ k - 1) + 1 = 2 ^ k * (a / 2 ^ k + 1).
Proof.
  intros Hk Ha. replace (2 ^ k - 1) with (Z.ones k) by (rewrite Z.ones_equiv; lia).
  assert (Z.lor a (Z.ones k) = Z.ldiff a (Z.ones k) + Z.ones k) as ->.
  { rewrite Z.add_nocarry_lxor; apply Z.bits_inj'; intros n Hn;
      rewrite ?Z.lor_spec, ?Z.land_spec, ?Z.lxor_spec, ?Z.ldiff_spec, ?Z.bits_0;
      by destruct (Z.testbit a n), (Z.testbit (Z.ones k) n). }
  rewrite Z.ldiff_ones_r, Z.shiftl_mul_pow2, Z.shiftr_div_pow2, Z.ones_equiv by lia. lia.
Qed.

(** Rounding up: never below the argument, a multiple, less than a page above. *)
Lemma round_up_spec a :
  is_u64 a ->
  let '(overflow, r) := check_round_up_overflow a pf_get_ggtt_alignment in
  overflow = (2 ^ 64 - 4096 <? a) /\
  (overflow = false -> a <= r < a + 4096 /\ (4096 | r) /\ r < 2 ^ 64).
Proof.
  unfold is_u64, check_round_up_overflow, pf_get_ggtt_alignment, SZ_4K, U64_MAX. intros Ha.
  destruct (Z.eqb_spec a 0) as [->|Hne]; [split; [done|]; intros _; split_and!; try done; by exists 0|].
  change 0x1000 with (2 ^ 12). rewrite lor_pow2_round by lia. change (2 ^ 12) with 4096.
  assert (2 ^ 64 = 4096 * 2 ^ 52) as H64 by reflexivity.
  split.
  - destruct (Z.ltb_spec (2 ^ 64 - 1) (4096 * ((a - 1) / 4096 + 1))),
      (Z.ltb_spec (2 ^ 64 - 4096) a); try done; exfalso; dlia.
  - intros Hov. propify. rewrite u64_small by dlia. split_and!; [dlia|dlia| |lia].
    by exists ((a - 1) / 4096 + 1); lia.
Qed.

Section quota.
Context `{E : Env}.

Lemma hole_sizes_pos d : Forall (fun s => 0 <= s) (hole_sizes d).
Proof.
  apply list.Forall_forall. intros s (h & _ & Hs)%list_elem_of_omap. unfold clip_hole in Hs.
  case_match; [done|]. propify. injection Hs as <-. lia.
Qed.

Lemma spare_ggtt_pos g d : 0 <= pf_get_spare_ggtt g d.
Proof. unfold pf_get_spare_ggtt, pf_get_min_spare_ggtt, SZ_64M. lia. Qed.

Lemma max_ggtt_spec g d :
  pf_get_max_ggtt g d =
    Z.min (maxZ (hole_sizes d)) (Z.max 0 (sumZ (hole_sizes d) - pf_get_spare_ggtt g d)).
Proof. apply reserve_left_spec; [apply spare_ggtt_pos|apply hole_sizes_pos]. Qed.

Lemma sum_u64 l acc :
  Forall (fun s => 0 <= s) l -> 0 <= acc -> acc + sumZ l < 2 ^ 64 ->
  foldl (fun free sz => u64 (free + sz)) acc l = acc + sumZ l.
Proof.
  intros Hl. revert acc. induction Hl as [|s l Hs Hl IH]; intros acc Ha Hb; unfold sumZ in *; simpl in *; [lia|].
  pose proof (sumZ_nonneg l Hl) as Hp. unfold sumZ in Hp. rewrite u64_small, IH by lia. lia.
Qed.

(** The part of a hole that counts: inside the hole, above the pin bias, in whole pages. *)
Lemma clip_hole_inside `{!EnvLaws E} hs he s :
  0 <= hs -> hs + 4096 < 2 ^ 64 -> ggtt_pin_bias + 4096 < 2 ^ 64 -> is_u64 he -> clip_hole (hs, he) = Some s ->
  exists a, hs <= a /\ ggtt_pin_bias <= a /\ a + s <= he /\ (4096 | a) /\ (4096 | s) /\ 0 < s.
Proof.
  unfold clip_hole, pf_get_ggtt_alignment, SZ_4K, is_u64. simpl. intros Hs Hs' Hp He Hc.
  change 0x1000 with (2 ^ 12) in Hc. destruct env_pin_bias as [Hb0 _].
  rewrite ALIGN_pow2, ALIGN_DOWN_pow2 in Hc by (change (2 ^ 12) with 4096; lia).
  change (2 ^ 12) with 4096 in Hc.
  case_match; [done|]. propify. injection Hc as <-.
  exists (4096 * ((Z.max hs ggtt_pin_bias + (4096 - 1)) / 4096)).
  split_and!; try dlia; [by eexists; rewrite Z.mul_comm|].
  rewrite <- Z.mul_sub_distr_l. by eexists; rewrite Z.mul_comm.
Qed.
End quota.

(** ** The invariant *)

Section inv.
Context `{E : Env}.

(** A region as the range manager may hand it out. *)
Definition region_ok (n : drm_mm_node) : Prop :=
  ggtt_pin_bias <= start n /\ 0 < size n /\ start n + size n <= GUC_GGTT_TOP /\
  (4096 | start n) /\ (4096 | size n).

Definition node_range (n : drm_mm_node) : Z * Z := (start n, size n).

(** The pages of the region belong to the VF. *)
Definition region_owned (d : dev) (vfid : nat) (n : drm_mm_node) : Prop :=
  forall i, start n <= i * PAGE_SIZE < start n + size n ->
    pte_vfid (d_ptes d i) = Z.of_nat vfid /\ pte_present (d_ptes d i) = true.

Definition region (d : dev) (id : nat) : drm_mm_node := ggtt_region (cfg d GT_PRIMARY id).
Definition has_region (d : dev) (id : nat) : Prop :=
  (1 <= id <= d_totalvfs d)%nat /\ allocated (region d id) = true.

(** Ownership gets into the page table when no binder is required or it does not fail: one that
    fails is taken for one that has done its work ([set_space_owner_binder_failure]). *)
Definition owners_written : Prop := require_binder = false \/ forall n, bind_fails_after n = None.

(** The invariant, but for the ownership of the region of VF [x] (none for the PF). *)
Record ggtt_inv_ex (x : nat) (d : dev) : Prop := {
  gi_len : length (configs (d_prov d GT_PRIMARY)) = S (d_totalvfs d);
  gi_total : (d_totalvfs d < 8)%nat;
  gi_region id : has_region d id -> region_ok (region d id);
  gi_pinned id : has_region d id -> node_range (region d id) ∈ mm_pinned (d_mm d);
  gi_disj id id' : has_region d id -> has_region d id' -> id <> id' ->
    ranges_disj (node_range (region d id)) (node_range (region d id'));
  gi_owned id : owners_written -> id <> x -> has_region d id ->
    region_owned d id (region d id);
}.
Definition ggtt_inv : dev -> Prop := ggtt_inv_ex PFID.

Lemma ggtt_inv_weaken x d : ggtt_inv d -> ggtt_inv_ex x d.
Proof.
  intros []. constructor; try done. intros id Hb _ Hid. apply gi_owned0; try done.
  destruct Hid as [[? _] _]. unfold PFID. lia.
Qed.

Lemma ggtt_inv_strengthen x d :
  ggtt_inv_ex x d -> (owners_written -> has_region d x -> region_owned d x (region d x)) ->
  ggtt_inv d.
Proof.
  intros [] Hx. constructor; try done. intros id Hb _ Hid.
  destruct (decide (id = x)) as [->|]; auto.
Qed.

(** A state that keeps the configurations, the VFs' nodes and their entries. *)
Lemma ggtt_inv_step x d d' :
  ggtt_inv_ex x d -> same_conf d d' ->
  (forall id, has_region d id -> node_range (region d id) ∈ mm_pinned (d_mm d')) ->
  (forall id, owners_written -> id <> x -> has_region d id ->
     region_owned d' id (region d id)) ->
  ggtt_inv_ex x d'.
Proof.
  intros I Hs Hpin Hown. pose proof (conf_cfg d d' GT_PRIMARY) as Hc.
  assert (forall id, region d' id = region d id) as Hr by (intros; unfold region; by rewrite Hc).
  assert (forall id, has_region d' id -> has_region d id) as Hh
    by (intros id []; split; [by rewrite <- (conf_total _ _ Hs)|by rewrite <- Hr]).
  destruct I. constructor; try (intros; rewrite ?Hr; by auto).
  - by rewrite (conf_prov _ _ Hs), (conf_total _ _ Hs).
  - by rewrite (conf_total _ _ Hs).
Qed.

Lemma ggtt_inv_same d d' : same_pf d d' -> d_live d' = d_live d -> ggtt_inv d -> ggtt_inv d'.
Proof.
  intros Hs Hl I. apply (ggtt_inv_step PFID d); [done|by apply same_pf_conf|..].
  - intros i Hi. rewrite (same_mm _ _ Hs). by apply (gi_pinned _ _ I).
  - intros i Hbd Hx Hi j. rewrite (same_ptes _ _ Hs). by apply (gi_owned _ _ I).
Qed.

(** Changing the region of one VF. *)
Lemma ggtt_inv_upd x d id n :
  ggtt_inv_ex x d -> (1 <= id <= d_totalvfs d)%nat ->
  (allocated n = true -> region_ok n /\ node_range n ∈ mm_pinned (d_mm d) /\
     (forall id', has_region d id' -> id' <> id -> ranges_disj (node_range n) (node_range (region d id'))) /\
     (owners_written -> id <> x -> region_owned d id n)) ->
  ggtt_inv_ex x (upd_cfg GT_PRIMARY id (set_region n) d).
Proof.
  intros [Hlen Htot Hreg Hpin Hdisj Hown] Hid Hn. set (d' := upd_cfg _ _ _ d).
  assert (region d' id = n) as Heq by (unfold region, d'; by rewrite cfg_upd_eq by (rewrite Hlen; lia)).
  assert (forall i, i <> id -> region d' i = region d i) as Hne
    by (intros; unfold region, d'; by rewrite cfg_upd_ne by auto).
  assert (forall i, i <> id -> has_region d' i -> has_region d i) as Hh
    by (intros i Hi [H1 H2]; split; [done|by rewrite <- Hne]).
  assert (has_region d' id -> allocated n = true) as Ha by (intros [_ H2]; by rewrite <- Heq).
  constructor.
  - unfold d'. by rewrite length_configs_upd.
  - done.
  - intros i Hi. destruct (decide (i = id)) as [->|]; [rewrite Heq; tauto|rewrite Hne by done; auto].
  - intros i Hi. destruct (decide (i = id)) as [->|]; [rewrite Heq; by apply Hn, Ha|].
    rewrite Hne by done. by apply Hpin, Hh.
  - intros i i' Hi Hi' Hii.
    destruct (decide (i = id)) as [->|], (decide (i' = id)) as [->|]; [done|..].
    + rewrite Heq, Hne by done. apply Hn; auto.
    + rewrite Heq, Hne by done. apply or_comm, Hn; auto.
    + rewrite !Hne by done. apply Hdisj; auto.
  - intros i Hb Hx Hi j. destruct (decide (i = id)) as [->|].
    + rewrite Heq. apply Hn; auto.
    + rewrite Hne by done. apply Hown; auto.
Qed.
End inv.

(** ** The steps of provisioning *)

Section steps.
Context `{E : Env} `{!EnvLaws E}.

Lemma call_push_ggtt1 g id b s : guc_call (__pf_push_config_ggtt g id b s).
Proof using Type*.
  intros d. apply wp_bind, wp_gets. apply wp_if; intros _; [by apply wp_ret|].
  apply guc_call_seq; [apply call_klv64|]. apply guc_call_seq; [apply call_klv64|]. apply call_ret0.
Qed.

Lemma call_push_ggtt g id b s : guc_call (pf_push_config_ggtt g id b s).
Proof using Type*.
  intros d. apply wp_bind. eapply wp_mono; [apply call_push_ggtt1|].
  intros err d1 (Hs1 & Hl1 & He1 & HW1). apply wp_bind.
  assert (guc_call (if has_media_gt then __pf_push_config_ggtt GT_MEDIA id b s else mret 0)) as Hm
    by (destruct has_media_gt; [apply call_push_ggtt1|apply call_ret0]).
  eapply wp_mono; [apply Hm|]. intros err2 d2 (Hs2 & Hl2 & He2 & HW2). apply wp_ret.
  unfold elvis. split_and!; [by etransitivity|congruence|by destruct (err =? 0)|].
  intros HW. by rewrite HW1, HW2.
Qed.

(** Writing the ownership of a node. *)
Lemma wp_set_owner vfid n (Q : unit -> dev -> Prop) d :
  (forall d', same_conf d d' -> d_mm d' = d_mm d ->
     (owners_written -> forall i,
        d_ptes d' i = set_ptes (Z.shiftr (start n) PAGE_SHIFT)
          (replicate (Z.to_nat (size n / PAGE_SIZE)) (i915_ggtt_prepare_vf_pte (Z.of_nat vfid)))
          (d_ptes d) i) ->
     Q tt d') ->
  wp (i915_ggtt_set_space_owner vfid n) Q d.
Proof.
  intros HQ. apply wp_bind, wp_gets, wp_bind. cbv zeta.
  set (pte := i915_ggtt_prepare_vf_pte (Z.of_nat vfid)) in *. set (l := replicate _ pte) in *.
  assert (forall ret d1, same_conf d d1 -> d_mm d1 = d_mm d ->
    (owners_written -> ret = 0 /\ (d1 = d \/ d_ptes d1 = set_ptes (Z.shiftr (start n) PAGE_SHIFT) l (d_ptes d))) ->
    wp (if negb (ret =? 0) then mret tt else
      modify (fun d => set_table (set_ptes (Z.shiftr (start n) PAGE_SHIFT) l (d_ptes d)) d)) Q d1) as Hrest.
  { intros ret d1 Hs Hm Hb. apply wp_if; intros Hr; propify.
    - apply wp_ret, HQ; [done..|]. intros Hnb. destruct (Hb Hnb). lia.
    - apply wp_modify, HQ; [etransitivity; [exact Hs|by constructor]|done|].
      intros Hnb i. destruct (Hb Hnb) as [_ [-> | Ht]]; [done|]. cbn. rewrite Ht, !set_ptes_lookup. by case_decide. }
  assert (forall d1, d1 = d -> wp (mret 0) (fun ret d1 => wp (if negb (ret =? 0) then mret tt else
      modify (fun d => set_table (set_ptes (Z.shiftr (start n) PAGE_SHIFT) l (d_ptes d)) d)) Q d1) d1) as H0.
  { intros d1 ->. apply wp_ret, Hrest; [done|done|]. intros _. split; [done|by left]. }
  destruct require_binder eqn:Hrb; cbn [andb]; [|by apply H0].
  apply wp_if; intros Hbind; [|by apply H0].
  pose proof (update_ptes_keeps vfid (start n) None (size n / PAGE_SIZE) pte d) as (Hk1 & Hk2 & _).
  apply run_wp. intros ret d1 Hrun. rewrite Hrun in Hk1, Hk2. apply Hrest; [done|done|].
  intros [Hno|Hf]; [congruence|].
  apply (wp_run _ (fun ret d1 => ret = 0 /\ (d1 = d \/ d_ptes d1 = set_ptes (Z.shiftr (start n) PAGE_SHIFT) l (d_ptes d))) _ _ _ Hrun).
  apply wp_update_ptes_fill; [done|done|]. intros d' Ht. split; [done|by right].
Qed.

Lemma wp_shadow_alloc id n (Q : Z -> dev -> Prop) d :
  (forall ret d', same_conf d d' -> d_mm d' = d_mm d -> d_ptes d' = d_ptes d -> ret <= 0 ->
     (EnvWorks E -> ret = 0) -> Q ret d') ->
  wp (intel_iov_ggtt_shadow_vf_alloc id n) Q d.
Proof.
  intros HQ. apply wp_bind, wp_gets. destruct (d_shadows d) as [shadows|]; [|by apply wp_ret, HQ].
  apply wp_bind. unfold wp at 1; simpl. apply wp_if; intros Ha; propify.
  - apply wp_ret, HQ; try done. intros HW. by rewrite works_alloc in Ha.
  - apply wp_bind, wp_modify, wp_ret, HQ; done.
Qed.

Lemma wp_shadow_free id (Q : unit -> dev -> Prop) d :
  (forall d', same_conf d d' -> d_mm d' = d_mm d -> d_ptes d' = d_ptes d -> Q tt d') ->
  wp (intel_iov_ggtt_shadow_vf_free id) Q d.
Proof. intros HQ. apply wp_modify. destruct (d_shadows d); by apply HQ. Qed.

(** Pages outside the written node keep their owner. *)
Lemma region_owned_set t vfid n (d d' : dev) id m :
  region_ok n -> region_ok m -> 0 <= ggtt_pin_bias -> ranges_disj (node_range n) (node_range m) ->
  (forall i, d_ptes d' i = set_ptes (Z.shiftr (start n) PAGE_SHIFT)
    (replicate (Z.to_nat (size n / PAGE_SIZE)) (i915_ggtt_prepare_vf_pte vfid)) t i) ->
  d_ptes d = t -> region_owned d id m -> region_owned d' id m.
Proof.
  intros (Hb & Hp & He & [a Ha] & [b Hbs]) (Hb' & Hp' & He' & _) Hbias Hdisj Ht <- Hown i Hi.
  rewrite Ht, set_ptes_outside; [by apply Hown|].
  rewrite length_replicate, Ha, Hbs, Z.shiftr_div_pow2 by done.
  change (2 ^ PAGE_SHIFT) with 4096. unfold PAGE_SIZE in *. rewrite !Z.div_mul by done.
  destruct Hdisj; simpl in *; lia.
Qed.

(** The pages of the written node. *)
Lemma region_owned_new t (id : nat) n (d' : dev) :
  region_ok n -> (id < 8)%nat ->
  (forall i, d_ptes d' i = set_ptes (Z.shiftr (start n) PAGE_SHIFT)
    (replicate (Z.to_nat (size n / PAGE_SIZE)) (i915_ggtt_prepare_vf_pte (Z.of_nat id))) t i) ->
  region_owned d' id n.
Proof.
  intros (Hb & Hp & He & [a Ha] & [b Hbs]) Hid Ht i Hi. rewrite Ht, set_ptes_lookup.
  rewrite length_replicate, Ha, Hbs, Z.shiftr_div_pow2 by done.
  change (2 ^ PAGE_SHIFT) with 4096. unfold PAGE_SIZE in *. rewrite !Z.div_mul by done.
  rewrite decide_True, lookup_replicate_2 by lia. simpl. split; [apply prepare_vf_pte_vfid; lia|].
  unfold pte_present, i915_ggtt_prepare_vf_pte, GEN8_PAGE_PRESENT.
  rewrite Z.lor_spec, Z.bit0_odd. change (Z.odd 1) with true. apply orb_true_r.
Qed.

Lemma has_region_conf d d' id : same_conf d d' -> has_region d' id -> has_region d id.
Proof.
  intros Hs []. split; [by rewrite <- (conf_total _ _ Hs)|]. unfold region in *.
  by rewrite <- (conf_cfg _ _ _ _ Hs).
Qed.

(** The regions once VF [id]'s is marked free. *)
Lemma released_regions id d n :
  (id < length (configs (d_prov d GT_PRIMARY)))%nat -> allocated n = false ->
  (forall i, i <> id -> region (upd_cfg GT_PRIMARY id (set_region n) d) i = region d i) /\
  (forall i, has_region (upd_cfg GT_PRIMARY id (set_region n) d) i -> i <> id /\ has_region d i).
Proof.
  intros Hlt Hn.
  assert (forall i, i <> id -> region (upd_cfg GT_PRIMARY id (set_region n) d) i = region d i) as Hne
    by (intros; unfold region; by rewrite cfg_upd_ne by auto).
  split; [done|]. intros i [Hi Ha]. destruct (decide (i = id)) as [->|Hni].
  - unfold region in Ha. rewrite cfg_upd_eq in Ha by done. simpl in Ha. congruence.
  - split; [done|]. split; [done|]. by rewrite <- Hne.
Qed.

(** Giving a region up: the invariant holds again without it and its pages are the PF's. *)
Lemma wp_release_ggtt id (Q : unit -> dev -> Prop) d :
  let n := region d id in
  ggtt_inv_ex id d -> has_region d id ->
  (forall d', ggtt_inv d' ->
     same_conf (upd_cfg GT_PRIMARY id
       (set_region {| allocated := false; start := start n; size := size n |}) d) d' ->
     (owners_written -> region_owned d' PFID n) -> Q tt d') ->
  wp (pf_release_ggtt GT_PRIMARY id) Q d.
Proof using Type*.
  intros n I Hid HQ. pose proof env_pin_bias as [Hbias _].
  apply wp_bind, wp_gets. fold (region d id). fold n.
  apply wp_bind, wp_set_owner. intros d1 Hs1 Hm1 Ht1.
  apply wp_bind, wp_shadow_free. intros d2 Hs2 Hm2 Ht2.
  apply wp_bind, wp_modify, wp_mod_cfg.
  set (d3 := set_mm _ d2).
  assert (same_conf d d3) as Hs3 by (etransitivity; [exact Hs1|etransitivity; [exact Hs2|by constructor]]).
  set (n' := {| allocated := false; start := start n; size := size n |}).
  apply HQ.
  - assert (ggtt_inv_ex id (upd_cfg GT_PRIMARY id (set_region n') d)) as I'
      by (apply ggtt_inv_upd; [done|apply Hid|done]).
    destruct (released_regions id d n') as [Hne Hh];
      [rewrite (gi_len _ _ I); destruct Hid; simpl in *; lia|done|].
    apply (ggtt_inv_strengthen id);
      [|intros _ Hri; apply conf_upd_cfg with (g := GT_PRIMARY) (id := id) (f := set_region n') in Hs3;
        destruct (Hh id) as [? _]; [by eapply has_region_conf|done]].
    apply (ggtt_inv_step id (upd_cfg GT_PRIMARY id (set_region n') d)); [done|by apply conf_upd_cfg|..].
    + intros i Hi. destruct (Hh i Hi) as [Hni Hri]. rewrite Hne by done.
      unfold d3. simpl. rewrite Hm2, Hm1. apply mm_remove_spec. split; [by apply (gi_pinned _ _ I)|].
      intros Heq. pose proof (gi_region _ _ I i Hri) as Hok. pose proof (gi_disj _ _ I i id Hri Hid Hni) as Hd.
      unfold node_range in *. fold n in Hd. rewrite <- Heq in Hd.
      destruct Hok as (_ & Hp & _). destruct Hd; simpl in *; lia.
    + intros i Hb _ Hi. destruct (Hh i Hi) as [Hni Hri]. rewrite Hne by done.
      apply (region_owned_set (d_ptes d) (Z.of_nat PFID) n d); try done.
      * by apply (gi_region _ _ I).
      * by apply (gi_region _ _ I).
      * by apply (gi_disj _ _ I); auto.
      * simpl. rewrite Ht2. by apply Ht1.
      * by apply (gi_owned _ _ I).
  - by apply conf_upd_cfg.
  - intros Hb. apply (region_owned_new (d_ptes d) PFID n); [by apply (gi_region _ _ I)|unfold PFID; lia|].
    simpl. rewrite Ht2. by apply Ht1.
Qed.
End steps.

Section provision.
Context `{E : Env} `{!EnvLaws E}.

Lemma conf_region_compose g id n m d d1 d2 :
  same_conf (upd_cfg g id (set_region n) d) d1 -> same_conf (upd_cfg g id (set_region m) d1) d2 ->
  same_conf (upd_cfg g id (set_region m) d) d2.
Proof.
  intros H1 H2. etransitivity; [|exact H2].
  etransitivity; [|apply conf_upd_cfg, H1].
  apply same_pf_conf; [|done]. etransitivity; [|apply upd_cfg_compose]. by apply upd_cfg_ext.
Qed.

Lemma conf_region_noop g id d d' :
  same_conf d d' -> same_conf (upd_cfg g id (set_region (ggtt_region (cfg d g id))) d) d'.
Proof.
  intros Hs. etransitivity; [|exact Hs]. apply same_pf_conf; [|done].
  apply upd_cfg_noop. by destruct (cfg d g id).
Qed.

Lemma region_upd id n d d' :
  (id < length (configs (d_prov d GT_PRIMARY)))%nat ->
  same_conf (upd_cfg GT_PRIMARY id (set_region n) d) d' -> region d' id = n.
Proof. intros Hid Hs. unfold region. by rewrite (conf_cfg _ _ _ _ Hs), cfg_upd_eq. Qed.

(** The allocation of a node. *)
Lemma wp_insert_ggtt id sz (Q : Z -> dev -> Prop) d :
  ggtt_inv d -> (1 <= id <= d_totalvfs d)%nat -> ~ has_region d id -> 0 < sz -> (4096 | sz) ->
  (forall err d', err < 0 -> ggtt_inv d' -> same_conf d d' -> Q err d') ->
  (forall n d', ggtt_inv_ex id d' -> allocated n = true -> size n = sz -> region_ok n ->
     same_conf (upd_cfg GT_PRIMARY id (set_region n) d) d' -> Q 0 d') ->
  wp (pf_insert_ggtt GT_PRIMARY id sz) Q d.
Proof using Type*.
  intros I Hid Hno Hsz Hdiv Hfail Hok. unfold wp, pf_insert_ggtt.
  destruct (i915_gem_gtt_insert (d_mm d) sz pf_get_ggtt_alignment ggtt_pin_bias GUC_GGTT_TOP)
    as [[err s] m] eqn:Hins.
  destruct (Z.eqb_spec err 0) as [->|Hne]; simpl.
  - apply gtt_insert_ok in Hins as (Hs & He & Hal & Hdisj & Hpin).
    set (n := {| allocated := true; start := s; size := sz |}).
    assert (region_ok n) as Hok' by (unfold region_ok; simpl; split_and!; try done; lia).
    apply (Hok n); try done.
    apply (ggtt_inv_upd id (set_mm m d) id n); [|done|].
    + apply (ggtt_inv_step id d); [by apply ggtt_inv_weaken|done|..].
      * intros i Hi. simpl. apply Hpin. right. by apply (gi_pinned _ _ I).
      * intros i Hb _ Hi. apply (gi_owned _ _ I); [done| |done]. destruct Hi as [[? _] _]. unfold PFID. lia.
    + intros _. split_and!; [done|simpl; apply Hpin; by left| |done].
      intros i Hi Hne. apply Hdisj. by apply (gi_pinned _ _ I).
  - apply gtt_insert_err in Hins as [Hneg Hpin]; [|done].
    apply Hfail; [done| |by constructor].
    apply (ggtt_inv_step PFID d); [done|by constructor|..].
    + intros i Hi. simpl. apply Hpin. by apply (gi_pinned _ _ I).
    + intros i Hb Hx Hi. by apply (gi_owned _ _ I).
Qed.

Definition take_ggtt_post (id : nat) (sz : Z) (d : dev) (ret : Z) (d' : dev) : Prop :=
  ggtt_inv d' /\
  (exists n, same_conf (upd_cfg GT_PRIMARY id (set_region n) d) d' /\
     (ret = 0 /\ allocated n = negb (sz =? 0) /\ (sz <> 0 -> size n = sz) \/
      ret < 0 /\ allocated n = false)) /\
  (ret = 0 -> sz <> 0 -> sz <= ggtt_total /\ sz <= pf_get_max_ggtt GT_PRIMARY d) /\
  (ggtt_total < sz -> ret = - E2BIG) /\
  (sz <= ggtt_total -> pf_get_max_ggtt GT_PRIMARY d < sz -> ret = - EDQUOT).

(** The roll-back returns the error with the region given up. *)
Lemma wp_release_err id err n (Q : Z -> dev -> Prop) d d0 :
  ggtt_inv_ex id d -> (1 <= id <= d_totalvfs d)%nat -> allocated n = true -> region d id = n ->
  same_conf (upd_cfg GT_PRIMARY id (set_region n) d0) d ->
  (forall d' n', ggtt_inv d' -> allocated n' = false ->
     same_conf (upd_cfg GT_PRIMARY id (set_region n') d0) d' -> Q err d') ->
  wp (pf_release_err GT_PRIMARY id err) Q d.
Proof using Type*.
  intros I Hid Ha Hr Hs HQ. apply wp_bind, wp_release_ggtt; [done|split; [done|by rewrite Hr]|].
  intros d' I' Hs' _. apply wp_ret. eapply HQ; [done| |by eapply conf_region_compose]. done.
Qed.

Lemma wp_fill_ggtt id n (Q : Z -> dev -> Prop) d d1 :
  ggtt_inv_ex id d1 -> (id < length (configs (d_prov d GT_PRIMARY)))%nat ->
  (1 <= id <= d_totalvfs d)%nat -> allocated n = true -> region_ok n ->
  same_conf (upd_cfg GT_PRIMARY id (set_region n) d) d1 ->
  (forall ret d' n', ggtt_inv d' -> same_conf (upd_cfg GT_PRIMARY id (set_region n') d) d' ->
     (ret = 0 /\ n' = n \/ ret < 0 /\ allocated n' = false) -> Q ret d') ->
  wp (pf_fill_ggtt GT_PRIMARY id) Q d1.
Proof using Type*.
  intros I1 Hlt Hid Ha Hok Hs1 HQ.
  assert (forall d3, same_conf d1 d3 -> (1 <= id <= d_totalvfs d3)%nat) as Hid3
    by (intros d3 Hs3; by rewrite (conf_total _ _ Hs3), (conf_total _ _ Hs1)).
  assert (forall d3, same_conf d1 d3 -> d_mm d3 = d_mm d1 ->
    (forall i, owners_written -> i <> id -> has_region d1 i -> region_owned d3 i (region d1 i)) ->
    ggtt_inv_ex id d3 /\ same_conf (upd_cfg GT_PRIMARY id (set_region n) d) d3 /\ region d3 id = n) as Hstep.
  { intros d3 Hs3 Hm3 Ho3. assert (same_conf (upd_cfg GT_PRIMARY id (set_region n) d) d3) as Hs03 by (by etransitivity).
    split_and!; [|done|by eapply region_upd]. apply (ggtt_inv_step id d1); try done.
    intros i Hi. rewrite Hm3. by apply (gi_pinned _ _ I1). }
  apply wp_bind, wp_gets. fold (region d1 id). rewrite (region_upd _ _ _ _ Hlt Hs1).
  apply wp_bind, wp_shadow_alloc. intros err d2 Hs2 Hm2 Ht2 Herr _.
  apply wp_if; intros Hb; propify.
  { destruct (Hstep d2) as (I2 & Hs02 & Hr2); [done|done| |].
    { intros i Hbd Hi Hr j. rewrite Ht2. by apply (gi_owned _ _ I1). }
    eapply wp_release_err; try done; [by apply Hid3|]. intros d3 n' I3 Ha' Hs3.
    apply (HQ _ _ n'); [done|done|right; split; [lia|done]]. }
  apply wp_bind, wp_set_owner. intros d3 Hs3 Hm3 Ht3. pose proof env_pin_bias as [Hbias _].
  assert (same_conf d1 d3) as Hs13 by (by etransitivity).
  destruct (Hstep d3) as (I3 & Hs03 & Hr3); [done|congruence| |].
  { intros i Hbd Hi Hr. apply (region_owned_set (d_ptes d2) (Z.of_nat id) n d2); try done.
    - by apply (gi_region _ _ I1).
    - rewrite <- (region_upd _ _ _ _ Hlt Hs1). apply (gi_disj _ _ I1); try done.
      split; [by apply Hid3|]. by rewrite (region_upd _ _ _ _ Hlt Hs1).
    - by apply Ht3.
    - intros j. rewrite Ht2. by apply (gi_owned _ _ I1). }
  assert (ggtt_inv d3) as I3'.
  { apply (ggtt_inv_strengthen id); [done|]. intros Hbd _. rewrite Hr3.
    apply (region_owned_new (d_ptes d2)); [done| |by apply Ht3].
    pose proof (gi_total _ _ I3) as Ht. specialize (Hid3 d3 Hs13). lia. }
  apply wp_bind. eapply wp_mono; [apply call_push_ggtt|]. intros err' d4 (Hs4 & Hl4 & He4 & _). simpl.
  pose proof (same_pf_conf _ _ Hs4 Hl4) as Hc4.
  pose proof (ggtt_inv_same _ _ Hs4 Hl4 I3') as I4.
  assert (same_conf (upd_cfg GT_PRIMARY id (set_region n) d) d4) as Hs04 by (by etransitivity).
  apply wp_if; intros Hb'; propify.
  - eapply wp_release_err; [by apply ggtt_inv_weaken|apply Hid3; by etransitivity|done|by eapply region_upd|done|].
    intros d5 n' I5 Ha' Hs5. apply (HQ _ _ n'); [done|done|right; split; [lia|done]].
  - apply wp_ret, (HQ _ _ n); [done|done|by left].
Qed.

Lemma wp_take_ggtt id sz d :
  ggtt_inv d -> (1 <= id <= d_totalvfs d)%nat -> ~ has_region d id -> 0 <= sz -> (4096 | sz) ->
  wp (pf_take_ggtt GT_PRIMARY id sz) (take_ggtt_post id sz d) d.
Proof using Type*.
  intros I Hid Hno Hsz Hdiv. pose proof (max_ggtt_spec GT_PRIMARY d) as Hmax.
  pose proof env_total as [Htot _].
  assert (0 <= pf_get_max_ggtt GT_PRIMARY d) as Hmax0
    by (rewrite Hmax; pose proof (maxZ_nonneg (hole_sizes d)); lia).
  assert (id < length (configs (d_prov d GT_PRIMARY)))%nat as Hlt by (rewrite (gi_len _ _ I); lia).
  assert (allocated (region d id) = false) as Hna
    by (destruct (allocated (region d id)) eqn:Ea; [by destruct Hno; split|done]).
  assert (forall ret, (ret = 0 /\ sz = 0 \/ ret < 0 /\ sz <> 0) ->
    (ret = 0 -> sz <> 0 -> sz <= ggtt_total /\ sz <= pf_get_max_ggtt GT_PRIMARY d) ->
    (ggtt_total < sz -> ret = - E2BIG) ->
    (sz <= ggtt_total -> pf_get_max_ggtt GT_PRIMARY d < sz -> ret = - EDQUOT) ->
    take_ggtt_post id sz d ret d) as Hsame.
  { intros ret Hret H1 H2 H3. split_and!; try done. exists (region d id).
    split; [by apply conf_region_noop|]. rewrite Hna.
    destruct Hret as [[-> ->]|[? ?]]; [by left|by right]. }
  unfold pf_take_ggtt. apply wp_if; intros Hz; propify; [subst; apply wp_ret, Hsame; lia|].
  apply wp_if; intros Hbig; propify; [apply wp_ret, Hsame; unfold E2BIG, EDQUOT in *; (lia || done)|].
  apply wp_bind, wp_gets.
  apply wp_if; intros Hq; propify; [apply wp_ret, Hsame; unfold E2BIG, EDQUOT in *; (lia || done)|].
  assert (forall ret d' n, ggtt_inv d' -> same_conf (upd_cfg GT_PRIMARY id (set_region n) d) d' ->
    (ret = 0 /\ allocated n = true /\ size n = sz \/ ret < 0 /\ allocated n = false) ->
    take_ggtt_post id sz d ret d') as Hpost.
  { intros ret d' n I' Hs Hret. split_and!; try lia; [done|]. exists n. split; [done|].
    rewrite (proj2 (Z.eqb_neq sz 0)) by done. destruct Hret as [(?&?&?)|]; [by left|by right]. }
  apply wp_bind, wp_insert_ggtt; try done; [lia|..].
  - intros err d1 Herr I1 Hs1. simpl. rewrite (proj2 (Z.eqb_neq err 0)) by lia.
    apply wp_ret, (Hpost _ _ (region d id)); [done|by apply conf_region_noop|by right].
  - intros n d1 I1 Ha Hsn Hok Hs1. simpl. eapply wp_fill_ggtt; try done.
    intros ret d' n' I' Hs' Hret. apply (Hpost ret d' n'); [done..|].
    destruct Hret as [[-> ->]|]; [by left|by right].
Qed.

(** What [pf_provision_ggtt] leaves, for a request that rounds up to [sz]. *)
Lemma wp_provision_ggtt id req (Q : Z -> dev -> Prop) d :
  ggtt_inv d -> (1 <= id <= d_totalvfs d)%nat -> is_u64 req ->
  (forall ret d' n, ggtt_inv d' -> same_conf (upd_cfg GT_PRIMARY id (set_region n) d) d' ->
     (2 ^ 64 - 4096 < req /\ ret = - EOVERFLOW /\ n = region d id \/
      ret = 0 /\ allocated n = negb (req =? 0) /\
        (req <> 0 -> size n = snd (check_round_up_overflow req pf_get_ggtt_alignment)) \/
      ret < 0 /\ allocated n = false) -> Q ret d') ->
  wp (pf_provision_ggtt GT_PRIMARY id req) Q d.
Proof using Type*.
  intros I Hid Hreq HQ. unfold pf_provision_ggtt. rewrite decide_False by done.
  assert (id < length (configs (d_prov d GT_PRIMARY)))%nat as Hlt by (rewrite (gi_len _ _ I); lia).
  pose proof (round_up_spec req Hreq) as Hround. unfold is_u64 in Hreq.
  assert (check_round_up_overflow req pf_get_ggtt_alignment =
    (fst (check_round_up_overflow req pf_get_ggtt_alignment),
     snd (check_round_up_overflow req pf_get_ggtt_alignment))) as Hpair by (by destruct (check_round_up_overflow _ _)).
  destruct (check_round_up_overflow req pf_get_ggtt_alignment) as [ov sz]. destruct Hround as [Hov Hsz].
  simpl in *. clear Hpair. destruct ov; propify.
  { apply wp_ret, (HQ _ _ (region d id)); [done|by apply conf_region_noop|]. left. symmetry in Hov. by propify. }
  destruct (Hsz eq_refl) as (Hle & Hdiv & Hmax).
  assert (sz = 0 <-> req = 0) as Hzero.
  { split; intros ->; [lia|]. destruct Hdiv as [k ->]. lia. }
  assert (forall d1 ret d' , same_conf (upd_cfg GT_PRIMARY id (set_region (region d1 id)) d) d1 ->
    take_ggtt_post id sz d1 ret d' -> Q ret d') as Htake.
  { intros d1 ret d' Hs1 (I' & (n & Hs' & Hn) & _).
    apply (HQ _ _ n); [done|by eapply conf_region_compose|]. right.
    destruct Hn as [(-> & Ha & Hsn)|]; [left|by right]. split_and!; [done| |].
    - rewrite Ha. destruct (Z.eqb_spec sz 0), (Z.eqb_spec req 0); tauto.
    - intros ?. apply Hsn. tauto. }
  apply wp_bind, wp_gets. fold (region d id). destruct (allocated (region d id)) eqn:Ha.
  - apply wp_if; intros Heq; propify.
    { apply wp_ret, (HQ _ _ (region d id)); [done|by apply conf_region_noop|]. right; left.
      split_and!; [done| |by intros; rewrite Heq]. rewrite Ha.
      pose proof (gi_region _ _ I id ltac:(by split)) as (_ & Hp & _).
      rewrite (proj2 (Z.eqb_neq req 0)); [done|]. intros Hr. apply Hzero in Hr. lia. }
    apply wp_bind. eapply wp_mono; [apply call_push_ggtt|]. intros err d1 (Hs1 & Hl1 & He1 & _). simpl.
    pose proof (ggtt_inv_same _ _ Hs1 Hl1 I) as I1. pose proof (same_pf_conf _ _ Hs1 Hl1) as Hc1.
    assert (region d1 id = region d id) as Hr1 by (unfold region; by rewrite (same_cfg _ _ _ _ Hs1)).
    apply wp_bind, wp_release_ggtt; [by apply ggtt_inv_weaken|..].
    { split; [by rewrite (conf_total _ _ Hc1)|by rewrite Hr1]. }
    intros d2 I2 Hs2 _. set (n2 := {| allocated := false; start := _; size := _ |}) in Hs2.
    assert (same_conf (upd_cfg GT_PRIMARY id (set_region n2) d) d2) as Hs02
      by (etransitivity; [by apply conf_upd_cfg|done]).
    pose proof (region_upd _ _ _ _ Hlt Hs02) as Hr2.
    apply wp_if; intros Hb; propify.
    + apply wp_ret, (HQ _ _ n2); [done|done|]. right; right. split; [lia|done].
    + eapply wp_mono; [apply wp_take_ggtt; try done|].
      * by rewrite (conf_total _ _ Hs02).
      * intros [_ Ha2]. by rewrite Hr2 in Ha2.
      * lia.
      * intros ret d' Hp. eapply Htake; [|exact Hp]. by rewrite Hr2.
  - eapply wp_mono; [apply wp_take_ggtt; try done|].
    + intros [_ Ha2]. congruence.
    + lia.
    + intros ret d' Hp. eapply Htake; [|exact Hp]. by apply conf_region_noop.
Qed.
End provision.

(** ** Properties *)

Section properties.
Context `{E : Env} `{!EnvLaws E}.

(** C2: the VFs' GGTT regions stay apart and owned. Whatever size is asked for and whatever
    the range manager, the allocator and GuC answer, [intel_iov_provisioning_set_ggtt] keeps
    the VFs' regions pairwise disjoint, page aligned, between the pin bias and
    [GUC_GGTT_TOP], held in the range manager as unevictable nodes, with every page of a
    region (on a device without binder) marked as its VF's; no other VF's configuration
    changes and the VF's own only in its region. A success leaves a region of the requested
    size rounded up to pages (none for 0), an error none, except that a request that cannot
    be rounded up returns -EOVERFLOW and changes nothing. *)
Theorem set_ggtt_keeps_apart id req d :
  ggtt_inv d -> (1 <= id <= d_totalvfs d)%nat -> is_u64 req ->
  let '(ret, d') := intel_iov_provisioning_set_ggtt GT_PRIMARY id req d in
  let rounded := snd (check_round_up_overflow req pf_get_ggtt_alignment) in
  ggtt_inv d' /\
  (forall g' id', g' <> GT_PRIMARY \/ id' <> id -> cfg d' g' id' = cfg d g' id') /\
  cfg d' GT_PRIMARY id = set_region (region d' id) (cfg d GT_PRIMARY id) /\
  (2 ^ 64 - 4096 < req /\ ret = - EOVERFLOW /\ region d' id = region d id \/
   ret = 0 /\ intel_iov_provisioning_get_ggtt GT_PRIMARY id d' = rounded \/
   ret < 0 /\ intel_iov_provisioning_get_ggtt GT_PRIMARY id d' = 0).
Proof using Type*.
  intros I Hid Hreq. assert (id < length (configs (d_prov d GT_PRIMARY)))%nat as Hlt
    by (rewrite (gi_len _ _ I); lia).
  apply wp_let, wp_bind, wp_gets, wp_bind, wp_provision_ggtt; try done.
  intros ret d1 n I1 Hs Hret. simpl.
  assert (forall d2, d_prov d2 = d_prov d1 -> d_totalvfs d2 = d_totalvfs d1 -> d_mm d2 = d_mm d1 ->
    d_ptes d2 = d_ptes d1 -> ggtt_inv d2 /\
    (forall g' id', g' <> GT_PRIMARY \/ id' <> id -> cfg d2 g' id' = cfg d g' id') /\
    cfg d2 GT_PRIMARY id = set_region (region d2 id) (cfg d GT_PRIMARY id) /\ region d2 id = n) as Hd2.
  { intros [] H1 H2 H3 H4. simpl in *. subst. split; [by destruct I1|].
    pose proof (region_upd _ _ _ _ Hlt Hs) as Hr. unfold region, cfg in *. simpl in *.
    split_and!; [| |done].
    - intros g' id' Hne. pose proof (conf_cfg _ _ g' id' Hs) as Hc. rewrite cfg_upd_ne in Hc by done. done.
    - rewrite Hr. pose proof (conf_cfg _ _ GT_PRIMARY id Hs) as Hc. by rewrite cfg_upd_eq in Hc. }
  assert (forall d2, region d2 id = n -> intel_iov_provisioning_get_ggtt GT_PRIMARY id d2 =
    if allocated n then size n else 0) as Hget
    by (intros d2 Hr; unfold intel_iov_provisioning_get_ggtt; fold (region d2 id); by rewrite Hr).
  assert (forall d2, d_prov d2 = d_prov d1 -> d_totalvfs d2 = d_totalvfs d1 -> d_mm d2 = d_mm d1 ->
    d_ptes d2 = d_ptes d1 -> wp (mret ret) (fun ret d' =>
      let rounded := snd (check_round_up_overflow req pf_get_ggtt_alignment) in
      ggtt_inv d' /\ (forall g' id', g' <> GT_PRIMARY \/ id' <> id -> cfg d' g' id' = cfg d g' id') /\
      cfg d' GT_PRIMARY id = set_region (region d' id) (cfg d GT_PRIMARY id) /\
      (2 ^ 64 - 4096 < req /\ ret = - EOVERFLOW /\ region d' id = region d id \/
       ret = 0 /\ intel_iov_provisioning_get_ggtt GT_PRIMARY id d' = rounded \/
       ret < 0 /\ intel_iov_provisioning_get_ggtt GT_PRIMARY id d' = 0)) d2) as Hend.
  { intros d2 H1 H2 H3 H4. destruct (Hd2 d2 H1 H2 H3 H4) as (I2 & Hoth & Hown & Hr).
    apply wp_ret. split_and!; try done. rewrite (Hget d2 Hr).
    destruct Hret as [(Ho & -> & ->)|[(-> & Ha & Hsz)|[Hneg Ha]]]; [by left| |].
    - right; left. split; [done|]. destruct (Z.eqb_spec req 0) as [->|Hne]; rewrite Ha; simpl; auto.
    - right; right. by rewrite Ha. }
  apply wp_bind, wp_mark_manual; by apply Hend.
Qed.

(** [check_round_up_overflow] on 64-bit sizes reports an overflow exactly when no multiple
    of the page size at or above the argument fits in 64 bits, and otherwise returns the least
    one; a spare size is thus kept rounded up, or as the largest size when it cannot be. *)
Theorem round_up_and_spare g sz d :
  is_u64 sz ->
  let '(overflow, r) := check_round_up_overflow sz pf_get_ggtt_alignment in
  (overflow = true <-> 2 ^ 64 - 4096 < sz) /\
  (overflow = false -> (4096 | r) /\ sz <= r /\ (forall m, (4096 | m) -> sz <= m -> r <= m)) /\
  let '(ret, d') := intel_iov_provisioning_set_spare_ggtt g sz d in
  if decide (0 < sz < pf_get_min_spare_ggtt) then ret = - EINVAL /\ d' = d
  else ret = 0 /\ intel_iov_provisioning_get_spare_ggtt g d' =
                  Z.max (if overflow then U64_MAX else r) pf_get_min_spare_ggtt.
Proof.
  intros Hsz. pose proof (round_up_spec sz Hsz) as Hr. unfold intel_iov_provisioning_set_spare_ggtt.
  destruct (check_round_up_overflow sz pf_get_ggtt_alignment) as [ov r]. destruct Hr as [Hov Hr].
  split_and!.
  - rewrite Hov. apply Z.ltb_lt.
  - intros ->. destruct (Hr eq_refl) as (Hle & [k ->] & _). split_and!; [by exists k|lia|].
    intros m [j ->] Hm. nia.
  - unfold is_u64 in Hsz. destruct (decide (0 < sz < pf_get_min_spare_ggtt)) as [Hin|Hout].
    + rewrite (proj2 (Z.eqb_neq sz 0)), (proj2 (Z.ltb_lt sz _)) by lia. done.
    + replace (negb (sz =? 0) && (sz <? pf_get_min_spare_ggtt)) with false; [simpl|].
      * split; [done|]. unfold intel_iov_provisioning_get_spare_ggtt, pf_get_spare_ggtt. simpl.
        by rewrite decide_True.
      * symmetry. apply andb_false_iff. destruct (Z.eqb_spec sz 0); [by left|right].
        apply Z.ltb_ge. lia.
Qed.

(** the GGTT quotas. The free size is the sum of the usable parts of the holes less the
    spare, the largest allocation the largest part, less whatever part of the spare the
    others cannot cover; each usable part lies in its hole, above the pin bias, in whole
    pages. *)
Theorem query_ggtt_values g d :
  sumZ (hole_sizes d) < 2 ^ 64 -> ggtt_pin_bias + 4096 < 2 ^ 64 ->
  (forall hs he, (hs, he) ∈ mm_holes (d_mm d) -> 0 <= hs /\ hs + 4096 < 2 ^ 64 /\ is_u64 he) ->
  let sp := intel_iov_provisioning_get_spare_ggtt g d in
  intel_iov_provisioning_query_free_ggtt g d = Z.max 0 (sumZ (hole_sizes d) - sp) /\
  intel_iov_provisioning_query_max_ggtt g d =
    Z.min (maxZ (hole_sizes d)) (Z.max 0 (sumZ (hole_sizes d) - sp)) /\
  (forall s, s ∈ hole_sizes d -> exists hs he a, (hs, he) ∈ mm_holes (d_mm d) /\
     hs <= a /\ ggtt_pin_bias <= a /\ a + s <= he /\ (4096 | a) /\ (4096 | s) /\ 0 < s).
Proof using Type*.
  intros Hsum Hb Hh. split_and!.
  - unfold intel_iov_provisioning_query_free_ggtt, pf_get_free_ggtt.
    rewrite sum_u64 by (apply hole_sizes_pos || lia).
    unfold intel_iov_provisioning_get_spare_ggtt.
    destruct (Z.gtb_spec (0 + sumZ (hole_sizes d)) (pf_get_spare_ggtt g d)); lia.
  - apply max_ggtt_spec.
  - intros s ([hs he] & Hin & Hs)%list_elem_of_omap. destruct (Hh hs he Hin) as (? & ? & ?).
    destruct (clip_hole_inside hs he s) as (a & Ha); try done. by exists hs, he, a.
Qed.
End properties.

Section witnesses.
#[local] Existing Instance sample_env.

Lemma sample_ggtt_inv : ggtt_inv sample_dev.
Proof.
  assert (forall id, ~ has_region sample_dev id) as H0.
  { intros id [[Hid _] Ha]. destruct id as [|id]; [lia|]. unfold region, cfg in Ha. simpl in Ha.
    change (allocated (ggtt_region (default config0 (replicate 4 config0 !! id))) = true) in Ha.
    destruct (replicate 4 config0 !! id) as [c|] eqn:Ec; [|done].
    by apply lookup_replicate in Ec as [-> _]. }
  constructor; [done|simpl; lia|..]; intros; exfalso; by eapply H0.
Qed.

Lemma set_ggtt_keeps_apart_witness :
  let '(ret, d') := intel_iov_provisioning_set_ggtt GT_PRIMARY 1 0x2001 sample_dev in
  ggtt_inv d' /\ intel_iov_provisioning_get_ggtt GT_PRIMARY 1 d' = 0x3000.
Proof.
  pose proof (set_ggtt_keeps_apart 1 0x2001 sample_dev sample_ggtt_inv ltac:(simpl; lia) ltac:(done)) as Hw.
  assert (fst (intel_iov_provisioning_set_ggtt GT_PRIMARY 1 0x2001 sample_dev) = 0) as Hr
    by (by vm_compute).
  destruct (intel_iov_provisioning_set_ggtt GT_PRIMARY 1 0x2001 sample_dev) as [ret d'].
  simpl in Hr. subst ret. destruct Hw as (Hi & _ & _ & [[_ [He _]]|[[_ Hg]|[He _]]]);
    [done|by split|done].
Defined.

Lemma round_up_and_spare_witness :
  let '(overflow, r) := check_round_up_overflow 0x4000001 pf_get_ggtt_alignment in
  overflow = false /\ (4096 | r) /\ 0x4000001 <= r <= 0x4001000.
Proof.
  pose proof (round_up_and_spare GT_PRIMARY 0x4000001 sample_dev ltac:(done)) as Hw.
  change (check_round_up_overflow 0x4000001 pf_get_ggtt_alignment) with (false, 0x4001000) in *.
  destruct Hw as (_ & Hw & _). destruct (Hw eq_refl) as (H1 & H2 & H3).
  split_and!; [done|exact H1|exact H2|apply H3; [by exists 0x4001|done]].
Defined.

Lemma query_ggtt_values_witness :
  intel_iov_provisioning_query_max_ggtt GT_PRIMARY sample_dev = 0xbf00000.
Proof.
  rewrite (proj1 (proj2 (query_ggtt_values GT_PRIMARY sample_dev ltac:(done) ltac:(done)
    ltac:(intros hs he Hin; apply list_elem_of_singleton in Hin as [= -> ->]; done)))).
  vm_compute. reflexivity.
Defined.
End witnesses.
