(* ===== verification/Migration.v ===== *)
(** * Saving and restoring the state of a VF

    What a migration driver moves from one device to another: the GGTT entries of a VF
    ([i915_ggtt_save_ptes] and [i915_ggtt_restore_ptes] of gt/intel_ggtt.c, the shadow paths of
    gt/iov/intel_iov_ggtt.c), the state that GuC keeps for it and their callers in
    gt/iov/intel_iov_state.c and i915_sriov.c. *)

From S2P Require Export Ggtt GgttProv.

(** ** Buffers *)

(** A caller's buffer of entries: [None] for NULL, else the entries it holds. A call gives its
    result and the buffer it leaves. *)
Definition pte_buf : Type := option (list Z).

(** [memcpy] of [src] to the start of a buffer. *)
Definition put_front (src dst : list Z) : list Z := src ++ drop (length src) dst.

(** Entries [idx ..] of the table. *)
Definition get_ptes (idx : Z) (n : nat) (t : Z -> Z) : list Z := (fun i => t (idx + Z.of_nat i)) <$> seq 0 n.

Definition I915_GGTT_SAVE_PTES_NO_VFID : Z := 2 ^ 31.
Definition I915_GGTT_RESTORE_PTES_NEW_VFID : Z := 2 ^ 31.
Definition I915_GGTT_RESTORE_PTES_VFID_MASK : Z := 0xfffff.

#[export] Instance RESTORE_VFID_field : is_field I915_GGTT_RESTORE_PTES_VFID_MASK 20 0.
Proof. solve_field. Qed.

Definition clear_vfid (pte : Z) : Z := Z.land pte (Z.lnot TGL_GGTT_PTE_VFID_MASK).

(** [size] is in bytes, a multiple of an entry's. *)
Definition ggtt_pte_clear_vfid (buf : list Z) (size : Z) : list Z :=
  let n := Z.to_nat (size / 8) in (clear_vfid <$> take n buf) ++ drop n buf.

Section ptes.
Context `{E : Env}.

(** ** The page table (gt/intel_ggtt.c) *)

Definition i915_ggtt_save_ptes (node : drm_mm_node) (buf : pte_buf) (sz flags : Z) (d : dev) : Z * pte_buf :=
  let need := ggtt_size_to_ptes_size (size node) in
  if require_binder then (- EOPNOTSUPP, buf) else
  match buf with
  | None => (if sz =? 0 then need else - EINVAL, buf)
  | Some b =>
      if sz =? 0 then (- EINVAL, buf) else
      if sz <? need then (- ENOSPC, buf) else
      let b := put_front (get_ptes (Z.shiftr (start node) PAGE_SHIFT) (Z.to_nat (need / 8)) (d_ptes d)) b in
      (need, Some (if negb (Z.land flags I915_GGTT_SAVE_PTES_NO_VFID =? 0)
                   then ggtt_pte_clear_vfid b need else b))
  end.

(** One round of the restoring loops; [owner] is what a new owner adds to the entry. *)
Definition restored_pte (owner flags pte : Z) : Z :=
  if negb (Z.land flags I915_GGTT_RESTORE_PTES_NEW_VFID =? 0) then Z.lor pte owner else pte.

(** [buf] holds the [sz / 8] entries. *)
Definition i915_ggtt_restore_ptes (node : drm_mm_node) (buf : list Z) (sz flags : Z) : st dev Z :=
  let vfid := FIELD_GET I915_GGTT_RESTORE_PTES_VFID_MASK flags in
  if require_binder then mret (- EOPNOTSUPP) else
  if sz >? ggtt_size_to_ptes_size (size node) then mret (- ENOSPC) else
  modify (fun d => set_table
    (set_ptes (Z.shiftr (start node) PAGE_SHIFT)
       (restored_pte (tgl_prepare_vf_pte_vfid vfid) flags <$> take (Z.to_nat (sz / 8)) buf) (d_ptes d)) d)
    ≫= fun _ => mret 0.

(** ** The shadows (gt/iov/intel_iov_ggtt.c) *)

Definition intel_iov_ggtt_shadow_save (vfid : nat) (buf : pte_buf) (sz flags : Z) (d : dev) : Z * pte_buf :=
  match d_shadows d with
  | None => (0, buf)
  | Some shadows =>
      let s := shadows.[vfid | shadow0] in
      let have := ggtt_size_to_ptes_size (size (shadow_node s d)) in
      match buf with
      | None => (if sz =? 0 then have else - EINVAL, buf)
      | Some b =>
          if sz =? 0 then (- EINVAL, buf) else
          if sz >? have then (- ENOSPC, buf) else
          let b := put_front (take (Z.to_nat (sz / 8)) (default [] (shadow_ptes s))) b in
          (sz, Some (if negb (Z.land flags I915_GGTT_SAVE_PTES_NO_VFID =? 0)
                     then ggtt_pte_clear_vfid b sz else b))
      end
  end.

(** The loop of [pf_ggtt_shadow_restore_ggtt] over [n] entries: [sg] holds the addresses of the
    current run of [length sg] entries with the flags [pte_flags]. When the flags change the
    run is flushed and the scatter list allocated anew, but the next entry is still added
    through the pointer into the list that was freed: [None]. *)
Fixpoint shadow_restore_loop (vfid : nat) (n : nat) (ggtt_addr : Z) (sg : list Z) (pte_flags : Z)
  : st dev (option Z) :=
  match n with
  | O => ret ← i915_ggtt_sgtable_update_ptes vfid ggtt_addr (Some sg) (Z.of_nat (length sg)) pte_flags;
         mret (Some ret)
  | S n =>
      pte ← gets (intel_iov_ggtt_shadow_get_pte vfid ggtt_addr);
      let new_pte_flags := Z.land pte (Z.lnot GEN12_GGTT_PTE_ADDR_MASK) in
      if negb (length sg =? 0)%nat && negb (new_pte_flags =? pte_flags) then
        err ← i915_ggtt_sgtable_update_ptes vfid ggtt_addr (Some sg) (Z.of_nat (length sg)) pte_flags;
        if err <? 0 then mret (Some err) else
        ok ← kvzalloc;
        if negb ok then mret (Some (- ENOMEM)) else mret None
      else shadow_restore_loop vfid n (u64 (ggtt_addr + PAGE_SIZE)) (sg ++ sg_add_pte pte) new_pte_flags
  end.

Definition pf_ggtt_shadow_restore_ggtt (vfid : nat) : st dev (option Z) :=
  sh ← gets d_shadows;
  match sh with
  | None => mret (Some 0)
  | Some shadows =>
      region ← gets (shadow_node (shadows.[vfid | shadow0]));
      ok ← kvzalloc;
      if negb ok then mret (Some (- ENOMEM)) else
      ok ← kvzalloc;
      if negb ok then mret (Some (- ENOMEM)) else
      shadow_restore_loop vfid (Z.to_nat (ggtt_size_to_ptes_size (size region) / 8)) (start region) [] 0
  end.

Fixpoint shadow_put_all (vfid : nat) (ggtt_addr flags : Z) (buf : list Z) : st dev unit :=
  match buf with
  | [] => mret tt
  | pte :: buf =>
      intel_iov_ggtt_shadow_set_pte vfid ggtt_addr
        (restored_pte (i915_ggtt_prepare_vf_pte (Z.of_nat vfid)) flags pte) ≫= fun _ =>
      shadow_put_all vfid (u64 (ggtt_addr + PAGE_SIZE)) flags buf
  end.

Definition intel_iov_ggtt_shadow_restore (vfid : nat) (buf : pte_buf) (sz flags : Z) : st dev (option Z) :=
  sh ← gets d_shadows;
  match sh with
  | None => mret (Some 0)
  | Some shadows =>
      region ← gets (shadow_node (shadows.[vfid | shadow0]));
      if sz >? ggtt_size_to_ptes_size (size region) then mret (Some (- ENOSPC)) else
      match buf with
      | None => mret (Some (- EINVAL))
      | Some b =>
          if sz =? 0 then mret (Some (- EINVAL)) else
          shadow_put_all vfid (start region) flags (take (Z.to_nat (sz / 8)) b) ≫= fun _ =>
          err ← pf_ggtt_shadow_restore_ggtt vfid;
          mret ((fun err => elvis err sz) <$> err)
      end
  end.

(** ** The VF's GGTT (gt/iov/intel_iov_state.c) *)

(** Both under the provisioning mutex. The page table functions take the size as a u32, the
    shadow functions as a [size_t]. *)
Definition intel_iov_state_save_ggtt (g : gt_id) (vfid : nat) (buf : pte_buf) (sz : Z) (d : dev) : Z * pte_buf :=
  let node := ggtt_region (cfg d g vfid) in
  if negb (allocated node) then (- EINVAL, buf) else
  let flags := I915_GGTT_SAVE_PTES_NO_VFID in
  if require_binder then intel_iov_ggtt_shadow_save vfid buf sz flags d
  else i915_ggtt_save_ptes node buf (u32 sz) flags d.

Definition intel_iov_state_restore_ggtt (g : gt_id) (vfid : nat) (buf : pte_buf) (sz : Z) : st dev (option Z) :=
  config ← get_cfg g vfid;
  let flags := Z.lor (FIELD_PREP I915_GGTT_RESTORE_PTES_VFID_MASK (Z.of_nat vfid)) I915_GGTT_RESTORE_PTES_NEW_VFID in
  if require_binder then intel_iov_ggtt_shadow_restore vfid buf sz flags
  else ret ← i915_ggtt_restore_ptes (ggtt_region config) (default [] buf) (u32 sz) flags; mret (Some ret).
End ptes.

(** ** The state that GuC keeps (gt/iov/intel_iov_state.c) *)

Definition GUC_ACTION_PF2GUC_SAVE_RESTORE_VF : Z := 0x550B.
Definition PF2GUC_SAVE_RESTORE_VF_REQUEST_MSG_0_OPCODE : Z := GUC_HXG_EVENT_MSG_0_DATA0.
Definition GUC_PF_OPCODE_VF_SAVE : Z := 0.
Definition GUC_PF_OPCODE_VF_RESTORE : Z := 1.
Definition PF2GUC_SAVE_RESTORE_VF_REQUEST_MSG_1_VFID : Z := 0xffffffff.
Definition PF2GUC_SAVE_RESTORE_VF_REQUEST_MSG_2_BUFF_LO : Z := 0xffffffff.
Definition PF2GUC_SAVE_RESTORE_VF_REQUEST_MSG_3_BUFF_HI : Z := 0xffffffff.
Definition PF2GUC_SAVE_RESTORE_VF_REQUEST_MSG_4_BUFF_SZ : Z := 0x0fffffff.
Definition PF2GUC_SAVE_RESTORE_VF_BUFF_MIN_SIZE : Z := 32.

(** What GuC leaves in the buffer of [n] bytes of a request, and the device the migration
    driver talks to. *)
Class SaveEnv := {
  guc_blob : list guc_req -> guc_req -> nat -> list Z;
  guc_blob_length l r n : length (guc_blob l r n) = n;
  is_sriov_pf : bool;          (** [IS_SRIOV_PF(i915)] *)
  has_extra_gt_list : bool;    (** [HAS_EXTRA_GT_LIST(i915)] *)
}.

Definition save_restore_msg (vfid : nat) (opcode offset sz : Z) : list Z :=
  [Z.lor (Z.lor (FIELD_PREP GUC_HXG_MSG_0_ORIGIN GUC_HXG_ORIGIN_HOST)
                (FIELD_PREP GUC_HXG_MSG_0_TYPE GUC_HXG_TYPE_REQUEST))
         (Z.lor (FIELD_PREP GUC_HXG_REQUEST_MSG_0_ACTION GUC_ACTION_PF2GUC_SAVE_RESTORE_VF)
                (FIELD_PREP PF2GUC_SAVE_RESTORE_VF_REQUEST_MSG_0_OPCODE opcode));
   FIELD_PREP PF2GUC_SAVE_RESTORE_VF_REQUEST_MSG_1_VFID (Z.of_nat vfid);
   FIELD_PREP PF2GUC_SAVE_RESTORE_VF_REQUEST_MSG_2_BUFF_LO (lower_32_bits offset);
   FIELD_PREP PF2GUC_SAVE_RESTORE_VF_REQUEST_MSG_3_BUFF_HI (upper_32_bits offset);
   FIELD_PREP PF2GUC_SAVE_RESTORE_VF_REQUEST_MSG_4_BUFF_SZ sz].

Section guc_state.
Context `{E : Env} `{S : SaveEnv}.

(** [blob] is what the buffer at [offset] holds, in bytes; the comparison is unsigned. *)
Definition guc_action_save_restore_vf (g : gt_id) (vfid : nat) (opcode offset sz : Z) (blob : list Z) : st dev Z :=
  ret ← intel_guc_send {| req_gt := g; req_msg := save_restore_msg vfid opcode offset sz; req_blob := blob |};
  mret (if negb (offset =? 0) && (u32 ret >? sz) then - EPROTO else ret).

Definition pf_save_vf_size (g : gt_id) (vfid : nat) : st dev Z :=
  ret ← guc_action_save_restore_vf g vfid GUC_PF_OPCODE_VF_SAVE 0 0 [];
  mret (if ret <? 0 then ret else ret * 4).

(** The result and the caller's buffer, in bytes. *)
Definition pf_save_vf (g : gt_id) (vfid : nat) (buf : list Z) (sz : Z) : st dev (Z * list Z) :=
  '(ret, offset) ← intel_guc_allocate_and_map_vma;
  if negb (ret =? 0) then mret (ret, buf) else
  log ← gets d_log;
  let req := {| req_gt := g; req_msg := save_restore_msg vfid GUC_PF_OPCODE_VF_SAVE offset (sz / 4); req_blob := [] |} in
  let blob := guc_blob log req (Z.to_nat sz) in
  ret ← guc_action_save_restore_vf g vfid GUC_PF_OPCODE_VF_SAVE offset (sz / 4) [];
  let '(rsize, buf) := if ret >? 0 then (u32 (ret * 4), put_front blob buf) else (0, buf) in
  mret (if ret <? 0 then (ret, buf) else (rsize, buf)).

Definition intel_iov_state_save_vf_size (g : gt_id) (vfid : nat) : st dev Z := pf_save_vf_size g vfid.

Definition intel_iov_state_save_vf (g : gt_id) (vfid : nat) (buf : list Z) (sz : Z) : st dev (Z * list Z) :=
  if sz <? PF2GUC_SAVE_RESTORE_VF_BUFF_MIN_SIZE then mret (- EINVAL, buf) else
  pf_save_vf g vfid buf (u32 sz).

Definition pf_restore_vf (g : gt_id) (vfid : nat) (buf : list Z) (sz : Z) : st dev Z :=
  '(ret, offset) ← intel_guc_allocate_and_map_vma;
  if ret <? 0 then mret ret else
  ret ← guc_action_save_restore_vf g vfid GUC_PF_OPCODE_VF_RESTORE offset (u32 (sz / 4)) (take (Z.to_nat sz) buf);
  mret (if ret <? 0 then ret else u32 (ret * 4)).

Definition intel_iov_state_restore_vf (g : gt_id) (vfid : nat) (buf : list Z) (sz : Z) : st dev Z :=
  if sz <? PF2GUC_SAVE_RESTORE_VF_BUFF_MIN_SIZE then mret (- EINVAL) else pf_restore_vf g vfid buf sz.

(** Under the provisioning mutex. *)
Definition intel_iov_state_store_guc_migration_state (g : gt_id) (vfid : nat) (buf : list Z) (sz : Z) : st dev Z :=
  if sz <? PF2GUC_SAVE_RESTORE_VF_BUFF_MIN_SIZE then mret (- EINVAL) else
  ret ← intel_iov_state_restore_vf g vfid buf sz;
  mret (if ret <? 0 then ret else 0).

(** ** The interface of the migration driver (i915_sriov.c) *)

Definition sriov_to_gt (tile : nat) : option gt_id :=
  if negb is_sriov_pf then None else
  if negb has_extra_gt_list && (0 <? tile)%nat then None else
  match tile with
  | 0%nat => Some GT_PRIMARY
  | 1%nat => if has_media_gt then Some GT_MEDIA else None
  | _ => None
  end.

(** The GT of the entries of a tile; a media GT has none. *)
Definition ggtt_gt (tile : nat) : option gt_id :=
  match sriov_to_gt tile with Some GT_MEDIA => None | gt => gt end.

Definition i915_sriov_ggtt_size (vfid tile : nat) (d : dev) : Z :=
  match ggtt_gt tile with
  | None => 0
  | Some g => fst (intel_iov_state_save_ggtt g vfid None 0 d)
  end.

Definition i915_sriov_ggtt_save (vfid tile : nat) (buf : pte_buf) (sz : Z) (d : dev) : Z * pte_buf :=
  match ggtt_gt tile with
  | None => (- ENODEV, buf)
  | Some g => intel_iov_state_save_ggtt g vfid buf sz d
  end.

Definition i915_sriov_ggtt_load (vfid tile : nat) (buf : pte_buf) (sz : Z) : st dev (option Z) :=
  match ggtt_gt tile with
  | None => mret (Some (- ENODEV))
  | Some g => intel_iov_state_restore_ggtt g vfid buf sz
  end.

Definition i915_sriov_fw_state_size (vfid tile : nat) : st dev Z :=
  match sriov_to_gt tile with
  | None => mret (- ENODEV)
  | Some g => intel_iov_state_save_vf_size g vfid
  end.

Definition i915_sriov_fw_state_save (vfid tile : nat) (buf : list Z) (sz : Z) : st dev (Z * list Z) :=
  match sriov_to_gt tile with
  | None => mret (- ENODEV, buf)
  | Some g => intel_iov_state_save_vf g vfid buf sz
  end.

Definition i915_sriov_fw_state_load (vfid tile : nat) (buf : list Z) (sz : Z) : st dev Z :=
  match sriov_to_gt tile with
  | None => mret (- ENODEV)
  | Some g => intel_iov_state_store_guc_migration_state g vfid buf sz
  end.
End guc_state.

(** ** Lemmas *)

Lemma ptes_size_pages n : 0 <= n <= 2 ^ 20 -> ggtt_size_to_ptes_size (n * PAGE_SIZE) = 8 * n.
Proof.
  intros Hn. change (2 ^ 20) with 1048576 in Hn. unfold ggtt_size_to_ptes_size, PAGE_SIZE, PAGE_SHIFT.
  rewrite Z.shiftr_div_pow2 by done. change (2 ^ 12) with 4096.
  rewrite Z.div_mul by done. rewrite u32_small; lia.
Qed.

Lemma length_get_ptes idx n t : length (get_ptes idx n t) = n.
Proof. unfold get_ptes. by rewrite length_fmap, length_seq. Qed.

Lemma lookup_get_ptes idx n t (k : nat) : (k < n)%nat -> get_ptes idx n t !! k = Some (t (idx + Z.of_nat k)).
Proof. intros Hk. unfold get_ptes. rewrite list_lookup_fmap, lookup_seq_lt by done. done. Qed.

Lemma put_front_full src dst : length dst = length src -> put_front src dst = src.
Proof. intros Hl. unfold put_front. by rewrite drop_ge, app_nil_r by lia. Qed.

(** A saved entry is given to its new owner and keeps all else. *)
Lemma restored_owner vfid p :
  0 <= vfid < 8 ->
  let q := Z.lor (clear_vfid p) (tgl_prepare_vf_pte_vfid vfid) in
  pte_vfid q = vfid /\ clear_vfid q = clear_vfid p.
Proof.
  intros Hv q. unfold q, pte_vfid, clear_vfid, tgl_prepare_vf_pte_vfid. split.
  - rewrite FIELD_GET_lor, (FIELD_GET_PREP_small _ 3 2) by (apply _ || lia).
    unfold FIELD_GET. rewrite <- Z.land_assoc, (Z.land_comm (Z.lnot _)), Z.land_lnot_diag, Z.land_0_r.
    by rewrite Z.shiftr_0_l.
  - rewrite Z.land_lor_distr_l, <- Z.land_assoc, Z.land_diag. unfold FIELD_PREP.
    by rewrite <- Z.land_assoc, Z.land_lnot_diag, Z.land_0_r, Z.lor_0_r.
Qed.

(** The flags of [intel_iov_state_restore_ggtt]: the VF, as a new owner. *)
Lemma restore_flags vfid :
  (vfid < 8)%nat ->
  let flags := Z.lor (FIELD_PREP I915_GGTT_RESTORE_PTES_VFID_MASK (Z.of_nat vfid)) I915_GGTT_RESTORE_PTES_NEW_VFID in
  FIELD_GET I915_GGTT_RESTORE_PTES_VFID_MASK flags = Z.of_nat vfid /\
  (Z.land flags I915_GGTT_RESTORE_PTES_NEW_VFID =? 0) = false.
Proof. intros Hv. do 8 (destruct vfid as [|vfid]; [by vm_compute|]). lia. Qed.

Section runs.
Context `{E : Env}.

(** A page aligned region of [n] pages. *)
Definition page_region (r : drm_mm_node) (n : Z) : Prop :=
  size r = n * PAGE_SIZE /\ 0 < n <= 2 ^ 20.

Lemma save_ggtt_size g vfid d n :
  let r := ggtt_region (cfg d g vfid) in
  require_binder = false -> allocated r = true -> page_region r n ->
  intel_iov_state_save_ggtt g vfid None 0 d = (8 * n, None).
Proof.
  intros r Hb Ha [Hr Hn]. unfold intel_iov_state_save_ggtt, i915_ggtt_save_ptes. fold r.
  rewrite Ha, Hb, Hr, ptes_size_pages by lia. done.
Qed.

Lemma save_ggtt_run g vfid d n buf :
  let r := ggtt_region (cfg d g vfid) in
  require_binder = false -> allocated r = true -> page_region r n -> Z.of_nat (length buf) = n ->
  intel_iov_state_save_ggtt g vfid (Some buf) (8 * n) d =
    (8 * n, Some (clear_vfid <$> get_ptes (start r / PAGE_SIZE) (Z.to_nat n) (d_ptes d))).
Proof.
  intros r Hb Ha [Hr Hn] Hl. unfold intel_iov_state_save_ggtt, i915_ggtt_save_ptes. fold r.
  change (2 ^ 20) with 1048576 in Hn.
  rewrite Ha, Hb, Hr, ptes_size_pages, u32_small by lia. cbn [negb].
  rewrite (proj2 (Z.eqb_neq (8 * n) 0)), Z.ltb_irrefl by lia.
  change (negb (Z.land I915_GGTT_SAVE_PTES_NO_VFID I915_GGTT_SAVE_PTES_NO_VFID =? 0)) with true. cbv iota.
  rewrite Z.shiftr_div_pow2 by done. change (2 ^ PAGE_SHIFT) with PAGE_SIZE.
  unfold ggtt_pte_clear_vfid. rewrite (Z.mul_comm 8), Z.div_mul by done.
  rewrite put_front_full by (rewrite length_get_ptes; lia).
  rewrite take_ge, drop_ge, app_nil_r by (rewrite length_get_ptes; lia). done.
Qed.

Lemma restore_ggtt_run g vfid d n r buf :
  ggtt_region (cfg d g vfid) = r ->
  require_binder = false -> (vfid < 8)%nat -> page_region r n ->
  0 < Z.of_nat (length buf) <= n ->
  intel_iov_state_restore_ggtt g vfid (Some buf) (8 * Z.of_nat (length buf)) d =
    (Some 0, set_table (set_ptes (start r / PAGE_SIZE)
       ((fun p => Z.lor p (tgl_prepare_vf_pte_vfid (Z.of_nat vfid))) <$> buf) (d_ptes d)) d).
Proof.
  intros Hreg Hb Hv [Hr Hn] Hl. destruct (restore_flags vfid Hv) as [Hf1 Hf2].
  change (2 ^ 20) with 1048576 in Hn.
  unfold intel_iov_state_restore_ggtt, i915_ggtt_restore_ptes, restored_pte, get_cfg, gets, mbind, st_bind.
  rewrite Hreg, Hb, Hr, ptes_size_pages, u32_small by lia. rewrite Hf1, Hf2. cbn [negb default].
  change (id buf) with buf. rewrite Z.gtb_ltb, (proj2 (Z.ltb_ge _ _)) by lia. unfold modify, mret, st_ret.
  rewrite Z.shiftr_div_pow2 by done. change (2 ^ PAGE_SHIFT) with PAGE_SIZE.
  rewrite (Z.mul_comm 8), Z.div_mul, take_ge by (done || lia). done.
Qed.
End runs.

(** ** Properties *)

(** C38: moving the GGTT of a VF between devices that need no binder. Entries saved for VF [a] of
    one device and loaded for VF [b] of another (or the same) one, whose region is no smaller, give
    [b] the same entries, page by page from the start of its region, in all but their owner, which
    is [b]; no other entry of the device changes. The size that is asked for first is the size that
    is saved. With a binder the shadow of the table is saved and loaded instead, which does not keep
    this ([shadow_restore_misplaced]). *)
Theorem ggtt_migrates (E1 E2 : Env) (S1 S2 : SaveEnv) (d1 : @dev E1) (d2 : @dev E2) a b tile1 tile2 n1 n2 buf :
  let r1 := ggtt_region (@cfg E1 d1 GT_PRIMARY a) in
  let r2 := ggtt_region (@cfg E2 d2 GT_PRIMARY b) in
  @ggtt_gt E1 S1 tile1 = Some GT_PRIMARY -> @ggtt_gt E2 S2 tile2 = Some GT_PRIMARY ->
  @require_binder E1 = false -> @require_binder E2 = false ->
  allocated r1 = true -> page_region r1 n1 -> page_region r2 n2 -> n1 <= n2 ->
  (b < 8)%nat -> Z.of_nat (length buf) = n1 ->
  @i915_sriov_ggtt_size E1 S1 a tile1 d1 = 8 * n1 /\
  let '(ret, saved) := @i915_sriov_ggtt_save E1 S1 a tile1 (Some buf) (8 * n1) d1 in
  ret = 8 * n1 /\
  let '(ret, d2') := @i915_sriov_ggtt_load E2 S2 b tile2 saved ret d2 in
  ret = Some 0 /\
  exists t, d2' = @set_table E2 t d2 /\ forall i,
    let k := i - start r2 / PAGE_SIZE in
    if decide (0 <= k < n1)
    then pte_vfid (t i) = Z.of_nat b /\
         clear_vfid (t i) = clear_vfid (@d_ptes E1 d1 (start r1 / PAGE_SIZE + k))
    else t i = @d_ptes E2 d2 i.
Proof.
  intros r1 r2 Ht1 Ht2 Hb1 Hb2 Ha Hr1 Hr2 Hle Hb Hbuf.
  unfold i915_sriov_ggtt_size, i915_sriov_ggtt_save, i915_sriov_ggtt_load. rewrite Ht1, Ht2. clear Ht1 Ht2.
  split; [by rewrite (@save_ggtt_size E1 _ _ _ n1)|].
  rewrite (@save_ggtt_run E1 _ _ _ n1) by done. split; [done|]. fold r1.
  set (saved := clear_vfid <$> _). destruct Hr1 as [Hr1 Hn1].
  assert (length saved = Z.to_nat n1) as Hl by (unfold saved; by rewrite length_fmap, length_get_ptes).
  replace (8 * n1) with (8 * Z.of_nat (length saved)) by lia.
  rewrite (@restore_ggtt_run E2 _ _ _ n2 r2) by (done || lia). split; [done|].
  eexists. split; [done|]. intros i. rewrite set_ptes_lookup, length_fmap, Hl.
  set (k := i - _).
  destruct (decide (0 <= k < n1)); [|by rewrite decide_False by lia].
  rewrite decide_True, list_lookup_fmap by lia. unfold saved.
  rewrite list_lookup_fmap, lookup_get_ptes by lia. cbn [fmap option_fmap option_map default].
  rewrite Z2Nat.id by lia. apply restored_owner. lia.
Qed.

(** What [i915_sriov_fw_state_save] can return: a buffer of less than 32 bytes is refused;
    GuC is asked once, for the whole buffer; the state it saved is in the buffer and its length
    is returned. Every error of GuC other than the allocation's is reported as [-EPROTO], since
    the reply is compared with the size as an unsigned number. *)
Theorem fw_state_save_result `{E : Env} `{S : SaveEnv} g vfid tile buf sz d :
  sriov_to_gt tile = Some g -> 0 <= sz < 2 ^ 30 -> Z.of_nat (length buf) = sz ->
  env_vma_addr (d_ticks d) <> 0 ->
  let req := {| req_gt := g; req_blob := [];
                req_msg := save_restore_msg vfid GUC_PF_OPCODE_VF_SAVE (env_vma_addr (d_ticks d)) (sz / 4) |} in
  let reply := guc_reply (d_log d) req in
  - 2 ^ 31 <= reply < 2 ^ 31 ->
  let '((ret, out), d') := i915_sriov_fw_state_save vfid tile buf sz d in
  if decide (sz < 32) then ret = - EINVAL /\ out = buf /\ d' = d
  else if decide (env_vma (d_ticks d) <> 0) then ret = env_vma (d_ticks d) /\ out = buf /\ d_log d' = d_log d
  else d_log d' = d_log d ++ [req] /\ same_pf d d' /\
    if decide (0 < reply <= sz / 4) then ret = 4 * reply /\ out = guc_blob (d_log d) req (Z.to_nat sz)
    else out = buf /\ ret = if decide (reply = 0) then 0 else - EPROTO.
Proof.
  intros Hg Hsz Hl Haddr req reply Hr. change (2 ^ 30) with 1073741824 in Hsz. change (2 ^ 31) with 2147483648 in Hr.
  assert (u32 reply = if decide (0 <= reply) then reply else reply + 4294967296) as Hu.
  { unfold u32. change (2 ^ 32) with 4294967296. case_decide; [apply Z.mod_small; lia|].
    rewrite <- (Z_mod_plus_full reply 1). apply Z.mod_small. lia. }
  assert (0 <= sz / 4 < 2 ^ 28) as Hq by (change (2 ^ 28) with 268435456; dlia). change (2 ^ 28) with 268435456 in Hq.
  unfold i915_sriov_fw_state_save. rewrite Hg. unfold intel_iov_state_save_vf, PF2GUC_SAVE_RESTORE_VF_BUFF_MIN_SIZE.
  destruct (Z.ltb_spec sz 32), (decide (sz < 32)); [done|lia|lia|].
  rewrite u32_small by lia. unfold pf_save_vf, guc_action_save_restore_vf, intel_guc_allocate_and_map_vma,
    intel_guc_send, mbind, st_bind, gets. cbn [fst snd d_log d_ticks d_live upd_hw].
  destruct (Z.eqb_spec (env_vma (d_ticks d)) 0) as [Hv|Hv], (decide (env_vma (d_ticks d) <> 0));
    cbn [negb]; [done| |done|done].
  cbn [d_log d_ticks d_live upd_hw]. unfold mret, st_ret. fold req. fold reply. rewrite (proj2 (Z.eqb_neq _ _) Haddr), Hu. cbn [negb andb].
  assert (((if decide (0 <= reply) then reply else reply + 4294967296) >? sz / 4) = negb (bool_decide (0 <= reply <= sz / 4))) as ->.
  { rewrite Z.gtb_ltb. case_decide; destruct (bool_decide_reflect (0 <= reply <= sz / 4)); cbn [negb];
      first [apply Z.ltb_ge; lia|apply Z.ltb_lt; lia]. }
  destruct (decide (0 < reply <= sz / 4)).
  - rewrite bool_decide_true by lia. cbn [negb].
    rewrite Z.gtb_ltb, (proj2 (Z.ltb_lt 0 reply)), (proj2 (Z.ltb_ge reply 0)), u32_small by lia.
    cbn. split_and!; [done|by constructor|lia|]. apply put_front_full. rewrite guc_blob_length. lia.
  - destruct (decide (reply = 0)) as [->|Hne]; [rewrite bool_decide_true by lia; cbn; by split_and!|].
    rewrite bool_decide_false by lia. cbn. by split_and!.
Qed.

(** ** Findings and witnesses *)

#[export] Instance sample_save_env : SaveEnv.
Proof.
  refine {| guc_blob _ _ n := replicate n 0xa5; is_sriov_pf := true; has_extra_gt_list := true |}.
  intros _ _ n. apply length_replicate.
Defined.

Section samples.
#[local] Existing Instance sample_env.

(** Load does not clear the owner of the entries it is given: an entry that carries VF2, loaded
    for VF1, goes to VF3. *)
Theorem load_foreign_owner :
  let '(ret, d') := i915_sriov_ggtt_load 1 0 (Some [0x5009]) 8 sample_two_vfs in
  ret = Some 0 /\ pte_vfid 0x5009 = 2 /\ pte_vfid (d_ptes d' 0x200) = 3.
Proof. by vm_compute. Qed.

(** VF1 had a region that VF2 has now. *)
Definition sample_moved : st dev (Z * Z * Z) :=
  r1 ← intel_iov_provisioning_set_ggtt GT_PRIMARY 1 0x10000;
  r2 ← intel_iov_provisioning_set_ggtt GT_PRIMARY 1 0;
  r3 ← intel_iov_provisioning_set_ggtt GT_PRIMARY 2 0x10000;
  mret (r1, r2, r3).

(** Unlike the save, the load of a VF's GGTT does not check that the VF has a region. After
    VF1's region was released and given to VF2, the load for VF1 succeeds and takes over the
    first page of VF2, since the released node keeps its place and size. *)
Theorem load_released_region :
  let '(rs, d) := sample_moved sample_dev in
  let first := start (ggtt_region (cfg d GT_PRIMARY 2)) / PAGE_SIZE in
  rs = (0, 0, 0) /\ allocated (ggtt_region (cfg d GT_PRIMARY 1)) = false /\
  pte_vfid (d_ptes d first) = 2 /\
  fst (i915_sriov_ggtt_save 1 0 (Some [0]) 8 d) = - EINVAL /\
  let '(ret, d') := i915_sriov_ggtt_load 1 0 (Some [0x5001]) 8 d in
  ret = Some 0 /\ pte_vfid (d_ptes d' first) = 1.
Proof. vm_compute. done. Qed.

Lemma ggtt_migrates_witness :
  let '(ret, saved) := i915_sriov_ggtt_save 1 0 (Some [0]) 8 sample_two_vfs in
  let '(ret2, d2') := i915_sriov_ggtt_load 3 0 saved ret sample_shadowed in
  ret = 8 /\ ret2 = Some 0 /\ pte_vfid (d_ptes d2' 0x300) = 3.
Proof.
  pose proof (ggtt_migrates sample_env sample_env _ _ sample_two_vfs sample_shadowed 1 3 0 0 1 2 [0]
    eq_refl eq_refl eq_refl eq_refl eq_refl ltac:(by vm_compute) ltac:(by vm_compute) ltac:(lia)
    ltac:(lia) eq_refl) as [_ Hw].
  destruct (i915_sriov_ggtt_save _ _ _ _ _) as [ret saved]. destruct Hw as [-> Hw].
  change (8 * 1) with 8 in *. destruct (i915_sriov_ggtt_load _ _ _ _ _) as [ret2 d2'].
  destruct Hw as (-> & t & -> & Ht). split_and!; [done..|]. specialize (Ht 0x300).
  rewrite decide_True in Ht by (by vm_compute). apply Ht.
Defined.

Lemma fw_state_save_result_witness :
  fst (fst (i915_sriov_fw_state_save 1 0 (replicate 32 0) 32 sample_dev)) = 4.
Proof.
  pose proof (fw_state_save_result GT_PRIMARY 1 0 (replicate 32 0) 32 sample_dev
    eq_refl ltac:(lia) eq_refl ltac:(by vm_compute) ltac:(by vm_compute)) as Hw.
  destruct (i915_sriov_fw_state_save _ _ _ _ _) as [[ret out] d'].
  destruct (decide (32 < 32)); [lia|]. cbn [fst].
  destruct Hw as (_ & _ & -> & _). done.
Defined.
End samples.

(** Like the sample environment, but the GGTT must be updated by the GPU, which works. *)
Definition sample_env_bound : Env := {|
  env_gtt := sample_gtt; has_media_gt := true; env_alloc _ := true; env_vma _ := 0;
  env_vma_addr _ := 0x100000; guc_reply _ _ := 1; ggtt_pin_bias := 0x100000;
  ggtt_total := sample_total; wopcm_guc_size _ := 0x100000;
  require_binder := true; bind_ready _ := true; bind_fails_after _ := None; scratch_pte := 1 |}.

(** VF1 has the page 0x200 and a shadow, VF2 the page 0x201. *)
Definition sample_bound_dev : @dev sample_env_bound := {|
  d_prov _ := {| auto_mode := false; num_pushed := 0; worker_queued := false;
    policies := policies sample_prov; spare := spare sample_prov;
    configs := [config0; set_region (sample_node 0x200000 0x1000) config0;
                set_region (sample_node 0x201000 0x1000) config0]; self_done := false |};
  d_totalvfs := 2; d_numvfs := 0; d_status := 4; d_disable_auto := false; d_ids_in_use _ := 0;
  d_num_guc_ids _ := 0; d_mm := ([] : list (Z * Z)) : @gtt_space (@env_gtt sample_env_bound);
  d_ptes := set_ptes 0x200 [i915_ggtt_prepare_vf_pte 1; i915_ggtt_prepare_vf_pte 2] (fun _ => 0);
  d_shadows := Some [shadow0;
    {| shadow_ptes := Some [0]; shadow_region := Some 1%nat; shadow_vfid := 1 |}; shadow0];
  d_log := []; d_ticks := 0; d_live := 0 |}.

(** [pf_ggtt_shadow_restore_ggtt] passes the address behind the entries of a run: loading VF1's
    only entry takes over the page of VF2 behind its region and leaves its own as it was. *)
Theorem shadow_restore_misplaced :
  let '(ret, d') := @i915_sriov_ggtt_load sample_env_bound _ 1 0 (Some [0x5001]) 8 sample_bound_dev in
  ret = Some 8 /\ d_ptes d' 0x200 = d_ptes sample_bound_dev 0x200 /\
  pte_vfid (d_ptes sample_bound_dev 0x201) = 2 /\ pte_vfid (d_ptes d' 0x201) = 1 /\
  pte_addr (d_ptes d' 0x201) = 5.
Proof. vm_compute. done. Qed.
