(* ===== verification/Sched.v ===== *)
(** * Scheduling parameters and thresholds of a VF

    The execution quantum, the preemption timeout and the adverse-event thresholds of
    gt/iov/intel_iov_provisioning.c: one 32-bit key each, kept only when GuC confirms it. *)

From S2P Require Export GucCfg Sample.

Section sched.
Context `{E : Env}.

Definition pf_push_config_exec_quantum (g : gt_id) (id : nat) (v : Z) : st dev Z :=
  guc_update_vf_klv32 g id GUC_KLV_VF_CFG_EXEC_QUANTUM_KEY v.

Definition pf_provision_exec_quantum (g : gt_id) (id : nat) (v : Z) : st dev Z :=
  config ← get_cfg g id;
  if v =? exec_quantum config then mret 0 else
  err ← pf_push_config_exec_quantum g id v;
  if negb (err =? 0) then mret err else
  mod_cfg g id (set_eq v) ≫= fun _ => mret 0.

Definition pf_reprovision_exec_quantum (g : gt_id) (id : nat) : st dev Z :=
  config ← get_cfg g id;
  pf_push_config_exec_quantum g id (exec_quantum config).

Definition intel_iov_provisioning_set_exec_quantum (g : gt_id) (id : nat) (v : Z) : st dev Z :=
  err ← pf_provision_exec_quantum g id v;
  mark_manual_if ((err =? 0) && negb (v =? 0) && negb (id =? PFID)%nat) ≫= fun _ => mret err.

Definition intel_iov_provisioning_get_exec_quantum (g : gt_id) (id : nat) (d : dev) : Z :=
  exec_quantum (cfg d g id).

Definition pf_push_config_preempt_timeout (g : gt_id) (id : nat) (v : Z) : st dev Z :=
  guc_update_vf_klv32 g id GUC_KLV_VF_CFG_PREEMPT_TIMEOUT_KEY v.

Definition pf_provision_preempt_timeout (g : gt_id) (id : nat) (v : Z) : st dev Z :=
  config ← get_cfg g id;
  if v =? preempt_timeout config then mret 0 else
  err ← pf_push_config_preempt_timeout g id v;
  if negb (err =? 0) then mret err else
  mod_cfg g id (set_pt v) ≫= fun _ => mret 0.

Definition pf_reprovision_preempt_timeout (g : gt_id) (id : nat) : st dev Z :=
  config ← get_cfg g id;
  pf_push_config_preempt_timeout g id (preempt_timeout config).

Definition intel_iov_provisioning_set_preempt_timeout (g : gt_id) (id : nat) (v : Z) : st dev Z :=
  err ← pf_provision_preempt_timeout g id v;
  mark_manual_if ((err =? 0) && negb (v =? 0) && negb (id =? PFID)%nat) ≫= fun _ => mret err.

Definition intel_iov_provisioning_get_preempt_timeout (g : gt_id) (id : nat) (d : dev) : Z :=
  preempt_timeout (cfg d g id).

Definition pf_provision_threshold (g : gt_id) (id : nat) (t : intel_iov_threshold) (v : Z) : st dev Z :=
  config ← get_cfg g id;
  if v =? threshold_of t config then mret 0 else
  err ← guc_update_vf_klv32 g id (intel_iov_threshold_to_klv_key t) v;
  if negb (err =? 0) then mret err else
  mod_cfg g id (set_threshold t v) ≫= fun _ => mret 0.

Definition intel_iov_provisioning_set_threshold (g : gt_id) (id : nat) (t : intel_iov_threshold) (v : Z)
  : st dev Z :=
  err ← pf_provision_threshold g id t v;
  mark_manual_if ((err =? 0) && negb (v =? 0)) ≫= fun _ => mret err.

Definition intel_iov_provisioning_get_threshold (g : gt_id) (id : nat) (t : intel_iov_threshold) (d : dev) : Z :=
  threshold_of t (cfg d g id).

(** The macro-generated sequence, results ignored. *)
Fixpoint unprovision_thresholds (g : gt_id) (id : nat) (ts : list intel_iov_threshold) : st dev unit :=
  match ts with
  | [] => mret tt
  | t :: ts => pf_provision_threshold g id t 0 ≫= fun _ => unprovision_thresholds g id ts
  end.
Definition pf_unprovision_thresholds (g : gt_id) (id : nat) : st dev unit :=
  unprovision_thresholds g id IOV_THRESHOLDS.
End sched.

(** ** One parameter under one key *)

(** The three setters have one shape: [get] reads the field, [put] writes it. *)
Section param.
Context `{E : Env} (g : gt_id) (id : nat) (key : Z) (get : intel_iov_config -> Z)
  (put : Z -> intel_iov_config -> intel_iov_config).

Definition provision_param (v : Z) : st dev Z :=
  config ← get_cfg g id;
  if v =? get config then mret 0 else
  err ← guc_update_vf_klv32 g id key v;
  if negb (err =? 0) then mret err else
  mod_cfg g id (put v) ≫= fun _ => mret 0.

Lemma vf_klv32_run v d :
  let req := vf_cfg_req g (Z.of_nat id) (env_vma_addr (d_ticks d)) 2 [klv_header key 1; v] in
  guc_update_vf_klv32 g id key v d =
    if decide (env_vma (d_ticks d) = 0)
    then (klv_result (guc_reply (d_log d) req),
          upd_hw (d_log d ++ [req]) (S (d_ticks d)) (d_live d) d)
    else (env_vma (d_ticks d), upd_hw (d_log d) (S (d_ticks d)) (d_live d) d).
Proof.
  unfold guc_update_vf_klv32, guc_action_update_vf_cfg, mbind, st_bind. simpl.
  case_decide as E'; [by rewrite E'|]. by rewrite (proj2 (Z.eqb_neq _ _) E').
Qed.

(** Unchanged values are not sent; otherwise one request carries [key = v], and the field
    changes exactly when GuC confirms it. *)
Definition param_req (d : dev) (v : Z) : guc_req :=
  vf_cfg_req g (Z.of_nat id) (env_vma_addr (d_ticks d)) 2 [klv_header key 1; v].
Definition param_post (v : Z) (d : dev) (ret : Z) (d' : dev) : Prop :=
  (forall g' id', g' <> g \/ id' <> id -> cfg d' g' id' = cfg d g' id') /\
  if decide (v = get (cfg d g id)) then ret = 0 /\ d_log d' = d_log d /\ cfg d' g id = cfg d g id
  else if decide (env_vma (d_ticks d) = 0) then
    d_log d' = d_log d ++ [param_req d v] /\
    ret = klv_result (guc_reply (d_log d) (param_req d v)) /\
    cfg d' g id = (if decide (guc_reply (d_log d) (param_req d v) = 1)
                   then put v (cfg d g id) else cfg d g id)
  else ret = env_vma (d_ticks d) /\ d_log d' = d_log d /\ cfg d' g id = cfg d g id.
Definition param_outcome (v : Z) (op : st dev Z) (d : dev) : Prop :=
  let '(ret, d') := op d in
  pf_verify_config_klvs (req_blob (param_req d v)) = Some [(key, Klv32 v)] /\
  param_post v d ret d'.

Lemma wp_provision_param v d :
  (id < length (configs (d_prov d g)))%nat ->
  wp (provision_param v) (param_post v d) d.
Proof.
  intros Hlt. unfold provision_param, param_post. apply wp_bind, wp_get_cfg.
  apply wp_if; intros Hb; propify.
  { apply wp_ret. rewrite (decide_True (P := v = get (cfg d g id))) by done. done. }
  apply wp_bind. unfold wp at 1. rewrite vf_klv32_run. fold (param_req d v).
  pose proof (klv_result_0 (guc_reply (d_log d) (param_req d v))) as H0.
  case_decide as Hva; simpl.
  - destruct (Z.eqb_spec (klv_result (guc_reply (d_log d) (param_req d v))) 0) as [Hr|Hr]; simpl.
    + apply wp_bind, wp_mod_cfg, wp_ret. rewrite decide_False, decide_True by tauto. split_and!.
      * intros g' id' Hne. by rewrite cfg_upd_ne.
      * done.
      * done.
      * by rewrite cfg_upd_eq.
    + apply wp_ret. by rewrite !decide_False by tauto.
  - rewrite (proj2 (Z.eqb_neq _ 0)) by done. apply wp_ret. by rewrite decide_False by tauto.
Qed.

Lemma provision_param_outcome v d (b : Z -> bool) :
  is_klv_key key -> (id < length (configs (d_prov d g)))%nat ->
  param_outcome v
    (err ← provision_param v; mark_manual_if (b err) ≫= fun _ => mret err) d.
Proof.
  intros Hk Hlt. unfold param_outcome. apply wp_let.
  pose proof (decodes_verify _ _ (decodes_klv32 key v [] [] Hk decodes_nil)) as Hv.
  apply wp_bind. eapply wp_mono; [apply wp_provision_param, Hlt|].
  intros ret d' HQ. apply wp_bind, wp_mark_manual; by apply wp_ret.
Qed.
End param.

(** ** Properties *)

(** The execution quantum, the preemption timeout and each threshold of a VF: setting one
    sends nothing if the value is unchanged, otherwise exactly one request with that one key,
    and the configuration changes, in that field only, exactly when GuC reports one parsed
    key; an error is returned in every other case. *)
Theorem sched_params_commit `{E : Env} g id t v d :
  (id < length (configs (d_prov d g)))%nat ->
  param_outcome g id GUC_KLV_VF_CFG_EXEC_QUANTUM_KEY exec_quantum set_eq v
    (intel_iov_provisioning_set_exec_quantum g id v) d /\
  param_outcome g id GUC_KLV_VF_CFG_PREEMPT_TIMEOUT_KEY preempt_timeout set_pt v
    (intel_iov_provisioning_set_preempt_timeout g id v) d /\
  param_outcome g id (intel_iov_threshold_to_klv_key t) (threshold_of t) (set_threshold t) v
    (intel_iov_provisioning_set_threshold g id t v) d.
Proof.
  intros Hlt. split_and!.
  - apply (provision_param_outcome g id _ exec_quantum set_eq v d
      (fun err => (err =? 0) && negb (v =? 0) && negb (id =? PFID)%nat)); [klv_key|done].
  - apply (provision_param_outcome g id _ preempt_timeout set_pt v d
      (fun err => (err =? 0) && negb (v =? 0) && negb (id =? PFID)%nat)); [klv_key|done].
  - apply (provision_param_outcome g id _ (threshold_of t) (set_threshold t) v d
      (fun err => (err =? 0) && negb (v =? 0))); [destruct t; klv_key|done].
Qed.

Section witnesses.
#[local] Existing Instance sample_env.

Lemma sched_params_commit_witness :
  let '(ret, d') := intel_iov_provisioning_set_exec_quantum GT_PRIMARY 2 20 sample_dev in
  ret = 0 /\ cfg d' GT_PRIMARY 2 = set_eq 20 (cfg sample_dev GT_PRIMARY 2).
Proof.
  destruct (sched_params_commit GT_PRIMARY 2 IOV_THRESHOLD_CAT_ERR 20 sample_dev
    ltac:(simpl; lia)) as [Hw _]. unfold param_outcome in Hw.
  destruct (intel_iov_provisioning_set_exec_quantum GT_PRIMARY 2 20 sample_dev).
  destruct Hw as (_ & _ & Hw). vm_compute in Hw. vm_compute. tauto.
Defined.
End witnesses.
