(* ===== verification/Provisioning.v ===== *)
(** * Provisioning of the VFs as a whole

    The life cycle of gt/iov/intel_iov_provisioning.c: the automatic provisioning and its roll
    back, the release of everything a VF was given, the validation of the configurations, their
    push to GuC and its undoing, the restart after a GuC reset with the worker that provisions
    again, the PF's own configuration, and the automatic-provisioning switch of i915_sriov.c. *)

From S2P Require Export Ctxs Dbs GgttProv Sched.

(** ** The operations *)

Section prov.
Context `{E : Env} `{B : BitmapOps}.

Definition pf_is_auto_provisioned (g : gt_id) (d : dev) : bool := auto_mode (d_prov d g).
Definition pf_set_auto_provisioning (g : gt_id) (value : bool) : st dev unit :=
  p ← get_prov g;
  if Bool.eqb (auto_mode p) value then mret tt else mod_prov g (set_auto_mode value).

(** [kcalloc] of the configurations; without them the PF is in error. *)
Definition intel_iov_provisioning_init_early (g : gt_id) : st dev unit :=
  ok ← kvzalloc;
  if negb ok then modify (fun d => upd_sriov (d_numvfs d) (- ENOMEM) (d_disable_auto d) d) else
  modify (fun d => upd_prov g (set_configs (replicate (S (d_totalvfs d)) config0)) d) ≫= fun _ =>
  mod_prov g (set_worker false).
Definition intel_iov_provisioning_release (g : gt_id) : st dev unit :=
  mod_prov g (set_configs []).

Definition intel_iov_provisioning_init (g : gt_id) : st dev unit :=
  aborted ← gets i915_sriov_pf_aborted;
  if aborted : bool then mret tt else pf_assign_ctxs_for_pf g.

(** *** Releasing what the VFs were given; the results are ignored *)

Definition pf_unprovision_config (g : gt_id) (id : nat) : st dev unit :=
  pf_provision_ggtt g id 0 ≫= fun _ =>
  pf_provision_ctxs g id 0 ≫= fun _ =>
  pf_provision_dbs g id 0 ≫= fun _ =>
  pf_provision_exec_quantum g id 0 ≫= fun _ =>
  pf_provision_preempt_timeout g id 0 ≫= fun _ =>
  pf_unprovision_thresholds g id.

(** VFs [n], ..., 1 *)
Fixpoint unprovision_down (g : gt_id) (n : nat) : st dev unit :=
  match n with
  | O => mret tt
  | S m => pf_unprovision_config g n ≫= fun _ => unprovision_down g m
  end.
Definition pf_unprovision_all (g : gt_id) : st dev unit :=
  num_vfs ← gets d_totalvfs;
  unprovision_down g num_vfs.

Definition pf_auto_unprovision (g : gt_id) : st dev unit :=
  auto ← gets (pf_is_auto_provisioned g);
  (if auto : bool then pf_unprovision_all g else mret tt) ≫= fun _ =>
  pf_set_auto_provisioning g false.

(** *** Automatic provisioning *)

(** The loop of the three functions below over the VFs [ids]. *)
Fixpoint auto_each (valid : nat -> dev -> bool) (provision : nat -> st dev Z) (ids : list nat)
  : st dev Z :=
  match ids with
  | [] => mret 0
  | n :: ids =>
      v ← gets (valid n);
      if v : bool then mret (- EUCLEAN) else
      err ← provision n;
      if negb (err =? 0) then mret err else auto_each valid provision ids
  end.

Definition pf_auto_provision_ggtt (g : gt_id) (num_vfs : nat) : st dev Z :=
  available ← gets (pf_get_max_ggtt g);
  let fair := ALIGN_DOWN (available / Z.of_nat num_vfs) pf_get_ggtt_alignment in
  if fair =? 0 then mret (- ENOSPC) else
  auto_each (pf_is_valid_config_ggtt g) (fun n => pf_provision_ggtt g n fair) (seq 1 num_vfs).

Definition pf_auto_provision_ctxs (g : gt_id) (num_vfs : nat) : st dev Z :=
  available ← pf_get_ctxs_free g;
  let fair := u16 (ALIGN_DOWN (available / Z.of_nat num_vfs) CTXS_GRANULARITY) in
  if fair =? 0 then mret (- ENOSPC) else
  auto_each (pf_is_valid_config_ctxs g) (fun n => pf_provision_ctxs g n fair) (seq 1 num_vfs).

Definition pf_auto_provision_dbs (g : gt_id) (num_vfs : nat) : st dev Z :=
  config ← get_cfg g PFID;
  let available := u16 (GUC_NUM_DOORBELLS - num_dbs config) in
  let fair := u16 (available / Z.of_nat num_vfs) in
  if fair =? 0 then mret (- ENOSPC) else
  auto_each (pf_is_valid_config_dbs g) (fun n => pf_provision_dbs g n fair) (seq 1 num_vfs).

(** The label [fail]. *)
Definition auto_fail (g : gt_id) (err : Z) : st dev Z :=
  pf_auto_unprovision g ≫= fun _ => mret err.

Definition pf_auto_provision (g : gt_id) (num_vfs : nat) : st dev Z :=
  enabled ← gets i915_sriov_pf_is_auto_provisioning_enabled;
  if negb enabled then auto_fail g (- EPERM) else
  pf_set_auto_provisioning g true ≫= fun _ =>
  err ← (if decide (g = GT_MEDIA) then mret 0 else pf_auto_provision_ggtt g num_vfs);
  if negb (err =? 0) then auto_fail g err else
  err ← pf_auto_provision_ctxs g num_vfs;
  if negb (err =? 0) then auto_fail g err else
  err ← pf_auto_provision_dbs g num_vfs;
  if negb (err =? 0) then auto_fail g err else mret 0.

Definition intel_iov_provisioning_auto (g : gt_id) (num_vfs : nat) : st dev Z :=
  if negb (num_vfs =? 0)%nat then pf_auto_provision g num_vfs
  else pf_auto_unprovision g ≫= fun _ => mret 0.

(** *** Validation *)

Definition validate_result (valid_any valid_all : bool) : Z :=
  if negb valid_all then (if valid_any then - ENOKEY else - ENODATA) else 0.

(** [pf_validate_config] on the root GT, which the media GT's consults. *)
Definition pf_validate_root (id : nat) (d : dev) : Z :=
  let valid_ggtt := pf_is_valid_config_ggtt GT_PRIMARY id d in
  let valid_ctxs := pf_is_valid_config_ctxs GT_PRIMARY id d in
  let valid_dbs := pf_is_valid_config_dbs GT_PRIMARY id d in
  validate_result (valid_ggtt || valid_ctxs || valid_dbs) (valid_ggtt && valid_ctxs).
Definition pf_validate_config (g : gt_id) (id : nat) (d : dev) : Z :=
  if decide (g = GT_MEDIA) then
    let valid_ctxs := pf_is_valid_config_ctxs g id d in
    let valid_dbs := pf_is_valid_config_dbs g id d in
    let valid_ggtt := pf_is_valid_config_ggtt GT_PRIMARY id d in
    let valid_any := valid_ctxs || valid_dbs in
    validate_result valid_any
      (valid_any && valid_ggtt && valid_ctxs && (pf_validate_root id d =? 0))
  else pf_validate_root id d.

(** The counters (num_valid, num_empty) after one more VF. *)
Definition verify_count (g : gt_id) (d : dev) (acc : nat * nat) (n : nat) : nat * nat :=
  let err := pf_validate_config g n d in
  if err =? 0 then (S acc.1, acc.2)
  else if err =? - ENODATA then (acc.1, S acc.2) else acc.
Definition intel_iov_provisioning_verify (g : gt_id) (num_vfs : nat) (d : dev) : Z :=
  let '(num_valid, num_empty) := foldl (verify_count g d) (0%nat, 0%nat) (seq 1 num_vfs) in
  if (num_empty =? num_vfs)%nat then - ENODATA
  else if negb (num_valid + num_empty =? num_vfs)%nat then - ENOKEY
  else 0.

(** *** Pushing to GuC *)

(** The buffer filled for VF [n]. *)
Definition push_blob (g : gt_id) (n : nat) (d : dev) : list Z :=
  (if negb (pf_validate_config g n d =? - ENODATA) then encode_config (cfg d g n) else []) ++
  (if decide (g = GT_MEDIA) then encode_config_ggtt (cfg d GT_PRIMARY n) else []).

Fixpoint push_each (g : gt_id) (cfg_addr : Z) (ids : list nat) : st dev Z :=
  match ids with
  | [] => mret 0
  | n :: ids =>
      blob ← gets (push_blob g n);
      err ← (if negb (length blob =? 0)%nat
             then guc_action_update_vf_cfg g n cfg_addr (Z.of_nat (length blob)) blob
             else mret 0);
      if err <? 0 then mret err else push_each g cfg_addr ids
  end.
Definition pf_push_configs (g : gt_id) (num : nat) : st dev Z :=
  vma ← intel_guc_allocate_and_map_vma;
  let '(err, cfg_addr) := vma in
  if negb (err =? 0) then mret err else
  err ← push_each g cfg_addr (seq 1 num);
  if err <? 0 then mret err else
  mod_prov g (set_num_pushed num) ≫= fun _ => mret 0.

(** Resets the configurations of VFs [n], ..., 1; the VF at which GuC refused, or 0. *)
Fixpoint reset_down (g : gt_id) (n : nat) : st dev nat :=
  match n with
  | O => mret 0%nat
  | S m =>
      err ← guc_action_update_vf_cfg g n 0 0 [];
      if err <? 0 then mret n else reset_down g m
  end.
Definition pf_push_no_configs (g : gt_id) : st dev Z :=
  p ← get_prov g;
  n ← reset_down g (num_pushed p);
  mod_prov g (set_num_pushed n) ≫= fun _ =>
  mret (if (n =? 0)%nat then 0 else - ESTALE).

Definition intel_iov_provisioning_push (g : gt_id) (num : nat) : st dev Z :=
  err ← gets i915_sriov_pf_status;
  if err <? 0 then mret err else
  if negb (num =? 0)%nat then pf_push_configs g num else pf_push_no_configs g.

Definition pf_fini_reprovisioning_worker (g : gt_id) : st dev unit := mod_prov g (set_worker false).
Definition intel_iov_provisioning_fini (g : gt_id) : st dev unit :=
  pf_fini_reprovisioning_worker g ≫= fun _ => pf_unprovision_all g.

Definition pf_start_reprovisioning_worker (g : gt_id) : st dev unit := mod_prov g (set_worker true).
Definition intel_iov_provisioning_restart (g : gt_id) : st dev unit :=
  mod_prov g (set_num_pushed 0) ≫= fun _ =>
  mod_prov g (set_self_done false) ≫= fun _ =>
  status ← gets i915_sriov_pf_status;
  if status >? 0 then pf_start_reprovisioning_worker g else mret tt.

(** *** The PF's own configuration *)

Definition pf_push_self_config (g : gt_id) : st dev Z :=
  let ggtt_start := wopcm_guc_size g in
  let ggtt_size := u64 (GUC_GGTT_TOP - ggtt_start) in
  e1 ← guc_update_vf_klv64 g PFID GUC_KLV_VF_CFG_GGTT_START_KEY ggtt_start;
  e2 ← guc_update_vf_klv64 g PFID GUC_KLV_VF_CFG_GGTT_SIZE_KEY ggtt_size;
  e3 ← guc_update_vf_klv32 g PFID GUC_KLV_VF_CFG_BEGIN_CONTEXT_ID_KEY 0;
  e4 ← guc_update_vf_klv32 g PFID GUC_KLV_VF_CFG_NUM_CONTEXTS_KEY GUC_MAX_CONTEXT_ID;
  e5 ← guc_update_vf_klv32 g PFID GUC_KLV_VF_CFG_BEGIN_DOORBELL_ID_KEY 0;
  e6 ← guc_update_vf_klv32 g PFID GUC_KLV_VF_CFG_NUM_DOORBELLS_KEY GUC_NUM_DOORBELLS;
  let err := Z.lor (Z.lor (Z.lor (Z.lor (Z.lor e1 e2) e3) e4) e5) e6 in
  mret (if negb (err =? 0) then - EREMOTEIO else 0).

Definition intel_iov_provisioning_force_vgt_mode (g : gt_id) : st dev Z :=
  status ← gets i915_sriov_pf_status;
  if status <? 0 then mret (- EIO) else
  p ← get_prov g;
  if self_done p then mret 0 else
  err ← pf_push_self_config g;
  if negb (err =? 0) then mret err else
  mod_prov g (set_self_done true) ≫= fun _ => mret 0.

(** *** Provisioning again after a reset of GuC *)

Definition pf_reprovision_pf (g : gt_id) : st dev unit :=
  intel_iov_provisioning_force_vgt_mode g ≫= fun _ =>
  pf_reprovision_sched_if_idle g ≫= fun _ =>
  pf_reprovision_reset_engine g ≫= fun _ =>
  pf_reprovision_sample_period g ≫= fun _ =>
  pf_reprovision_exec_quantum g PFID ≫= fun _ =>
  pf_reprovision_preempt_timeout g PFID ≫= fun _ => mret tt.

Definition pf_do_reprovisioning (g : gt_id) : st dev unit :=
  numvfs ← gets d_numvfs;
  pf_reprovision_pf g ≫= fun _ =>
  if (numvfs =? 0)%nat then mret tt else
  intel_iov_provisioning_push g numvfs ≫= fun _ => mret tt.

(** The work item leaves the queue when it starts. *)
Definition pf_reprovisioning_worker_func (g : gt_id) : st dev unit :=
  mod_prov g (set_worker false) ≫= fun _ => pf_do_reprovisioning g.

Definition intel_iov_provisioning_clear (g : gt_id) (id : nat) : st dev Z :=
  err ← guc_action_update_vf_cfg g id 0 0 [];
  if err =? 0 then pf_unprovision_config g id ≫= fun _ => mret err else mret err.

(** *** The switch of i915_sriov.c *)

Definition i915_gts : list gt_id := GT_PRIMARY :: (if has_media_gt then [GT_MEDIA] else []).
Fixpoint all_gts_empty (gts : list gt_id) (d : dev) : bool :=
  match gts with
  | [] => true
  | g :: gts =>
      if intel_iov_provisioning_verify g (d_totalvfs d) d =? - ENODATA
      then all_gts_empty gts d else false
  end.
Definition i915_sriov_pf_set_auto_provisioning (enable : bool) : st dev Z :=
  enabled ← gets i915_sriov_pf_is_auto_provisioning_enabled;
  if Bool.eqb enable enabled then mret 0 else
  ok ← (if enable then gets (all_gts_empty i915_gts) else mret true);
  if negb ok then mret (- ESTALE) else
  modify (fun d => upd_sriov (d_numvfs d) (d_status d) (negb enable) d) ≫= fun _ => mret 0.
End prov.

(** ** Frames *)

Section frames.
Context `{E : Env}.

(** [d'] differs from [d] in the configurations of the functions, the GGTT and the counters. *)
Record same_base (d d' : dev) : Prop := {
  sb_prov g : set_configs [] (d_prov d' g) = set_configs [] (d_prov d g);
  sb_len g : length (configs (d_prov d' g)) = length (configs (d_prov d g));
  sb_total : d_totalvfs d' = d_totalvfs d;
  sb_num : d_numvfs d' = d_numvfs d;
  sb_status : d_status d' = d_status d;
  sb_auto : d_disable_auto d' = d_disable_auto d;
  sb_ids : d_ids_in_use d' = d_ids_in_use d;
  sb_nids : d_num_guc_ids d' = d_num_guc_ids d;
}.

#[export] Instance same_base_preorder : PreOrder same_base.
Proof.
  split; [constructor; auto|]. intros a b c [] []; constructor; intros; etransitivity; eauto.
Qed.

Lemma same_pf_base d d' : same_pf d d' -> same_base d d'.
Proof. intros Hs. constructor; try (by destruct Hs); intros g; by rewrite (same_prov _ _ Hs). Qed.
Lemma same_conf_base d d' : same_conf d d' -> same_base d d'.
Proof. intros Hs. constructor; try (by destruct Hs); intros g; by rewrite (conf_prov _ _ Hs). Qed.
Lemma upd_cfg_base g id f d : same_base d (upd_cfg g id f d).
Proof.
  constructor; try done; intros g'.
  - unfold upd_cfg. rewrite prov_upd. by case_decide.
  - by rewrite length_configs_upd.
Qed.

(** A field of the configurations that no step touched. *)
Definition kept {A} (F : intel_iov_config -> A) (d d' : dev) : Prop :=
  forall g id, F (cfg d' g id) = F (cfg d g id).

(** One function's configuration changed on one GT, and no other's. *)
Record one_cfg (g : gt_id) (id : nat) (d d' : dev) : Prop := {
  oc_base : same_base d d';
  oc_other g' id' : g' <> g \/ id' <> id -> cfg d' g' id' = cfg d g' id';
}.

#[export] Instance one_cfg_preorder g id : PreOrder (one_cfg g id).
Proof.
  split; [done|]. intros a b c [H1 H2] [H3 H4]. split; [by etransitivity|].
  intros g' id' Hne. by rewrite H4, H2.
Qed.

(** The configuration of VF [id] on [g] became [f] of what it was. *)
Record cfg_step (g : gt_id) (id : nat) (f : intel_iov_config -> intel_iov_config) (d d' : dev)
  : Prop := {
  cs_base : same_base d d';
  cs_cfg g' i : cfg d' g' i = cfg (upd_cfg g id f d) g' i;
}.

Lemma cfg_step_pf g id f d d' : same_pf (upd_cfg g id f d) d' -> cfg_step g id f d d'.
Proof.
  intros Hs. split; [etransitivity; [apply upd_cfg_base|by apply same_pf_base]|].
  intros. by apply same_cfg.
Qed.
Lemma cfg_step_conf g id f d d' : same_conf (upd_cfg g id f d) d' -> cfg_step g id f d d'.
Proof.
  intros Hs. split; [etransitivity; [apply upd_cfg_base|by apply same_conf_base]|].
  intros. by apply conf_cfg.
Qed.

Lemma cfg_step_kept {A} (F : intel_iov_config -> A) g id f d d' :
  (forall c, F (f c) = F c) -> cfg_step g id f d d' -> kept F d d'.
Proof. intros Hf [_ Hc] g' i. rewrite Hc. by apply cfg_upd_field. Qed.
Lemma cfg_step_other g id f d d' g' i :
  cfg_step g id f d d' -> g' <> g \/ i <> id -> cfg d' g' i = cfg d g' i.
Proof. intros [_ Hc] Hne. by rewrite Hc, cfg_upd_ne. Qed.
Lemma cfg_step_own g id f d d' :
  cfg_step g id f d d' -> (id < length (configs (d_prov d g)))%nat -> cfg d' g id = f (cfg d g id).
Proof. intros [_ Hc] Hlt. by rewrite Hc, cfg_upd_eq. Qed.
End frames.

(** ** The three resources of a VF side by side *)

Section inv.
Context `{E : Env}.

Record prov_inv (g : gt_id) (d : dev) : Prop := {
  pi_ggtt : ggtt_inv d;
  pi_ctxs : ctxs_inv g d;
  pi_dbs : dbs_inv g d;
}.

Lemma ctxs_inv_ext g d d' :
  same_base d d' -> kept num_ctxs d d' -> kept begin_ctx d d' -> ctxs_inv g d -> ctxs_inv g d'.
Proof.
  intros Hs Hn Hb [Hlen Hpf Hcfg Hdisj].
  assert (forall id, ctxs_range d' g id = ctxs_range d g id) as Hr
    by (intros; unfold ctxs_range; by rewrite Hn, Hb).
  constructor; rewrite ?(sb_total _ _ Hs), ?(sb_len _ _ Hs); try done.
  - by rewrite Hn.
  - intros id Hid. specialize (Hcfg id Hid). unfold ctx_cfg_ok, ctx_slot in *. by rewrite Hn, Hb.
  - intros id id' r r'. rewrite !Hr. apply Hdisj.
Qed.

Lemma dbs_inv_ext g d d' :
  same_base d d' -> kept num_dbs d d' -> kept begin_db d d' -> dbs_inv g d -> dbs_inv g d'.
Proof.
  intros Hs Hn Hb [Hlen Hcfg Hdisj].
  assert (forall id, dbs_range d' g id = dbs_range d g id) as Hr
    by (intros; unfold dbs_range; by rewrite Hn, Hb).
  constructor; unfold is_vf in *; rewrite ?(sb_total _ _ Hs), ?(sb_len _ _ Hs); try done.
  - intros id Hid. specialize (Hcfg id Hid). unfold db_cfg_ok in *. by rewrite Hn, Hb.
  - intros id id' r r'. rewrite !Hr. apply Hdisj.
Qed.

Lemma ggtt_inv_ext d d' :
  same_base d d' -> kept ggtt_region d d' -> d_mm d' = d_mm d -> d_ptes d' = d_ptes d ->
  ggtt_inv d -> ggtt_inv d'.
Proof.
  intros Hs Hk Hm Ht [Hlen Htot Hreg Hpin Hdisj Hown].
  assert (forall id, region d' id = region d id) as Hr by (intros; unfold region; by rewrite Hk).
  assert (forall id, has_region d' id -> has_region d id) as Hh
    by (intros id []; split; [by rewrite <- (sb_total _ _ Hs)|by rewrite <- Hr]).
  constructor; rewrite ?(sb_total _ _ Hs), ?(sb_len _ _ Hs), ?Hm; try done;
    intros; rewrite ?Hr; auto.
  intros i Hi. rewrite Ht. by apply (Hown id); auto.
Qed.

(** Steps that leave the GGTT's nodes and entries alone. *)
Lemma prov_inv_config g id f d d' :
  cfg_step g id f d d' -> d_mm d' = d_mm d -> d_ptes d' = d_ptes d ->
  (forall c, ggtt_region (f c) = ggtt_region c) ->
  (ctxs_inv g d' /\ (forall c, num_dbs (f c) = num_dbs c /\ begin_db (f c) = begin_db c) \/
   dbs_inv g d' /\ (forall c, num_ctxs (f c) = num_ctxs c /\ begin_ctx (f c) = begin_ctx c) \/
   (forall c, num_dbs (f c) = num_dbs c /\ begin_db (f c) = begin_db c) /\
   (forall c, num_ctxs (f c) = num_ctxs c /\ begin_ctx (f c) = begin_ctx c)) ->
  prov_inv g d -> prov_inv g d'.
Proof.
  intros Hst Hm Ht Hr Hf [I1 I2 I3]. pose proof (cs_base _ _ _ _ _ Hst) as Hb. split.
  - apply (ggtt_inv_ext d); try done. by (eapply cfg_step_kept; [|exact Hst]).
  - destruct Hf as [[? _]|[[_ Hf]|[_ Hf]]]; [done|..]; apply (ctxs_inv_ext g d); try done;
      (eapply cfg_step_kept; [|exact Hst]; intros c; apply Hf).
  - destruct Hf as [[_ Hf]|[[? _]|[Hf _]]]; [|done|]; apply (dbs_inv_ext g d); try done;
      (eapply cfg_step_kept; [|exact Hst]; intros c; apply Hf).
Qed.

(** What the functions are given, apart from the scheduling parameters. *)
Definition resources (c : intel_iov_config) : drm_mm_node * (Z * Z) * (Z * Z) :=
  (ggtt_region c, (num_ctxs c, begin_ctx c), (num_dbs c, begin_db c)).

Lemma kept_resources d d' :
  kept resources d d' -> kept ggtt_region d d' /\ kept num_ctxs d d' /\ kept begin_ctx d d' /\
  kept num_dbs d d' /\ kept begin_db d d'.
Proof. intros Hk. split_and!; intros g id; specialize (Hk g id); unfold resources in Hk; congruence. Qed.

Lemma prov_inv_ext g d d' :
  same_base d d' -> kept resources d d' -> d_mm d' = d_mm d -> d_ptes d' = d_ptes d ->
  prov_inv g d -> prov_inv g d'.
Proof.
  intros Hb Hk Hm Ht []. destruct (kept_resources _ _ Hk) as (?&?&?&?&?).
  split; [by apply (ggtt_inv_ext d)|by apply (ctxs_inv_ext g d)|by apply (dbs_inv_ext g d)].
Qed.

Lemma prov_inv_same g d d' : same_pf d d' -> prov_inv g d -> prov_inv g d'.
Proof.
  intros Hs. apply prov_inv_ext; [by apply same_pf_base| |apply (same_mm _ _ Hs)|apply (same_ptes _ _ Hs)].
  intros g' i. by rewrite (same_cfg _ _ _ _ Hs).
Qed.

Lemma cfg_step_one g id f d d' : cfg_step g id f d d' -> one_cfg g id d d'.
Proof. intros Hst. split; [by apply (cs_base _ _ _ _ _ Hst)|]. intros. by eapply cfg_step_other. Qed.
Lemma same_pf_one g id d d' : same_pf d d' -> one_cfg g id d d'.
Proof. intros Hs. split; [by apply same_pf_base|]. intros. by apply same_cfg. Qed.
End inv.

(** ** The operations on one VF, over the common invariant *)

Section steps.
Context `{E : Env} `{!EnvLaws E} `{B : BitmapOps} `{!BitmapLaws B}.

Lemma step_ctxs g id n (Q : Z -> dev -> Prop) d :
  prov_inv g d -> is_vf d id -> 0 <= n < 65536 ->
  (forall ret d' b m, prov_inv g d' -> cfg_step g id (set_ctxs b m) d d' ->
     (ret = 0 /\ m = align_ctxs id n \/ ret < 0 /\ m = 0) -> Q ret d') ->
  wp (pf_provision_ctxs g id n) Q d.
Proof using Type*.
  intros I Hid Hn HQ. pose proof (pi_ctxs _ _ I) as Ic. unfold is_vf in Hid.
  assert (id < length (configs (d_prov d g)))%nat as Hlt by (rewrite (ci_len g d Ic); lia).
  eapply wp_mono; [apply wp_provision_ctxs; try done; unfold PFID; lia|].
  intros ret d' (I' & (b & m & Hs) & _ & Hret & _). pose proof (cfg_step_pf _ _ _ _ _ Hs) as Hst.
  apply (HQ ret d' b m); [|done|].
  - eapply prov_inv_config; [exact Hst|apply (same_mm _ _ Hs)|apply (same_ptes _ _ Hs)|done| |done].
    by left.
  - rewrite (cfg_step_own _ _ _ _ _ Hst Hlt) in Hret. simpl in Hret. tauto.
Qed.

Lemma step_dbs g id n (Q : Z -> dev -> Prop) d :
  prov_inv g d -> is_vf d id -> 0 <= n ->
  (forall ret d' b m, prov_inv g d' -> cfg_step g id (set_dbs b m) d d' ->
     (ret = 0 /\ m = n \/ ret < 0 /\ m = 0) -> Q ret d') ->
  wp (pf_provision_dbs g id n) Q d.
Proof using Type*.
  intros I Hid Hn HQ. pose proof (pi_dbs _ _ I) as Id. unfold is_vf in Hid.
  assert (id < length (configs (d_prov d g)))%nat as Hlt by (rewrite (di_len g d Id); lia).
  eapply wp_mono; [apply wp_provision_dbs; try done; lia|].
  intros ret d' (I' & (b & m & Hs) & Hret & _). pose proof (cfg_step_pf _ _ _ _ _ Hs) as Hst.
  apply (HQ ret d' b m); [|done|].
  - eapply prov_inv_config; [exact Hst|apply (same_mm _ _ Hs)|apply (same_ptes _ _ Hs)|done| |done].
    right; by left.
  - rewrite (cfg_step_own _ _ _ _ _ Hst Hlt) in Hret. simpl in Hret. tauto.
Qed.

Lemma step_ggtt id req (Q : Z -> dev -> Prop) d :
  prov_inv GT_PRIMARY d -> is_vf d id -> 0 <= req <= 2 ^ 64 - 4096 ->
  (forall ret d' n, prov_inv GT_PRIMARY d' -> cfg_step GT_PRIMARY id (set_region n) d d' ->
     (ret = 0 /\ allocated n = negb (req =? 0) /\
        (req <> 0 -> size n = snd (check_round_up_overflow req pf_get_ggtt_alignment)) \/
      ret < 0 /\ allocated n = false) -> Q ret d') ->
  wp (pf_provision_ggtt GT_PRIMARY id req) Q d.
Proof using Type*.
  intros I Hid Hreq HQ. apply wp_provision_ggtt; [apply I|done|unfold is_u64; lia|].
  intros ret d' n I' Hs Hret. pose proof (cfg_step_conf _ _ _ _ _ Hs) as Hst.
  pose proof (cs_base _ _ _ _ _ Hst) as Hb.
  apply (HQ ret d' n); [split; [done|..]|done|].
  - apply (ctxs_inv_ext _ d); [done| | |apply I]; by (eapply cfg_step_kept; [|exact Hst]).
  - apply (dbs_inv_ext _ d); [done| | |apply I]; by (eapply cfg_step_kept; [|exact Hst]).
  - destruct Hret as [(? & _)|Hret]; [lia|done].
Qed.

(** One scheduling parameter: written or kept, written when nothing fails. *)
Lemma step_sched g id key (get : intel_iov_config -> Z) put v (Q : Z -> dev -> Prop) d :
  prov_inv g d -> is_vf d id ->
  (forall c, get (put v c) = v) -> (forall c, resources (put v c) = resources c) ->
  (forall ret d', prov_inv g d' -> one_cfg g id d d' ->
     (forall A (F : intel_iov_config -> A), (forall c, F (put v c) = F c) -> kept F d d') ->
     (EnvWorks E -> get (cfg d' g id) = v) -> Q ret d') ->
  wp (provision_param g id key get put v) Q d.
Proof using E EnvLaws0.
  intros I Hid Hget Hres HQ.
  assert (forall ret d', same_pf d d' -> (EnvWorks E -> get (cfg d g id) = v) -> Q ret d') as Hsame.
  { intros ret d' Hs HW. apply HQ; [by eapply prov_inv_same|by apply same_pf_one|..].
    - intros A F _ g' i. by rewrite (same_cfg _ _ _ _ Hs).
    - intros W. rewrite (same_cfg _ _ _ _ Hs). auto. }
  apply wp_bind, wp_get_cfg. apply wp_if; intros Hb; propify.
  { apply wp_ret, Hsame; [done|by intros]. }
  apply wp_bind. eapply wp_mono; [apply call_klv32|]. intros err d1 (Hs & _ & _ & HW). simpl.
  apply wp_if; intros He; propify.
  - apply wp_ret, Hsame; [done|]. intros W. by destruct He; apply HW.
  - apply wp_bind, wp_mod_cfg, wp_ret.
    pose proof (cfg_step_pf _ _ _ _ _ (same_upd_cfg g id (put v) d d1 Hs)) as Hst.
    assert (id < length (configs (d_prov d g)))%nat as Hlt
      by (rewrite (ci_len g d (pi_ctxs _ _ I)); unfold is_vf in Hid; lia).
    apply HQ; [|by eapply cfg_step_one|by intros; eapply cfg_step_kept|].
    + eapply prov_inv_ext; [apply Hst|by eapply cfg_step_kept| | |exact I].
      * apply (same_mm _ _ Hs).
      * apply (same_ptes _ _ Hs).
    + intros _. by rewrite (cfg_step_own _ _ _ _ _ Hst).
Qed.
End steps.

(** ** Releasing *)

Section release.
Context `{E : Env} `{!EnvLaws E} `{B : BitmapOps} `{!BitmapLaws B}.

(** VF [id] has no contexts, no doorbells and, on the primary GT, no GGTT region. *)
Definition released (g : gt_id) (id : nat) (d : dev) : Prop :=
  intel_iov_provisioning_get_ctxs g id d = 0 /\ intel_iov_provisioning_get_dbs g id d = 0 /\
  (g = GT_PRIMARY -> intel_iov_provisioning_get_ggtt g id d = 0).
Definition sched_cleared (g : gt_id) (id : nat) (d : dev) : Prop :=
  intel_iov_provisioning_get_exec_quantum g id d = 0 /\
  intel_iov_provisioning_get_preempt_timeout g id d = 0 /\
  forall t, intel_iov_provisioning_get_threshold g id t d = 0.

Lemma released_kept g id d d' : kept resources d d' -> released g id d -> released g id d'.
Proof.
  intros Hk (H1 & H2 & H3). destruct (kept_resources _ _ Hk) as (Hr&Hc&_&Hd&_).
  unfold released, intel_iov_provisioning_get_ctxs, pf_get_ctxs_quota,
    intel_iov_provisioning_get_dbs, intel_iov_provisioning_get_ggtt in *.
  by rewrite Hr, Hc, Hd.
Qed.

Lemma threshold_set t t' v c :
  threshold_of t' (set_threshold t v c) =
    if decide (t' = t) then (if decide (threshold_index t < length (thresholds c))%nat then v else 0)
    else threshold_of t' c.
Proof.
  unfold threshold_of, set_threshold; simpl. case_decide as Ht; [subst|].
  - case_decide as Hl; [by rewrite list_lookup_insert_eq|].
    rewrite list_insert_ge by lia. by rewrite lookup_ge_None_2 by lia.
  - rewrite list_lookup_insert_ne; [done|]. by destruct t, t'.
Qed.

Lemma wp_unprovision_thresholds g id ts (Q : unit -> dev -> Prop) : forall d,
  prov_inv g d -> is_vf d id ->
  (forall d', prov_inv g d' -> one_cfg g id d d' -> kept resources d d' ->
     kept exec_quantum d d' -> kept preempt_timeout d d' ->
     (EnvWorks E -> forall t, t ∈ ts \/ threshold_of t (cfg d g id) = 0 ->
        threshold_of t (cfg d' g id) = 0) -> Q tt d') ->
  wp (unprovision_thresholds g id ts) Q d.
Proof using Type*.
  induction ts as [|t ts IH]; intros d I Hid HQ; cbn [unprovision_thresholds].
  { apply wp_ret, HQ; try done. intros _ t [Ht|]; [by apply not_elem_of_nil in Ht|done]. }
  apply wp_bind.
  apply (step_sched g id _ (threshold_of t) (set_threshold t) 0 _ d); try done.
  { intros c. rewrite threshold_set, decide_True by done. by case_decide. }
  intros _ d1 I1 Ho1 Hk1 HW1. apply IH; [done|unfold is_vf in *; by rewrite (sb_total _ _ (oc_base _ _ _ _ Ho1))|].
  intros d2 I2 Ho2 Hk2 Hq2 Hp2 HW2. apply HQ; [done|by etransitivity|..].
  - intros g' i. rewrite Hk2. by apply Hk1.
  - intros g' i. rewrite Hq2. by apply Hk1.
  - intros g' i. rewrite Hp2. by apply Hk1.
  - intros W t' Ht'. apply (HW2 W). destruct (decide (t' = t)) as [->|Hne]; [right; by apply HW1|].
    destruct Ht' as [[|]%elem_of_cons|]; [done|by left|right].
    rewrite (Hk1 _ (threshold_of t')); [done|]. intros c. by rewrite threshold_set, decide_False.
Qed.

Lemma wp_unprovision_config g id (Q : unit -> dev -> Prop) d :
  prov_inv g d -> is_vf d id ->
  (forall d', prov_inv g d' -> one_cfg g id d d' -> released g id d' ->
     (EnvWorks E -> sched_cleared g id d') -> Q tt d') ->
  wp (pf_unprovision_config g id) Q d.
Proof using Type*.
  intros I Hid HQ.
  assert (forall d1 d2, is_vf d1 id -> one_cfg g id d1 d2 -> is_vf d2 id) as Hvf
    by (intros d1 d2 Hi Ho; unfold is_vf in *; by rewrite (sb_total _ _ (oc_base _ _ _ _ Ho))).
  assert (forall d1, prov_inv g d1 -> is_vf d1 id -> (id < length (configs (d_prov d1 g)))%nat) as Hlt
    by (intros d1 I1 Hi; rewrite (ci_len _ _ (pi_ctxs _ _ I1)); unfold is_vf in Hi; lia).
  assert (wp (pf_provision_ggtt g id 0) (fun _ d1 => prov_inv g d1 /\ one_cfg g id d d1 /\
    (g = GT_PRIMARY -> allocated (ggtt_region (cfg d1 g id)) = false)) d) as H1.
  { destruct g; [|by apply wp_ret]. apply step_ggtt; [done|done|lia|].
    intros ret d1 n I1 Hst Hret. split_and!; [done|by eapply cfg_step_one|]. intros _.
    rewrite (cfg_step_own _ _ _ _ _ Hst) by auto. simpl. tauto. }
  apply wp_bind. eapply wp_mono; [exact H1|]. intros _ d1 (I1 & Ho1 & Hr1). pose proof (Hvf _ _ Hid Ho1) as Hid1.
  apply wp_bind, step_ctxs; [done|done|lia|]. intros ret d2 b m I2 Hst2 Hret2.
  assert (m = 0) as -> by (destruct Hret2 as [[_ ->]|[_ ->]]; [|done]; unfold align_ctxs; by case_match).
  pose proof (cfg_step_one _ _ _ _ _ Hst2) as Ho2. pose proof (Hvf _ _ Hid1 Ho2) as Hid2.
  apply wp_bind, step_dbs; [done|done|lia|]. intros ret' d3 b' m I3 Hst3 Hret3.
  assert (m = 0) as -> by tauto.
  pose proof (cfg_step_one _ _ _ _ _ Hst3) as Ho3. pose proof (Hvf _ _ Hid2 Ho3) as Hid3.
  assert (released g id d3) as Hr3.
  { unfold released, intel_iov_provisioning_get_ctxs, pf_get_ctxs_quota,
      intel_iov_provisioning_get_dbs, intel_iov_provisioning_get_ggtt.
    rewrite (cfg_step_own _ _ _ _ _ Hst3), (cfg_step_own _ _ _ _ _ Hst2) by auto. simpl.
    split_and!; [done..|]. intros ->.
    rewrite (cfg_step_own _ _ _ _ _ Hst3), (cfg_step_own _ _ _ _ _ Hst2) by auto. simpl.
    by rewrite Hr1. }
  apply wp_bind, (step_sched g id _ exec_quantum set_eq 0 _ d3); try done.
  intros _ d4 I4 Ho4 Hk4 HW4. pose proof (Hvf _ _ Hid3 Ho4) as Hid4.
  apply wp_bind, (step_sched g id _ preempt_timeout set_pt 0 _ d4); try done.
  intros _ d5 I5 Ho5 Hk5 HW5. pose proof (Hvf _ _ Hid4 Ho5) as Hid5.
  apply wp_unprovision_thresholds; [done|done|]. intros d6 I6 Ho6 Hk6 Hq6 Hp6 HW6. apply HQ; [done|..].
  - by repeat (etransitivity; [eassumption|]).
  - eapply released_kept; [exact Hk6|]. eapply released_kept; [by apply Hk5|].
    by eapply released_kept; [by apply Hk4|].
  - intros W. unfold sched_cleared, intel_iov_provisioning_get_exec_quantum,
      intel_iov_provisioning_get_preempt_timeout, intel_iov_provisioning_get_threshold.
    split_and!.
    + rewrite Hq6, (Hk5 _ exec_quantum) by done. auto.
    + rewrite Hp6. auto.
    + intros t. apply HW6; [done|]. left. apply list_elem_of_In. destruct t; simpl; tauto.
Qed.

(** Another VF's step does not undo a release. *)
Lemma released_other g m id d d' : one_cfg g m d d' -> m <> id -> released g id d -> released g id d'.
Proof.
  intros [_ Ho] Hne (H1 & H2 & H3). unfold released, intel_iov_provisioning_get_ctxs,
    pf_get_ctxs_quota, intel_iov_provisioning_get_dbs, intel_iov_provisioning_get_ggtt in *.
  rewrite (Ho g id), (Ho GT_PRIMARY id) by auto. done.
Qed.
Lemma cleared_other g m id d d' :
  one_cfg g m d d' -> m <> id -> sched_cleared g id d -> sched_cleared g id d'.
Proof.
  intros [_ Ho] Hne (H1 & H2 & H3). unfold sched_cleared, intel_iov_provisioning_get_exec_quantum,
    intel_iov_provisioning_get_preempt_timeout, intel_iov_provisioning_get_threshold in *.
  by rewrite (Ho g id) by auto.
Qed.

(** Nothing but the configurations of VFs 1 .. n on [g] changed. *)
Definition vfs_only (g : gt_id) (n : nat) (d d' : dev) : Prop :=
  same_base d d' /\
  forall g' id, g' <> g \/ id = PFID \/ (n < id)%nat -> cfg d' g' id = cfg d g' id.

Lemma wp_unprovision_down g n (Q : unit -> dev -> Prop) : forall d,
  prov_inv g d -> (n <= d_totalvfs d)%nat ->
  (forall d', prov_inv g d' -> vfs_only g n d d' ->
     (forall id, (1 <= id <= n)%nat -> released g id d' /\ (EnvWorks E -> sched_cleared g id d')) ->
     Q tt d') ->
  wp (unprovision_down g n) Q d.
Proof using Type*.
  revert Q. induction n as [|n IH]; intros Q d I Hn HQ; cbn [unprovision_down].
  { apply wp_ret, HQ; [done|by split|]. lia. }
  apply wp_bind, wp_unprovision_config; [done|unfold is_vf; lia|]. intros d1 I1 Ho1 Hr1 Hc1.
  pose proof (sb_total _ _ (oc_base _ _ _ _ Ho1)) as Ht1.
  apply IH; [done|lia|]. intros d2 I2 [Hb2 Ho2] Hr2. apply HQ; [done| |].
  - split; [by etransitivity; [apply Ho1|]|]. intros g' id Hid. rewrite Ho2 by (intuition lia).
    apply (oc_other _ _ _ _ Ho1). unfold PFID in *. intuition lia.
  - intros id Hid. destruct (decide (id = S n)) as [->|]; [|apply Hr2; lia].
    assert (cfg d2 g (S n) = cfg d1 g (S n)) as Hc by (apply Ho2; lia).
    assert (cfg d2 GT_PRIMARY (S n) = cfg d1 GT_PRIMARY (S n)) as Hcp by (apply Ho2; lia).
    unfold released, sched_cleared, intel_iov_provisioning_get_ctxs, pf_get_ctxs_quota,
      intel_iov_provisioning_get_dbs, intel_iov_provisioning_get_ggtt,
      intel_iov_provisioning_get_exec_quantum, intel_iov_provisioning_get_preempt_timeout,
      intel_iov_provisioning_get_threshold in *.
    rewrite Hc, Hcp. done.
Qed.

Definition all_released (g : gt_id) (d : dev) : Prop := forall id, is_vf d id -> released g id d.

Lemma wp_unprovision_all g (Q : unit -> dev -> Prop) d :
  prov_inv g d ->
  (forall d', prov_inv g d' -> vfs_only g (d_totalvfs d) d d' -> all_released g d' ->
     (EnvWorks E -> forall id, is_vf d' id -> sched_cleared g id d') -> Q tt d') ->
  wp (pf_unprovision_all g) Q d.
Proof using Type*.
  intros I HQ. apply wp_bind, wp_gets, wp_unprovision_down; [done|done|].
  intros d' I' [Hb Ho] Hr.
  assert (forall id, is_vf d' id -> (1 <= id <= d_totalvfs d)%nat) as Hvf
    by (intros id; unfold is_vf; by rewrite (sb_total _ _ Hb)).
  apply HQ; [done|by split| |]; [intros id Hid|intros W id Hid]; by destruct (Hr id (Hvf id Hid)); auto.
Qed.

Lemma prov_inv_prov g g0 f d :
  (forall p, configs (f p) = configs p) -> prov_inv g d -> prov_inv g (upd_prov g0 f d).
Proof.
  intros Hf. assert (forall g', configs (d_prov (upd_prov g0 f d) g') = configs (d_prov d g')) as Hc
    by (intros g'; rewrite prov_upd; case_decide; [apply Hf|done]).
  assert (forall g' id, cfg (upd_prov g0 f d) g' id = cfg d g' id) as Hcfg
    by (intros; unfold cfg; by rewrite Hc).
  intros [[] [] []]. unfold has_region, region, is_vf, owns_ctx, ctxs_range, dbs_range in *.
  split; constructor; unfold has_region, region, is_vf, ctxs_range, dbs_range;
    try (intros; rewrite ?Hcfg in *; by eauto); by rewrite Hc.
Qed.
End release.

(** ** Properties *)

Section properties.
Context `{E : Env} `{!EnvLaws E} `{B : BitmapOps} `{!BitmapLaws B}.

(** C13: [intel_iov_provisioning_fini] leaves nothing assigned: afterwards no VF has contexts,
    doorbells or (on the primary GT) a GGTT region, whatever GuC and the allocator answered
    on the way, and when nothing fails no scheduling parameter either; the worker is
    cancelled, and the PF's configuration and the other GT's are untouched. *)
Theorem fini_releases_all g d :
  prov_inv g d ->
  let '(_, d') := intel_iov_provisioning_fini g d in
  prov_inv g d' /\ all_released g d' /\ worker_queued (d_prov d' g) = false /\
  (forall g' id, g' <> g \/ id = PFID -> cfg d' g' id = cfg d g' id) /\
  (EnvWorks E -> forall id, is_vf d' id -> sched_cleared g id d').
Proof using Type*.
  intros I. apply wp_let, wp_bind, wp_mod_prov, wp_unprovision_all; [by apply prov_inv_prov|].
  intros d' I' [Hb Ho] Hr Hc. split_and!; try done.
  - pose proof (f_equal worker_queued (sb_prov _ _ Hb g)) as Hw. simpl in Hw. rewrite Hw.
    by rewrite decide_True.
  - intros g' id Hid. rewrite Ho by tauto. unfold cfg. rewrite prov_upd. by case_decide.
Qed.

(** [intel_iov_provisioning_clear] drops a VF's provisioning exactly when GuC accepts the
    reset of its configuration: then everything it had is released and 0 is returned; any
    other answer is returned unchanged with nothing touched. No other VF, and no other GT, is
    affected. *)
Theorem clear_needs_guc g id d :
  prov_inv g d -> is_vf d id ->
  let '(ret, d') := intel_iov_provisioning_clear g id d in
  let reset := vf_cfg_req g (Z.of_nat id) 0 0 [] in
  ret = guc_reply (d_log d) reset /\ prov_inv g d' /\ one_cfg g id d d' /\
  (ret = 0 -> released g id d') /\
  (ret <> 0 -> same_pf d d' /\ d_log d' = d_log d ++ [reset]).
Proof using Type*.
  intros I Hid. apply wp_let, wp_bind, wp_guc_send. intros d1 Hs1 _ Hl1. fold (vf_cfg_req g (Z.of_nat id) 0 0 []) in *.
  pose proof (prov_inv_same _ _ _ Hs1 I) as I1.
  apply wp_if; intros He; propify.
  - apply wp_bind, wp_unprovision_config; [done|unfold is_vf in *; by rewrite (same_total _ _ Hs1)|].
    intros d2 I2 Ho2 Hr2 _. apply wp_ret. split_and!; try done.
    etransitivity; [by apply same_pf_one|done].
  - apply wp_ret. split_and!; try done. by apply same_pf_one.
Qed.
End properties.

Section witnesses.
#[local] Existing Instance sample_env.
Lemma sample_prov_inv g : prov_inv g sample_dev.
Proof. split; [apply sample_ggtt_inv|apply sample_ctxs_inv|apply sample_dbs_inv]. Qed.

(** VF 1 with contexts, doorbells and a region. *)
Definition sample_one_vf : dev :=
  snd ((intel_iov_provisioning_set_ggtt GT_PRIMARY 1 0x3000 ≫= fun _ =>
        intel_iov_provisioning_set_ctxs GT_PRIMARY 1 200 ≫= fun _ =>
        intel_iov_provisioning_set_dbs GT_PRIMARY 1 9) sample_dev).
Lemma sample_one_vf_inv : prov_inv GT_PRIMARY sample_one_vf.
Proof.
  assert (wp (intel_iov_provisioning_set_ggtt GT_PRIMARY 1 0x3000 ≫= fun _ =>
    intel_iov_provisioning_set_ctxs GT_PRIMARY 1 200 ≫= fun _ =>
    intel_iov_provisioning_set_dbs GT_PRIMARY 1 9) (fun _ d => prov_inv GT_PRIMARY d) sample_dev) as H.
  { assert (forall b d (Q : unit -> dev -> Prop), (forall d', d' = d \/
        d' = upd_sriov (d_numvfs d) (d_status d) true d -> Q tt d') -> wp (mark_manual_if b) Q d) as Hm
      by (intros b d Q HQ; apply wp_mark_manual; auto).
    assert (forall d d' n s a, d' = d \/ d' = upd_sriov n s a d -> prov_inv GT_PRIMARY d ->
      prov_inv GT_PRIMARY d') as Hup by (intros d d' n s a [->| ->] [[] [] []]; done).
    apply wp_bind, wp_bind, wp_gets, wp_bind, step_ggtt; [apply sample_prov_inv|by vm_compute; lia|lia|].
    intros ret d1 n I1 Hst1 _. apply wp_bind, Hm. intros d1' Hd1. apply wp_ret.
    pose proof (Hup _ _ _ _ _ Hd1 I1) as I1'.
    assert (d_totalvfs d1' = 4%nat) as Ht1
      by (transitivity (d_totalvfs d1); [by destruct Hd1 as [->| ->]|apply (sb_total _ _ (cs_base _ _ _ _ _ Hst1))]).
    apply wp_bind, wp_bind, wp_gets, wp_bind, step_ctxs; [done|unfold is_vf; lia|lia|].
    intros ret2 d2 b m I2 Hst2 _. apply wp_bind, Hm. intros d2' Hd2. apply wp_ret.
    pose proof (Hup _ _ _ _ _ Hd2 I2) as I2'.
    assert (d_totalvfs d2' = 4%nat) as Ht2
      by (transitivity (d_totalvfs d2); [by destruct Hd2 as [->| ->]|rewrite <- Ht1; apply (sb_total _ _ (cs_base _ _ _ _ _ Hst2))]).
    apply wp_bind, wp_gets, wp_bind, step_dbs; [done|unfold is_vf; lia|lia|].
    intros ret3 d3 b3 m3 I3 _ _. apply wp_bind, Hm. intros d3' Hd3. apply wp_ret. by eapply Hup. }
  exact H.
Qed.

Lemma fini_releases_all_witness :
  intel_iov_provisioning_get_ctxs GT_PRIMARY 1 sample_one_vf = 256 /\
  let '(_, d') := intel_iov_provisioning_fini GT_PRIMARY sample_one_vf in
  intel_iov_provisioning_get_ctxs GT_PRIMARY 1 d' = 0.
Proof.
  split; [by vm_compute|]. pose proof (fini_releases_all GT_PRIMARY sample_one_vf sample_one_vf_inv) as Hw.
  assert (d_totalvfs (snd (intel_iov_provisioning_fini GT_PRIMARY sample_one_vf)) = 4%nat) as Ht
    by (by vm_compute).
  destruct (intel_iov_provisioning_fini GT_PRIMARY sample_one_vf) as [u d'].
  destruct Hw as (_ & Hr & _). simpl in Ht. apply (Hr 1%nat). unfold is_vf. lia.
Defined.

Lemma clear_needs_guc_witness :
  let '(ret, d') := intel_iov_provisioning_clear GT_PRIMARY 1 sample_one_vf in
  ret = 1 /\ same_pf sample_one_vf d'.
Proof.
  pose proof (clear_needs_guc GT_PRIMARY 1 sample_one_vf sample_one_vf_inv ltac:(vm_compute; lia)) as Hw.
  destruct (intel_iov_provisioning_clear GT_PRIMARY 1 sample_one_vf) as [ret d'].
  destruct Hw as (-> & _ & _ & _ & Hw). split; [done|]. by apply Hw.
Defined.
End witnesses.
