(* ===== verification/AutoProv.v ===== *)
(** * Automatic provisioning

    What [intel_iov_provisioning_auto] promises: every VF gets its fair share of each resource,
    or nobody gets anything. *)

From stdpp Require Import sets.
From S2P Require Export Provisioning.

(** ** Fair shares *)

Lemma ALIGN_multiple x k : 0 <= k <= 64 -> 0 <= ALIGN x (2 ^ k) < 2 ^ 64 /\ (2 ^ k | ALIGN x (2 ^ k)).
Proof.
  intros Hk. unfold ALIGN. rewrite land_lnot_pow2 by lia.
  assert (0 < 2 ^ k) as Hp by (apply Z.pow_pos_nonneg; lia).
  pose proof (Z.mod_pos_bound (x + (2 ^ k - 1)) (2 ^ 64) ltac:(done)) as Hu.
  fold (u64 (x + (2 ^ k - 1))) in Hu.
  pose proof (Z.mul_div_le (u64 (x + (2 ^ k - 1))) (2 ^ k) Hp).
  pose proof (Z.div_pos (u64 (x + (2 ^ k - 1))) (2 ^ k) ltac:(lia) Hp).
  split; [nia|]. apply Z.divide_factor_l.
Qed.

Section fair.
Context `{E : Env} `{B : BitmapOps}.

Definition fair_ggtt (g : gt_id) (n : nat) (d : dev) : Z :=
  ALIGN_DOWN (pf_get_max_ggtt g d / Z.of_nat n) pf_get_ggtt_alignment.
Definition fair_ctxs (g : gt_id) (n : nat) (d : dev) : Z :=
  128 * (ctxs_free g d / Z.of_nat n / 128).
Definition fair_dbs (g : gt_id) (n : nat) (d : dev) : Z :=
  u16 (GUC_NUM_DOORBELLS - num_dbs (cfg d g PFID)) / Z.of_nat n.

Lemma fair_ggtt_bounds g n d :
  0 <= fair_ggtt g n d <= 2 ^ 64 - 4096 /\ (4096 | fair_ggtt g n d).
Proof.
  unfold fair_ggtt, ALIGN_DOWN, pf_get_ggtt_alignment, SZ_4K. change 0x1000 with (2 ^ 12).
  pose proof (ALIGN_multiple (u64 (pf_get_max_ggtt g d / Z.of_nat n - (2 ^ 12 - 1))) 12 ltac:(lia)) as [Hb Hd].
  change (2 ^ 12) with 4096 in *. split; [|done]. destruct Hd as [k Hk]. rewrite Hk in *.
  change (2 ^ 64) with (4096 * 2 ^ 52) in *. lia.
Qed.

Lemma round_up_page a :
  0 <= a <= 2 ^ 64 - 4096 -> (4096 | a) -> snd (check_round_up_overflow a pf_get_ggtt_alignment) = a.
Proof.
  intros Ha [k ->]. pose proof (round_up_spec (k * 4096) ltac:(unfold is_u64; lia)) as Hr.
  destruct (check_round_up_overflow _ _) as [ov r]. destruct Hr as [-> Hr].
  destruct Hr as (Hr & [j ->] & _); [by apply Z.ltb_ge; lia|]. simpl. lia.
Qed.
End fair.

(** ** The loop *)

(** One resource: [val] is what a VF has of it, [F] the configurations' other fields. *)
Section each.
Context `{E : Env} {A : Type} (g : gt_id) (F : intel_iov_config -> A)
  (valid : nat -> dev -> bool) (provision : nat -> st dev Z) (val : nat -> dev -> Z) (fair : Z).

Definition frame (d d' : dev) : Prop := same_base d d' /\ kept F d d'.
Context (Hstep : forall n d, prov_inv g d -> is_vf d n ->
  wp (provision n) (fun ret d' => prov_inv g d' /\ frame d d' /\ ret <= 0 /\
    (forall m, m <> n -> val m d' = val m d) /\ (ret = 0 -> val n d' = fair)) d).

Lemma frame_trans d1 d2 d3 : frame d1 d2 -> frame d2 d3 -> frame d1 d3.
Proof.
  intros [H1 H2] [H3 H4]. split; [by etransitivity|]. intros g' i. by rewrite H4, H2.
Qed.

Lemma frame_vf d d' n : frame d d' -> is_vf d n -> is_vf d' n.
Proof. intros [Hb _]. unfold is_vf. by rewrite (sb_total _ _ Hb). Qed.

Lemma wp_auto_each ids : forall (Q : Z -> dev -> Prop) d,
  prov_inv g d -> Forall (is_vf d) ids -> NoDup ids ->
  (forall ret d', prov_inv g d' -> frame d d' -> ret <= 0 ->
     (forall m, m ∉ ids -> val m d' = val m d) ->
     (ret = 0 -> forall n, n ∈ ids -> val n d' = fair) -> Q ret d') ->
  wp (auto_each valid provision ids) Q d.
Proof using Hstep.
  induction ids as [|n ids IH]; intros Q d I Hvf Hnd HQ; cbn [auto_each].
  { apply wp_ret, HQ; try done. intros _ n Hn. by apply not_elem_of_nil in Hn. }
  apply Forall_cons in Hvf as [Hn Hvf]. apply NoDup_cons in Hnd as [Hnin Hnd].
  apply wp_bind, wp_gets. apply wp_if; intros Hv.
  { apply wp_ret, HQ; done. }
  apply wp_bind. eapply wp_mono; [by apply Hstep|]. intros err d1 (I1 & Hf1 & He & Ho & Hval).
  apply wp_if; intros Hb; propify.
  - apply wp_ret, HQ; [done|done|lia| |lia]. intros m Hm. apply Ho. set_solver.
  - apply IH; [done| |done|].
    { eapply Forall_impl; [exact Hvf|]. intros m. by apply frame_vf. }
    intros ret d' I' Hf' Hr Ho' Hval'. apply HQ; [done|by eapply frame_trans|done|..].
    + intros m Hm. rewrite Ho', Ho by set_solver. done.
    + intros Hr0 m [->|Hm]%elem_of_cons; [|by apply Hval']. rewrite Ho' by done. by apply Hval.
Qed.
End each.

(** ** The three resources *)

Definition but_ggtt (c : intel_iov_config) : (Z * Z) * (Z * Z) :=
  ((num_ctxs c, begin_ctx c), (num_dbs c, begin_db c)).
Definition but_ctxs (c : intel_iov_config) : drm_mm_node * (Z * Z) :=
  (ggtt_region c, (num_dbs c, begin_db c)).
Definition but_dbs (c : intel_iov_config) : drm_mm_node * (Z * Z) :=
  (ggtt_region c, (num_ctxs c, begin_ctx c)).

Section resources.
Context `{E : Env} `{!EnvLaws E} `{B : BitmapOps} `{!BitmapLaws B}.

Lemma frame_step {A} (F : intel_iov_config -> A) g id f d d' :
  (forall c, F (f c) = F c) -> cfg_step g id f d d' -> frame F d d'.
Proof. intros Hf Hst. split; [apply Hst|by eapply cfg_step_kept]. Qed.

Lemma vf_index g d id : prov_inv g d -> is_vf d id -> (id < length (configs (d_prov d g)))%nat.
Proof. intros I Hid. rewrite (ci_len _ _ (pi_ctxs _ _ I)). unfold is_vf in Hid. lia. Qed.

Lemma first_vfs d n :
  (n <= d_totalvfs d)%nat -> Forall (is_vf d) (seq 1 n) /\ NoDup (seq 1 n) /\
  forall id, id ∈ seq 1 n <-> (1 <= id <= n)%nat.
Proof.
  intros Hn. split_and!.
  - apply list.Forall_forall. intros id Hid%elem_of_seq. unfold is_vf. lia.
  - apply NoDup_seq.
  - intros id. rewrite elem_of_seq. lia.
Qed.

Lemma wp_auto_ggtt n (Q : Z -> dev -> Prop) d :
  prov_inv GT_PRIMARY d -> (n <= d_totalvfs d)%nat ->
  (forall ret d', prov_inv GT_PRIMARY d' -> frame but_ggtt d d' -> ret <= 0 ->
     (ret = 0 -> 0 < fair_ggtt GT_PRIMARY n d /\ forall id, (1 <= id <= n)%nat ->
        intel_iov_provisioning_get_ggtt GT_PRIMARY id d' = fair_ggtt GT_PRIMARY n d) -> Q ret d') ->
  wp (pf_auto_provision_ggtt GT_PRIMARY n) Q d.
Proof using Type*.
  intros I Hn HQ. apply wp_bind, wp_gets. fold (fair_ggtt GT_PRIMARY n d).
  destruct (fair_ggtt_bounds GT_PRIMARY n d) as [Hb Hdiv]. set (fair := fair_ggtt _ _ _) in *.
  apply wp_if; intros Hz; propify; [apply wp_ret, HQ; done|].
  destruct (first_vfs d n Hn) as (Hvf & Hnd & Hin).
  apply (wp_auto_each GT_PRIMARY but_ggtt _ _ (fun id d => intel_iov_provisioning_get_ggtt GT_PRIMARY id d) fair);
    try done.
  - intros id d0 I0 Hid. apply step_ggtt; [done|done|done|]. intros ret d1 nd I1 Hst Hret.
    assert (forall m, m <> id -> intel_iov_provisioning_get_ggtt GT_PRIMARY m d1 =
      intel_iov_provisioning_get_ggtt GT_PRIMARY m d0) as Ho
      by (intros m Hm; unfold intel_iov_provisioning_get_ggtt; by rewrite (cfg_step_other _ _ _ _ _ _ _ Hst) by auto).
    split_and!; [done|by (eapply frame_step; [|exact Hst])|by destruct Hret as [[-> _]|[? _]]; lia|done|].
    intros ->. destruct Hret as [(_ & Ha & Hs)|[? _]]; [|lia].
    unfold intel_iov_provisioning_get_ggtt. rewrite (cfg_step_own _ _ _ _ _ Hst) by (by apply vf_index).
    simpl. rewrite Ha, (proj2 (Z.eqb_neq fair 0)) by done. simpl. rewrite Hs by done. by apply round_up_page.
  - intros ret d' I' Hf Hr _ Hval. apply HQ; [done|done|done|]. intros Hr0. split; [lia|].
    intros id Hid. apply Hval; [done|]. by apply Hin.
Qed.

Lemma wp_auto_ctxs g n (Q : Z -> dev -> Prop) d :
  prov_inv g d -> (1 <= n <= d_totalvfs d)%nat ->
  (forall ret d', prov_inv g d' -> frame but_ctxs d d' -> ret <= 0 ->
     (ret = 0 -> 0 < fair_ctxs g n d /\ forall id, (1 <= id <= n)%nat ->
        intel_iov_provisioning_get_ctxs g id d' = fair_ctxs g n d) -> Q ret d') ->
  wp (pf_auto_provision_ctxs g n) Q d.
Proof using Type*.
  intros I Hn HQ.
  pose proof (ctxs_free_range g d (pi_ctxs _ _ I)) as Hfr.
  assert (0 <= ctxs_free g d <= 65408) as Hfree.
  { unfold ctxs_free. pose proof (encode_vf_nonneg (pf_reserved_ctxs g d)) as Hr.
    fold (ctxs_reserve g d) in Hr. lia. }
  assert (forall x, 0 <= x <= 65408 ->
    u16 (ALIGN_DOWN (x / Z.of_nat n) CTXS_GRANULARITY) = 128 * (x / Z.of_nat n / 128) /\
    0 <= 128 * (x / Z.of_nat n / 128) <= 65408) as Hal.
  { intros x Hx. assert (0 <= x / Z.of_nat n <= x) as Hq
      by (split; [apply Z.div_pos; lia|apply Z.div_le_upper_bound; nia]).
    unfold CTXS_GRANULARITY. change 128 with (2 ^ 7) at 1.
    rewrite ALIGN_DOWN_pow2 by lia. change (2 ^ 7) with 128. rewrite u16_small by dlia. split; [done|dlia]. }
  apply wp_bind, wp_ctxs_free; [apply I|]. intros d1 Hs1 Hl1.
  pose proof (prov_inv_same _ _ _ Hs1 I) as I1.
  assert (frame but_ctxs d d1) as Hf1.
  { split; [by apply same_pf_base|]. intros g' i. by rewrite (same_cfg _ _ _ _ Hs1). }
  split.
  - destruct (Hal _ Hfree) as [-> Hb]. fold (fair_ctxs g n d) in *. set (fair := fair_ctxs g n d) in *.
    apply wp_if; intros Hz; propify; [apply wp_ret, HQ; done|].
    destruct (first_vfs d1 n) as (Hvf & Hnd & Hin); [rewrite (same_total _ _ Hs1); lia|].
    apply (wp_auto_each g but_ctxs _ _ (fun id d => intel_iov_provisioning_get_ctxs g id d) fair);
      try done.
    + intros id d0 I0 Hid. apply step_ctxs; [done|done|lia|]. intros ret d2 b m I2 Hst Hret.
      assert (forall i, i <> id -> intel_iov_provisioning_get_ctxs g i d2 =
        intel_iov_provisioning_get_ctxs g i d0) as Ho
        by (intros i Hi; unfold intel_iov_provisioning_get_ctxs, pf_get_ctxs_quota;
            by rewrite (cfg_step_other _ _ _ _ _ _ _ Hst) by auto).
      split_and!; [done|by (eapply frame_step; [|exact Hst])|by destruct Hret as [[-> _]|[? _]]; lia|done|].
      intros ->. destruct Hret as [[_ ->]|[? _]]; [|lia].
      unfold intel_iov_provisioning_get_ctxs, pf_get_ctxs_quota.
      rewrite (cfg_step_own _ _ _ _ _ Hst) by (by apply vf_index). simpl.
      rewrite align_ctxs_vf by (unfold is_vf in Hid; lia).
      unfold fair, fair_ctxs in *. dlia.
    + intros ret d' I' Hf Hr _ Hval. apply HQ; [done|by eapply frame_trans|done|]. intros Hr0. split; [lia|].
      intros id Hid. apply Hval; [done|]. by apply Hin.
  - intros _. destruct (Hal 0 ltac:(lia)) as [-> _]. rewrite !Z.div_0_l by lia. simpl.
    apply wp_ret, HQ; done.
Qed.

Lemma wp_auto_dbs g n (Q : Z -> dev -> Prop) d :
  prov_inv g d -> (1 <= n <= d_totalvfs d)%nat ->
  (forall ret d', prov_inv g d' -> frame but_dbs d d' -> ret <= 0 ->
     (ret = 0 -> 0 < fair_dbs g n d /\ forall id, (1 <= id <= n)%nat ->
        intel_iov_provisioning_get_dbs g id d' = fair_dbs g n d) -> Q ret d') ->
  wp (pf_auto_provision_dbs g n) Q d.
Proof using Type*.
  intros I Hn HQ. apply wp_bind, wp_get_cfg. cbv beta zeta.
  assert (u16 (u16 (GUC_NUM_DOORBELLS - num_dbs (cfg d g PFID)) / Z.of_nat n) = fair_dbs g n d /\
    0 <= fair_dbs g n d) as [-> Hb].
  { unfold fair_dbs. pose proof (Z.mod_pos_bound (GUC_NUM_DOORBELLS - num_dbs (cfg d g PFID)) (2 ^ 16) ltac:(done)) as Hu.
    fold (u16 (GUC_NUM_DOORBELLS - num_dbs (cfg d g PFID))) in Hu. set (x := u16 _) in Hu |- *.
    assert (0 <= x / Z.of_nat n <= x) by (split; [apply Z.div_pos; lia|apply Z.div_le_upper_bound; nia]).
    rewrite u16_small by lia. lia. }
  set (fair := fair_dbs g n d) in *.
  apply wp_if; intros Hz; propify; [apply wp_ret, HQ; done|].
  destruct (first_vfs d n) as (Hvf & Hnd & Hin); [lia|].
  apply (wp_auto_each g but_dbs _ _ (fun id d => intel_iov_provisioning_get_dbs g id d) fair); try done.
  - intros id d0 I0 Hid. apply step_dbs; [done|done|lia|]. intros ret d2 b m I2 Hst Hret.
    assert (forall i, i <> id -> intel_iov_provisioning_get_dbs g i d2 =
      intel_iov_provisioning_get_dbs g i d0) as Ho
      by (intros i Hi; unfold intel_iov_provisioning_get_dbs;
          by rewrite (cfg_step_other _ _ _ _ _ _ _ Hst) by auto).
    split_and!; [done|by (eapply frame_step; [|exact Hst])|by destruct Hret as [[-> _]|[? _]]; lia|done|].
    intros ->. destruct Hret as [[_ ->]|[? _]]; [|lia]. unfold intel_iov_provisioning_get_dbs.
    by rewrite (cfg_step_own _ _ _ _ _ Hst) by (by apply vf_index).
  - intros ret d' I' Hf Hr _ Hval. apply HQ; [done|done|done|]. intros Hr0. split; [lia|].
    intros id Hid. apply Hval; [done|]. by apply Hin.
Qed.
End resources.

(** ** All or nothing *)

Section auto.
Context `{E : Env} `{!EnvLaws E} `{B : BitmapOps} `{!BitmapLaws B}.

Lemma base_auto_mode d d' g : same_base d d' -> auto_mode (d_prov d' g) = auto_mode (d_prov d g).
Proof. intros Hb. exact (f_equal auto_mode (sb_prov _ _ Hb g)). Qed.
Lemma base_spare d d' g : same_base d d' -> spare (d_prov d' g) = spare (d_prov d g).
Proof. intros Hb. exact (f_equal spare (sb_prov _ _ Hb g)). Qed.

(** The free contexts depend on the context ranges, the spare ones and the PF's use. *)
Lemma ctxs_free_ext g d d' :
  d_totalvfs d' = d_totalvfs d -> d_ids_in_use d' = d_ids_in_use d ->
  spare (d_prov d' g) = spare (d_prov d g) -> kept num_ctxs d d' -> kept begin_ctx d d' ->
  ctxs_free g d' = ctxs_free g d.
Proof.
  intros Ht Hi Hsp Hn Hb.
  assert (ctxs_bitmap g d' = ctxs_bitmap g d) as Hbm.
  { unfold ctxs_bitmap. rewrite Ht. apply fill_ranges_ext. intros id. unfold ctxs_range. by rewrite Hn, Hb. }
  unfold ctxs_free, ctxs_free_pkgs, ctxs_holes, ctxs_reserve, pf_reserved_ctxs,
    intel_guc_submission_ids_in_use, pf_get_ctxs_quota, pf_get_spare_ctxs.
  by rewrite Hbm, Hi, Hsp, Hn.
Qed.

Lemma wp_set_auto g b (Q : unit -> dev -> Prop) d :
  (auto_mode (d_prov d g) = b -> Q tt d) ->
  (auto_mode (d_prov d g) <> b -> Q tt (upd_prov g (set_auto_mode b) d)) ->
  wp (pf_set_auto_provisioning g b) Q d.
Proof.
  intros H1 H2. apply wp_bind, wp_get_prov. apply wp_if; intros Hb.
  - apply wp_ret, H1. by apply Bool.eqb_prop.
  - apply wp_mod_prov, H2. by apply Bool.eqb_false_iff.
Qed.

(** The automatic mode is no part of what was provisioned. *)
Lemma auto_mode_cfg g b d g' id : cfg (upd_prov g (set_auto_mode b) d) g' id = cfg d g' id.
Proof. unfold cfg. rewrite prov_upd. by case_decide. Qed.
Lemma auto_mode_fair g b d n :
  let d' := upd_prov g (set_auto_mode b) d in
  fair_ggtt g n d' = fair_ggtt g n d /\ fair_ctxs g n d' = fair_ctxs g n d /\
  fair_dbs g n d' = fair_dbs g n d.
Proof.
  intros d'. assert (spare (d_prov d' g) = spare (d_prov d g)) as Hsp
    by (unfold d'; rewrite prov_upd; by case_decide).
  unfold fair_ggtt, fair_ctxs, fair_dbs, pf_get_max_ggtt, pf_get_spare_ggtt. split_and!.
  - by rewrite Hsp.
  - rewrite (ctxs_free_ext g d d'); try done; intros g' i; unfold d'; by rewrite auto_mode_cfg.
  - unfold d'. by rewrite auto_mode_cfg.
Qed.

Lemma wp_auto_unprovision g (Q : unit -> dev -> Prop) d :
  prov_inv g d ->
  (forall d', prov_inv g d' -> auto_mode (d_prov d' g) = false ->
     (auto_mode (d_prov d g) = true -> all_released g d') ->
     (auto_mode (d_prov d g) = false -> d' = d) -> Q tt d') ->
  wp (pf_auto_unprovision g) Q d.
Proof using Type*.
  intros I HQ. apply wp_bind, wp_gets, wp_bind. unfold pf_is_auto_provisioned.
  destruct (auto_mode (d_prov d g)) eqn:Ha.
  - apply wp_unprovision_all; [done|]. intros d1 I1 [Hb _] Hr _.
    pose proof (base_auto_mode _ _ g Hb) as Ha1. apply wp_set_auto; [congruence|]. intros _.
    apply HQ; [by apply prov_inv_prov|rewrite prov_upd; by rewrite decide_True| |done].
    intros _ id Hid. specialize (Hr id Hid). unfold released, intel_iov_provisioning_get_ctxs,
      pf_get_ctxs_quota, intel_iov_provisioning_get_dbs, intel_iov_provisioning_get_ggtt in *.
    by rewrite !auto_mode_cfg.
  - apply wp_ret, wp_set_auto; [|done]. intros _. by apply HQ.
Qed.

(** What a failure leaves behind, [d] being the state before. *)
Definition auto_undone (g : gt_id) (d d' : dev) : Prop :=
  auto_mode (d_prov d' g) = false /\
  (d_disable_auto d = false \/ auto_mode (d_prov d g) = true -> all_released g d') /\
  (d_disable_auto d = true -> auto_mode (d_prov d g) = false -> d' = d).

Lemma wp_auto_fail g err (Q : Z -> dev -> Prop) d d1 :
  prov_inv g d1 -> auto_mode (d_prov d1 g) = true -> d_disable_auto d = false ->
  (forall d', prov_inv g d' -> auto_undone g d d' -> Q err d') ->
  wp (auto_fail g err) Q d1.
Proof using Type*.
  intros I Ha Hen HQ. apply wp_bind, wp_auto_unprovision; [done|]. intros d' I' Ha' Hr _.
  apply wp_ret, HQ; [done|]. split_and!; [done|auto|congruence].
Qed.

Lemma frame_base {A} (F : intel_iov_config -> A) d d' : frame F d d' -> same_base d d'.
Proof. by intros []. Qed.

(** What success leaves. *)
Definition auto_done (g : gt_id) (n : nat) (d d' : dev) : Prop :=
  auto_mode (d_prov d' g) = true /\
  0 < fair_ctxs g n d /\ 0 < fair_dbs g n d /\ (g = GT_PRIMARY -> 0 < fair_ggtt g n d) /\
  forall id, (1 <= id <= n)%nat ->
    intel_iov_provisioning_get_ctxs g id d' = fair_ctxs g n d /\
    intel_iov_provisioning_get_dbs g id d' = fair_dbs g n d /\
    (g = GT_PRIMARY -> intel_iov_provisioning_get_ggtt g id d' = fair_ggtt g n d).

(** The three resources in turn, with the automatic mode on. *)
Lemma wp_auto_resources g n (Q : Z -> dev -> Prop) d d0 :
  prov_inv g d0 -> (1 <= n <= d_totalvfs d0)%nat -> auto_mode (d_prov d0 g) = true ->
  d_disable_auto d = false ->
  (forall d', prov_inv g d' -> auto_done g n d0 d' -> Q 0 d') ->
  (forall err d', err < 0 -> prov_inv g d' -> auto_undone g d d' -> Q err d') ->
  wp (err ← (if decide (g = GT_MEDIA) then mret 0 else pf_auto_provision_ggtt g n);
      if negb (err =? 0) then auto_fail g err else
      err ← pf_auto_provision_ctxs g n;
      if negb (err =? 0) then auto_fail g err else
      err ← pf_auto_provision_dbs g n;
      if negb (err =? 0) then auto_fail g err else mret 0) Q d0.
Proof using Type*.
  intros I0 Hn Ha0 Hen Hok Hfail.
  assert (wp (if decide (g = GT_MEDIA) then mret 0 else pf_auto_provision_ggtt g n)
    (fun ret d1 => prov_inv g d1 /\ frame but_ggtt d0 d1 /\ ret <= 0 /\
      (ret = 0 -> g = GT_PRIMARY -> 0 < fair_ggtt g n d0 /\ forall id, (1 <= id <= n)%nat ->
        intel_iov_provisioning_get_ggtt g id d1 = fair_ggtt g n d0)) d0) as Hg.
  { destruct g; simpl; [|apply wp_ret; split_and!; done].
    apply wp_auto_ggtt; [done|lia|]. intros. split_and!; auto. }
  apply wp_bind. eapply wp_mono; [exact Hg|]. intros e1 d1 (I1 & Hf1 & He1 & Hv1).
  pose proof (frame_base _ _ _ Hf1) as Hb1.
  pose proof (base_auto_mode _ _ g Hb1) as Ha1. rewrite Ha0 in Ha1.
  apply wp_if; intros Hx1; propify; [apply (wp_auto_fail _ _ _ d); auto with lia|].
  assert (fair_ctxs g n d1 = fair_ctxs g n d0) as Hc1.
  { unfold fair_ctxs. destruct Hf1 as [_ Hk1].
    rewrite (ctxs_free_ext g d0 d1); [done|apply Hb1|apply Hb1|by apply base_spare|..];
      intros g' i; specialize (Hk1 g' i); unfold but_ggtt in Hk1; congruence. }
  apply wp_bind, wp_auto_ctxs; [done|rewrite (sb_total _ _ Hb1); done|].
  intros e2 d2 I2 Hf2 He2 Hv2. pose proof (frame_base _ _ _ Hf2) as Hb2.
  pose proof (base_auto_mode _ _ g Hb2) as Ha2. rewrite Ha1 in Ha2.
  apply wp_if; intros Hx2; propify; [apply (wp_auto_fail _ _ _ d); auto with lia|].
  assert (fair_dbs g n d2 = fair_dbs g n d0) as Hd2.
  { unfold fair_dbs. destruct Hf1 as [_ Hk1], Hf2 as [_ Hk2]. specialize (Hk1 g PFID).
    specialize (Hk2 g PFID). unfold but_ggtt, but_ctxs in *. congruence. }
  apply wp_bind, wp_auto_dbs; [done|rewrite (sb_total _ _ Hb2), (sb_total _ _ Hb1); done|].
  intros e3 d3 I3 Hf3 He3 Hv3. pose proof (frame_base _ _ _ Hf3) as Hb3.
  pose proof (base_auto_mode _ _ g Hb3) as Ha3. rewrite Ha2 in Ha3.
  apply wp_if; intros Hx3; propify; [apply (wp_auto_fail _ _ _ d); auto with lia|].
  destruct (Hv2 Hx2) as [Hc Hvc]. destruct (Hv3 Hx3) as [Hd Hvd]. rewrite Hc1 in *. rewrite Hd2 in *.
  apply wp_ret, Hok; [done|]. split_and!; [done|done|done|by intros Hg0; apply Hv1|].
  destruct Hf2 as [_ Hk2], Hf3 as [_ Hk3].
  assert (forall g' i, ggtt_region (cfg d3 g' i) = ggtt_region (cfg d1 g' i) /\
    num_ctxs (cfg d3 g' i) = num_ctxs (cfg d2 g' i)) as Hk.
  { intros g' i. specialize (Hk2 g' i). specialize (Hk3 g' i). unfold but_ctxs, but_dbs in *. split; congruence. }
  intros id Hid. split_and!; [|by apply Hvd|].
  - rewrite <- (Hvc id Hid). unfold intel_iov_provisioning_get_ctxs, pf_get_ctxs_quota. apply Hk.
  - intros Hg0. destruct (Hv1 Hx1 Hg0) as [_ Hvg]. rewrite <- (Hvg id Hid).
    unfold intel_iov_provisioning_get_ggtt. by rewrite (proj1 (Hk GT_PRIMARY id)).
Qed.
End auto.

(** ** Properties *)

Section properties.
Context `{E : Env} `{!EnvLaws E} `{B : BitmapOps} `{!BitmapLaws B}.

(** The two outcomes of [intel_iov_provisioning_auto]. *)
Lemma wp_auto g n d :
  prov_inv g d -> (1 <= n <= d_totalvfs d)%nat ->
  wp (intel_iov_provisioning_auto g n) (fun ret d' => prov_inv g d' /\
    (ret = 0 /\ d_disable_auto d = false /\ auto_done g n d d' \/
     ret < 0 /\ (d_disable_auto d = true -> ret = - EPERM) /\ auto_undone g d d')) d.
Proof using Type*.
  intros I Hn. unfold intel_iov_provisioning_auto.
  rewrite (proj2 (Nat.eqb_neq n 0)) by lia. apply wp_bind, wp_gets.
  unfold i915_sriov_pf_is_auto_provisioning_enabled. destruct (d_disable_auto d) eqn:Hdis; simpl.
  { apply wp_bind, wp_auto_unprovision; [done|]. intros d' I' Ha Hr Hsame. apply wp_ret.
    split; [done|]. right. split; [done|]. split; [done|]. split; [done|].
    split; [intros [?|?]; [congruence|auto]|auto]. }
  assert (forall d0, prov_inv g d0 -> d_totalvfs d0 = d_totalvfs d -> auto_mode (d_prov d0 g) = true ->
    fair_ggtt g n d0 = fair_ggtt g n d -> fair_ctxs g n d0 = fair_ctxs g n d ->
    fair_dbs g n d0 = fair_dbs g n d -> forall (Q : Z -> dev -> Prop),
    (forall d', prov_inv g d' -> auto_done g n d d' -> Q 0 d') ->
    (forall err d', err < 0 -> prov_inv g d' -> auto_undone g d d' -> Q err d') ->
    wp (err ← (if decide (g = GT_MEDIA) then mret 0 else pf_auto_provision_ggtt g n);
      if negb (err =? 0) then auto_fail g err else
      err ← pf_auto_provision_ctxs g n;
      if negb (err =? 0) then auto_fail g err else
      err ← pf_auto_provision_dbs g n;
      if negb (err =? 0) then auto_fail g err else mret 0) Q d0) as Hmain.
  { intros d0 I0 Ht Ha H1 H2 H3 Q Hok Hfail. eapply (wp_auto_resources g n Q d); try done; [lia|].
    intros d' I' Hd. apply Hok; [done|]. unfold auto_done in *. by rewrite H1, H2, H3 in Hd. }
  apply wp_bind, wp_set_auto; intros Ha.
  - apply Hmain; try done.
    + intros d' I' Hd. split; [done|by left].
    + intros err d' He I' Hd. split; [done|right]. by split_and!.
  - destruct (auto_mode_fair g true d n) as (H1 & H2 & H3).
    apply Hmain; try done; [by apply prov_inv_prov|rewrite prov_upd; by rewrite decide_True|..].
    + intros d' I' Hd. split; [done|by left].
    + intros err d' He I' Hd. split; [done|right]. by split_and!.
Qed.

(** C3: automatic provisioning is all or nothing and fair. Either every one of the [n] VFs
    ends with the same, positive share of each resource (the largest GGTT hole, the free
    contexts and the doorbells divided by [n] and rounded down to the resource's granularity),
    or, whatever failed and whatever GuC answers to the roll back, no VF keeps anything. With
    the switch off the answer is -EPERM and manually provisioned VFs are not touched. *)
Theorem auto_all_or_nothing g n d :
  prov_inv g d -> (1 <= n <= d_totalvfs d)%nat ->
  let '(ret, d') := intel_iov_provisioning_auto g n d in
  prov_inv g d' /\
  (ret = 0 /\ d_disable_auto d = false /\ auto_done g n d d' \/
   ret < 0 /\ (d_disable_auto d = true -> ret = - EPERM) /\ auto_undone g d d').
Proof using Type*. intros I Hn. by apply wp_let, wp_auto. Qed.
End properties.

Section witnesses.
#[local] Existing Instance sample_env.

Lemma auto_all_or_nothing_witness :
  let '(ret, d') := intel_iov_provisioning_auto GT_PRIMARY 3 sample_dev in
  ret = 0 /\ forall id, (1 <= id <= 3)%nat ->
    intel_iov_provisioning_get_dbs GT_PRIMARY id d' = 85.
Proof.
  pose proof (auto_all_or_nothing GT_PRIMARY 3 sample_dev (sample_prov_inv GT_PRIMARY)
    ltac:(simpl; lia)) as Hw.
  assert (fst (intel_iov_provisioning_auto GT_PRIMARY 3 sample_dev) = 0) as H0 by (by vm_compute).
  destruct (intel_iov_provisioning_auto GT_PRIMARY 3 sample_dev) as [ret d']. simpl in H0. subst ret.
  split; [done|]. destruct Hw as (_ & [(_ & _ & Hd)|[? _]]); [|lia].
  destruct Hd as (_ & _ & _ & _ & Hd). intros id Hid. destruct (Hd id Hid) as (_ & -> & _). by vm_compute.
Defined.

(** A state whose PF asks to keep ten doorbells. *)
Definition sample_spare_dbs : dev := snd (intel_iov_provisioning_set_spare_dbs GT_PRIMARY 10 sample_dev).

(** The automatic share of doorbells takes no account of the spare ones: with ten
    doorbells kept for the PF, the automatic provisioning of one VF always asks for all 256
    and is refused, although 246 would be granted. *)
Theorem auto_dbs_ignores_spare :
  fst (intel_iov_provisioning_auto GT_PRIMARY 1 sample_spare_dbs) = - EDQUOT /\
  fst (intel_iov_provisioning_set_dbs GT_PRIMARY 1 246 sample_spare_dbs) = 0.
Proof. by vm_compute. Qed.
End witnesses.
