(* ===== verification/Push.v ===== *)
(** * Validation and push of the configurations

    Which configurations [intel_iov_provisioning_verify] accepts, what
    [intel_iov_provisioning_push] sends to GuC and records, the PF's own configuration and the
    way back to it after a reset of GuC, the switch of automatic provisioning. *)

From S2P Require Export Provisioning.

(** ** Validation *)

Section validate.
Context `{E : Env}.

(** A VF that can be enabled: GGTT of the primary GT and contexts on every GT up to [g]. *)
Definition complete (g : gt_id) (id : nat) (d : dev) : Prop :=
  allocated (region d id) = true /\ num_ctxs (cfg d GT_PRIMARY id) <> 0 /\ num_ctxs (cfg d g id) <> 0.

(** A VF with nothing of what [g] provisions. *)
Definition empty (g : gt_id) (id : nat) (d : dev) : Prop :=
  num_ctxs (cfg d g id) = 0 /\ num_dbs (cfg d g id) = 0 /\ begin_db (cfg d g id) = 0 /\
  (g = GT_PRIMARY -> allocated (region d id) = false).

Ltac classify_side :=
  repeat match goal with
  | |- _ /\ _ => split
  | |- ~ _ => intro
  | |- _ -> _ => intro
  | H : _ /\ _ |- _ => destruct H
  | H : ?x = ?x -> _ |- _ => specialize (H eq_refl)
  end; intuition congruence.
Ltac classify :=
  first [ left; split; [reflexivity|]; classify_side
        | right; left; split; [reflexivity|]; classify_side
        | right; right; split; [reflexivity|]; classify_side ].

Lemma validate_root_spec id d :
  (pf_validate_root id d = 0 /\ complete GT_PRIMARY id d /\ ~ empty GT_PRIMARY id d) \/
  (pf_validate_root id d = - ENODATA /\ empty GT_PRIMARY id d /\ ~ complete GT_PRIMARY id d) \/
  (pf_validate_root id d = - ENOKEY /\ ~ complete GT_PRIMARY id d /\ ~ empty GT_PRIMARY id d).
Proof.
  unfold pf_validate_root, validate_result, pf_is_valid_config_ggtt, pf_is_valid_config_ctxs,
    pf_is_valid_config_dbs, complete, empty, region.
  destruct (allocated _); destruct (Z.eqb_spec (num_ctxs (cfg d GT_PRIMARY id)) 0);
    destruct (Z.eqb_spec (num_dbs (cfg d GT_PRIMARY id)) 0);
    destruct (Z.eqb_spec (begin_db (cfg d GT_PRIMARY id)) 0); simpl; classify.
Qed.

Lemma validate_spec g id d :
  (pf_validate_config g id d = 0 /\ complete g id d /\ ~ empty g id d) \/
  (pf_validate_config g id d = - ENODATA /\ empty g id d /\ ~ complete g id d) \/
  (pf_validate_config g id d = - ENOKEY /\ ~ complete g id d /\ ~ empty g id d).
Proof.
  destruct g; [apply validate_root_spec|].
  unfold pf_validate_config, validate_result. simpl.
  assert (pf_validate_root id d = 0 <-> complete GT_PRIMARY id d) as Hroot.
  { destruct (validate_root_spec id d) as [(->&?&?)|[(->&?&?)|(->&?&?)]]; by split. }
  unfold pf_is_valid_config_ggtt, pf_is_valid_config_ctxs, pf_is_valid_config_dbs, complete,
    empty, region in *.
  destruct (Z.eqb_spec (pf_validate_root id d) 0); destruct (allocated _);
    destruct (Z.eqb_spec (num_ctxs (cfg d GT_MEDIA id)) 0);
    destruct (Z.eqb_spec (num_dbs (cfg d GT_MEDIA id)) 0);
    destruct (Z.eqb_spec (begin_db (cfg d GT_MEDIA id)) 0); simpl; classify.
Qed.

(** The two counters of the loop against the VFs seen. *)
Lemma verify_counters g d ids v e :
  let '(v', e') := foldl (verify_count g d) (v, e) ids in
  exists a b, v' = (v + a)%nat /\ e' = (e + b)%nat /\ (a + b <= length ids)%nat /\
    (b = length ids <-> Forall (fun n => empty g n d) ids) /\
    ((a + b)%nat = length ids <-> Forall (fun n => complete g n d \/ empty g n d) ids).
Proof.
  revert v e. induction ids as [|n ids IH]; intros v e; simpl.
  { exists 0%nat, 0%nat. split_and!; try lia; split; auto. }
  assert (exists da db, verify_count g d (v, e) n = ((v + da)%nat, (e + db)%nat) /\
    (da + db <= 1)%nat /\ (db = 1%nat <-> empty g n d) /\
    ((da + db)%nat = 1%nat <-> complete g n d \/ empty g n d)) as (da & db & -> & Hd & He & Hc).
  { unfold verify_count. destruct (validate_spec g n d) as [(->&?&?)|[(->&?&?)|(->&?&?)]]; simpl.
    - exists 1%nat, 0%nat. split_and!; [f_equal; lia|lia|split; [lia|done]|split; auto].
    - exists 0%nat, 1%nat. split_and!; [f_equal; lia|lia|done|split; auto].
    - exists 0%nat, 0%nat. split_and!; [f_equal; lia|lia|split; [lia|done]|split; [lia|tauto]]. }
  specialize (IH (v + da)%nat (e + db)%nat). destruct (foldl _ _ ids) as [v' e'].
  destruct IH as (a & b & -> & -> & Hab & Hb & Hsum). exists (da + a)%nat, (db + b)%nat.
  rewrite !Forall_cons, <- Hb, <- Hsum, <- Hc, <- He. split_and!; lia.
Qed.

(** [intel_iov_provisioning_verify] tells apart exactly three cases. Looking at the first
    [n] VFs it returns -ENODATA when none has anything on this GT, 0 when each one is complete
    (a GGTT region, contexts on the primary GT and on this one) or empty and not all are empty,
    and -ENOKEY otherwise. *)
Theorem verify_classifies g n d :
  let vfs := seq 1 n in
  let ret := intel_iov_provisioning_verify g n d in
  (ret = - ENODATA <-> Forall (fun id => empty g id d) vfs) /\
  (ret = 0 <-> Forall (fun id => complete g id d \/ empty g id d) vfs /\
               ~ Forall (fun id => empty g id d) vfs) /\
  (ret = 0 \/ ret = - ENODATA \/ ret = - ENOKEY).
Proof.
  intros vfs ret. pose proof (verify_counters g d vfs 0 0) as Hc.
  unfold ret, intel_iov_provisioning_verify. fold vfs.
  destruct (foldl _ _ vfs) as [v e]. destruct Hc as (a & b & -> & -> & Hab & <- & <-).
  assert (length vfs = n) as -> by apply length_seq. simpl.
  destruct (Nat.eqb_spec b n) as [->|Hb].
  - split_and!; [done|split; [done|tauto]|auto].
  - destruct (Nat.eqb_spec (a + b) n) as [Hs|Hs]; simpl; (split_and!; [split; (done || lia)|split; (done || tauto)|auto]).
Qed.
End validate.

(** ** Pushing *)

Section push.
Context `{E : Env}.

(** The request that configures VF [n], if it has anything to configure. *)
Definition push_req (g : gt_id) (addr : Z) (d : dev) (n : nat) : list guc_req :=
  let blob := push_blob g n d in
  if (length blob =? 0)%nat then [] else [vf_cfg_req g (Z.of_nat n) addr (Z.of_nat (length blob)) blob].

(** What the buffer of a VF says, for [d]'s configurations. *)
Definition push_klvs (g : gt_id) (n : nat) (d : dev) : list (Z * klv_value) :=
  (if decide (pf_validate_config g n d = - ENODATA) then [] else config_klvs (cfg d g n)) ++
  (if decide (g = GT_MEDIA) then config_klvs_ggtt (cfg d GT_PRIMARY n) else []).

Lemma push_blob_decodes g n d :
  config_wf (cfg d g n) -> config_wf (cfg d GT_PRIMARY n) ->
  pf_verify_config_klvs (push_blob g n d) = Some (push_klvs g n d).
Proof.
  intros Hc Hr. apply decodes_verify. unfold push_blob, push_klvs.
  assert (decodes (if decide (g = GT_MEDIA) then encode_config_ggtt (cfg d GT_PRIMARY n) else [])
    (if decide (g = GT_MEDIA) then config_klvs_ggtt (cfg d GT_PRIMARY n) else [])) as Hm.
  { case_decide; [|apply decodes_nil]. pose proof (encode_config_ggtt_decodes _ [] [] Hr decodes_nil) as D.
    by rewrite !app_nil_r in D. }
  destruct (Z.eqb_spec (pf_validate_config g n d) (- ENODATA)) as [He|He]; simpl.
  - rewrite (decide_True (P := pf_validate_config g n d = - ENODATA)) by done. exact Hm.
  - rewrite (decide_False (P := pf_validate_config g n d = - ENODATA)) by done. by apply encode_config_decodes.
Qed.

Lemma push_blob_same g n d d' : same_pf d d' -> push_blob g n d' = push_blob g n d.
Proof.
  intros Hs. unfold push_blob, pf_validate_config, pf_validate_root, pf_is_valid_config_ggtt,
    pf_is_valid_config_ctxs, pf_is_valid_config_dbs. by rewrite !(same_cfg _ _ _ _ Hs).
Qed.

Lemma wp_push_each g addr ids : forall (Q : Z -> dev -> Prop) d,
  (forall ret d' sent rest, same_pf d d' -> d_live d' = d_live d ->
     ids ≫= push_req g addr d = sent ++ rest -> d_log d' = d_log d ++ sent ->
     (ret = 0 /\ rest = [] \/
      ret < 0 /\ exists l r, sent = l ++ [r] /\ guc_reply (d_log d ++ l) r = ret) -> Q ret d') ->
  wp (push_each g addr ids) Q d.
Proof.
  induction ids as [|n ids IH]; intros Q d HQ; cbn [push_each].
  { apply wp_ret, (HQ _ _ [] []); try done; [by rewrite app_nil_r|auto]. }
  apply wp_bind, wp_gets, wp_bind.
  assert (push_req g addr d n = [] \/ exists r, push_req g addr d n = [r]) as Hreq
    by (unfold push_req; case_match; eauto).
  assert (forall d1, same_pf d d1 -> d_live d1 = d_live d -> d_log d1 = d_log d ++ push_req g addr d n ->
    wp (push_each g addr ids) Q d1) as Hgo.
  { intros d1 Hs1 Hl1 Hlog1. apply IH. intros ret d' sent rest Hs Hl Hsent Hlog Hret.
    assert (ids ≫= push_req g addr d1 = ids ≫= push_req g addr d) as Heq.
    { clear -Hs1. induction ids as [|i ids IH]; [done|]. cbn. rewrite IH. f_equal.
      unfold push_req. by rewrite (push_blob_same _ _ _ _ Hs1). }
    apply (HQ ret d' (push_req g addr d n ++ sent) rest); [by etransitivity|congruence|..].
    - cbn. rewrite <- Heq, Hsent. apply app_assoc.
    - by rewrite Hlog, Hlog1, app_assoc.
    - destruct Hret as [|(Hn & l & r & -> & Hr)]; [by left|right]. split; [done|].
      exists (push_req g addr d n ++ l), r. split; [apply app_assoc|]. by rewrite app_assoc, <- Hlog1. }
  unfold push_req in Hgo, Hreq. destruct (Nat.eqb_spec (length (push_blob g n d)) 0) as [H0|H0]; simpl.
  - apply wp_ret. simpl. apply Hgo; [done|done|by rewrite app_nil_r].
  - apply wp_guc_send. intros d1 Hs1 Hl1 Hlog1.
    fold (vf_cfg_req g (Z.of_nat n) addr (Z.of_nat (length (push_blob g n d))) (push_blob g n d)) in *.
    apply wp_if; intros Hb; propify; [|by apply Hgo].
    apply wp_ret. set (r := vf_cfg_req _ _ _ _ _) in *.
    apply (HQ _ _ [r] (ids ≫= push_req g addr d)); [done|done| |done|].
    + cbn. unfold push_req at 1. by rewrite (proj2 (Nat.eqb_neq _ 0)).
    + right. split; [done|]. exists [], r. by rewrite app_nil_r.
Qed.

Lemma same_upd_prov g f d d' : same_pf d d' -> same_pf (upd_prov g f d) (upd_prov g f d').
Proof.
  intros Hs. constructor; try (by destruct Hs). intros g'. rewrite !prov_upd. by rewrite (same_prov _ _ Hs).
Qed.

(** What pushing the first [num] configurations did, [reqs] being their requests. *)
Definition push_result (g : gt_id) (num : nat) (reqs : list guc_req) (d : dev) (ret : Z) (d' : dev) : Prop :=
  (ret = 0 /\ same_pf (upd_prov g (set_num_pushed num) d) d' /\ d_log d' = d_log d ++ reqs) \/
  (ret < 0 /\ same_pf d d' /\ exists l r rest, reqs = l ++ r :: rest /\
     d_log d' = d_log d ++ l ++ [r] /\ guc_reply (d_log d ++ l) r = ret) \/
  (ret = env_vma (d_ticks d) /\ ret <> 0 /\ same_pf d d' /\ d_log d' = d_log d).

Lemma cfg_num_pushed g n d g' id : cfg (upd_prov g (set_num_pushed n) d) g' id = cfg d g' id.
Proof. unfold cfg. rewrite prov_upd. by case_decide. Qed.

Lemma wp_push_configs g num (Q : Z -> dev -> Prop) d :
  let reqs := seq 1 num ≫= push_req g (env_vma_addr (d_ticks d)) d in
  (forall ret d', push_result g num reqs d ret d' -> (forall g' id, cfg d' g' id = cfg d g' id) ->
     Q ret d') ->
  wp (pf_push_configs g num) Q d.
Proof.
  intros reqs HQ. unfold pf_push_configs. apply wp_bind. unfold wp at 1. simpl.
  set (d1 := upd_hw _ _ _ d). assert (same_pf d d1) as Hs1 by apply same_hw.
  apply wp_if; intros Hv; propify.
  { apply wp_ret, HQ; [right; right; by split_and!|done]. }
  apply wp_bind, wp_push_each. intros ret d2 sent rest Hs2 Hl2 Hsent Hlog Hret.
  assert (same_pf d d2) as Hs by (by etransitivity).
  assert (seq 1 num ≫= push_req g (env_vma_addr (d_ticks d)) d1 = reqs) as Heq by done.
  rewrite Heq in Hsent. destruct Hret as [[-> ->]|(Hneg & l & r & -> & Hr)]; simpl.
  - rewrite app_nil_r in Hsent. subst sent. apply wp_bind, wp_mod_prov, wp_ret, HQ.
    + left. split_and!; [done|by apply same_upd_prov|exact Hlog].
    + intros g' id. rewrite cfg_num_pushed. by apply same_cfg.
  - rewrite (proj2 (Z.ltb_lt ret 0)) by done. apply wp_ret, HQ; [|intros; by apply same_cfg].
    right; left. split_and!; [done|done|]. exists l, r, rest. split_and!; [|exact Hlog|exact Hr].
    by rewrite Hsent, <- app_assoc.
Qed.

(** What [intel_iov_provisioning_push] sends and records for [num] VFs. When the PF is not
    in error, it sends in order one request per VF that has something to configure, each
    carrying a buffer that decodes to that VF's configuration (with the primary GT's GGTT
    region on the media GT), and stops at the first negative answer, which it returns. The
    number of pushed configurations is recorded exactly when all were accepted, and nothing
    else changes. *)
Theorem push_sends_all g num d :
  (1 <= num)%nat -> 0 <= i915_sriov_pf_status d ->
  let reqs := seq 1 num ≫= push_req g (env_vma_addr (d_ticks d)) d in
  let '(ret, d') := intel_iov_provisioning_push g num d in
  push_result g num reqs d ret d' /\
  (forall g' id, cfg d' g' id = cfg d g' id) /\
  (forall id, config_wf (cfg d g id) -> config_wf (cfg d GT_PRIMARY id) ->
     pf_verify_config_klvs (push_blob g id d) = Some (push_klvs g id d)).
Proof.
  intros Hnum Hst reqs. apply wp_let. unfold intel_iov_provisioning_push. apply wp_bind, wp_gets.
  rewrite (proj2 (Z.ltb_ge _ 0)) by done. rewrite (proj2 (Nat.eqb_neq num 0)) by lia. simpl.
  apply wp_push_configs. intros ret d' Hr Hc. split_and!; [done|done|]. intros id. apply push_blob_decodes.
Qed.

(** *** Resetting *)

Definition reset_req (g : gt_id) (n : nat) : guc_req := vf_cfg_req g (Z.of_nat n) 0 0 [].
(** The requests that reset the VFs [n], ..., [m + 1]. *)
Definition resets (g : gt_id) (n m : nat) : list guc_req := reset_req g <$> rev (seq (S m) (n - m)).

Lemma resets_S g n m : (m <= n)%nat -> resets g (S n) m = reset_req g (S n) :: resets g n m.
Proof.
  intros Hm. unfold resets. replace (S n - m)%nat with (S (n - m)) by lia.
  rewrite seq_S, rev_app_distr. simpl. do 2 f_equal. lia.
Qed.

Lemma wp_reset_down g n : forall (Q : nat -> dev -> Prop) d,
  (forall m d', (m <= n)%nat -> same_pf d d' ->
     d_log d' = d_log d ++ resets g n m ++ (if (m =? 0)%nat then [] else [reset_req g m]) ->
     (forall l r rest, resets g n m = l ++ r :: rest -> 0 <= guc_reply (d_log d ++ l) r) ->
     (m <> 0%nat -> guc_reply (d_log d ++ resets g n m) (reset_req g m) < 0) -> Q m d') ->
  wp (reset_down g n) Q d.
Proof.
  induction n as [|n IH]; intros Q d HQ; cbn [reset_down].
  { apply wp_ret, HQ; [done|done|by rewrite app_nil_r|by intros [|??]|done]. }
  apply wp_bind, wp_guc_send. intros d1 Hs1 _ Hlog1. fold (reset_req g (S n)) in *.
  apply wp_if; intros Hb; propify.
  - assert (resets g (S n) (S n) = []) as Hnil by (unfold resets; by rewrite Nat.sub_diag).
    apply wp_ret, HQ; rewrite ?Hnil; [done|done|done|by intros [|??]|]. intros _. by rewrite app_nil_r.
  - apply IH. intros m d2 Hm Hs2 Hlog2 Hok Href.
    apply HQ; [lia|by etransitivity|..]; rewrite resets_S by done.
    + rewrite Hlog2, Hlog1. by rewrite <- app_assoc.
    + intros [|r0 l] r rest Heq; simpl in Heq; injection Heq as <- Heq.
      * by rewrite app_nil_r.
      * rewrite cons_middle, app_assoc, <- Hlog1. by eapply Hok.
    + intros Hm0. rewrite cons_middle, app_assoc, <- Hlog1. auto.
Qed.

(** Undoing the push, [intel_iov_provisioning_push] with 0. The pushed configurations are
    reset from the last VF down, one request each, until GuC refuses one; the number of pushed
    configurations afterwards is the VF refused, or 0 when none is, and the answer is 0 in
    that case only and -ESTALE otherwise: the record never claims a reset GuC did not accept. *)
Theorem push_zero_resets g d :
  0 <= i915_sriov_pf_status d ->
  let n := num_pushed (d_prov d g) in
  let '(ret, d') := intel_iov_provisioning_push g 0 d in
  let m := num_pushed (d_prov d' g) in
  (m <= n)%nat /\ ret = (if (m =? 0)%nat then 0 else - ESTALE) /\
  d_log d' = d_log d ++ resets g n m ++ (if (m =? 0)%nat then [] else [reset_req g m]) /\
  (forall l r rest, resets g n m = l ++ r :: rest -> 0 <= guc_reply (d_log d ++ l) r) /\
  (m <> 0%nat -> guc_reply (d_log d ++ resets g n m) (reset_req g m) < 0) /\
  (forall g' id, cfg d' g' id = cfg d g' id).
Proof.
  intros Hst n. apply wp_let. unfold intel_iov_provisioning_push. apply wp_bind, wp_gets.
  rewrite (proj2 (Z.ltb_ge _ 0)) by done. simpl. apply wp_bind, wp_get_prov, wp_bind. fold n.
  apply wp_reset_down. intros m d1 Hm Hs Hlog Hok Href. apply wp_bind, wp_mod_prov, wp_ret.
  rewrite prov_upd, decide_True by done. simpl. split_and!; try done.
  intros g' id. rewrite cfg_num_pushed. by apply same_cfg.
Qed.
End push.

(** ** The PF's own configuration and the way back after a reset of GuC *)

Section vgt.
Context `{E : Env} `{!EnvLaws E}.

(** What GuC is told about the PF: the GGTT above its own firmware, all contexts and doorbells. *)
Definition self_klvs (g : gt_id) : list (list (Z * klv_value)) :=
  [[(GUC_KLV_VF_CFG_GGTT_START_KEY, Klv64 (wopcm_guc_size g))];
   [(GUC_KLV_VF_CFG_GGTT_SIZE_KEY, Klv64 (u64 (GUC_GGTT_TOP - wopcm_guc_size g)))];
   [(GUC_KLV_VF_CFG_BEGIN_CONTEXT_ID_KEY, Klv32 0)];
   [(GUC_KLV_VF_CFG_NUM_CONTEXTS_KEY, Klv32 GUC_MAX_CONTEXT_ID)];
   [(GUC_KLV_VF_CFG_BEGIN_DOORBELL_ID_KEY, Klv32 0)];
   [(GUC_KLV_VF_CFG_NUM_DOORBELLS_KEY, Klv32 GUC_NUM_DOORBELLS)]].

(** A call that sends one request for VF [id] with the entries [k] if its buffer is allocated,
    and reports whether GuC parsed one key. *)
Definition sends_one (g : gt_id) (id : nat) (k : list (Z * klv_value)) (m : st dev Z) : Prop :=
  forall d, wp m (fun ret d' => same_pf d d' /\ ret <= 0 /\
    (env_vma (d_ticks d) = 0 -> exists r, d_log d' = d_log d ++ [r] /\
       pf_verify_config_klvs (req_blob r) = Some k /\ ret = klv_result (guc_reply (d_log d) r))) d.

Lemma sends_klv32 g id key v :
  is_klv_key key -> sends_one g id [(key, Klv32 v)] (guc_update_vf_klv32 g id key v).
Proof using Type*.
  intros Hk d. unfold wp. rewrite vf_klv32_run. case_decide as Hv.
  - split_and!; [apply same_hw|apply klv_result_le|]. intros _. eexists. split_and!; [done| |done].
    by apply decodes_verify, decodes_klv32, decodes_nil.
  - split_and!; [apply same_hw|apply env_vma_err|done].
Qed.

Lemma sends_klv64 g id key v :
  is_klv_key key -> is_u64 v -> sends_one g id [(key, Klv64 v)] (guc_update_vf_klv64 g id key v).
Proof using Type*.
  intros Hk Hu d. apply wp_bind. unfold wp at 1. simpl. apply wp_if; intros Hb; propify.
  - apply wp_ret. split_and!; [apply same_hw|apply env_vma_err|done].
  - apply wp_bind, wp_guc_send. intros d1 Hs _ Hlog. apply wp_ret.
    split_and!; [by etransitivity; [apply same_hw|]|apply klv_result_le|]. intros _. eexists.
    split_and!; [exact Hlog| |done]. by apply decodes_verify, decodes_klv64, decodes_nil.
Qed.

(** GuC answers each of the requests [rs], sent after the history [h], with one parsed key. *)
Definition replies_ok (h rs : list guc_req) : Prop :=
  forall l r rest, rs = l ++ r :: rest -> guc_reply (h ++ l) r = 1.

Lemma replies_ok_snoc h rs r : replies_ok h (rs ++ [r]) <-> replies_ok h rs /\ guc_reply (h ++ rs) r = 1.
Proof.
  split.
  - intros Hok. split; [|by eapply Hok].
    intros l r' rest ->. apply (Hok l r' (rest ++ [r])). by rewrite <- app_assoc.
  - intros [Hok Hr] l r' rest Heq. destruct rest as [|x rest] using rev_ind.
    + apply app_inj_tail in Heq as [-> ->]. done.
    + rewrite app_comm_cons, app_assoc in Heq. apply app_inj_tail in Heq as [-> ->]. by eapply Hok.
Qed.

(** A run of such calls whose results are or-ed together into [e]. *)
Record sent (d : dev) (ks : list (list (Z * klv_value))) (e : Z) (rs : list guc_req) (d' : dev) : Prop := {
  sent_same : same_pf d d';
  sent_log : d_log d' = d_log d ++ rs;
  sent_klvs : (fun r => pf_verify_config_klvs (req_blob r)) <$> rs = Some <$> ks;
  sent_ok : e = 0 <-> replies_ok (d_log d) rs;
}.

Lemma sent_nil d : sent d [] 0 [] d.
Proof. constructor; [done|by rewrite app_nil_r|done|]. split; [|done]. by intros _ [|??]. Qed.

Lemma sent_step g id k m (K : Z -> st dev Z) (Q : Z -> dev -> Prop) d d1 ks e rs :
  (forall n, env_vma n = 0) -> sends_one g id k m -> sent d ks e rs d1 ->
  (forall e' r d2, sent d (ks ++ [k]) (Z.lor e e') (rs ++ [r]) d2 -> wp (K e') Q d2) ->
  wp (m ≫= K) Q d1.
Proof.
  intros Hv Hm [Hs Hl Hk Ho] HK. apply wp_bind. eapply wp_mono; [apply Hm|].
  intros e' d2 (Hs2 & _ & Hr). destruct (Hr (Hv _)) as (r & Hlog & Hkr & ->).
  apply (HK _ r). constructor; [by etransitivity|by rewrite Hlog, Hl, app_assoc| |].
  - rewrite !fmap_app, Hk. simpl. by rewrite Hkr.
  - by rewrite Z.lor_eq_0_iff, klv_result_0, replies_ok_snoc, Ho, Hl.
Qed.

Lemma wp_push_self g (Q : Z -> dev -> Prop) d :
  (forall n, env_vma n = 0) -> is_u64 (wopcm_guc_size g) ->
  (forall e rs d', sent d (self_klvs g) e rs d' -> Q (if negb (e =? 0) then - EREMOTEIO else 0) d') ->
  wp (pf_push_self_config g) Q d.
Proof using Type*.
  intros Hv Hw HQ. pose proof (u64_range (GUC_GGTT_TOP - wopcm_guc_size g)) as Hu.
  unfold pf_push_self_config.
  eapply sent_step; [done|by apply sends_klv64; [klv_key|]|apply (sent_nil d)|]. intros e1 r1 d1 H1.
  eapply sent_step; [done|by apply sends_klv64; [klv_key|]|exact H1|]. intros e2 r2 d2 H2.
  eapply sent_step; [done|by apply sends_klv32; klv_key|exact H2|]. intros e3 r3 d3 H3.
  eapply sent_step; [done|by apply sends_klv32; klv_key|exact H3|]. intros e4 r4 d4 H4.
  eapply sent_step; [done|by apply sends_klv32; klv_key|exact H4|]. intros e5 r5 d5 H5.
  eapply sent_step; [done|by apply sends_klv32; klv_key|exact H5|]. intros e6 r6 d6 H6.
  apply wp_ret. by apply (HQ _ _ _ H6).
Qed.

Lemma cfg_self_done b g d g' id : cfg (upd_prov g (set_self_done b) d) g' id = cfg d g' id.
Proof. unfold cfg. rewrite prov_upd. by case_decide. Qed.

(** Switching GuC to virtualization mode, [intel_iov_provisioning_force_vgt_mode], when its
    buffers can be allocated. It sends the PF's own configuration, six requests with the
    entries [self_klvs]; it returns 0 and remembers that it is done exactly when GuC parsed
    every one of them, -EREMOTEIO otherwise; once done, calling it again sends nothing. *)
Theorem vgt_mode_once g d :
  (forall n, env_vma n = 0) -> is_u64 (wopcm_guc_size g) ->
  0 <= i915_sriov_pf_status d -> self_done (d_prov d g) = false ->
  let '(ret, d') := intel_iov_provisioning_force_vgt_mode g d in
  (exists rs, d_log d' = d_log d ++ rs /\
     (fun r => pf_verify_config_klvs (req_blob r)) <$> rs = Some <$> self_klvs g /\
     ret = (if self_done (d_prov d' g) then 0 else - EREMOTEIO) /\
     (self_done (d_prov d' g) = true <-> replies_ok (d_log d) rs)) /\
  (forall g' id, cfg d' g' id = cfg d g' id) /\
  (ret = 0 -> intel_iov_provisioning_force_vgt_mode g d' = (0, d')).
Proof using Type*.
  intros Hv Hw Hst Hsd. apply wp_let, wp_bind, wp_gets. rewrite (proj2 (Z.ltb_ge _ 0)) by done.
  apply wp_bind, wp_get_prov. rewrite Hsd. apply wp_bind, wp_push_self; [done|done|].
  intros e rs d1 [Hs Hl Hk Ho]. destruct (Z.eqb_spec e 0) as [He|He]; simpl.
  - apply wp_bind, wp_mod_prov, wp_ret.
    assert (self_done (d_prov (upd_prov g (set_self_done true) d1) g) = true) as Hd
      by (rewrite prov_upd; by rewrite decide_True).
    split_and!.
    + exists rs. rewrite Hd. split_and!; [exact Hl|done|done|]. split; [by intros _; apply Ho|done].
    + intros g' id. rewrite cfg_self_done. by apply same_cfg.
    + intros _. unfold intel_iov_provisioning_force_vgt_mode, gets, get_prov, mbind, st_bind. simpl.
      assert (i915_sriov_pf_status (upd_prov g (set_self_done true) d1) = i915_sriov_pf_status d) as ->
        by (unfold i915_sriov_pf_status; simpl; by rewrite (same_status _ _ Hs)).
      rewrite (proj2 (Z.ltb_ge _ 0)) by done. unfold gets. cbn beta iota. by rewrite Hd.
  - apply wp_ret. assert (self_done (d_prov d1 g) = false) as Hd by (by rewrite (same_prov _ _ Hs)).
    split_and!.
    + exists rs. rewrite Hd. split_and!; [exact Hl|done|done|]. split; [done|]. intros Hr. by apply Ho in Hr.
    + intros g' id. by apply same_cfg.
    + done.
Qed.

(** *** After a reset of GuC *)

Lemma wp_reprovision_policy g (call : st dev Z) (commit : intel_iov_policies -> intel_iov_policies)
    (Q : Z -> dev -> Prop) d :
  hw_only call -> commit (policies (d_prov d g)) = policies (d_prov d g) ->
  (forall ret d', same_pf d d' -> Q ret d') ->
  wp (err ← call; if negb (err =? 0) then mret err else
      mod_prov g (fun p => set_policies (commit (policies p)) p) ≫= fun _ => mret 0) Q d.
Proof.
  intros Hc Heq HQ. apply wp_bind, hw_only_wp; [done|]. intros e d1 Hs _.
  apply wp_if; intros _; [by apply wp_ret, HQ|]. apply wp_bind, wp_mod_prov, wp_ret, HQ.
  etransitivity; [exact Hs|]. constructor; try done. intros g'. rewrite prov_upd. case_decide; [|done].
  subst. rewrite (same_prov _ _ Hs), Heq. by destruct (d_prov d g).
Qed.

(** The PF's policies and parameters are sent again and stay what they are. *)
Lemma wp_reprovision_rest g (Q : unit -> dev -> Prop) d :
  (forall d', same_pf d d' -> Q tt d') ->
  wp (pf_reprovision_sched_if_idle g ≫= fun _ =>
      pf_reprovision_reset_engine g ≫= fun _ =>
      pf_reprovision_sample_period g ≫= fun _ =>
      pf_reprovision_exec_quantum g PFID ≫= fun _ =>
      pf_reprovision_preempt_timeout g PFID ≫= fun _ => mret tt) Q d.
Proof using Type*.
  intros HQ.
  assert (forall p, with_sched_if_idle (sched_if_idle p) p = p) as E1 by (by intros []).
  assert (forall p, with_reset_engine (reset_engine p) p = p) as E2 by (by intros []).
  assert (forall p, with_sample_period (sample_period p) p = p) as E3 by (by intros []).
  apply wp_bind, wp_bind, wp_get_prov, wp_reprovision_policy;
    [apply hw_update_policy_klv32|apply E1|]. intros _ d1 Hs1.
  apply wp_bind, wp_bind, wp_get_prov, wp_reprovision_policy;
    [apply hw_update_policy_klv32|apply E2|]. intros _ d2 Hs2.
  apply wp_bind, wp_bind, wp_get_prov, wp_reprovision_policy;
    [apply hw_update_policy_klv32|apply E3|]. intros _ d3 Hs3.
  apply wp_bind, wp_bind, wp_get_cfg, hw_only_wp; [apply hw_update_vf_klv32|]. intros _ d4 Hs4 _.
  apply wp_bind, wp_bind, wp_get_cfg, hw_only_wp; [apply hw_update_vf_klv32|]. intros _ d5 Hs5 _.
  apply wp_ret, HQ. by repeat (etransitivity; [eassumption|]).
Qed.

(** With a GuC that accepts everything the switch to virtualization mode is made. *)
Lemma wp_vgt_mode g (Q : Z -> dev -> Prop) d :
  EnvWorks E -> is_u64 (wopcm_guc_size g) -> self_done (d_prov d g) = false ->
  (0 <= i915_sriov_pf_status d) ->
  (forall d', same_pf (upd_prov g (set_self_done true) d) d' -> Q 0 d') ->
  wp (intel_iov_provisioning_force_vgt_mode g) Q d.
Proof using Type*.
  intros HW Hw Hsd Hst HQ. unfold intel_iov_provisioning_force_vgt_mode.
  apply wp_bind, wp_gets. rewrite (proj2 (Z.ltb_ge _ 0)) by done. apply wp_bind, wp_get_prov.
  rewrite Hsd. apply wp_bind, wp_push_self; [apply works_vma|done|].
  intros e rs d1 [Hs _ _ Ho]. assert (e = 0) as -> by (apply Ho; intros ????; apply works_guc).
  simpl. apply wp_bind, wp_mod_prov, wp_ret, HQ. by apply same_upd_prov.
Qed.

(** *** What GuC is told again *)

(** [d'] is [d] after the requests [fs] were sent, each from a buffer of its own, which says where
    it is; the configurations and policies are those of [d]. *)
Record told (g : gt_id) (d : dev) (fs : list (Z -> guc_req)) (d' : dev) : Prop := {
  td_log : d_log d' = d_log d ++ imap (fun i f => f (env_vma_addr (d_ticks d + i)%nat)) fs;
  td_ticks : d_ticks d' = (d_ticks d + length fs)%nat;
  td_policies : policies (d_prov d' g) = policies (d_prov d g);
  td_cfg g' id : cfg d' g' id = cfg d g' id;
  td_num : d_numvfs d' = d_numvfs d;
  td_status : i915_sriov_pf_status d' = i915_sriov_pf_status d;
}.

Lemma told_trans g d fs d1 fs' d2 : told g d fs d1 -> told g d1 fs' d2 -> told g d (fs ++ fs') d2.
Proof.
  intros [L1 T1 P1 C1 N1 S1] [L2 T2 P2 C2 N2 S2]. constructor; try congruence.
  - rewrite L2, L1, imap_app, <- app_assoc, T1. do 2 f_equal. apply imap_ext. intros i f _. do 2 f_equal. cbn. lia.
  - rewrite T2, T1, length_app. lia.
Qed.
(** A change of the record of the GT that leaves configurations and policies alone. *)
Lemma told_prov g f d :
  (forall p, configs (f p) = configs p) -> (forall p, policies (f p) = policies p) -> told g d [] (upd_prov g f d).
Proof.
  intros Hc Hp. constructor; try done.
  - by rewrite app_nil_r.
  - rewrite prov_upd, decide_True by done. apply Hp.
  - intros g' id. unfold cfg. rewrite prov_upd. case_decide; [subst; by rewrite Hc|done].
Qed.

(** A call that sends one request and succeeds. *)
Definition tells (g : gt_id) (f : Z -> guc_req) (m : st dev Z) (d : dev) : Prop :=
  wp m (fun ret d' => ret = 0 /\ told g d [f] d') d.
Lemma told_hw g f d : told g d [f] (upd_hw (d_log d ++ [f (env_vma_addr (d_ticks d))]) (S (d_ticks d)) (d_live d) d).
Proof. constructor; try done; cbn; [by rewrite Nat.add_0_r|lia]. Qed.

Definition vf32_req (g : gt_id) (id : nat) (key v : Z) : Z -> guc_req :=
  fun addr => vf_cfg_req g (Z.of_nat id) addr 2 [klv_header key 1; v].
Definition vf64_req (g : gt_id) (id : nat) (key v : Z) : Z -> guc_req :=
  fun addr => vf_cfg_req g (Z.of_nat id) addr 3 [klv_header key 2; lower_32_bits v; upper_32_bits v].
Definition policy_req (g : gt_id) (key v : Z) : Z -> guc_req :=
  fun addr => policy_cfg_req g addr 2 [klv_header key 1; v].

Lemma tells_vf32 `{!EnvWorks E} g id key v d : tells g (vf32_req g id key v) (guc_update_vf_klv32 g id key v) d.
Proof using Type.
  unfold tells, wp. rewrite vf_klv32_run, decide_True by apply works_vma. rewrite works_guc. split; [done|].
  apply (told_hw g (vf32_req g id key v)).
Qed.
Lemma tells_vf64 `{!EnvWorks E} g id key v d : tells g (vf64_req g id key v) (guc_update_vf_klv64 g id key v) d.
Proof using Type.
  unfold tells, wp, guc_update_vf_klv64, guc_action_update_vf_cfg, mbind, st_bind. cbn. rewrite works_vma. cbn.
  rewrite works_guc. split; [done|]. exact (told_hw g (vf64_req g id key v) d).
Qed.
Lemma tells_policy `{!EnvWorks E} g key v commit d :
  commit (policies (d_prov d g)) = policies (d_prov d g) ->
  tells g (policy_req g key v) (err ← guc_update_policy_klv32 g key v; if negb (err =? 0) then mret err else
    mod_prov g (fun p => set_policies (commit (policies p)) p) ≫= fun _ => mret 0) d.
Proof using Type.
  intros Hc. apply wp_bind. unfold wp at 1. rewrite policy_klv32_run, decide_True by apply works_vma. rewrite works_guc.
  cbn [fst snd Z.eqb klv_result negb]. apply wp_bind, wp_mod_prov, wp_ret. split; [done|].
  destruct (told_hw g (policy_req g key v) d) as [L T P C N S]. constructor; try done.
  - rewrite prov_upd, decide_True by done. exact Hc.
  - intros g' id. rewrite <- C. unfold cfg. rewrite prov_upd. by case_decide; [subst|].
Qed.

Lemma told_step {A} g f (m : st dev Z) (K : Z -> st dev A) (Q : A -> dev -> Prop) d fs d1 :
  told g d fs d1 -> tells g f m d1 -> (forall d2, told g d (fs ++ [f]) d2 -> wp (K 0) Q d2) -> wp (m ≫= K) Q d1.
Proof.
  intros Ht Hm HK. unfold tells in Hm. apply wp_bind. eapply wp_mono; [exact Hm|]. intros ret d2 [-> H2]. apply HK. by eapply told_trans.
Qed.

(** The PF's own configuration, policies and parameters, and the configurations of the VFs. *)
Definition self_reqs (g : gt_id) : list (Z -> guc_req) :=
  [vf64_req g PFID GUC_KLV_VF_CFG_GGTT_START_KEY (wopcm_guc_size g);
   vf64_req g PFID GUC_KLV_VF_CFG_GGTT_SIZE_KEY (u64 (GUC_GGTT_TOP - wopcm_guc_size g));
   vf32_req g PFID GUC_KLV_VF_CFG_BEGIN_CONTEXT_ID_KEY 0;
   vf32_req g PFID GUC_KLV_VF_CFG_NUM_CONTEXTS_KEY GUC_MAX_CONTEXT_ID;
   vf32_req g PFID GUC_KLV_VF_CFG_BEGIN_DOORBELL_ID_KEY 0;
   vf32_req g PFID GUC_KLV_VF_CFG_NUM_DOORBELLS_KEY GUC_NUM_DOORBELLS].
Definition own_reqs (g : gt_id) (d : dev) : list (Z -> guc_req) :=
  let p := policies (d_prov d g) in
  let c := cfg d g PFID in
  [policy_req g GUC_KLV_VGT_POLICY_SCHED_IF_IDLE_KEY (Z.b2z (sched_if_idle p));
   policy_req g GUC_KLV_VGT_POLICY_RESET_AFTER_VF_SWITCH_KEY (Z.b2z (reset_engine p));
   policy_req g GUC_KLV_VGT_POLICY_ADVERSE_SAMPLE_PERIOD_KEY (sample_period p);
   vf32_req g PFID GUC_KLV_VF_CFG_EXEC_QUANTUM_KEY (exec_quantum c);
   vf32_req g PFID GUC_KLV_VF_CFG_PREEMPT_TIMEOUT_KEY (preempt_timeout c)].
Definition recovery_reqs (g : gt_id) (d : dev) : list guc_req :=
  imap (fun i f => f (env_vma_addr (d_ticks d + i)%nat)) (self_reqs g ++ own_reqs g d) ++
  (seq 1 (d_numvfs d) ≫= push_req g (env_vma_addr (d_ticks d + 11)%nat) d).

Lemma told_push_req g d fs d' addr id : told g d fs d' -> push_req g addr d' id = push_req g addr d id.
Proof.
  intros Ht. unfold push_req, push_blob, pf_validate_config, pf_validate_root, pf_is_valid_config_ggtt,
    pf_is_valid_config_ctxs, pf_is_valid_config_dbs. by rewrite !(td_cfg _ _ _ _ Ht).
Qed.
Lemma told_recovery g d d' : told g d [] d' -> recovery_reqs g d' = recovery_reqs g d.
Proof.
  intros Ht. unfold recovery_reqs, own_reqs. rewrite (td_ticks _ _ _ _ Ht), Nat.add_0_r, (td_policies _ _ _ _ Ht),
    (td_cfg _ _ _ _ Ht), (td_num _ _ _ _ Ht). f_equal. generalize (seq 1 (d_numvfs d)) as l.
  intros l. induction l as [|x l IH]; [done|]. cbn. by rewrite IH, (told_push_req g d [] d') by done.
Qed.

Lemma self_tells `{!EnvWorks E} g (Q : Z -> dev -> Prop) d0 d :
  told g d0 [] d -> (forall d', told g d0 (self_reqs g) d' -> Q 0 d') -> wp (pf_push_self_config g) Q d.
Proof using Type.
  intros H0 HQ. unfold pf_push_self_config.
  eapply told_step; [exact H0|apply tells_vf64|]. intros d1 H1. eapply told_step; [exact H1|apply tells_vf64|]. intros d2 H2.
  eapply told_step; [exact H2|apply tells_vf32|]. intros d3 H3. eapply told_step; [exact H3|apply tells_vf32|]. intros d4 H4.
  eapply told_step; [exact H4|apply tells_vf32|]. intros d5 H5. eapply told_step; [exact H5|apply tells_vf32|]. intros d6 H6.
  by apply wp_ret, HQ.
Qed.

Lemma own_tells `{!EnvWorks E} g fs (Q : unit -> dev -> Prop) d0 d :
  told g d0 fs d -> (forall d', told g d0 (fs ++ own_reqs g d0) d' -> Q tt d') ->
  wp (pf_reprovision_sched_if_idle g ≫= fun _ => pf_reprovision_reset_engine g ≫= fun _ =>
      pf_reprovision_sample_period g ≫= fun _ => pf_reprovision_exec_quantum g PFID ≫= fun _ =>
      pf_reprovision_preempt_timeout g PFID ≫= fun _ => mret tt) Q d.
Proof using Type.
  intros H0 HQ.
  assert (forall p, with_sched_if_idle (sched_if_idle p) p = p) as E1 by (by intros []).
  assert (forall p, with_reset_engine (reset_engine p) p = p) as E2 by (by intros []).
  assert (forall p, with_sample_period (sample_period p) p = p) as E3 by (by intros []).
  eapply told_step; [exact H0|apply wp_bind, wp_get_prov, tells_policy, E1|]. intros d1 H1.
  eapply told_step; [exact H1|apply wp_bind, wp_get_prov, tells_policy, E2|]. intros d2 H2.
  eapply told_step; [exact H2|apply wp_bind, wp_get_prov, tells_policy, E3|]. intros d3 H3.
  eapply told_step; [exact H3|apply wp_bind, wp_get_cfg, tells_vf32|]. intros d4 H4.
  eapply told_step; [exact H4|apply wp_bind, wp_get_cfg, tells_vf32|]. intros d5 H5. apply wp_ret, HQ.
  rewrite (td_policies _ _ _ _ H0), (td_policies _ _ _ _ H1), (td_policies _ _ _ _ H2),
    (td_cfg _ _ _ _ H3), (td_cfg _ _ _ _ H4) in H5.
  by rewrite <- !app_assoc in H5.
Qed.

(** The worker sends everything. *)
Lemma worker_tells `{!EnvWorks E} g d :
  0 <= i915_sriov_pf_status d -> self_done (d_prov d g) = false ->
  wp (pf_reprovisioning_worker_func g) (fun _ d' => d_log d' = d_log d ++ recovery_reqs g d) d.
Proof using Type.
  intros Hst Hsd. unfold pf_reprovisioning_worker_func, pf_do_reprovisioning, pf_reprovision_pf.
  apply wp_bind, wp_mod_prov. set (d1 := upd_prov g (set_worker false) d).
  assert (told g d [] d1) as H1 by (by apply told_prov). apply wp_bind, wp_gets.
  apply wp_bind, wp_bind, wp_bind, wp_gets. rewrite (td_status _ _ _ _ H1), (proj2 (Z.ltb_ge _ 0)) by done.
  apply wp_bind, wp_get_prov. assert (self_done (d_prov d1 g) = false) as -> by (unfold d1; by rewrite prov_upd, decide_True).
  apply wp_bind, (self_tells g _ d); [done|]. intros d2 H2. cbn [Z.eqb negb]. apply wp_bind, wp_mod_prov, wp_ret.
  set (d3 := upd_prov g (set_self_done true) d2).
  assert (told g d (self_reqs g) d3) as H3.
  { rewrite <- (app_nil_r (self_reqs g)). eapply told_trans; [exact H2|by apply told_prov]. }
  apply (own_tells g (self_reqs g) _ d); [done|]. intros d4 H4. rewrite (td_num _ _ _ _ H1).
  unfold recovery_reqs. destruct (Nat.eqb_spec (d_numvfs d) 0) as [H0|H0].
  - apply wp_ret. rewrite H0. cbn [seq mbind list_bind]. rewrite app_nil_r. apply (td_log _ _ _ _ H4).
  - apply wp_bind. unfold intel_iov_provisioning_push. apply wp_bind, wp_gets.
    rewrite (td_status _ _ _ _ H4), (proj2 (Z.ltb_ge _ 0)), (proj2 (Nat.eqb_neq _ 0)) by done.
    apply wp_push_configs. intros ret d5 Hr _. apply wp_ret.
    destruct Hr as [(_ & _ & ->)|[(Hn & _ & l & r & _ & _ & _ & Hr)|(Hr & Hn & _)]].
    + rewrite (td_log _ _ _ _ H4), (td_ticks _ _ _ _ H4), <- app_assoc. change (length (self_reqs g ++ own_reqs g d)) with 11%nat. do 2 f_equal.
      generalize (seq 1 (d_numvfs d)) as vfs. intros vfs. induction vfs as [|x vfs IH]; [done|]. cbn.
      by rewrite IH, (told_push_req g d _ d4 _ x H4).
    + rewrite works_guc in Hr. lia.
    + by rewrite works_vma in Hr.
Qed.

(** What it records. *)
Lemma worker_records g d :
  EnvWorks E -> is_u64 (wopcm_guc_size g) -> 0 <= i915_sriov_pf_status d -> self_done (d_prov d g) = false ->
  num_pushed (d_prov d g) = 0%nat ->
  wp (pf_reprovisioning_worker_func g) (fun _ d' =>
    num_pushed (d_prov d' g) = d_numvfs d /\ self_done (d_prov d' g) = true /\ worker_queued (d_prov d' g) = false /\
    policies (d_prov d' g) = policies (d_prov d g) /\ (forall g' id, cfg d' g' id = cfg d g' id)) d.
Proof using Type*.
  intros HW Hw Hst Hsd Hnum. unfold pf_reprovisioning_worker_func, pf_do_reprovisioning, pf_reprovision_pf.
  apply wp_bind, wp_mod_prov, wp_bind, wp_gets. set (d2 := upd_prov g (set_worker false) d).
  assert (d_prov d2 g = set_worker false (d_prov d g)) as Hp2 by (unfold d2; by rewrite prov_upd, decide_True).
  assert (forall g' id, cfg d2 g' id = cfg d g' id) as Hc2
    by (intros; unfold cfg, d2; rewrite !prov_upd; by repeat case_decide).
  apply wp_bind, wp_bind. apply wp_vgt_mode; [done|done|by rewrite Hp2|done|]. intros d3 Hs3.
  apply wp_reprovision_rest. intros d4 Hs4.
  pose proof (transitivity Hs3 Hs4) as Hs. pose proof (same_prov _ _ Hs g) as Hp4.
  rewrite prov_upd, decide_True, Hp2 in Hp4 by done.
  assert (forall g' id, cfg d4 g' id = cfg d g' id) as Hc4
    by (intros; by rewrite (same_cfg _ _ _ _ Hs), cfg_self_done, Hc2).
  change (d_numvfs d2) with (d_numvfs d).
  destruct (Nat.eqb_spec (d_numvfs d) 0) as [H0|H0].
  - apply wp_ret. rewrite Hp4. split_and!; try done. by rewrite H0.
  - apply wp_bind. unfold intel_iov_provisioning_push. apply wp_bind, wp_gets.
    assert (i915_sriov_pf_status d4 = i915_sriov_pf_status d) as ->
      by (unfold i915_sriov_pf_status; by rewrite (same_status _ _ Hs)).
    rewrite (proj2 (Z.ltb_ge _ 0)) by done. rewrite (proj2 (Nat.eqb_neq _ 0)) by done. simpl.
    apply wp_push_configs. intros ret d5 Hr Hc5. apply wp_ret.
    destruct Hr as [(_ & Hs5 & _)|[(Hn & _ & l & r & _ & _ & _ & Hr)|(Hr & Hn & _)]].
    + rewrite (same_prov _ _ Hs5), prov_upd, decide_True, Hp4 by done.
      split_and!; try done. intros g' id. by rewrite Hc5.
    + rewrite works_guc in Hr. lia.
    + by rewrite works_vma in Hr.
Qed.

(** C40: recovery after a reset of GuC. [intel_iov_provisioning_restart] forgets what was pushed,
    sends nothing and, on a ready PF, queues the worker; when GuC accepts what it is sent, the
    worker brings everything back. It sends exactly, and in this order: the six entries of the
    PF's own configuration, its three policies and its two scheduling parameters with their
    recorded values, and one request for each enabled VF that has something to configure, with
    its configuration ([push_req]); it records that this was done, and changes no configuration
    or policy. *)
Theorem restart_recovers g d :
  EnvWorks E -> is_u64 (wopcm_guc_size g) -> 0 < d_status d ->
  let '(_, d1) := intel_iov_provisioning_restart g d in
  num_pushed (d_prov d1 g) = 0%nat /\ self_done (d_prov d1 g) = false /\
  worker_queued (d_prov d1 g) = true /\ d_log d1 = d_log d /\
  let '(_, d2) := pf_reprovisioning_worker_func g d1 in
  d_log d2 = d_log d ++ recovery_reqs g d /\
  num_pushed (d_prov d2 g) = d_numvfs d /\ self_done (d_prov d2 g) = true /\
  worker_queued (d_prov d2 g) = false /\ policies (d_prov d2 g) = policies (d_prov d g) /\
  (forall g' id, cfg d2 g' id = cfg d g' id).
Proof using Type*.
  intros HW Hw Hst. apply wp_let.
  unfold intel_iov_provisioning_restart. apply wp_bind, wp_mod_prov, wp_bind, wp_mod_prov, wp_bind, wp_gets.
  set (d0 := upd_prov g (set_self_done false) _).
  assert (i915_sriov_pf_status d0 > 0) as Hst0.
  { unfold i915_sriov_pf_status, elvis. simpl. destruct (Z.eqb_spec (d_status d) 0); simpl; lia. }
  rewrite (proj2 (Z.gtb_lt _ _)) by lia. apply wp_mod_prov.
  set (d1 := upd_prov g (set_worker true) d0).
  assert (told g d [] d0) as H0
    by (apply (told_trans g d [] (upd_prov g (set_num_pushed 0) d) []); by apply told_prov).
  assert (told g d [] d1) as H1 by (apply (told_trans g d [] d0 []); [done|by apply told_prov]).
  assert (d_prov d1 g = set_worker true (set_self_done false (set_num_pushed 0 (d_prov d g)))) as Hp1
    by (unfold d1, d0; by rewrite !prov_upd, !decide_True).
  assert (d_log d1 = d_log d) as Hl1 by done.
  rewrite Hp1. split_and!; [done..|]. apply wp_let.
  assert (0 <= i915_sriov_pf_status d1) as Hst1 by (change (i915_sriov_pf_status d1) with (i915_sriov_pf_status d0); lia).
  eapply wp_mono; [apply wp_and; [apply worker_tells|apply (worker_records g d1 HW Hw)]; rewrite ?Hp1; done|].
  intros [] d2 (Hl & H2 & H3 & H4 & H5 & H6). rewrite Hl, Hl1, (told_recovery g d d1 H1).
  split_and!; try done.
  - rewrite H5. apply (td_policies _ _ _ _ H1).
  - intros g' id. by rewrite H6, (td_cfg _ _ _ _ H1).
Qed.
End vgt.

(** ** The switch of automatic provisioning *)

Section switch.
Context `{E : Env}.

Lemma all_gts_empty_spec gts d :
  all_gts_empty gts d = true <->
  Forall (fun g => Forall (fun id => empty g id d) (seq 1 (d_totalvfs d))) gts.
Proof.
  induction gts as [|g gts IH]; simpl; [by rewrite Forall_nil|].
  rewrite Forall_cons, <- IH. pose proof (verify_counters g d (seq 1 (d_totalvfs d)) 0 0) as Hc.
  unfold intel_iov_provisioning_verify. destruct (foldl _ _ _) as [v e].
  destruct Hc as (a & b & -> & -> & _ & <- & _). rewrite length_seq. simpl.
  destruct (Nat.eqb_spec b (d_totalvfs d)); simpl; [tauto|].
  split; [|tauto]. by destruct (negb _).
Qed.

(** [i915_sriov_pf_set_auto_provisioning] sets the switch and nothing else; turning
    automatic provisioning off always succeeds, and turning it on is refused with -ESTALE, the
    state unchanged, exactly when on some GT some VF still has something provisioned. *)
Theorem auto_switch enable d :
  let vfs := seq 1 (d_totalvfs d) in
  let nothing := Forall (fun g => Forall (fun id => empty g id d) vfs) i915_gts in
  let '(ret, d') := i915_sriov_pf_set_auto_provisioning enable d in
  (ret = 0 /\ d' = upd_sriov (d_numvfs d) (d_status d) (negb enable) d /\
     i915_sriov_pf_is_auto_provisioning_enabled d' = enable \/
   ret = - ESTALE /\ d' = d /\ enable = true /\ ~ nothing) /\
  (enable = false \/ nothing -> ret = 0).
Proof.
  intros vfs nothing. apply wp_let. unfold i915_sriov_pf_set_auto_provisioning, nothing, vfs.
  generalize i915_gts. intros gts.
  assert (forall b, d_disable_auto d = b -> d = upd_sriov (d_numvfs d) (d_status d) b d) as Hsame
    by (intros b <-; by destruct d).
  apply wp_bind, wp_gets. unfold i915_sriov_pf_is_auto_provisioning_enabled at 1.
  apply wp_if; intros Hb.
  { apply wp_ret. split; [left|done]. apply eqb_prop in Hb as ->.
    split_and!; [done|apply Hsame; by destruct (d_disable_auto d)|done]. }
  apply wp_bind. destruct enable; simpl.
  - apply wp_gets. apply wp_if; intros Hn; propify.
    + apply wp_ret. split; [|intros [|Hno]; [done|]].
      * right. split_and!; [done|done|done|]. intros Hno. apply all_gts_empty_spec in Hno. congruence.
      * apply all_gts_empty_spec in Hno. congruence.
    + apply wp_bind. by split; [left|].
  - apply wp_ret. simpl. apply wp_bind. by split; [left|].
Qed.
End switch.

Section witnesses.
#[local] Existing Instance sample_env.

(** One VF with resources, enabled and pushed; VF 2 has nothing. *)
Definition sample_pushed : dev :=
  upd_prov GT_PRIMARY (set_num_pushed 2) (upd_sriov 2 4 true sample_one_vf).

Lemma push_sends_all_witness :
  length (seq 1 2 ≫= push_req GT_PRIMARY (env_vma_addr 0) sample_one_vf) = 1%nat /\
  let '(ret, d') := intel_iov_provisioning_push GT_PRIMARY 2 sample_one_vf in
  ret = 0 /\ forall g id, cfg d' g id = cfg sample_one_vf g id.
Proof.
  split; [by vm_compute|].
  pose proof (push_sends_all GT_PRIMARY 2 sample_one_vf ltac:(lia) ltac:(by vm_compute)) as Hw.
  assert (fst (intel_iov_provisioning_push GT_PRIMARY 2 sample_one_vf) = 0) as Hr by (by vm_compute).
  destruct (intel_iov_provisioning_push _ _ _) as [ret d']. simpl in Hr. destruct Hw as (_ & Hc & _).
  by split.
Defined.

Lemma push_zero_resets_witness :
  let '(ret, d') := intel_iov_provisioning_push GT_PRIMARY 0 sample_pushed in
  num_pushed (d_prov d' GT_PRIMARY) = 0%nat /\ ret = 0 /\
  d_log d' = d_log sample_pushed ++ [reset_req GT_PRIMARY 2; reset_req GT_PRIMARY 1].
Proof.
  pose proof (push_zero_resets GT_PRIMARY sample_pushed ltac:(by vm_compute)) as Hw.
  assert (num_pushed (d_prov (snd (intel_iov_provisioning_push GT_PRIMARY 0 sample_pushed)) GT_PRIMARY) = 0%nat)
    as Hr by (by vm_compute).
  destruct (intel_iov_provisioning_push _ _ _) as [ret d']. simpl in Hr.
  destruct Hw as (_ & Hret & Hlog & _). rewrite Hr in Hret, Hlog. by split_and!.
Defined.

Lemma vgt_mode_once_witness :
  self_done (d_prov sample_one_vf GT_PRIMARY) = false /\
  let '(ret, d') := intel_iov_provisioning_force_vgt_mode GT_PRIMARY sample_one_vf in
  ret = 0 /\ intel_iov_provisioning_force_vgt_mode GT_PRIMARY d' = (0, d').
Proof.
  split; [by vm_compute|].
  pose proof (vgt_mode_once GT_PRIMARY sample_one_vf (works_vma (E := sample_env))
    ltac:(by vm_compute) ltac:(by vm_compute) ltac:(by vm_compute)) as Hw.
  assert (fst (intel_iov_provisioning_force_vgt_mode GT_PRIMARY sample_one_vf) = 0) as Hr by (by vm_compute).
  destruct (intel_iov_provisioning_force_vgt_mode GT_PRIMARY sample_one_vf) as [ret d']. simpl in Hr.
  destruct Hw as (_ & _ & Hw). split; [done|]. by apply Hw.
Defined.

Lemma restart_recovers_witness :
  let '(_, d1) := intel_iov_provisioning_restart GT_PRIMARY sample_pushed in
  let '(_, d2) := pf_reprovisioning_worker_func GT_PRIMARY d1 in
  num_pushed (d_prov d1 GT_PRIMARY) = 0%nat /\ num_pushed (d_prov d2 GT_PRIMARY) = 2%nat /\
  length (drop (length (d_log sample_pushed)) (d_log d2)) = 12%nat.
Proof.
  assert (is_u64 (wopcm_guc_size GT_PRIMARY)) as Hu by (by vm_compute).
  assert (0 < d_status sample_pushed) as Hst by done.
  pose proof (restart_recovers GT_PRIMARY sample_pushed sample_env_works Hu Hst) as Hw.
  destruct (intel_iov_provisioning_restart _ _) as [u d1]. destruct Hw as (Hp & _ & _ & _ & Hw).
  destruct (pf_reprovisioning_worker_func _ _) as [u' d2]. destruct Hw as (Hl & Hq & _).
  split_and!; [exact Hp|exact Hq|]. rewrite Hl, drop_app_length. by vm_compute.
Defined.

(** While VF 1 has resources automatic provisioning cannot be turned on again, but off. *)
Lemma auto_switch_witness :
  fst (i915_sriov_pf_set_auto_provisioning true sample_pushed) = - ESTALE /\
  fst (i915_sriov_pf_set_auto_provisioning false sample_pushed) = 0.
Proof.
  split; [by vm_compute|].
  generalize (auto_switch false sample_pushed). cbv zeta. generalize sample_pushed. intros d.
  destruct (i915_sriov_pf_set_auto_provisioning false d) as [ret d']. intros [_ Hw].
  apply Hw. by left.
Defined.
End witnesses.
