(* ===== verification/Relay.v ===== *)
(** * The relay between PF and VFs: sending

    gt/iov/intel_iov_relay.c up to [relay_send]: the fences that identify requests, the
    messages GuC forwards between the PF and a VF, the replies of the PF. Receiving and waiting
    are in RelayWait.v, after the service that answers requests (Service.v). *)

From S2P Require Export PfState.

(** ** ABI (guc_messages_abi.h, guc_actions_pf_abi.h, guc_actions_vf_abi.h, iov_errors_abi.h) *)

Definition GUC_HXG_MSG_n_PAYLOAD : Z := 0xffffffff.
Definition GUC_HXG_REQUEST_MSG_MIN_LEN : nat := 1.
Definition GUC_HXG_EVENT_MSG_MIN_LEN : nat := 1.
Definition GUC_CTB_MAX_DWORDS : nat := 255.

Definition GUC2PF_RELAY_FROM_VF_EVENT_MSG_MIN_LEN : nat := GUC_HXG_EVENT_MSG_MIN_LEN + 2.
Definition GUC_ACTION_PF2GUC_RELAY_TO_VF : Z := 0x5101.
Definition PF2GUC_RELAY_TO_VF_REQUEST_MSG_MIN_LEN : nat := GUC_HXG_REQUEST_MSG_MIN_LEN + 2.
Definition VF2PF_MSG_MAX_LEN : nat := GUC_CTB_MAX_DWORDS - PF2GUC_RELAY_TO_VF_REQUEST_MSG_MIN_LEN.
Definition GUC2PF_RELAY_FROM_VF_EVENT_MSG_MAX_LEN : nat :=
  GUC2PF_RELAY_FROM_VF_EVENT_MSG_MIN_LEN + VF2PF_MSG_MAX_LEN.
Definition PF2GUC_RELAY_TO_VF_REQUEST_MSG_MAX_LEN : nat :=
  PF2GUC_RELAY_TO_VF_REQUEST_MSG_MIN_LEN + VF2PF_MSG_MAX_LEN.
Definition GUC_ACTION_VF2GUC_RELAY_TO_PF : Z := 0x5103.
Definition VF2GUC_RELAY_TO_PF_REQUEST_MSG_MIN_LEN : nat := GUC_HXG_REQUEST_MSG_MIN_LEN + 1.
Definition VF2GUC_RELAY_TO_PF_REQUEST_MSG_MAX_LEN : nat :=
  VF2GUC_RELAY_TO_PF_REQUEST_MSG_MIN_LEN + VF2PF_MSG_MAX_LEN.
Definition GUC2VF_RELAY_FROM_PF_EVENT_MSG_MIN_LEN : nat := GUC_HXG_EVENT_MSG_MIN_LEN + 1.
Definition GUC2VF_RELAY_FROM_PF_EVENT_MSG_MAX_LEN : nat :=
  GUC2VF_RELAY_FROM_PF_EVENT_MSG_MIN_LEN + VF2PF_MSG_MAX_LEN.

Definition IOV_ERROR_UNDISCLOSED : Z := 0.

#[export] Instance HXG_PAYLOAD_field : is_field GUC_HXG_MSG_n_PAYLOAD 32 0.
Proof. solve_field. Qed.

(** ** State *)

Inductive i915_iov_mode :=
  I915_IOV_MODE_NONE | I915_IOV_MODE_GVT_VGPU | I915_IOV_MODE_SRIOV_PF | I915_IOV_MODE_SRIOV_VF.
#[export] Instance iov_mode_eq_dec : EqDecision i915_iov_mode.
Proof. solve_decision. Defined.

(** The command transport below the relay and the registers, as the code here uses them. *)
Class RelayEnv := {
  iov_mode : i915_iov_mode;               (** [IOV_MODE(i915)] *)
  ct_send_nb : nat -> list Z -> Z;        (** result of the n-th attempt to send a message *)
  ct_clears : nat -> nat;                 (** attempts after the n-th until there is room *)
  mmio_read : nat -> Z -> Z;              (** the n-th read of a register, by offset *)
}.

(** The ring buffer of the transport is full, [-EBUSY], only until GuC has read from it. *)
Class RelayEnvLaws (R : RelayEnv) : Prop := {
  ct_clears_ok n msg : ct_send_nb (n + ct_clears n) msg <> - EBUSY;
}.

(** A transport with room for every message. *)
Class TransportWorks (R : RelayEnv) : Prop := { works_ct n msg : ct_send_nb n msg = 0 }.

(** [struct pending_relay], which lives on the stack of [relay_send_and_wait]; [p_pc] is where
    that thread stands and [p_msg] its argument. *)
Inductive wait_pc :=
| PcSend                    (** at the label [retry] *)
| PcWait                    (** in [wait_for_completion_timeout] *)
| PcWoken                   (** completed, before [pending.reply != 0] is evaluated *)
| PcReinit                  (** before [reinit_completion] *)
| PcReread                  (** before [ret = pending.reply] *)
| PcSize                    (** before [ret = pending.response_size] *)
| PcUnlink (ret : Z).       (** at the label [unlink] *)

Record pending_relay := {
  p_done : bool;
  p_target : Z;
  p_fence : Z;
  p_reply : Z;
  p_response : list Z;
  p_response_size : nat;
  p_msg : list Z;
  p_pc : wait_pc;
}.

Record intel_iov_relay := { pending_relays : list pending_relay; last_fence : Z }.

Record intel_iov_runtime_regs := { rt_size : nat; rt_regs : list Z; rt_values : list Z }.

(** One [struct intel_iov] and the device it belongs to. [s_nb] are the messages handed to the
    transport with their results, [s_returned] the calls of [relay_send_and_wait] that are over
    with their results. *)
Record iov_state `{Env} := {
  s_dev : dev;
  s_relay : intel_iov_relay;
  s_runtime : intel_iov_runtime_regs;
  s_nb : list (list Z * Z);
  s_reads : nat;
  s_returned : list (pending_relay * Z);
}.

Section relay.
Context `{E : Env} `{R : RelayEnv}.

Definition with_dev (d : dev) (s : iov_state) : iov_state :=
  {| s_dev := d; s_relay := s_relay s; s_runtime := s_runtime s; s_nb := s_nb s;
     s_reads := s_reads s; s_returned := s_returned s |}.
Definition with_relay (r : intel_iov_relay) (s : iov_state) : iov_state :=
  {| s_dev := s_dev s; s_relay := r; s_runtime := s_runtime s; s_nb := s_nb s;
     s_reads := s_reads s; s_returned := s_returned s |}.
Definition with_runtime (r : intel_iov_runtime_regs) (s : iov_state) : iov_state :=
  {| s_dev := s_dev s; s_relay := s_relay s; s_runtime := r; s_nb := s_nb s;
     s_reads := s_reads s; s_returned := s_returned s |}.
Definition with_nb (l : list (list Z * Z)) (s : iov_state) : iov_state :=
  {| s_dev := s_dev s; s_relay := s_relay s; s_runtime := s_runtime s; s_nb := l;
     s_reads := s_reads s; s_returned := s_returned s |}.
Definition with_reads (n : nat) (s : iov_state) : iov_state :=
  {| s_dev := s_dev s; s_relay := s_relay s; s_runtime := s_runtime s; s_nb := s_nb s;
     s_reads := n; s_returned := s_returned s |}.
Definition with_returned (l : list (pending_relay * Z)) (s : iov_state) : iov_state :=
  {| s_dev := s_dev s; s_relay := s_relay s; s_runtime := s_runtime s; s_nb := s_nb s;
     s_reads := s_reads s; s_returned := l |}.

(** An operation on the device. *)
Definition on_dev {A} (m : st dev A) : st iov_state A := fun s =>
  let '(a, d) := m (s_dev s) in (a, with_dev d s).

Definition relay_get_next_fence : st iov_state Z := fun s =>
  let fence := u32 (last_fence (s_relay s) + 1) in
  let fence := if fence =? 0 then 1 else fence in
  (fence, with_relay {| pending_relays := pending_relays (s_relay s); last_fence := fence |} s).

(** ** Sending *)

(** [intel_guc_send_nb] *)
Definition intel_guc_send_nb (msg : list Z) : st iov_state Z := fun s =>
  let ret := ct_send_nb (length (s_nb s)) msg in (ret, with_nb (s_nb s ++ [(msg, ret)]) s).

(** The loop at [retry] of the two functions below. *)
Fixpoint send_retry (fuel : nat) (request : list Z) : st iov_state Z :=
  err ← intel_guc_send_nb request;
  if err =? - EBUSY
  then match fuel with O => mret err | S fuel => send_retry fuel request end
  else mret err.
(** It ends when the transport has room, which takes at most [ct_clears] further attempts. *)
Definition send_until_room (request : list Z) : st iov_state Z :=
  n ← gets (fun s => length (s_nb s)); send_retry (ct_clears n) request.

Definition pf_relay_request (target relay_id : Z) (msg : list Z) : list Z :=
  [Z.lor (Z.lor (FIELD_PREP GUC_HXG_MSG_0_ORIGIN GUC_HXG_ORIGIN_HOST)
                (FIELD_PREP GUC_HXG_MSG_0_TYPE GUC_HXG_TYPE_REQUEST))
         (FIELD_PREP GUC_HXG_REQUEST_MSG_0_ACTION GUC_ACTION_PF2GUC_RELAY_TO_VF);
   FIELD_PREP GUC_HXG_MSG_n_PAYLOAD target;
   FIELD_PREP GUC_HXG_MSG_n_PAYLOAD relay_id] ++ msg.
Definition pf_relay_send (target relay_id : Z) (msg : list Z) : st iov_state Z :=
  send_until_room (pf_relay_request target relay_id msg).

Definition vf_relay_request (relay_id : Z) (msg : list Z) : list Z :=
  [Z.lor (Z.lor (FIELD_PREP GUC_HXG_MSG_0_ORIGIN GUC_HXG_ORIGIN_HOST)
                (FIELD_PREP GUC_HXG_MSG_0_TYPE GUC_HXG_TYPE_REQUEST))
         (FIELD_PREP GUC_HXG_REQUEST_MSG_0_ACTION GUC_ACTION_VF2GUC_RELAY_TO_PF);
   FIELD_PREP GUC_HXG_MSG_n_PAYLOAD relay_id] ++ msg.
Definition vf_relay_send (relay_id : Z) (msg : list Z) : st iov_state Z :=
  send_until_room (vf_relay_request relay_id msg).

Definition relay_send (target relay_id : Z) (msg : list Z) : st iov_state Z :=
  if negb (target =? 0) then pf_relay_send target relay_id msg else vf_relay_send relay_id msg.

(** ** Replies of the PF *)

Definition intel_iov_relay_reply_to_vf (target relay_id : Z) (msg : list Z) : st iov_state Z :=
  relay_send target relay_id msg.

(** The header of a reply of type [ty] whose lower 28 bits are [aux]. *)
Definition reply_header (ty aux : Z) : Z :=
  Z.lor (Z.lor (FIELD_PREP GUC_HXG_MSG_0_ORIGIN GUC_HXG_ORIGIN_HOST)
               (FIELD_PREP GUC_HXG_MSG_0_TYPE ty)) aux.

Definition relay_send_success (target relay_id data : Z) : st iov_state Z :=
  relay_send target relay_id
    [reply_header GUC_HXG_TYPE_RESPONSE_SUCCESS (FIELD_PREP GUC_HXG_RESPONSE_MSG_0_DATA0 data)].
Definition intel_iov_relay_reply_ack_to_vf (target relay_id data : Z) : st iov_state Z :=
  relay_send_success target relay_id data.

Definition from_err_to_iov_error (err : Z) : Z := u32 (- err).
Definition sanitize_iov_error (error : Z) : Z := IOV_ERROR_UNDISCLOSED.
Definition sanitize_iov_error_hint (hint : Z) : Z := 0.

Definition failure_msg (error hint : Z) : list Z :=
  [reply_header GUC_HXG_TYPE_RESPONSE_FAILURE
     (Z.lor (FIELD_PREP GUC_HXG_FAILURE_MSG_0_HINT hint) (FIELD_PREP GUC_HXG_FAILURE_MSG_0_ERROR error))].
Definition relay_send_failure (target relay_id error hint : Z) : st iov_state Z :=
  relay_send target relay_id (failure_msg error hint).
Definition intel_iov_relay_reply_err_to_vf (target relay_id err : Z) : st iov_state Z :=
  relay_send_failure target relay_id (sanitize_iov_error (from_err_to_iov_error err)) 0.
Definition intel_iov_relay_reply_error_to_vf (target relay_id error hint : Z) : st iov_state Z :=
  relay_send_failure target relay_id (sanitize_iov_error error) (sanitize_iov_error_hint hint).
End relay.

(** ** Lemmas *)

Section sending.
Context `{E : Env} `{R : RelayEnv} `{!RelayEnvLaws R}.

(** The fence after [last], with the skip of zero. *)
Lemma next_fence_mod last :
  0 <= last < 2 ^ 32 ->
  (if u32 (last + 1) =? 0 then 1 else u32 (last + 1)) = last mod (2 ^ 32 - 1) + 1.
Proof.
  intros Hl. unfold u32. change (2 ^ 32) with 4294967296 in *.
  destruct (decide (last = 4294967295)) as [->|Hne]; [done|].
  rewrite !Z.mod_small by lia. destruct (Z.eqb_spec (last + 1) 0); lia.
Qed.

(** [n] requests in a row. *)
Fixpoint take_fences (n : nat) : st iov_state (list Z) :=
  match n with
  | O => mret []
  | S n => fence ← relay_get_next_fence; rest ← take_fences n; mret (fence :: rest)
  end.

Lemma take_fences_closed n : forall s,
  0 <= last_fence (s_relay s) < 2 ^ 32 ->
  fst (take_fences n s) =
    (fun k => (last_fence (s_relay s) + Z.of_nat k) mod (2 ^ 32 - 1) + 1) <$> seq 0 n.
Proof.
  induction n as [|n IH]; intros s Hl; [done|]. cbn [take_fences].
  unfold mbind at 1, st_bind. cbn [relay_get_next_fence].
  unfold relay_get_next_fence. cbn zeta. rewrite next_fence_mod by done.
  set (s' := with_relay _ s). unfold mbind, st_bind.
  assert (last_fence (s_relay s') = last_fence (s_relay s) mod (2 ^ 32 - 1) + 1) as Hs' by done.
  clearbody s'.
  change (2 ^ 32) with 4294967296 in *.
  specialize (IH s'). destruct (take_fences n s') as [rest s'']. simpl in IH |- *.
  assert (0 <= last_fence (s_relay s) mod (4294967296 - 1) + 1 < 4294967296) as Hb by dlia.
  rewrite Hs' in IH. rewrite IH by done. f_equal; [f_equal; f_equal; lia|].
  rewrite <- (fmap_S_seq 0 n), <- list_fmap_compose. apply list_fmap_ext. intros _ k _.
  unfold compose. rewrite <- (Zplus_mod_idemp_l (last_fence (s_relay s))).
  assert (forall a b : Z, a = b -> a mod (4294967296 - 1) + 1 = b mod (4294967296 - 1) + 1) as H
    by (by intros ?? ->). apply H. lia.
Qed.

(** C37: the identifiers of the requests ([relay_get_next_fence]) never are zero and do not
    repeat: any [2 ^ 32 - 1] requests in a row have pairwise different identifiers. *)
Theorem fences_distinct n s :
  0 <= last_fence (s_relay s) < 2 ^ 32 -> Z.of_nat n < 2 ^ 32 ->
  NoDup (fst (take_fences n s)) /\ Forall (fun f => 0 < f < 2 ^ 32) (fst (take_fences n s)).
Proof.
  intros Hl Hn. rewrite take_fences_closed by done. change (2 ^ 32) with 4294967296 in *. split.
  - apply NoDup_fmap_2_strong; [|apply NoDup_seq].
    intros a b Ha%elem_of_seq Hb%elem_of_seq Heq. dlia.
  - apply Forall_fmap, Forall_forall. intros k _. unfold compose. dlia.
Qed.

(** The attempts made to send [request]: refused [k] times, then [ret]. *)
Definition attempts (request : list Z) (k : nat) (ret : Z) : list (list Z * Z) :=
  replicate k (request, - EBUSY) ++ [(request, ret)].

(** How it ended: with a result that is not -EBUSY, at once if there is room for every message. *)
Definition settled (k : nat) (ret : Z) : Prop :=
  ret <> - EBUSY /\ (TransportWorks R -> k = 0%nat /\ ret = 0).

Lemma send_retry_run request fuel : forall s,
  ct_send_nb (length (s_nb s) + fuel) request <> - EBUSY ->
  exists k ret, settled k ret /\
    send_retry fuel request s = (ret, with_nb (s_nb s ++ attempts request k ret) s).
Proof.
  induction fuel as [|fuel IH]; intros s Hf; cbn [send_retry];
    unfold mbind, st_bind, intel_guc_send_nb; simpl;
    destruct (Z.eqb_spec (ct_send_nb (length (s_nb s)) request) (- EBUSY)) as [He|He].
  - by rewrite Nat.add_0_r in Hf.
  - exists 0%nat, (ct_send_nb (length (s_nb s)) request). split; [|done]. split; [done|].
    intros HT. by rewrite works_ct.
  - set (s1 := with_nb _ s). destruct (IH s1) as (k & ret & Hr & Hrun).
    { unfold s1. simpl. rewrite length_app. simpl. by replace (length (s_nb s) + 1 + fuel)%nat
        with (length (s_nb s) + S fuel)%nat by lia. }
    exists (S k), ret. split.
    { split; [apply Hr|]. intros HT. by rewrite works_ct in He. }
    rewrite Hrun. unfold s1, attempts, with_nb. simpl.
    rewrite He. by rewrite <- !app_assoc.
  - exists 0%nat, (ct_send_nb (length (s_nb s)) request). split; [|done]. split; [done|].
    intros HT. by rewrite works_ct.
Qed.

(** What [relay_send] hands to the transport. *)
Definition relay_request (target relay_id : Z) (msg : list Z) : list Z :=
  if target =? 0 then vf_relay_request relay_id msg else pf_relay_request target relay_id msg.

Lemma relay_send_run target relay_id msg s :
  exists k ret, settled k ret /\ relay_send target relay_id msg s =
    (ret, with_nb (s_nb s ++ attempts (relay_request target relay_id msg) k ret) s).
Proof using Type*.
  unfold relay_send, relay_request. destruct (Z.eqb_spec target 0); simpl;
    apply send_retry_run, ct_clears_ok.
Qed.

Lemma wp_relay_send target relay_id msg (Q : Z -> iov_state -> Prop) s :
  (forall k ret, settled k ret ->
     Q ret (with_nb (s_nb s ++ attempts (relay_request target relay_id msg) k ret) s)) ->
  wp (relay_send target relay_id msg) Q s.
Proof using Type*.
  intros HQ. destruct (relay_send_run target relay_id msg s) as (k & ret & Hne & Hrun).
  unfold wp. rewrite Hrun. simpl. by apply HQ.
Qed.
End sending.
