(* ===== verification/VfState.v ===== *)
(** * State control of the VFs: function level reset and pause

    gt/iov/intel_iov_state.c (all but the save and restore of a VF's state) and
    gt/iov/intel_iov_event.c. The handlers, the worker of each GT and the callers run
    concurrently on the bits of [struct intel_iov_data], so they are programs of Threads.v: one
    action per access to the shared state. *)

From S2P Require Export Threads Ggtt Relay.

(** ** ABI (gt/uc/abi/guc_actions_pf_abi.h) *)

Definition GUC_HXG_EVENT_MSG_n_DATAn : Z := 0xffffffff.
Definition GUC2PF_ADVERSE_EVENT_EVENT_MSG_LEN : nat := GUC_HXG_EVENT_MSG_MIN_LEN + 2.
Definition GUC2PF_ADVERSE_EVENT_EVENT_MSG_0_MBZ : Z := GUC_HXG_EVENT_MSG_0_DATA0.
Definition GUC2PF_ADVERSE_EVENT_EVENT_MSG_1_VFID : Z := GUC_HXG_EVENT_MSG_n_DATAn.
Definition GUC2PF_ADVERSE_EVENT_EVENT_MSG_2_THRESHOLD : Z := GUC_HXG_EVENT_MSG_n_DATAn.
Definition GUC2PF_VF_STATE_NOTIFY_EVENT_MSG_LEN : nat := GUC_HXG_EVENT_MSG_MIN_LEN + 2.
Definition GUC2PF_VF_STATE_NOTIFY_EVENT_MSG_0_MBZ : Z := GUC_HXG_EVENT_MSG_0_DATA0.
Definition GUC2PF_VF_STATE_NOTIFY_EVENT_MSG_1_VFID : Z := GUC_HXG_EVENT_MSG_n_DATAn.
Definition GUC2PF_VF_STATE_NOTIFY_EVENT_MSG_2_EVENT : Z := GUC_HXG_EVENT_MSG_n_DATAn.
Definition GUC_PF_NOTIFY_VF_ENABLE : Z := 1.
Definition GUC_PF_NOTIFY_VF_FLR : Z := 1.
Definition GUC_PF_NOTIFY_VF_FLR_DONE : Z := 2.
Definition GUC_PF_NOTIFY_VF_PAUSE_DONE : Z := 3.
Definition GUC_ACTION_PF2GUC_VF_CONTROL : Z := 0x5506.
Definition PF2GUC_VF_CONTROL_REQUEST_MSG_1_VFID : Z := GUC_HXG_EVENT_MSG_n_DATAn.
Definition PF2GUC_VF_CONTROL_REQUEST_MSG_2_COMMAND : Z := GUC_HXG_EVENT_MSG_n_DATAn.
Definition GUC_PF_TRIGGER_VF_PAUSE : Z := 1.
Definition GUC_PF_TRIGGER_VF_RESUME : Z := 2.
Definition GUC_PF_TRIGGER_VF_STOP : Z := 3.
Definition GUC_PF_TRIGGER_VF_FLR_START : Z := 4.
Definition GUC_PF_TRIGGER_VF_FLR_FINISH : Z := 5.

(** ** State *)

(** The bits of [state] (gt/iov/intel_iov_types.h) *)
Definition IOV_VF_FLR_IN_PROGRESS : Z := 0.
Definition IOV_VF_NEEDS_FLR_START : Z := 1.
Definition IOV_VF_FLR_DONE_RECEIVED : Z := 2.
Definition IOV_VF_NEEDS_FLR_FINISH : Z := 3.
Definition IOV_VF_NEEDS_FLR_DONE_SYNC : Z := 4.
Definition IOV_VF_PAUSE_IN_PROGRESS : Z := 5.
Definition IOV_VF_PAUSE_BY_SUSPEND : Z := 6.
Definition IOV_VF_FLR_FAILED : Z := 63.

Record intel_iov_data := { state : Z; paused : bool; adverse_events : list Z }.
Definition data0 : intel_iov_data := {| state := 0; paused := false; adverse_events := replicate 6 0 |}.

(** What PF and GuC say to each other about VF [v] on the GT [g]: PF learns that a reset is
    due, GuC notifies, PF commands and GuC replies. *)
Inductive vf_event :=
| Asked (g : gt_id) (v : nat)
| Notified (g : gt_id) (v : nat) (event : Z)
| Commanded (g : gt_id) (v : nat) (cmd ret : Z).

(** [v_data] is empty for the null pointer; [v_worker] is whether the worker of a GT is queued;
    [v_trace], which no operation reads, is the history of the events, oldest first. *)
Record vf_state `{Env} := {
  v_dev : dev;
  v_data : gt_id -> list intel_iov_data;
  v_worker : gt_id -> bool;
  v_trace : list vf_event;
}.

Section state.
Context `{E : Env} `{R : RelayEnv}.

Definition set_v_dev (d : dev) (s : vf_state) : vf_state :=
  {| v_dev := d; v_data := v_data s; v_worker := v_worker s; v_trace := v_trace s |}.
Definition set_v_data (g : gt_id) (l : list intel_iov_data) (s : vf_state) : vf_state :=
  {| v_dev := v_dev s; v_data := fun g' => if decide (g' = g) then l else v_data s g';
     v_worker := v_worker s; v_trace := v_trace s |}.
Definition set_v_worker (g : gt_id) (b : bool) (s : vf_state) : vf_state :=
  {| v_dev := v_dev s; v_data := v_data s;
     v_worker := fun g' => if decide (g' = g) then b else v_worker s g'; v_trace := v_trace s |}.
Definition add_event (e : vf_event) (s : vf_state) : vf_state :=
  {| v_dev := v_dev s; v_data := v_data s; v_worker := v_worker s; v_trace := v_trace s ++ [e] |}.

Definition vf_data (s : vf_state) (g : gt_id) (v : nat) : intel_iov_data := (v_data s g).[v | data0].
Definition vf_bits (s : vf_state) (g : gt_id) (v : nat) : Z := state (vf_data s g v).
Definition vf_bit (s : vf_state) (g : gt_id) (v : nat) (b : Z) : bool := Z.testbit (vf_bits s g v) b.

Definition upd_data (g : gt_id) (v : nat) (f : intel_iov_data -> intel_iov_data) (s : vf_state) : vf_state :=
  set_v_data g (alter f v (v_data s g)) s.
Definition with_state (x : Z) (d : intel_iov_data) : intel_iov_data :=
  {| state := x; paused := paused d; adverse_events := adverse_events d |}.
Definition with_paused (b : bool) (d : intel_iov_data) : intel_iov_data :=
  {| state := state d; paused := b; adverse_events := adverse_events d |}.
Definition with_events (l : list Z) (d : intel_iov_data) : intel_iov_data :=
  {| state := state d; paused := paused d; adverse_events := l |}.

(** *** Atomic accesses *)

#[local] Abbreviation vf A := (prog vf_state A).

Definition put_bit (g : gt_id) (v : nat) (b : Z) (x : bool) : vf_state -> vf_state :=
  upd_data g v (fun d => with_state (if x then Z.setbit (state d) b else Z.clearbit (state d) b) d).

Definition test_bit (b : Z) (g : gt_id) (v : nat) : vf bool := atom (gets (fun s => vf_bit s g v b)).
Definition set_bit (b : Z) (g : gt_id) (v : nat) : vf unit := atom (modify (put_bit g v b true)).
Definition clear_bit (b : Z) (g : gt_id) (v : nat) : vf unit := atom (modify (put_bit g v b false)).
Definition test_and_clear_bit (b : Z) (g : gt_id) (v : nat) : vf bool :=
  atom (fun s => (vf_bit s g v b, put_bit g v b false s)).
Definition test_and_set_bit (b : Z) (g : gt_id) (v : nat) : vf bool :=
  atom (fun s => (vf_bit s g v b, put_bit g v b true s)).
Definition get_paused (g : gt_id) (v : nat) : vf bool := atom (gets (fun s => paused (vf_data s g v))).
Definition put_paused (g : gt_id) (v : nat) (x : bool) : vf unit :=
  atom (modify (upd_data g v (with_paused x))).

(** An operation on the device, under the mutex that protects what it uses. *)
Definition on_v_dev {A} (m : st dev A) : st vf_state A := fun s =>
  let '(a, d) := m (v_dev s) in (a, set_v_dev d s).

(** [for_each_gt] and [iov_is_root] *)
Definition all_gts : list gt_id := if has_media_gt then [GT_PRIMARY; GT_MEDIA] else [GT_PRIMARY].
Definition iov_is_root (g : gt_id) : bool := bool_decide (g = GT_PRIMARY).

Definition pf_queue_worker (g : gt_id) : vf unit := atom (modify (set_v_worker g true)).

(** ** Adverse events (gt/iov/intel_iov_event.c) *)

Definition put_event (g : gt_id) (v : nat) (e : intel_iov_threshold) (x : Z) : vf_state -> vf_state :=
  upd_data g v (fun d => with_events (<[threshold_index e := x]> (adverse_events d)) d).

Definition intel_iov_event_reset (g : gt_id) (v : nat) : vf unit :=
  absent ← atom (gets (fun s => bool_decide (v_data s g = [])));
  if absent : bool then mret tt else
  each IOV_THRESHOLDS (fun e => atom (modify (put_event g v e 0))).

(** [None] for the result -1. *)
Definition threshold_key_to_enum (threshold : Z) : option intel_iov_threshold :=
  if threshold =? GUC_KLV_VF_CFG_THRESHOLD_CAT_ERR_KEY then Some IOV_THRESHOLD_CAT_ERR
  else if threshold =? GUC_KLV_VF_CFG_THRESHOLD_ENGINE_RESET_KEY then Some IOV_THRESHOLD_ENGINE_RESET
  else if threshold =? GUC_KLV_VF_CFG_THRESHOLD_PAGE_FAULT_KEY then Some IOV_THRESHOLD_PAGE_FAULT
  else if threshold =? GUC_KLV_VF_CFG_THRESHOLD_H2G_STORM_KEY then Some IOV_THRESHOLD_H2G_STORM
  else if threshold =? GUC_KLV_VF_CFG_THRESHOLD_IRQ_STORM_KEY then Some IOV_THRESHOLD_IRQ_STORM
  else if threshold =? GUC_KLV_VF_CFG_THRESHOLD_DOORBELL_STORM_KEY then Some IOV_THRESHOLD_DOORBELL_STORM
  else None.

(** A read and a write of an [unsigned int]. *)
Definition pf_update_event_counter (g : gt_id) (v : nat) (e : intel_iov_threshold) : vf unit :=
  n ← atom (gets (fun s => (adverse_events (vf_data s g v)).[threshold_index e | 0]));
  atom (modify (put_event g v e (u32 (n + 1)))).

Definition pf_handle_vf_threshold_event (g : gt_id) (vfid : nat) (threshold : Z) : vf Z :=
  let e := threshold_key_to_enum threshold in
  totalvfs ← atom (gets (fun s => d_totalvfs (v_dev s)));
  if ((vfid =? 0) || (totalvfs <? vfid))%nat then mret (- EINVAL) else
  match e with
  | None => mret (- EINVAL)
  | Some e => pf_update_event_counter g vfid e ≫= fun _ => mret 0
  end.

(** ** Commands to GuC *)

Definition vf_control_msg (vfid : nat) (cmd : Z) : list Z :=
  [Z.lor (Z.lor (FIELD_PREP GUC_HXG_MSG_0_ORIGIN GUC_HXG_ORIGIN_HOST)
                (FIELD_PREP GUC_HXG_MSG_0_TYPE GUC_HXG_TYPE_REQUEST))
         (FIELD_PREP GUC_HXG_REQUEST_MSG_0_ACTION GUC_ACTION_PF2GUC_VF_CONTROL);
   FIELD_PREP PF2GUC_VF_CONTROL_REQUEST_MSG_1_VFID (Z.of_nat vfid);
   FIELD_PREP PF2GUC_VF_CONTROL_REQUEST_MSG_2_COMMAND cmd].

Definition guc_action_vf_control_cmd (g : gt_id) (vfid : nat) (cmd : Z) : st vf_state Z :=
  ret ← on_v_dev (intel_guc_send {| req_gt := g; req_msg := vf_control_msg vfid cmd; req_blob := [] |});
  modify (add_event (Commanded g vfid cmd ret)) ≫= fun _ =>
  mret (if ret >? 0 then - EPROTO else ret).

Definition pf_control_vf (g : gt_id) (vfid : nat) (cmd : Z) : vf Z := atom (guc_action_vf_control_cmd g vfid cmd).
Definition pf_trigger_vf_flr_start (g : gt_id) (vfid : nat) : vf Z := pf_control_vf g vfid GUC_PF_TRIGGER_VF_FLR_START.
Definition pf_trigger_vf_flr_finish (g : gt_id) (vfid : nat) : vf Z := pf_control_vf g vfid GUC_PF_TRIGGER_VF_FLR_FINISH.

(** ** The worker *)

(** Under the provisioning mutex. *)
Definition pf_clear_vf_ggtt_entries (g : gt_id) (vfid : nat) : st dev unit :=
  config ← get_cfg g vfid;
  if negb (allocated (ggtt_region config)) then mret tt else
  i915_ggtt_set_space_owner vfid (ggtt_region config).

(** The status register of the VF's PCI device that [wa_14017568299] writes is not modelled. *)
Definition pf_process_vf_flr_finish (g : gt_id) (vfid : nat) : vf Z :=
  intel_iov_event_reset g vfid ≫= fun _ =>
  atom (on_v_dev (pf_clear_vf_ggtt_entries g vfid)) ≫= fun _ =>
  pf_trigger_vf_flr_finish g vfid.

Definition pf_vf_flr_done_received (g : gt_id) (vfid : nat) : vf bool := test_bit IOV_VF_FLR_DONE_RECEIVED g vfid.
Definition pf_vf_flr_needs_sync (g : gt_id) (vfid : nat) : vf bool := test_bit IOV_VF_NEEDS_FLR_DONE_SYNC g vfid.
Definition pf_vf_flr_in_progress (g : gt_id) (vfid : nat) : vf bool := test_bit IOV_VF_FLR_IN_PROGRESS g vfid.

(** The end of the two commands of the worker: whether more processing is needed. *)
Definition flr_failed (g : gt_id) (vfid : nat) : vf bool :=
  set_bit IOV_VF_FLR_FAILED g vfid ≫= fun _ =>
  clear_bit IOV_VF_FLR_IN_PROGRESS g vfid ≫= fun _ => mret false.

Definition process_flr_start (g : gt_id) (vfid : nat) : vf bool :=
  err ← pf_trigger_vf_flr_start g vfid;
  if err =? - EBUSY then set_bit IOV_VF_NEEDS_FLR_START g vfid ≫= fun _ => mret true
  else if negb (err =? 0) then flr_failed g vfid
  else clear_bit IOV_VF_PAUSE_IN_PROGRESS g vfid ≫= fun _ => mret true.

Definition process_flr_finish (g : gt_id) (vfid : nat) : vf bool :=
  err ← pf_process_vf_flr_finish g vfid;
  if err =? - EBUSY then set_bit IOV_VF_NEEDS_FLR_FINISH g vfid ≫= fun _ => mret true
  else if negb (err =? 0) then flr_failed g vfid
  else mret true.

(** From the last three [if]s of [pf_process_vf] on. *)
Definition process_flr_tail (g : gt_id) (vfid : nat) : vf bool :=
  done ← test_and_clear_bit IOV_VF_FLR_DONE_RECEIVED g vfid;
  if done : bool then set_bit IOV_VF_NEEDS_FLR_FINISH g vfid ≫= fun _ => mret true else
  finish ← test_and_clear_bit IOV_VF_NEEDS_FLR_FINISH g vfid;
  if finish : bool then process_flr_finish g vfid else
  progress ← test_bit IOV_VF_FLR_IN_PROGRESS g vfid;
  if negb progress then mret false else
  others ← (if iov_is_root g
            then any all_gts (fun g' => if iov_is_root g' then mret false else pf_vf_flr_in_progress g' vfid)
            else mret false);
  if others : bool then mret true else
  clear_bit IOV_VF_FLR_IN_PROGRESS g vfid ≫= fun _ => mret false.

Definition pf_process_vf (g : gt_id) (vfid : nat) : vf bool :=
  start ← test_and_clear_bit IOV_VF_NEEDS_FLR_START g vfid;
  if start : bool then process_flr_start g vfid else
  sync ← test_bit IOV_VF_NEEDS_FLR_DONE_SYNC g vfid;
  if sync : bool then
    missing ← any all_gts (fun g' => received ← pf_vf_flr_done_received g' vfid; mret (negb received));
    if missing : bool then mret true else
    clear_bit IOV_VF_NEEDS_FLR_DONE_SYNC g vfid ≫= fun _ => mret true
  else
  done ← test_bit IOV_VF_FLR_DONE_RECEIVED g vfid;
  blocked ← (if done : bool then any all_gts (fun g' => pf_vf_flr_needs_sync g' vfid) else mret false);
  if blocked : bool then mret true else process_flr_tail g vfid.

(** The loop of [pf_process_all_vfs] over the VFs [ns]. *)
Fixpoint process_vfs (g : gt_id) (ns : list nat) (more : bool) : vf bool :=
  match ns with
  | [] => mret more
  | n :: ns => m ← pf_process_vf g n; process_vfs g ns (more || m)
  end.

Definition pf_process_all_vfs (g : gt_id) : vf unit :=
  num_vfs ← atom (gets (fun s => d_totalvfs (v_dev s)));
  more ← process_vfs g (seq 1 num_vfs) false;
  if more : bool then pf_queue_worker g else mret tt.
Definition pf_state_worker_func (g : gt_id) : vf unit := pf_process_all_vfs g.

(** ** Notifications *)

Definition pf_init_vf_flr (g : gt_id) (vfid : nat) : vf unit :=
  set_bit IOV_VF_FLR_IN_PROGRESS g vfid ≫= fun _ =>
  (if has_media_gt then set_bit IOV_VF_NEEDS_FLR_DONE_SYNC g vfid else mret tt) ≫= fun _ =>
  atom (modify (fun s => add_event (Asked g vfid) (put_bit g vfid IOV_VF_NEEDS_FLR_START true s))) ≫= fun _ =>
  pf_queue_worker g.

Definition pf_handle_vf_flr (g : gt_id) (vfid : nat) : vf unit :=
  if negb (iov_is_root g) then mret tt else
  progress ← test_bit IOV_VF_FLR_IN_PROGRESS g vfid;
  if progress : bool then mret tt else
  put_paused g vfid false ≫= fun _ =>
  each all_gts (fun g' => pf_init_vf_flr g' vfid).

Definition pf_handle_vf_flr_done (g : gt_id) (vfid : nat) : vf unit :=
  atom (modify (fun s => add_event (Notified g vfid GUC_PF_NOTIFY_VF_FLR_DONE)
                           (put_bit g vfid IOV_VF_FLR_DONE_RECEIVED true s))) ≫= fun _ =>
  pf_queue_worker g.

Definition pf_handle_vf_pause_done (g : gt_id) (vfid : nat) : vf unit :=
  atom (modify (fun s => add_event (Notified g vfid GUC_PF_NOTIFY_VF_PAUSE_DONE)
                           (upd_data g vfid (with_paused true) s))) ≫= fun _ =>
  clear_bit IOV_VF_PAUSE_IN_PROGRESS g vfid.

Definition pf_handle_vf_event (g : gt_id) (vfid : nat) (eventid : Z) : vf Z :=
  if eventid =? GUC_PF_NOTIFY_VF_FLR then pf_handle_vf_flr g vfid ≫= fun _ => mret 0
  else if eventid =? GUC_PF_NOTIFY_VF_FLR_DONE then pf_handle_vf_flr_done g vfid ≫= fun _ => mret 0
  else if eventid =? GUC_PF_NOTIFY_VF_PAUSE_DONE then pf_handle_vf_pause_done g vfid ≫= fun _ => mret 0
  else mret (- ENOPKG).

Definition pf_handle_pf_event (eventid : Z) : vf Z :=
  if eventid =? GUC_PF_NOTIFY_VF_ENABLE then mret 0 else mret (- ENOPKG).

Definition intel_iov_state_process_guc2pf (g : gt_id) (msg : list Z) : vf Z :=
  if negb (bool_decide (iov_mode = I915_IOV_MODE_SRIOV_PF)) then mret (- EPROTO) else
  if negb (FIELD_GET GUC2PF_VF_STATE_NOTIFY_EVENT_MSG_0_MBZ (msg.[0%nat | 0]) =? 0) then mret (- EPFNOSUPPORT) else
  if negb (length msg =? GUC2PF_VF_STATE_NOTIFY_EVENT_MSG_LEN)%nat then mret (- EPROTO) else
  let vfid := Z.to_nat (FIELD_GET GUC2PF_VF_STATE_NOTIFY_EVENT_MSG_1_VFID (msg.[1%nat | 0])) in
  let eventid := FIELD_GET GUC2PF_VF_STATE_NOTIFY_EVENT_MSG_2_EVENT (msg.[2%nat | 0]) in
  totalvfs ← atom (gets (fun s => d_totalvfs (v_dev s)));
  if (totalvfs <? vfid)%nat then mret (- EINVAL) else
  if negb (vfid =? 0)%nat then pf_handle_vf_event g vfid eventid else pf_handle_pf_event eventid.

Definition intel_iov_event_process_guc2pf (g : gt_id) (msg : list Z) : vf Z :=
  if negb (bool_decide (iov_mode = I915_IOV_MODE_SRIOV_PF)) then mret (- EPROTO) else
  if negb (FIELD_GET GUC2PF_ADVERSE_EVENT_EVENT_MSG_0_MBZ (msg.[0%nat | 0]) =? 0) then mret (- EPFNOSUPPORT) else
  if negb (length msg =? GUC2PF_ADVERSE_EVENT_EVENT_MSG_LEN)%nat then mret (- EPROTO) else
  let vfid := Z.to_nat (FIELD_GET GUC2PF_ADVERSE_EVENT_EVENT_MSG_1_VFID (msg.[1%nat | 0])) in
  let threshold := FIELD_GET GUC2PF_ADVERSE_EVENT_EVENT_MSG_2_THRESHOLD (msg.[2%nat | 0]) in
  pf_handle_vf_threshold_event g vfid threshold.

(** ** Callers *)

Definition intel_iov_state_start_flr (g : gt_id) (vfid : nat) : vf unit := pf_init_vf_flr g vfid.

Definition intel_iov_state_no_flr (g : gt_id) (vfid : nat) : vf bool :=
  progress ← test_bit IOV_VF_FLR_IN_PROGRESS g vfid; mret (negb progress).

Definition intel_iov_state_no_pause (g : gt_id) (vfid : nat) : vf bool :=
  pausing ← test_bit IOV_VF_PAUSE_IN_PROGRESS g vfid;
  if pausing : bool then mret false else
  p ← get_paused g vfid; mret (negb p).

Definition intel_iov_state_pause_vf (g : gt_id) (vfid : nat) : vf Z :=
  no_flr ← intel_iov_state_no_flr g vfid;
  no_pause ← (if no_flr : bool then intel_iov_state_no_pause g vfid else mret false);
  if negb no_pause then mret (- EBUSY) else
  pausing ← test_and_set_bit IOV_VF_PAUSE_IN_PROGRESS g vfid;
  if pausing : bool then mret (- EBUSY) else
  err ← pf_control_vf g vfid GUC_PF_TRIGGER_VF_PAUSE;
  if err <? 0 then clear_bit IOV_VF_PAUSE_IN_PROGRESS g vfid ≫= fun _ => mret err else mret 0.

(** [wait_for (data->paused)]; the timeout runs out after [polls] more looks. *)
Fixpoint wait_for_paused (polls : nat) (g : gt_id) (vfid : nat) : vf bool :=
  p ← get_paused g vfid;
  if p : bool then mret true else
  match polls with O => mret false | S polls => wait_for_paused polls g vfid end.

Definition intel_iov_state_pause_vf_sync (polls : nat) (g : gt_id) (vfid : nat) (inferred : bool) : vf Z :=
  no_pause ← intel_iov_state_no_pause g vfid;
  ret ← (if no_pause : bool then
           ret ← intel_iov_state_pause_vf g vfid;
           if negb (ret =? 0) then mret ret else
           (if inferred then set_bit IOV_VF_PAUSE_BY_SUSPEND g vfid else mret tt) ≫= fun _ => mret 0
         else mret 0);
  if negb (ret =? 0) then mret ret else
  (if negb inferred then clear_bit IOV_VF_PAUSE_BY_SUSPEND g vfid else mret tt) ≫= fun _ =>
  p ← wait_for_paused polls g vfid;
  mret (if p : bool then 0 else - ETIMEDOUT).

Definition intel_iov_state_resume_vf (g : gt_id) (vfid : nat) : vf Z :=
  err ← pf_control_vf g vfid GUC_PF_TRIGGER_VF_RESUME;
  if err <? 0 then mret err else put_paused g vfid false ≫= fun _ => mret 0.

Definition intel_iov_state_stop_vf (g : gt_id) (vfid : nat) : vf Z := pf_control_vf g vfid GUC_PF_TRIGGER_VF_STOP.

(** ** Set up *)

(** The result is whether the data could be allocated; the caller records the failure in the
    status of the PF. *)
Definition intel_iov_state_init_early (g : gt_id) : st vf_state unit :=
  n ← gets (fun s => d_totalvfs (v_dev s));
  ok ← on_v_dev kvzalloc;
  if negb ok then on_v_dev (pf_update_status (- ENOMEM))
  else modify (set_v_data g (replicate (1 + n) data0)).

Definition intel_iov_state_release (g : gt_id) : st vf_state unit :=
  modify (fun s => set_v_data g [] (set_v_worker g false s)).

Definition pf_reset_vf_state (g : gt_id) (vfid : nat) : vf unit :=
  atom (modify (upd_data g vfid (with_state 0))) ≫= fun _ => put_paused g vfid false.

Definition intel_iov_state_reset (g : gt_id) : vf unit :=
  absent ← atom (gets (fun s => bool_decide (v_data s g = [])));
  if absent : bool then mret tt else
  totalvfs ← atom (gets (fun s => d_totalvfs (v_dev s)));
  each (seq 0 (1 + totalvfs)) (pf_reset_vf_state g).
End state.

(** ** Reading after writing *)

Section bits.
Context `{E : Env}.

Lemma vf_data_upd g v f s g' v' :
  vf_data (upd_data g v f s) g' v' =
    if decide (g' = g /\ v' = v /\ (v < length (v_data s g))%nat) then f (vf_data s g v) else vf_data s g' v'.
Proof.
  unfold vf_data, upd_data, set_v_data. cbn [v_data]. destruct (decide (g' = g)) as [->|].
  - destruct (decide (v' = v)) as [->|].
    + rewrite list_lookup_alter_eq. destruct (decide (v < length (v_data s g))%nat) as [Hv|Hv].
      * rewrite decide_True by done. by destruct (lookup_lt_is_Some_2 _ _ Hv) as [x ->].
      * rewrite decide_False by tauto. by rewrite lookup_ge_None_2 by lia.
    + rewrite decide_False by tauto. by rewrite list_lookup_alter_ne.
  - by rewrite decide_False by tauto.
Qed.

Lemma vf_bit_put g v b x s g' v' b' :
  0 <= b -> 0 <= b' ->
  vf_bit (put_bit g v b x s) g' v' b' =
    if decide (g' = g /\ v' = v /\ b' = b /\ (v < length (v_data s g))%nat) then x else vf_bit s g' v' b'.
Proof.
  intros Hb Hb'. unfold vf_bit, vf_bits, put_bit. rewrite vf_data_upd.
  destruct (decide (g' = g /\ v' = v /\ (v < length (v_data s g))%nat)) as [(->&->&Hv)|Hn].
  - destruct (decide (b' = b)) as [->|Hbb].
    + rewrite decide_True by done. destruct x; simpl; [by rewrite Z.setbit_eq|by rewrite Z.clearbit_eq].
    + rewrite decide_False by tauto.
      destruct x; simpl; [by rewrite Z.setbit_neq by lia|by rewrite Z.clearbit_neq by lia].
  - by rewrite decide_False by tauto.
Qed.

Lemma length_put g v' b x s g' : length (v_data (put_bit g v' b x s) g') = length (v_data s g').
Proof. unfold put_bit, upd_data, set_v_data. simpl. case_decide as Hg; [|done]. subst. apply length_alter. Qed.

(** A bit that is set belongs to an entry. *)
Lemma vf_bit_range s g v b : vf_bit s g v b = true -> (v < length (v_data s g))%nat.
Proof.
  unfold vf_bit, vf_bits, vf_data. destruct (v_data s g !! v) eqn:Hl; intros Hb;
    [by eapply lookup_lt_Some|]. by rewrite Z.testbit_0_l in Hb.
Qed.

Lemma vf_bit_same s s' g v b : v_data s' = v_data s -> vf_bit s' g v b = vf_bit s g v b.
Proof. unfold vf_bit, vf_bits, vf_data. by intros ->. Qed.
Lemma vf_bit_upd g v f s g' v' b :
  (forall d, state (f d) = state d) -> vf_bit (upd_data g v f s) g' v' b = vf_bit s g' v' b.
Proof.
  intros Hf. unfold vf_bit, vf_bits. rewrite vf_data_upd. case_decide as H; [|done].
  destruct H as (->&->&_). by rewrite Hf.
Qed.
End bits.
