(* ===== verification/Flr.v ===== *)
(** * The reset protocol of a VF among concurrent threads

    The system that gt/iov/intel_iov_state.c takes part in: the notification handlers, the
    worker of each GT and the callers of the other components, interleaved action by action. The
    comment "DOC: VF FLR Flow" of that file is the specification its runs are proved against. *)

From stdpp Require Export relations.
From S2P Require Export VfState.

#[export] Instance vf_event_eq_dec : EqDecision vf_event.
Proof. solve_decision. Defined.

(** ** Specification: the five steps of a reset *)

(** How often each step was taken for one VF on one GT. *)
Record flr := { f_asked : nat; f_started : nat; f_done : nat; f_finished : nat }.
Definition flr0 : flr := {| f_asked := 0; f_started := 0; f_done := 0; f_finished := 0 |}.

(** PF learns of the reset; it has GuC start only what was asked for; GuC says it is done only
    with what was started; PF has GuC finish only what is done. *)
Definition flr_step (g : gt_id) (v : nat) (f : flr) (e : vf_event) : option flr :=
  if decide (e = Asked g v) then
    Some {| f_asked := S (f_asked f); f_started := f_started f; f_done := f_done f; f_finished := f_finished f |}
  else if decide (e = Commanded g v GUC_PF_TRIGGER_VF_FLR_START 0) then
    if decide (f_started f < f_asked f)%nat then
      Some {| f_asked := f_asked f; f_started := S (f_started f); f_done := f_done f; f_finished := f_finished f |}
    else None
  else if decide (e = Notified g v GUC_PF_NOTIFY_VF_FLR_DONE) then
    if decide (f_done f < f_started f)%nat then
      Some {| f_asked := f_asked f; f_started := f_started f; f_done := S (f_done f); f_finished := f_finished f |}
    else None
  else if decide (e = Commanded g v GUC_PF_TRIGGER_VF_FLR_FINISH 0) then
    if decide (f_finished f < f_done f)%nat then
      Some {| f_asked := f_asked f; f_started := f_started f; f_done := f_done f; f_finished := S (f_finished f) |}
    else None
  else Some f.

Definition flr_run (g : gt_id) (v : nat) (t : list vf_event) : option flr :=
  foldl (fun f e => f ≫= fun f => flr_step g v f e) (Some flr0) t.

(** ** Counting the steps of a history *)

Definition count (e : vf_event) (t : list vf_event) : nat := length (filter (fun x => x = e) t).
Definition asked g v t : nat := count (Asked g v) t.
Definition started g v t : nat := count (Commanded g v GUC_PF_TRIGGER_VF_FLR_START 0) t.
Definition guc_done g v t : nat := count (Notified g v GUC_PF_NOTIFY_VF_FLR_DONE) t.
Definition finished g v t : nat := count (Commanded g v GUC_PF_TRIGGER_VF_FLR_FINISH 0) t.

(** GuC's part of the protocol, for VF [v]: on each GT it notifies that a reset is done only
    after it accepted to start one. *)
Definition guc_follows (v : nat) (t : list vf_event) : Prop :=
  forall t0 g, t0 `prefix_of` t -> (guc_done g v t0 <= started g v t0)%nat.
(** The part of PF. *)
Definition pf_follows (t : list vf_event) : Prop :=
  forall t0 g v, t0 `prefix_of` t ->
    (started g v t0 <= asked g v t0)%nat /\ (finished g v t0 <= guc_done g v t0)%nat.

Lemma count_app e t1 t2 : count e (t1 ++ t2) = (count e t1 + count e t2)%nat.
Proof. unfold count. by rewrite filter_app, length_app. Qed.
Lemma count_snoc e t x : count e (t ++ [x]) = (count e t + if decide (x = e) then 1 else 0)%nat.
Proof. rewrite count_app. unfold count, filter, list_filter. by destruct (decide (x = e)). Qed.
Lemma count_prefix e t1 t2 : t1 `prefix_of` t2 -> (count e t1 <= count e t2)%nat.
Proof. intros [k ->]. rewrite count_app. lia. Qed.

Lemma prefix_snoc {A} (t0 t : list A) x : t0 `prefix_of` t ++ [x] -> t0 = t ++ [x] \/ t0 `prefix_of` t.
Proof.
  intros [k Hk]. destruct k as [|y k _] using rev_ind; [left; by rewrite app_nil_r in Hk|].
  rewrite app_assoc in Hk. apply app_inj_2 in Hk as [-> _]; [|done]. right. by exists k.
Qed.

Lemma guc_follows_prefix v t t' : t `prefix_of` t' -> guc_follows v t' -> guc_follows v t.
Proof. intros Ht Hg t0 g Ht0. apply Hg. by etransitivity. Qed.

(** It can be checked on a given history. *)
Lemma guc_follows_check v t :
  forallb (fun k => forallb (fun g => guc_done g v (take k t) <=? started g v (take k t))%nat [GT_PRIMARY; GT_MEDIA])
    (seq 0 (S (length t))) = true -> guc_follows v t.
Proof.
  rewrite forallb_forall. intros Hc t0 g [t1 ->]. specialize (Hc (length t0)).
  rewrite take_app_length in Hc. specialize (Hc ltac:(apply list_elem_of_In, elem_of_seq; rewrite length_app; lia)).
  rewrite forallb_forall in Hc. by apply Nat.leb_le, Hc; destruct g; simpl; tauto.
Qed.

(** Both parts together make a run of the specification. *)
Lemma flr_run_counts g v t :
  pf_follows t -> guc_follows v t ->
  flr_run g v t = Some {| f_asked := asked g v t; f_started := started g v t;
                          f_done := guc_done g v t; f_finished := finished g v t |}.
Proof.
  induction t as [|e t IH] using rev_ind; intros Hp Hg; [done|].
  unfold flr_run. rewrite foldl_snoc. change (foldl _ _ t) with (flr_run g v t).
  assert (t `prefix_of` t ++ [e]) as Ht by apply prefix_app_r, reflexivity.
  rewrite IH; [|intros t0 g' v' H; apply Hp; by etransitivity|by eapply guc_follows_prefix].
  destruct (Hp (t ++ [e]) g v (reflexivity _)) as [H1 H2].
  pose proof (Hg (t ++ [e]) g (reflexivity _)) as H3.
  unfold asked, started, guc_done, finished in *. rewrite !count_snoc in *.
  simpl. unfold flr_step. cbn [f_asked f_started f_done f_finished].
  repeat case_decide; simplify_eq; try (by rewrite !Nat.add_0_r); try lia;
    do 2 f_equal; lia.
Qed.

(** ** The system *)

Section sys.
Context `{E : Env} `{R : RelayEnv}.

(** What can start a thread: notifications from GuC and calls of other components. *)
Inductive call :=
| CallState (g : gt_id) (msg : list Z)
| CallEvent (g : gt_id) (msg : list Z)
| CallStartFlr (g : gt_id) (v : nat)
| CallPause (g : gt_id) (v : nat)
| CallPauseSync (polls : nat) (g : gt_id) (v : nat) (inferred : bool)
| CallResume (g : gt_id) (v : nat)
| CallStop (g : gt_id) (v : nat).

Definition program (c : call) : prog vf_state unit :=
  match c with
  | CallState g msg => intel_iov_state_process_guc2pf g msg ≫= fun _ => mret tt
  | CallEvent g msg => intel_iov_event_process_guc2pf g msg ≫= fun _ => mret tt
  | CallStartFlr g v => intel_iov_state_start_flr g v
  | CallPause g v => intel_iov_state_pause_vf g v ≫= fun _ => mret tt
  | CallPauseSync polls g v inferred => intel_iov_state_pause_vf_sync polls g v inferred ≫= fun _ => mret tt
  | CallResume g v => intel_iov_state_resume_vf g v ≫= fun _ => mret tt
  | CallStop g v => intel_iov_state_stop_vf g v ≫= fun _ => mret tt
  end.

(** The shared state, the worker of each GT (a work item runs once at a time; [Ret tt] when it
    does not run) and the other threads. *)
Record sys := {
  sys_state : vf_state;
  sys_worker : gt_id -> prog vf_state unit;
  sys_threads : list (prog vf_state unit);
}.

Definition with_worker (g : gt_id) (p : prog vf_state unit) (s : vf_state) (x : sys) : sys :=
  {| sys_state := s; sys_worker := fun g' => if decide (g' = g) then p else sys_worker x g';
     sys_threads := sys_threads x |}.

Inductive sys_step (x : sys) : sys -> Prop :=
| StepCall c :
    sys_step x {| sys_state := sys_state x; sys_worker := sys_worker x;
                  sys_threads := sys_threads x ++ [program c] |}
| StepDequeue g :
    sys_worker x g = Ret tt -> v_worker (sys_state x) g = true ->
    sys_step x (with_worker g (pf_state_worker_func g) (set_v_worker g false (sys_state x)) x)
| StepWorker g p s :
    step_prog (sys_worker x g) (sys_state x) = (p, s) -> sys_step x (with_worker g p s x)
| StepThread i p p' s :
    sys_threads x !! i = Some p -> step_prog p (sys_state x) = (p', s) ->
    sys_step x {| sys_state := s; sys_worker := sys_worker x; sys_threads := <[i := p']> (sys_threads x) |}.

Definition sys_run : relation sys := rtc sys_step.

(** No reset of [v] under way, nothing running, an empty history. *)
Definition no_flr_bits (v : nat) (s : vf_state) : Prop :=
  forall g b, b ∈ [IOV_VF_NEEDS_FLR_START; IOV_VF_FLR_DONE_RECEIVED; IOV_VF_NEEDS_FLR_FINISH;
                   IOV_VF_NEEDS_FLR_DONE_SYNC] -> vf_bit s g v b = false.
Definition sys_idle (x : sys) : Prop :=
  (forall g, sys_worker x g = Ret tt) /\ sys_threads x = [] /\ v_trace (sys_state x) = [].

(** ** Threads under a rely *)

(** An invariant of the system from an invariant of the shared state, a rely for each worker,
    one for the other threads, and their guarantees. *)
Section adequacy.
Context (I : vf_state -> Prop) (RW GW : gt_id -> relation vf_state) (RT GT : relation vf_state).
Context `{PW : !forall g, PreOrder (RW g)} `{PT : !PreOrder RT}.
Context (HWW : forall g g' s s', g <> g' -> GW g s s' -> RW g' s s')
        (HWT : forall g s s', GW g s s' -> RT s s')
        (HTW : forall g s s', GT s s' -> RW g s s')
        (HTT : forall s s', GT s s' -> RT s s')
        (HWr : forall g s, GW g s s) (HTr : forall s, GT s s).
Context (Hworker : forall g s, I s -> safe I (RW g) (GW g) (pf_state_worker_func g) (fun _ _ => True) s)
        (Hthread : forall c s, I s -> safe I RT GT (program c) (fun _ _ => True) s)
        (Hdequeue : forall g s, I s -> I (set_v_worker g false s) /\
           (forall g', RW g' s (set_v_worker g false s)) /\ RT s (set_v_worker g false s)).

Definition sys_safe (x : sys) : Prop :=
  I (sys_state x) /\
  (forall g, safe I (RW g) (GW g) (sys_worker x g) (fun _ _ => True) (sys_state x)) /\
  Forall (fun p => safe I RT GT p (fun _ _ => True) (sys_state x)) (sys_threads x).

Lemma sys_step_safe x y : sys_step x y -> sys_safe x -> sys_safe y.
Proof using Type*.
  intros [c|g Hidle Hq|g p s Hs|i p p' s Hi Hs] (HI & HW & HT); unfold sys_safe; simpl.
  - split_and!; [done|done|]. apply Forall_app. split; [done|]. apply Forall_singleton. by apply Hthread.
  - destruct (Hdequeue g _ HI) as (HI' & HRW & HRT). split_and!; [done| |].
    + intros g'. case_decide; [subst; by apply Hworker|]. eapply safe_interfere; [apply _|apply HRW|done].
    + eapply Forall_impl; [done|]. intros p Hp. eapply safe_interfere; [apply _|exact HRT|done].
  - pose proof (safe_step I (RW g) (GW g) _ _ _ (HWr g) HI (HW g)) as H. rewrite Hs in H.
    destruct H as (HG & HI' & Hp). split_and!; [done| |].
    + intros g'. case_decide; [by subst|]. eapply safe_interfere; [apply _| |apply HW].
      by eapply HWW; [|exact HG].
    + eapply Forall_impl; [done|]. intros q Hq. eapply safe_interfere; [apply _|by eapply HWT|done].
  - pose proof (safe_step I RT GT _ _ _ HTr HI (Forall_lookup_1 _ _ _ _ HT Hi)) as H. rewrite Hs in H.
    destruct H as (HG & HI' & Hp). split_and!; [done| |].
    + intros g. eapply safe_interfere; [apply _|by apply HTW|done].
    + apply Forall_insert; [|done]. eapply Forall_impl; [done|]. intros q Hq.
      eapply safe_interfere; [apply _|by apply HTT|done].
Qed.

Lemma sys_run_invariant x y :
  sys_run x y -> sys_idle x -> I (sys_state x) -> I (sys_state y).
Proof using Type*.
  intros Hrun (Hw & Ht & _) HI.
  assert (sys_safe x) as Hx.
  { split_and!; [done| |by rewrite Ht]. intros g. by rewrite Hw. }
  clear Hw Ht HI. induction Hrun as [x|x y z Hs _ IH]; [apply Hx|]. by apply IH, (sys_step_safe x).
Qed.
End adequacy.
End sys.

(** ** PF follows the protocol *)

Section follows.
Context `{E : Env} `{R : RelayEnv}.

(** How far PF could still go on a GT: the resets GuC is done with that PF has not had finished
    yet nor recorded in its bits, and the resets asked for that it has not started. *)
Definition slack_finish (s : vf_state) (g : gt_id) (v : nat) : Z :=
  Z.of_nat (guc_done g v (v_trace s)) - Z.of_nat (finished g v (v_trace s))
  - Z.b2z (vf_bit s g v IOV_VF_FLR_DONE_RECEIVED) - Z.b2z (vf_bit s g v IOV_VF_NEEDS_FLR_FINISH).
Definition slack_start (s : vf_state) (g : gt_id) (v : nat) : Z :=
  Z.of_nat (asked g v (v_trace s)) - Z.of_nat (started g v (v_trace s))
  - Z.b2z (vf_bit s g v IOV_VF_NEEDS_FLR_START).

Definition slack_inv (s : vf_state) : Prop :=
  pf_follows (v_trace s) /\ forall g v, 0 <= slack_finish s g v /\ 0 <= slack_start s g v.

(** The slack of the GTs in [P] does not shrink. *)
Definition grows (P : gt_id -> Prop) (s s' : vf_state) : Prop :=
  forall g v, P g -> slack_finish s g v <= slack_finish s' g v /\ slack_start s g v <= slack_start s' g v.
#[export] Instance grows_preorder P : PreOrder (grows P).
Proof.
  split; [done|]. intros a b c H1 H2 g v Hg. destruct (H1 g v Hg), (H2 g v Hg). lia.
Qed.

(** [m] takes at most one step of the history and changes the slack of [v] on [g] by at least
    [kf] and [ks] for its result, every other slack by at least nothing. *)
Definition moves {A} (g : gt_id) (v : nat) (m : st vf_state A) (kf ks : A -> Z) : Prop :=
  forall s, let '(a, s') := m s in
    (v_trace s' = v_trace s \/ exists e, v_trace s' = v_trace s ++ [e]) /\
    forall g' v', let here := bool_decide (g' = g /\ v' = v) in
      slack_finish s g' v' + (if here then kf a else 0) <= slack_finish s' g' v' /\
      slack_start s g' v' + (if here then ks a else 0) <= slack_start s' g' v'.

(** An action that costs no slack. *)
Definition gentle (A : Type) (m : st vf_state A) : Prop := moves GT_PRIMARY 0 m (fun _ => 0) (fun _ => 0).

Lemma slack_keeps s s' :
  pf_follows (v_trace s) -> (v_trace s' = v_trace s \/ exists e, v_trace s' = v_trace s ++ [e]) ->
  (forall g v, 0 <= slack_finish s' g v /\ 0 <= slack_start s' g v) -> slack_inv s'.
Proof.
  intros Hp Ht Hs. split; [|done]. intros t0 g v Ht0.
  destruct Ht as [Ht|[e Ht]]; rewrite Ht in Ht0; [by apply Hp|].
  apply prefix_snoc in Ht0 as [->|]; [|by apply Hp]. rewrite <- Ht.
  destruct (Hs g v) as [H1 H2]. unfold slack_finish, slack_start in *. split.
  - destruct (vf_bit s' g v IOV_VF_NEEDS_FLR_START); simpl in H2; lia.
  - destruct (vf_bit s' g v IOV_VF_FLR_DONE_RECEIVED), (vf_bit s' g v IOV_VF_NEEDS_FLR_FINISH); simpl in H1; lia.
Qed.

(** What a worker holds: a reset it took out of the bits and not handed on yet. *)
Definition holds_slack (g : gt_id) (v : nat) (kf ks : Z) (s : vf_state) : Prop :=
  kf <= slack_finish s g v /\ ks <= slack_start s g v.

Lemma moves_step {A} g v (m : st vf_state A) kf ks hf hs s :
  moves g v m kf ks -> slack_inv s -> holds_slack g v hf hs s ->
  let '(a, s') := m s in
  0 <= hf + kf a -> 0 <= hs + ks a ->
  grows (fun g' => g' <> g) s s' /\ slack_inv s' /\ holds_slack g v (hf + kf a) (hs + ks a) s'.
Proof.
  intros Hm [Hp Hs] [Hf Hh]. specialize (Hm s). destruct (m s) as [a s']. destruct Hm as [Ht Hm].
  intros Hkf Hks. split; [|split].
  - intros g' v' Hg. specialize (Hm g' v'). cbn zeta in Hm.
    rewrite bool_decide_eq_false_2 in Hm by tauto. lia.
  - apply (slack_keeps s); [done|done|]. intros g' v'. specialize (Hm g' v'). specialize (Hs g' v'). cbn zeta in Hm.
    destruct (decide (g' = g /\ v' = v)) as [Hn|Hn];
      [rewrite bool_decide_eq_true_2 in Hm by done|rewrite bool_decide_eq_false_2 in Hm by done; lia].
    destruct Hn as [-> ->]. lia.
  - specialize (Hm g v). cbn zeta in Hm. rewrite bool_decide_eq_true_2 in Hm by done. unfold holds_slack. lia.
Qed.

Lemma gentle_step {A} (m : st vf_state A) s :
  gentle A m -> slack_inv s -> grows (fun _ => True) s (snd (m s)) /\ slack_inv (snd (m s)).
Proof.
  intros Hm [Hp Hs]. specialize (Hm s). destruct (m s) as [a s']. destruct Hm as [Ht Hm]. simpl.
  assert (forall g v, slack_finish s g v <= slack_finish s' g v /\ slack_start s g v <= slack_start s' g v) as Hm'.
  { intros g v. specialize (Hm g v). cbn zeta in Hm. destruct (bool_decide _); lia. }
  split; [by intros g v _|]. apply (slack_keeps s); [done|done|].
  intros g v. specialize (Hm' g v). specialize (Hs g v). lia.
Qed.

(** *** The actions *)

Lemma gentle_le {A} (m : st vf_state A) s g v :
  gentle A m -> slack_finish s g v <= slack_finish (snd (m s)) g v /\ slack_start s g v <= slack_start (snd (m s)) g v.
Proof.
  intros Hm. specialize (Hm s). destruct (m s) as [a s']. destruct Hm as [_ Hm]. specialize (Hm g v).
  cbn zeta in Hm. simpl. destruct (bool_decide _); lia.
Qed.

Lemma add_event_bit e s g v b : vf_bit (add_event e s) g v b = vf_bit s g v b.
Proof. done. Qed.

Lemma put_false_le g v b s g' v' b' :
  0 <= b -> 0 <= b' -> Z.b2z (vf_bit (put_bit g v b false s) g' v' b') <= Z.b2z (vf_bit s g' v' b').
Proof. intros. rewrite vf_bit_put by done. case_decide; [|lia]. by destruct (vf_bit s g' v' b'). Qed.
Lemma put_other g v b x s g' v' b' :
  0 <= b -> 0 <= b' -> ~ (g' = g /\ v' = v /\ b' = b) -> vf_bit (put_bit g v b x s) g' v' b' = vf_bit s g' v' b'.
Proof. intros. rewrite vf_bit_put, decide_False by tauto. done. Qed.
Lemma put_false_here g v b s : 0 <= b -> vf_bit (put_bit g v b false s) g v b = false.
Proof.
  intros. rewrite vf_bit_put by done. case_decide as Hn; [done|].
  destruct (vf_bit s g v b) eqn:Hb; [|done]. apply vf_bit_range in Hb. tauto.
Qed.
Lemma b2z_range b : 0 <= Z.b2z b <= 1.
Proof. destruct b; simpl; lia. Qed.
Lemma put_true_le g v b s g' v' b' :
  0 <= b -> 0 <= b' -> Z.b2z (vf_bit (put_bit g v b true s) g' v' b') <= Z.b2z (vf_bit s g' v' b') + 1.
Proof.
  intros. pose proof (b2z_range (vf_bit (put_bit g v b true s) g' v' b')).
  pose proof (b2z_range (vf_bit s g' v' b')). lia.
Qed.

Lemma gentle_gets {A} (f : vf_state -> A) : gentle A (gets f).
Proof. intros s. cbn. split; [by left|]. intros g' v'. cbn zeta. case_bool_decide; lia. Qed.

(** Actions that leave the bits and the history alone. *)
Lemma gentle_same {A} (m : st vf_state A) :
  (forall s, v_trace (snd (m s)) = v_trace s /\ forall g v b, vf_bit (snd (m s)) g v b = vf_bit s g v b) ->
  gentle A m.
Proof.
  intros Hm s. specialize (Hm s). destruct (m s) as [a s']. simpl in Hm. destruct Hm as [Ht Hb].
  split; [by left|]. intros g v. unfold slack_finish, slack_start. rewrite Ht, !Hb. case_bool_decide; lia.
Qed.
Lemma gentle_dev {A} (m : st dev A) : gentle A (on_v_dev m).
Proof. apply gentle_same. intros s. unfold on_v_dev. by destruct (m (v_dev s)). Qed.
Lemma gentle_queue g b : gentle unit (modify (set_v_worker g b)).
Proof. by apply gentle_same. Qed.
Lemma gentle_upd g v f : (forall d, state (f d) = state d) -> gentle unit (modify (upd_data g v f)).
Proof. intros Hf. apply gentle_same. intros s. split; [done|]. intros. by apply vf_bit_upd. Qed.

Lemma gentle_clear g v b : 0 <= b -> gentle unit (modify (put_bit g v b false)).
Proof.
  intros Hb s. cbn. split; [by left|]. intros g' v'. unfold slack_finish, slack_start. cbn [v_trace put_bit upd_data set_v_data].
  pose proof (put_false_le g v b s g' v' IOV_VF_FLR_DONE_RECEIVED Hb ltac:(done)).
  pose proof (put_false_le g v b s g' v' IOV_VF_NEEDS_FLR_FINISH Hb ltac:(done)).
  pose proof (put_false_le g v b s g' v' IOV_VF_NEEDS_FLR_START Hb ltac:(done)).
  case_bool_decide; lia.
Qed.
Lemma gentle_set g v b :
  0 <= b -> b ∉ [IOV_VF_NEEDS_FLR_START; IOV_VF_FLR_DONE_RECEIVED; IOV_VF_NEEDS_FLR_FINISH] ->
  gentle unit (modify (put_bit g v b true)).
Proof.
  rewrite !not_elem_of_cons. intros Hb (H1&H2&H3&_) s. cbn. split; [by left|]. intros g' v'.
  unfold slack_finish, slack_start. rewrite !put_other by (done || intros (_&_&?); congruence).
  cbn [v_trace put_bit upd_data set_v_data]. case_bool_decide; lia.
Qed.

(** The two bits that stand for a reset PF has to hand on. *)
Definition cost_finish (b : Z) : Z :=
  if (b =? IOV_VF_FLR_DONE_RECEIVED) || (b =? IOV_VF_NEEDS_FLR_FINISH) then 1 else 0.
Definition cost_start (b : Z) : Z := if b =? IOV_VF_NEEDS_FLR_START then 1 else 0.

Lemma slack_put g v b x s g' v' :
  let s' := put_bit g v b x s in let here := bool_decide (g' = g /\ v' = v) in
  0 <= b ->
  let gain := if x then -1 else Z.b2z (vf_bit s g v b) in
  slack_finish s g' v' + (if here then cost_finish b * gain else 0) <= slack_finish s' g' v' /\
  slack_start s g' v' + (if here then cost_start b * gain else 0) <= slack_start s' g' v'.
Proof.
  cbn zeta. intros Hb. unfold slack_finish, slack_start.
  change (v_trace (put_bit g v b x s)) with (v_trace s).
  assert (forall b', 0 <= b' -> Z.b2z (vf_bit (put_bit g v b x s) g' v' b')
    + (if bool_decide (g' = g /\ v' = v) then (if b =? b' then 1 else 0) * (if x then -1 else Z.b2z (vf_bit s g v b)) else 0)
    <= Z.b2z (vf_bit s g' v' b')) as Hput.
  { intros b' Hb'. case_bool_decide as Hn; [|rewrite put_other by tauto; lia]. destruct Hn as [-> ->].
    destruct (Z.eqb_spec b b') as [<-|]; [|rewrite put_other by (done || lia); lia].
    destruct x; [pose proof (put_true_le g v b s g v b Hb Hb); lia|].
    rewrite put_false_here by done. simpl. lia. }
  pose proof (Hput IOV_VF_FLR_DONE_RECEIVED ltac:(done)). pose proof (Hput IOV_VF_NEEDS_FLR_FINISH ltac:(done)).
  pose proof (Hput IOV_VF_NEEDS_FLR_START ltac:(done)). clear Hput. unfold cost_finish, cost_start.
  destruct (bool_decide _); [|lia].
  unfold IOV_VF_FLR_DONE_RECEIVED, IOV_VF_NEEDS_FLR_FINISH, IOV_VF_NEEDS_FLR_START in *.
  destruct (Z.eqb_spec b 2), (Z.eqb_spec b 3), (Z.eqb_spec b 1); cbn [orb]; lia.
Qed.

Lemma moves_set g v b :
  0 <= b -> moves g v (modify (put_bit g v b true)) (fun _ => - cost_finish b) (fun _ => - cost_start b).
Proof.
  intros Hb s. cbn. split; [by left|]. intros g' v'. pose proof (slack_put g v b true s g' v' Hb) as H.
  cbn zeta in H. destruct (bool_decide _); lia.
Qed.
Lemma moves_test_and_clear g v b :
  0 <= b -> moves g v (fun s => (vf_bit s g v b, put_bit g v b false s))
    (fun x => cost_finish b * Z.b2z x) (fun x => cost_start b * Z.b2z x).
Proof. intros Hb s. split; [by left|]. intros g' v'. by apply (slack_put g v b false). Qed.

(** Steps of the history. *)
Definition gain_event (e : vf_event) (g : gt_id) (v : nat) : Z * Z :=
  (Z.b2z (bool_decide (e = Notified g v GUC_PF_NOTIFY_VF_FLR_DONE))
   - Z.b2z (bool_decide (e = Commanded g v GUC_PF_TRIGGER_VF_FLR_FINISH 0)),
   Z.b2z (bool_decide (e = Asked g v)) - Z.b2z (bool_decide (e = Commanded g v GUC_PF_TRIGGER_VF_FLR_START 0))).
Lemma slack_event e s g v :
  slack_finish (add_event e s) g v = slack_finish s g v + (gain_event e g v).1 /\
  slack_start (add_event e s) g v = slack_start s g v + (gain_event e g v).2.
Proof.
  unfold slack_finish, slack_start. rewrite !add_event_bit. cbn [v_trace add_event].
  unfold asked, started, guc_done, finished. rewrite !count_snoc. unfold gain_event. cbn [fst snd].
  repeat case_bool_decide; repeat case_decide; try congruence; simpl; lia.
Qed.

Lemma gentle_asked g v :
  gentle unit (modify (fun s => add_event (Asked g v) (put_bit g v IOV_VF_NEEDS_FLR_START true s))).
Proof.
  intros s. cbn. split; [right; by eexists|]. intros g' v'.
  pose proof (slack_put g v IOV_VF_NEEDS_FLR_START true s g' v' ltac:(done)) as H. cbn in H.
  destruct (slack_event (Asked g v) (put_bit g v IOV_VF_NEEDS_FLR_START true s) g' v') as [H1 H2].
  unfold gain_event in *. cbn [fst snd] in *. repeat case_bool_decide; simplify_eq; destruct_and?; simpl in *; simplify_eq; lia.
Qed.
Lemma gentle_done g v :
  gentle unit (modify (fun s => add_event (Notified g v GUC_PF_NOTIFY_VF_FLR_DONE)
                                  (put_bit g v IOV_VF_FLR_DONE_RECEIVED true s))).
Proof.
  intros s. cbn. split; [right; by eexists|]. intros g' v'.
  pose proof (slack_put g v IOV_VF_FLR_DONE_RECEIVED true s g' v' ltac:(done)) as H. cbn in H.
  destruct (slack_event (Notified g v GUC_PF_NOTIFY_VF_FLR_DONE) (put_bit g v IOV_VF_FLR_DONE_RECEIVED true s) g' v').
  unfold gain_event in *. cbn [fst snd] in *. repeat case_bool_decide; simplify_eq; destruct_and?; simpl in *; simplify_eq; lia.
Qed.
Lemma gentle_pause_done g v :
  gentle unit (modify (fun s => add_event (Notified g v GUC_PF_NOTIFY_VF_PAUSE_DONE) (upd_data g v (with_paused true) s))).
Proof.
  intros s. cbn. split; [right; by eexists|]. intros g' v'.
  destruct (slack_event (Notified g v GUC_PF_NOTIFY_VF_PAUSE_DONE) (upd_data g v (with_paused true) s) g' v') as [-> ->].
  pose proof (gentle_le _ s g' v' (gentle_upd g v (with_paused true) ltac:(done))) as [H1 H2].
  cbn [modify snd] in H1, H2.
  unfold gain_event. cbn [fst snd] in *. repeat case_bool_decide; simplify_eq; simpl in *; lia.
Qed.

Lemma moves_command g v cmd :
  moves g v (guc_action_vf_control_cmd g v cmd)
    (fun ret => - Z.b2z ((ret =? 0) && (cmd =? GUC_PF_TRIGGER_VF_FLR_FINISH)))
    (fun ret => - Z.b2z ((ret =? 0) && (cmd =? GUC_PF_TRIGGER_VF_FLR_START))).
Proof.
  intros s. unfold guc_action_vf_control_cmd, on_v_dev, intel_guc_send, modify, mbind, st_bind. cbn.
  set (ret := guc_reply _ _). set (s1 := set_v_dev _ s).
  assert (((if ret >? 0 then - EPROTO else ret) =? 0) = (ret =? 0)) as ->.
  { rewrite Z.gtb_ltb. unfold EPROTO. destruct (Z.ltb_spec 0 ret), (Z.eqb_spec ret 0); try lia; done. }
  split; [right; by eexists|]. intros g' v'.
  destruct (slack_event (Commanded g v cmd ret) s1 g' v') as [-> ->].
  change (slack_finish s1 g' v') with (slack_finish s g' v'). change (slack_start s1 g' v') with (slack_start s g' v').
  unfold gain_event. cbn [fst snd].
  destruct (Z.eqb_spec ret 0), (Z.eqb_spec cmd GUC_PF_TRIGGER_VF_FLR_FINISH),
    (Z.eqb_spec cmd GUC_PF_TRIGGER_VF_FLR_START); repeat case_bool_decide; simplify_eq; destruct_and?; simplify_eq;
    simpl; try tauto; lia.
Qed.
Lemma gentle_command g v cmd :
  cmd <> GUC_PF_TRIGGER_VF_FLR_START -> cmd <> GUC_PF_TRIGGER_VF_FLR_FINISH ->
  gentle Z (guc_action_vf_control_cmd g v cmd).
Proof.
  intros H1 H2 s. pose proof (moves_command g v cmd s) as Hm. destruct (guc_action_vf_control_cmd g v cmd s) as [a s'].
  destruct Hm as [Ht Hm]. split; [done|]. intros g' v'. specialize (Hm g' v'). cbn zeta in Hm.
  rewrite (proj2 (Z.eqb_neq cmd _)), (proj2 (Z.eqb_neq cmd _)), andb_false_r in Hm by done.
  repeat case_bool_decide; simpl in *; lia.
Qed.
Lemma gentle_test_and_set g v b :
  0 <= b -> b ∉ [IOV_VF_NEEDS_FLR_START; IOV_VF_FLR_DONE_RECEIVED; IOV_VF_NEEDS_FLR_FINISH] ->
  gentle bool (fun s => (vf_bit s g v b, put_bit g v b true s)).
Proof.
  intros Hb Hn s. pose proof (gentle_set g v b Hb Hn s) as H. cbn in H. destruct H as [_ H]. split; [by left|apply H].
Qed.
End follows.

Create HintDb gentle.
#[export] Hint Resolve all_acts_ret all_acts_bind all_acts_if all_acts_each all_acts_any all_acts_atom
  gentle_gets gentle_dev gentle_queue gentle_asked gentle_done gentle_pause_done : gentle.
#[export] Hint Extern 1 (gentle _ (modify (put_bit _ _ _ false))) => apply gentle_clear; done : gentle.
#[export] Hint Extern 1 (_ ∉ _) => rewrite !not_elem_of_cons; split_and?; try done; apply not_elem_of_nil : gentle.
#[export] Hint Extern 1 (gentle _ (modify (put_bit _ _ _ true))) => apply gentle_set; [done|] : gentle.
#[export] Hint Extern 1 (gentle _ (fun _ => (_, put_bit _ _ _ true _))) => apply gentle_test_and_set; [done|] : gentle.
#[export] Hint Extern 1 (gentle _ (modify (upd_data _ _ _))) => apply gentle_upd; done : gentle.
#[export] Hint Extern 1 (gentle _ (modify (put_event _ _ _ _))) => apply gentle_upd; done : gentle.
#[export] Hint Extern 1 (gentle _ (guc_action_vf_control_cmd _ _ _)) => by apply gentle_command : gentle.
#[export] Hint Unfold test_bit set_bit clear_bit test_and_set_bit get_paused put_paused pf_queue_worker pf_control_vf
  pf_vf_flr_done_received pf_vf_flr_needs_sync pf_vf_flr_in_progress : gentle.

(** Walks through a program. *)
Ltac walk_acts :=
  repeat first [ apply all_acts_bind; intros | apply all_acts_if | apply all_acts_each; intros
               | apply all_acts_any; intros | progress autounfold with gentle | progress auto 4 with gentle
               | case_match ].

Section follows_run.
Context `{E : Env} `{R : RelayEnv}.

Lemma wait_for_paused_gentle polls g v : all_acts gentle (wait_for_paused polls g v).
Proof. induction polls as [|polls IH]; cbn [wait_for_paused]; walk_acts. Qed.
#[local] Hint Resolve wait_for_paused_gentle : gentle.

(** No thread but a worker costs slack. *)
Lemma program_gentle c : all_acts gentle (program c).
Proof.
  destruct c; unfold program, intel_iov_state_process_guc2pf, intel_iov_event_process_guc2pf,
    pf_handle_vf_event, pf_handle_pf_event, pf_handle_vf_threshold_event, pf_update_event_counter,
    pf_handle_vf_flr, pf_handle_vf_flr_done, pf_handle_vf_pause_done,
    intel_iov_state_start_flr, pf_init_vf_flr, intel_iov_state_pause_vf, intel_iov_state_pause_vf_sync,
    intel_iov_state_resume_vf, intel_iov_state_stop_vf, intel_iov_state_no_flr, intel_iov_state_no_pause; walk_acts.
Qed.

Section worker.
Context (g : gt_id).
#[local] Abbreviation rely := (grows (fun g' => g' = g)).
#[local] Abbreviation guarantee := (grows (fun g' => g' <> g)).
#[local] Abbreviation safe_w := (safe slack_inv rely guarantee).

Lemma holds_slack_rely v kf ks s s' : rely s s' -> holds_slack g v kf ks s -> holds_slack g v kf ks s'.
Proof. intros HR [H1 H2]. destruct (HR g v eq_refl). split; lia. Qed.

Lemma safe_moves {A B} v (m : st vf_state A) kf ks hf hs (k : A -> prog vf_state B) Q s :
  moves g v m kf ks -> holds_slack g v hf hs s -> (forall a, 0 <= hf + kf a /\ 0 <= hs + ks a) ->
  (forall a s', slack_inv s' -> holds_slack g v (hf + kf a) (hs + ks a) s' -> safe_w (k a) Q s') ->
  safe_w (atom m ≫= k) Q s.
Proof.
  intros Hm Hh Hpos Hk. apply safe_act. intros s' HR HI. unfold wp.
  pose proof (moves_step g v m kf ks hf hs s' Hm HI (holds_slack_rely _ _ _ _ _ HR Hh)) as H.
  destruct (m s') as [a s'']. destruct (Hpos a) as [H1 H2]. destruct (H H1 H2) as (HG & HI' & Hh').
  split_and!; try done. by apply Hk.
Qed.

Lemma safe_gentle {A} (p : prog vf_state A) (L : vf_state -> Prop) s :
  (forall s s', grows (fun _ => True) s s' -> L s -> L s') -> (forall s s', rely s s' -> L s -> L s') ->
  all_acts gentle p -> L s -> safe_w p (fun _ => L) s.
Proof.
  intros HL HR Hp. apply safe_all_acts with (P := gentle); [apply _| |exact HR|exact Hp].
  intros A' m s0 Hm HI HLs. destruct (gentle_step m s0 Hm HI) as [HG HI']. simpl. split_and!; try done.
  - intros g' v' _. by apply HG.
  - by eapply HL.
Qed.

Lemma safe_gentle_bind {A B} (p : prog vf_state A) v hf hs (k : A -> prog vf_state B) Q s :
  all_acts gentle p -> slack_inv s -> holds_slack g v hf hs s ->
  (forall a s', slack_inv s' -> holds_slack g v hf hs s' -> safe_w (k a) Q s') -> safe_w (p ≫= k) Q s.
Proof.
  intros Hp HI Hh Hk. apply safe_then with (L := fun _ => holds_slack g v hf hs); [apply _| |exact Hk|done].
  apply safe_gentle; try done; [|intros; by eapply holds_slack_rely].
  intros s0 s1 HG [H1 H2]. destruct (HG g v I). split; lia.
Qed.
Lemma safe_gentle_end {A} (p : prog vf_state A) s : all_acts gentle p -> safe_w p (fun _ _ => True) s.
Proof. intros Hp. by apply safe_gentle. Qed.
Lemma holds_nothing v s : slack_inv s -> holds_slack g v 0 0 s.
Proof. intros [_ HI]. apply HI. Qed.

(** Closed inequalities. *)
#[local] Ltac nonneg := intros; split; vm_compute; intros [=].

Lemma flr_finish_safe v s :
  slack_inv s -> holds_slack g v 1 0 s -> safe_w (process_flr_finish g v) (fun _ _ => True) s.
Proof.
  intros HI Hh. unfold process_flr_finish. apply safe_bind; [apply _|done|].
  unfold pf_process_vf_flr_finish. eapply safe_gentle_bind; [|exact HI|exact Hh|].
  { unfold intel_iov_event_reset. walk_acts. }
  intros _ s1 HI1 H1. eapply safe_gentle_bind; [|exact HI1|exact H1|]; [walk_acts|]. intros _ s2 HI2 H2.
  change (pf_trigger_vf_flr_finish g v)
    with (atom (guc_action_vf_control_cmd g v GUC_PF_TRIGGER_VF_FLR_FINISH) ≫= mret).
  eapply safe_moves; [apply moves_command|exact H2| |].
  { intros a. cbn beta. destruct (a =? 0); nonneg. }
  intros err s3 HI3 H3 s4 HR4 HI4. apply (holds_slack_rely _ _ _ _ _ HR4) in H3.
  destruct (Z.eqb_spec err (- EBUSY)) as [->|Hne].
  - eapply safe_moves; [by apply moves_set|exact H3|nonneg|]. intros _ s5 HI5 _. by apply safe_gentle_end.
  - apply safe_gentle_end. unfold flr_failed. walk_acts.
Qed.

Lemma process_flr_tail_safe v s : slack_inv s -> safe_w (process_flr_tail g v) (fun _ _ => True) s.
Proof.
  intros HI. unfold process_flr_tail.
  eapply safe_moves with (hf := 0) (hs := 0); [by apply (moves_test_and_clear g v)|by apply holds_nothing| |].
  { intros []; nonneg. }
  intros [] s1 HI1 H1.
  { eapply safe_moves; [by apply moves_set|exact H1|nonneg|]. intros _ s2 HI2 _. by apply safe_gentle_end. }
  eapply safe_moves with (hf := 0) (hs := 0); [by apply (moves_test_and_clear g v)|by apply holds_nothing| |].
  { intros []; nonneg. }
  intros [] s2 HI2 H2; [by apply flr_finish_safe|]. apply safe_gentle_end. walk_acts.
Qed.

Lemma process_vf_safe v s : slack_inv s -> safe_w (pf_process_vf g v) (fun _ _ => True) s.
Proof.
  intros HI. unfold pf_process_vf.
  eapply safe_moves with (hf := 0) (hs := 0); [by apply (moves_test_and_clear g v)|by apply holds_nothing| |].
  { intros []; nonneg. }
  intros [] s1 HI1 H1.
  - unfold process_flr_start. eapply safe_moves; [apply moves_command|exact H1| |].
    { intros a. cbn beta. destruct (a =? 0); nonneg. }
    intros err s2 HI2 H2. destruct (Z.eqb_spec err (- EBUSY)) as [->|Hne].
    + eapply safe_moves; [by apply moves_set|exact H2|nonneg|]. intros _ s3 HI3 _. by apply safe_gentle_end.
    + apply safe_gentle_end. unfold flr_failed. walk_acts.
  - eapply safe_gentle_bind; [|exact HI1|exact H1|]; [walk_acts|]. intros sync s2 HI2 H2. destruct sync.
    { apply safe_gentle_end. walk_acts. }
    eapply safe_gentle_bind; [|exact HI2|exact H2|]; [walk_acts|]. intros done s3 HI3 H3.
    eapply safe_gentle_bind; [|exact HI3|exact H3|]; [destruct done; walk_acts|]. intros blocked s4 HI4 H4.
    destruct blocked; [by apply safe_gentle_end|]. by apply process_flr_tail_safe.
Qed.

Lemma process_vfs_safe ns : forall more s, slack_inv s -> safe_w (process_vfs g ns more) (fun _ _ => True) s.
Proof.
  induction ns as [|n ns IH]; intros more s HI; [done|]. cbn [process_vfs].
  apply safe_seq; [apply _|by apply process_vf_safe|intros; by apply IH|done].
Qed.
Lemma worker_safe s : slack_inv s -> safe_w (pf_state_worker_func g) (fun _ _ => True) s.
Proof.
  intros HI. unfold pf_state_worker_func, pf_process_all_vfs.
  apply safe_seq; [apply _|apply safe_gentle_end; walk_acts| |done]. intros n s1 HI1.
  apply safe_seq; [apply _|by apply process_vfs_safe| |done]. intros more s2 HI2.
  apply safe_gentle_end. walk_acts.
Qed.
End worker.

Definition anything : relation vf_state := fun _ _ => True.
#[export] Instance anything_preorder : PreOrder anything.
Proof. by split. Qed.

Lemma thread_safe c s : slack_inv s -> safe slack_inv anything (grows (fun _ => True)) (program c) (fun _ _ => True) s.
Proof.
  intros HI. apply safe_all_acts with (P := gentle); [apply _| |done|apply program_gentle|done].
  intros A m s0 Hm HI0 _. by destruct (gentle_step m s0 Hm HI0).
Qed.

Lemma slack_start_inv x :
  sys_idle x -> (forall v, no_flr_bits v (sys_state x)) -> slack_inv (sys_state x).
Proof.
  intros (_ & _ & Ht) Hb. split.
  - rewrite Ht. intros t0 g v ->%prefix_nil_inv. done.
  - intros g v. unfold slack_finish, slack_start. rewrite Ht, !Hb by set_solver. done.
Qed.

Lemma sys_run_slack x y :
  sys_idle x -> (forall v, no_flr_bits v (sys_state x)) -> sys_run x y -> slack_inv (sys_state y).
Proof.
  intros Hidle Hb Hrun.
  apply (sys_run_invariant slack_inv (fun g => grows (fun g' => g' = g)) (fun g => grows (fun g' => g' <> g))
    anything (grows (fun _ => True))) with (x := x); try done.
  - intros g g' s s' Hne HG g0 v ->. by apply HG.
  - intros g s s' HG g' v _. by apply HG.
  - intros g s HI. by apply worker_safe.
  - intros c s HI. by apply thread_safe.
  - by apply slack_start_inv.
Qed.

(** C32: the five steps of a reset are kept in order, whatever the threads and however their
    accesses interleave. Started with no reset under way, the handlers, the workers and the
    callers together implement the protocol of "VF FLR Flow", for every VF on every GT: PF has
    GuC start at most the resets it was asked for, and has GuC finish at most those GuC said
    it is done with. While GuC in turn is done only with what it accepted to start, the
    history is a run of the specification [flr_step]. *)
Theorem flr_refines x y :
  sys_idle x -> (forall v, no_flr_bits v (sys_state x)) -> sys_run x y ->
  let t := v_trace (sys_state y) in
  pf_follows t /\
  forall g v, guc_follows v t ->
    exists f, flr_run g v t = Some f /\ (f_finished f <= f_done f <= f_started f)%nat /\ (f_started f <= f_asked f)%nat.
Proof.
  intros Hidle Hb Hrun t. destruct (sys_run_slack x y Hidle Hb Hrun) as [Hp _].
  split; [exact Hp|]. intros g v Hg. eexists. split; [by apply flr_run_counts|].
  destruct (Hp t g v (reflexivity _)). specialize (Hg t g (reflexivity _)). simpl. lia.
Qed.
End follows_run.
