(* ===== verification/FlrSync.v ===== *)
(** * The reset of a VF on both GTs

    On a device with a media GT, [pf_process_vf] lets a reset finish on a GT only when GuC is
    done with it on all of them ([IOV_VF_NEEDS_FLR_DONE_SYNC]). *)

From S2P Require Export Flr.

Section sync.
Context `{E : Env} `{R : RelayEnv} (v : nat).

(** GuC was done on every GT; GuC so far kept to the protocol. *)
Definition done_everywhere (t : list vf_event) : Prop := forall g, (1 <= guc_done g v t)%nat.
#[local] Abbreviation guc_ok s := (guc_follows v (v_trace s)).
#[local] Abbreviation everywhere s := (done_everywhere (v_trace s)).

Record sync_inv (s : vf_state) : Prop := {
  si_range g : (v < length (v_data s g))%nat;
  si_asked g : guc_ok s -> (1 <= asked g v (v_trace s))%nat ->
    vf_bit s g v IOV_VF_NEEDS_FLR_DONE_SYNC = true \/ everywhere s;
  si_done g : vf_bit s g v IOV_VF_FLR_DONE_RECEIVED = true -> (1 <= guc_done g v (v_trace s))%nat;
  si_finish g : guc_ok s ->
    vf_bit s g v IOV_VF_NEEDS_FLR_FINISH = true \/ (1 <= finished g v (v_trace s))%nat -> everywhere s;
  si_started g : (1 <= started g v (v_trace s))%nat -> (1 <= asked g v (v_trace s))%nat;
  si_start g : vf_bit s g v IOV_VF_NEEDS_FLR_START = true -> (1 <= asked g v (v_trace s))%nat;
}.

(** What every action does to the others: the history grows and a GT stops waiting for the
    others only when all are done. *)
Record onward (s s' : vf_state) : Prop := {
  on_trace : v_trace s `prefix_of` v_trace s';
  on_sync g : guc_ok s' -> vf_bit s g v IOV_VF_NEEDS_FLR_DONE_SYNC = true ->
    vf_bit s' g v IOV_VF_NEEDS_FLR_DONE_SYNC = true \/ everywhere s';
}.

(** What the actions off the GTs in [P] do not do: start a reset there. *)
Definition apart (P : gt_id -> Prop) (s s' : vf_state) : Prop :=
  onward s s' /\ forall g, P g -> started g v (v_trace s') = started g v (v_trace s).

Lemma everywhere_mono t t' : t `prefix_of` t' -> done_everywhere t -> done_everywhere t'.
Proof. intros Ht Hd g. specialize (Hd g). pose proof (count_prefix (Notified g v GUC_PF_NOTIFY_VF_FLR_DONE) t t' Ht). unfold guc_done in *. lia. Qed.

#[export] Instance onward_preorder : PreOrder onward.
Proof.
  split; [constructor; auto|]. intros a b c [Ht1 Hs1] [Ht2 Hs2].
  constructor; [by etransitivity|]. intros g Hg Hb.
  destruct (Hs1 g ltac:(by eapply guc_follows_prefix) Hb) as [Hb'|He]; [by apply Hs2|].
  right. by eapply everywhere_mono.
Qed.
#[export] Instance apart_preorder P : PreOrder (apart P).
Proof.
  split; [intros s; by split|]. intros a b c [H1 H2] [H3 H4]. split; [by etransitivity|].
  intros g Hg. by rewrite H4, H2.
Qed.

(** ** Actions on VF [v] *)

(** When a bit of [v] may change. *)
Record allowed (g : gt_id) (b : Z) (x : bool) (s : vf_state) : Prop := {
  al_start : b = IOV_VF_NEEDS_FLR_START -> x = true -> (1 <= asked g v (v_trace s))%nat;
  al_done : b = IOV_VF_FLR_DONE_RECEIVED -> x = true -> (1 <= guc_done g v (v_trace s))%nat;
  al_finish : b = IOV_VF_NEEDS_FLR_FINISH -> x = true -> guc_ok s -> everywhere s;
  al_sync : b = IOV_VF_NEEDS_FLR_DONE_SYNC -> x = false -> guc_ok s -> everywhere s;
}.

(** A bit after a write: as before, or the one written. *)
Lemma put_cases g b x s g' b' :
  0 <= b -> 0 <= b' ->
  vf_bit (put_bit g v b x s) g' v b' = vf_bit s g' v b' \/
  g' = g /\ b' = b /\ vf_bit (put_bit g v b x s) g' v b' = x.
Proof.
  intros Hb Hb'. rewrite vf_bit_put by done. case_decide as Hn; [right|by left]. by destruct Hn as (->&_&->&_).
Qed.

Lemma sync_put g b x s :
  0 <= b -> sync_inv s -> allowed g b x s ->
  sync_inv (put_bit g v b x s) /\ apart (fun _ => True) s (put_bit g v b x s).
Proof.
  intros Hb Hs Ha. split; [constructor; intros g'|split; [constructor|]]; try done.
  - rewrite length_put. apply Hs.
  - change (v_trace (put_bit g v b x s)) with (v_trace s). intros Hg Has.
    destruct (put_cases g b x s g' IOV_VF_NEEDS_FLR_DONE_SYNC Hb ltac:(done)) as [->|(->&<-&->)]; [by apply Hs|].
    destruct x; [by left|right]. by apply (al_sync _ _ _ _ Ha).
  - change (v_trace (put_bit g v b x s)) with (v_trace s).
    destruct (put_cases g b x s g' IOV_VF_FLR_DONE_RECEIVED Hb ltac:(done)) as [->|(->&<-&->)]; [apply Hs|].
    intros ->. by apply (al_done _ _ _ _ Ha).
  - change (v_trace (put_bit g v b x s)) with (v_trace s). intros Hg.
    destruct (put_cases g b x s g' IOV_VF_NEEDS_FLR_FINISH Hb ltac:(done)) as [->|(->&<-&->)]; [by apply (si_finish _ Hs g')|].
    intros [->|Hf]; [by apply (al_finish _ _ _ _ Ha)|]. apply (si_finish _ Hs g Hg). by right.
  - apply (si_started _ Hs g').
  - change (v_trace (put_bit g v b x s)) with (v_trace s).
    destruct (put_cases g b x s g' IOV_VF_NEEDS_FLR_START Hb ltac:(done)) as [->|(->&<-&->)]; [apply Hs|].
    intros ->. by apply (al_start _ _ _ _ Ha).
  - intros g' Hg Hset. change (v_trace (put_bit g v b x s)) with (v_trace s).
    destruct (put_cases g b x s g' IOV_VF_NEEDS_FLR_DONE_SYNC Hb ltac:(done)) as [->|(->&<-&->)]; [by left|].
    destruct x; [by left|right]. by apply (al_sync _ _ _ _ Ha).
Qed.

(** When a step may enter the history. *)
Record may_happen (e : vf_event) (s : vf_state) : Prop := {
  mh_asked g : e = Asked g v -> guc_ok s -> vf_bit s g v IOV_VF_NEEDS_FLR_DONE_SYNC = true \/ everywhere s;
  mh_start g : e = Commanded g v GUC_PF_TRIGGER_VF_FLR_START 0 -> (1 <= asked g v (v_trace s))%nat;
  mh_finish g : e = Commanded g v GUC_PF_TRIGGER_VF_FLR_FINISH 0 -> guc_ok s -> everywhere s;
}.

Lemma sync_event e s :
  sync_inv s -> may_happen e s ->
  sync_inv (add_event e s) /\
  apart (fun g => e <> Commanded g v GUC_PF_TRIGGER_VF_FLR_START 0) s (add_event e s).
Proof.
  intros Hs Hm. assert (v_trace s `prefix_of` v_trace s ++ [e]) as Ht by apply prefix_app_r, reflexivity.
  assert (guc_follows v (v_trace s ++ [e]) -> guc_ok s) as Hg by (by apply guc_follows_prefix).
  split; [constructor; intros g'; rewrite ?add_event_bit; cbn [add_event v_trace v_data]|split; [constructor|]].
  - apply Hs.
  - intros Hgs%Hg Hn. assert (vf_bit s g' v IOV_VF_NEEDS_FLR_DONE_SYNC = true \/ everywhere s) as [?|?];
      [|by left|right; by eapply everywhere_mono].
    unfold asked in Hn. rewrite count_snoc in Hn.
    case_decide as He; [by apply (mh_asked _ _ Hm)|]. rewrite Nat.add_0_r in Hn. by apply (si_asked _ Hs).
  - intros Hd%(si_done _ Hs). unfold guc_done in *. rewrite count_snoc. lia.
  - intros Hgs%Hg Hn. assert (everywhere s) as He; [|by eapply everywhere_mono].
    unfold finished in Hn. rewrite count_snoc in Hn.
    case_decide as He; [by eapply (mh_finish _ _ Hm)|]. rewrite Nat.add_0_r in Hn. by apply (si_finish _ Hs g').
  - unfold started, asked in *. rewrite !count_snoc.
    case_decide as He; [intros _; pose proof (mh_start _ _ Hm g' He); unfold asked in *; lia|].
    rewrite Nat.add_0_r. intros Hn%(si_started _ Hs). unfold asked in *. lia.
  - intros Hb%(si_start _ Hs). unfold asked in *. rewrite count_snoc. lia.
  - exact Ht.
  - intros g _ Hb. by left.
  - intros g He. unfold started. cbn [add_event v_trace]. rewrite count_snoc, decide_False by done. lia.
Qed.
End sync.

(** ** Actions that do not concern the resets of [v] *)

Section foreign.
Context `{E : Env} `{R : RelayEnv} (v : nat).

Definition flr_bits : list Z :=
  [IOV_VF_NEEDS_FLR_START; IOV_VF_FLR_DONE_RECEIVED; IOV_VF_NEEDS_FLR_FINISH; IOV_VF_NEEDS_FLR_DONE_SYNC].
Definition flr_event (e : vf_event) : Prop :=
  exists g, e = Asked g v \/ e = Commanded g v GUC_PF_TRIGGER_VF_FLR_START 0 \/
    e = Notified g v GUC_PF_NOTIFY_VF_FLR_DONE \/ e = Commanded g v GUC_PF_TRIGGER_VF_FLR_FINISH 0.

Record unconcerned (s s' : vf_state) : Prop := {
  un_trace : v_trace s `prefix_of` v_trace s';
  un_count e : flr_event e -> count e (v_trace s') = count e (v_trace s);
  un_length g : length (v_data s' g) = length (v_data s g);
  un_bits g b : b ∈ flr_bits -> vf_bit s' g v b = vf_bit s g v b;
}.
#[export] Instance unconcerned_preorder : PreOrder unconcerned.
Proof.
  split; [by constructor|]. intros a b c [H1 H2 H3 H4] [H5 H6 H7 H8].
  constructor; [by etransitivity|..]; intros; [by rewrite H6, H2|by rewrite H7, H3|by rewrite H8, H4].
Qed.
Definition foreign (A : Type) (m : st vf_state A) : Prop := forall s, unconcerned s (snd (m s)).

Lemma unconcerned_step s s' :
  unconcerned s s' -> sync_inv v s -> sync_inv v s' /\ apart v (fun _ => True) s s'.
Proof.
  intros Hu Hs. pose proof (un_trace _ _ Hu) as Ht.
  assert (guc_follows v (v_trace s') -> guc_follows v (v_trace s)) as Hg by (by apply guc_follows_prefix).
  assert (forall g, asked g v (v_trace s') = asked g v (v_trace s)) as Ha
    by (intros g; apply (un_count _ _ Hu); exists g; tauto).
  assert (forall g, started g v (v_trace s') = started g v (v_trace s)) as Hst
    by (intros g; apply (un_count _ _ Hu); exists g; tauto).
  assert (forall g, guc_done g v (v_trace s') = guc_done g v (v_trace s)) as Hd
    by (intros g; apply (un_count _ _ Hu); exists g; tauto).
  assert (forall g, finished g v (v_trace s') = finished g v (v_trace s)) as Hf
    by (intros g; apply (un_count _ _ Hu); exists g; tauto).
  assert (done_everywhere v (v_trace s) -> done_everywhere v (v_trace s')) as He
    by (intros H g; rewrite Hd; apply H).
  split; [constructor; intros g|split; [constructor|]].
  - rewrite (un_length _ _ Hu). apply Hs.
  - rewrite Ha, (un_bits _ _ Hu) by set_solver. intros Hgs%Hg Hn. destruct (si_asked v s Hs g Hgs Hn); tauto.
  - rewrite Hd, (un_bits _ _ Hu) by set_solver. apply Hs.
  - rewrite Hf, (un_bits _ _ Hu) by set_solver. intros Hgs%Hg Hn. by apply He, (si_finish v s Hs g).
  - rewrite Ha, Hst. apply (si_started v s Hs g).
  - rewrite Ha, (un_bits _ _ Hu) by set_solver. apply Hs.
  - exact Ht.
  - intros g _ Hb. left. by rewrite (un_bits _ _ Hu) by set_solver.
  - intros g _. apply Hst.
Qed.

Lemma unconcerned_event e s : ~ flr_event e -> unconcerned s (add_event e s).
Proof.
  intros Hn. constructor; try done; [by apply prefix_app_r|].
  intros e' He'. cbn [add_event v_trace]. rewrite count_snoc. case_decide; [by subst|lia].
Qed.
Lemma unconcerned_put g v' b x s :
  0 <= b -> v' <> v \/ b ∉ flr_bits -> unconcerned s (put_bit g v' b x s).
Proof.
  intros Hb Hn. constructor; try done; [intros; apply length_put|].
  intros g' b' Hin. apply put_other; [done| |].
  - unfold flr_bits in Hin. rewrite !elem_of_cons in Hin. rewrite elem_of_nil in Hin. destruct_or?; subst; done.
  - intros (_ & <- & ->). tauto.
Qed.
Lemma unconcerned_upd g v' f s : (forall d, state (f d) = state d) -> unconcerned s (upd_data g v' f s).
Proof.
  intros Hf. constructor; try done; [|intros; by apply vf_bit_upd].
  intros g'. unfold upd_data, set_v_data. simpl. case_decide; [subst; apply length_alter|done].
Qed.

Lemma foreign_gets {A} (f : vf_state -> A) : foreign A (gets f).
Proof. done. Qed.
Lemma foreign_dev {A} (m : st dev A) : foreign A (on_v_dev m).
Proof. intros s. unfold on_v_dev. by destruct (m (v_dev s)). Qed.
Lemma foreign_queue g b : foreign unit (modify (set_v_worker g b)).
Proof. done. Qed.
Lemma foreign_upd g v' f : (forall d, state (f d) = state d) -> foreign unit (modify (upd_data g v' f)).
Proof. intros Hf s. by apply unconcerned_upd. Qed.
Lemma foreign_put g v' b x : 0 <= b -> v' <> v \/ b ∉ flr_bits -> foreign unit (modify (put_bit g v' b x)).
Proof. intros Hb Hn s. by apply unconcerned_put. Qed.
Lemma foreign_test_and_put g v' b x :
  0 <= b -> v' <> v \/ b ∉ flr_bits -> foreign bool (fun s => (vf_bit s g v' b, put_bit g v' b x s)).
Proof. intros Hb Hn s. by apply unconcerned_put. Qed.
Lemma foreign_put_event e g v' b x :
  0 <= b -> v' <> v -> ~ flr_event e -> foreign unit (modify (fun s => add_event e (put_bit g v' b x s))).
Proof.
  intros Hb Hn He s. etransitivity; [apply (unconcerned_put g v' b x); tauto|by apply unconcerned_event].
Qed.
Lemma foreign_pause_done g v' :
  foreign unit (modify (fun s => add_event (Notified g v' GUC_PF_NOTIFY_VF_PAUSE_DONE) (upd_data g v' (with_paused true) s))).
Proof.
  intros s. etransitivity; [by apply (unconcerned_upd g v' (with_paused true))|]. apply unconcerned_event.
  intros [g0 Hg]. destruct_or?; simplify_eq.
Qed.
Lemma foreign_command g v' cmd :
  v' <> v \/ (cmd <> GUC_PF_TRIGGER_VF_FLR_START /\ cmd <> GUC_PF_TRIGGER_VF_FLR_FINISH) ->
  foreign Z (guc_action_vf_control_cmd g v' cmd).
Proof.
  intros Hn s. unfold guc_action_vf_control_cmd, on_v_dev, intel_guc_send, modify, mbind, st_bind. cbn.
  set (s1 := set_v_dev _ s). transitivity s1; [done|]. apply unconcerned_event.
  intros [g0 Hg]. destruct_or?; simplify_eq; tauto.
Qed.
End foreign.

Create HintDb foreign.
#[export] Hint Resolve all_acts_ret all_acts_atom foreign_gets foreign_dev foreign_queue foreign_pause_done : foreign.
#[export] Hint Extern 1 (_ ∉ flr_bits) =>
  unfold flr_bits; rewrite !not_elem_of_cons; split_and?; try done; apply not_elem_of_nil : foreign.
#[export] Hint Extern 1 (~ flr_event _ _) => intros [? ?]; destruct_or?; simplify_eq : foreign.
#[export] Hint Extern 1 (_ <> GUC_PF_TRIGGER_VF_FLR_START /\ _) => by split : foreign.
#[export] Hint Extern 1 (foreign _ _ (modify (put_bit _ _ _ _))) => apply foreign_put; [done|auto with foreign] : foreign.
#[export] Hint Extern 1 (foreign _ _ (fun _ => (_, put_bit _ _ _ _ _))) =>
  apply foreign_test_and_put; [done|auto with foreign] : foreign.
#[export] Hint Extern 1 (foreign _ _ (modify (fun _ => add_event _ (put_bit _ _ _ _ _)))) =>
  apply foreign_put_event; [done|done|auto with foreign] : foreign.
#[export] Hint Extern 1 (foreign _ _ (modify (upd_data _ _ _))) => apply foreign_upd; done : foreign.
#[export] Hint Extern 1 (foreign _ _ (modify (put_event _ _ _ _))) => apply foreign_upd; done : foreign.
#[export] Hint Extern 1 (foreign _ _ (guc_action_vf_control_cmd _ _ _)) => apply foreign_command; auto with foreign : foreign.
#[export] Hint Unfold test_bit set_bit clear_bit test_and_set_bit test_and_clear_bit get_paused put_paused pf_queue_worker
  pf_control_vf pf_vf_flr_done_received pf_vf_flr_needs_sync pf_vf_flr_in_progress pf_trigger_vf_flr_start
  pf_trigger_vf_flr_finish pf_process_vf_flr_finish intel_iov_event_reset flr_failed : foreign.
Ltac walk_foreign :=
  repeat first [ apply all_acts_bind; intros | apply all_acts_if | apply all_acts_each; intros
               | apply all_acts_any; intros | progress autounfold with foreign | progress auto 4 with foreign
               | case_match ].

Section others.
Context `{E : Env} `{R : RelayEnv} (v : nat).

Lemma wait_for_paused_foreign polls g v' : all_acts (foreign v) (wait_for_paused polls g v').
Proof. induction polls as [|polls IH]; cbn [wait_for_paused]; walk_foreign. Qed.

(** The worker on another VF. *)
Lemma process_vf_foreign g v' : v' <> v -> all_acts (foreign v) (pf_process_vf g v').
Proof. intros Hne. unfold pf_process_vf, process_flr_start, process_flr_tail, process_flr_finish. walk_foreign. Qed.

Lemma init_vf_flr_foreign g v' : v' <> v -> all_acts (foreign v) (pf_init_vf_flr g v').
Proof. intros Hne. unfold pf_init_vf_flr. walk_foreign. Qed.

(** The calls that are not about resets. *)
Lemma pause_foreign g v' : all_acts (foreign v) (intel_iov_state_pause_vf g v').
Proof. unfold intel_iov_state_pause_vf, intel_iov_state_no_flr, intel_iov_state_no_pause. walk_foreign. Qed.
Lemma pause_sync_foreign polls g v' inferred : all_acts (foreign v) (intel_iov_state_pause_vf_sync polls g v' inferred).
Proof.
  pose proof pause_foreign. pose proof wait_for_paused_foreign.
  unfold intel_iov_state_pause_vf_sync, intel_iov_state_no_pause. walk_foreign.
Qed.
Lemma adverse_event_foreign g msg : all_acts (foreign v) (intel_iov_event_process_guc2pf g msg).
Proof. unfold intel_iov_event_process_guc2pf, pf_handle_vf_threshold_event, pf_update_event_counter. walk_foreign. Qed.
End others.

(** ** The worker on [v] *)

Section worker.
Context `{E : Env} `{R : RelayEnv} (v : nat) (g : gt_id).

#[local] Abbreviation rely := (apart v (fun g' => g' = g)).
#[local] Abbreviation guarantee := (apart v (fun g' => g' <> g)).
#[local] Abbreviation safe_w := (safe (sync_inv v) rely guarantee).
#[local] Abbreviation guc_ok s := (guc_follows v (v_trace s)).

(** What the worker knows at its places: the reset was asked for; if it has started, GuC was
    done everywhere; GuC was done everywhere; GuC was done on [g']. *)
Definition knows_asked (s : vf_state) : Prop := (1 <= asked g v (v_trace s))%nat.
Definition knows_synced (s : vf_state) : Prop :=
  guc_ok s -> started g v (v_trace s) = 0%nat \/ done_everywhere v (v_trace s).
Definition knows_done (s : vf_state) : Prop := guc_ok s -> done_everywhere v (v_trace s).
Definition knows_done_on (g' : gt_id) (s : vf_state) : Prop := (1 <= guc_done g' v (v_trace s))%nat.

Definition stable (L : vf_state -> Prop) : Prop := forall s s', onward v s s' ->
  started g v (v_trace s') = started g v (v_trace s) -> L s -> L s'.

Lemma stable_true : stable (fun _ => True).
Proof. done. Qed.
Lemma stable_and L1 L2 : stable L1 -> stable L2 -> stable (fun s => L1 s /\ L2 s).
Proof. intros H1 H2 s s' Hs Hst [? ?]. split; [by eapply H1|by eapply H2]. Qed.
Lemma stable_asked : stable knows_asked.
Proof. intros s s' [Ht _] _. unfold knows_asked, asked. pose proof (count_prefix (Asked g v) _ _ Ht). lia. Qed.
Lemma stable_synced : stable knows_synced.
Proof.
  intros s s' [Ht _] Hst Hk Hg. unfold knows_synced in *. rewrite Hst.
  destruct Hk as [?|?]; [by eapply guc_follows_prefix|by left|right; by eapply everywhere_mono].
Qed.
Lemma stable_done : stable knows_done.
Proof. intros s s' [Ht _] _ Hk Hg. eapply everywhere_mono; [exact Ht|]. apply Hk. by eapply guc_follows_prefix. Qed.
Lemma stable_done_on g' : stable (knows_done_on g').
Proof.
  intros s s' [Ht _] _. unfold knows_done_on, guc_done.
  pose proof (count_prefix (Notified g' v GUC_PF_NOTIFY_VF_FLR_DONE) _ _ Ht). lia.
Qed.

(** An action that concerns the resets of [v]. *)
Lemma safe_concerned {A B} (m : st vf_state A) (k : A -> prog vf_state B) (L : vf_state -> Prop) (L' : A -> vf_state -> Prop) Q s :
  stable L -> L s ->
  (forall s', sync_inv v s' -> L s' ->
     wp m (fun a s'' => (sync_inv v s'' /\ guarantee s' s'') /\ L' a s'') s') ->
  (forall a s', sync_inv v s' -> L' a s' -> safe_w (k a) Q s') ->
  safe_w (atom m ≫= k) Q s.
Proof.
  intros HL HLs Hm Hk. apply safe_act. intros s' [HR Hst] HI. unfold wp in *.
  destruct (Hm s' HI ltac:(by eapply HL; [..|exact HLs]; [exact HR|apply Hst])) as [[HI' HG] HL'].
  split_and!; [exact HG|done|by apply Hk].
Qed.

(** A part of the program that does not concern them. *)
Lemma safe_foreign {A} (p : prog vf_state A) (L : vf_state -> Prop) s :
  stable L -> all_acts (foreign v) p -> L s -> safe_w p (fun _ => L) s.
Proof.
  intros HL Hp. apply safe_all_acts with (P := foreign v); [apply _| | |exact Hp].
  - intros A' m s0 Hm HI HLs. destruct (unconcerned_step v _ _ (Hm s0) HI) as [HI' [Ho Hst]]. simpl.
    split_and!; [split; [exact Ho|intros; by apply Hst]|exact HI'|]. eapply HL; [exact Ho|by apply Hst|done].
  - intros s0 s1 [Ho Hst]. apply HL; [done|by apply Hst].
Qed.
Lemma safe_foreign_then {A B} (p : prog vf_state A) (L : vf_state -> Prop) (k : A -> prog vf_state B) Q s :
  stable L -> all_acts (foreign v) p -> sync_inv v s -> L s ->
  (forall a s', sync_inv v s' -> L s' -> safe_w (k a) Q s') -> safe_w (p ≫= k) Q s.
Proof.
  intros HL Hp HI HLs Hk. apply safe_then with (L := fun _ => L); [apply _|by apply safe_foreign|exact Hk|done].
Qed.
Lemma safe_foreign_end {A} (p : prog vf_state A) s :
  all_acts (foreign v) p -> safe_w p (fun _ _ => True) s.
Proof. intros Hp. apply (safe_foreign p (fun _ => True)); [apply stable_true|done|done]. Qed.

(** The two kinds of concerned actions. *)
Lemma wp_put_bit b x (L' : unit -> vf_state -> Prop) s :
  0 <= b -> sync_inv v s -> allowed v g b x s -> L' tt (put_bit g v b x s) ->
  wp (modify (put_bit g v b x)) (fun a s'' => (sync_inv v s'' /\ guarantee s s'') /\ L' a s'') s.
Proof.
  intros Hb HI Ha HL. apply wp_modify. destruct (sync_put v g b x s Hb HI Ha) as [HI' [Ho Hst]].
  split; [split; [done|]|done]. split; [exact Ho|]. intros; by apply Hst.
Qed.
Lemma wp_test_and_clear b (L' : bool -> vf_state -> Prop) s :
  0 <= b -> b <> IOV_VF_NEEDS_FLR_DONE_SYNC -> sync_inv v s ->
  L' (vf_bit s g v b) (put_bit g v b false s) ->
  wp (fun s => (vf_bit s g v b, put_bit g v b false s))
    (fun a s'' => (sync_inv v s'' /\ guarantee s s'') /\ L' a s'') s.
Proof.
  intros Hb Hne HI HL. unfold wp. simpl.
  destruct (sync_put v g b false s Hb HI ltac:(by constructor)) as [HI' [Ho Hst]].
  split; [split; [done|]|done]. split; [exact Ho|]. intros; by apply Hst.
Qed.
Lemma wp_command cmd (L' : Z -> vf_state -> Prop) s :
  sync_inv v s ->
  (cmd = GUC_PF_TRIGGER_VF_FLR_START -> knows_asked s) ->
  (cmd = GUC_PF_TRIGGER_VF_FLR_FINISH -> knows_done s) ->
  (forall ret s', v_trace s `prefix_of` v_trace s' -> L' ret s') ->
  wp (guc_action_vf_control_cmd g v cmd) (fun a s'' => (sync_inv v s'' /\ guarantee s s'') /\ L' a s'') s.
Proof.
  intros HI Hs Hf HL. unfold guc_action_vf_control_cmd, on_v_dev, intel_guc_send, wp, modify, mbind, st_bind. cbn.
  set (ret := guc_reply _ _). set (s1 := set_v_dev _ s).
  assert (sync_inv v s1 /\ apart v (fun _ => True) s s1) as [HI1 [Ho1 Hst1]].
  { apply unconcerned_step; [by constructor|done]. }
  destruct (sync_event v (Commanded g v cmd ret) s1 HI1) as [HI' [Ho Hst]].
  { constructor; [done| |]; intros g' Heq; injection Heq as <- Hc _; [exact (Hs Hc)|exact (Hf Hc)]. }
  split; [split; [done|]|]; [split; [by etransitivity|]|apply HL; by apply prefix_app_r].
  intros g' Hne. rewrite Hst; [by apply Hst1|congruence].
Qed.

Lemma flr_start_sync s : sync_inv v s -> knows_asked s -> safe_w (process_flr_start g v) (fun _ _ => True) s.
Proof.
  intros HI Hk. unfold process_flr_start.
  eapply (safe_concerned _ _ knows_asked (fun _ => knows_asked)); [apply stable_asked|exact Hk| |].
  { intros s' HI' Hk'. apply wp_command; [done|done|done|]. intros ret s'' Ht. unfold knows_asked, asked in *.
    pose proof (count_prefix (Asked g v) _ _ Ht). lia. }
  intros err s1 HI1 Hk1. destruct (err =? - EBUSY).
  - eapply (safe_concerned _ _ knows_asked (fun _ _ => True)); [apply stable_asked|exact Hk1| |by intros].
    intros s' HI' Hk'. by apply wp_put_bit; [| |constructor|].
  - apply safe_foreign_end. walk_foreign.
Qed.

Lemma flr_finish_sync s : sync_inv v s -> knows_done s -> safe_w (process_flr_finish g v) (fun _ _ => True) s.
Proof.
  intros HI Hk. unfold process_flr_finish.
  apply safe_then with (L := fun _ => knows_done); [apply _| | |done].
  - unfold pf_process_vf_flr_finish.
    eapply (safe_foreign_then _ knows_done); [apply stable_done|walk_foreign|done|done|]. intros _ s1 HI1 Hk1.
    eapply (safe_foreign_then _ knows_done); [apply stable_done|walk_foreign|done|done|]. intros _ s2 HI2 Hk2.
    change (pf_trigger_vf_flr_finish g v)
      with (atom (guc_action_vf_control_cmd g v GUC_PF_TRIGGER_VF_FLR_FINISH) ≫= mret).
    eapply (safe_concerned _ _ knows_done (fun _ => knows_done)); [apply stable_done|exact Hk2| |].
    + intros s' HI' Hk'. apply wp_command; [done|done|done|]. intros ret s'' Ht Hg.
      eapply everywhere_mono; [exact Ht|]. apply Hk'. by eapply guc_follows_prefix.
    + intros err s3 HI3 Hk3 s4 [Ho Hst] HI4. eapply stable_done; [exact Ho|by apply Hst|done].
  - intros err s1 HI1 Hk1. destruct (err =? - EBUSY).
    + eapply (safe_concerned _ _ knows_done (fun _ _ => True)); [apply stable_done|exact Hk1| |by intros].
      intros s' HI' Hk'. by apply wp_put_bit; [| |constructor|].
    + apply safe_foreign_end. walk_foreign.
Qed.

(** The look at all GTs before a GT stops waiting for the others. *)
Lemma all_received_sync l : forall (L : vf_state -> Prop) s, stable L -> L s -> sync_inv v s ->
  safe_w (any l (fun g' => received ← pf_vf_flr_done_received g' v; mret (negb received)))
    (fun missing s => L s /\ (missing = false -> forall g', g' ∈ l -> knows_done_on g' s)) s.
Proof.
  induction l as [|g' l IH]; intros L s HL HLs HI.
  { intros s' [Ho Hst] HI'. split; [by eapply HL; [..|exact HLs]; [|apply Hst]|]. intros _ g' Hg. by apply elem_of_nil in Hg. }
  change (safe_w (atom (gets (fun s => vf_bit s g' v IOV_VF_FLR_DONE_RECEIVED)) ≫= fun received =>
    if negb received then mret true else
    any l (fun g' => received ← pf_vf_flr_done_received g' v; mret (negb received)))
    (fun missing s => L s /\ (missing = false -> forall g0, g0 ∈ g' :: l -> knows_done_on g0 s)) s).
  eapply (safe_concerned _ _ L (fun a s => L s /\ (a = true -> knows_done_on g' s))); [done|done| |].
  { intros s' HI' HL'. apply wp_gets. split; [split; [done|reflexivity]|]. split; [done|].
    apply (si_done v s' HI'). }
  intros [] s1 HI1 [HL1 Hk]; cbn [negb].
  - eapply safe_mono; [apply (IH (fun s => L s /\ knows_done_on g' s) s1)|].
    + apply stable_and; [done|apply stable_done_on].
    + split; [done|by apply Hk].
    + done.
    + intros missing s2 [[HL2 Hk2] Hall]. split; [done|]. intros Hm g0 [->|Hg0]%elem_of_cons; [done|by apply Hall].
  - intros s2 [Ho Hst] _. split; [by eapply HL; [..|exact HL1]; [|apply Hst]|done].
Qed.

Lemma wait_sync_sync s : has_media_gt = true -> sync_inv v s ->
  safe_w (missing ← any all_gts (fun g' => received ← pf_vf_flr_done_received g' v; mret (negb received));
    if missing : bool then mret true else
    clear_bit IOV_VF_NEEDS_FLR_DONE_SYNC g v ≫= fun _ => mret true) (fun _ _ => True) s.
Proof.
  intros Hmedia HI. eapply safe_then; [apply _|apply (all_received_sync _ (fun _ => True)); [apply stable_true|done|done]| |done].
  intros [] s1 HI1 [_ Hall]; [done|].
  assert (knows_done s1) as Hk1.
  { intros _ g'. apply Hall; [done|]. unfold all_gts. rewrite Hmedia. destruct g'; set_solver. }
  eapply (safe_concerned _ _ knows_done (fun _ _ => True)); [apply stable_done|exact Hk1| |done].
  intros s' HI' Hk'. by apply wp_put_bit; [| |constructor|].
Qed.

Lemma process_flr_tail_sync s : sync_inv v s -> knows_synced s -> safe_w (process_flr_tail g v) (fun _ _ => True) s.
Proof.
  intros HI Hk. unfold process_flr_tail.
  eapply (safe_concerned _ _ knows_synced (fun a s => a = true -> knows_done s)); [apply stable_synced|exact Hk| |].
  { intros s' HI' Hk'. apply wp_test_and_clear; [done|done|done|]. intros Hb Hg.
    apply (si_done v s' HI') in Hb. destruct (Hk' Hg) as [H0|He]; [|exact He].
    specialize (Hg _ g (reflexivity _)). change (v_trace (put_bit _ _ _ _ s')) with (v_trace s') in Hg. lia. }
  intros [] s1 HI1 H1.
  { eapply (safe_concerned _ _ knows_done (fun _ _ => True)); [apply stable_done|by apply H1| |done].
    intros s' HI' Hk'. by apply wp_put_bit; [| |constructor|]. }
  eapply (safe_concerned _ _ (fun _ => True) (fun a s => a = true -> knows_done s)); [apply stable_true|done| |].
  { intros s' HI' _. apply wp_test_and_clear; [done|done|done|]. intros Hb Hg.
    apply (si_finish v s' HI' g Hg). by left. }
  intros [] s2 HI2 H2; [apply flr_finish_sync; [done|by apply H2]|]. apply safe_foreign_end. walk_foreign.
Qed.

Lemma process_vf_sync s : has_media_gt = true -> sync_inv v s -> safe_w (pf_process_vf g v) (fun _ _ => True) s.
Proof.
  intros Hmedia HI. unfold pf_process_vf.
  eapply (safe_concerned _ _ (fun _ => True) (fun a s => a = true -> knows_asked s)); [apply stable_true|done| |].
  { intros s' HI' _. apply wp_test_and_clear; [done|done|done|]. apply (si_start v s' HI'). }
  intros [] s1 HI1 H1; [apply flr_start_sync; [done|by apply H1]|].
  eapply (safe_concerned _ _ (fun _ => True) (fun a s => a = false -> knows_synced s)); [apply stable_true|done| |].
  { intros s' HI' _. apply wp_gets. split; [split; [done|reflexivity]|]. intros Hb Hg.
    destruct (decide (1 <= started g v (v_trace s'))%nat) as [Hs|Hs]; [right|left; lia].
    apply (si_started v s' HI') in Hs. destruct (si_asked v s' HI' g Hg Hs) as [?|?]; [congruence|done]. }
  intros [] s2 HI2 H2; [by apply wait_sync_sync|].
  eapply (safe_foreign_then _ knows_synced); [apply stable_synced|walk_foreign|done|by apply H2|]. intros received s3 HI3 H3.
  eapply (safe_foreign_then _ knows_synced); [apply stable_synced|destruct received; walk_foreign|done|done|].
  intros blocked s4 HI4 H4. destruct blocked; [done|]. by apply process_flr_tail_sync.
Qed.

Lemma process_vfs_sync ns : has_media_gt = true ->
  forall more s, sync_inv v s -> safe_w (process_vfs g ns more) (fun _ _ => True) s.
Proof.
  intros Hmedia. induction ns as [|n ns IH]; intros more s HI; [done|]. cbn [process_vfs].
  apply safe_seq; [apply _| |intros; by apply IH|done].
  destruct (decide (n = v)) as [->|Hne]; [by apply process_vf_sync|].
  by apply safe_foreign_end, process_vf_foreign.
Qed.
Lemma worker_sync s : has_media_gt = true -> sync_inv v s -> safe_w (pf_state_worker_func g) (fun _ _ => True) s.
Proof.
  intros Hmedia HI. unfold pf_state_worker_func, pf_process_all_vfs.
  apply safe_seq; [apply _|apply safe_foreign_end; walk_foreign| |done]. intros n s1 HI1.
  apply safe_seq; [apply _|by apply process_vfs_sync| |done]. intros more s2 HI2.
  apply safe_foreign_end. walk_foreign.
Qed.
End worker.

(** ** The other threads on [v] *)

Section thread.
Context `{E : Env} `{R : RelayEnv} (v : nat).

#[local] Abbreviation safe_t := (safe (sync_inv v) (onward v) (apart v (fun _ => True))).

Lemma thread_foreign {A} (p : prog vf_state A) (L : vf_state -> Prop) s :
  (forall s s', onward v s s' -> L s -> L s') -> all_acts (foreign v) p -> L s -> safe_t p (fun _ => L) s.
Proof.
  intros HL Hp. apply safe_all_acts with (P := foreign v); [apply _| |exact HL|exact Hp].
  intros A' m s0 Hm HI HLs. destruct (unconcerned_step v _ _ (Hm s0) HI) as [HI' [Ho Hst]]. simpl.
  split_and!; [split; [exact Ho|exact Hst]|exact HI'|]. by eapply HL.
Qed.
Lemma thread_foreign_end {A} (p : prog vf_state A) s : all_acts (foreign v) p -> safe_t p (fun _ _ => True) s.
Proof. intros Hp. by apply (thread_foreign p (fun _ => True)). Qed.
Lemma thread_foreign_seq {A B} (p : prog vf_state A) (k : A -> prog vf_state B) s :
  all_acts (foreign v) p -> (forall a s, sync_inv v s -> safe_t (k a) (fun _ _ => True) s) ->
  sync_inv v s -> safe_t (p ≫= k) (fun _ _ => True) s.
Proof. intros Hp Hk HI. apply safe_seq; [apply _|by apply thread_foreign_end|exact Hk|done]. Qed.

(** The GT waits for the others, or all are done. *)
Definition waits (g : gt_id) (s : vf_state) : Prop :=
  guc_follows v (v_trace s) -> vf_bit s g v IOV_VF_NEEDS_FLR_DONE_SYNC = true \/ done_everywhere v (v_trace s).
Lemma waits_stable g s s' : onward v s s' -> waits g s -> waits g s'.
Proof.
  intros [Ht Hs] Hw Hg. destruct Hw as [Hb|He]; [by eapply guc_follows_prefix|by apply Hs|].
  right. by eapply everywhere_mono.
Qed.

Lemma init_vf_flr_sync g s : has_media_gt = true -> sync_inv v s -> safe_t (pf_init_vf_flr g v) (fun _ _ => True) s.
Proof.
  intros Hmedia HI. unfold pf_init_vf_flr. rewrite Hmedia.
  apply thread_foreign_seq; [walk_foreign| |done]. intros _ s1 HI1.
  apply safe_then with (L := fun _ => waits g); [apply _| | |done].
  { intros s' HR HI'. cbn. destruct (sync_put v g IOV_VF_NEEDS_FLR_DONE_SYNC true s' ltac:(done) HI' ltac:(by constructor)) as [HI'' HG].
    split_and!; [exact HG|exact HI''|]. intros s2 HR2 _. eapply waits_stable; [exact HR2|]. intros _. left.
    rewrite vf_bit_put, decide_True by (done || by split_and!; try done; apply (si_range v s' HI')). done. }
  intros _ s2 HI2 Hw. apply safe_act. intros s' HR HI'. apply wp_modify.
  apply (waits_stable g _ _ HR) in Hw.
  destruct (sync_event v (Asked g v) s' HI') as [HI3 HG3].
  { constructor; [|done|done]. intros g' [= ->]. exact Hw. }
  destruct (sync_put v g IOV_VF_NEEDS_FLR_START true (add_event (Asked g v) s') ltac:(done) HI3) as [HI4 HG4].
  { constructor; [|done|done|done]. intros _ _. unfold asked. cbn [add_event v_trace]. rewrite count_snoc, decide_True by done. lia. }
  split_and!; [|exact HI4|apply thread_foreign_end; walk_foreign].
  etransitivity; [|exact HG4]. destruct HG3 as [Ho Hst]. split; [exact Ho|]. intros g' _. by apply Hst.
Qed.

Lemma flr_done_sync g s : sync_inv v s -> safe_t (pf_handle_vf_flr_done g v) (fun _ _ => True) s.
Proof.
  intros HI. unfold pf_handle_vf_flr_done. apply safe_act. intros s' HR HI'. apply wp_modify.
  destruct (sync_event v (Notified g v GUC_PF_NOTIFY_VF_FLR_DONE) s' HI' ltac:(by constructor)) as [HI3 HG3].
  destruct (sync_put v g IOV_VF_FLR_DONE_RECEIVED true (add_event (Notified g v GUC_PF_NOTIFY_VF_FLR_DONE) s')
    ltac:(done) HI3) as [HI4 HG4].
  { constructor; [done| |done|done]. intros _ _. unfold guc_done. cbn [add_event v_trace]. rewrite count_snoc, decide_True by done. lia. }
  split_and!; [|exact HI4|apply thread_foreign_end; walk_foreign].
  etransitivity; [|exact HG4]. destruct HG3 as [Ho Hst]. split; [exact Ho|]. intros g' _. by apply Hst.
Qed.

Lemma handle_vf_flr_sync g v' s : has_media_gt = true -> sync_inv v s -> safe_t (pf_handle_vf_flr g v') (fun _ _ => True) s.
Proof.
  intros Hmedia HI. unfold pf_handle_vf_flr. destruct (iov_is_root g); [|done]. cbn [negb].
  apply thread_foreign_seq; [walk_foreign| |done]. intros [] s1 HI1; [done|].
  apply thread_foreign_seq; [walk_foreign| |done]. intros _ s2 HI2.
  apply safe_each; [apply _| |done]. intros g' s3 HI3.
  destruct (decide (v' = v)) as [->|Hne]; [by apply init_vf_flr_sync|].
  by apply thread_foreign_end, init_vf_flr_foreign.
Qed.

Lemma thread_sync c s : has_media_gt = true -> sync_inv v s -> safe_t (program c) (fun _ _ => True) s.
Proof.
  intros Hmedia HI. destruct c as [g msg|g msg|g v'|g v'|polls g v' inferred|g v'|g v']; cbn [program].
  2, 4, 5, 6, 7: apply thread_foreign_end.
  2: { apply all_acts_bind; [apply adverse_event_foreign|done]. }
  2: { apply all_acts_bind; [apply pause_foreign|done]. }
  2: { apply all_acts_bind; [apply pause_sync_foreign|done]. }
  2, 3: unfold intel_iov_state_resume_vf, intel_iov_state_stop_vf; walk_foreign.
  - apply safe_seq; [apply _| |done|done]. unfold intel_iov_state_process_guc2pf.
    do 3 (case_match; [done|]). cbn zeta. set (vfid := Z.to_nat _).
    apply thread_foreign_seq; [walk_foreign| |done]. intros total s1 HI1. case_match; [done|].
    case_match; [|apply thread_foreign_end; unfold pf_handle_pf_event; walk_foreign].
    unfold pf_handle_vf_event. case_match.
    { apply safe_seq; [apply _|by apply handle_vf_flr_sync|done|done]. }
    case_match; [|apply thread_foreign_end; unfold pf_handle_vf_pause_done; walk_foreign].
    apply safe_seq; [apply _| |done|done].
    destruct (decide (vfid = v)) as [->|Hne]; [by apply flr_done_sync|].
    apply thread_foreign_end. unfold pf_handle_vf_flr_done. walk_foreign.
  - unfold intel_iov_state_start_flr. destruct (decide (v' = v)) as [->|Hne]; [by apply init_vf_flr_sync|].
    by apply thread_foreign_end, init_vf_flr_foreign.
Qed.

(** C31: on a device with two GTs a reset finishes on neither before GuC is done with it on both.
    From a state in which no reset of VF [v] is under way, whatever the threads and however
    their accesses interleave: when PF has had GuC finish the reset on some GT, GuC has
    notified PF on every GT that it is done, provided that it is never done with a reset that
    it did not accept to start. *)
Theorem flr_sync x y g :
  has_media_gt = true -> sys_idle x -> no_flr_bits v (sys_state x) ->
  (forall g, (v < length (v_data (sys_state x) g))%nat) -> sys_run x y ->
  let t := v_trace (sys_state y) in
  guc_follows v t -> (1 <= finished g v t)%nat -> done_everywhere v t.
Proof.
  intros Hmedia Hidle Hbits Hlen Hrun t Hg Hf.
  assert (sync_inv v (sys_state y)) as HI; [|apply (si_finish v _ HI g Hg); by right].
  apply (sys_run_invariant (sync_inv v) (fun g => apart v (fun g' => g' = g)) (fun g => apart v (fun g' => g' <> g))
    (onward v) (apart v (fun _ => True))) with (x := x); try done.
  - intros g1 g2 s s' Hne [Ho Hst]. split; [exact Ho|]. intros g' ->. apply Hst. congruence.
  - intros g1 s s' [Ho _]. exact Ho.
  - intros g1 s s' [Ho Hst]. split; [exact Ho|]. intros g' _. by apply Hst.
  - intros s s' [Ho _]. exact Ho.
  - intros g1 s HI. by apply worker_sync.
  - intros c s HI. by apply thread_sync.
  - intros g1 s HI.
    destruct (unconcerned_step v s (set_v_worker g1 false s) (foreign_queue v g1 false s) HI) as [HI' [Ho Hst]].
    split_and!; [done| |done]. intros g2. split; [exact Ho|]. intros g' _. by apply Hst.
  - destruct Hidle as (_ & _ & Ht). constructor; intros g'; rewrite ?Ht, ?Hbits by set_solver; try done.
    + intros _ Hn. by apply Nat.nle_succ_0 in Hn.
    + intros _ [?|Hn]; [done|]. by apply Nat.nle_succ_0 in Hn.
Qed.
End thread.
