(* ===== verification/FlrWork.v ===== *)
(** * The worker of the reset protocol as a state machine

    Without interruption, what [pf_process_vf] does to a VF is a function of five bits per GT
    and of GuC's reply. The machine is finite, so its progress is settled by computation. *)

From S2P Require Export Flr GgttProv.

(** ** The machine *)

Record fbits := { b_progress : bool; b_start : bool; b_done : bool; b_finish : bool; b_sync : bool }.

Definition no_fbits : fbits := {| b_progress := false; b_start := false; b_done := false; b_finish := false; b_sync := false |}.

(** What GuC replied to a command: accepted, busy, or neither. *)
Inductive reply := Accepted | Busy | Refused.
Definition reply_of (ret : Z) : reply :=
  if ret =? 0 then Accepted else if ret =? - EBUSY then Busy else Refused.

(** The bits after a command that failed: the reset is given up. *)
Definition end_progress (m : fbits) : fbits :=
  {| b_progress := false; b_start := b_start m; b_done := b_done m; b_finish := b_finish m; b_sync := b_sync m |}.

(** One call of [pf_process_vf] on the GT with the bits [m]: whether more processing is needed,
    the new bits and the command sent. [root] is whether it is the root GT, [all] the bits of
    all GTs and [rest] those of the GTs that are not the root. First its last three [if]s. *)
Definition machine_tail (root : bool) (m : fbits) (rest : list fbits) (r : reply) : bool * fbits * option Z :=
  if b_done m then
    (true, {| b_progress := b_progress m; b_start := b_start m; b_done := false; b_finish := true; b_sync := b_sync m |}, None)
  else if b_finish m then
    let m' := {| b_progress := b_progress m; b_start := b_start m; b_done := false; b_finish := false; b_sync := b_sync m |} in
    let cmd := Some GUC_PF_TRIGGER_VF_FLR_FINISH in
    match r with Accepted => (true, m', cmd) | Busy => (true, m, cmd) | Refused => (false, end_progress m', cmd) end
  else if b_progress m then
    if root && existsb b_progress rest then (true, m, None) else (false, end_progress m, None)
  else (false, m, None).

Definition machine (root : bool) (m : fbits) (all rest : list fbits) (r : reply) : bool * fbits * option Z :=
  if b_start m then
    let m' := {| b_progress := b_progress m; b_start := false; b_done := b_done m; b_finish := b_finish m; b_sync := b_sync m |} in
    let cmd := Some GUC_PF_TRIGGER_VF_FLR_START in
    match r with Accepted => (true, m', cmd) | Busy => (true, m, cmd) | Refused => (false, end_progress m', cmd) end
  else if b_sync m then
    if forallb b_done all
    then (true, {| b_progress := b_progress m; b_start := false; b_done := b_done m; b_finish := b_finish m; b_sync := false |}, None)
    else (true, m, None)
  else if b_done m && existsb b_sync all then (true, m, None)
  else machine_tail root m rest r.

Section view.
Context `{E : Env} `{R : RelayEnv}.

Definition view (s : vf_state) (g : gt_id) (v : nat) : fbits :=
  {| b_progress := vf_bit s g v IOV_VF_FLR_IN_PROGRESS; b_start := vf_bit s g v IOV_VF_NEEDS_FLR_START;
     b_done := vf_bit s g v IOV_VF_FLR_DONE_RECEIVED; b_finish := vf_bit s g v IOV_VF_NEEDS_FLR_FINISH;
     b_sync := vf_bit s g v IOV_VF_NEEDS_FLR_DONE_SYNC |}.

(** A write of one of the five bits, and of another. *)
Definition put_fbit (b : Z) (x : bool) (m : fbits) : fbits :=
  {| b_progress := if b =? IOV_VF_FLR_IN_PROGRESS then x else b_progress m;
     b_start := if b =? IOV_VF_NEEDS_FLR_START then x else b_start m;
     b_done := if b =? IOV_VF_FLR_DONE_RECEIVED then x else b_done m;
     b_finish := if b =? IOV_VF_NEEDS_FLR_FINISH then x else b_finish m;
     b_sync := if b =? IOV_VF_NEEDS_FLR_DONE_SYNC then x else b_sync m |}.

Lemma view_put g v b x s g' v' :
  0 <= b ->
  view (put_bit g v b x s) g' v' =
    if decide (g' = g /\ v' = v /\ (v < length (v_data s g))%nat) then put_fbit b x (view s g v) else view s g' v'.
Proof.
  intros Hb. unfold view. rewrite !vf_bit_put by done.
  destruct (decide (g' = g /\ v' = v /\ (v < length (v_data s g))%nat)) as [(->&->&Hv)|Hn].
  - unfold put_fbit. cbn. f_equal.
    all: match goal with |- context [(?x =? ?c)] => destruct (Z.eqb_spec x c) as [->|] end;
      [by rewrite decide_True|rewrite decide_False; [done|intros (_&_&?&_); congruence]].
  - by rewrite !decide_False by tauto.
Qed.

(** [s'] is [s] after PF's work on [v] on [g] gave it the bits [m] and sent the commands [t]. *)
Record worked (g : gt_id) (v : nat) (m : fbits) (t : list vf_event) (s s' : vf_state) : Prop := {
  wk_here : view s' g v = m;
  wk_others g' v' : (g', v') <> (g, v) -> view s' g' v' = view s g' v';
  wk_length g' : length (v_data s' g') = length (v_data s g');
  wk_worker g' : v_worker s' g' = v_worker s g';
  wk_total : d_totalvfs (v_dev s') = d_totalvfs (v_dev s);
  wk_trace : v_trace s' = v_trace s ++ t;
}.
End view.

Section worked.
Context `{E : Env} `{R : RelayEnv} (g : gt_id) (v : nat).

Lemma worked_refl s : worked g v (view s g v) [] s s.
Proof. constructor; try done. by rewrite app_nil_r. Qed.

Lemma worked_put b x m t s s' :
  0 <= b -> (v < length (v_data s g))%nat -> worked g v m t s s' ->
  worked g v (put_fbit b x m) t s (put_bit g v b x s').
Proof.
  intros Hb Hv [H1 H2 H3 H4 H5 H6]. constructor; try done.
  - rewrite view_put, decide_True by (done || by rewrite H3). by rewrite H1.
  - intros g' v' Hne. rewrite view_put, decide_False by (done || intros (->&->&_); done). by apply H2.
  - intros g'. rewrite <- (H3 g'). unfold put_bit, upd_data, set_v_data. simpl. case_decide; [|done].
    subst. apply length_alter.
Qed.
Lemma worked_upd f m t s s' :
  (forall d, state (f d) = state d) -> worked g v m t s s' -> worked g v m t s (upd_data g v f s').
Proof.
  intros Hf [H1 H2 H3 H4 H5 H6].
  assert (forall g' v', view (upd_data g v f s') g' v' = view s' g' v') as Hview
    by (intros; unfold view; by rewrite !vf_bit_upd).
  constructor; try done; [by rewrite Hview|intros; rewrite Hview; by apply H2|].
  intros g'. rewrite <- (H3 g'). unfold upd_data, set_v_data. simpl. case_decide; [|done].
  subst. apply length_alter.
Qed.
Lemma worked_event e m t s s' : worked g v m t s s' -> worked g v m (t ++ [e]) s (add_event e s').
Proof. intros [H1 H2 H3 H4 H5 H6]. constructor; try done. cbn. by rewrite H6, app_assoc. Qed.
Lemma worked_dev m t s s' d :
  d_totalvfs d = d_totalvfs (v_dev s') -> worked g v m t s s' -> worked g v m t s (set_v_dev d s').
Proof. intros Hd [H1 H2 H3 H4 H5 H6]. constructor; try done. by rewrite <- H5. Qed.

(** Bits that do not belong to the machine. *)
Lemma put_fbit_other b x m : IOV_VF_NEEDS_FLR_DONE_SYNC < b -> put_fbit b x m = m.
Proof.
  unfold put_fbit, IOV_VF_NEEDS_FLR_DONE_SYNC, IOV_VF_FLR_IN_PROGRESS, IOV_VF_NEEDS_FLR_START, IOV_VF_FLR_DONE_RECEIVED,
    IOV_VF_NEEDS_FLR_FINISH in *.
  intros Hb. by rewrite !(proj2 (Z.eqb_neq b _)) by lia; destruct m.
Qed.
End worked.

Section machine.
Context `{E : Env} `{R : RelayEnv} (g : gt_id) (v : nat).

(** GuC can give this reply to the command. *)
Definition guc_says (cmd ret : Z) : Prop :=
  exists l, ret = guc_reply l {| req_gt := g; req_msg := vf_control_msg v cmd; req_blob := [] |}.

Definition commanded (cmd : option Z) (ret : Z) : list vf_event :=
  match cmd with Some c => [Commanded g v c ret] | None => [] end.

Lemma wp_control cmd m s s' (Q : Z -> vf_state -> Prop) :
  worked g v m [] s s' ->
  (forall ret s'', guc_says cmd ret -> worked g v m [Commanded g v cmd ret] s s'' ->
     Q (if ret >? 0 then - EPROTO else ret) s'') ->
  wp (guc_action_vf_control_cmd g v cmd) Q s'.
Proof.
  intros Hw HQ. unfold guc_action_vf_control_cmd, on_v_dev, intel_guc_send, wp, modify, mbind, st_bind. cbn.
  apply HQ; [by eexists|]. apply (worked_event g v _ m []). by apply worked_dev.
Qed.

Lemma wp_read_bit b m t s s' (k : bool -> prog vf_state bool) Q :
  worked g v m t s s' -> wp (atomically (k (vf_bit s' g v b))) Q s' -> wp (atomically (test_bit b g v ≫= k)) Q s'.
Proof. intros _ Hk. by apply wp_act, wp_gets. Qed.

Lemma reply_tests ret (A : Type) (x y z : A) :
  (let err := if ret >? 0 then - EPROTO else ret in
   if err =? - EBUSY then x else if negb (err =? 0) then y else z) =
  match reply_of ret with Accepted => z | Busy => x | Refused => y end.
Proof.
  unfold reply_of, EBUSY, EPROTO. cbn zeta. rewrite Z.gtb_ltb.
  destruct (Z.ltb_spec 0 ret), (Z.eqb_spec ret 0), (Z.eqb_spec ret (-16)); try lia; subst; try done.
  all: by rewrite ?(proj2 (Z.eqb_neq ret _)) by lia.
Qed.

Lemma wp_put b x m t s s' (k : unit -> prog vf_state bool) Q :
  0 <= b -> (v < length (v_data s g))%nat -> worked g v m t s s' ->
  (forall s'', worked g v (put_fbit b x m) t s s'' -> wp (atomically (k tt)) Q s'') ->
  wp (atomically (atom (modify (put_bit g v b x)) ≫= k)) Q s'.
Proof. intros Hb Hv Hw Hk. apply wp_act, wp_modify, Hk. by apply worked_put. Qed.

Lemma wp_failed m t s s' (Q : bool -> vf_state -> Prop) :
  (v < length (v_data s g))%nat -> worked g v m t s s' ->
  (forall s'', worked g v (put_fbit IOV_VF_FLR_IN_PROGRESS false m) t s s'' -> Q false s'') ->
  wp (atomically (flr_failed g v)) Q s'.
Proof.
  intros Hv Hw HQ. unfold flr_failed. eapply wp_put; [done|done|exact Hw|]. intros s1 H1.
  rewrite put_fbit_other in H1 by done.
  eapply wp_put; [done|done|exact H1|]. intros s2 H2. by apply HQ.
Qed.

Lemma wp_start m s s' (Q : bool -> vf_state -> Prop) :
  (v < length (v_data s g))%nat -> worked g v m [] s s' ->
  (forall ret s'', guc_says GUC_PF_TRIGGER_VF_FLR_START ret ->
     worked g v (match reply_of ret with
       | Accepted => m | Busy => put_fbit IOV_VF_NEEDS_FLR_START true m
       | Refused => put_fbit IOV_VF_FLR_IN_PROGRESS false m end) [Commanded g v GUC_PF_TRIGGER_VF_FLR_START ret] s s'' ->
     Q (match reply_of ret with Refused => false | _ => true end) s'') ->
  wp (atomically (process_flr_start g v)) Q s'.
Proof.
  intros Hv Hw HQ. unfold process_flr_start. apply wp_act. eapply wp_control; [exact Hw|]. intros ret s1 Hs H1.
  rewrite (reply_tests ret (prog vf_state bool)). specialize (HQ ret).
  destruct (reply_of ret).
  - eapply wp_put; [done|done|exact H1|]. intros s2 H2. apply wp_ret, HQ; [done|]. by rewrite put_fbit_other in H2.
  - eapply wp_put; [done|done|exact H1|]. intros s2 H2. by apply wp_ret, HQ.
  - eapply wp_failed; [done|exact H1|]. intros s2 H2. by apply HQ.
Qed.

Lemma wp_event_reset m t s s' (Q : unit -> vf_state -> Prop) :
  worked g v m t s s' -> (forall s'', worked g v m t s s'' -> Q tt s'') ->
  wp (atomically (intel_iov_event_reset g v)) Q s'.
Proof.
  intros Hw HQ. unfold intel_iov_event_reset. apply wp_act, wp_gets. destruct (bool_decide _); [by apply wp_ret, HQ|].
  generalize IOV_THRESHOLDS as l. intros l. revert s' Hw. induction l as [|x l IH]; intros s' Hw; cbn [each].
  - by apply wp_ret, HQ.
  - apply wp_act, wp_modify, IH. by apply worked_upd.
Qed.

Lemma wp_finish m s s' (Q : bool -> vf_state -> Prop) :
  (v < length (v_data s g))%nat -> worked g v m [] s s' ->
  (forall ret s'', guc_says GUC_PF_TRIGGER_VF_FLR_FINISH ret ->
     worked g v (match reply_of ret with
       | Accepted => m | Busy => put_fbit IOV_VF_NEEDS_FLR_FINISH true m
       | Refused => put_fbit IOV_VF_FLR_IN_PROGRESS false m end) [Commanded g v GUC_PF_TRIGGER_VF_FLR_FINISH ret] s s'' ->
     Q (match reply_of ret with Refused => false | _ => true end) s'') ->
  wp (atomically (process_flr_finish g v)) Q s'.
Proof.
  intros Hv Hw HQ. unfold process_flr_finish, pf_process_vf_flr_finish.
  apply wp_atomically_bind, wp_atomically_bind. eapply wp_event_reset; [exact Hw|]. intros s1 H1.
  apply wp_act. unfold on_v_dev, wp.
  assert (wp (pf_clear_vf_ggtt_entries g v) (fun _ d => d_totalvfs d = d_totalvfs (v_dev s1)) (v_dev s1)) as Hd.
  { apply wp_bind, wp_gets. case_match; [done|]. apply wp_set_owner. intros d' Hc _ _. apply Hc. }
  unfold wp in Hd. destruct (pf_clear_vf_ggtt_entries g v (v_dev s1)) as [[] d]. cbn [fst snd] in *.
  apply (worked_dev g v _ _ _ _ d Hd) in H1. set (s2 := set_v_dev d s1) in *. clearbody s2.
  change (pf_trigger_vf_flr_finish g v)
    with (atom (guc_action_vf_control_cmd g v GUC_PF_TRIGGER_VF_FLR_FINISH) ≫= mret).
  apply wp_act. eapply wp_control; [exact H1|]. intros ret s3 Hs H3. apply wp_ret.
  rewrite (reply_tests ret (prog vf_state bool)). specialize (HQ ret).
  destruct (reply_of ret).
  - by apply wp_ret, HQ.
  - eapply wp_put; [done|done|exact H3|]. intros s4 H4. by apply wp_ret, HQ.
  - eapply wp_failed; [done|exact H3|]. intros s4 H4. by apply HQ.
Qed.

Definition views (s : vf_state) : list fbits := (fun g' => view s g' v) <$> all_gts.
Definition rest_views (s : vf_state) : list fbits :=
  (fun g' => view s g' v) <$> filter (fun g' => iov_is_root g' = false) all_gts.

(** The state as it was, after bits that were clear have been cleared. *)
Record as_before (s s' : vf_state) : Prop := {
  ab_worked : worked g v (view s g v) [] s s';
  ab_view g' v' : view s' g' v' = view s g' v';
}.
Lemma as_before_clear b s s' :
  0 <= b -> (v < length (v_data s g))%nat -> put_fbit b false (view s g v) = view s g v ->
  as_before s s' -> as_before s (put_bit g v b false s').
Proof.
  intros Hb Hv Hp [Hw Hview]. pose proof (worked_put g v b false _ _ s s' Hb Hv Hw) as Hw'. rewrite Hp in Hw'.
  constructor; [done|]. intros g' v'. destruct (decide ((g', v') = (g, v))) as [[= -> ->]|Hne]; [apply Hw'|by apply Hw'].
Qed.

Lemma existsb_views (f : fbits -> bool) (l : list gt_id) s :
  existsb (fun g' => f (view s g' v)) l = existsb f ((fun g' => view s g' v) <$> l).
Proof. induction l as [|x l IH]; simpl; [done|]. by rewrite IH. Qed.

(** The last look of the worker: is another GT still at the reset. *)
Lemma wp_others s s' (Q : bool -> vf_state -> Prop) :
  as_before s s' -> Q (iov_is_root g && existsb b_progress (rest_views s)) s' ->
  wp (atomically (if iov_is_root g
    then any all_gts (fun g' => if iov_is_root g' then mret false else pf_vf_flr_in_progress g' v)
    else mret false)) Q s'.
Proof.
  intros Hb HQ. destruct (iov_is_root g); [|exact HQ].
  unfold wp. rewrite (any_looks _ _ (fun g' => negb (iov_is_root g') && b_progress (view s g' v))).
  - assert (existsb (fun g' => negb (iov_is_root g') && b_progress (view s g' v)) all_gts
      = existsb b_progress (rest_views s)) as ->; [|exact HQ].
    unfold rest_views, all_gts. by destruct has_media_gt; simpl; rewrite ?orb_false_r.
  - intros g'. destruct (iov_is_root g'); [done|].
    change ((b_progress (view s' g' v), s') = (b_progress (view s g' v), s')). by rewrite (ab_view _ _ Hb).
Qed.

Lemma wp_looks (b : fbits -> bool) (f : gt_id -> prog vf_state bool) s s' (Q : bool -> vf_state -> Prop) :
  as_before s s' -> (forall g', atomically (f g') s' = (b (view s' g' v), s')) ->
  Q (existsb b (views s)) s' -> wp (atomically (any all_gts f)) Q s'.
Proof.
  intros Hb Hf HQ. unfold wp. rewrite (any_looks _ _ (fun g' => b (view s g' v))).
  - rewrite existsb_views. exact HQ.
  - intros g'. rewrite Hf. by rewrite (ab_view _ _ Hb).
Qed.

Lemma wp_tail s s' (Q : bool -> vf_state -> Prop) :
  (v < length (v_data s g))%nat -> as_before s s' ->
  (forall ret s'', let '(more, m, cmd) := machine_tail (iov_is_root g) (view s g v) (rest_views s) (reply_of ret) in
     (forall c, cmd = Some c -> guc_says c ret) -> worked g v m (commanded cmd ret) s s'' -> Q more s'') ->
  wp (atomically (process_flr_tail g v)) Q s'.
Proof.
  intros Hv H0 HQ. unfold process_flr_tail, machine_tail in *. set (m := view s g v) in *.
  apply wp_act. unfold wp at 1. cbn [fst snd].
  assert (vf_bit s' g v IOV_VF_FLR_DONE_RECEIVED = b_done m) as -> by apply (f_equal b_done (ab_view _ _ H0 g v)).
  destruct (b_done m) eqn:Hdone.
  { eapply wp_put; [done|exact Hv|apply worked_put; [done|exact Hv|apply H0]|]. intros s2 H2.
    by apply wp_ret, (HQ 0). }
  assert (as_before s (put_bit g v IOV_VF_FLR_DONE_RECEIVED false s')) as H1.
  { apply as_before_clear; [done|done| |done]. fold m. destruct m. cbn in *. by subst. }
  set (s1 := put_bit _ _ _ _ _) in *. clearbody s1. clear H0. apply wp_act. unfold wp at 1. cbn [fst snd].
  assert (vf_bit s1 g v IOV_VF_NEEDS_FLR_FINISH = b_finish m) as -> by apply (f_equal b_finish (ab_view _ _ H1 g v)).
  destruct (b_finish m) eqn:Hfinish.
  { eapply wp_finish; [exact Hv|apply worked_put; [done|exact Hv|apply H1]|]. fold m. intros ret s2 Hs Hw. specialize (HQ ret s2).
    destruct m as [p st d f y]. cbn in Hdone, Hfinish. subst d f. destruct (reply_of ret); apply HQ; try done; by intros c [= <-]. }
  assert (as_before s (put_bit g v IOV_VF_NEEDS_FLR_FINISH false s1)) as H2.
  { apply as_before_clear; [done|done| |done]. fold m. destruct m. cbn in *. by subst. }
  set (s2 := put_bit _ _ _ _ _) in *. clearbody s2. clear H1. apply wp_act, wp_gets.
  assert (vf_bit s2 g v IOV_VF_FLR_IN_PROGRESS = b_progress m) as -> by apply (f_equal b_progress (ab_view _ _ H2 g v)).
  specialize (HQ 0). destruct (b_progress m) eqn:Hprogress; cbn [negb]; [|apply wp_ret, HQ; [done|apply H2]].
  apply wp_atomically_bind. eapply wp_others; [exact H2|].
  destruct (iov_is_root g && existsb b_progress (rest_views s)); [apply wp_ret, HQ; [done|apply H2]|].
  eapply wp_put; [done|exact Hv|apply H2|]. intros s3 H3. by apply wp_ret, HQ.
Qed.

(** What [pf_process_vf] does when it is not interrupted is a step of the machine. *)
Lemma process_vf_machine s (Q : bool -> vf_state -> Prop) :
  (v < length (v_data s g))%nat ->
  (forall ret s', let '(more, m, cmd) := machine (iov_is_root g) (view s g v) (views s) (rest_views s) (reply_of ret) in
     (forall c, cmd = Some c -> guc_says c ret) -> worked g v m (commanded cmd ret) s s' -> Q more s') ->
  wp (atomically (pf_process_vf g v)) Q s.
Proof.
  intros Hv HQ. unfold pf_process_vf. apply wp_act. unfold wp at 1. cbn [fst snd].
  set (m := view s g v) in *. pose proof (worked_refl g v s) as H0. fold m in H0.
  assert (vf_bit s g v IOV_VF_NEEDS_FLR_START = b_start m) as -> by done.
  unfold machine in HQ. destruct (b_start m) eqn:Hstart.
  { eapply wp_start; [exact Hv|by apply worked_put|]. intros ret s' Hs Hw. specialize (HQ ret s').
    destruct m as [p st d f y]. cbn in Hstart. subst st. destruct (reply_of ret); apply HQ; try done; by intros c [= <-]. }
  assert (as_before s (put_bit g v IOV_VF_NEEDS_FLR_START false s)) as H1.
  { apply as_before_clear; [done|done| |by constructor]. fold m. destruct m. cbn in *. by subst. }
  set (s1 := put_bit _ _ _ _ _) in *. clearbody s1. apply wp_act, wp_gets.
  assert (vf_bit s1 g v IOV_VF_NEEDS_FLR_DONE_SYNC = b_sync m) as -> by apply (f_equal b_sync (ab_view _ _ H1 g v)).
  destruct (b_sync m) eqn:Hsync.
  { apply wp_atomically_bind. eapply (wp_looks (fun m => negb (b_done m))); [exact H1|done|].
    assert (existsb (fun m => negb (b_done m)) (views s) = negb (forallb b_done (views s))) as ->.
    { clear. generalize (views s) as l. intros l. induction l as [|x l IH]; [done|]. simpl. rewrite IH. by destruct (b_done x). }
    specialize (HQ 0). destruct (forallb b_done (views s)); cbn [negb].
    - eapply wp_put; [done|exact Hv|apply H1|]. intros s2 H2. apply wp_ret, HQ; [done|].
      fold m in H2. destruct m. cbn in *. by subst.
    - apply wp_ret, HQ; [done|]. apply H1. }
  apply wp_act, wp_gets.
  assert (vf_bit s1 g v IOV_VF_FLR_DONE_RECEIVED = b_done m) as -> by apply (f_equal b_done (ab_view _ _ H1 g v)).
  destruct (b_done m) eqn:Hdone.
  - apply wp_atomically_bind. eapply (wp_looks b_sync); [exact H1|done|].
    destruct (existsb b_sync (views s)) eqn:Hex; cbn [andb] in HQ; [apply wp_ret, (HQ 0); [done|apply H1]|].
    by apply (wp_tail s).
  - by apply (wp_tail s).
Qed.
End machine.

(** ** One run of the worker *)

Section work.
Context `{E : Env} `{R : RelayEnv} (g : gt_id).

(** The worker runs if it is queued. *)
Definition work : st vf_state unit :=
  queued ← gets (fun s => v_worker s g);
  if queued : bool then modify (set_v_worker g false) ≫= fun _ => atomically (pf_state_worker_func g) else mret tt.

(** What the loop over the VFs keeps. *)
Record passed (ns : list nat) (s s' : vf_state) : Prop := {
  pa_others g' v : g' <> g \/ v ∉ ns -> view s' g' v = view s g' v;
  pa_length g' : length (v_data s' g') = length (v_data s g');
  pa_worker g' : v_worker s' g' = v_worker s g';
  pa_total : d_totalvfs (v_dev s') = d_totalvfs (v_dev s);
}.
Lemma passed_worked v ns m t s s' s'' :
  worked g v m t s s' -> passed ns s' s'' -> passed (v :: ns) s s''.
Proof.
  intros Hw Hp. constructor.
  - intros g' v' Hn. rewrite not_elem_of_cons in Hn.
    rewrite (pa_others _ _ _ Hp) by tauto. apply (wk_others _ _ _ _ _ _ Hw). intros [= -> ->]. tauto.
  - intros g'. by rewrite (pa_length _ _ _ Hp), (wk_length _ _ _ _ _ _ Hw).
  - intros g'. by rewrite (pa_worker _ _ _ Hp), (wk_worker _ _ _ _ _ _ Hw).
  - by rewrite (pa_total _ _ _ Hp), (wk_total _ _ _ _ _ _ Hw).
Qed.

(** The worker in terms of its loop. *)
Lemma wp_work (Q : unit -> vf_state -> Prop) s :
  v_worker s g = true ->
  wp (atomically (process_vfs g (seq 1 (d_totalvfs (v_dev s))) false))
    (fun more s' => Q tt (if more : bool then set_v_worker g true s' else s')) (set_v_worker g false s) ->
  wp work Q s.
Proof.
  intros Hq HQ. apply wp_bind, wp_gets. rewrite Hq. apply wp_bind, wp_modify.
  unfold pf_state_worker_func, pf_process_all_vfs. apply wp_act, wp_gets. apply wp_atomically_bind.
  eapply wp_mono; [exact HQ|]. intros [] s' HQ'; exact HQ'.
Qed.
End work.

(** ** Termination on a device with one GT *)

Section ends.
Context `{E : Env} `{R : RelayEnv}.

(** How often the worker still has to come back to a VF. *)
Definition rank (m : fbits) : nat :=
  (if b_start m then 1 else 0) + (if b_done m then 2 else if b_finish m then 1 else 0).

(** Without a command the reply does not matter. *)
Lemma machine_silent root m all rest r more m' :
  machine root m all rest r = (more, m', None) -> machine root m all rest Accepted = (more, m', None).
Proof. unfold machine, machine_tail. repeat case_match; congruence. Qed.
Lemma reply_not_busy ret : ret <> - EBUSY -> reply_of ret <> Busy.
Proof. unfold reply_of. intros Hne. destruct (ret =? 0); [done|]. by destruct (Z.eqb_spec ret (- EBUSY)). Qed.

Lemma machine_rank m r :
  b_sync m = false -> r <> Busy ->
  let '(more, m', _) := machine true m [m] [] r in
  b_sync m' = false /\ (rank m' <= Nat.pred (rank m))%nat /\ (more = true -> (0 < rank m)%nat).
Proof. destruct m as [[] [] [] [] []], r; try done; cbn; intuition (try done; try lia). Qed.

Lemma pass_rank ns : has_media_gt = false -> (forall l r, guc_reply l r <> - EBUSY) -> NoDup ns ->
  forall more s, (forall v, v ∈ ns -> (v < length (v_data s GT_PRIMARY))%nat /\ b_sync (view s GT_PRIMARY v) = false) ->
  wp (atomically (process_vfs GT_PRIMARY ns more)) (fun more' s' => passed GT_PRIMARY ns s s' /\
    (forall v, v ∈ ns -> b_sync (view s' GT_PRIMARY v) = false /\
       (rank (view s' GT_PRIMARY v) <= Nat.pred (rank (view s GT_PRIMARY v)))%nat) /\
    (more' = true -> more = true \/ exists v, v ∈ ns /\ (0 < rank (view s GT_PRIMARY v))%nat)) s.
Proof.
  intros Hmedia Hbusy Hnd. induction Hnd as [|n ns Hn Hnd IH]; intros more s Hs; cbn [process_vfs].
  - apply wp_ret. split_and!; [by constructor| |by left]. intros v Hv. by apply elem_of_nil in Hv.
  - destruct (Hs n (list_elem_of_here _ _)) as [Hlen Hsync]. apply wp_atomically_bind, process_vf_machine; [done|].
    intros ret s1. assert (views n s = [view s GT_PRIMARY n]) as -> by (unfold views, all_gts; by rewrite Hmedia).
    assert (rest_views n s = []) as -> by (unfold rest_views, all_gts; by rewrite Hmedia).
    destruct (machine _ _ _ _ _) as [[m m1] cmd] eqn:Hm. intros Hsays Hw.
    assert (b_sync m1 = false /\ (rank m1 <= Nat.pred (rank (view s GT_PRIMARY n)))%nat /\
      (m = true -> (0 < rank (view s GT_PRIMARY n))%nat)) as (Hm1 & Hrank & Hmore).
    { change (iov_is_root GT_PRIMARY) with true in Hm. destruct cmd as [c|].
      - pose proof (machine_rank (view s GT_PRIMARY n) (reply_of ret) Hsync) as Hr. rewrite Hm in Hr. apply Hr.
        destruct (Hsays c eq_refl) as [l ->]. by apply reply_not_busy.
      - pose proof (machine_rank (view s GT_PRIMARY n) Accepted Hsync) as Hr.
        rewrite (machine_silent _ _ _ _ _ _ _ Hm) in Hr. by apply Hr. }
    eapply wp_mono; [apply IH|].
    + intros v Hv. rewrite (wk_length _ _ _ _ _ _ Hw), (wk_others _ _ _ _ _ _ Hw) by (intros [= ->]; done).
      apply Hs. by right.
    + intros more' s2 (Hp & Hr & Hq). split_and!; [by eapply passed_worked| |].
      * intros v [->|Hv]%elem_of_cons.
        -- rewrite (pa_others _ _ _ _ Hp), (wk_here _ _ _ _ _ _ Hw) by tauto. done.
        -- rewrite <- (wk_others _ _ _ _ _ _ Hw GT_PRIMARY v) by (intros [= ->]; done). by apply Hr.
      * intros [Ho|(v & Hv & Hr0)]%Hq.
        -- apply orb_true_iff in Ho as [->|Ho%Hmore]; [by left|right]. exists n. split; [by left|done].
        -- right. exists v. split; [by right|]. by rewrite (wk_others _ _ _ _ _ _ Hw) in Hr0 by (intros [= ->]; done).
Qed.

(** The data of the VFs is there and no VF waits for another GT. *)
Definition ready (n : nat) (s : vf_state) : Prop :=
  d_totalvfs (v_dev s) = n /\
  forall v, v ∈ seq 1 n -> (v < length (v_data s GT_PRIMARY))%nat /\ b_sync (view s GT_PRIMARY v) = false.

Lemma work_rank n k s :
  has_media_gt = false -> (forall l r, guc_reply l r <> - EBUSY) -> ready n s ->
  (forall v, v ∈ seq 1 n -> (rank (view s GT_PRIMARY v) <= k)%nat) -> v_worker s GT_PRIMARY = true ->
  wp (work GT_PRIMARY) (fun _ s' => ready n s' /\
    (forall v, v ∈ seq 1 n -> (rank (view s' GT_PRIMARY v) <= Nat.pred k)%nat) /\
    (v_worker s' GT_PRIMARY = true -> (0 < k)%nat)) s.
Proof.
  intros Hmedia Hbusy [Hn Hs] Hk Hq. apply wp_work; [exact Hq|]. rewrite Hn.
  eapply wp_mono; [by apply (pass_rank (seq 1 n) Hmedia Hbusy (NoDup_seq _ _) false)|].
  intros more s' (Hp & Hr & Hmore). set (s2 := if more then set_v_worker GT_PRIMARY true s' else s').
  assert (forall v, view s2 GT_PRIMARY v = view s' GT_PRIMARY v) as Hview by (by destruct more).
  assert (v_data s2 = v_data s' /\ v_dev s2 = v_dev s') as [Hd Hv] by (by destruct more).
  split; [split|split].
  - by rewrite Hv, (pa_total _ _ _ _ Hp).
  - intros v Hin. rewrite Hview, Hd, (pa_length _ _ _ _ Hp). split; [by apply Hs|by apply Hr].
  - intros v Hin. rewrite Hview. destruct (Hr v Hin) as [_ Hle]. specialize (Hk v Hin).
    change (view (set_v_worker GT_PRIMARY false s) GT_PRIMARY v) with (view s GT_PRIMARY v) in Hle. lia.
  - destruct more.
    + intros _. destruct (Hmore eq_refl) as [?|(v & Hin & H0)]; [done|]. specialize (Hk v Hin).
      change (view (set_v_worker GT_PRIMARY false s) GT_PRIMARY v) with (view s GT_PRIMARY v) in H0. lia.
    + unfold s2. by rewrite (pa_worker _ _ _ _ Hp).
Qed.

Lemma rank_le m : (rank m <= 3)%nat.
Proof. unfold rank. repeat case_match; lia. Qed.

(** After [j] runs. *)
Lemma iter_rank n s :
  has_media_gt = false -> (forall l r, guc_reply l r <> - EBUSY) -> ready n s ->
  forall j, let s' := Nat.iter j (fun s => snd (work GT_PRIMARY s)) s in v_worker s' GT_PRIMARY = false \/
    ready n s' /\ (forall v, v ∈ seq 1 n -> (rank (view s' GT_PRIMARY v) <= 3 - j)%nat) /\
    (v_worker s' GT_PRIMARY = true -> (j <= 3)%nat).
Proof.
  intros Hmedia Hbusy Hs. induction j as [|j IH]; cbn [Nat.iter]; cbn zeta in *.
  - right. split_and!; [done| |lia]. intros v _. apply rank_le.
  - set (s1 := Nat.iter j _ s) in *. destruct (v_worker s1 GT_PRIMARY) eqn:Hq.
    + destruct IH as [?|(Hr & Hk & Hj)]; [done|]. right.
      pose proof (work_rank n (3 - j) s1 Hmedia Hbusy Hr Hk Hq) as Hw. unfold wp in Hw. destruct Hw as (Hr' & Hk' & Hq').
      split_and!; [done| |intros Hw; specialize (Hq' Hw); lia].
      intros v Hv. specialize (Hk' v Hv). rewrite Nat.iter_succ. fold s1. lia.
    + left. rewrite Nat.iter_succ. fold s1. unfold work, mbind, st_bind, gets. by rewrite Hq.
Qed.

(** The commands sent for VF [v], and those that its bits still ask for. *)
Definition command_to (v : nat) (e : vf_event) : option Z :=
  match e with
  | Commanded g v' cmd _ => if decide (g = GT_PRIMARY /\ v' = v) then Some cmd else None
  | _ => None
  end.
Definition commands (v : nat) (s : vf_state) : list Z := omap (command_to v) (v_trace s).
Definition script (m : fbits) : list Z :=
  (if b_start m then [GUC_PF_TRIGGER_VF_FLR_START] else []) ++
  (if b_done m || b_finish m then [GUC_PF_TRIGGER_VF_FLR_FINISH] else []).

Lemma machine_accepts m :
  b_sync m = false ->
  let '(more, m', cmd) := machine true m [m] [] Accepted in
  script m = option_list cmd ++ script m' /\ (more = false -> m' = no_fbits).
Proof. destruct m as [[] [] [] [] []]; try done; cbn; by split. Qed.

Lemma commands_worked v n m t s s' :
  worked GT_PRIMARY n m t s s' -> commands v s' = commands v s ++ omap (command_to v) t.
Proof. intros Hw. unfold commands. by rewrite (wk_trace _ _ _ _ _ _ Hw), omap_app. Qed.
Lemma commanded_to v n cmd ret :
  omap (command_to v) (commanded GT_PRIMARY n cmd ret) = if decide (n = v) then option_list cmd else [].
Proof. destruct cmd as [c|]; [|by case_decide]. cbn. case_decide as H; case_decide; try done; [destruct H; done|]. by destruct H. Qed.

Definition clears (ns : list nat) (more : bool) (s s' : vf_state) : Prop :=
  (forall v, v ∈ ns -> commands v s' ++ script (view s' GT_PRIMARY v) = commands v s ++ script (view s GT_PRIMARY v)) /\
  (forall v, v ∉ ns -> commands v s' = commands v s) /\
  (more = false -> forall v, v ∈ ns -> view s' GT_PRIMARY v = no_fbits).

Lemma pass_clears ns : has_media_gt = false -> (forall l r, guc_reply l r = 0) -> NoDup ns ->
  forall more s, (forall v, v ∈ ns -> (v < length (v_data s GT_PRIMARY))%nat /\ b_sync (view s GT_PRIMARY v) = false) ->
  wp (atomically (process_vfs GT_PRIMARY ns more)) (fun more' s' => passed GT_PRIMARY ns s s' /\
    clears ns more' s s' /\ (more = true -> more' = true)) s.
Proof.
  intros Hmedia Hacc Hnd. induction Hnd as [|n ns Hn Hnd IH]; intros more s Hs; cbn [process_vfs].
  - apply wp_ret. split_and!; [by constructor| |done]. split_and!; [|done|]; intros; by set_solver.
  - destruct (Hs n (list_elem_of_here _ _)) as [Hlen Hsync]. apply wp_atomically_bind, process_vf_machine; [done|].
    intros ret s1. assert (views n s = [view s GT_PRIMARY n]) as -> by (unfold views, all_gts; by rewrite Hmedia).
    assert (rest_views n s = []) as -> by (unfold rest_views, all_gts; by rewrite Hmedia).
    destruct (machine _ _ _ _ _) as [[m m1] cmd] eqn:Hm. intros Hsays Hw.
    assert (script (view s GT_PRIMARY n) = option_list cmd ++ script m1 /\ (m = false -> m1 = no_fbits)) as [Hscript Hmore].
    { pose proof (machine_accepts (view s GT_PRIMARY n) Hsync) as Hr. change (iov_is_root GT_PRIMARY) with true in Hm.
      destruct cmd as [c|].
      - destruct (Hsays c eq_refl) as [l ->]. rewrite Hacc in Hm. change (reply_of 0) with Accepted in Hm. by rewrite Hm in Hr.
      - by rewrite (machine_silent _ _ _ _ _ _ _ Hm) in Hr. }
    eapply wp_mono; [apply IH|].
    + intros v Hv. rewrite (wk_length _ _ _ _ _ _ Hw), (wk_others _ _ _ _ _ _ Hw) by (intros [= ->]; done).
      apply Hs. by right.
    + intros more' s2 (Hp & (H1 & H2 & H3) & Hle).
      assert (view s2 GT_PRIMARY n = m1) as Hvn by (rewrite (pa_others _ _ _ _ Hp), (wk_here _ _ _ _ _ _ Hw) by tauto; done).
      split_and!; [by eapply passed_worked| |].
      * split_and!.
        -- intros v [->|Hv]%elem_of_cons.
           ++ rewrite Hvn, H2, (commands_worked _ _ _ _ _ _ Hw), commanded_to, decide_True, <- app_assoc, <- Hscript by done. done.
           ++ rewrite (H1 v Hv), (commands_worked _ _ _ _ _ _ Hw), commanded_to, decide_False, app_nil_r by (by intros ->).
              by rewrite (wk_others _ _ _ _ _ _ Hw) by (intros [= ->]; done).
        -- intros v Hv. rewrite not_elem_of_cons in Hv. rewrite H2 by tauto.
           rewrite (commands_worked _ _ _ _ _ _ Hw), commanded_to, decide_False, app_nil_r; [done|]. intros ->. tauto.
        -- intros Hf v Hv. apply elem_of_cons in Hv as [->|Hv]; [|by apply H3]. rewrite Hvn. apply Hmore.
           destruct m; [|done]. rewrite Hle in Hf; [done|]. by destruct more.
      * intros ->. by apply Hle.
Qed.

Lemma work_clears n s :
  has_media_gt = false -> (forall l r, guc_reply l r = 0) -> ready n s -> v_worker s GT_PRIMARY = true ->
  wp (work GT_PRIMARY) (fun _ s' => clears (seq 1 n) (v_worker s' GT_PRIMARY) s s') s.
Proof.
  intros Hmedia Hacc [Hn Hs] Hq. apply wp_work; [exact Hq|]. rewrite Hn.
  eapply wp_mono; [by apply (pass_clears (seq 1 n) Hmedia Hacc (NoDup_seq _ _) false)|].
  intros more s' (Hp & Hc & _). assert (v_worker s' GT_PRIMARY = false) as Hw by (by rewrite (pa_worker _ _ _ _ Hp)).
  destruct more; [exact Hc|]. rewrite Hw. exact Hc.
Qed.

(** C34: the worker ends, and its work is done. On a device with one GT, when GuC is not busy,
    nothing interrupts the worker and no VF waits for another GT, four runs of it are enough for
    any number of VFs, whatever their bits: it is not queued again, so [pf_process_vf] does not
    ask for more for ever. If moreover GuC accepts what is sent and the worker was queued, nothing
    is left pending of any VF - none of its bits is set -, and GuC was sent for each VF exactly
    the commands that were pending, in order: the start of the reset if that was asked for, and
    then its end if GuC's notification or the end itself was. *)
Theorem worker_ends s :
  let s' := Nat.iter 4 (fun s => snd (work GT_PRIMARY s)) s in
  has_media_gt = false -> (forall l r, guc_reply l r <> - EBUSY) -> ready (d_totalvfs (v_dev s)) s ->
  v_worker s' GT_PRIMARY = false /\
  ((forall l r, guc_reply l r = 0) -> v_worker s GT_PRIMARY = true ->
   forall v, (1 <= v <= d_totalvfs (v_dev s))%nat ->
     view s' GT_PRIMARY v = no_fbits /\ commands v s' = commands v s ++ script (view s GT_PRIMARY v)).
Proof.
  intros s' Hmedia Hbusy Hs. set (n := d_totalvfs (v_dev s)) in *.
  pose proof (iter_rank n s Hmedia Hbusy Hs) as Hj.
  assert (v_worker s' GT_PRIMARY = false) as Hend.
  { destruct (Hj 4%nat) as [?|(_ & _ & H4)]; [done|]. unfold s'. destruct (v_worker _ GT_PRIMARY); [|done].
    specialize (H4 eq_refl). lia. }
  split; [done|]. intros Hacc Hq.
  assert (forall j, let s' := Nat.iter j (fun s => snd (work GT_PRIMARY s)) s in ready n s' /\
    (forall v, v ∈ seq 1 n -> commands v s' ++ script (view s' GT_PRIMARY v) = commands v s ++ script (view s GT_PRIMARY v)) /\
    (v_worker s' GT_PRIMARY = false -> forall v, v ∈ seq 1 n -> view s' GT_PRIMARY v = no_fbits)) as Hc.
  { induction j as [|j IH]; cbn zeta in *; [cbn [Nat.iter]; split_and!; [done|done|intros Hf; change (v_worker s GT_PRIMARY = false) in Hf; congruence]|].
    rewrite Nat.iter_succ. set (s1 := Nat.iter j _ s) in *. destruct IH as (Hr & H1 & H2).
    destruct (v_worker s1 GT_PRIMARY) eqn:Hw.
    - destruct (work_rank n 3 s1 Hmedia Hbusy Hr ltac:(intros; apply rank_le) Hw) as (Hr' & _ & _).
      destruct (work_clears n s1 Hmedia Hacc Hr Hw) as (C1 & _ & C3). split_and!; [done| |].
      + intros v Hv. rewrite (C1 v Hv). by apply H1.
      + intros Hf. by apply C3.
    - assert (snd (work GT_PRIMARY s1) = s1) as -> by (unfold work, mbind, st_bind, gets; by rewrite Hw). split_and!; auto. }
  intros v Hv. destruct (Hc 4%nat) as (_ & H1 & H2). cbn zeta in *. fold s' in H1, H2.
  assert (v ∈ seq 1 n) as Hin by (rewrite elem_of_seq; lia). specialize (H2 Hend v Hin). split; [done|].
  rewrite <- (H1 v Hin), H2. by rewrite app_nil_r.
Qed.
End ends.
