(* ===== verification/FlrLive.v ===== *)
(** * A reset of a VF ends, on a device with two GTs

    The runs of the two workers and the notifications of GuC, in every order, on one VF while
    the others are at rest: each run is a step of the finite machine of FlrWork.v, whose
    reachable states are enumerated here. *)

From S2P Require Export FlrWork.

#[export] Instance fbits_eq_dec : EqDecision fbits.
Proof. solve_decision. Defined.

(** ** Summaries *)

(** What matters of a VF on one GT: its bits, whether the worker is queued, and how often GuC
    accepted to start a reset, was done with it and accepted to finish it. *)
Record gsum := { g_bits : fbits; g_queued : bool; g_started : nat; g_done : nat; g_finished : nat }.
#[export] Instance gsum_eq_dec : EqDecision gsum.
Proof. solve_decision. Defined.

Definition sum : Type := gsum * gsum.
Definition of_gt {A} (g : gt_id) (p : A * A) : A := match g with GT_PRIMARY => p.1 | GT_MEDIA => p.2 end.
Definition on_gt {A} (g : gt_id) (x : A) (p : A * A) : A * A :=
  match g with GT_PRIMARY => (x, p.2) | GT_MEDIA => (p.1, x) end.

(** A run of the worker of [g], GuC replying [ans] to its commands. *)
Definition sum_work (ans : gt_id -> Z -> Z) (g : gt_id) (p : sum) : sum :=
  let x := of_gt g p in
  if negb (g_queued x) then p else
  let m r := machine (iov_is_root g) (g_bits x) [g_bits p.1; g_bits p.2] [g_bits p.2] r in
  let ret := match (m Accepted).2 with Some c => ans g c | None => 0 end in
  let '(more, bits, cmd) := m (reply_of ret) in
  let accepted c := bool_decide (cmd = Some c) && (ret =? 0) in
  on_gt g {| g_bits := bits; g_queued := more;
             g_started := g_started x + (if accepted GUC_PF_TRIGGER_VF_FLR_START then 1 else 0);
             g_done := g_done x;
             g_finished := g_finished x + (if accepted GUC_PF_TRIGGER_VF_FLR_FINISH then 1 else 0) |} p.

(** GuC is done with the reset on [g]. *)
Definition sum_done (g : gt_id) (p : sum) : sum :=
  let x := of_gt g p in
  on_gt g {| g_bits := put_fbit IOV_VF_FLR_DONE_RECEIVED true (g_bits x); g_queued := true;
             g_started := g_started x; g_done := S (g_done x); g_finished := g_finished x |} p.

Lemma machine_command root m all rest r : (machine root m all rest r).2 = (machine root m all rest Accepted).2.
Proof. unfold machine, machine_tail. repeat case_match; done. Qed.

Lemma machine_commands root m all rest r more m' c :
  machine root m all rest r = (more, m', Some c) -> c = GUC_PF_TRIGGER_VF_FLR_START \/ c = GUC_PF_TRIGGER_VF_FLR_FINISH.
Proof. unfold machine, machine_tail. repeat case_match; intros [= <- <- <-]; tauto. Qed.

Lemma sum_work_step ans g p more bits cmd ret :
  g_queued (of_gt g p) = true ->
  machine (iov_is_root g) (g_bits (of_gt g p)) [g_bits p.1; g_bits p.2] [g_bits p.2] (reply_of ret) = (more, bits, cmd) ->
  (forall c, cmd = Some c -> ret = ans g c) ->
  sum_work ans g p = on_gt g
    {| g_bits := bits; g_queued := more;
       g_started := g_started (of_gt g p) + (if bool_decide (cmd = Some GUC_PF_TRIGGER_VF_FLR_START) && (ret =? 0) then 1 else 0);
       g_done := g_done (of_gt g p);
       g_finished := g_finished (of_gt g p) + (if bool_decide (cmd = Some GUC_PF_TRIGGER_VF_FLR_FINISH) && (ret =? 0) then 1 else 0) |} p.
Proof.
  intros Hq Hm Hans. unfold sum_work. rewrite Hq. cbn [negb]. rewrite <- machine_command with (r := reply_of ret), Hm.
  cbn [snd]. destruct cmd as [c|].
  - rewrite <- (Hans c eq_refl), Hm. done.
  - change (reply_of 0) with Accepted. rewrite (machine_silent _ _ _ _ _ _ _ Hm). by rewrite !bool_decide_eq_false_2.
Qed.

Section sum.
Context `{E : Env} `{R : RelayEnv} (v : nat).

Definition gsum_of (s : vf_state) (g : gt_id) : gsum :=
  {| g_bits := view s g v; g_queued := v_worker s g; g_started := started g v (v_trace s);
     g_done := guc_done g v (v_trace s); g_finished := finished g v (v_trace s) |}.
Definition sum_of (s : vf_state) : sum := (gsum_of s GT_PRIMARY, gsum_of s GT_MEDIA).

(** The other VFs have nothing to do; every VF has its data. *)
Record quiet (n : nat) (s : vf_state) : Prop := {
  qu_total : d_totalvfs (v_dev s) = n;
  qu_others g v' : v' ∈ seq 1 n -> v' <> v -> view s g v' = no_fbits;
  qu_length g v' : v' ∈ seq 1 n -> (v' < length (v_data s g))%nat;
}.

(** Nothing that the summary sees has changed. *)
Record unchanged (s s' : vf_state) : Prop := {
  uc_view g v' : view s' g v' = view s g v';
  uc_length g : length (v_data s' g) = length (v_data s g);
  uc_worker g : v_worker s' g = v_worker s g;
  uc_total : d_totalvfs (v_dev s') = d_totalvfs (v_dev s);
  uc_trace : v_trace s' = v_trace s;
}.
#[export] Instance unchanged_preorder : PreOrder unchanged.
Proof.
  split; [by constructor|]. intros a b c [] []. constructor; intros; etransitivity; eauto.
Qed.

Lemma worked_unchanged g v' s s' : worked g v' (view s g v') [] s s' -> unchanged s s'.
Proof.
  intros [H1 H2 H3 H4 H5 H6]. constructor; try done; [|by rewrite app_nil_r in H6].
  intros g' v0. destruct (decide ((g', v0) = (g, v'))) as [[= -> ->]|Hne]; [done|by apply H2].
Qed.

Lemma machine_rest root all rest r : machine root no_fbits all rest r = (false, no_fbits, None).
Proof. done. Qed.

Lemma pass_rest g ns : forall more s (Q : bool -> vf_state -> Prop),
  (forall v', v' ∈ ns -> (v' < length (v_data s g))%nat /\ view s g v' = no_fbits) ->
  (forall s', unchanged s s' -> Q more s') -> wp (atomically (process_vfs g ns more)) Q s.
Proof.
  induction ns as [|n ns IH]; intros more s Q Hs HQ; cbn [process_vfs]; [by apply wp_ret, HQ|].
  destruct (Hs n (list_elem_of_here _ _)) as [Hlen Hview].
  apply wp_atomically_bind, process_vf_machine; [done|]. rewrite Hview. intros ret s1. rewrite machine_rest.
  intros _ Hw. rewrite <- Hview in Hw. apply worked_unchanged in Hw. rewrite orb_false_r. apply IH.
  - intros v' Hv'. rewrite (uc_length _ _ Hw), (uc_view _ _ Hw). apply Hs. by right.
  - intros s2 H2. apply HQ. by etransitivity.
Qed.

(** A pass over all VFs is the machine's step for [v]. *)
Lemma pass_one g l1 l2 : forall more s (Q : bool -> vf_state -> Prop),
  (v < length (v_data s g))%nat ->
  (forall v', v' ∈ l1 ++ l2 -> v' <> v /\ (v' < length (v_data s g))%nat /\ view s g v' = no_fbits) ->
  (forall ret s', let '(m, bits, cmd) := machine (iov_is_root g) (view s g v) (views v s) (rest_views v s) (reply_of ret) in
     (forall c, cmd = Some c -> guc_says g v c ret) -> worked g v bits (commanded g v cmd ret) s s' -> Q (more || m) s') ->
  wp (atomically (process_vfs g (l1 ++ v :: l2) more)) Q s.
Proof.
  induction l1 as [|n l1 IH]; intros more s Q Hlen Hs HQ; cbn [process_vfs app].
  - apply wp_atomically_bind, process_vf_machine; [done|]. intros ret s1. specialize (HQ ret).
    destruct (machine _ _ _ _ _) as [[m bits] cmd]. intros Hsays Hw. apply pass_rest.
    + intros v' Hv'. destruct (Hs v' Hv') as (Hne & Hl & Hview).
      rewrite (wk_length _ _ _ _ _ _ Hw), (wk_others _ _ _ _ _ _ Hw) by (intros [= ->]; done). done.
    + intros s2 Hu. apply HQ; [done|]. destruct Hw as [H1 H2 H3 H4 H5 H6], Hu as [U1 U2 U3 U4 U5].
      constructor; intros; rewrite ?U1, ?U2, ?U3, ?U4, ?U5; auto.
  - destruct (Hs n (list_elem_of_here _ _)) as (Hne & Hl & Hview).
    apply wp_atomically_bind, process_vf_machine; [done|]. rewrite Hview. intros ret s1. rewrite machine_rest.
    intros _ Hw. rewrite <- Hview in Hw. apply worked_unchanged in Hw. rewrite orb_false_r.
    pose proof Hw as [U1 U2 U3 U4 U5]. apply IH.
    + by rewrite U2.
    + intros v' Hv'. rewrite U2, U1. apply Hs. by right.
    + intros ret' s2. specialize (HQ ret' s2).
      assert (views v s1 = views v s) as -> by (by apply list_fmap_ext).
      assert (rest_views v s1 = rest_views v s) as -> by (by apply list_fmap_ext).
      rewrite U1. destruct (machine _ _ _ _ _) as [[m bits] cmd]. intros Hsays [H1 H2 H3 H4 H5 H6].
      apply HQ; [done|]. constructor; intros; first [congruence|by rewrite H2 by done|by rewrite H3|by rewrite H4].
Qed.

(** GuC answers the commands of a reset of [v] with [ans]. *)
Definition guc_answers (ans : gt_id -> Z -> Z) : Prop := forall g cmd l,
  cmd = GUC_PF_TRIGGER_VF_FLR_START \/ cmd = GUC_PF_TRIGGER_VF_FLR_FINISH ->
  guc_reply l {| req_gt := g; req_msg := vf_control_msg v cmd; req_blob := [] |} = ans g cmd.

Context (Hmedia : has_media_gt = true) (n : nat) (Hv : v ∈ seq 1 n).

(** A command in the counts of the history. *)
Lemma count_commanded g g' c cmd ret :
  count (Commanded g' v c 0) (commanded g v cmd ret) =
    if decide (g' = g) then (if bool_decide (cmd = Some c) && (ret =? 0) then 1%nat else 0%nat) else 0%nat.
Proof.
  destruct cmd as [c'|]; cbn [commanded]; [|by case_decide].
  change [Commanded g v c' ret] with ([] ++ [Commanded g v c' ret]). rewrite count_snoc. change (count _ []) with 0%nat.
  destruct (decide (g' = g)) as [->|Hne]; [|by rewrite decide_False by congruence].
  destruct (decide (c' = c)) as [->|]; [|by rewrite decide_False, bool_decide_eq_false_2 by congruence].
  rewrite bool_decide_eq_true_2 by done. destruct (Z.eqb_spec ret 0) as [->|]; [by rewrite decide_True|].
  by rewrite decide_False by congruence.
Qed.
Lemma count_commanded_done g g' cmd ret : count (Notified g' v GUC_PF_NOTIFY_VF_FLR_DONE) (commanded g v cmd ret) = 0%nat.
Proof.
  destruct cmd as [c|]; [|done]. cbn [commanded]. change [Commanded g v c ret] with ([] ++ [Commanded g v c ret]).
  by rewrite count_snoc, decide_False.
Qed.

Lemma gsum_command s s' g m cmd ret (q : bool) g' :
  worked g v m (commanded g v cmd ret) s s' ->
  gsum_of (if q then set_v_worker g true s' else s') g' =
    if decide (g' = g) then
      {| g_bits := m; g_queued := q || v_worker s g;
         g_started := started g v (v_trace s) + (if bool_decide (cmd = Some GUC_PF_TRIGGER_VF_FLR_START) && (ret =? 0) then 1 else 0);
         g_done := guc_done g v (v_trace s);
         g_finished := finished g v (v_trace s) + (if bool_decide (cmd = Some GUC_PF_TRIGGER_VF_FLR_FINISH) && (ret =? 0) then 1 else 0) |}
    else gsum_of s g'.
Proof.
  intros [H1 H2 H3 H4 H5 H6]. set (s2 := if q then _ else _).
  assert (view s2 g' v = view s' g' v /\ v_trace s2 = v_trace s' /\
    v_worker s2 g' = (if decide (g' = g) then q || v_worker s g else v_worker s g')) as (Hview & Ht & Hq).
  { unfold s2. destruct q; simpl; rewrite ?H4; case_decide; by subst. }
  unfold gsum_of. rewrite Hview, Ht, Hq, H6. unfold started, guc_done, finished. rewrite !count_app.
  rewrite !count_commanded, count_commanded_done, Nat.add_0_r.
  destruct (decide (g' = g)) as [->|Hne]; [by rewrite H1|]. rewrite H2 by congruence. by rewrite !Nat.add_0_r.
Qed.

Lemma work_sum ans g s :
  guc_answers ans -> quiet n s ->
  sum_of (snd (work g s)) = sum_work ans g (sum_of s) /\ quiet n (snd (work g s)).
Proof using Type*.
  intros Hans Hq. destruct (v_worker s g) eqn:Hqueued.
  2: { assert (snd (work g s) = s) as -> by (unfold work, gets, mbind, st_bind; by rewrite Hqueued).
       split; [|done]. unfold sum_work, sum_of. by destruct g; simpl; rewrite Hqueued. }
  change (wp (work g) (fun _ s' => sum_of s' = sum_work ans g (sum_of s) /\ quiet n s') s).
  apply wp_work; [done|]. rewrite (qu_total _ _ Hq).
  destruct (list_elem_of_split _ _ Hv) as (l1 & l2 & Hl). rewrite Hl.
  assert (forall v', v' ∈ l1 ++ l2 -> v' ∈ seq 1 n /\ v' <> v) as Hin.
  { pose proof (NoDup_seq 1 n) as Hnd. rewrite Hl in *. intros v' Hv'. split; [rewrite elem_of_app, elem_of_cons; rewrite elem_of_app in Hv'; tauto|].
    intros ->. apply NoDup_app in Hnd as (_ & Hnd1 & Hnd2). apply NoDup_cons in Hnd2 as [Hnd2 _].
    apply elem_of_app in Hv' as [Hv'|Hv']; [|done]. apply (Hnd1 v Hv'). by left. }
  apply pass_one; [by apply (qu_length _ _ Hq)| |].
  { intros v' Hv'. destruct (Hin v' Hv'). split_and!; [done|by apply (qu_length _ _ Hq)|by apply (qu_others _ _ Hq)]. }
  change (view (set_v_worker g false s) g v) with (view s g v).
  assert (views v (set_v_worker g false s) = [view s GT_PRIMARY v; view s GT_MEDIA v]) as ->
    by (unfold views, all_gts; by rewrite Hmedia).
  assert (rest_views v (set_v_worker g false s) = [view s GT_MEDIA v]) as ->
    by (unfold rest_views, all_gts; by rewrite Hmedia).
  intros ret s'. destruct (machine _ _ _ _ (reply_of ret)) as [[more bits] cmd] eqn:Hm. intros Hsays Hw.
  cbn [orb]. split.
  - set (x := of_gt g (sum_of s)). set (y := {| g_bits := bits; g_queued := more; g_started := g_started x
        + (if bool_decide (cmd = Some GUC_PF_TRIGGER_VF_FLR_START) && (ret =? 0) then 1 else 0);
      g_done := g_done x; g_finished := g_finished x
        + (if bool_decide (cmd = Some GUC_PF_TRIGGER_VF_FLR_FINISH) && (ret =? 0) then 1 else 0) |}).
    assert (sum_of (if more then set_v_worker g true s' else s') = on_gt g y (sum_of s)) as ->.
    { unfold sum_of. rewrite !(gsum_command _ _ _ _ _ _ _ _ Hw). simpl. rewrite (decide_True (P := g = g)) by done.
      rewrite orb_false_r. unfold gsum_of. simpl. by destruct g. }
    symmetry. apply (sum_work_step ans g (sum_of s) more bits cmd ret).
    + by destruct g; simpl.
    + by destruct g; simpl in *.
    + intros c ->. destruct (Hsays c eq_refl) as [l ->]. apply Hans. by eapply machine_commands.
  - destruct Hw as [H1 H2 H3 H4 H5 H6].
    assert (forall g' v', view (if more then set_v_worker g true s' else s') g' v' = view s' g' v') as Hview by (by destruct more).
    assert (v_data (if more then set_v_worker g true s' else s') = v_data s') as Hd by (by destruct more).
    assert (v_dev (if more then set_v_worker g true s' else s') = v_dev s') as Hdev by (by destruct more).
    constructor.
    + rewrite Hdev, H5. apply Hq.
    + intros g' v' Hin' Hne. rewrite Hview, H2 by congruence. by apply (qu_others _ _ Hq).
    + intros g' v' Hin'. rewrite Hd, H3. by apply (qu_length _ _ Hq).
Qed.

(** A notification that GuC is done, and the one that starts it all. *)
Lemma done_sum g s :
  quiet n s ->
  let s' := snd (atomically (pf_handle_vf_event g v GUC_PF_NOTIFY_VF_FLR_DONE) s) in
  sum_of s' = sum_done g (sum_of s) /\ quiet n s'.
Proof using Type*.
  intros Hq. cbn zeta. change (snd _) with (set_v_worker g true (add_event (Notified g v GUC_PF_NOTIFY_VF_FLR_DONE)
    (put_bit g v IOV_VF_FLR_DONE_RECEIVED true s))).
  set (s1 := put_bit g v IOV_VF_FLR_DONE_RECEIVED true s).
  assert (forall g' v', view s1 g' v' = if decide (g' = g /\ v' = v) then put_fbit IOV_VF_FLR_DONE_RECEIVED true (view s g v)
    else view s g' v') as Hview.
  { intros g' v'. unfold s1. rewrite view_put by done. pose proof (qu_length _ _ Hq g v Hv).
    destruct (decide (g' = g /\ v' = v)); [by rewrite decide_True by tauto|by rewrite decide_False by tauto]. }
  split.
  - assert (forall g', gsum_of (set_v_worker g true (add_event (Notified g v GUC_PF_NOTIFY_VF_FLR_DONE) s1)) g' =
      if decide (g' = g) then of_gt g (sum_done g (sum_of s)) else gsum_of s g') as Hg.
    { intros g'. unfold gsum_of. change (view (set_v_worker _ _ _) g' v) with (view s1 g' v). rewrite Hview.
      unfold started, guc_done, finished. cbn [v_trace v_worker set_v_worker add_event]. rewrite !count_snoc.
      change (v_trace s1) with (v_trace s). change (v_worker s1) with (v_worker s).
      repeat case_decide; destruct_and?; simplify_eq; try tauto; rewrite ?Nat.add_0_r, ?Nat.add_1_r; [|done].
      unfold sum_done. by destruct g. }
    unfold sum_of. rewrite !Hg. by destruct g.
  - constructor; [apply Hq| |].
    + intros g' v' Hin Hne. change (view (set_v_worker _ _ _) g' v') with (view s1 g' v'). rewrite Hview, decide_False by tauto.
      by apply (qu_others _ _ Hq).
    + intros g' v' Hin. change (v_data (set_v_worker _ _ _) g') with (v_data s1 g'). unfold s1. rewrite length_put.
      by apply (qu_length _ _ Hq).
Qed.

Definition begun1 : gsum :=
  {| g_bits := {| b_progress := true; b_start := true; b_done := false; b_finish := false; b_sync := true |};
     g_queued := true; g_started := 0; g_done := 0; g_finished := 0 |}.
Definition begun : sum := (begun1, begun1).

Lemma flr_sum s :
  quiet n s -> v_trace s = [] -> (forall g, view s g v = no_fbits) ->
  let s' := snd (atomically (pf_handle_vf_event GT_PRIMARY v GUC_PF_NOTIFY_VF_FLR) s) in
  sum_of s' = begun /\ quiet n s'.
Proof using Type*.
  intros Hq Ht Hview. cbn zeta.
  assert (vf_bit s GT_PRIMARY v IOV_VF_FLR_IN_PROGRESS = false) as Hp
    by apply (f_equal b_progress (Hview GT_PRIMARY)).
  set (init := fun g s => set_v_worker g true (add_event (Asked g v) (put_bit g v IOV_VF_NEEDS_FLR_START true
    (put_bit g v IOV_VF_NEEDS_FLR_DONE_SYNC true (put_bit g v IOV_VF_FLR_IN_PROGRESS true s))))).
  assert (snd (atomically (pf_handle_vf_event GT_PRIMARY v GUC_PF_NOTIFY_VF_FLR) s) =
    init GT_MEDIA (init GT_PRIMARY (upd_data GT_PRIMARY v (with_paused false) s))) as ->.
  { change (wp (atomically (pf_handle_vf_flr GT_PRIMARY v ≫= fun _ => mret 0))
      (fun _ s' => s' = init GT_MEDIA (init GT_PRIMARY (upd_data GT_PRIMARY v (with_paused false) s))) s).
    apply wp_atomically_bind. unfold pf_handle_vf_flr, pf_init_vf_flr, all_gts. rewrite Hmedia.
    apply wp_act, wp_gets. rewrite Hp. done. }
  set (s1 := upd_data GT_PRIMARY v (with_paused false) s).
  assert (forall g' v', view s1 g' v' = view s g' v') as Hview1
    by (intros; unfold view, s1; by rewrite !vf_bit_upd).
  assert (forall g', length (v_data s1 g') = length (v_data s g')) as Hlen1.
  { intros g'. unfold s1, upd_data, set_v_data. simpl. case_decide; [subst; apply length_alter|done]. }
  assert (forall g s, (v < length (v_data s g))%nat -> forall g' v', view (init g s) g' v' =
    if decide (g' = g /\ v' = v) then put_fbit IOV_VF_NEEDS_FLR_START true (put_fbit IOV_VF_NEEDS_FLR_DONE_SYNC true
      (put_fbit IOV_VF_FLR_IN_PROGRESS true (view s g v))) else view s g' v') as Hinit.
  { intros g s0 Hl g' v'. unfold init. change (view (set_v_worker _ _ ?x) g' v') with (view x g' v').
    change (view (add_event _ ?x) g' v') with (view x g' v'). rewrite !view_put, !length_put by done.
    destruct (decide (g' = g /\ v' = v)) as [[-> ->]|Hne]; [by rewrite !decide_True by done|by rewrite !decide_False by tauto]. }
  assert (forall g s g', length (v_data (init g s) g') = length (v_data s g')) as Hlen.
  { intros g s0 g'. unfold init. cbn [v_data set_v_worker add_event]. by rewrite !length_put. }
  assert (forall g, (v < length (v_data s1 g))%nat) as Hl1 by (intros; rewrite Hlen1; by apply (qu_length _ _ Hq)).
  split.
  - assert (forall g, gsum_of (init GT_MEDIA (init GT_PRIMARY s1)) g = begun1) as Hg; [|unfold sum_of; by rewrite !Hg].
    intros g. unfold gsum_of.
    assert (v_trace (init GT_MEDIA (init GT_PRIMARY s1)) = [Asked GT_PRIMARY v; Asked GT_MEDIA v]) as ->.
    { change (v_trace (init GT_MEDIA (init GT_PRIMARY s1)))
        with ((v_trace s ++ [Asked GT_PRIMARY v]) ++ [Asked GT_MEDIA v]). by rewrite Ht. }
    rewrite !Hinit by (rewrite ?Hlen; apply Hl1). rewrite !Hview1, !Hview.
    unfold started, guc_done, finished. change [Asked GT_PRIMARY v; Asked GT_MEDIA v] with (([] ++ [Asked GT_PRIMARY v]) ++ [Asked GT_MEDIA v]).
    rewrite !count_snoc. destruct g; repeat case_decide; destruct_and?; simplify_eq; try tauto; done.
  - constructor; [apply Hq| |].
    + intros g v' Hin Hne. rewrite !Hinit, !decide_False by (rewrite ?Hlen; apply Hl1 || tauto). rewrite Hview1.
      by apply (qu_others _ _ Hq).
    + intros g v' Hin. rewrite !Hlen, Hlen1. by apply (qu_length _ _ Hq).
Qed.
End sum.

(** ** Every order of the runs *)

Inductive op := OpWork (g : gt_id) | OpDone (g : gt_id).
#[export] Instance op_eq_dec : EqDecision op.
Proof. solve_decision. Defined.

(** GuC accepts every command; or refuses to start the reset on the media GT. *)
Definition accepts : gt_id -> Z -> Z := fun _ _ => 0.
Definition refuses_media : gt_id -> Z -> Z := fun g cmd =>
  match g with GT_MEDIA => if cmd =? GUC_PF_TRIGGER_VF_FLR_START then - EIO else 0 | GT_PRIMARY => 0 end.

(** GuC is done with a reset once after it accepted to start it. *)
Definition sum_op (ans : gt_id -> Z -> Z) (o : op) (p : sum) : option sum :=
  match o with
  | OpWork g => Some (sum_work ans g p)
  | OpDone g => if (g_done (of_gt g p) <? g_started (of_gt g p))%nat then Some (sum_done g p) else None
  end.
Definition sum_run (ans : gt_id -> Z -> Z) (ops : list op) (p : sum) : option sum :=
  foldl (fun p o => p ≫= sum_op ans o) (Some p) ops.

Definition all_ops : list op := [OpWork GT_PRIMARY; OpWork GT_MEDIA; OpDone GT_PRIMARY; OpDone GT_MEDIA].

(** The summaries that can be reached, by exploration. *)
Fixpoint explore (ans : gt_id -> Z -> Z) (fuel : nat) (seen todo : list sum) : list sum :=
  match fuel, todo with
  | S fuel, p :: todo =>
      if decide (p ∈ seen) then explore ans fuel seen todo
      else explore ans fuel (p :: seen) (omap (fun o => sum_op ans o p) all_ops ++ todo)
  | _, _ => seen
  end.
Definition reached : list sum := Eval vm_compute in explore accepts 2000 [] [begun].

Definition ended : sum :=
  let x := {| g_bits := no_fbits; g_queued := false; g_started := 1; g_done := 1; g_finished := 1 |} in (x, x).

(** What is left to do once GuC is done on both GTs. *)
Definition gweight (x : gsum) : nat :=
  let b := g_bits x in
  (if b_start b then 1 else 0) + (if b_sync b then 1 else 0) + (if b_done b then 2 else 0)
  + (if b_finish b then 1 else 0) + (if b_progress b then 1 else 0) + (if g_queued x then 1 else 0).
Definition weight (p : sum) : nat := gweight p.1 + gweight p.2.

Definition closed (p : sum) : bool :=
  forallb (fun o => match sum_op accepts o p with Some q => bool_decide (q ∈ reached) | None => true end) all_ops.
Definition done_on (g : gt_id) (p : sum) : bool := (g_done (of_gt g p) =? 1)%nat.
Definition done_stays (p : sum) : bool :=
  forallb (fun o => match sum_op accepts o p with
    | Some q => forallb (fun g => implb (done_on g p || bool_decide (o = OpDone g)) (done_on g q)) [GT_PRIMARY; GT_MEDIA]
    | None => true end) all_ops.
Definition both_done (p : sum) : bool := done_on GT_PRIMARY p && done_on GT_MEDIA p.
Definition works_down (p : sum) : bool :=
  implb (both_done p)
    (forallb (fun g => bool_decide (sum_op accepts (OpDone g) p = None)) [GT_PRIMARY; GT_MEDIA] && forallb (fun g => let q := sum_work accepts g p in bool_decide (q = p) || (weight q <? weight p)%nat) [GT_PRIMARY; GT_MEDIA]
     && (bool_decide (p = ended) ||
         negb (bool_decide (sum_work accepts GT_PRIMARY p = p) && bool_decide (sum_work accepts GT_MEDIA p = p)))
     && (weight p <=? 10)%nat).

Lemma begun_reached : begun ∈ reached.
Proof. apply (bool_decide_unpack _). by vm_compute. Qed.
Lemma reached_checked : forallb (fun p => closed p && done_stays p && works_down p) reached = true.
Proof. by vm_compute. Qed.

Lemma reached_check p : p ∈ reached -> closed p = true /\ done_stays p = true /\ works_down p = true.
Proof.
  intros Hp. pose proof reached_checked as Hc. rewrite forallb_forall in Hc.
  specialize (Hc p (proj1 (list_elem_of_In _ _) Hp)). propify. done.
Qed.
Lemma all_ops_all o : In o all_ops.
Proof. destruct o as [[]|[]]; unfold all_ops; simpl; tauto. Qed.

Lemma op_reached o p q : p ∈ reached -> sum_op accepts o p = Some q ->
  q ∈ reached /\ forall g, done_on g p = true \/ o = OpDone g -> done_on g q = true.
Proof.
  intros (Hc & Hd & _)%reached_check Ho. unfold closed, done_stays in *. rewrite forallb_forall in Hc, Hd.
  specialize (Hc o (all_ops_all o)). specialize (Hd o (all_ops_all o)). rewrite Ho in Hc, Hd.
  split; [by apply bool_decide_eq_true in Hc|]. intros g Hg. rewrite forallb_forall in Hd.
  assert (In g [GT_PRIMARY; GT_MEDIA]) as Hin by (destruct g; simpl; tauto). specialize (Hd g Hin).
  destruct Hg as [Hg|Hg]; [by rewrite Hg in Hd|]. by rewrite (bool_decide_eq_true_2 _ Hg), orb_true_r in Hd.
Qed.

Lemma sum_run_cons ans o ops p : sum_run ans (o :: ops) p = sum_op ans o p ≫= sum_run ans ops.
Proof.
  unfold sum_run. simpl. destruct (sum_op ans o p) as [q|]; [done|]. simpl.
  induction ops as [|o' ops IH]; [done|]. exact IH.
Qed.
Lemma sum_run_app ans ops1 ops2 p : sum_run ans (ops1 ++ ops2) p = sum_run ans ops1 p ≫= sum_run ans ops2.
Proof.
  revert p. induction ops1 as [|o ops1 IH]; intros p; [done|]. cbn [app]. rewrite !sum_run_cons.
  destruct (sum_op ans o p) as [q|]; [apply IH|done].
Qed.

Lemma run_reached ops : forall p q, p ∈ reached -> sum_run accepts ops p = Some q ->
  q ∈ reached /\ forall g, done_on g p = true \/ OpDone g ∈ ops -> done_on g q = true.
Proof.
  induction ops as [|o ops IH]; intros p q Hp; [intros [= <-]; split; [done|]; intros g [?|Hg%elem_of_nil]; done|].
  rewrite sum_run_cons. destruct (sum_op accepts o p) as [p1|] eqn:Ho; [|done]. simpl. intros Hq.
  destruct (op_reached o p p1 Hp Ho) as [Hp1 Hd1]. destruct (IH p1 q Hp1 Hq) as [Hq1 Hd]. split; [done|].
  intros g [Hg|[<-|Hg]%elem_of_cons]; apply Hd; [left|left|by right]; apply Hd1; [by left|by right].
Qed.

Lemma gts_all (f : gt_id -> bool) : forallb f [GT_PRIMARY; GT_MEDIA] = true -> forall g, f g = true.
Proof. intros H g. rewrite forallb_forall in H. apply H. destruct g; simpl; tauto. Qed.
Lemma works_down_spec p : p ∈ reached -> both_done p = true ->
  (forall g, sum_op accepts (OpDone g) p = None) /\
  (forall g, sum_work accepts g p = p \/ (weight (sum_work accepts g p) < weight p)%nat) /\
  (p = ended \/ sum_work accepts GT_PRIMARY p <> p \/ sum_work accepts GT_MEDIA p <> p) /\ (weight p <= 10)%nat.
Proof.
  intros (_ & _ & Hw)%reached_check Hb. unfold works_down in Hw. rewrite Hb in Hw. cbn [implb] in Hw.
  rewrite !andb_true_iff in Hw. destruct Hw as [[[Hn Hs] Hf] Hle]. split_and!.
  - intros g. eapply bool_decide_eq_true, (gts_all _ Hn g).
  - intros g. pose proof (gts_all _ Hs g) as [H|H]%orb_true_iff;
      [left; by apply bool_decide_eq_true in H|right; by apply Nat.ltb_lt].
  - apply orb_true_iff in Hf as [H|H]; [left; by apply bool_decide_eq_true in H|right].
    apply negb_true_iff, andb_false_iff in H as [H|H]; apply bool_decide_eq_false in H; tauto.
  - by apply Nat.leb_le.
Qed.

(** Once GuC is done on both GTs, a run of a worker changes nothing or makes progress. *)
Lemma work_down ops : forall p q, p ∈ reached -> both_done p = true -> sum_run accepts ops p = Some q ->
  (q = p /\ forall g, OpWork g ∈ ops -> sum_work accepts g p = p) \/ (weight q < weight p)%nat.
Proof.
  induction ops as [|o ops IH]; intros p q Hp Hb; [intros [= <-]; left; split; [done|]; intros g Hg; by apply elem_of_nil in Hg|].
  rewrite sum_run_cons. destruct (sum_op accepts o p) as [p1|] eqn:Ho; [|done]. simpl. intros Hq.
  destruct (op_reached o p p1 Hp Ho) as [Hp1 Hd1].
  assert (both_done p1 = true) as Hb1.
  { unfold both_done in *. propify. by rewrite !Hd1 by tauto. }
  destruct (works_down_spec p Hp Hb) as (Hn & Hstep & _ & _).
  destruct o as [g|g]; [|by rewrite Hn in Ho]. simpl in Ho. simplify_eq. specialize (Hstep g).
  destruct (IH _ q Hp1 Hb1 Hq) as [[-> Hfix]|Hlt]; destruct Hstep as [He|Hstep]; try (right; lia).
  - left. split; [done|]. intros g' [[= ->]|Hg']%elem_of_cons; [done|]. rewrite <- He at 1. rewrite Hfix by done. done.
  - right. by rewrite He in Hlt.
Qed.

(** Each round in which both workers run does something until the reset is over. *)
Lemma rounds_end rounds : forall p q, p ∈ reached -> both_done p = true ->
  Forall (fun r => OpWork GT_PRIMARY ∈ r /\ OpWork GT_MEDIA ∈ r) rounds -> sum_run accepts (concat rounds) p = Some q ->
  (weight p < length rounds)%nat -> q = ended.
Proof.
  induction rounds as [|r rounds IH]; intros p q Hp Hb Hr; [simpl; lia|]. apply Forall_cons in Hr as [[H1 H2] Hr].
  simpl concat. rewrite sum_run_app. destruct (sum_run accepts r p) as [p1|] eqn:Hp1; [|done]. cbn [mbind option_bind]. intros Hq Hlen.
  destruct (run_reached r p p1 Hp Hp1) as [Hin Hd].
  assert (both_done p1 = true) as Hb1 by (unfold both_done in *; propify; by rewrite !Hd by tauto).
  destruct (works_down_spec p Hp Hb) as (_ & _ & Hf & _).
  destruct (work_down r p p1 Hp Hb Hp1) as [[-> Hfix]|Hlt].
  - destruct Hf as [->|[Hf|Hf]]; [|by destruct Hf; apply Hfix|by destruct Hf; apply Hfix].
    clear IH Hlen Hp1 Hfix Hb1 Hd. revert q Hq. induction Hr as [|r' rounds' _ Hr IH]; [by intros q [= <-]|].
    intros q. simpl concat. rewrite sum_run_app. destruct (sum_run accepts r' ended) as [p2|] eqn:Hp2; [|done].
    destruct (work_down r' ended p2 Hp Hb Hp2) as [[-> _]|Hlt]; [apply IH|].
    by apply Nat.nlt_0_r in Hlt.
  - simpl in Hlen. apply (IH p1 q); [done..|lia].
Qed.

(** *** When the media GT cannot start *)

Definition reached_refused : list sum := Eval vm_compute in explore refuses_media 2000 [] [begun].
Definition stuck (p : sum) : bool :=
  b_progress (g_bits p.1) && g_queued p.1 && (g_finished p.1 =? 0)%nat.
Lemma stuck_checked :
  forallb (fun p => forallb (fun o => match sum_op refuses_media o p with
    | Some q => bool_decide (q ∈ reached_refused) | None => true end) all_ops && stuck p) reached_refused = true.
Proof. by vm_compute. Qed.
Lemma begun_stuck : begun ∈ reached_refused.
Proof. apply (bool_decide_unpack _). by vm_compute. Qed.
Lemma stuck_run ops : forall p q, p ∈ reached_refused -> sum_run refuses_media ops p = Some q -> q ∈ reached_refused.
Proof.
  induction ops as [|o ops IH]; intros p q Hp; [by intros [= <-]|].
  rewrite sum_run_cons. destruct (sum_op refuses_media o p) as [p1|] eqn:Ho; [|done]. apply IH.
  pose proof stuck_checked as Hc. rewrite forallb_forall in Hc.
  specialize (Hc p (proj1 (list_elem_of_In _ _) Hp)). apply andb_true_iff in Hc as [Hc _].
  rewrite forallb_forall in Hc. specialize (Hc o (all_ops_all o)). rewrite Ho in Hc. by apply bool_decide_eq_true in Hc.
Qed.

(** ** The code under every order *)

Section live.
Context `{E : Env} `{R : RelayEnv} (v n : nat).

Definition do_op (o : op) (s : vf_state) : vf_state :=
  match o with
  | OpWork g => snd (work g s)
  | OpDone g => snd (atomically (pf_handle_vf_event g v GUC_PF_NOTIFY_VF_FLR_DONE) s)
  end.
Definition run_ops (ops : list op) (s : vf_state) : vf_state := foldl (fun s o => do_op o s) s ops.

(** GuC notifies only of resets that it accepted to start and has not notified of. *)
Fixpoint guc_obeys (ops : list op) (s : vf_state) : Prop :=
  match ops with
  | [] => True
  | o :: ops =>
      (forall g, o = OpDone g -> (guc_done g v (v_trace s) < started g v (v_trace s))%nat) /\ guc_obeys ops (do_op o s)
  end.

Fixpoint obeys (ops : list op) (s : vf_state) : bool :=
  match ops with
  | [] => true
  | o :: ops =>
      match o with OpDone g => (guc_done g v (v_trace s) <? started g v (v_trace s))%nat | OpWork _ => true end
      && obeys ops (do_op o s)
  end.
Lemma guc_obeys_check ops s : obeys ops s = true -> guc_obeys ops s.
Proof.
  revert s. induction ops as [|o ops IH]; intros s; [done|]. cbn [obeys guc_obeys]. intros [Ho Hops]%andb_true_iff.
  split; [|by apply IH]. intros g ->. by apply Nat.ltb_lt.
Qed.

Lemma run_sum ans ops : has_media_gt = true -> v ∈ seq 1 n -> guc_answers v ans ->
  forall s, quiet v n s -> guc_obeys ops s ->
  sum_run ans ops (sum_of v s) = Some (sum_of v (run_ops ops s)) /\ quiet v n (run_ops ops s).
Proof.
  intros Hmedia Hv Hans. induction ops as [|o ops IH]; intros s Hq Ho; [done|]. destruct Ho as [Hd Ho].
  rewrite sum_run_cons. unfold run_ops. simpl. change (foldl _ ?x ops) with (run_ops ops x).
  assert (sum_op ans o (sum_of v s) = Some (sum_of v (do_op o s)) /\ quiet v n (do_op o s)) as [-> Hq1]; [|by apply IH].
  destruct o as [g|g]; simpl.
  - destruct (work_sum v Hmedia n Hv ans g s Hans Hq) as [-> ?]. done.
  - destruct (done_sum v Hmedia n Hv g s Hq) as [He ?]. split; [|done].
    assert (g_done (of_gt g (sum_of v s)) < g_started (of_gt g (sum_of v s)))%nat as ->%Nat.ltb_lt
      by (specialize (Hd g eq_refl); by destruct g). f_equal. symmetry. exact He.
Qed.

(** C33: a reset of VF [v] ends on both GTs. GuC accepts PF's commands and, in its own time, notifies
    that it is done on each GT ([ops1]); the workers run in any order, interrupted by these
    notifications only. When afterwards both workers have come to run eleven times, in any
    order ([rounds]), no bit of the reset is left, no worker is queued any more, and PF has had
    GuC start the reset and finish it exactly once on each GT. *)
Theorem flr_completes ops1 rounds s :
  has_media_gt = true -> v ∈ seq 1 n -> guc_answers v accepts ->
  quiet v n s -> v_trace s = [] -> (forall g, view s g v = no_fbits) ->
  let s0 := snd (atomically (pf_handle_vf_event GT_PRIMARY v GUC_PF_NOTIFY_VF_FLR) s) in
  guc_obeys (ops1 ++ concat rounds) s0 ->
  (forall g, OpDone g ∈ ops1) ->
  Forall (fun r => OpWork GT_PRIMARY ∈ r /\ OpWork GT_MEDIA ∈ r) rounds -> (11 <= length rounds)%nat ->
  let s' := run_ops (ops1 ++ concat rounds) s0 in
  forall g, view s' g v = no_fbits /\ v_worker s' g = false /\
    started g v (v_trace s') = 1%nat /\ guc_done g v (v_trace s') = 1%nat /\ finished g v (v_trace s') = 1%nat.
Proof.
  intros Hmedia Hv Hans Hq Ht Hview s0 Hobeys Hdone Hr Hlen s'.
  destruct (flr_sum v Hmedia n Hv s Hq Ht Hview) as [Hs0 Hq0]. fold s0 in Hs0, Hq0.
  destruct (run_sum _ _ Hmedia Hv Hans s0 Hq0 Hobeys) as [Hrun _]. fold s' in Hrun.
  rewrite Hs0, sum_run_app in Hrun. destruct (sum_run accepts ops1 begun) as [p|] eqn:Hp; [|done].
  destruct (run_reached ops1 begun p begun_reached Hp) as [Hin Hd].
  assert (both_done p = true) as Hb by (unfold both_done; by rewrite !Hd by (right; apply Hdone)).
  destruct (works_down_spec p Hin Hb) as (_ & _ & _ & Hw).
  assert (sum_of v s' = ended) as Hend by (eapply (rounds_end rounds p); [done..|lia]).
  assert (forall g, gsum_of v s' g = {| g_bits := no_fbits; g_queued := false; g_started := 1; g_done := 1; g_finished := 1 |})
    as Hg by (intros []; [apply (f_equal fst Hend)|apply (f_equal snd Hend)]).
  intros g. specialize (Hg g).
  split_and!; [exact (f_equal g_bits Hg)|exact (f_equal g_queued Hg)|exact (f_equal g_started Hg)
              |exact (f_equal g_done Hg)|exact (f_equal g_finished Hg)].
Qed.

(** When GuC refuses to start a reset on the media GT, the reset on the root GT never ends,
    and its worker never rests: whatever the workers do and GuC notifies, in any order, the
    reset stays in progress, the worker is queued again, and PF never has GuC finish. The
    failed GT keeps its bit [IOV_VF_NEEDS_FLR_DONE_SYNC], which nothing clears any more. *)
Theorem flr_refused_spins ops s :
  has_media_gt = true -> v ∈ seq 1 n -> guc_answers v refuses_media ->
  quiet v n s -> v_trace s = [] -> (forall g, view s g v = no_fbits) ->
  let s0 := snd (atomically (pf_handle_vf_event GT_PRIMARY v GUC_PF_NOTIFY_VF_FLR) s) in
  guc_obeys ops s0 ->
  let s' := run_ops ops s0 in
  vf_bit s' GT_PRIMARY v IOV_VF_FLR_IN_PROGRESS = true /\ v_worker s' GT_PRIMARY = true /\
  finished GT_PRIMARY v (v_trace s') = 0%nat.
Proof.
  intros Hmedia Hv Hans Hq Ht Hview s0 Hobeys s'.
  destruct (flr_sum v Hmedia n Hv s Hq Ht Hview) as [Hs0 Hq0]. fold s0 in Hs0, Hq0.
  destruct (run_sum _ _ Hmedia Hv Hans s0 Hq0 Hobeys) as [Hrun _]. fold s' in Hrun. rewrite Hs0 in Hrun.
  pose proof (stuck_run ops _ _ begun_stuck Hrun) as Hin.
  pose proof stuck_checked as Hc. rewrite forallb_forall in Hc.
  specialize (Hc _ (proj1 (list_elem_of_In _ _) Hin)). unfold stuck in Hc. rewrite !andb_true_iff in Hc.
  destruct Hc as [_ [[Hp Hw] Hf]]. split_and!; [exact Hp|exact Hw|]. by apply Nat.eqb_eq in Hf.
Qed.
End live.
