(* ===== verification/FlrRuns.v ===== *)
(** * Runs of the reset protocol

    Runs of the system of Flr.v that are computed, among them one that loses track of a reset,
    and the instances of the theorems on sample devices. *)

From S2P Require Export FlrSync FlrLive.

(** ** Computed runs *)

Section sched.
Context `{E : Env} `{R : RelayEnv}.

(** The choices of a scheduler, one per step of the system. *)
Inductive choice := SCall (c : call) | SDequeue (g : gt_id) | SWorker (g : gt_id) | SThread (i : nat).

Definition is_idle (p : prog vf_state unit) : bool := match p with Ret _ => true | Act _ _ => false end.

Definition sys_choose (c : choice) (x : sys) : option sys :=
  match c with
  | SCall c => Some {| sys_state := sys_state x; sys_worker := sys_worker x;
                       sys_threads := sys_threads x ++ [program c] |}
  | SDequeue g =>
      if is_idle (sys_worker x g) && v_worker (sys_state x) g
      then Some (with_worker g (pf_state_worker_func g) (set_v_worker g false (sys_state x)) x) else None
  | SWorker g => let '(p, s) := step_prog (sys_worker x g) (sys_state x) in Some (with_worker g p s x)
  | SThread i =>
      p ← sys_threads x !! i;
      let '(p', s) := step_prog p (sys_state x) in
      Some {| sys_state := s; sys_worker := sys_worker x; sys_threads := <[i := p']> (sys_threads x) |}
  end.
Definition sys_sched (l : list choice) (x : sys) : option sys := foldl (fun x c => x ≫= sys_choose c) (Some x) l.

Lemma sys_choose_step c x y : sys_choose c x = Some y -> sys_step x y.
Proof.
  destruct c as [c|g|g|i]; simpl.
  - intros [= <-]. constructor.
  - destruct (sys_worker x g) as [[]|] eqn:Hw; [|done]. simpl. destruct (v_worker (sys_state x) g) eqn:Hq; [|done].
    intros [= <-]. by constructor.
  - destruct (step_prog _ _) as [p s] eqn:Hs. intros [= <-]. by constructor.
  - destruct (sys_threads x !! i) as [p|] eqn:Hi; [|done]. simpl. destruct (step_prog _ _) as [p' s] eqn:Hs.
    intros [= <-]. by econstructor.
Qed.
Lemma sys_sched_run l x y : sys_sched l x = Some y -> sys_run x y.
Proof.
  revert y. induction l as [|c l IH] using rev_ind; intros y; [intros [= <-]; apply rtc_refl|].
  unfold sys_sched. rewrite foldl_snoc. change (foldl _ _ l) with (sys_sched l x).
  destruct (sys_sched l x) as [z|]; [|done]. simpl. intros Hy.
  eapply rtc_r; [by apply IH|by eapply sys_choose_step].
Qed.

(** Where a schedule leads. *)
Definition sys_after (l : list choice) (x : sys) : sys := default x (sys_sched l x).
Lemma sys_after_run l x : bool_decide (is_Some (sys_sched l x)) = true -> sys_run x (sys_after l x).
Proof.
  intros [y Hy]%bool_decide_eq_true. unfold sys_after. rewrite Hy. by apply (sys_sched_run l).
Qed.
End sched.

(** ** Samples *)

(** GuC accepts every command, or refuses to start a reset on the media GT. *)
Definition sample_env_vf (media : bool) (reply : guc_req -> Z) : Env := {|
  env_gtt := sample_gtt; has_media_gt := media; env_alloc _ := true; env_vma _ := 0;
  env_vma_addr n := 0x100000; guc_reply _ r := reply r; ggtt_pin_bias := 0x100000;
  ggtt_total := sample_total; wopcm_guc_size _ := 0x100000;
  require_binder := false; bind_ready _ := false; bind_fails_after _ := None; scratch_pte := 1 |}.
Definition sample_accepts : Env := sample_env_vf true (fun _ => 0).
Definition sample_one_gt : Env := sample_env_vf false (fun _ => 0).
Definition sample_refuses : Env := sample_env_vf true (fun r =>
  match req_gt r with
  | GT_MEDIA => if (req_msg r).[2%nat | 0] =? GUC_PF_TRIGGER_VF_FLR_START then - EIO else 0
  | GT_PRIMARY => 0 end).
Definition sample_pf : RelayEnv :=
  {| iov_mode := I915_IOV_MODE_SRIOV_PF; ct_send_nb _ _ := 0; ct_clears _ := 0%nat; mmio_read _ reg := 0 |}.

(** A PF with two VFs; the workers are queued when [queued] says so. *)
Definition sample_vf_dev (media : bool) (reply : guc_req -> Z) : @dev (sample_env_vf media reply) := {|
  d_prov _ := sample_prov; d_totalvfs := 2; d_numvfs := 2; d_status := 2; d_disable_auto := false;
  d_ids_in_use _ := 100; d_num_guc_ids _ := 12799;
  d_mm := ([(0, 0x100000)] : list (Z * Z)) : @gtt_space (@env_gtt (sample_env_vf media reply));
  d_ptes _ := 0; d_shadows := None; d_log := []; d_ticks := 0; d_live := 0 |}.
Definition sample_vfs (media : bool) (reply : guc_req -> Z) (queued : bool) : @vf_state (sample_env_vf media reply) :=
  {| v_dev := sample_vf_dev media reply; v_data _ := replicate 3 data0; v_worker _ := queued; v_trace := [] |}.
Definition sample_sys : @sys sample_accepts :=
  {| sys_state := sample_vfs true (fun _ => 0) true; sys_worker _ := Ret tt; sys_threads := [] |}.

Section runs.
#[local] Existing Instance sample_accepts.
#[local] Existing Instance sample_pf.

(** GuC notifies the root GT of [event] for VF 1. *)
Definition notify_msg (event : Z) : list Z :=
  [Z.lor (Z.lor (FIELD_PREP GUC_HXG_MSG_0_ORIGIN GUC_HXG_ORIGIN_GUC) (FIELD_PREP GUC_HXG_MSG_0_TYPE GUC_HXG_TYPE_EVENT))
         (FIELD_PREP GUC_HXG_EVENT_MSG_0_ACTION GUC_ACTION_GUC2PF_VF_STATE_NOTIFY); 1; event].

(** The worker, queued for another VF, comes by between the first write of [pf_init_vf_flr] and the
    next ones; then the reset starts. *)
Definition racy_schedule : list choice :=
  [SCall (CallState GT_PRIMARY (notify_msg GUC_PF_NOTIFY_VF_FLR))] ++ replicate 4 (SThread 0) ++
  [SDequeue GT_PRIMARY] ++ replicate 17 (SWorker GT_PRIMARY) ++ replicate 10 (SThread 0) ++
  [SDequeue GT_PRIMARY] ++ replicate 3 (SWorker GT_PRIMARY).

(** PF can lose sight of a reset. [pf_init_vf_flr] sets [IOV_VF_FLR_IN_PROGRESS] before the bits that
    stand for the work; when the worker looks at the VF in between, it takes the reset for a
    finished one. In this run, GuC has started the reset of VF 1 and is not done with it, PF
    has not had it finished, and [intel_iov_state_no_flr] says that there is none. *)
Theorem flr_progress_lost :
  exists y, sys_run sample_sys y /\
    let t := v_trace (sys_state y) in
    started GT_PRIMARY 1 t = 1%nat /\ guc_done GT_PRIMARY 1 t = 0%nat /\ finished GT_PRIMARY 1 t = 0%nat /\
    fst (atomically (intel_iov_state_no_flr GT_PRIMARY 1) (sys_state y)) = true.
Proof.
  exists (sys_after racy_schedule sample_sys). split; [apply sys_after_run; by vm_compute|by vm_compute].
Qed.

Lemma sample_sys_idle : sys_idle sample_sys.
Proof. done. Qed.
Lemma sample_no_flr v : no_flr_bits v (sys_state sample_sys).
Proof.
  intros g b Hb. destruct v as [|[|[|v]]]; rewrite !elem_of_cons in Hb; destruct_or?; subst; try done; by apply elem_of_nil in Hb.
Qed.

(** A reset of VF 1 that goes through: PF learns of it, both workers start it, GuC is done on
    both GTs, the workers come by until it is finished. *)
Definition worker_turn (g : gt_id) : list choice := SDequeue g :: replicate 40 (SWorker g).
Definition good_schedule : list choice :=
  [SCall (CallState GT_PRIMARY (notify_msg GUC_PF_NOTIFY_VF_FLR))] ++ replicate 20 (SThread 0) ++
  worker_turn GT_PRIMARY ++ worker_turn GT_MEDIA ++
  [SCall (CallState GT_PRIMARY (notify_msg GUC_PF_NOTIFY_VF_FLR_DONE)); SThread 1; SThread 1; SThread 1;
   SCall (CallState GT_MEDIA (notify_msg GUC_PF_NOTIFY_VF_FLR_DONE)); SThread 2; SThread 2; SThread 2] ++
  concat (replicate 3 (worker_turn GT_PRIMARY ++ worker_turn GT_MEDIA)).
Definition good_sys : sys := sys_after good_schedule sample_sys.

Lemma good_follows : guc_follows 1 (v_trace (sys_state good_sys)).
Proof. apply guc_follows_check. by vm_compute. Qed.

Lemma good_run : sys_run sample_sys good_sys.
Proof. unfold good_sys. apply sys_after_run. by vm_compute. Qed.

Lemma flr_refines_witness :
  pf_follows (v_trace (sys_state good_sys)) /\
  flr_run GT_MEDIA 1 (v_trace (sys_state good_sys)) =
    Some {| f_asked := 1; f_started := 1; f_done := 1; f_finished := 1 |}.
Proof.
  pose proof (flr_refines sample_sys good_sys sample_sys_idle sample_no_flr good_run) as Hw.
  split; [exact (proj1 Hw)|]. by vm_compute.
Defined.

Lemma sample_vf_data v g : v ∈ seq 1 2 -> (v < length (v_data (sys_state sample_sys) g))%nat.
Proof. intros Hv%elem_of_seq. simpl. lia. Qed.

Lemma flr_sync_witness :
  let t := v_trace (sys_state good_sys) in finished GT_PRIMARY 1 t = 1%nat /\ done_everywhere 1 t.
Proof.
  split; [by vm_compute|].
  apply (flr_sync 1 sample_sys good_sys GT_PRIMARY eq_refl sample_sys_idle (sample_no_flr 1)
    (fun g => sample_vf_data 1 g ltac:(by apply elem_of_seq; lia))
    good_run good_follows).
  by vm_compute.
Defined.

(** The same device outside the system: VF 1 has nothing to do, then is asked to reset. *)
Definition sample_start : vf_state := sample_vfs true (fun _ => 0) false.
Lemma sample_quiet (reply : guc_req -> Z) : @quiet (sample_env_vf true reply) 1 2 (sample_vfs true reply false).
Proof.
  constructor; [done| |]; intros g v Hv%elem_of_seq; [|simpl; lia].
  intros _. destruct v as [|[|[|v]]]; try lia; by vm_compute.
Qed.

Definition sample_rounds : list (list op) := replicate 11 [OpWork GT_MEDIA; OpWork GT_PRIMARY].
Lemma flr_completes_witness :
  let s0 := snd (atomically (pf_handle_vf_event GT_PRIMARY 1 GUC_PF_NOTIFY_VF_FLR) sample_start) in
  let s' := run_ops 1 ([OpWork GT_PRIMARY; OpDone GT_PRIMARY; OpWork GT_MEDIA; OpDone GT_MEDIA] ++ concat sample_rounds) s0 in
  view s' GT_MEDIA 1 = no_fbits /\ finished GT_MEDIA 1 (v_trace s') = 1%nat.
Proof.
  cbn zeta.
  pose proof (flr_completes 1 2 [OpWork GT_PRIMARY; OpDone GT_PRIMARY; OpWork GT_MEDIA; OpDone GT_MEDIA] sample_rounds
    sample_start eq_refl ltac:(by apply elem_of_seq; lia) ltac:(done) (sample_quiet (fun _ => 0)) eq_refl
    ltac:(by intros []; vm_compute)) as Hw. cbn zeta in Hw.
  specialize (Hw ltac:(apply guc_obeys_check; by vm_compute) ltac:(intros []; rewrite !elem_of_cons; tauto)
    ltac:(apply Forall_replicate; rewrite !elem_of_cons; tauto) ltac:(by vm_compute; lia) GT_MEDIA).
  destruct Hw as (H1 & _ & _ & _ & H5). by split.
Defined.
End runs.

Section refused.
#[local] Existing Instance sample_refuses.
#[local] Existing Instance sample_pf.

Definition sample_start_refused : @vf_state sample_refuses := sample_vfs true (@guc_reply sample_refuses []) false.
Lemma flr_refused_spins_witness :
  let s0 := snd (atomically (pf_handle_vf_event GT_PRIMARY 1 GUC_PF_NOTIFY_VF_FLR) sample_start_refused) in
  let s' := run_ops 1 ([OpWork GT_PRIMARY; OpWork GT_MEDIA; OpDone GT_PRIMARY; OpWork GT_PRIMARY; OpWork GT_PRIMARY]) s0 in
  v_worker s' GT_PRIMARY = true /\ finished GT_PRIMARY 1 (v_trace s') = 0%nat.
Proof.
  cbn zeta.
  pose proof (flr_refused_spins 1 2 [OpWork GT_PRIMARY; OpWork GT_MEDIA; OpDone GT_PRIMARY; OpWork GT_PRIMARY; OpWork GT_PRIMARY]
    sample_start_refused eq_refl ltac:(by apply elem_of_seq; lia) ltac:(by intros [] cmd l [->| ->])
    (sample_quiet (@guc_reply sample_refuses [])) eq_refl
    ltac:(by intros []; vm_compute)) as Hw. cbn zeta in Hw.
  destruct (Hw ltac:(apply guc_obeys_check; by vm_compute)) as (_ & H2 & H3). by split.
Defined.
End refused.

Section one_gt.
#[local] Existing Instance sample_one_gt.
#[local] Existing Instance sample_pf.

(** Both VFs have a reset to start and one that GuC is done with. *)
Definition sample_busy_vfs : @vf_state sample_one_gt :=
  {| v_dev := sample_vf_dev false (fun _ => 0);
     v_data _ := replicate 3 {| state := 7; paused := false; adverse_events := replicate 6 0 |};
     v_worker _ := true; v_trace := [] |}.
Lemma worker_ends_witness :
  let s' := Nat.iter 4 (fun s => snd (work GT_PRIMARY s)) sample_busy_vfs in
  v_worker s' GT_PRIMARY = false /\ view s' GT_PRIMARY 2 = no_fbits /\
  commands 2 s' = [GUC_PF_TRIGGER_VF_FLR_START; GUC_PF_TRIGGER_VF_FLR_FINISH].
Proof.
  destruct (worker_ends sample_busy_vfs eq_refl ltac:(done)) as [H1 H2].
  { split; [done|]. intros v Hv%elem_of_seq. split; [simpl in *; lia|].
    destruct v as [|[|[|v]]]; try (simpl in Hv; lia); by vm_compute. }
  split; [exact H1|]. destruct (H2 ltac:(done) eq_refl 2%nat) as [H3 H4]; [simpl; lia|].
  split; [exact H3|]. rewrite H4. by vm_compute.
Defined.
End one_gt.
