(* ===== verification/Service.v ===== *)
(** * Services of the PF for its VFs

    gt/iov/intel_iov_service.c: the runtime registers shared with VFs, the handshake, the
    paged query of the registers, the update of GGTT entries on behalf of a VF, each through
    the relay and through the MMIO relay. *)

From S2P Require Export Relay Ggtt Sample.

(** ** ABI (iov_actions_abi.h, iov_actions_mmio_abi.h, iov_version_abi.h, guc_actions_pf_abi.h) *)

Definition IOV_VERSION_LATEST_MAJOR : Z := 1.
Definition IOV_VERSION_LATEST_MINOR : Z := 0.
Definition IOV_VERSION_BASE_MAJOR : Z := 1.

Definition IOV_ACTION_VF2PF_HANDSHAKE : Z := 0x0001.
Definition VF2PF_HANDSHAKE_REQUEST_MSG_LEN : nat := 2.
Definition VF2PF_HANDSHAKE_REQUEST_MSG_0_MBZ : Z := GUC_HXG_REQUEST_MSG_0_DATA0.
Definition VF2PF_HANDSHAKE_REQUEST_MSG_1_MAJOR : Z := 0xffff0000.
Definition VF2PF_HANDSHAKE_REQUEST_MSG_1_MINOR : Z := 0xffff.
Definition VF2PF_HANDSHAKE_RESPONSE_MSG_1_MAJOR : Z := 0xffff0000.
Definition VF2PF_HANDSHAKE_RESPONSE_MSG_1_MINOR : Z := 0xffff.

Definition IOV_ACTION_VF2PF_QUERY_RUNTIME : Z := 0x0101.
Definition VF2PF_QUERY_RUNTIME_REQUEST_MSG_LEN : nat := 2.
Definition VF2PF_QUERY_RUNTIME_REQUEST_MSG_0_LIMIT : Z := GUC_HXG_REQUEST_MSG_0_DATA0.
Definition VF2PF_QUERY_RUNTIME_REQUEST_MSG_1_START : Z := GUC_HXG_MSG_n_PAYLOAD.
Definition VF2PF_QUERY_RUNTIME_RESPONSE_MSG_MIN_LEN : nat := 2.
Definition VF2PF_QUERY_RUNTIME_RESPONSE_MSG_MAX_LEN : nat := 20.
Definition VF2PF_QUERY_RUNTIME_RESPONSE_MSG_0_COUNT : Z := GUC_HXG_RESPONSE_MSG_0_DATA0.
Definition VF2PF_QUERY_RUNTIME_RESPONSE_MSG_1_REMAINING : Z := GUC_HXG_MSG_n_PAYLOAD.

Definition IOV_ACTION_VF2PF_UPDATE_GGTT32 : Z := 0x102.
Definition VF2PF_UPDATE_GGTT32_REQUEST_MSG_MIN_LEN : nat := 2.
Definition VF2PF_UPDATE_GGTT32_REQUEST_MSG_1_OFFSET : Z := 0xfffff000.
Definition VF2PF_UPDATE_GGTT32_REQUEST_MSG_1_MODE : Z := 0xc00.
Definition VF2PF_UPDATE_GGTT32_REQUEST_MSG_1_NUM_COPIES : Z := 0x3ff.
Definition VF2PF_UPDATE_GGTT32_REQUEST_DATAn_PTE_LO : Z := GUC_HXG_MSG_n_PAYLOAD.
Definition VF2PF_UPDATE_GGTT32_REQUEST_DATAn_PTE_HI : Z := GUC_HXG_MSG_n_PAYLOAD.
Definition VF2PF_UPDATE_GGTT_MAX_PTES : nat :=
  (VF2PF_MSG_MAX_LEN - VF2PF_UPDATE_GGTT32_REQUEST_MSG_MIN_LEN) / 2.
Definition VF2PF_UPDATE_GGTT32_RESPONSE_MSG_0_NUM_PTES : Z := GUC_HXG_RESPONSE_MSG_0_DATA0.
Definition VF2PF_UPDATE_GGTT32_IS_LAST_MODE (mode : Z) : bool :=
  (mode =? MMIO_UPDATE_GGTT_MODE_DUPLICATE_LAST) || (mode =? MMIO_UPDATE_GGTT_MODE_REPLICATE_LAST).

Definition IOV_OPCODE_VF2PF_MMIO_HANDSHAKE : Z := 0x01.
Definition IOV_OPCODE_VF2PF_MMIO_UPDATE_GGTT : Z := 0x2.
Definition IOV_OPCODE_VF2PF_MMIO_GET_RUNTIME : Z := 0x10.
Definition VF2PF_MMIO_GET_RUNTIME_REQUEST_MSG_NUM_OFFSET : nat := 3.
Definition VF2PF_MMIO_UPDATE_GGTT_RESPONSE_MSG_1_NUM_PTES : Z := 0xffffff.

Definition GUC2PF_MMIO_RELAY_SERVICE_EVENT_MSG_LEN : nat := GUC_HXG_EVENT_MSG_MIN_LEN + 5.
Definition GUC2PF_MMIO_RELAY_SERVICE_EVENT_MSG_2_MAGIC : Z := 0xf000000.
Definition GUC2PF_MMIO_RELAY_SERVICE_EVENT_MSG_2_OPCODE : Z := 0xff0000.
Definition GUC_ACTION_PF2GUC_MMIO_RELAY_SUCCESS : Z := 0x5007.
Definition PF2GUC_MMIO_RELAY_SUCCESS_REQUEST_MSG_2_MAGIC : Z := 0xf000000.
Definition PF2GUC_MMIO_RELAY_SUCCESS_REQUEST_MSG_2_DATA0 : Z := 0xffffff.
Definition GUC_ACTION_PF2GUC_MMIO_RELAY_FAILURE : Z := 0x5008.
Definition PF2GUC_MMIO_RELAY_FAILURE_REQUEST_MSG_2_MAGIC : Z := 0xf000000.
Definition PF2GUC_MMIO_RELAY_FAILURE_REQUEST_MSG_2_FAULT : Z := 0xff.

#[export] Instance MAJOR_field : is_field VF2PF_HANDSHAKE_REQUEST_MSG_1_MAJOR 16 16.
Proof. solve_field. Qed.
#[export] Instance MINOR_field : is_field VF2PF_HANDSHAKE_REQUEST_MSG_1_MINOR 16 0.
Proof. solve_field. Qed.
#[export] Instance RESP_MAJOR_field : is_field VF2PF_HANDSHAKE_RESPONSE_MSG_1_MAJOR 16 16.
Proof. solve_field. Qed.
#[export] Instance RESP_MINOR_field : is_field VF2PF_HANDSHAKE_RESPONSE_MSG_1_MINOR 16 0.
Proof. solve_field. Qed.
#[export] Instance LIMIT_field : is_field VF2PF_QUERY_RUNTIME_REQUEST_MSG_0_LIMIT 12 16.
Proof. solve_field. Qed.
#[export] Instance START_field : is_field VF2PF_QUERY_RUNTIME_REQUEST_MSG_1_START 32 0.
Proof. solve_field. Qed.
#[export] Instance COUNT_field : is_field VF2PF_QUERY_RUNTIME_RESPONSE_MSG_0_COUNT 28 0.
Proof. solve_field. Qed.
#[export] Instance REMAINING_field : is_field VF2PF_QUERY_RUNTIME_RESPONSE_MSG_1_REMAINING 32 0.
Proof. solve_field. Qed.
#[export] Instance OFFSET_field : is_field VF2PF_UPDATE_GGTT32_REQUEST_MSG_1_OFFSET 20 12.
Proof. solve_field. Qed.
#[export] Instance MODE_field : is_field VF2PF_UPDATE_GGTT32_REQUEST_MSG_1_MODE 2 10.
Proof. solve_field. Qed.
#[export] Instance NUM_COPIES_field : is_field VF2PF_UPDATE_GGTT32_REQUEST_MSG_1_NUM_COPIES 10 0.
Proof. solve_field. Qed.
#[export] Instance MAGIC_field : is_field GUC2PF_MMIO_RELAY_SERVICE_EVENT_MSG_2_MAGIC 4 24.
Proof. solve_field. Qed.
#[export] Instance OPCODE_field : is_field GUC2PF_MMIO_RELAY_SERVICE_EVENT_MSG_2_OPCODE 8 16.
Proof. solve_field. Qed.
#[export] Instance DATA0_24_field : is_field PF2GUC_MMIO_RELAY_SUCCESS_REQUEST_MSG_2_DATA0 24 0.
Proof. solve_field. Qed.
#[export] Instance FAULT_field : is_field PF2GUC_MMIO_RELAY_FAILURE_REQUEST_MSG_2_FAULT 8 0.
Proof. solve_field. Qed.

(** ** The platform and the kernel's binary search *)

Class ServiceEnv := {
  GRAPHICS_VER_FULL : Z;                    (** [GRAPHICS_VER_FULL(i915)] *)
  is_tgl_or_adl : bool;                     (** [IS_TIGERLAKE || IS_ALDERLAKE_S || IS_ALDERLAKE_P] *)
  bsearch : Z -> list Z -> option nat;      (** lib/bsearch.c on register offsets *)
}.

(** [bsearch] on an array sorted by the comparison finds the index of the key, if any. *)
Class ServiceEnvLaws (P : ServiceEnv) : Prop := {
  bsearch_ok key l : Sorted.StronglySorted Z.lt l ->
    match bsearch key l with Some i => l !! i = Some key | None => key ∉ l end;
}.

Definition IP_VER (ver rel : Z) : Z := Z.lor (Z.shiftl ver 8) rel.

(** Register offsets (gt/intel_gt_regs.h, gt/uc/intel_guc_reg.h, i915_reg.h). *)
Definition tgl_runtime_regs : list Z :=
  [0xd00; 0x9118; 0x9134; 0x9138; 0x913c; 0x9140; 0x9144; 0xa26c; 0xc1dc; 0x44074].
Definition mtl_runtime_regs : list Z :=
  [0xd00; 0x9114; 0x9118; 0x911c; 0x9134; 0x913c; 0x9140; 0x9144; 0x9148; 0xa26c; 0xc1dc;
   0x44074; 0x10100c; 0x00116000 + 0xc68; 0x138010; 0x389140; 0x38c1dc].

Section service.
Context `{E : Env} `{R : RelayEnv} `{P : ServiceEnv}.

(** ** Runtime registers *)

Fixpoint __uncore_read_many (regs : list Z) : st iov_state (list Z) :=
  match regs with
  | [] => mret []
  | reg :: regs =>
      value ← (fun s => (mmio_read (s_reads s) reg, with_reads (S (s_reads s)) s));
      values ← __uncore_read_many regs;
      mret (value :: values)
  end.

Definition get_runtime_regs : Z + list Z :=
  if GRAPHICS_VER_FULL >=? IP_VER 12 70 then inr mtl_runtime_regs
  else if is_tgl_or_adl then inr tgl_runtime_regs
  else inl (- ENODEV).

Definition pf_alloc_runtime_info : st iov_state Z :=
  match get_runtime_regs with
  | inl err => mret err
  | inr regs =>
      if (length regs =? 0)%nat then mret 0 else
      ok ← on_dev kvzalloc;
      if negb ok then mret (- ENOMEM) else
      modify (with_runtime {| rt_size := length regs; rt_regs := regs;
                              rt_values := replicate (length regs) 0 |}) ≫= fun _ => mret 0
  end.

Definition pf_release_runtime_info : st iov_state unit :=
  modify (with_runtime {| rt_size := 0; rt_regs := []; rt_values := [] |}).

Definition pf_prepare_runtime_info : st iov_state unit :=
  runtime ← gets s_runtime;
  if (rt_size runtime =? 0)%nat then mret tt else
  values ← __uncore_read_many (rt_regs runtime);
  modify (with_runtime {| rt_size := rt_size runtime; rt_regs := rt_regs runtime; rt_values := values |}).

Definition pf_reset_runtime_info : st iov_state unit :=
  runtime ← gets s_runtime;
  if (rt_size runtime =? 0)%nat then mret tt else
  modify (with_runtime {| rt_size := rt_size runtime; rt_regs := rt_regs runtime;
                          rt_values := replicate (rt_size runtime) 0 |}).

Definition intel_iov_service_init_early : st iov_state unit :=
  err ← pf_alloc_runtime_info;
  if negb (err =? 0) then on_dev (pf_update_status err) else mret tt.
Definition intel_iov_service_release : st iov_state unit := pf_release_runtime_info.
Definition intel_iov_service_update : st iov_state unit := pf_prepare_runtime_info.
Definition intel_iov_service_reset : st iov_state unit := pf_reset_runtime_info.

(** ** Requests through the relay *)

(** The version the PF settles on for the version a VF wants. *)
Definition handshake_version (wanted_major wanted_minor : Z) : option (Z * Z) :=
  if (wanted_major =? 0) && (wanted_minor =? 0)
  then Some (IOV_VERSION_LATEST_MAJOR, IOV_VERSION_LATEST_MINOR)
  else if wanted_major >? IOV_VERSION_LATEST_MAJOR
  then Some (IOV_VERSION_LATEST_MAJOR, IOV_VERSION_LATEST_MINOR)
  else if wanted_major <? IOV_VERSION_BASE_MAJOR then None
  else if wanted_major <? IOV_VERSION_LATEST_MAJOR then Some (wanted_major, wanted_minor)
  else Some (wanted_major, Z.min IOV_VERSION_LATEST_MINOR wanted_minor).

Definition handshake_response (major minor : Z) : list Z :=
  [reply_header GUC_HXG_TYPE_RESPONSE_SUCCESS (FIELD_PREP GUC_HXG_RESPONSE_MSG_0_DATA0 0);
   Z.lor (FIELD_PREP VF2PF_HANDSHAKE_RESPONSE_MSG_1_MAJOR major)
         (FIELD_PREP VF2PF_HANDSHAKE_RESPONSE_MSG_1_MINOR minor)].

Definition reply_handshake (origin relay_id : Z) (msg : list Z) : st iov_state Z :=
  if negb (length msg =? VF2PF_HANDSHAKE_REQUEST_MSG_LEN)%nat then mret (- EMSGSIZE) else
  let wanted_major := FIELD_GET VF2PF_HANDSHAKE_REQUEST_MSG_1_MAJOR (msg.[1%nat | 0]) in
  let wanted_minor := FIELD_GET VF2PF_HANDSHAKE_REQUEST_MSG_1_MINOR (msg.[1%nat | 0]) in
  let mbz := FIELD_GET VF2PF_HANDSHAKE_REQUEST_MSG_0_MBZ (msg.[0%nat | 0]) in
  if negb (mbz =? 0) then mret (- EINVAL) else
  match handshake_version wanted_major wanted_minor with
  | None => mret (- EINVAL)
  | Some (major, minor) =>
      intel_iov_relay_reply_to_vf origin relay_id (handshake_response major minor)
  end.

(** The entries [start .. start + chunk) with their offsets. *)
Definition runtime_entries (runtime : intel_iov_runtime_regs) (start chunk : nat) : list Z :=
  seq start chunk ≫= fun i => [(rt_regs runtime).[i | 0]; (rt_values runtime).[i | 0]].

Definition runtime_response (runtime : intel_iov_runtime_regs) (start chunk : nat) : list Z :=
  [reply_header GUC_HXG_TYPE_RESPONSE_SUCCESS
     (FIELD_PREP VF2PF_QUERY_RUNTIME_RESPONSE_MSG_0_COUNT (Z.of_nat chunk));
   FIELD_PREP VF2PF_QUERY_RUNTIME_RESPONSE_MSG_1_REMAINING
     (u32 (Z.of_nat (rt_size runtime) - Z.of_nat start - Z.of_nat chunk))]
  ++ runtime_entries runtime start chunk.

Definition pf_reply_runtime_query (origin relay_id : Z) (msg : list Z) : st iov_state Z :=
  let max_chunk := ((VF2PF_QUERY_RUNTIME_RESPONSE_MSG_MAX_LEN -
                     VF2PF_QUERY_RUNTIME_RESPONSE_MSG_MIN_LEN) / 2)%nat in
  if (VF2PF_QUERY_RUNTIME_REQUEST_MSG_LEN <? length msg)%nat then mret (- EMSGSIZE) else
  if (length msg <? VF2PF_QUERY_RUNTIME_REQUEST_MSG_LEN)%nat then mret (- EPROTO) else
  let limit := FIELD_GET VF2PF_QUERY_RUNTIME_REQUEST_MSG_0_LIMIT (msg.[0%nat | 0]) in
  let start := FIELD_GET VF2PF_QUERY_RUNTIME_REQUEST_MSG_1_START (msg.[1%nat | 0]) in
  runtime ← gets s_runtime;
  if start >? Z.of_nat (rt_size runtime) then mret (- EINVAL) else
  let start := Z.to_nat start in
  let chunk := Nat.min (rt_size runtime - start) max_chunk in
  let chunk := if negb (limit =? 0) then Nat.min chunk (Z.to_nat limit) else chunk in
  intel_iov_relay_reply_to_vf origin relay_id (runtime_response runtime start chunk).

Definition get_pte_from_msg (msg : list Z) (id : nat) : Z :=
  let pte_lo := FIELD_GET VF2PF_UPDATE_GGTT32_REQUEST_DATAn_PTE_LO (msg.[(id * 2 + 2)%nat | 0]) in
  let pte_hi := FIELD_GET VF2PF_UPDATE_GGTT32_REQUEST_DATAn_PTE_HI (msg.[(id * 2 + 3)%nat | 0]) in
  make_u64 pte_hi pte_lo.

Definition pte_flags (pte : Z) : Z := Z.land pte (Z.lnot GEN12_GGTT_PTE_ADDR_MASK).

(** The loop of [pf_reply_update_ggtt]: [range] are the entries from [start_range] on that the
    next update takes, the last one of them being [ptes[i - 1]]. *)
Fixpoint update_ranges (g : gt_id) (origin : nat) (mode num_copies pte_offset updated : Z)
    (range ptes : list Z) : st iov_state Z :=
  match ptes with
  | [] =>
      ret ← on_dev (intel_iov_ggtt_pf_update_vf_ptes g origin pte_offset mode num_copies range);
      mret (if ret <? 0 then ret else u16 (updated + ret))
  | pte :: ptes =>
      if negb (pte_flags (default 0 (last range)) =? pte_flags pte) then
        let local_num_copies := if VF2PF_UPDATE_GGTT32_IS_LAST_MODE mode then 0 else num_copies in
        ret ← on_dev (intel_iov_ggtt_pf_update_vf_ptes g origin pte_offset mode local_num_copies range);
        if ret <? 0 then mret ret else
        update_ranges g origin mode
          (if negb (VF2PF_UPDATE_GGTT32_IS_LAST_MODE mode) then 0 else num_copies)
          (u32 (pte_offset + Z.of_nat (length range))) (u16 (updated + ret)) [pte] ptes
      else update_ranges g origin mode num_copies pte_offset updated (range ++ [pte]) ptes
  end.

Definition update_response (updated : Z) : list Z :=
  [reply_header GUC_HXG_TYPE_RESPONSE_SUCCESS
     (FIELD_PREP VF2PF_UPDATE_GGTT32_RESPONSE_MSG_0_NUM_PTES updated)].

Definition pf_reply_update_ggtt (g : gt_id) (origin relay_id : Z) (msg : list Z) : st iov_state Z :=
  if negb require_binder then mret (- EOPNOTSUPP) else
  let len := length msg in
  if (msg.[0%nat | 0] =? 0) || (msg.[1%nat | 0] =? 0) || (len <? 4)%nat || negb (len mod 2 =? 0)%nat
  then mret (- EPROTO) else
  let num_copies := FIELD_GET VF2PF_UPDATE_GGTT32_REQUEST_MSG_1_NUM_COPIES (msg.[1%nat | 0]) in
  let mode := FIELD_GET VF2PF_UPDATE_GGTT32_REQUEST_MSG_1_MODE (msg.[1%nat | 0]) in
  let pte_offset := FIELD_GET VF2PF_UPDATE_GGTT32_REQUEST_MSG_1_OFFSET (msg.[1%nat | 0]) in
  let count := ((len - 2) / 2)%nat in
  if (VF2PF_UPDATE_GGTT_MAX_PTES <? count)%nat then mret (- EMSGSIZE) else
  let ptes := get_pte_from_msg msg <$> seq 0 count in
  ret ← update_ranges g (Z.to_nat origin) mode num_copies pte_offset 0 (take 1 ptes) (drop 1 ptes);
  if ret <? 0 then mret ret else
  intel_iov_relay_reply_to_vf origin relay_id (update_response ret).

Definition intel_iov_service_process_msg (g : gt_id) (origin relay_id : Z) (msg : list Z)
  : st iov_state Z :=
  let action := FIELD_GET GUC_HXG_REQUEST_MSG_0_ACTION (msg.[0%nat | 0]) in
  if origin =? 0 then mret (- EPROTO) else
  if action =? IOV_ACTION_VF2PF_HANDSHAKE then reply_handshake origin relay_id msg
  else if action =? IOV_ACTION_VF2PF_QUERY_RUNTIME then pf_reply_runtime_query origin relay_id msg
  else if action =? IOV_ACTION_VF2PF_UPDATE_GGTT32 then pf_reply_update_ggtt g origin relay_id msg
  else mret (- EOPNOTSUPP).

(** ** Requests through the MMIO relay *)

Definition mmio_error_request (vfid magic fault : Z) : list Z :=
  [Z.lor (Z.lor (FIELD_PREP GUC_HXG_MSG_0_ORIGIN GUC_HXG_ORIGIN_HOST)
                (FIELD_PREP GUC_HXG_MSG_0_TYPE GUC_HXG_TYPE_REQUEST))
         (FIELD_PREP GUC_HXG_REQUEST_MSG_0_ACTION GUC_ACTION_PF2GUC_MMIO_RELAY_FAILURE);
   FIELD_PREP GUC_HXG_MSG_n_PAYLOAD vfid;
   Z.lor (FIELD_PREP PF2GUC_MMIO_RELAY_FAILURE_REQUEST_MSG_2_MAGIC magic)
         (FIELD_PREP PF2GUC_MMIO_RELAY_FAILURE_REQUEST_MSG_2_FAULT fault)].
Definition send_mmio_relay_error (g : gt_id) (vfid magic fault : Z) : st iov_state Z :=
  on_dev (intel_guc_send {| req_gt := g; req_msg := mmio_error_request vfid magic fault; req_blob := [] |}).

(** [data] are the four dwords of the reply. *)
Definition mmio_reply_request (vfid magic : Z) (data : list Z) : list Z :=
  [Z.lor (Z.lor (FIELD_PREP GUC_HXG_MSG_0_ORIGIN GUC_HXG_ORIGIN_HOST)
                (FIELD_PREP GUC_HXG_MSG_0_TYPE GUC_HXG_TYPE_REQUEST))
         (FIELD_PREP GUC_HXG_REQUEST_MSG_0_ACTION GUC_ACTION_PF2GUC_MMIO_RELAY_SUCCESS);
   FIELD_PREP GUC_HXG_MSG_n_PAYLOAD vfid;
   Z.lor (FIELD_PREP PF2GUC_MMIO_RELAY_SUCCESS_REQUEST_MSG_2_MAGIC magic)
         (FIELD_PREP PF2GUC_MMIO_RELAY_SUCCESS_REQUEST_MSG_2_DATA0 (data.[0%nat | 0]));
   FIELD_PREP GUC_HXG_MSG_n_PAYLOAD (data.[1%nat | 0]);
   FIELD_PREP GUC_HXG_MSG_n_PAYLOAD (data.[2%nat | 0]);
   FIELD_PREP GUC_HXG_MSG_n_PAYLOAD (data.[3%nat | 0])].
Definition send_mmio_relay_reply (g : gt_id) (vfid magic : Z) (data : list Z) : st iov_state Z :=
  on_dev (intel_guc_send {| req_gt := g; req_msg := mmio_reply_request vfid magic data; req_blob := [] |}).

(** The version, or the fault, of [reply_mmio_relay_handshake]. *)
Definition mmio_handshake_version (wanted_major wanted_minor : Z) (msg : list Z) : Z + Z * Z :=
  if (wanted_major =? 0) && (wanted_minor =? 0)
  then inr (IOV_VERSION_LATEST_MAJOR, IOV_VERSION_LATEST_MINOR)
  else if wanted_major >? IOV_VERSION_LATEST_MAJOR
  then inr (IOV_VERSION_LATEST_MAJOR, IOV_VERSION_LATEST_MINOR)
  else if wanted_major <? IOV_VERSION_LATEST_MAJOR then inl ENOPKG
  else if (msg.[0%nat | 0] =? 0) || negb (msg.[2%nat | 0] =? 0) || negb (msg.[3%nat | 0] =? 0)
  then inl EPROTO
  else inr (wanted_major, Z.min IOV_VERSION_LATEST_MINOR wanted_minor).

Definition reply_mmio_relay_handshake (g : gt_id) (vfid magic : Z) (msg : list Z) : st iov_state Z :=
  let wanted_major := FIELD_GET VF2PF_HANDSHAKE_REQUEST_MSG_1_MAJOR (msg.[1%nat | 0]) in
  let wanted_minor := FIELD_GET VF2PF_HANDSHAKE_REQUEST_MSG_1_MINOR (msg.[1%nat | 0]) in
  match mmio_handshake_version wanted_major wanted_minor msg with
  | inl fault => send_mmio_relay_error g vfid magic fault
  | inr (major, minor) =>
      send_mmio_relay_reply g vfid magic
        [0; Z.lor (FIELD_PREP VF2PF_HANDSHAKE_RESPONSE_MSG_1_MAJOR major)
                  (FIELD_PREP VF2PF_HANDSHAKE_RESPONSE_MSG_1_MINOR minor); 0; 0]
  end.

Definition reply_mmio_relay_update_ggtt (g : gt_id) (vfid magic : Z) (msg : list Z) : st iov_state Z :=
  if negb require_binder then mret (- EOPNOTSUPP) else
  if msg.[0%nat | 0] =? 0 then mret (- EPROTO) else
  let num_copies := FIELD_GET VF2PF_UPDATE_GGTT32_REQUEST_MSG_1_NUM_COPIES (msg.[1%nat | 0]) in
  let mode := FIELD_GET VF2PF_UPDATE_GGTT32_REQUEST_MSG_1_MODE (msg.[1%nat | 0]) in
  let pte_offset := FIELD_GET VF2PF_UPDATE_GGTT32_REQUEST_MSG_1_OFFSET (msg.[1%nat | 0]) in
  let pte_lo := FIELD_GET GUC_HXG_MSG_n_PAYLOAD (msg.[2%nat | 0]) in
  let pte_hi := FIELD_GET GUC_HXG_MSG_n_PAYLOAD (msg.[3%nat | 0]) in
  let pte := make_u64 pte_hi pte_lo in
  ret ← on_dev (intel_iov_ggtt_pf_update_vf_ptes g (Z.to_nat vfid) pte_offset mode num_copies [pte]);
  if ret <? 0 then mret ret else
  send_mmio_relay_reply g vfid magic
    [FIELD_PREP VF2PF_MMIO_UPDATE_GGTT_RESPONSE_MSG_1_NUM_PTES (u16 ret); 0; 0; 0].

Definition lookup_reg_index (offset : Z) (s : iov_state) : option nat :=
  bsearch offset (rt_regs (s_runtime s)).

(** The loop over the offsets: their values, [None] for one that is not shared. *)
Fixpoint get_regs (offsets : list Z) (s : iov_state) : option (list Z) :=
  match offsets with
  | [] => Some []
  | offset :: offsets =>
      if offset =? 0 then cons 0 <$> get_regs offsets s else
      match lookup_reg_index offset s with
      | None => None
      | Some found => cons ((rt_values (s_runtime s)).[found | 0]) <$> get_regs offsets s
      end
  end.

Definition reply_mmio_relay_get_reg (g : gt_id) (vfid magic : Z) (msg : list Z) : st iov_state Z :=
  if msg.[0%nat | 0] =? 0 then mret (- EPROTO) else
  if msg.[1%nat | 0] =? 0 then mret (- EINVAL) else
  let offsets := (fun i => msg.[(i + 1)%nat | 0]) <$> seq 0 VF2PF_MMIO_GET_RUNTIME_REQUEST_MSG_NUM_OFFSET in
  values ← gets (get_regs offsets);
  match values with
  | None => mret (- EACCES)
  | Some values => send_mmio_relay_reply g vfid magic (0 :: values)
  end.

Definition intel_iov_service_process_mmio_relay (g : gt_id) (msg : list Z) : st iov_state Z :=
  if negb (bool_decide (iov_mode = I915_IOV_MODE_SRIOV_PF)) then mret (- EPERM) else
  if negb (length msg =? GUC2PF_MMIO_RELAY_SERVICE_EVENT_MSG_LEN)%nat then mret (- EPROTO) else
  let vfid := FIELD_GET GUC_HXG_MSG_n_PAYLOAD (msg.[1%nat | 0]) in
  let magic := FIELD_GET GUC2PF_MMIO_RELAY_SERVICE_EVENT_MSG_2_MAGIC (msg.[2%nat | 0]) in
  let opcode := FIELD_GET GUC2PF_MMIO_RELAY_SERVICE_EVENT_MSG_2_OPCODE (msg.[2%nat | 0]) in
  if vfid =? 0 then mret (- EPROTO) else
  let data := drop 2 msg in
  err ← (if opcode =? IOV_OPCODE_VF2PF_MMIO_HANDSHAKE then reply_mmio_relay_handshake g vfid magic data
         else if opcode =? IOV_OPCODE_VF2PF_MMIO_UPDATE_GGTT then reply_mmio_relay_update_ggtt g vfid magic data
         else if opcode =? IOV_OPCODE_VF2PF_MMIO_GET_RUNTIME then reply_mmio_relay_get_reg g vfid magic data
         else mret (- EOPNOTSUPP));
  (if err <? 0 then send_mmio_relay_error g vfid magic (- err) ≫= fun _ => mret tt else mret tt) ≫= fun _ =>
  mret err.
End service.

(** ** Lemmas *)

Section lemmas.
Context `{E : Env} `{R : RelayEnv} `{P : ServiceEnv} `{!RelayEnvLaws R}.

Lemma wp_on_dev {A} (m : st dev A) (Q : A -> iov_state -> Prop) s :
  wp m (fun a d => Q a (with_dev d s)) (s_dev s) -> wp (on_dev m) Q s.
Proof. unfold wp, on_dev. by destruct (m (s_dev s)). Qed.

(** A reply of the PF to VF [origin]: what it hands to the transport. *)
Lemma wp_reply origin relay_id msg (Q : Z -> iov_state -> Prop) s :
  origin <> 0 ->
  (forall k ret, settled k ret ->
     Q ret (with_nb (s_nb s ++ attempts (pf_relay_request origin relay_id msg) k ret) s)) ->
  wp (intel_iov_relay_reply_to_vf origin relay_id msg) Q s.
Proof using Type*.
  intros Ho HQ. apply wp_relay_send. intros k ret Hr. unfold relay_request.
  rewrite (proj2 (Z.eqb_neq origin 0)) by done. by apply HQ.
Qed.

(** *** Updates of the GGTT *)

(** The region of a VF that the updates of its entries may assume: what provisioning keeps. *)
Definition region_ok (g : gt_id) (vfid : nat) (d : dev) : Prop :=
  let r := ggtt_region (cfg d g vfid) in
  0 <= start r /\ 0 < size r /\ start r + size r <= 2 ^ 32 /\
  (PAGE_SIZE | start r) /\ (PAGE_SIZE | size r).

Lemma region_ok_conf g vfid d d' : same_conf d d' -> region_ok g vfid d -> region_ok g vfid d'.
Proof. intros Hs. unfold region_ok. by rewrite (conf_cfg _ _ _ _ Hs). Qed.

(** The page behind the region of a VF. *)
Definition region_end (g : gt_id) (vfid : nat) (d : dev) : Z :=
  let r := ggtt_region (cfg d g vfid) in (start r + size r) / PAGE_SIZE.

(** The entries asked for are in the region, so that only copies can be behind it. *)
Lemma ends_in_region g vfid i first count copies d :
  (first + count) * PAGE_SIZE <= start (ggtt_region (cfg d g vfid)) + size (ggtt_region (cfg d g vfid)) ->
  i < first + count + copies -> i < region_end g vfid d + copies.
Proof.
  intros Hin Hi. unfold region_end. set (e := start _ + size _) in *. clearbody e.
  pose proof (Z.div_le_lower_bound e PAGE_SIZE (first + count) ltac:(done) ltac:(rewrite Z.mul_comm; exact Hin)). lia.
Qed.

Lemma wp_update_ranges g vfid mode lo hi cmax ptes : forall copies off updated range (Q : Z -> iov_state -> Prop) s,
  (vfid < 8)%nat -> region_ok g vfid (s_dev s) ->
  let base := start (ggtt_region (cfg (s_dev s) g vfid)) / PAGE_SIZE in
  let n := Z.of_nat (length range) + Z.of_nat (length ptes) in
  0 <= copies < 1024 -> copies <= cmax -> 0 <= off -> off + n < 2 ^ 31 -> n <= 125 ->
  lo <= base + off -> base + off + n + copies <= hi ->
  (forall ret s', (ret < 0 \/ 0 <= ret < 65536) -> s_nb s' = s_nb s ->
     owned_changes vfid lo (Z.min hi (region_end g vfid (s_dev s) + cmax)) (s_dev s) (s_dev s') -> Q ret s') ->
  wp (update_ranges g vfid mode copies off updated range ptes) Q s.
Proof.
  change (2 ^ 31) with 2147483648.
  induction ptes as [|pte ptes IH]; intros copies off updated range Q s Hv Hr base n Hc Hcm Ho Hon Hn Hlo Hhi HQ.
  - cbn [update_ranges]. simpl in n. destruct Hr as (H1&H2&H3&H4&H5).
    apply wp_bind, wp_on_dev, wp_pf_update_owned; try done; try lia.
    intros ret d' Hret Hown Hin. apply wp_ret, HQ; [|done|].
    + pose proof (u16_range (updated + ret)). destruct (Z.ltb_spec ret 0); [by left|by right].
    + intros i Hi. destruct (Hown i Hi) as (?&?&?). destruct Hin as [He|Hin]; [by destruct Hi; cbn; rewrite He|].
      eapply ends_in_region in Hin; [|apply H6]. split_and!; try done; fold base in H6; lia.
  - cbn [update_ranges]. cbn [length] in n. apply wp_if; intros Hfl.
    2: { apply IH; rewrite ?length_app; cbn [length]; fold base; try done; lia. }
    pose proof Hr as (H1&H2&H3&H4&H5).
    set (local := if VF2PF_UPDATE_GGTT32_IS_LAST_MODE mode then 0 else copies).
    assert (0 <= local <= copies) as Hlc by (unfold local; case_match; lia).
    apply wp_bind, wp_on_dev.
    pose proof (proj1 (pf_update_keeps g vfid off mode local range (s_dev s))) as Hconf.
    apply run_wp. intros ret d' Hrun. rewrite Hrun in Hconf. simpl in Hconf.
    assert ((ret < 0 \/ ret = Z.of_nat (length range) + local) /\
      owned_changes vfid lo (Z.min hi (region_end g vfid (s_dev s) + cmax)) (s_dev s) d') as [Hret Hown].
    { refine (wp_run _ (fun r x => (r < 0 \/ r = Z.of_nat (length range) + local) /\
        owned_changes vfid lo (Z.min hi (region_end g vfid (s_dev s) + cmax)) (s_dev s) x) _ _ _ Hrun _).
      apply wp_pf_update_owned; try done; try lia.
      intros r x Hr' Hx Hin. split; [done|]. intros i Hi. destruct (Hx i Hi) as (?&?&?).
      destruct Hin as [He|Hin]; [by rewrite He in Hi|]. eapply ends_in_region in Hin; [|apply H6].
      split_and!; try done; fold base in H6; lia. }
    apply wp_if; intros Hb; propify.
    { apply wp_ret, HQ; [by left|done|done]. }
    rewrite u32_small by lia. simpl.
    apply IH; cbn [s_dev with_dev length]; rewrite ?(conf_cfg _ _ _ _ Hconf); fold base; try done.
    + by eapply region_ok_conf.
    + case_match; lia.
    + case_match; lia.
    + lia.
    + lia.
    + lia.
    + lia.
    + case_match; lia.
    + intros ret' s' Hret' Hnb Hown'. apply HQ; [done|done|].
      assert (region_end g vfid d' = region_end g vfid (s_dev s)) as He by (unfold region_end; by rewrite (conf_cfg _ _ _ _ Hconf)).
      rewrite He in Hown'. by eapply owned_changes_trans.
Qed.

(** *** Replies *)

Lemma reply_header_type ty aux :
  0 <= ty < 8 -> FIELD_GET GUC_HXG_MSG_0_TYPE aux = 0 ->
  FIELD_GET GUC_HXG_MSG_0_TYPE (reply_header ty aux) = ty.
Proof.
  intros Ht Ha. unfold reply_header. rewrite !FIELD_GET_lor, Ha.
  rewrite (FIELD_GET_PREP_small GUC_HXG_MSG_0_TYPE _ _ ty) by lia.
  by rewrite FIELD_GET_PREP_disj, Z.lor_0_l, Z.lor_0_r.
Qed.

Lemma reply_header_data0 ty v :
  0 <= v < 2 ^ 28 ->
  FIELD_GET GUC_HXG_RESPONSE_MSG_0_DATA0 (reply_header ty (FIELD_PREP GUC_HXG_RESPONSE_MSG_0_DATA0 v)) = v.
Proof.
  intros Hv. unfold reply_header. rewrite !FIELD_GET_lor.
  rewrite !(FIELD_GET_PREP_disj GUC_HXG_RESPONSE_MSG_0_DATA0) by done.
  by rewrite (FIELD_GET_PREP_small GUC_HXG_RESPONSE_MSG_0_DATA0 _ _ v), !Z.lor_0_l by done.
Qed.

(** The answer to a request with identifier [relay_id]: an error code for the caller and
    nothing sent, or one success message that fits the relay. *)
Definition answers (origin relay_id : Z) (s : iov_state) (ret : Z) (s' : iov_state) : Prop :=
  (ret < 0 /\ s_nb s' = s_nb s) \/
  exists k body, settled k ret /\
    s_nb s' = s_nb s ++ attempts (pf_relay_request origin relay_id body) k ret /\
    FIELD_GET GUC_HXG_MSG_0_TYPE (body.[0%nat | 0]) = GUC_HXG_TYPE_RESPONSE_SUCCESS /\
    (1 <= length body <= VF2PF_MSG_MAX_LEN)%nat.

Lemma wp_reply_answers origin relay_id body (Q : Z -> iov_state -> Prop) s0 s :
  origin <> 0 -> s_nb s = s_nb s0 ->
  FIELD_GET GUC_HXG_MSG_0_TYPE (body.[0%nat | 0]) = GUC_HXG_TYPE_RESPONSE_SUCCESS ->
  (1 <= length body <= VF2PF_MSG_MAX_LEN)%nat ->
  (forall ret s', answers origin relay_id s0 ret s' -> s_dev s' = s_dev s -> Q ret s') ->
  wp (intel_iov_relay_reply_to_vf origin relay_id body) Q s.
Proof using Type*.
  intros Ho Hnb Ht Hl HQ. apply wp_reply; [done|]. intros k ret Hr. apply HQ; [|done]. right.
  exists k, body. split_and!; [done| |done|lia|lia]. simpl. by rewrite Hnb.
Qed.

Lemma runtime_entries_length rt a n : length (runtime_entries rt a n) = (2 * n)%nat.
Proof.
  unfold runtime_entries. revert a. induction n as [|n IH]; intros a; [done|].
  cbn. rewrite IH. lia.
Qed.

(** *** The runtime registers, page by page *)

Definition rt_wf (rt : intel_iov_runtime_regs) : Prop :=
  length (rt_regs rt) = rt_size rt /\ length (rt_values rt) = rt_size rt /\
  Z.of_nat (rt_size rt) < 2 ^ 28.

(** The registers with their values. *)
Definition rt_pairs (rt : intel_iov_runtime_regs) : list (Z * Z) := zip (rt_regs rt) (rt_values rt).

Fixpoint pairs_of (l : list Z) : list (Z * Z) :=
  match l with a :: b :: l => (a, b) :: pairs_of l | _ => [] end.
(** A response read field by field: COUNT, REMAINING and the entries. *)
Definition decode_page (resp : list Z) : Z * Z * list (Z * Z) :=
  (FIELD_GET VF2PF_QUERY_RUNTIME_RESPONSE_MSG_0_COUNT (resp.[0%nat | 0]),
   FIELD_GET VF2PF_QUERY_RUNTIME_RESPONSE_MSG_1_REMAINING (resp.[1%nat | 0]),
   pairs_of (drop 2 resp)).

Lemma rt_pairs_lookup rt i :
  rt_wf rt -> (i < rt_size rt)%nat ->
  rt_pairs rt !! i = Some ((rt_regs rt).[i | 0], (rt_values rt).[i | 0]).
Proof.
  intros (H1 & H2 & _) Hi. unfold rt_pairs. apply lookup_zip_with_Some.
  destruct (lookup_lt_is_Some_2 (rt_regs rt) i ltac:(lia)) as [a Ha].
  destruct (lookup_lt_is_Some_2 (rt_values rt) i ltac:(lia)) as [b Hb].
  exists a, b. by rewrite Ha, Hb.
Qed.

Lemma runtime_entries_pairs rt start n :
  rt_wf rt -> (start + n <= rt_size rt)%nat ->
  pairs_of (runtime_entries rt start n) = take n (drop start (rt_pairs rt)).
Proof.
  intros Hwf. revert start. induction n as [|n IH]; intros start Hn; [done|].
  rewrite (drop_S _ _ _ (rt_pairs_lookup rt start Hwf ltac:(lia))).
  cbn. f_equal. apply IH. lia.
Qed.

Lemma decode_runtime_response rt start n :
  rt_wf rt -> (start + n <= rt_size rt)%nat ->
  decode_page (runtime_response rt start n) =
    (Z.of_nat n, Z.of_nat (rt_size rt - start - n), take n (drop start (rt_pairs rt))).
Proof.
  intros Hwf Hn. pose proof Hwf as (_ & _ & Hsz). unfold decode_page, runtime_response.
  change (2 ^ 28) with 268435456 in Hsz.
  cbn -[FIELD_GET FIELD_PREP reply_header runtime_entries u32 Z.sub Z.of_nat take drop rt_pairs Nat.sub pairs_of].
  f_equal; [f_equal|].
  - apply reply_header_data0. change (2 ^ 28) with 268435456. lia.
  - rewrite u32_small by lia. rewrite (FIELD_GET_PREP_small _ 32 0) by (change (2 ^ 32) with 4294967296; lia). lia.
  - by apply runtime_entries_pairs.
Qed.

(** The entries of one answer. *)
Definition page_size (rt : intel_iov_runtime_regs) (limit : Z) (start : nat) : nat :=
  let room := Nat.min (rt_size rt - start) 9 in
  if limit =? 0 then room else Nat.min room (Z.to_nat limit).

Lemma wp_runtime_query origin relay_id msg (Q : Z -> iov_state -> Prop) s :
  let start := FIELD_GET VF2PF_QUERY_RUNTIME_REQUEST_MSG_1_START (msg.[1%nat | 0]) in
  let limit := FIELD_GET VF2PF_QUERY_RUNTIME_REQUEST_MSG_0_LIMIT (msg.[0%nat | 0]) in
  let n := page_size (s_runtime s) limit (Z.to_nat start) in
  origin <> 0 -> length msg = 2%nat -> start <= Z.of_nat (rt_size (s_runtime s)) ->
  (forall k ret, settled k ret -> Q ret (with_nb (s_nb s ++ attempts
     (pf_relay_request origin relay_id (runtime_response (s_runtime s) (Z.to_nat start) n)) k ret) s)) ->
  wp (pf_reply_runtime_query origin relay_id msg) Q s.
Proof using Type*.
  intros start limit n Ho Hlen Hst HQ. unfold pf_reply_runtime_query. rewrite Hlen. cbn [Nat.ltb Nat.leb VF2PF_QUERY_RUNTIME_REQUEST_MSG_LEN].
  apply wp_bind, wp_gets. fold start limit. rewrite Z.gtb_ltb, (proj2 (Z.ltb_ge _ _)) by done.
  apply wp_reply; [done|]. intros k ret Hr. specialize (HQ k ret Hr). unfold n, page_size in HQ.
  destruct (limit =? 0); exact HQ.
Qed.
End lemmas.

(** ** Properties *)

Section properties.
Context `{E : Env} `{R : RelayEnv} `{P : ServiceEnv} `{!RelayEnvLaws R}.

(** One request of a VF to the PF. *)
Lemma wp_service g origin relay_id msg s :
  0 < origin < 8 -> region_ok g (Z.to_nat origin) (s_dev s) ->
  let field m := FIELD_GET m (msg.[1%nat | 0]) in
  let first := start (ggtt_region (cfg (s_dev s) g (Z.to_nat origin))) / PAGE_SIZE +
               field VF2PF_UPDATE_GGTT32_REQUEST_MSG_1_OFFSET in
  let count := Z.of_nat ((length msg - 2) / 2) in
  let copies := field VF2PF_UPDATE_GGTT32_REQUEST_MSG_1_NUM_COPIES in
  let behind := region_end g (Z.to_nat origin) (s_dev s) in
  wp (intel_iov_service_process_msg g origin relay_id msg) (fun ret s' =>
    answers origin relay_id s ret s' /\
    owned_changes (Z.to_nat origin) first (Z.min (first + count + copies) (behind + copies)) (s_dev s) (s_dev s')) s.
Proof using Type*.
  intros Ho Hreg field first count copies behind. unfold intel_iov_service_process_msg.
  rewrite (proj2 (Z.eqb_neq origin 0)) by lia.
  assert (forall ret, ret < 0 -> answers origin relay_id s ret s /\
    owned_changes (Z.to_nat origin) first (Z.min (first + count + copies) (behind + copies)) (s_dev s) (s_dev s)) as Herr
    by (intros ret Hr; split; [by left|by apply owned_changes_same]).
  assert (forall body, FIELD_GET GUC_HXG_MSG_0_TYPE (body.[0%nat | 0]) = GUC_HXG_TYPE_RESPONSE_SUCCESS ->
    (1 <= length body <= VF2PF_MSG_MAX_LEN)%nat ->
    wp (intel_iov_relay_reply_to_vf origin relay_id body) (fun ret s' => answers origin relay_id s ret s' /\
      owned_changes (Z.to_nat origin) first (Z.min (first + count + copies) (behind + copies)) (s_dev s) (s_dev s')) s) as Hrep.
  { intros body Ht Hl. apply (wp_reply_answers _ _ _ _ s); try done; [lia|].
    intros ret s' Ha Hd. split; [done|]. apply owned_changes_same. by rewrite Hd. }
  apply wp_if; intros _.
  { unfold reply_handshake. apply wp_if; intros _; [by apply wp_ret, Herr|].
    apply wp_if; intros _; [by apply wp_ret, Herr|].
    destruct (handshake_version _ _) as [[major minor]|]; [|by apply wp_ret, Herr].
    apply Hrep; [by apply reply_header_type|simpl; unfold VF2PF_MSG_MAX_LEN; simpl; lia]. }
  apply wp_if; intros _.
  { unfold pf_reply_runtime_query. apply wp_if; intros _; [by apply wp_ret, Herr|].
    apply wp_if; intros _; [by apply wp_ret, Herr|]. apply wp_bind, wp_gets.
    apply wp_if; intros _; [by apply wp_ret, Herr|].
    apply Hrep; [apply reply_header_type; [done|by apply FIELD_GET_PREP_disj]|].
    unfold runtime_response. rewrite length_app, runtime_entries_length. simpl length.
    change VF2PF_MSG_MAX_LEN with 252%nat.
    match goal with |- context [(2 * ?c)%nat] => assert (c <= 9)%nat; [|lia] end.
    change ((VF2PF_QUERY_RUNTIME_RESPONSE_MSG_MAX_LEN - VF2PF_QUERY_RUNTIME_RESPONSE_MSG_MIN_LEN) / 2)%nat with 9%nat.
    case_match; lia. }
  apply wp_if; intros _; [|by apply wp_ret, Herr].
  unfold pf_reply_update_ggtt. apply wp_if; intros _; [by apply wp_ret, Herr|].
  apply wp_if; intros Hlen; [by apply wp_ret, Herr|]. propify.
  apply wp_if; intros Hmax; [by apply wp_ret, Herr|]. propify.
  assert (1 <= (length msg - 2) / 2)%nat as Hc1 by (apply Nat.div_le_lower_bound; lia).
  change VF2PF_UPDATE_GGTT_MAX_PTES with 125%nat in Hmax.
  set (ptes := get_pte_from_msg msg <$> seq 0 ((length msg - 2) / 2)).
  assert (length ptes = (length msg - 2) / 2)%nat as Hpl by (unfold ptes; by rewrite length_fmap, length_seq).
  assert (0 <= field VF2PF_UPDATE_GGTT32_REQUEST_MSG_1_OFFSET < 2 ^ 20) as Hoff by apply (FIELD_GET_range _ 20 12).
  assert (0 <= copies < 2 ^ 10) as Hcop by apply (FIELD_GET_range _ 10 0).
  change (2 ^ 20) with 1048576 in Hoff. change (2 ^ 10) with 1024 in Hcop.
  apply wp_bind. apply (wp_update_ranges _ _ _ first (first + count + copies) copies); unfold field in *;
    rewrite ?length_take, ?length_drop, ?Hpl; try done; try (change (2 ^ 31) with 2147483648); try lia.
  intros ret s' Hret Hnb Hown. apply wp_if; intros Hb; propify.
  { apply wp_ret. split; [by left|done]. }
  destruct Hret as [|Hret]; [lia|].
  apply (wp_reply_answers _ _ _ _ s); [lia|done| |unfold VF2PF_MSG_MAX_LEN; simpl; lia|].
  - by apply reply_header_type; [|apply FIELD_GET_PREP_disj].
  - intros r s2 Ha Hd. split; [done|]. by rewrite Hd.
Qed.


Lemma handshake_version_some major minor :
  0 <= major -> 0 <= minor -> (major = 0 -> minor = 0) -> handshake_version major minor = Some (1, 0).
Proof.
  intros Hma Hmi Hv. unfold handshake_version, IOV_VERSION_LATEST_MAJOR, IOV_VERSION_BASE_MAJOR,
    IOV_VERSION_LATEST_MINOR. rewrite Z.gtb_ltb.
  destruct (Z.eqb_spec major 0); [by rewrite Hv|]. simpl. destruct (Z.ltb_spec 1 major); [done|].
  rewrite (proj2 (Z.ltb_ge major 1)) by lia. rewrite Z.min_l by done. repeat f_equal. lia.
Qed.

Lemma version_refused major minor msg :
  0 <= major -> 0 <= minor -> ~ (major = 0 -> minor = 0) ->
  handshake_version major minor = None /\ mmio_handshake_version major minor msg = inl ENOPKG.
Proof.
  intros Hma Hmi Hv. unfold handshake_version, mmio_handshake_version.
  destruct (Z.eqb_spec major 0) as [->|]; [|lia]. destruct (Z.eqb_spec minor 0); [lia|done].
Qed.

(** The handshake through the relay. A well-formed request is agreed on version 1.0, and
    the response says so, exactly when the VF asks for whatever is latest (0.0) or for a major
    version from 1 on; a request for 0.n, a non-zero MBZ field or a wrong length is refused
    with nothing sent. Where this handshake refuses a version, the one through the MMIO relay
    does not agree on one either. *)
Theorem handshake_agrees origin relay_id msg s :
  origin <> 0 ->
  let major := FIELD_GET VF2PF_HANDSHAKE_REQUEST_MSG_1_MAJOR (msg.[1%nat | 0]) in
  let minor := FIELD_GET VF2PF_HANDSHAKE_REQUEST_MSG_1_MINOR (msg.[1%nat | 0]) in
  let mbz := FIELD_GET VF2PF_HANDSHAKE_REQUEST_MSG_0_MBZ (msg.[0%nat | 0]) in
  let '(ret, s') := reply_handshake origin relay_id msg s in
  if decide (length msg = 2%nat /\ mbz = 0 /\ (major = 0 -> minor = 0)) then
    exists k body, settled k ret /\
      s' = with_nb (s_nb s ++ attempts (pf_relay_request origin relay_id body) k ret) s /\
      FIELD_GET GUC_HXG_MSG_0_TYPE (body.[0%nat | 0]) = GUC_HXG_TYPE_RESPONSE_SUCCESS /\
      FIELD_GET VF2PF_HANDSHAKE_RESPONSE_MSG_1_MAJOR (body.[1%nat | 0]) = 1 /\
      FIELD_GET VF2PF_HANDSHAKE_RESPONSE_MSG_1_MINOR (body.[1%nat | 0]) = 0
  else s' = s /\ ret = (if decide (length msg = 2%nat) then - EINVAL else - EMSGSIZE) /\
       (length msg = 2%nat -> mbz = 0 -> mmio_handshake_version major minor msg = inl ENOPKG).
Proof using Type*.
  intros Ho major minor mbz. apply wp_let.
  assert (0 <= major) as Hma by (apply (FIELD_GET_range _ 16 16)).
  assert (0 <= minor) as Hmi by (apply (FIELD_GET_range _ 16 0)).
  unfold reply_handshake. fold major minor mbz.
  destruct (Nat.eqb_spec (length msg) VF2PF_HANDSHAKE_REQUEST_MSG_LEN) as [Hlen|Hlen]; simpl.
  2: { apply wp_ret. rewrite !decide_False by tauto. split_and!; [done|done|tauto]. }
  change VF2PF_HANDSHAKE_REQUEST_MSG_LEN with 2%nat in Hlen.
  destruct (Z.eqb_spec mbz 0) as [Hm|Hm]; simpl.
  2: { apply wp_ret. rewrite decide_False, decide_True by tauto. split_and!; [done|done|tauto]. }
  destruct (decide (major = 0 -> minor = 0)) as [Hv|Hv].
  - rewrite handshake_version_some by done. apply wp_reply; [done|]. intros k ret Hr.
    rewrite decide_True by done.
    exists k, (handshake_response 1 0). split_and!; [exact Hr|reflexivity|by vm_compute..].
  - destruct (version_refused major minor msg Hma Hmi Hv) as [-> Hmm]. apply wp_ret.
    rewrite decide_False, decide_True by tauto. by split_and!.
Qed.

(** Asking for the page that starts at [start], as a VF does, and reading the answer. *)
Definition query_request (start : nat) : list Z :=
  [FIELD_PREP GUC_HXG_REQUEST_MSG_0_ACTION IOV_ACTION_VF2PF_QUERY_RUNTIME; Z.of_nat start].
Definition query_page (g : gt_id) (origin : Z) (start : nat) : st iov_state (Z * Z * list (Z * Z)) :=
  intel_iov_service_process_msg g origin 1 (query_request start) ≫= fun _ =>
  gets (fun s => decode_page (drop 3 (fst (default ([], 0) (last (s_nb s)))))).
Fixpoint query_all (fuel : nat) (g : gt_id) (origin : Z) (start : nat) : st iov_state (list (Z * Z)) :=
  page ← query_page g origin start;
  let '(count, remaining, entries) := page in
  if remaining =? 0 then mret entries else
  match fuel with
  | O => mret entries
  | S fuel => rest ← query_all fuel g origin (start + Z.to_nat count); mret (entries ++ rest)
  end.

Lemma wp_query_page g origin start (Q : Z * Z * list (Z * Z) -> iov_state -> Prop) s :
  origin <> 0 -> rt_wf (s_runtime s) -> (start <= rt_size (s_runtime s))%nat ->
  let n := Nat.min (rt_size (s_runtime s) - start) 9 in
  (forall s', s_runtime s' = s_runtime s -> s_dev s' = s_dev s ->
     Q (Z.of_nat n, Z.of_nat (rt_size (s_runtime s) - start - n),
        take n (drop start (rt_pairs (s_runtime s)))) s') ->
  wp (query_page g origin start) Q s.
Proof using Type*.
  intros Ho Hwf Hst n HQ. pose proof Hwf as (_ & _ & Hsz). change (2 ^ 28) with 268435456 in Hsz.
  apply wp_bind. unfold intel_iov_service_process_msg. rewrite (proj2 (Z.eqb_neq origin 0)) by done.
  simpl (query_request start).[0%nat | 0]. change (FIELD_GET GUC_HXG_REQUEST_MSG_0_ACTION _) with IOV_ACTION_VF2PF_QUERY_RUNTIME.
  simpl (_ =? _).
  assert (FIELD_GET VF2PF_QUERY_RUNTIME_REQUEST_MSG_1_START ((query_request start).[1%nat | 0]) = Z.of_nat start) as Hs.
  { simpl. rewrite (FIELD_GET_mod _ 32 0), Z.div_1_r, Z.mod_small by (change (2 ^ 32) with 4294967296; lia). done. }
  assert (page_size (s_runtime s) (FIELD_GET VF2PF_QUERY_RUNTIME_REQUEST_MSG_0_LIMIT ((query_request start).[0%nat | 0])) start = n)
    as Hp by done.
  apply wp_runtime_query; rewrite ?Hs, ?Nat2Z.id; [done|done|lia|].
  intros k ret Hr. rewrite Hp. apply wp_gets. cbn [s_nb with_nb].
  unfold attempts. rewrite !app_assoc, last_snoc. cbn [default from_option id fst].
  match goal with |- context [drop 3 (pf_relay_request ?a ?b ?m)] =>
    change (drop 3 (pf_relay_request a b m)) with m end.
  rewrite decode_runtime_response by (done || lia). by apply HQ.
Qed.

(** A VF that asks for the runtime registers page after page, starting each time after
    the entries it has, gets all of them, in order, each offset with the value the PF holds,
    whatever the transport does; [rt_size] requests are more than enough. *)
Theorem query_all_complete g origin s :
  origin <> 0 -> rt_wf (s_runtime s) ->
  let '(entries, s') := query_all (rt_size (s_runtime s)) g origin 0 s in
  entries = rt_pairs (s_runtime s) /\ s_dev s' = s_dev s.
Proof using Type*.
  intros Ho Hwf. apply wp_let.
  assert (forall fuel start s1, s_runtime s1 = s_runtime s -> (rt_size (s_runtime s) - start <= fuel)%nat ->
    (start <= rt_size (s_runtime s))%nat -> s_dev s1 = s_dev s ->
    wp (query_all fuel g origin start)
      (fun l s' => l = drop start (rt_pairs (s_runtime s)) /\ s_dev s' = s_dev s) s1) as Hall.
  { induction fuel as [|fuel IH]; intros start s1 Hrt Hf Hst Hd; cbn [query_all];
      apply wp_bind, wp_query_page; rewrite ?Hrt; try done; intros s2 Hrt2 Hd2; cbn [fst snd];
      assert (length (rt_pairs (s_runtime s)) = rt_size (s_runtime s)) as Hlen
        by (destruct Hwf as (H1 & H2 & _); unfold rt_pairs; rewrite length_zip_with; lia).
    - rewrite (proj2 (Z.eqb_eq _ 0)) by lia. apply wp_ret. split; [|congruence].
      apply take_ge. rewrite length_drop. lia.
    - apply wp_if; intros Hb; propify.
      + apply wp_ret. split; [|congruence]. apply take_ge. rewrite length_drop. lia.
      + apply wp_bind. eapply wp_mono; [apply IH; rewrite ?Nat2Z.id; try lia; congruence|].
        intros rest s3 [-> Hd3]. apply wp_ret. split; [|done].
        by rewrite Nat2Z.id, <- drop_drop, take_drop. }
  by apply Hall; try lia.
Qed.
End properties.

(** ** The MMIO relay *)

Section mmio.
Context `{E : Env} `{R : RelayEnv} `{P : ServiceEnv}.

(** A request to GuC that answers VF [vfid]'s message with number [magic]. *)
Definition mmio_answer (g : gt_id) (vfid magic : Z) (r : guc_req) : Prop :=
  req_gt r = g /\ (req_msg r).[1%nat | 0] = FIELD_PREP GUC_HXG_MSG_n_PAYLOAD vfid /\
  FIELD_GET GUC2PF_MMIO_RELAY_SERVICE_EVENT_MSG_2_MAGIC ((req_msg r).[2%nat | 0]) = magic.

Definition mmio_error (g : gt_id) (vfid magic fault : Z) : guc_req :=
  {| req_gt := g; req_msg := mmio_error_request vfid magic fault; req_blob := [] |}.
Definition mmio_reply (g : gt_id) (vfid magic : Z) (data : list Z) : guc_req :=
  {| req_gt := g; req_msg := mmio_reply_request vfid magic data; req_blob := [] |}.

Lemma mmio_third_dword magic m v :
  0 <= magic < 16 -> Z.land GUC2PF_MMIO_RELAY_SERVICE_EVENT_MSG_2_MAGIC m = 0 ->
  FIELD_GET GUC2PF_MMIO_RELAY_SERVICE_EVENT_MSG_2_MAGIC
    (Z.lor (FIELD_PREP GUC2PF_MMIO_RELAY_SERVICE_EVENT_MSG_2_MAGIC magic) (FIELD_PREP m v)) = magic.
Proof.
  intros Hm Hd. rewrite FIELD_GET_lor, (FIELD_GET_PREP_small _ 4 24), FIELD_GET_PREP_disj by done.
  apply Z.lor_0_r.
Qed.

Lemma mmio_error_answers g vfid magic fault :
  0 <= magic < 16 -> mmio_answer g vfid magic (mmio_error g vfid magic fault).
Proof. intros Hm. split_and!; [done|done|]. by apply mmio_third_dword. Qed.
Lemma mmio_reply_answers g vfid magic data :
  0 <= magic < 16 -> mmio_answer g vfid magic (mmio_reply g vfid magic data).
Proof. intros Hm. split_and!; [done|done|]. by apply mmio_third_dword. Qed.

(** A step that only sends the requests [l] to GuC. *)
Definition sent_to_guc (l : list guc_req) (s s' : iov_state) : Prop :=
  d_log (s_dev s') = d_log (s_dev s) ++ l /\ s_nb s' = s_nb s /\ s_runtime s' = s_runtime s.

Lemma sent_to_guc_app l l' a b c :
  sent_to_guc l a b -> sent_to_guc l' b c -> sent_to_guc (l ++ l') a c.
Proof. intros (H1&H2&H3) (H4&H5&H6). split_and!; [by rewrite H4, H1, app_assoc|congruence|congruence]. Qed.

Lemma sent_to_guc_nil s s' :
  d_log (s_dev s') = d_log (s_dev s) -> s_nb s' = s_nb s -> s_runtime s' = s_runtime s -> sent_to_guc [] s s'.
Proof. intros. split; [by rewrite app_nil_r|done]. Qed.

Lemma wp_mmio_send r (Q : Z -> iov_state -> Prop) s :
  (forall s', sent_to_guc [r] s s' -> d_ptes (s_dev s') = d_ptes (s_dev s) ->
     Q (guc_reply (d_log (s_dev s)) r) s') ->
  wp (on_dev (intel_guc_send r)) Q s.
Proof. intros HQ. apply wp_on_dev. by apply HQ. Qed.

(** What a handler does before it reports [ret]: nothing and an error, or one reply. *)
Definition handled (g : gt_id) (vfid magic : Z) (s : iov_state) (ret : Z) (s' : iov_state) : Prop :=
  (ret < 0 /\ sent_to_guc [] s s') \/
  exists r, mmio_answer g vfid magic r /\ sent_to_guc [r] s s'.

Lemma handshake_handled g vfid magic msg s :
  0 <= magic < 16 ->
  wp (reply_mmio_relay_handshake g vfid magic msg)
    (fun ret s' => handled g vfid magic s ret s' /\ d_ptes (s_dev s') = d_ptes (s_dev s)) s.
Proof.
  intros Hm. unfold reply_mmio_relay_handshake.
  destruct (mmio_handshake_version _ _ _) as [fault|[major minor]]; apply wp_mmio_send;
    intros s' Hs Ht; (split; [|done]); right; eexists; (split; [|exact Hs]);
    [by apply mmio_error_answers|by apply mmio_reply_answers].
Qed.

Lemma get_reg_handled g vfid magic msg s :
  0 <= magic < 16 ->
  wp (reply_mmio_relay_get_reg g vfid magic msg)
    (fun ret s' => handled g vfid magic s ret s' /\ d_ptes (s_dev s') = d_ptes (s_dev s)) s.
Proof.
  intros Hm. unfold reply_mmio_relay_get_reg.
  assert (forall ret, ret < 0 -> handled g vfid magic s ret s /\ d_ptes (s_dev s) = d_ptes (s_dev s)) as Herr
    by (intros ret Hr; split; [left; split; [done|by apply sent_to_guc_nil]|done]).
  apply wp_if; intros _; [by apply wp_ret, Herr|]. apply wp_if; intros _; [by apply wp_ret, Herr|].
  apply wp_bind, wp_gets. destruct (get_regs _ s) as [values|]; [|by apply wp_ret, Herr].
  apply wp_mmio_send. intros s' Hs Ht. split; [|done]. right. eexists.
  split; [by apply mmio_reply_answers|exact Hs].
Qed.

Lemma update_handled g vfid magic msg s :
  let field m := FIELD_GET m (msg.[1%nat | 0]) in
  let first := start (ggtt_region (cfg (s_dev s) g (Z.to_nat vfid))) / PAGE_SIZE +
               field VF2PF_UPDATE_GGTT32_REQUEST_MSG_1_OFFSET in
  let copies := field VF2PF_UPDATE_GGTT32_REQUEST_MSG_1_NUM_COPIES in
  0 <= magic < 16 -> 0 < vfid < 8 -> region_ok g (Z.to_nat vfid) (s_dev s) ->
  wp (reply_mmio_relay_update_ggtt g vfid magic msg)
    (fun ret s' => handled g vfid magic s ret s' /\
       owned_changes (Z.to_nat vfid) first (first + 1 + copies) (s_dev s) (s_dev s')) s.
Proof.
  intros field first copies Hm Hv Hreg. unfold reply_mmio_relay_update_ggtt.
  assert (sent_to_guc [] s s) as Hnil by (by apply sent_to_guc_nil).
  assert (forall ret, ret < 0 -> handled g vfid magic s ret s /\
    owned_changes (Z.to_nat vfid) first (first + 1 + copies) (s_dev s) (s_dev s)) as Herr
    by (intros ret Hr; split; [by left|by apply owned_changes_same]).
  apply wp_if; intros _; [by apply wp_ret, Herr|]. apply wp_if; intros _; [by apply wp_ret, Herr|].
  apply wp_bind, wp_on_dev. fold (field VF2PF_UPDATE_GGTT32_REQUEST_MSG_1_OFFSET)
    (field VF2PF_UPDATE_GGTT32_REQUEST_MSG_1_NUM_COPIES) (field VF2PF_UPDATE_GGTT32_REQUEST_MSG_1_MODE).
  assert (0 <= field VF2PF_UPDATE_GGTT32_REQUEST_MSG_1_OFFSET < 2 ^ 20) as Hoff by apply (FIELD_GET_range _ 20 12).
  assert (0 <= copies < 2 ^ 10) as Hcop by apply (FIELD_GET_range _ 10 0).
  change (2 ^ 20) with 1048576 in Hoff. change (2 ^ 10) with 1024 in Hcop.
  set (ptes := [make_u64 _ _]). destruct Hreg as (H1&H2&H3&H4&H5).
  fold copies. match goal with |- wp (intel_iov_ggtt_pf_update_vf_ptes ?a ?b ?c ?m ?n ?p) _ _ =>
    pose proof (pf_update_keeps a b c m n p (s_dev s)) as [_ Hlog] end.
  apply run_wp. intros ret d' Hrun. rewrite Hrun in Hlog. simpl in Hlog.
  assert (owned_changes (Z.to_nat vfid) first (first + 1 + copies) (s_dev s) d') as Hown.
  { refine (wp_run _ (fun _ x => owned_changes (Z.to_nat vfid) first (first + 1 + copies) (s_dev s) x) _ _ _ Hrun _).
    apply wp_pf_update_owned; try done; try (simpl; lia). }
  assert (sent_to_guc [] s (with_dev d' s)) as Hnil' by (by apply sent_to_guc_nil).
  apply wp_if; intros Hb; propify.
  { apply wp_ret. split; [by left|done]. }
  apply wp_mmio_send. intros s' Hs Ht. split.
  - right. eexists. split; [by apply mmio_reply_answers|]. by eapply (sent_to_guc_app []).
  - intros i. rewrite Ht. apply Hown.
Qed.

(** A request through the MMIO relay ([intel_iov_service_process_mmio_relay]) on the PF.
    Every well-formed notification is answered: GuC is sent one or two requests, all for the
    VF that asked and with its magic number, and when the handler fails the last one is the
    failure with the error as its fault; entries of the GGTT that change belong to that VF and
    are among the [1 + copies] entries it names. *)
Theorem mmio_relay_answers g msg s :
  iov_mode = I915_IOV_MODE_SRIOV_PF -> length msg = GUC2PF_MMIO_RELAY_SERVICE_EVENT_MSG_LEN ->
  let vfid := FIELD_GET GUC_HXG_MSG_n_PAYLOAD (msg.[1%nat | 0]) in
  let magic := FIELD_GET GUC2PF_MMIO_RELAY_SERVICE_EVENT_MSG_2_MAGIC (msg.[2%nat | 0]) in
  let first := start (ggtt_region (cfg (s_dev s) g (Z.to_nat vfid))) / PAGE_SIZE +
               FIELD_GET VF2PF_UPDATE_GGTT32_REQUEST_MSG_1_OFFSET (msg.[3%nat | 0]) in
  let copies := FIELD_GET VF2PF_UPDATE_GGTT32_REQUEST_MSG_1_NUM_COPIES (msg.[3%nat | 0]) in
  0 < vfid < 8 -> region_ok g (Z.to_nat vfid) (s_dev s) ->
  let '(ret, s') := intel_iov_service_process_mmio_relay g msg s in
  (exists l, sent_to_guc l s s' /\ (1 <= length l <= 2)%nat /\ Forall (mmio_answer g vfid magic) l /\
     (ret < 0 -> last l = Some (mmio_error g vfid magic (- ret)))) /\
  owned_changes (Z.to_nat vfid) first (first + 1 + copies) (s_dev s) (s_dev s').
Proof.
  intros Hpf Hlen vfid magic first copies Hv Hreg. apply wp_let.
  unfold intel_iov_service_process_mmio_relay. rewrite bool_decide_eq_true_2 by done.
  rewrite Hlen, Nat.eqb_refl. simpl negb. cbv iota. fold vfid magic.
  rewrite (proj2 (Z.eqb_neq vfid 0)) by lia.
  assert (0 <= magic < 2 ^ 4) as Hm by apply (FIELD_GET_range _ 4 24). change (2 ^ 4) with 16 in Hm.
  assert ((drop 2 msg).[1%nat | 0] = msg.[3%nat | 0]) as Hd by (by rewrite lookup_drop).
  pose (H := fun ret s' => handled g vfid magic s ret s' /\
    owned_changes (Z.to_nat vfid) first (first + 1 + copies) (s_dev s) (s_dev s')).
  assert (forall m, wp m (fun ret s' => handled g vfid magic s ret s' /\ d_ptes (s_dev s') = d_ptes (s_dev s)) s ->
    wp m H s) as Hsame.
  { intros m Hwp. eapply wp_mono; [exact Hwp|]. intros ret s' [Hh Ht]. split; [done|].
    by apply owned_changes_same. }
  apply wp_bind. apply (wp_mono _ H).
  - apply wp_if; intros _; [by apply Hsame, handshake_handled|]. apply wp_if; intros _.
    { unfold H, first, copies. rewrite <- Hd. by apply update_handled. }
    apply wp_if; intros _; [by apply Hsame, get_reg_handled|]. apply wp_ret. split; [|by apply owned_changes_same].
    left. split; [done|by apply sent_to_guc_nil].
  - intros ret s1 [Hh Hown]. apply wp_bind. apply wp_if; intros Hb; propify.
    + apply wp_bind, wp_mmio_send. intros s2 Hs2 Ht. apply wp_ret, wp_ret. split; [|by intros i; rewrite Ht; apply Hown].
      destruct Hh as [[_ Hs1]|(r & Hr & Hs1)]; eexists; (split; [by eapply sent_to_guc_app|]);
        (split; [simpl; lia|]); (split; [|by intros _; apply last_snoc]);
        rewrite Forall_app, !Forall_singleton, ?Forall_nil; (split; [done|]);
        by apply (mmio_error_answers g vfid magic (- ret)).
    + apply wp_ret, wp_ret. split; [|done]. destruct Hh as [[? _]|(r & Hr & Hs1)]; [lia|].
      exists [r]. split; [done|]. split; [simpl; lia|]. split; [by apply Forall_singleton|lia].
Qed.

(** [value] is what the PF may say of a register: its captured value when the register is on
    the list it shares, and 0 for no register. *)
Definition reg_value (rt : intel_iov_runtime_regs) (offset value : Z) : Prop :=
  offset = 0 /\ value = 0 \/
  offset <> 0 /\ exists i, rt_regs rt !! i = Some offset /\ value = (rt_values rt).[i | 0].

Lemma get_regs_spec `{!ServiceEnvLaws P} offsets s :
  Sorted.StronglySorted Z.lt (rt_regs (s_runtime s)) ->
  match get_regs offsets s with
  | Some values => Forall2 (reg_value (s_runtime s)) offsets values
  | None => exists o, o ∈ offsets /\ o <> 0 /\ o ∉ rt_regs (s_runtime s)
  end.
Proof.
  intros Hs. induction offsets as [|o offsets IH]; cbn [get_regs]; [constructor|].
  unfold lookup_reg_index. pose proof (bsearch_ok o _ Hs) as Hb.
  destruct (Z.eqb_spec o 0) as [->|Ho].
  - destruct (get_regs offsets s); simpl; [constructor; [by left|done]|].
    destruct IH as (o' & ? & ?). exists o'. split; [by apply list_elem_of_further|done].
  - destruct (bsearch o (rt_regs (s_runtime s))) as [i|].
    + destruct (get_regs offsets s); simpl; [constructor; [right; eauto|done]|].
      destruct IH as (o' & ? & ?). exists o'. split; [by apply list_elem_of_further|done].
    + exists o. split_and!; [by apply list_elem_of_here|done|done].
Qed.

(** Reading registers through the MMIO relay. A VF that names a first register gets the
    captured values of the registers it names when all of them are on the list the PF shares,
    nothing but zeros for the names it left out; when one is not on the list it gets EACCES
    and no value. *)
Theorem mmio_get_reg_allowlist `{!ServiceEnvLaws P} g msg s :
  iov_mode = I915_IOV_MODE_SRIOV_PF -> length msg = GUC2PF_MMIO_RELAY_SERVICE_EVENT_MSG_LEN ->
  let vfid := FIELD_GET GUC_HXG_MSG_n_PAYLOAD (msg.[1%nat | 0]) in
  let magic := FIELD_GET GUC2PF_MMIO_RELAY_SERVICE_EVENT_MSG_2_MAGIC (msg.[2%nat | 0]) in
  let offsets := drop 3 msg in
  vfid <> 0 -> msg.[2%nat | 0] <> 0 -> msg.[3%nat | 0] <> 0 ->
  FIELD_GET GUC2PF_MMIO_RELAY_SERVICE_EVENT_MSG_2_OPCODE (msg.[2%nat | 0]) = IOV_OPCODE_VF2PF_MMIO_GET_RUNTIME ->
  Sorted.StronglySorted Z.lt (rt_regs (s_runtime s)) ->
  let '(ret, s') := intel_iov_service_process_mmio_relay g msg s in
  if decide (Forall (fun o => o = 0 \/ o ∈ rt_regs (s_runtime s)) offsets) then
    exists values l, Forall2 (reg_value (s_runtime s)) offsets values /\
      d_log (s_dev s') = d_log (s_dev s) ++ mmio_reply g vfid magic (0 :: values) :: l /\
      (0 <= guc_reply (d_log (s_dev s)) (mmio_reply g vfid magic (0 :: values)) -> l = [])
  else ret = - EACCES /\ d_log (s_dev s') = d_log (s_dev s) ++ [mmio_error g vfid magic EACCES].
Proof using Type*.
  intros Hpf Hlen vfid magic offsets Hv H2 H3 Hop Hsorted. apply wp_let.
  unfold intel_iov_service_process_mmio_relay. rewrite bool_decide_eq_true_2 by done.
  rewrite Hlen, Nat.eqb_refl. simpl negb. cbv iota. fold vfid magic.
  rewrite (proj2 (Z.eqb_neq vfid 0)) by done. rewrite Hop. cbv iota.
  apply wp_bind. change (IOV_OPCODE_VF2PF_MMIO_GET_RUNTIME =? IOV_OPCODE_VF2PF_MMIO_HANDSHAKE) with false.
  change (IOV_OPCODE_VF2PF_MMIO_GET_RUNTIME =? IOV_OPCODE_VF2PF_MMIO_UPDATE_GGTT) with false.
  rewrite Z.eqb_refl. cbv iota. unfold reply_mmio_relay_get_reg. rewrite !lookup_drop. simpl (_ + _)%nat.
  rewrite (proj2 (Z.eqb_neq _ 0) H2), (proj2 (Z.eqb_neq _ 0) H3). apply wp_bind, wp_gets.
  assert ((fun i => (drop 2 msg).[(i + 1)%nat | 0]) <$> seq 0 VF2PF_MMIO_GET_RUNTIME_REQUEST_MSG_NUM_OFFSET = offsets) as ->.
  { unfold offsets. do 6 (destruct msg as [|? msg]; [done|]). by destruct msg. }
  pose proof (get_regs_spec offsets s Hsorted) as Hregs. destruct (get_regs offsets s) as [values|].
  - assert (Forall (fun o => o = 0 \/ o ∈ rt_regs (s_runtime s)) offsets) as Hall.
    { apply Forall_forall. intros o Ho. apply list_elem_of_lookup in Ho as [i Hi].
      destruct (Forall2_lookup_l _ _ _ _ _ Hregs Hi) as (v & _ & [[-> _]|(_ & j & Hj & _)]); [by left|].
      right. by eapply list_elem_of_lookup_2. }
    apply wp_mmio_send. intros s1 (Hlog & _) _. apply wp_bind. apply wp_if; intros Hb; propify.
    + apply wp_bind, wp_mmio_send. intros s2 (Hlog2 & _) _. apply wp_ret, wp_ret.
      rewrite decide_True by done. exists values. eexists. split; [done|]. rewrite Hlog2, Hlog, <- app_assoc.
      split; [reflexivity|]. unfold mmio_reply. lia.
    + apply wp_ret, wp_ret. rewrite decide_True by done. exists values, []. by split.
  - destruct Hregs as (o & Ho & Hne & Hno). apply wp_ret, wp_bind. cbv iota. simpl (_ <? 0). cbv iota.
    apply wp_bind, wp_mmio_send. intros s1 (Hlog & _) _. apply wp_ret, wp_ret.
    rewrite decide_False; [by split|]. intros Hall. rewrite Forall_forall in Hall.
    by destruct (Hall o Ho).
Qed.
End mmio.

(** The tables are sorted, as the binary search needs. *)
Lemma runtime_regs_sorted :
  Sorted.StronglySorted Z.lt tgl_runtime_regs /\ Sorted.StronglySorted Z.lt mtl_runtime_regs.
Proof.
  split; apply Sorted.Sorted_StronglySorted; try (by intros ???; apply Z.lt_trans);
    repeat constructor.
Qed.

(** ** Samples *)

Definition sample_relay_env : RelayEnv := {|
  iov_mode := I915_IOV_MODE_SRIOV_PF; ct_send_nb _ _ := 0; ct_clears _ := 0%nat; mmio_read _ reg := reg + 1 |}.
#[export] Instance sample_relay_laws : RelayEnvLaws sample_relay_env.
Proof. by constructor. Qed.
#[export] Instance sample_relay_works : TransportWorks sample_relay_env.
Proof. by constructor. Qed.

Definition sample_service_env : ServiceEnv := {|
  GRAPHICS_VER_FULL := IP_VER 12 71; is_tgl_or_adl := false;
  bsearch key l := fst <$> list_find (fun x => x = key) l |}.
#[export] Instance sample_service_laws : ServiceEnvLaws sample_service_env.
Proof.
  constructor. intros key l _. simpl. destruct (list_find _ l) as [[i x]|] eqn:Hf; simpl.
  - apply list_find_Some in Hf as (Hi & -> & _). done.
  - rewrite list_find_None, Forall_forall in Hf. intros Hin. by apply (Hf key).
Qed.

(** The sample environment on a platform that updates the GGTT for its VFs. *)
Definition sample_env_service : Env := {|
  env_gtt := sample_gtt; has_media_gt := true; env_alloc _ := true; env_vma _ := 0;
  env_vma_addr _ := 0x100000; guc_reply _ _ := 0; ggtt_pin_bias := 0x100000;
  ggtt_total := sample_total; wopcm_guc_size _ := 0x100000;
  require_binder := true; bind_ready _ := false; bind_fails_after _ := None; scratch_pte := 1 |}.

Section witnesses.
#[local] Existing Instance sample_env_service.
#[local] Existing Instance sample_relay_env.
#[local] Existing Instance sample_service_env.

(** VF 3 owns four pages from 0x300 on; the registers were captured. *)
Definition sample_service_dev : dev :=
  {| d_prov _ := set_configs (alter (set_region (sample_node 0x300000 0x4000)) 3%nat (configs sample_prov)) sample_prov;
     d_totalvfs := 4; d_numvfs := 4; d_status := 4; d_disable_auto := true;
     d_ids_in_use _ := 0; d_num_guc_ids _ := 65535;
     d_mm := ([] : list (Z * Z)) : @gtt_space (@env_gtt sample_env_service);
     d_ptes _ := 0; d_shadows := None; d_log := []; d_ticks := 0; d_live := 0 |}.
Definition sample_iov : iov_state :=
  snd ((intel_iov_service_init_early ≫= fun _ => intel_iov_service_update)
    {| s_dev := sample_service_dev; s_relay := {| pending_relays := []; last_fence := 0 |};
       s_runtime := {| rt_size := 0; rt_regs := []; rt_values := [] |};
       s_nb := []; s_reads := 0; s_returned := [] |}).

(** VF 3 asks for entries from offset [off] of its region on: [mode], [copies], the entries. *)
Definition update_msg (off mode copies : Z) (ptes : list Z) : list Z :=
  [FIELD_PREP GUC_HXG_REQUEST_MSG_0_ACTION IOV_ACTION_VF2PF_UPDATE_GGTT32;
   Z.lor (Z.lor (FIELD_PREP VF2PF_UPDATE_GGTT32_REQUEST_MSG_1_OFFSET off)
                (FIELD_PREP VF2PF_UPDATE_GGTT32_REQUEST_MSG_1_MODE mode))
         (FIELD_PREP VF2PF_UPDATE_GGTT32_REQUEST_MSG_1_NUM_COPIES copies)]
  ++ (ptes ≫= fun pte => [lower_32_bits pte; upper_32_bits pte]).

(** [pf_reply_update_ggtt] advances past the entries of a finished range but not past
    their copies. VF 3 asks to map one page twice and then, with other attributes, a second
    page; the PF reports three entries, but the second page lands on the copy of the first and
    the third entry stays unmapped. *)
Theorem update_copies_overwritten :
  let '(ret, s') := intel_iov_service_process_msg GT_PRIMARY 3 1
    (update_msg 0 MMIO_UPDATE_GGTT_MODE_DUPLICATE 1 [0x5001; Z.lor 0x9001 (Z.shiftl 1 52)]) sample_iov in
  ret = 0 /\ (fst <$> s_nb s') = [pf_relay_request 3 1 (update_response 3)] /\
  (fun i => pte_addr (d_ptes (s_dev s') (0x300 + i))) <$> [0; 1; 2] = [5; 9; 0].
Proof. vm_compute. done. Qed.

Lemma sample_region_ok : region_ok GT_PRIMARY 3 (s_dev sample_iov).
Proof. split_and!; try done; [by exists 0x300|by exists 4]. Qed.

Lemma fences_distinct_witness : NoDup (fst (take_fences 3 sample_iov)).
Proof. by apply (fences_distinct 3 sample_iov). Defined.


Lemma handshake_agrees_witness :
  let '(ret, s') := reply_handshake 3 1 [1; 0x10000] sample_iov in
  exists k body, settled k ret /\
    s' = with_nb (s_nb sample_iov ++ attempts (pf_relay_request 3 1 body) k ret) sample_iov.
Proof.
  pose proof (handshake_agrees 3 1 [1; 0x10000] sample_iov ltac:(done)) as Hw.
  destruct (reply_handshake _ _ _ _) as [ret s']. rewrite decide_True in Hw by (by vm_compute).
  destruct Hw as (k & body & H1 & H2 & _). by exists k, body.
Defined.

Lemma query_all_complete_witness :
  length (rt_pairs (s_runtime sample_iov)) = 17%nat /\
  let '(entries, s') := query_all 17 GT_PRIMARY 3 0 sample_iov in
  entries = rt_pairs (s_runtime sample_iov).
Proof.
  split; [done|]. pose proof (query_all_complete GT_PRIMARY 3 sample_iov ltac:(done) ltac:(by vm_compute)) as Hw.
  change (rt_size (s_runtime sample_iov)) with 17%nat in Hw.
  destruct (query_all 17 GT_PRIMARY 3 0 sample_iov). apply Hw.
Defined.

(** VF 3 asks for the register at offset 0xd00 and one that is not shared. *)
Definition sample_get_reg (second : Z) : list Z := [0; 3; 0x5100001; 0xd00; second; 0].

Lemma mmio_relay_answers_witness :
  let '(ret, s') := intel_iov_service_process_mmio_relay GT_PRIMARY (sample_get_reg 0) sample_iov in
  exists l, sent_to_guc l sample_iov s' /\ (1 <= length l <= 2)%nat.
Proof.
  pose proof (mmio_relay_answers GT_PRIMARY (sample_get_reg 0) sample_iov eq_refl eq_refl
    ltac:(by vm_compute) sample_region_ok) as Hw.
  destruct (intel_iov_service_process_mmio_relay _ _ _) as [ret s'].
  destruct Hw as [(l & H1 & H2 & _) _]. by exists l.
Defined.

Lemma mmio_get_reg_allowlist_witness :
  let '(ret, s') := intel_iov_service_process_mmio_relay GT_PRIMARY (sample_get_reg 0x44) sample_iov in
  ret = - EACCES /\ d_log (s_dev s') = [mmio_error GT_PRIMARY 3 5 EACCES].
Proof.
  pose proof (mmio_get_reg_allowlist GT_PRIMARY (sample_get_reg 0x44) sample_iov eq_refl eq_refl
    ltac:(by vm_compute) ltac:(by vm_compute) ltac:(by vm_compute) ltac:(by vm_compute) (proj2 runtime_regs_sorted)) as Hw.
  destruct (intel_iov_service_process_mmio_relay _ _ _) as [ret s'].
  rewrite decide_False in Hw; [exact Hw|]. intros [_ [[? | Hin] _]%Forall_cons]%Forall_cons; [done|].
  apply list_elem_of_In in Hin. vm_compute in Hin. by intuition.
Defined.
End witnesses.
