(* ===== verification/RelayWait.v ===== *)
(** * The relay between PF and VFs: receiving and waiting

    gt/iov/intel_iov_relay.c from [relay_send_and_wait] on. A call that waits for its response
    is a thread that takes part in the run of the system one statement at a time, so messages
    can arrive between any two of its accesses to the structure it shares with the receiver. *)

From S2P Require Export Service.

Section wait.
Context `{E : Env} `{R : RelayEnv} `{P : ServiceEnv}.

(** ** Receiving *)

Definition with_pending (l : list pending_relay) (s : iov_state) : iov_state :=
  with_relay {| pending_relays := l; last_fence := last_fence (s_relay s) |} s.

Definition set_pc (pc : wait_pc) (p : pending_relay) : pending_relay :=
  {| p_done := p_done p; p_target := p_target p; p_fence := p_fence p; p_reply := p_reply p;
     p_response := p_response p; p_response_size := p_response_size p; p_msg := p_msg p; p_pc := pc |}.
Definition set_done (b : bool) (p : pending_relay) : pending_relay :=
  {| p_done := b; p_target := p_target p; p_fence := p_fence p; p_reply := p_reply p;
     p_response := p_response p; p_response_size := p_response_size p; p_msg := p_msg p; p_pc := p_pc p |}.
(** [pending->reply = reply; complete_all(&pending->done)] *)
Definition complete_with (reply : Z) (p : pending_relay) : pending_relay :=
  {| p_done := true; p_target := p_target p; p_fence := p_fence p; p_reply := reply;
     p_response := p_response p; p_response_size := p_response_size p; p_msg := p_msg p; p_pc := p_pc p |}.
(** The copy of a response into the buffer of the waiter. *)
Definition store_response (msg : list Z) (p : pending_relay) : pending_relay :=
  {| p_done := p_done p; p_target := p_target p; p_fence := p_fence p; p_reply := p_reply p;
     p_response := FIELD_GET GUC_HXG_RESPONSE_MSG_0_DATA0 (msg.[0%nat | 0]) :: tail msg
                   ++ drop (length msg) (p_response p);
     p_response_size := length msg; p_msg := p_msg p; p_pc := p_pc p |}.

(** The waiter a reply is for, after the reply, and the result of [relay_handle_reply]. *)
Definition deliver (reply : Z) (msg : list Z) (p : pending_relay) : pending_relay * Z :=
  if reply =? 0 then
    if (p_response_size p <? length msg)%nat then (complete_with (- ENOBUFS) p, - ENOBUFS)
    else (complete_with 0 (store_response msg p), 0)
  else (complete_with reply p, 0).

Definition awaits (origin relay_id : Z) (p : pending_relay) : Prop :=
  p_target p = origin /\ p_fence p = relay_id.
#[export] Instance awaits_dec origin relay_id p : Decision (awaits origin relay_id p).
Proof. unfold awaits. apply _. Defined.

Definition relay_handle_reply (origin relay_id reply : Z) (msg : list Z) : st iov_state Z := fun s =>
  match list_find (awaits origin relay_id) (pending_relays (s_relay s)) with
  | None => (- ESRCH, s)
  | Some (i, p) =>
      let '(p', err) := deliver reply msg p in
      (err, with_pending (<[i := p']> (pending_relays (s_relay s))) s)
  end.

Definition relay_handle_failure (origin relay_id : Z) (msg : list Z) : st iov_state Z :=
  let error := FIELD_GET GUC_HXG_FAILURE_MSG_0_ERROR (msg.[0%nat | 0]) in
  relay_handle_reply origin relay_id (elvis error (- ERFKILL)) [].

Definition relay_handle_request (g : gt_id) (origin relay_id : Z) (msg : list Z) : st iov_state Z :=
  err ← (if decide (iov_mode = I915_IOV_MODE_SRIOV_PF)
         then intel_iov_service_process_msg g origin relay_id msg else mret (- EOPNOTSUPP));
  if err <? 0 then
    let error := from_err_to_iov_error err in
    relay_send_failure origin relay_id (if negb (origin =? 0) then sanitize_iov_error error else error) 0
  else mret err.

Definition relay_handle_event (origin relay_id : Z) (msg : list Z) : st iov_state Z := mret (- EOPNOTSUPP).

Definition relay_process_msg (g : gt_id) (origin relay_id : Z) (relay_msg : list Z) : st iov_state Z :=
  if (length relay_msg <? 1)%nat then mret (- EPROTO) else
  if negb (FIELD_GET GUC_HXG_MSG_0_ORIGIN (relay_msg.[0%nat | 0]) =? GUC_HXG_ORIGIN_HOST)
  then mret (- EPROTO) else
  let relay_type := FIELD_GET GUC_HXG_MSG_0_TYPE (relay_msg.[0%nat | 0]) in
  if relay_type =? GUC_HXG_TYPE_REQUEST then relay_handle_request g origin relay_id relay_msg
  else if relay_type =? GUC_HXG_TYPE_EVENT then relay_handle_event origin relay_id relay_msg
  else if relay_type =? GUC_HXG_TYPE_RESPONSE_SUCCESS then relay_handle_reply origin relay_id 0 relay_msg
  else if relay_type =? GUC_HXG_TYPE_NO_RESPONSE_BUSY then relay_handle_reply origin relay_id (- EBUSY) []
  else if relay_type =? GUC_HXG_TYPE_NO_RESPONSE_RETRY then relay_handle_reply origin relay_id (- EAGAIN) []
  else if relay_type =? GUC_HXG_TYPE_RESPONSE_FAILURE then relay_handle_failure origin relay_id relay_msg
  else mret (- EBADRQC).

Definition intel_iov_relay_process_guc2pf (g : gt_id) (msg : list Z) : st iov_state Z :=
  if negb (bool_decide (iov_mode = I915_IOV_MODE_SRIOV_PF)) then mret (- EPERM) else
  if (length msg <? GUC2PF_RELAY_FROM_VF_EVENT_MSG_MIN_LEN)%nat then mret (- EPROTO) else
  if (GUC2PF_RELAY_FROM_VF_EVENT_MSG_MAX_LEN <? length msg)%nat then mret (- EMSGSIZE) else
  if negb (FIELD_GET GUC_HXG_EVENT_MSG_0_DATA0 (msg.[0%nat | 0]) =? 0) then mret (- EPFNOSUPPORT) else
  let origin := FIELD_GET GUC_HXG_MSG_n_PAYLOAD (msg.[1%nat | 0]) in
  let relay_id := FIELD_GET GUC_HXG_MSG_n_PAYLOAD (msg.[2%nat | 0]) in
  if origin =? 0 then mret (- EPROTO) else
  relay_process_msg g origin relay_id (drop GUC2PF_RELAY_FROM_VF_EVENT_MSG_MIN_LEN msg).

Definition intel_iov_relay_process_guc2vf (g : gt_id) (msg : list Z) : st iov_state Z :=
  if negb (bool_decide (iov_mode = I915_IOV_MODE_SRIOV_VF)) then mret (- EPERM) else
  if (length msg <? GUC2VF_RELAY_FROM_PF_EVENT_MSG_MIN_LEN)%nat then mret (- EPROTO) else
  if (GUC2VF_RELAY_FROM_PF_EVENT_MSG_MAX_LEN <? length msg)%nat then mret (- EMSGSIZE) else
  if negb (FIELD_GET GUC_HXG_EVENT_MSG_0_DATA0 (msg.[0%nat | 0]) =? 0) then mret (- EPFNOSUPPORT) else
  let relay_id := FIELD_GET GUC_HXG_MSG_n_PAYLOAD (msg.[1%nat | 0]) in
  relay_process_msg g 0 relay_id (drop GUC2VF_RELAY_FROM_PF_EVENT_MSG_MIN_LEN msg).

(** ** Waiting *)

(** [relay_send_and_wait] up to the label [retry]; [buf] is the buffer for the response. *)
Definition relay_send_and_wait (target relay_id : Z) (msg buf : list Z) : st iov_state unit :=
  modify (fun s => with_pending (pending_relays (s_relay s) ++
    [{| p_done := false; p_target := target; p_fence := relay_id; p_reply := - ENOMSG; p_response := buf;
        p_response_size := length buf; p_msg := msg; p_pc := PcSend |}]) s).

(** The next statement of the waiter at place [i] of the list; [expired] is whether its timeout
    has run out. A waiter that is blocked does nothing. *)
Definition wait_step (expired : bool) (i : nat) (p : pending_relay) : st iov_state unit :=
  let goto p := modify (fun s => with_pending (<[i := p]> (pending_relays (s_relay s))) s) in
  match p_pc p with
  | PcSend =>
      ret ← relay_send (p_target p) (p_fence p) (p_msg p);
      goto (set_pc (if ret <? 0 then PcUnlink ret else PcWait) p)
  | PcWait =>
      if p_done p then goto (set_pc PcWoken p)
      else if expired then goto (set_pc (PcUnlink (- ETIME)) p) else mret tt
  | PcWoken => goto (set_pc (if negb (p_reply p =? 0) then PcReinit else PcSize) p)
  | PcReinit => goto (set_pc PcReread (set_done false p))
  | PcReread =>
      let ret := p_reply p in
      goto (set_pc (if ret =? - EAGAIN then PcSend
                    else if ret =? - EBUSY then PcWait
                    else if ret >? 0 then PcUnlink (- ret) else PcUnlink ret) p)
  | PcSize => goto (set_pc (PcUnlink (Z.of_nat (p_response_size p))) p)
  | PcUnlink ret =>
      modify (fun s => with_returned (s_returned s ++ [(p, ret)])
                         (with_pending (delete i (pending_relays (s_relay s))) s))
  end.

(** The two entry points; [None] when the caller now waits. *)
Definition relay_send_msg (target : Z) (msg buf : list Z) : st iov_state (option Z) :=
  let relay_type := FIELD_GET GUC_HXG_MSG_0_TYPE (msg.[0%nat | 0]) in
  relay_id ← relay_get_next_fence;
  if relay_type =? GUC_HXG_TYPE_EVENT
  then ret ← relay_send target relay_id msg; mret (Some ret)
  else relay_send_and_wait target relay_id msg buf ≫= fun _ => mret None.
Definition intel_iov_relay_send_to_vf (target : Z) (msg buf : list Z) : st iov_state (option Z) :=
  relay_send_msg target msg buf.
Definition intel_iov_relay_send_to_pf (msg buf : list Z) : st iov_state (option Z) :=
  relay_send_msg 0 msg buf.

(** ** Runs *)

Inductive event :=
| EvCall (target : Z) (msg buf : list Z)   (** a caller sends a message *)
| EvThread (i : nat) (expired : bool)      (** the waiter at place [i] takes a step *)
| EvGuc (msg : list Z).                    (** GuC notifies of a relayed message *)

Definition exec (g : gt_id) (e : event) : st iov_state unit :=
  match e with
  | EvCall target msg buf => relay_send_msg target msg buf ≫= fun _ => mret tt
  | EvThread i expired =>
      p ← gets (fun s => pending_relays (s_relay s) !! i);
      match p with Some p => wait_step expired i p | None => mret tt end
  | EvGuc msg =>
      (if decide (iov_mode = I915_IOV_MODE_SRIOV_PF) then intel_iov_relay_process_guc2pf g msg
       else intel_iov_relay_process_guc2vf g msg) ≫= fun _ => mret tt
  end.

Definition run (g : gt_id) (evs : list event) (s : iov_state) : iov_state :=
  foldl (fun s e => snd (exec g e s)) s evs.
End wait.

(** ** What leaves the waiters alone *)

Create HintDb keeps.

Section keeps.
Context `{E : Env} `{R : RelayEnv} `{P : ServiceEnv}.

Definition keeps_relay {A} (m : st iov_state A) : Prop :=
  forall s, s_relay (snd (m s)) = s_relay s /\ s_returned (snd (m s)) = s_returned s.

Lemma keeps_wait_ret {A} (a : A) : keeps_relay (mret a).
Proof. done. Qed.
Lemma keeps_wait_gets {A} (f : iov_state -> A) : keeps_relay (gets f).
Proof. done. Qed.
Lemma keeps_wait_bind {A B} (m : st iov_state A) (k : A -> st iov_state B) :
  keeps_relay m -> (forall a, keeps_relay (k a)) -> keeps_relay (m ≫= k).
Proof.
  intros Hm Hk s. unfold mbind, st_bind. destruct (Hm s) as [H1 H2]. destruct (m s) as [a s1].
  destruct (Hk a s1) as [H3 H4]. simpl in *. split; congruence.
Qed.
Lemma keeps_wait_if {A} (b : bool) (m1 m2 : st iov_state A) :
  keeps_relay m1 -> keeps_relay m2 -> keeps_relay (if b then m1 else m2).
Proof. by destruct b. Qed.
Lemma keeps_wait_on_dev {A} (m : st dev A) : keeps_relay (on_dev m).
Proof. intros s. unfold on_dev. by destruct (m (s_dev s)). Qed.
Lemma keeps_wait_send_retry fuel request : keeps_relay (send_retry fuel request).
Proof.
  induction fuel as [|fuel IH]; cbn [send_retry]; apply keeps_wait_bind; try done; intros err;
    by apply keeps_wait_if; try apply keeps_wait_ret.
Qed.
Lemma keeps_relay_send target relay_id msg : keeps_relay (relay_send target relay_id msg).
Proof. apply keeps_wait_if; (apply keeps_wait_bind; [done|intros; apply keeps_wait_send_retry]). Qed.
End keeps.
#[export] Hint Resolve keeps_wait_ret keeps_wait_gets keeps_wait_bind keeps_wait_if keeps_wait_on_dev keeps_wait_send_retry keeps_relay_send : keeps.

Section keeps_service.
Context `{E : Env} `{R : RelayEnv} `{P : ServiceEnv}.

Lemma keeps_update_ranges g origin mode ptes : forall copies off updated range,
  keeps_relay (update_ranges g origin mode copies off updated range ptes).
Proof. induction ptes as [|pte ptes IH]; intros; cbn [update_ranges]; auto 6 with keeps. Qed.

Lemma keeps_process_msg g origin relay_id msg : keeps_relay (intel_iov_service_process_msg g origin relay_id msg).
Proof.
  pose proof keeps_update_ranges as Hu.
  unfold intel_iov_service_process_msg, reply_handshake, pf_reply_runtime_query, pf_reply_update_ggtt,
    intel_iov_relay_reply_to_vf.
  repeat first [ apply keeps_wait_if | apply keeps_wait_bind; intros | progress auto with keeps | case_match ].
Qed.

Lemma keeps_handle_request g origin relay_id msg : keeps_relay (relay_handle_request g origin relay_id msg).
Proof.
  unfold relay_handle_request, relay_send_failure. apply keeps_wait_bind; [|auto with keeps].
  case_decide; auto using keeps_process_msg with keeps.
Qed.
End keeps_service.
#[export] Hint Resolve keeps_handle_request : keeps.

(** ** The waiters of a run *)

Section inv.
Context `{E : Env} `{R : RelayEnv} `{P : ServiceEnv}.

(** A notification as the receiver reads it: who sent the message, its identifier, the message. *)
Definition incoming (msg : list Z) : Z * Z * list Z :=
  if decide (iov_mode = I915_IOV_MODE_SRIOV_PF)
  then (FIELD_GET GUC_HXG_MSG_n_PAYLOAD (msg.[1%nat | 0]), FIELD_GET GUC_HXG_MSG_n_PAYLOAD (msg.[2%nat | 0]),
        drop GUC2PF_RELAY_FROM_VF_EVENT_MSG_MIN_LEN msg)
  else (0, FIELD_GET GUC_HXG_MSG_n_PAYLOAD (msg.[1%nat | 0]), drop GUC2VF_RELAY_FROM_PF_EVENT_MSG_MIN_LEN msg).
Definition history (evs : list event) : list (Z * Z * list Z) :=
  omap (fun e => match e with EvGuc msg => Some (incoming msg) | _ => None end) evs.

Definition msg_type (m : list Z) : Z := FIELD_GET GUC_HXG_MSG_0_TYPE (m.[0%nat | 0]).

(** Message [m] of type [ty] arrived for the request of [p]. *)
Definition got (evs : list event) (ty : Z) (p : pending_relay) (m : list Z) : Prop :=
  (p_target p, p_fence p, m) ∈ history evs /\ msg_type m = ty.

(** Each request is answered with success at most once. *)
Definition one_success (evs : list event) : Prop :=
  forall i j o id m m', history evs !! i = Some (o, id, m) -> history evs !! j = Some (o, id, m') ->
    msg_type m = GUC_HXG_TYPE_RESPONSE_SUCCESS -> msg_type m' = GUC_HXG_TYPE_RESPONSE_SUCCESS -> i = j.

(** The buffer of [p] holds the response [m]. *)
Definition holds (p : pending_relay) (m : list Z) : Prop :=
  p_response_size p = length m /\
  take (length m) (p_response p) = FIELD_GET GUC_HXG_RESPONSE_MSG_0_DATA0 (m.[0%nat | 0]) :: tail m.
Definition stored (evs : list event) (p : pending_relay) : Prop :=
  exists m, got evs GUC_HXG_TYPE_RESPONSE_SUCCESS p m /\ holds p m.

(** A negative result that a message of the other side explains. *)
Definition refused (evs : list event) (p : pending_relay) (e : Z) : Prop :=
  (e = - ENOBUFS /\ exists m, got evs GUC_HXG_TYPE_RESPONSE_SUCCESS p m /\ (length (p_response p) < length m)%nat) \/
  (exists m, got evs GUC_HXG_TYPE_RESPONSE_FAILURE p m /\
     e = - elvis (FIELD_GET GUC_HXG_FAILURE_MSG_0_ERROR (m.[0%nat | 0])) ERFKILL).

Definition replied (evs : list event) (p : pending_relay) : Prop :=
  (p_reply p = 0 /\ stored evs p) \/ p_reply p = - EBUSY \/ p_reply p = - EAGAIN \/
  refused evs p (if p_reply p >? 0 then - p_reply p else p_reply p) /\ p_reply p <> 0.

Definition outcome (evs : list event) (p : pending_relay) (ret : Z) : Prop :=
  (0 < ret /\ exists m, got evs GUC_HXG_TYPE_RESPONSE_SUCCESS p m /\ ret = Z.of_nat (length m) /\ holds p m) \/
  ret = 0 \/ ret = - ETIME \/ (ret < 0 /\ exists n msg, ct_send_nb n msg = ret) \/ refused evs p ret.

Definition woken (p : pending_relay) : Prop :=
  p_done p = true \/ p_pc p = PcWoken \/ p_pc p = PcReinit \/ p_pc p = PcReread.

Record wait_inv (evs : list event) (p : pending_relay) : Prop := {
  wi_call : exists buf, EvCall (p_target p) (p_msg p) buf ∈ evs /\ length (p_response p) = length buf;
  wi_size : p_response_size p = length (p_response p) \/
            stored evs p /\ (p_response_size p <= length (p_response p))%nat;
  wi_reply : woken p -> replied evs p;
  wi_pcsize : p_pc p = PcSize -> stored evs p;
  wi_unlink ret : p_pc p = PcUnlink ret -> outcome evs p ret;
}.

(** Facts about [evs] stay true of a longer run. *)
Lemma got_mono evs evs' ty p m : got evs ty p m -> got (evs ++ evs') ty p m.
Proof. intros [Hin Ht]. split; [|done]. unfold history. rewrite omap_app, elem_of_app. by left. Qed.
Lemma stored_mono evs evs' p : stored evs p -> stored (evs ++ evs') p.
Proof. intros (m & Hg & Hh). exists m. by split; [apply got_mono|]. Qed.
Lemma refused_mono evs evs' p e : refused evs p e -> refused (evs ++ evs') p e.
Proof.
  intros [(He & m & Hg & Hl)|(m & Hg & He)]; [left|right].
  - split; [done|]. exists m. by split; [apply got_mono|].
  - exists m. by split; [apply got_mono|].
Qed.
Lemma replied_mono evs evs' p : replied evs p -> replied (evs ++ evs') p.
Proof.
  intros [[? Hs]|[?|[?|[Hr ?]]]]; [left|right; left|right; right; left|right; right; right]; try done.
  - split; [done|by apply stored_mono].
  - split; [by apply refused_mono|done].
Qed.
Lemma outcome_mono evs evs' p ret : outcome evs p ret -> outcome (evs ++ evs') p ret.
Proof.
  intros [(? & m & Hg & Hl)|[?|[?|[?|Hr]]]]; [left|by right; left|by right; right; left|by right; right; right; left|].
  - split; [done|]. exists m. by split; [apply got_mono|].
  - right; right; right; right. by apply refused_mono.
Qed.
Lemma one_success_app evs evs' : one_success (evs ++ evs') -> one_success evs.
Proof.
  intros Hu i j o id m m' Hi Hj. apply (Hu i j o id m m'); unfold history in *; rewrite omap_app;
    by apply lookup_app_l_Some.
Qed.
Lemma wait_inv_mono evs evs' p : wait_inv evs p -> wait_inv (evs ++ evs') p.
Proof.
  intros [(buf & Hb & Hl) Hs Hr Hz Hu]. constructor.
  - exists buf. split; [|done]. rewrite elem_of_app. by left.
  - destruct Hs as [|[? ?]]; [by left|right]. split; [by apply stored_mono|done].
  - intros Hw. by apply replied_mono, Hr.
  - intros Hpc. by apply stored_mono, Hz.
  - intros ret Hpc. by apply outcome_mono, Hu.
Qed.

(** *** The arrival of a reply *)

Lemma no_two evs e p m m' :
  one_success (evs ++ [e]) -> history [e] = [(p_target p, p_fence p, m)] ->
  msg_type m = GUC_HXG_TYPE_RESPONSE_SUCCESS -> ~ got evs GUC_HXG_TYPE_RESPONSE_SUCCESS p m'.
Proof.
  intros Hu He Hm [Hin Hm']. apply list_elem_of_lookup in Hin as [i Hi].
  assert (history (evs ++ [e]) = history evs ++ [(p_target p, p_fence p, m)]) as Hh
    by (unfold history in *; by rewrite omap_app, He).
  assert (i = length (history evs)) as ->.
  { eapply (Hu i _ _ _ m' m); rewrite ?Hh; [by apply lookup_app_l_Some|by apply list_lookup_middle|done|done]. }
  apply lookup_lt_Some in Hi. lia.
Qed.

Lemma got_new evs e p m ty :
  history [e] = [(p_target p, p_fence p, m)] -> msg_type m = ty -> got (evs ++ [e]) ty p m.
Proof.
  intros He Ht. split; [|done]. unfold history in *. rewrite omap_app, He, elem_of_app. right.
  by apply list_elem_of_singleton.
Qed.

(** A reply that carries no response. *)
Lemma complete_inv evs p r :
  wait_inv evs p -> r = - EBUSY \/ r = - EAGAIN \/ refused evs p (if r >? 0 then - r else r) /\ r <> 0 ->
  wait_inv evs (complete_with r p).
Proof.
  intros [Hb Hs Hr Hz Hu] Hc. constructor; try done. intros _. right.
  destruct Hc as [|[|[? ?]]]; [by left|by right; left|by right; right].
Qed.

Lemma store_length msg p :
  (1 <= length msg <= length (p_response p))%nat ->
  length (p_response (store_response msg p)) = length (p_response p).
Proof.
  intros Hl. destruct msg as [|x msg]; [simpl in Hl; lia|]. cbn [p_response store_response length tail] in *.
  rewrite length_app, length_drop. lia.
Qed.

Lemma success_inv evs e p m :
  wait_inv evs p -> one_success (evs ++ [e]) -> history [e] = [(p_target p, p_fence p, m)] ->
  msg_type m = GUC_HXG_TYPE_RESPONSE_SUCCESS -> (1 <= length m)%nat ->
  wait_inv (evs ++ [e]) (fst (deliver 0 m p)).
Proof.
  intros I Hu He Hm Hl. pose proof (wait_inv_mono evs [e] p I) as I'. destruct I as [_ Hs _ _ Hun].
  pose proof (got_new evs e p m _ He Hm) as Hg.
  destruct Hs as [Hs|[(m' & Hg' & _) _]]; [|by apply (no_two evs e p m m') in Hg'].
  unfold deliver. simpl. destruct (Nat.ltb_spec (p_response_size p) (length m)) as [Hlt|Hge]; simpl.
  - apply complete_inv; [done|]. right; right. split; [|done]. left. split; [done|]. exists m. split; [done|lia].
  - assert (stored (evs ++ [e]) (complete_with 0 (store_response m p))) as Hst.
    { exists m. split; [done|]. split; [done|]. cbn [complete_with store_response p_response].
      destruct m as [|x m]; [simpl in Hl; lia|]. cbn [tail length take].
      by rewrite take_app_length. }
    pose proof (store_length m p ltac:(lia)) as Hlen. destruct I' as [(buf & Hb1 & Hb2) _ _ _ _].
    constructor.
    + exists buf. split; [done|]. by rewrite <- Hb2.
    + right. split; [done|]. cbn [complete_with p_response p_response_size]. rewrite Hlen. simpl. lia.
    + intros _. by left.
    + done.
    + intros ret Hpc. cbn in Hpc. destruct (Hun ret Hpc) as [(_ & m' & Hg' & _)|[?|[?|[?|Hr]]]].
      * by apply (no_two evs e p m m') in Hg'.
      * by right; left.
      * by right; right; left.
      * by right; right; right; left.
      * right; right; right; right. destruct Hr as [(_ & m' & Hg' & _)|(m' & Hg' & ?)].
        -- by apply (no_two evs e p m m') in Hg'.
        -- right. exists m'. split; [by apply got_mono|done].
Qed.

Lemma failure_inv evs e p m :
  wait_inv evs p -> history [e] = [(p_target p, p_fence p, m)] -> msg_type m = GUC_HXG_TYPE_RESPONSE_FAILURE ->
  wait_inv (evs ++ [e])
    (fst (deliver (elvis (FIELD_GET GUC_HXG_FAILURE_MSG_0_ERROR (m.[0%nat | 0])) (- ERFKILL)) [] p)).
Proof.
  intros I He Hm. set (err := FIELD_GET _ _).
  assert (0 <= err) as Herr by apply (FIELD_GET_range _ 16 0).
  assert (elvis err (- ERFKILL) <> 0) as Hne by (unfold elvis, ERFKILL; destruct (Z.eqb_spec err 0); lia).
  unfold deliver. rewrite (proj2 (Z.eqb_neq _ 0) Hne). apply complete_inv; [by apply wait_inv_mono|].
  right; right. split; [|done]. right. exists m. split; [by apply got_new|]. fold err.
  unfold elvis, ERFKILL. destruct (Z.eqb_spec err 0); [done|].
  destruct (Z.gtb_spec err 0); lia.
Qed.

(** *** The whole list *)

Definition sys_inv (evs : list event) (s : iov_state) : Prop :=
  Forall (wait_inv evs) (pending_relays (s_relay s)) /\
  Forall (fun '(p, ret) => wait_inv evs p /\ outcome evs p ret) (s_returned s).

Lemma sys_inv_mono evs evs' s : sys_inv evs s -> sys_inv (evs ++ evs') s.
Proof.
  intros [H1 H2]. split; eapply Forall_impl; [exact H1|apply wait_inv_mono|exact H2|].
  intros [p ret] [? ?]. split; [by apply wait_inv_mono|by apply outcome_mono].
Qed.

Lemma sys_inv_same evs s s' :
  s_relay s' = s_relay s -> s_returned s' = s_returned s -> sys_inv evs s -> sys_inv evs s'.
Proof. unfold sys_inv. by intros -> ->. Qed.

Lemma sys_inv_insert evs i p s :
  wait_inv evs p -> sys_inv evs s ->
  sys_inv evs (with_pending (<[i := p]> (pending_relays (s_relay s))) s).
Proof. intros Hp [H1 H2]. split; [|done]. by apply Forall_insert. Qed.

Lemma handle_reply_inv evs e o id reply m m' s :
  sys_inv evs s -> history [e] = [(o, id, m)] ->
  (forall p, p_target p = o -> p_fence p = id -> wait_inv evs p -> wait_inv (evs ++ [e]) (fst (deliver reply m' p))) ->
  sys_inv (evs ++ [e]) (snd (relay_handle_reply o id reply m' s)).
Proof.
  intros I He Hd. unfold relay_handle_reply. destruct (list_find _ _) as [[i p]|] eqn:Hf; [|by apply sys_inv_mono].
  apply list_find_Some in Hf as (Hi & [Ht Hid] & _).
  assert (wait_inv evs p) as Hp by (by eapply Forall_lookup_1; [apply I|]).
  specialize (Hd p Ht Hid Hp). destruct (deliver reply m' p) as [p' err]. simpl in *.
  apply sys_inv_insert; [done|]. by apply sys_inv_mono.
Qed.

Lemma process_msg_inv g evs e o id m s :
  sys_inv evs s -> one_success (evs ++ [e]) -> history [e] = [(o, id, m)] ->
  sys_inv (evs ++ [e]) (snd (relay_process_msg g o id m s)).
Proof.
  intros I Hu He. pose proof (sys_inv_mono evs [e] s I) as Im. unfold relay_process_msg.
  destruct (Nat.ltb_spec (length m) 1) as [|Hl]; [done|]. destruct (negb _); [done|].
  fold (msg_type m). destruct (Z.eqb_spec (msg_type m) GUC_HXG_TYPE_REQUEST).
  { destruct (keeps_handle_request g o id m s) as [H1 H2]. by eapply sys_inv_same. }
  destruct (Z.eqb_spec (msg_type m) GUC_HXG_TYPE_EVENT); [done|].
  destruct (Z.eqb_spec (msg_type m) GUC_HXG_TYPE_RESPONSE_SUCCESS).
  { eapply handle_reply_inv; [done|done|]. intros p <- <- Hp. by apply success_inv. }
  destruct (Z.eqb_spec (msg_type m) GUC_HXG_TYPE_NO_RESPONSE_BUSY).
  { eapply handle_reply_inv; [done|done|]. intros p _ _ Hp. apply complete_inv; [by apply wait_inv_mono|by left]. }
  destruct (Z.eqb_spec (msg_type m) GUC_HXG_TYPE_NO_RESPONSE_RETRY).
  { eapply handle_reply_inv; [done|done|]. intros p _ _ Hp. apply complete_inv; [by apply wait_inv_mono|by right; left]. }
  destruct (Z.eqb_spec (msg_type m) GUC_HXG_TYPE_RESPONSE_FAILURE); [|done].
  eapply handle_reply_inv; [done|done|]. intros p <- <- Hp. by apply failure_inv.
Qed.

Lemma guc_msg_inv g evs msg s :
  sys_inv evs s -> one_success (evs ++ [EvGuc msg]) -> sys_inv (evs ++ [EvGuc msg]) (snd (exec g (EvGuc msg) s)).
Proof.
  intros I Hu. pose proof (sys_inv_mono evs [EvGuc msg] s I) as Im.
  pose proof (fun o id m => process_msg_inv g evs (EvGuc msg) o id m s I Hu) as Hp.
  unfold exec, mbind, st_bind. simpl in Hp. unfold incoming in Hp.
  destruct (decide (iov_mode = I915_IOV_MODE_SRIOV_PF)).
  - specialize (Hp _ _ _ eq_refl). unfold intel_iov_relay_process_guc2pf.
    repeat (destruct (_ : bool); [done|]). 
    destruct (relay_process_msg _ _ _ _ _) as [ret s']. done.
  - specialize (Hp _ _ _ eq_refl). unfold intel_iov_relay_process_guc2vf.
    repeat (destruct (_ : bool); [done|]).
    destruct (relay_process_msg _ _ _ _ _) as [ret s']. done.
Qed.

(** *** A step of a waiter *)

Lemma set_pc_inv evs pc p :
  wait_inv evs p -> (woken (set_pc pc p) -> replied evs p) -> (pc = PcSize -> stored evs p) ->
  (forall ret, pc = PcUnlink ret -> outcome evs p ret) -> wait_inv evs (set_pc pc p).
Proof. intros [Hb Hs _ _ _] Hr Hz Hu. constructor; try done. Qed.

Lemma send_retry_result fuel request s :
  exists n, ct_send_nb n request = fst (send_retry fuel request s).
Proof.
  revert s. induction fuel as [|fuel IH]; intros s; cbn [send_retry]; unfold mbind, st_bind, intel_guc_send_nb;
    cbn beta iota zeta; case_match; eauto.
Qed.
Lemma relay_send_result target relay_id msg s :
  exists n request, ct_send_nb n request = fst (relay_send target relay_id msg s).
Proof.
  unfold relay_send, pf_relay_send, vf_relay_send, send_until_room.
  case_match; unfold mbind, st_bind, gets; cbn beta iota;
    match goal with |- context [send_retry ?f ?r ?x] => destruct (send_retry_result f r x) as [n Hn]; by exists n, r end.
Qed.

Lemma goto_inv evs i p s : wait_inv evs p -> sys_inv evs s ->
  sys_inv evs (snd (modify (fun s => with_pending (<[i := p]> (pending_relays (s_relay s))) s) s)).
Proof. apply sys_inv_insert. Qed.

Lemma wait_step_inv evs expired i p s :
  sys_inv evs s -> pending_relays (s_relay s) !! i = Some p -> sys_inv evs (snd (wait_step expired i p s)).
Proof.
  intros I Hi. assert (wait_inv evs p) as Hp by (by eapply Forall_lookup_1; [apply I|]).
  pose proof Hp as [_ _ Hr Hz Hu]. unfold wait_step. destruct (p_pc p) as [| | | | | |ret] eqn:Hpc.
  - unfold mbind, st_bind.
    destruct (keeps_relay_send (p_target p) (p_fence p) (p_msg p) s) as [H1 H2].
    destruct (relay_send_result (p_target p) (p_fence p) (p_msg p) s) as (n & rq & Hn).
    destruct (relay_send (p_target p) (p_fence p) (p_msg p) s) as [ret s1]. simpl in H1, H2, Hn.
    apply goto_inv; [|by eapply sys_inv_same]. destruct (Z.ltb_spec ret 0).
    + apply set_pc_inv; [done| |done|].
      * intros [Hd|[|[|]]]; [|done..]. apply Hr. by left.
      * intros ? [= <-]. right; right; right; left. split; [done|by exists n, rq].
    + apply set_pc_inv; [done| |done|done]. intros [Hd|[|[|]]]; [|done..]. apply Hr. by left.
  - destruct (p_done p) eqn:Hd.
    + apply goto_inv; [|done]. apply set_pc_inv; [done| |done|done]. intros _. apply Hr. by left.
    + destruct expired; [|done]. apply goto_inv; [|done]. apply set_pc_inv; [done| |done|].
      * intros [Hd'|[|[|]]]; [|done..]. simpl in Hd'. congruence.
      * intros ? [= <-]. by right; right; left.
  - assert (replied evs p) as Hrep by (apply Hr; by right; left).
    apply goto_inv; [|done]. destruct (Z.eqb_spec (p_reply p) 0) as [H0|H0]; simpl; (apply set_pc_inv; [done|done| |done]).
    + intros _. destruct Hrep as [[_ Hs]|[He|[He|[_ He]]]]; [done|unfold EBUSY in He; lia|unfold EAGAIN in He; lia|done].
    + done.
  - assert (replied evs p) as Hrep by (apply Hr; by right; right; left).
    apply goto_inv; [|done]. destruct Hp as [Hb Hs _ _ _]. by constructor.
  - assert (replied evs p) as Hrep by (apply Hr; by right; right; right).
    apply goto_inv; [|done]. apply set_pc_inv; [done|done|by repeat case_match|].
    intros ret. destruct (Z.eqb_spec (p_reply p) (- EAGAIN)); [done|].
    destruct (Z.eqb_spec (p_reply p) (- EBUSY)); [done|].
    destruct Hrep as [[H0 _]|[?|[?|[Href Hne]]]]; [|done..|].
    + rewrite H0. intros [= <-]. by right; left.
    + destruct (p_reply p >? 0); intros [= <-]; by right; right; right; right.
  - apply goto_inv; [|done]. apply set_pc_inv; [done| |done|].
    + intros [Hd|[|[|]]]; [|done..]. apply Hr. by left.
    + intros ? [= <-]. destruct (Hz eq_refl) as (m & Hg & Hs & Ht).
      destruct (decide (length m = 0)%nat) as [H0|H0]; [right; left; by rewrite Hs, H0|].
      left. split; [lia|]. exists m. split_and!; [done|by rewrite Hs|by split].
  - cbn. destruct I as [I1 I2]. split; cbn.
    + rewrite delete_take_drop, Forall_app. split; [by apply Forall_take|by apply Forall_drop].
    + rewrite Forall_app, Forall_singleton. split; [done|]. split; [done|by apply Hu].
Qed.

Lemma fence_keeps (s : iov_state) :
  pending_relays (s_relay (snd (relay_get_next_fence s))) = pending_relays (s_relay s) /\
  s_returned (snd (relay_get_next_fence s)) = s_returned s.
Proof. done. Qed.

Lemma call_inv g evs target msg buf s :
  sys_inv evs s ->
  sys_inv (evs ++ [EvCall target msg buf]) (snd (exec g (EvCall target msg buf) s)).
Proof.
  intros I. apply (sys_inv_mono evs [EvCall target msg buf]) in I. unfold exec, relay_send_msg, mbind, st_bind.
  destruct (fence_keeps s) as [Hp1 Hr1]. destruct (relay_get_next_fence s) as [relay_id s1].
  cbn [snd] in Hp1, Hr1.
  assert (sys_inv (evs ++ [EvCall target msg buf]) s1) as I1 by (unfold sys_inv in *; by rewrite Hp1, Hr1).
  destruct (_ =? GUC_HXG_TYPE_EVENT).
  - destruct (keeps_relay_send target relay_id msg s1) as [H1 H2].
    destruct (relay_send target relay_id msg s1) as [ret s2]. simpl in *. by eapply sys_inv_same.
  - simpl. destruct I1 as [I1 I2]. split; [|done]. cbn. rewrite Forall_app, Forall_singleton. split; [done|].
    constructor; try done.
    + exists buf. split; [|done]. rewrite elem_of_app. right. by apply list_elem_of_singleton.
    + by left.
    + by intros [|[|[|]]].
Qed.

Lemma run_inv g evs s0 :
  pending_relays (s_relay s0) = [] -> s_returned s0 = [] -> one_success evs -> sys_inv evs (run g evs s0).
Proof.
  intros Hp Hr. induction evs as [|e evs IH] using rev_ind; intros Hu.
  { simpl. split; [by rewrite Hp|by rewrite Hr]. }
  specialize (IH (one_success_app _ _ Hu)). unfold run. rewrite foldl_app. simpl. fold (run g evs s0).
  destruct e as [target msg buf|i expired|msg].
  - by apply call_inv.
  - apply sys_inv_mono. simpl. unfold mbind, st_bind, gets.
    destruct (pending_relays (s_relay (run g evs s0)) !! i) as [p|] eqn:Hi; [|done]. by apply wait_step_inv.
  - by apply guc_msg_inv.
Qed.

(** C29: what a call that waits for its response can return, in any run: any interleaving of
    callers, waiters, timeouts and messages from GuC in which no request is answered with
    success twice. A positive result is the length of a success message that the other side
    sent with the identifier of this request, and the buffer holds exactly that message; a
    negative one is the timeout, an error of the transport, the error of a failure message for
    this request, or -ENOBUFS when the response was longer than the buffer. In every case the
    buffer keeps its length: nothing is written beyond it. *)
Theorem wait_outcome g evs s0 p ret :
  pending_relays (s_relay s0) = [] -> s_returned s0 = [] -> one_success evs ->
  (p, ret) ∈ s_returned (run g evs s0) ->
  outcome evs p ret /\
  exists buf, EvCall (p_target p) (p_msg p) buf ∈ evs /\ length (p_response p) = length buf.
Proof.
  intros Hp Hr Hu Hin. destruct (run_inv g evs s0 Hp Hr Hu) as [_ H]. rewrite Forall_forall in H.
  destruct (H (p, ret) Hin) as [[Hc _ _ _ _] Ho]. by split.
Qed.
End inv.

(** ** Requests of VFs *)

Section requests.
Context `{E : Env} `{R : RelayEnv} `{P : ServiceEnv} `{!RelayEnvLaws R} `{!TransportWorks R}.

(** C30: a request that a VF relays to the PF, from the notification of GuC on. While the
    transport has room the PF answers it with exactly one message to that VF under the same
    identifier, and keeps every waiter as it was; the answer is a success response or the one
    failure message that says nothing of the reason. *)
Theorem request_answered g msg s :
  iov_mode = I915_IOV_MODE_SRIOV_PF ->
  (GUC2PF_RELAY_FROM_VF_EVENT_MSG_MIN_LEN < length msg <= GUC2PF_RELAY_FROM_VF_EVENT_MSG_MAX_LEN)%nat ->
  FIELD_GET GUC_HXG_EVENT_MSG_0_DATA0 (msg.[0%nat | 0]) = 0 ->
  let origin := FIELD_GET GUC_HXG_MSG_n_PAYLOAD (msg.[1%nat | 0]) in
  let relay_id := FIELD_GET GUC_HXG_MSG_n_PAYLOAD (msg.[2%nat | 0]) in
  let request := drop GUC2PF_RELAY_FROM_VF_EVENT_MSG_MIN_LEN msg in
  0 < origin < 8 -> region_ok g (Z.to_nat origin) (s_dev s) ->
  FIELD_GET GUC_HXG_MSG_0_ORIGIN (request.[0%nat | 0]) = GUC_HXG_ORIGIN_HOST ->
  msg_type request = GUC_HXG_TYPE_REQUEST ->
  let '(ret, s') := intel_iov_relay_process_guc2pf g msg s in
  ret = 0 /\ s_relay s' = s_relay s /\
  exists body, s_nb s' = s_nb s ++ [(pf_relay_request origin relay_id body, 0)] /\
    (msg_type body = GUC_HXG_TYPE_RESPONSE_SUCCESS \/ body = failure_msg IOV_ERROR_UNDISCLOSED 0).
Proof using Type*.
  intros Hpf Hlen Hd0 origin relay_id request Ho Hreg Hhost Hreq. apply wp_let.
  unfold intel_iov_relay_process_guc2pf. rewrite bool_decide_eq_true_2 by done. cbn [negb].
  rewrite (proj2 (Nat.ltb_ge _ _)), (proj2 (Nat.ltb_ge _ _)) by lia. rewrite Hd0. cbn [negb Z.eqb].
  fold origin relay_id request. rewrite (proj2 (Z.eqb_neq origin 0)) by lia.
  assert (1 <= length request)%nat as Hl1 by (unfold request; rewrite length_drop; lia).
  unfold relay_process_msg. rewrite (proj2 (Nat.ltb_ge _ _)) by lia. rewrite Hhost, Z.eqb_refl. cbn [negb].
  fold (msg_type request). rewrite Hreq, Z.eqb_refl.
  pose proof (keeps_handle_request g origin relay_id request s) as [Hk _]. unfold wp.
  assert (wp (relay_handle_request g origin relay_id request) (fun ret s' => ret = 0 /\
    exists body, s_nb s' = s_nb s ++ [(pf_relay_request origin relay_id body, 0)] /\
      (msg_type body = GUC_HXG_TYPE_RESPONSE_SUCCESS \/ body = failure_msg IOV_ERROR_UNDISCLOSED 0)) s) as (Hret & Hb);
    [|by split_and!].
  unfold relay_handle_request. rewrite decide_True by done. apply wp_bind.
  eapply wp_mono; [by apply wp_service|]. intros ret s1 [[[Hneg Hnb]|(k & body & Hset & Hnb & Ht & _)] _].
  - rewrite (proj2 (Z.ltb_lt _ _)) by done. rewrite (proj2 (Z.eqb_neq origin 0)) by lia.
    apply wp_relay_send. intros k r Hset. destruct (proj2 Hset _) as [-> ->]. split; [done|].
    exists (failure_msg IOV_ERROR_UNDISCLOSED 0). split; [|by right]. cbn [s_nb with_nb]. rewrite Hnb.
    unfold relay_request. by rewrite (proj2 (Z.eqb_neq origin 0)) by lia.
  - destruct (proj2 Hset _) as [-> ->]. apply wp_ret. split; [done|]. exists body. split; [exact Hnb|by left].
Qed.
End requests.

(** ** Samples *)

Definition sample_relay_vf : RelayEnv := {|
  iov_mode := I915_IOV_MODE_SRIOV_VF; ct_send_nb _ _ := 0; ct_clears _ := 0%nat; mmio_read _ reg := 0 |}.

Section witnesses.
#[local] Existing Instance sample_env_service.
#[local] Existing Instance sample_service_env.

(** A VF asks for the PF's version, with room for two dwords; PF's replies to request 1. *)
Definition sample_vf_state : iov_state :=
  {| s_dev := sample_service_dev; s_relay := {| pending_relays := []; last_fence := 0 |};
     s_runtime := {| rt_size := 0; rt_regs := []; rt_values := [] |};
     s_nb := []; s_reads := 0; s_returned := [] |}.
Definition sample_call : event := EvCall 0 [FIELD_PREP GUC_HXG_REQUEST_MSG_0_ACTION IOV_ACTION_VF2PF_HANDSHAKE; 0x10000] [0; 0].
Definition from_pf (m : list Z) : event := EvGuc ([0; 1] ++ m).
Definition sample_busy : event := from_pf [reply_header GUC_HXG_TYPE_NO_RESPONSE_BUSY 0].
Definition sample_success : event := from_pf (handshake_response 1 0).
Definition sample_thread : event := EvThread 0 false.

(** The call goes out, the response arrives, the waiter wakes and returns. *)
Definition sample_good_run : list event :=
  [sample_call; sample_thread; sample_success; sample_thread; sample_thread; sample_thread; sample_thread].
(** The response arrives after the waiter has seen the busy reply and before it resets the completion. *)
Definition sample_race : list event :=
  [sample_call; sample_thread; sample_busy; sample_thread; sample_thread; sample_success;
   sample_thread; sample_thread; sample_thread].

Lemma sample_good_run_success : @one_success sample_relay_vf sample_good_run.
Proof. by intros [|i] [|j] o id m m'. Qed.
Lemma sample_race_success : @one_success sample_relay_vf sample_race.
Proof.
  intros [|[|i]] [|[|j]] o id m m' Hi Hj Hm Hm'; try done; vm_compute in Hi, Hj; simplify_eq;
    by vm_compute in Hm, Hm'.
Qed.

Lemma wait_outcome_witness :
  let s := @run _ sample_relay_vf GT_PRIMARY sample_good_run sample_vf_state in
  snd <$> s_returned s = [2] /\
  forall p ret, (p, ret) ∈ s_returned s -> @outcome sample_relay_vf sample_good_run p ret.
Proof.
  split; [by vm_compute|]. intros p ret Hin.
  apply (@wait_outcome _ sample_relay_vf GT_PRIMARY sample_good_run sample_vf_state p ret eq_refl eq_refl
    sample_good_run_success Hin).
Defined.

(** A response can be lost. When the success message arrives after the waiter has seen that
    its reply is not zero (the PF said before that it is busy) and before it resets the
    completion, the waiter reads the reply a second time, finds zero, and returns 0, an empty
    response, although the buffer holds the response of two dwords that the PF sent. *)
Theorem response_lost :
  one_success (R := sample_relay_vf) sample_race /\
  exists p, s_returned (run (R := sample_relay_vf) GT_PRIMARY sample_race sample_vf_state) = [(p, 0)] /\
    got (R := sample_relay_vf) sample_race GUC_HXG_TYPE_RESPONSE_SUCCESS p (handshake_response 1 0) /\
    holds p (handshake_response 1 0) /\ length (handshake_response 1 0) = 2%nat.
Proof.
  split; [exact sample_race_success|]. eexists. split; [by vm_compute|]. split; [|by vm_compute].
  split; [|by vm_compute]. apply list_elem_of_lookup. exists 1%nat. by vm_compute.
Qed.

#[local] Existing Instance sample_relay_env.
Lemma request_answered_witness :
  let '(ret, s') := intel_iov_relay_process_guc2pf GT_PRIMARY
    ([0; 3; 77] ++ update_msg 1 MMIO_UPDATE_GGTT_MODE_DUPLICATE 0 [0x5001]) sample_iov in
  ret = 0 /\ length (s_nb s') = 1%nat.
Proof.
  pose proof (request_answered GT_PRIMARY
    ([0; 3; 77] ++ update_msg 1 MMIO_UPDATE_GGTT_MODE_DUPLICATE 0 [0x5001]) sample_iov eq_refl
    ltac:(vm_compute; lia) ltac:(by vm_compute) ltac:(by vm_compute) sample_region_ok
    ltac:(by vm_compute) ltac:(by vm_compute)) as Hw.
  destruct (intel_iov_relay_process_guc2pf _ _ _) as [ret s']. destruct Hw as (-> & _ & body & -> & _).
  by split.
Defined.
End witnesses.
