(* ===== verification/VfIov.v ===== *)
(** * The VF's side

    gt/iov/intel_iov_query.c: how a VF negotiates versions with GuC and the PF, reads its
    configuration and the runtime registers and sends updates of its GGTT; the buffer of these
    updates in gt/iov/intel_iov_ggtt.c and its two users in gt/intel_ggtt.c. What is below,
    the MMIO mailbox of GuC and the relay to the PF, is an interface. *)

From S2P Require Export Service.

(** ** ABI (guc_actions_vf_abi.h, guc_version_abi.h, iov_actions_mmio_abi.h) *)

Definition GUC_HXG_RESPONSE_MSG_MIN_LEN : nat := 1.
Definition GUC_ACTION_VF2GUC_VF_RESET : Z := 0x5507.
Definition GUC_ACTION_VF2GUC_MATCH_VERSION : Z := 0x5500.
Definition VF2GUC_MATCH_VERSION_REQUEST_MSG_1_BRANCH : Z := 0xff000000.
Definition VF2GUC_MATCH_VERSION_REQUEST_MSG_1_MAJOR : Z := 0xff0000.
Definition VF2GUC_MATCH_VERSION_REQUEST_MSG_1_MINOR : Z := 0xff00.
Definition VF2GUC_MATCH_VERSION_RESPONSE_MSG_LEN : nat := GUC_HXG_RESPONSE_MSG_MIN_LEN + 1.
Definition VF2GUC_MATCH_VERSION_RESPONSE_MSG_0_MBZ : Z := GUC_HXG_RESPONSE_MSG_0_DATA0.
Definition VF2GUC_MATCH_VERSION_RESPONSE_MSG_1_BRANCH : Z := 0xff000000.
Definition VF2GUC_MATCH_VERSION_RESPONSE_MSG_1_MAJOR : Z := 0xff0000.
Definition VF2GUC_MATCH_VERSION_RESPONSE_MSG_1_MINOR : Z := 0xff00.
Definition VF2GUC_MATCH_VERSION_RESPONSE_MSG_1_PATCH : Z := 0xff.
Definition GUC_VERSION_BRANCH_ANY : Z := 0.
Definition GUC_VERSION_MAJOR_ANY : Z := 0.
Definition GUC_VERSION_MINOR_ANY : Z := 0.
Definition GUC_VF_VERSION_LATEST_MAJOR : Z := 1.
Definition GUC_VF_VERSION_LATEST_MINOR : Z := 1.
Definition GUC_ACTION_VF2GUC_QUERY_SINGLE_KLV : Z := 0x5509.
Definition VF2GUC_QUERY_SINGLE_KLV_REQUEST_MSG_1_KEY : Z := 0xffff.
Definition VF2GUC_QUERY_SINGLE_KLV_RESPONSE_MSG_MAX_LEN : nat := GUC_HXG_RESPONSE_MSG_MIN_LEN + 3.
Definition VF2GUC_QUERY_SINGLE_KLV_RESPONSE_MSG_0_MBZ : Z := 0xfff0000.
Definition VF2GUC_QUERY_SINGLE_KLV_RESPONSE_MSG_0_LENGTH : Z := 0xffff.
Definition GUC_KLV_GLOBAL_CFG_GMD_ID_KEY : Z := 0x3000.
Definition GMD_ID_ARCH_MASK : Z := 0xffc00000.
Definition GMD_ID_RELEASE_MASK : Z := 0x3fc000.
Definition GMD_ID_STEP : Z := 0x3f.
Definition VF2PF_HANDSHAKE_RESPONSE_MSG_LEN : nat := 2.
Definition VF2PF_HANDSHAKE_RESPONSE_MSG_0_MBZ : Z := GUC_HXG_RESPONSE_MSG_0_DATA0.
Definition GUC_ACTION_VF2GUC_MMIO_RELAY_SERVICE : Z := 0x5005.
Definition VF2GUC_MMIO_RELAY_SERVICE_REQUEST_MSG_0_MAGIC : Z := 0xf000000.
Definition VF2GUC_MMIO_RELAY_SERVICE_REQUEST_MSG_0_OPCODE : Z := 0xff0000.
Definition VF2GUC_MMIO_RELAY_SERVICE_RESPONSE_MSG_0_MAGIC : Z := 0xf000000.
Definition VF2GUC_MMIO_RELAY_SERVICE_RESPONSE_MSG_MAX_LEN : nat := GUC_HXG_RESPONSE_MSG_MIN_LEN + 3.
Definition VF2PF_MMIO_UPDATE_GGTT_REQUEST_MSG_1_OFFSET : Z := 0xfffff000.
Definition VF2PF_MMIO_UPDATE_GGTT_REQUEST_MSG_1_MODE : Z := 0xc00.
Definition VF2PF_MMIO_UPDATE_GGTT_REQUEST_MSG_1_NUM_COPIES : Z := 0x3ff.
Definition VF2PF_MMIO_UPDATE_GGTT_RESPONSE_MSG_LEN : nat := 1.
Definition VF2PF_UPDATE_GGTT32_RESPONSE_MSG_LEN : nat := 1.
Definition MMIO_UPDATE_GGTT_MAX_PTES : nat := 1.
Definition VF_RELAY_UPDATE_GGTT_MODE_INVALID : Z := U8_MAX.

(** ** What is below the VF *)

(** [W] is the state of what is below. A response comes as the result of the call and the
    dwords that it wrote, [room] being the size of the caller's buffer. *)
Class VfTransport (W : Type) := {
  intel_guc_send_mmio : list Z -> nat -> st W (Z * list Z);
  vf_send_to_pf : list Z -> nat -> st W (Z * list Z);   (** [intel_iov_relay_send_to_pf] *)
  intel_guc_ct_enabled : W -> bool;
  krealloc_ok : st W bool;
  crc32_le : list Z -> Z;
  HAS_GMD_ID : bool;
}.

(** The results count the dwords written: [intel_guc_send_mmio] fills a buffer it is given, the
    relay as much of it as the PF sent. *)
Class VfTransportLaws {W} (T : VfTransport W) : Prop := {
  mmio_length req room w : (0 < room)%nat ->
    let '((ret, resp), _) := intel_guc_send_mmio req room w in
    ret < 0 \/ ret = Z.of_nat room /\ length resp = room;
  relay_length req room w :
    let '((ret, resp), _) := vf_send_to_pf req room w in
    ret < 0 \/ ret = Z.of_nat (length resp) /\ (length resp <= room)%nat;
}.

(** ** State ([vf] of [struct intel_iov]) *)

Record intel_iov_vf_config := {
  abi_branch : Z; abi_major : Z; abi_minor : Z; abi_patch : Z;
  ggtt_base : Z;
  ggtt_size : Z;
  vf_num_ctxs : Z;
  vf_num_dbs : Z;
}.

(** [regs] holds offsets and values; [None] is the null pointer. *)
Record intel_iov_vf_runtime := { regs_size : Z; regs : option (list (Z * Z)) }.

(** [b_ptes] are the [count] buffered entries. *)
Record intel_iov_vf_ggtt_ptes := { b_ptes : list Z; b_offset : Z; b_num_copies : Z; b_mode : Z }.

Record intel_ip_version := { ip_ver : Z; ip_rel : Z; ip_step : Z }.

(** Two histories that no operation reads: [f_sent], the updates sent (offset, mode, copies and
    entries), and [f_overrun], whether a register was stored beyond the end of the array. *)
Record vf_iov {W : Type} := {
  f_below : W;
  f_config : intel_iov_vf_config;
  f_runtime : intel_iov_vf_runtime;
  f_buffer : intel_iov_vf_ggtt_ptes;
  f_ip : intel_ip_version;
  f_sent : list (Z * Z * Z * list Z);
  f_overrun : bool;
}.
Arguments vf_iov : clear implicits.

Section setters.
Context {W : Type}.
Implicit Types v : vf_iov W.

Definition set_below (w : W) v : vf_iov W :=
  {| f_below := w; f_config := f_config v; f_runtime := f_runtime v; f_buffer := f_buffer v;
     f_ip := f_ip v; f_sent := f_sent v; f_overrun := f_overrun v |}.
Definition set_config (c : intel_iov_vf_config) v : vf_iov W :=
  {| f_below := f_below v; f_config := c; f_runtime := f_runtime v; f_buffer := f_buffer v;
     f_ip := f_ip v; f_sent := f_sent v; f_overrun := f_overrun v |}.
Definition set_runtime (r : intel_iov_vf_runtime) v : vf_iov W :=
  {| f_below := f_below v; f_config := f_config v; f_runtime := r; f_buffer := f_buffer v;
     f_ip := f_ip v; f_sent := f_sent v; f_overrun := f_overrun v |}.
Definition set_buffer (b : intel_iov_vf_ggtt_ptes) v : vf_iov W :=
  {| f_below := f_below v; f_config := f_config v; f_runtime := f_runtime v; f_buffer := b;
     f_ip := f_ip v; f_sent := f_sent v; f_overrun := f_overrun v |}.
Definition set_ip (i : intel_ip_version) v : vf_iov W :=
  {| f_below := f_below v; f_config := f_config v; f_runtime := f_runtime v; f_buffer := f_buffer v;
     f_ip := i; f_sent := f_sent v; f_overrun := f_overrun v |}.
Definition add_sent (m : Z * Z * Z * list Z) v : vf_iov W :=
  {| f_below := f_below v; f_config := f_config v; f_runtime := f_runtime v; f_buffer := f_buffer v;
     f_ip := f_ip v; f_sent := f_sent v ++ [m]; f_overrun := f_overrun v |}.
Definition note_overrun (o : bool) v : vf_iov W :=
  {| f_below := f_below v; f_config := f_config v; f_runtime := f_runtime v; f_buffer := f_buffer v;
     f_ip := f_ip v; f_sent := f_sent v; f_overrun := f_overrun v || o |}.

(** An operation of what is below. *)
Definition on_below {A} (m : st W A) : st (vf_iov W) A := fun v =>
  let '(a, w) := m (f_below v) in (a, set_below w v).
End setters.

(** The first dword of a request of the host. *)
Definition host_request (action : Z) : Z :=
  Z.lor (Z.lor (FIELD_PREP GUC_HXG_MSG_0_ORIGIN GUC_HXG_ORIGIN_HOST)
               (FIELD_PREP GUC_HXG_MSG_0_TYPE GUC_HXG_TYPE_REQUEST))
        (FIELD_PREP GUC_HXG_REQUEST_MSG_0_ACTION action).

Section query.
Context {W : Type} `{T : VfTransport W} `{P : ServiceEnv}.
#[local] Abbreviation vf A := (st (vf_iov W) A).

Definition send_mmio (req : list Z) (room : nat) : vf (Z * list Z) := on_below (intel_guc_send_mmio req room).

(** ** Bootstrap *)

(** Without a response buffer the result is the data of the response. *)
Definition guc_action_vf_reset : vf Z :=
  '(ret, _) ← send_mmio [host_request GUC_ACTION_VF2GUC_VF_RESET] 0;
  mret (if ret >? 0 then - EPROTO else ret).

Definition vf_reset_guc_state : vf Z := guc_action_vf_reset.

Definition match_version_request (branch major minor : Z) : list Z :=
  [host_request GUC_ACTION_VF2GUC_MATCH_VERSION;
   Z.lor (Z.lor (FIELD_PREP VF2GUC_MATCH_VERSION_REQUEST_MSG_1_BRANCH branch)
                (FIELD_PREP VF2GUC_MATCH_VERSION_REQUEST_MSG_1_MAJOR major))
         (FIELD_PREP VF2GUC_MATCH_VERSION_REQUEST_MSG_1_MINOR minor)].

(** The error, or the branch, major, minor and patch of the answer. *)
Definition guc_action_match_version (branch major minor : Z) : vf (Z + Z * Z * Z * Z) :=
  '(ret, response) ← send_mmio (match_version_request branch major minor) VF2GUC_MATCH_VERSION_RESPONSE_MSG_LEN;
  if ret <? 0 then mret (inl ret) else
  if negb (FIELD_GET VF2GUC_MATCH_VERSION_RESPONSE_MSG_0_MBZ (response.[0%nat | 0]) =? 0) then mret (inl (- EPROTO)) else
  let v := response.[1%nat | 0] in
  mret (inr (FIELD_GET VF2GUC_MATCH_VERSION_RESPONSE_MSG_1_BRANCH v, FIELD_GET VF2GUC_MATCH_VERSION_RESPONSE_MSG_1_MAJOR v,
             FIELD_GET VF2GUC_MATCH_VERSION_RESPONSE_MSG_1_MINOR v, FIELD_GET VF2GUC_MATCH_VERSION_RESPONSE_MSG_1_PATCH v)).

(** The label [fail]: GuC is asked once more, for any version, only to print the answer. *)
Definition handshake_failed (err : Z) : vf Z :=
  guc_action_match_version GUC_VERSION_BRANCH_ANY GUC_VERSION_MAJOR_ANY GUC_VERSION_MINOR_ANY ≫= fun _ => mret err.

Definition vf_handshake_with_guc : vf Z :=
  v ← guc_action_match_version GUC_VERSION_BRANCH_ANY GUC_VF_VERSION_LATEST_MAJOR GUC_VF_VERSION_LATEST_MINOR;
  match v with
  | inl err => handshake_failed err
  | inr (branch, major, minor, patch) =>
      if major >? GUC_VF_VERSION_LATEST_MAJOR then handshake_failed (- EPROTO) else
      modify (fun s => let c := f_config s in set_config
        {| abi_branch := u8 branch; abi_major := u8 major; abi_minor := u8 minor; abi_patch := u8 patch;
           ggtt_base := ggtt_base c; ggtt_size := ggtt_size c;
           vf_num_ctxs := vf_num_ctxs c; vf_num_dbs := vf_num_dbs c |} s) ≫= fun _ => mret 0
  end.

Definition intel_iov_query_bootstrap : vf Z :=
  err ← vf_reset_guc_state;
  if negb (err =? 0) then mret err else
  err ← vf_handshake_with_guc;
  if negb (err =? 0) then mret err else mret 0.

(** ** Configuration *)

Definition single_klv_request (key : Z) : list Z :=
  [host_request GUC_ACTION_VF2GUC_QUERY_SINGLE_KLV; FIELD_PREP VF2GUC_QUERY_SINGLE_KLV_REQUEST_MSG_1_KEY key].

(** The error, or the [value_len] dwords of the value. *)
Definition guc_action_query_single_klv (key : Z) (value_len : nat) : vf (Z + list Z) :=
  '(ret, response) ← send_mmio (single_klv_request key) VF2GUC_QUERY_SINGLE_KLV_RESPONSE_MSG_MAX_LEN;
  if ret <? 0 then mret (inl ret) else
  if negb (FIELD_GET VF2GUC_QUERY_SINGLE_KLV_RESPONSE_MSG_0_MBZ (response.[0%nat | 0]) =? 0) then mret (inl (- EPROTO)) else
  let length := FIELD_GET VF2GUC_QUERY_SINGLE_KLV_RESPONSE_MSG_0_LENGTH (response.[0%nat | 0]) in
  if length >? Z.of_nat value_len then mret (inl (- EOVERFLOW)) else
  if length <? Z.of_nat value_len then mret (inl (- ENODATA)) else
  if (3 <? value_len)%nat then mret (inl (- EINVAL)) else
  mret (inr ((fun i => response.[S i | 0]) <$> seq 0 value_len)).

Definition guc_action_query_single_klv32 (key : Z) : vf (Z + Z) :=
  v ← guc_action_query_single_klv key 1;
  mret (match v with inl err => inl err | inr v => inr (v.[0%nat | 0]) end).

Definition guc_action_query_single_klv64 (key : Z) : vf (Z + Z) :=
  v ← guc_action_query_single_klv key 2;
  mret (match v with inl err => inl err | inr v => inr (make_u64 (v.[1%nat | 0]) (v.[0%nat | 0])) end).

Definition abi_supports_gmd_klv (v : vf_iov W) : bool :=
  (abi_major (f_config v) =? 1) && (abi_minor (f_config v) >=? 2).

(** Every failure falls back to the hardcoded version. The renewed [intel_step_init] is not
    modelled. *)
Definition vf_get_ipver : vf Z :=
  if negb HAS_GMD_ID then mret 0 else
  supported ← gets abi_supports_gmd_klv;
  if negb supported then mret 0 else
  v ← guc_action_query_single_klv32 GUC_KLV_GLOBAL_CFG_GMD_ID_KEY;
  match v with
  | inl err => mret 0
  | inr gmd_id =>
      modify (set_ip {| ip_ver := FIELD_GET GMD_ID_ARCH_MASK gmd_id; ip_rel := FIELD_GET GMD_ID_RELEASE_MASK gmd_id;
                        ip_step := FIELD_GET GMD_ID_STEP gmd_id |}) ≫= fun _ => mret 0
  end.

Definition vf_get_ggtt_info : vf Z :=
  v ← guc_action_query_single_klv64 GUC_KLV_VF_CFG_GGTT_START_KEY;
  match v with inl err => mret err | inr start =>
  v ← guc_action_query_single_klv64 GUC_KLV_VF_CFG_GGTT_SIZE_KEY;
  match v with inl err => mret err | inr size =>
  modify (fun s => let c := f_config s in set_config
    {| abi_branch := abi_branch c; abi_major := abi_major c; abi_minor := abi_minor c; abi_patch := abi_patch c;
       ggtt_base := start; ggtt_size := size; vf_num_ctxs := vf_num_ctxs c; vf_num_dbs := vf_num_dbs c |} s) ≫= fun _ =>
  mret (if negb (size =? 0) then 0 else - ENODATA) end end.

Definition vf_get_submission_cfg : vf Z :=
  v ← guc_action_query_single_klv32 GUC_KLV_VF_CFG_NUM_CONTEXTS_KEY;
  match v with inl err => mret err | inr num_ctxs =>
  v ← guc_action_query_single_klv32 GUC_KLV_VF_CFG_NUM_DOORBELLS_KEY;
  match v with inl err => mret err | inr num_dbs =>
  modify (fun s => let c := f_config s in set_config
    {| abi_branch := abi_branch c; abi_major := abi_major c; abi_minor := abi_minor c; abi_patch := abi_patch c;
       ggtt_base := ggtt_base c; ggtt_size := ggtt_size c;
       vf_num_ctxs := u16 num_ctxs; vf_num_dbs := u16 num_dbs |} s) ≫= fun _ =>
  mret (if negb (u16 num_ctxs =? 0) then 0 else - ENODATA) end end.

Definition intel_iov_query_config : vf Z :=
  err ← vf_get_ipver;
  if negb (err =? 0) then mret err else
  err ← vf_get_ggtt_info;
  if negb (err =? 0) then mret err else
  err ← vf_get_submission_cfg;
  if negb (err =? 0) then mret err else mret 0.

(** ** Versions of the relay *)

Definition handshake_request (major minor : Z) : list Z :=
  [host_request IOV_ACTION_VF2PF_HANDSHAKE;
   Z.lor (FIELD_PREP VF2PF_HANDSHAKE_REQUEST_MSG_1_MAJOR major) (FIELD_PREP VF2PF_HANDSHAKE_REQUEST_MSG_1_MINOR minor)].

Definition iov_action_handshake (major minor : Z) : vf (Z + Z * Z) :=
  '(ret, response) ← on_below (vf_send_to_pf (handshake_request major minor) VF2PF_HANDSHAKE_RESPONSE_MSG_LEN);
  if ret <? 0 then mret (inl ret) else
  if negb (ret =? Z.of_nat VF2PF_HANDSHAKE_RESPONSE_MSG_LEN) then mret (inl (- EPROTO)) else
  if negb (FIELD_GET VF2PF_HANDSHAKE_RESPONSE_MSG_0_MBZ (response.[0%nat | 0]) =? 0) then mret (inl (- EPROTO)) else
  mret (inr (FIELD_GET VF2PF_HANDSHAKE_RESPONSE_MSG_1_MAJOR (response.[1%nat | 0]),
             FIELD_GET VF2PF_HANDSHAKE_RESPONSE_MSG_1_MINOR (response.[1%nat | 0]))).

Definition vf_handshake_with_pf : vf Z :=
  v ← iov_action_handshake IOV_VERSION_LATEST_MAJOR IOV_VERSION_LATEST_MINOR;
  mret (match v with inl err => err | inr _ => 0 end).

Definition intel_iov_query_version : vf Z := vf_handshake_with_pf.

(** ** Runtime registers *)

(** Register offsets (gt/intel_gt_regs.h, gt/uc/intel_guc_reg.h, i915_reg.h). *)
Definition tgl_early_regs : list Z := [0xd00; 0x9118; 0x9134; 0x9138; 0x913c; 0x9140; 0xa26c; 0xc1dc].
Definition mtl_early_regs : list Z :=
  [0xd00; 0x9114; 0x9118; 0x911c; 0x9134; 0x913c; 0x9140; 0x9144; 0x9148; 0xa26c; 0xc1dc;
   0x00116000 + 0xc68; 0x138010].

Definition get_early_regs : Z + list Z :=
  if GRAPHICS_VER_FULL >=? IP_VER 12 70 then inr mtl_early_regs
  else if is_tgl_or_adl then inr tgl_early_regs
  else inl (- ENODEV).

Definition vf_cleanup_runtime_info : vf unit := modify (set_runtime {| regs_size := 0; regs := None |}).

Definition roundup (n a : Z) : Z := u32 ((n + (a - 1)) / a * a).

(** [krealloc] with [__GFP_ZERO]: the old elements, as far as they fit, and zeros. *)
Definition resized (n : nat) (old : option (list (Z * Z))) : list (Z * Z) :=
  take n (default [] old ++ replicate n (0, 0)).

Definition vf_prepare_runtime_info (size alignment : Z) : vf Z :=
  let regs_size_up := roundup size alignment in
  ok ← on_below krealloc_ok;
  if negb ok then
    modify (fun v => set_runtime {| regs_size := regs_size (f_runtime v); regs := None |} v) ≫= fun _ => mret (- ENOMEM)
  else
    modify (fun v => set_runtime {| regs_size := size;
      regs := Some (resized (Z.to_nat regs_size_up) (regs (f_runtime v))) |} v) ≫= fun _ => mret (s32 regs_size_up).

(** Elements [i ..] of the array overwritten, and a note when they do not fit it. *)
Definition put_regs (i : nat) (rs : list (Z * Z)) : vf unit :=
  modify (fun v => note_overrun (length (default [] (regs (f_runtime v))) <? i + length rs)%nat
    (set_runtime {| regs_size := regs_size (f_runtime v);
       regs := list_inserts i rs <$> regs (f_runtime v) |} v)).

(** The label [failed] of the two functions below. *)
Definition runtime_failed (ret : Z) : vf Z := vf_cleanup_runtime_info ≫= fun _ => mret ret.

Definition mmio_relay_header (opcode magic : Z) : Z :=
  Z.lor (host_request GUC_ACTION_VF2GUC_MMIO_RELAY_SERVICE)
    (Z.lor (FIELD_PREP VF2GUC_MMIO_RELAY_SERVICE_REQUEST_MSG_0_MAGIC magic)
           (FIELD_PREP VF2GUC_MMIO_RELAY_SERVICE_REQUEST_MSG_0_OPCODE opcode)).

Definition guc_send_mmio_relay (request : list Z) (room : nat) : vf (Z * list Z) :=
  let magic1 := FIELD_GET VF2GUC_MMIO_RELAY_SERVICE_REQUEST_MSG_0_MAGIC (request.[0%nat | 0]) in
  '(ret, response) ← send_mmio request room;
  if ret <? 0 then mret (ret, response) else
  let magic2 := FIELD_GET VF2GUC_MMIO_RELAY_SERVICE_RESPONSE_MSG_0_MAGIC (response.[0%nat | 0]) in
  mret (if negb (magic1 =? magic2) then - EPROTO else ret, response).

Definition mmio_handshake_request (major minor : Z) : list Z :=
  [mmio_relay_header IOV_OPCODE_VF2PF_MMIO_HANDSHAKE 0xf;
   Z.lor (FIELD_PREP VF2PF_HANDSHAKE_REQUEST_MSG_1_MAJOR major) (FIELD_PREP VF2PF_HANDSHAKE_REQUEST_MSG_1_MINOR minor);
   0; 0].

Definition vf_handshake_with_pf_mmio : vf Z :=
  '(ret, response) ← guc_send_mmio_relay (mmio_handshake_request IOV_VERSION_LATEST_MAJOR IOV_VERSION_LATEST_MINOR)
                       VF2GUC_MMIO_RELAY_SERVICE_RESPONSE_MSG_MAX_LEN;
  if ret <? 0 then mret (- ECONNREFUSED) else
  let major := FIELD_GET VF2PF_HANDSHAKE_RESPONSE_MSG_1_MAJOR (response.[1%nat | 0]) in
  let minor := FIELD_GET VF2PF_HANDSHAKE_RESPONSE_MSG_1_MINOR (response.[1%nat | 0]) in
  mret (if negb (major =? IOV_VERSION_LATEST_MAJOR) || negb (minor =? IOV_VERSION_LATEST_MINOR)
        then - ECONNREFUSED else 0).

(** A request for the values of three registers, with bits of a checksum as its magic number. *)
Definition get_runtime_request (offsets : list Z) : list Z :=
  let request := mmio_relay_header IOV_OPCODE_VF2PF_MMIO_GET_RUNTIME 0 :: offsets in
  Z.lor (Z.land (request.[0%nat | 0]) (Z.lnot VF2GUC_MMIO_RELAY_SERVICE_REQUEST_MSG_0_MAGIC))
        (FIELD_PREP VF2GUC_MMIO_RELAY_SERVICE_REQUEST_MSG_0_MAGIC (crc32_le request)) :: offsets.

(** The loop over [n] chunks from element [i] on. *)
Fixpoint mmio_chunks (n i : nat) : vf Z :=
  match n with
  | O => mret 0
  | S n =>
      let chunk := VF2PF_MMIO_GET_RUNTIME_REQUEST_MSG_NUM_OFFSET in
      rs ← gets (fun v => take chunk (drop i (default [] (regs (f_runtime v)))));
      '(ret, response) ← guc_send_mmio_relay (get_runtime_request (fst <$> rs))
                           VF2GUC_MMIO_RELAY_SERVICE_RESPONSE_MSG_MAX_LEN;
      if ret <? 0 then runtime_failed ret else
      put_regs i (zip (fst <$> rs) ((fun k => response.[S k | 0]) <$> seq 0 chunk)) ≫= fun _ =>
      mmio_chunks n (i + chunk)
  end.

Definition vf_get_runtime_info_mmio : vf Z :=
  match get_early_regs with
  | inl err => runtime_failed err
  | inr early =>
      if (length early =? 0)%nat then mret 0 else
      let chunk := VF2PF_MMIO_GET_RUNTIME_REQUEST_MSG_NUM_OFFSET in
      ret ← vf_prepare_runtime_info (Z.of_nat (length early)) (Z.of_nat chunk);
      if ret <? 0 then runtime_failed ret else
      modify (fun v => set_runtime {| regs_size := regs_size (f_runtime v);
        regs := (fun l => zip early (snd <$> take (length early) l) ++ drop (length early) l) <$> regs (f_runtime v) |} v) ≫= fun _ =>
      mmio_chunks (Z.to_nat ret / chunk) 0
  end.

Definition runtime_limit : nat :=
  (VF2PF_QUERY_RUNTIME_RESPONSE_MSG_MAX_LEN - VF2PF_QUERY_RUNTIME_RESPONSE_MSG_MIN_LEN) / 2.

Definition runtime_request (start : Z) : list Z :=
  [Z.lor (host_request IOV_ACTION_VF2PF_QUERY_RUNTIME)
         (FIELD_PREP VF2PF_QUERY_RUNTIME_REQUEST_MSG_0_LIMIT (Z.of_nat runtime_limit));
   FIELD_PREP VF2PF_QUERY_RUNTIME_REQUEST_MSG_1_START start].

Definition pages_failed (ret : Z) : vf (option Z) := runtime_failed ret ≫= fun ret => mret (Some ret).

(** The loop at [repeat]. The PF decides how often it runs: [None] when that is more than
    [fuel] times. *)
Fixpoint runtime_pages (fuel : nat) (start : Z) : vf (option Z) :=
  match fuel with
  | O => mret None
  | S fuel =>
      '(ret, response) ← on_below (vf_send_to_pf (runtime_request start) VF2PF_QUERY_RUNTIME_RESPONSE_MSG_MAX_LEN);
      if ret <? 0 then pages_failed ret else
      if ret <? Z.of_nat VF2PF_QUERY_RUNTIME_RESPONSE_MSG_MIN_LEN then pages_failed (- EPROTO) else
      if negb ((ret - Z.of_nat VF2PF_QUERY_RUNTIME_RESPONSE_MSG_MIN_LEN) mod 2 =? 0) then pages_failed (- EPROTO) else
      let num := (ret - Z.of_nat VF2PF_QUERY_RUNTIME_RESPONSE_MSG_MIN_LEN) / 2 in
      let '(count, remaining, entries) := decode_page response in
      if negb (count =? num) then pages_failed (- EPROTO) else
      room ← (if start =? 0 then vf_prepare_runtime_info (u32 (num + remaining)) 1
              else gets (fun v => if u32 (start + num) >? regs_size (f_runtime v) then - EPROTO else 0));
      if room <? 0 then pages_failed room else
      put_regs (Z.to_nat start) entries ≫= fun _ =>
      if negb (remaining =? 0) then runtime_pages fuel (u32 (start + num)) else mret (Some 0)
  end.

Definition vf_get_runtime_info_relay (fuel : nat) : vf (option Z) := runtime_pages fuel 0.

Definition intel_iov_query_runtime (fuel : nat) (early : bool) : vf (option Z) :=
  err ← (if early then vf_handshake_with_pf_mmio else mret 0);
  if negb (err =? 0) then mret (Some err) else
  if early then ret ← vf_get_runtime_info_mmio; mret (Some ret) else vf_get_runtime_info_relay fuel.

Definition intel_iov_query_fini : vf unit := vf_cleanup_runtime_info.

(** ** Updates of the GGTT *)

Definition mmio_update_request (pte_offset mode num_copies pte : Z) : list Z :=
  [mmio_relay_header IOV_OPCODE_VF2PF_MMIO_UPDATE_GGTT 0xf;
   Z.lor (Z.lor (FIELD_PREP VF2PF_MMIO_UPDATE_GGTT_REQUEST_MSG_1_MODE mode)
                (FIELD_PREP VF2PF_MMIO_UPDATE_GGTT_REQUEST_MSG_1_NUM_COPIES num_copies))
         (FIELD_PREP VF2PF_MMIO_UPDATE_GGTT_REQUEST_MSG_1_OFFSET pte_offset);
   lower_32_bits pte; upper_32_bits pte].

Definition intel_iov_query_update_ggtt_pte_mmio (pte_offset mode num_copies pte : Z) : vf Z :=
  '(ret, response) ← guc_send_mmio_relay (mmio_update_request pte_offset mode num_copies pte)
                       VF2PF_MMIO_UPDATE_GGTT_RESPONSE_MSG_LEN;
  if ret <? 0 then mret ret else
  mret (u16 (FIELD_GET VF2PF_MMIO_UPDATE_GGTT_RESPONSE_MSG_1_NUM_PTES (response.[0%nat | 0]))).

Definition update_request (pte_offset mode num_copies : Z) (ptes : list Z) : list Z :=
  host_request IOV_ACTION_VF2PF_UPDATE_GGTT32 ::
  Z.lor (Z.lor (FIELD_PREP VF2PF_UPDATE_GGTT32_REQUEST_MSG_1_MODE mode)
               (FIELD_PREP VF2PF_UPDATE_GGTT32_REQUEST_MSG_1_NUM_COPIES num_copies))
        (FIELD_PREP VF2PF_UPDATE_GGTT32_REQUEST_MSG_1_OFFSET pte_offset) ::
  (ptes ≫= fun pte => [FIELD_PREP VF2PF_UPDATE_GGTT32_REQUEST_DATAn_PTE_LO (lower_32_bits pte);
                       FIELD_PREP VF2PF_UPDATE_GGTT32_REQUEST_DATAn_PTE_HI (upper_32_bits pte)]).

Definition intel_iov_query_update_ggtt_pte_relay (pte_offset mode num_copies : Z) (ptes : list Z) : vf Z :=
  if (length ptes <? 1)%nat then mret (- EINVAL) else
  '(ret, response) ← on_below (vf_send_to_pf (update_request pte_offset mode num_copies ptes)
                       VF2PF_UPDATE_GGTT32_RESPONSE_MSG_LEN);
  if ret <? 0 then mret ret else
  mret (u16 (FIELD_GET VF2PF_UPDATE_GGTT32_RESPONSE_MSG_0_NUM_PTES (response.[0%nat | 0]))).

Definition intel_iov_query_update_ggtt_ptes : vf Z :=
  buffer ← gets f_buffer;
  let mode := if (b_mode buffer =? VF_RELAY_UPDATE_GGTT_MODE_INVALID) && (b_num_copies buffer =? 0)
              then 0 else b_mode buffer in
  modify (set_buffer {| b_ptes := b_ptes buffer; b_offset := b_offset buffer;
                        b_num_copies := b_num_copies buffer; b_mode := mode |}) ≫= fun _ =>
  modify (add_sent (b_offset buffer, mode, b_num_copies buffer, b_ptes buffer)) ≫= fun _ =>
  ct ← gets (fun v => intel_guc_ct_enabled (f_below v));
  if negb ct
  then intel_iov_query_update_ggtt_pte_mmio (b_offset buffer) mode (b_num_copies buffer) ((b_ptes buffer).[0%nat | 0])
  else intel_iov_query_update_ggtt_pte_relay (b_offset buffer) mode (b_num_copies buffer) (b_ptes buffer).

(** ** The buffer of updates (gt/iov/intel_iov_ggtt.c) *)

Definition is_next_ggtt_offset (buffer : intel_iov_vf_ggtt_ptes) (offset : Z) : bool :=
  u32 (offset - (b_num_copies buffer + Z.of_nat (length (b_ptes buffer)))) =? b_offset buffer.

Definition last_pte (buffer : intel_iov_vf_ggtt_ptes) : Z := default 0 (last (b_ptes buffer)).

Definition is_pte_duplicatable (buffer : intel_iov_vf_ggtt_ptes) (pte : Z) : bool := last_pte buffer =? pte.

Definition is_pte_replicable (buffer : intel_iov_vf_ggtt_ptes) (pte : Z) : bool :=
  let new_gfn := FIELD_GET GEN12_GGTT_PTE_ADDR_MASK pte in
  let buffer_gfn := FIELD_GET GEN12_GGTT_PTE_ADDR_MASK (last_pte buffer) in
  let new_flags := FIELD_GET MTL_GGTT_PTE_PAT_MASK pte in
  let buffer_flags := FIELD_GET MTL_GGTT_PTE_PAT_MASK (last_pte buffer) in
  (new_flags =? buffer_flags) && (u64 (new_gfn - (b_num_copies buffer + 1)) =? buffer_gfn).

Definition add_copy (mode : Z) (b : intel_iov_vf_ggtt_ptes) : intel_iov_vf_ggtt_ptes :=
  {| b_ptes := b_ptes b; b_offset := b_offset b; b_num_copies := b_num_copies b + 1; b_mode := mode |}.
Definition add_pte (pte : Z) (b : intel_iov_vf_ggtt_ptes) : intel_iov_vf_ggtt_ptes :=
  {| b_ptes := b_ptes b ++ [pte]; b_offset := b_offset b; b_num_copies := b_num_copies b; b_mode := b_mode b |}.

(** The chain of conditions of [intel_iov_ggtt_vf_update_pte]: the buffer with the update added,
    [None] for [goto flush]. *)
Definition buffer_pte (max_ptes : nat) (pte_offset pte : Z) (b : intel_iov_vf_ggtt_ptes)
  : option intel_iov_vf_ggtt_ptes :=
  let max_copies := FIELD_MAX VF2PF_MMIO_UPDATE_GGTT_REQUEST_MSG_1_NUM_COPIES in
  let count := length (b_ptes b) in
  let mode := b_mode b in
  if (count =? 0)%nat then
    Some {| b_ptes := [pte]; b_offset := pte_offset; b_num_copies := 0; b_mode := VF_RELAY_UPDATE_GGTT_MODE_INVALID |}
  else if negb (is_next_ggtt_offset b pte_offset) || (b_num_copies b =? max_copies) then None
  else if b_num_copies b =? 0 then
    if is_pte_duplicatable b pte then
      Some (add_copy (if (count =? 1)%nat then MMIO_UPDATE_GGTT_MODE_DUPLICATE else MMIO_UPDATE_GGTT_MODE_DUPLICATE_LAST) b)
    else if is_pte_replicable b pte then
      Some (add_copy (if (count =? 1)%nat then MMIO_UPDATE_GGTT_MODE_REPLICATE else MMIO_UPDATE_GGTT_MODE_REPLICATE_LAST) b)
    else if (count =? max_ptes)%nat then None else Some (add_pte pte b)
  else if (count =? 1)%nat && (mode =? MMIO_UPDATE_GGTT_MODE_DUPLICATE) && is_pte_duplicatable b pte then Some (add_copy mode b)
  else if (count =? 1)%nat && (mode =? MMIO_UPDATE_GGTT_MODE_REPLICATE) && is_pte_replicable b pte then Some (add_copy mode b)
  else if (mode =? MMIO_UPDATE_GGTT_MODE_DUPLICATE_LAST) && is_pte_duplicatable b pte then Some (add_copy mode b)
  else if (mode =? MMIO_UPDATE_GGTT_MODE_REPLICATE_LAST) && is_pte_replicable b pte then Some (add_copy mode b)
  else if (mode <? 2) && negb (count =? max_ptes)%nat then Some (add_pte pte b)
  else None.

Definition intel_iov_ggtt_vf_flush_ptes : vf unit :=
  buffer ← gets f_buffer;
  if (length (b_ptes buffer) =? 0)%nat then mret tt else
  intel_iov_query_update_ggtt_ptes ≫= fun _ =>
  modify (fun v => let b := f_buffer v in set_buffer
    {| b_ptes := []; b_offset := b_offset b; b_num_copies := b_num_copies b; b_mode := b_mode b |} v).

Definition buffer_max_ptes (v : vf_iov W) : nat :=
  if intel_guc_ct_enabled (f_below v) then VF2PF_UPDATE_GGTT_MAX_PTES else MMIO_UPDATE_GGTT_MAX_PTES.

(** The call after a flush finds the buffer empty: two rounds are enough. *)
Fixpoint vf_update_pte (rounds : nat) (offset pte : Z) : vf unit :=
  match rounds with
  | O => mret tt
  | S rounds =>
      config ← gets f_config;
      let pte_offset := u32 (Z.shiftr offset PAGE_SHIFT - Z.shiftr (ggtt_base config) PAGE_SHIFT) in
      max_ptes ← gets buffer_max_ptes;
      buffer ← gets f_buffer;
      match buffer_pte max_ptes pte_offset pte buffer with
      | Some b => modify (set_buffer b)
      | None => intel_iov_ggtt_vf_flush_ptes ≫= fun _ => vf_update_pte rounds offset pte
      end
  end.
(** The offset is passed as a u32. *)
Definition intel_iov_ggtt_vf_update_pte (offset pte : Z) : vf unit := vf_update_pte 2 (u32 offset) pte.

(** ** Mapping pages of a VF (gt/intel_ggtt.c) *)

Fixpoint update_all (gte : Z) (ptes : list Z) : vf unit :=
  match ptes with
  | [] => mret tt
  | pte :: ptes => intel_iov_ggtt_vf_update_pte gte pte ≫= fun _ => update_all (u64 (gte + PAGE_SIZE)) ptes
  end.

(** [pte] is the encoded entry. *)
Definition ggtt_insert_page_vf_relay_wa (pte offset : Z) : vf unit :=
  intel_iov_ggtt_vf_update_pte offset pte ≫= fun _ => intel_iov_ggtt_vf_flush_ptes.

(** A VMA of [node_size] bytes from [start] on with [guard] bytes before and behind it, all of
    them whole pages; the
    entries of its pages are [pte_encode | addr], those of the rest are [scratch]. *)
Definition ggtt_insert_entries_vf_relay_wa (start guard node_size pte_encode scratch : Z) (addrs : list Z) : vf unit :=
  let gte := u64 (start - guard) in
  let pages := Z.to_nat (guard / PAGE_SIZE) in
  let total := Z.to_nat ((guard + node_size + guard) / PAGE_SIZE) in
  update_all gte (replicate pages scratch ++ ((fun addr => Z.lor pte_encode addr) <$> addrs) ++
                  replicate (total - pages - length addrs) scratch) ≫= fun _ =>
  intel_iov_ggtt_vf_flush_ptes.
End query.
