(* ===== verification/VfConf.v ===== *)
(** * What a VF learns

    The configuration that a PF pushes to GuC for a VF (GucCfg.v) and the VF reads back from GuC
    (VfIov.v), and what a PF that does not keep to the protocol does to a VF that reads the
    runtime registers. *)

From S2P Require Export VfIov.

(** ** The configuration *)

(** The dwords of a value. *)
Definition klv_dwords (v : klv_value) : list Z :=
  match v with Klv32 v => [v] | Klv64 v => [lower_32_bits v; upper_32_bits v] | KlvN vs => vs end.

Section config.
Context {W : Type} `{T : VfTransport W}.

(** GuC answers a query for a key of [r] with the length and the dwords of its value
    (guc_actions_vf_abi.h, VF2GUC_QUERY_SINGLE_KLV). *)
Definition guc_serves (r : list (Z * klv_value)) : Prop := forall key v (w : W),
  (key, v) ∈ r -> (length (klv_dwords v) <= 3)%nat ->
  let '((ret, resp), _) := intel_guc_send_mmio (single_klv_request key) VF2GUC_QUERY_SINGLE_KLV_RESPONSE_MSG_MAX_LEN w in
  0 <= ret /\ FIELD_GET VF2GUC_QUERY_SINGLE_KLV_RESPONSE_MSG_0_MBZ (resp.[0%nat | 0]) = 0 /\
  FIELD_GET VF2GUC_QUERY_SINGLE_KLV_RESPONSE_MSG_0_LENGTH (resp.[0%nat | 0]) = Z.of_nat (length (klv_dwords v)) /\
  take (length (klv_dwords v)) (tail resp) = klv_dwords v.

Context (r : list (Z * klv_value)) (Hguc : guc_serves r).

Lemma wp_query_klv key val n (Q : Z + list Z -> vf_iov W -> Prop) v :
  (key, val) ∈ r -> length (klv_dwords val) = n -> (n <= 3)%nat ->
  (forall w, Q (inr (klv_dwords val)) (set_below w v)) ->
  wp (guc_action_query_single_klv key n) Q v.
Proof using Hguc.
  intros Hin Hn Hn3 HQ. specialize (Hguc key val (f_below v) Hin ltac:(lia)).
  unfold guc_action_query_single_klv. apply wp_bind. unfold wp at 1, send_mmio, on_below.
  destruct (intel_guc_send_mmio _ _ _) as [[ret resp] w]. destruct Hguc as (Hr & Hmbz & Hlen & Hd). cbn [fst snd].
  rewrite (proj2 (Z.ltb_ge ret 0)), Hmbz by done. cbn [negb Z.eqb]. cbv zeta. rewrite Hlen, Hn.
  rewrite Z.gtb_ltb, Z.ltb_irrefl, (proj2 (Nat.ltb_ge 3 n)) by lia. apply wp_ret.
  replace ((fun i => resp.[S i | 0]) <$> seq 0 n) with (klv_dwords val); [apply HQ|].
  rewrite <- Hd at 1. rewrite Hn. apply list_eq. intros i.
  assert (length (take n (tail resp)) = n) as Hl by (rewrite <- Hn at 1; by rewrite Hd).
  rewrite list_lookup_fmap. destruct (decide (i < n)%nat) as [Hi|Hi].
  - rewrite lookup_seq_lt by done. cbn [fmap option_fmap option_map]. destruct (lookup_lt_is_Some_2 (take n (tail resp)) i) as [x Hx]; [lia|].
    rewrite Hx. rewrite lookup_take_lt in Hx by done. destruct resp as [|h resp]; [done|]. cbn [tail] in Hx.
    rewrite Nat.add_0_l. change ((h :: resp) !! S i) with (resp !! i). by rewrite Hx.
  - rewrite (proj2 (lookup_ge_None (seq 0 n) i)) by (rewrite length_seq; lia).
    by rewrite (proj2 (lookup_ge_None (take n (tail resp)) i)) by lia.
Qed.

Lemma wp_query_klv32 key x (Q : Z + Z -> vf_iov W -> Prop) v :
  (key, Klv32 x) ∈ r -> (forall w, Q (inr x) (set_below w v)) -> wp (guc_action_query_single_klv32 key) Q v.
Proof using Hguc. intros Hin HQ. apply wp_bind, (wp_query_klv _ (Klv32 x)); [done|done|lia|]. intros w. apply wp_ret, HQ. Qed.

Lemma wp_query_klv64 key x (Q : Z + Z -> vf_iov W -> Prop) v :
  is_u64 x -> (key, Klv64 x) ∈ r -> (forall w, Q (inr x) (set_below w v)) -> wp (guc_action_query_single_klv64 key) Q v.
Proof using Hguc.
  intros Hx Hin HQ. apply wp_bind, (wp_query_klv _ (Klv64 x)); [done|done|lia|]. intros w. apply wp_ret.
  cbn [klv_dwords lookup list_lookup default]. change (id ?x) with x. rewrite make_u64_split by done. apply HQ.
Qed.

(** [vf_get_ipver] never fails and leaves the configuration alone. *)
Lemma wp_get_ipver (Q : Z -> vf_iov W -> Prop) v :
  (forall v', f_config v' = f_config v -> Q 0 v') -> wp vf_get_ipver Q v.
Proof using Type.
  intros HQ. unfold vf_get_ipver. apply wp_if; intros _; [by apply wp_ret, HQ|].
  apply wp_bind, wp_gets, wp_if; intros _; [by apply wp_ret, HQ|].
  unfold guc_action_query_single_klv32, guc_action_query_single_klv. apply wp_bind, wp_bind, wp_bind.
  unfold wp at 1, send_mmio, on_below. destruct (intel_guc_send_mmio _ _ _) as [[ret resp] w]. cbn [fst snd].
  repeat (apply wp_if; intros _; [apply wp_ret, wp_ret, wp_ret, HQ; done|]).
  apply wp_ret, wp_ret, wp_bind, wp_modify, wp_ret, HQ. done.
Qed.
End config.

(** C20: a VF gets the configuration that the PF gave it. Let the PF push [encode_config] of a
    configuration with a GGTT region and contexts, the numbers of contexts and doorbells fitting
    16 bits, and GuC serve the keys of that buffer as its ABI says; then
    [intel_iov_query_config] succeeds in the VF, and the VF's base and size of the GGTT and its
    numbers of contexts and doorbells are those of the PF. *)
Theorem config_received {W} `{T : VfTransport W} c r (v : vf_iov W) :
  config_wf c -> allocated (ggtt_region c) = true -> size (ggtt_region c) <> 0 ->
  0 < num_ctxs c < 65536 -> 0 <= num_dbs c < 65536 ->
  pf_verify_config_klvs (encode_config c) = Some r -> guc_serves r ->
  let '(ret, v') := intel_iov_query_config v in
  ret = 0 /\ ggtt_base (f_config v') = start (ggtt_region c) /\ ggtt_size (f_config v') = size (ggtt_region c) /\
  vf_num_ctxs (f_config v') = num_ctxs c /\ vf_num_dbs (f_config v') = num_dbs c.
Proof.
  intros Hwf Ha Hsz Hctx Hdb Hr Hguc. pose proof (encode_config_decodes c [] [] Hwf decodes_nil) as D.
  rewrite !app_nil_r in D. apply decodes_verify in D. rewrite Hr in D. injection D as ->.
  destruct Hwf as [Hst Hs64]. unfold config_klvs, config_klvs_ggtt in Hguc. rewrite Ha in Hguc.
  assert (forall x, 0 <= x < 65536 -> u16 x = x) as Hu by (intros; by apply u16_small).
  apply wp_let. unfold intel_iov_query_config. apply wp_bind, wp_get_ipver. intros v1 Hv1. cbn [negb Z.eqb].
  apply wp_bind. unfold vf_get_ggtt_info.
  apply wp_bind, (wp_query_klv64 _ Hguc _ (start (ggtt_region c))); [done|by repeat (left || right)|]. intros w1.
  apply wp_bind, (wp_query_klv64 _ Hguc _ (size (ggtt_region c))); [done|by repeat (left || right)|]. intros w2.
  apply wp_bind, wp_modify. rewrite (proj2 (Z.eqb_neq _ _) Hsz). apply wp_ret. cbn [negb Z.eqb].
  apply wp_bind. unfold vf_get_submission_cfg.
  apply wp_bind, (wp_query_klv32 _ Hguc _ (num_ctxs c)); [by repeat (left || right)|]. intros w3.
  apply wp_bind, (wp_query_klv32 _ Hguc _ (num_dbs c)); [by repeat (left || right)|]. intros w4.
  apply wp_bind, wp_modify. rewrite !Hu, (proj2 (Z.eqb_neq (num_ctxs c) 0)) by lia. apply wp_ret. cbn [negb Z.eqb].
  by apply wp_ret.
Qed.

(** ** A PF that does not keep to the protocol *)

(** It always sends the response [resp]. *)
Definition constant_pf (resp : list Z) : VfTransport unit := {|
  intel_guc_send_mmio _ _ := mret (- EIO, []);
  vf_send_to_pf _ _ := mret (Z.of_nat (length resp), resp);
  intel_guc_ct_enabled _ := true;
  krealloc_ok := mret true;
  crc32_le _ := 0;
  HAS_GMD_ID := false |}.

(** The loop of [vf_get_runtime_info_relay] ends only if the PF lets it. A PF that always
    answers with no registers and one remaining keeps the VF in the loop: the VF asks for the
    registers from 0 on again and again, and no number of rounds is enough. *)
Theorem runtime_query_spins `{P : ServiceEnv} fuel v :
  let '(ret, _) := intel_iov_query_runtime (T := constant_pf [0; 1]) fuel false v in ret = None.
Proof.
  set (T := constant_pf [0; 1]). apply wp_let. apply wp_bind, wp_ret. cbn [negb Z.eqb].
  unfold vf_get_runtime_info_relay. revert v. induction fuel as [|fuel IH]; intros v; [by apply wp_ret|].
  cbn [runtime_pages]. apply wp_bind. unfold wp at 1, on_below. cbn [T constant_pf vf_send_to_pf mret st_ret fst snd].
  change (decode_page [0; 1]) with (0, 1, [] : list (Z * Z)). cbn iota beta.
  change (Z.of_nat (length [0; 1])) with 2. change (Z.of_nat VF2PF_QUERY_RUNTIME_RESPONSE_MSG_MIN_LEN) with 2.
  cbn [Z.ltb Z.compare Pos.compare Pos.compare_cont Z.sub Z.opp Z.add Z.pos_sub Z.eqb negb]. change (0 mod 2) with 0.
  change (0 / 2) with 0. cbn [Z.eqb negb]. apply wp_bind. unfold vf_prepare_runtime_info. apply wp_bind. unfold wp at 1, on_below.
  cbn [T constant_pf krealloc_ok mret st_ret fst snd negb]. apply wp_bind, wp_modify, wp_ret.
  change (s32 (roundup (u32 (0 + 1)) 1)) with 1. cbn [Z.ltb Z.compare]. apply wp_bind, wp_modify. apply IH.
Qed.

(** The size of the VF's array is [num + remaining] in 32 bits: a PF that answers with nine
    registers and 2^32 - 5 remaining has a new VF allocate four and store nine. *)
Theorem runtime_query_overruns `{P : ServiceEnv} v :
  regs (f_runtime v) = None ->
  let '(_, v') := intel_iov_query_runtime (T := constant_pf (9 :: (2 ^ 32 - 5) :: replicate 18 7)) 1 false v in
  regs_size (f_runtime v') = 4 /\ f_overrun v' = true.
Proof.
  destruct v as [[] c [n l] b i s o]. cbn [f_runtime regs]. intros ->. vm_compute. by destruct o.
Qed.

(** ** Witnesses *)

(** A GuC that serves the keys of [r]. *)
Definition klv_guc (r : list (Z * klv_value)) : VfTransport unit := {|
  intel_guc_send_mmio req room :=
    let key := FIELD_GET VF2GUC_QUERY_SINGLE_KLV_REQUEST_MSG_1_KEY (req.[1%nat | 0]) in
    mret (match list_find (fun e => e.1 = key) r with
          | Some (_, (_, v)) =>
              (Z.of_nat room, take room (reply_header GUC_HXG_TYPE_RESPONSE_SUCCESS (Z.of_nat (length (klv_dwords v))) ::
                                         klv_dwords v ++ replicate 3 0))
          | None => (- EIO, [])
          end);
  vf_send_to_pf _ _ := mret (- EIO, []);
  intel_guc_ct_enabled _ := true;
  krealloc_ok := mret true;
  crc32_le _ := 0;
  HAS_GMD_ID := true |}.

Definition sample_fresh_vf : vf_iov unit := {|
  f_below := ();
  f_config := {| abi_branch := 0; abi_major := 1; abi_minor := 1; abi_patch := 0; ggtt_base := 0; ggtt_size := 0;
                 vf_num_ctxs := 0; vf_num_dbs := 0 |};
  f_runtime := {| regs_size := 0; regs := None |};
  f_buffer := {| b_ptes := []; b_offset := 0; b_num_copies := 0; b_mode := VF_RELAY_UPDATE_GGTT_MODE_INVALID |};
  f_ip := {| ip_ver := 0; ip_rel := 0; ip_step := 0 |};
  f_sent := []; f_overrun := false |}.

Lemma example_served : guc_serves (T := klv_guc (config_klvs example_config)) (config_klvs example_config).
Proof.
  intros key v [] Hin _.
  let l := eval vm_compute in (config_klvs example_config) in change (config_klvs example_config) with l in Hin.
  rewrite !elem_of_cons in Hin. destruct_or! Hin; [..|by apply not_elem_of_nil in Hin].
  all: injection Hin as -> ->; vm_compute; split_and!; done.
Qed.

Lemma config_received_witness :
  let '(ret, v') := intel_iov_query_config (T := klv_guc (config_klvs example_config)) sample_fresh_vf in
  ret = 0 /\ ggtt_base (f_config v') = 0x123456000 /\ vf_num_ctxs (f_config v') = 1024.
Proof.
  pose proof (config_received (T := klv_guc (config_klvs example_config)) example_config (config_klvs example_config)
    sample_fresh_vf ltac:(by constructor) ltac:(done) ltac:(done) ltac:(done) ltac:(done) ltac:(by vm_compute) example_served) as Hw.
  destruct (intel_iov_query_config _) as [ret v']. by destruct Hw as (-> & -> & _ & -> & _).
Defined.

#[local] Existing Instance sample_service_env.
Lemma runtime_query_overruns_witness :
  let '(_, v') := intel_iov_query_runtime (T := constant_pf (9 :: (2 ^ 32 - 5) :: replicate 18 7)) 1 false sample_fresh_vf in
  regs_size (f_runtime v') = 4 /\ f_overrun v' = true.
Proof. by apply (runtime_query_overruns sample_fresh_vf). Defined.
