(* ===== verification/VfPtes.v ===== *)
(** * The buffer of GGTT updates of a VF

    What the messages of a VF mean and that the buffer which compresses them loses nothing:
    the messages sent stand for the updates that were made, in order. *)

From S2P Require Export VfIov.

(** ** What a message means (iov_actions_abi.h, UPDATE_GGTT32) *)

(** The page and the attributes an entry stands for. *)
Definition page_of (pte : Z) : Z * Z :=
  (FIELD_GET GEN12_GGTT_PTE_ADDR_MASK pte, FIELD_GET MTL_GGTT_PTE_PAT_MASK pte).

(** [n] pages from [pg] on: the same one, or consecutive ones. *)
Definition copy_pages (n : nat) (pg : Z * Z) (dup : bool) : list (Z * Z) :=
  (fun i => if dup then pg else (pg.1 + Z.of_nat i, pg.2)) <$> seq 0 n.

Definition mode_dup (mode : Z) : bool :=
  (mode =? MMIO_UPDATE_GGTT_MODE_DUPLICATE) || (mode =? MMIO_UPDATE_GGTT_MODE_DUPLICATE_LAST).

(** The pages of a message: the first or the last entry stands for [copies + 1] of them. *)
Definition msg_pages (mode copies : Z) (ptes : list Z) : list (Z * Z) :=
  let n := Z.to_nat (copies + 1) in
  if mode <? 2
  then copy_pages n (page_of (ptes.[0%nat | 0])) (mode_dup mode) ++ (page_of <$> tail ptes)
  else (page_of <$> removelast ptes) ++ copy_pages n (page_of (default 0 (last ptes))) (mode_dup mode).

(** Pages put at consecutive entries from [off] on. *)
Definition placed (off : Z) (pages : list (Z * Z)) : list (Z * (Z * Z)) :=
  imap (fun k pg => (u32 (off + Z.of_nat k), pg)) pages.

Definition msg_updates (m : Z * Z * Z * list Z) : list (Z * (Z * Z)) :=
  let '(off, mode, copies, ptes) := m in placed off (msg_pages mode copies ptes).

(** A message that fits its fields and carries at most [max] entries. *)
Definition msg_ok (max : nat) (m : Z * Z * Z * list Z) : Prop :=
  let '(off, mode, copies, ptes) := m in
  (1 <= length ptes <= max)%nat /\ 0 <= mode < 4 /\ 0 <= copies < 1024 /\ is_u32 off.

(** ** Lemmas *)

Lemma copy_pages_S n pg dup :
  copy_pages (S n) pg dup = copy_pages n pg dup ++ [if dup then pg else (pg.1 + Z.of_nat n, pg.2)].
Proof. unfold copy_pages. by rewrite seq_S, fmap_app. Qed.

Lemma copy_pages_1 pg dup : copy_pages 1 pg dup = [pg].
Proof. destruct pg as [a b], dup; cbn; [done|]. by rewrite Z.add_0_r. Qed.

Lemma msg_pages_0 mode ptes : ptes <> [] -> msg_pages mode 0 ptes = page_of <$> ptes.
Proof.
  intros Hne. unfold msg_pages. change (Z.to_nat (0 + 1)) with 1%nat. rewrite !copy_pages_1.
  destruct (mode <? 2); [by destruct ptes|].
  destruct ptes as [|p ptes _] using rev_ind; [done|].
  by rewrite removelast_last, last_snoc, fmap_app.
Qed.

(** One copy more of the entry that is copied. *)
Lemma msg_pages_copy mode copies ptes pg :
  0 <= copies -> (mode < 2 -> length ptes = 1%nat) -> ptes <> [] ->
  pg = (let q := page_of (default 0 (last ptes)) in if mode_dup mode then q else (q.1 + (copies + 1), q.2)) ->
  msg_pages mode (copies + 1) ptes = msg_pages mode copies ptes ++ [pg].
Proof.
  intros Hc Hl Hne ->. unfold msg_pages.
  replace (Z.to_nat (copies + 1 + 1)) with (S (Z.to_nat (copies + 1))) by lia.
  rewrite !copy_pages_S, Z2Nat.id by lia. destruct (Z.ltb_spec mode 2) as [Hm|Hm].
  - specialize (Hl Hm). destruct ptes as [|p [|]]; try done. cbn [tail fmap list_fmap last default].
    by rewrite !app_nil_r.
  - by rewrite <- app_assoc.
Qed.

Lemma msg_pages_snoc mode copies ptes p :
  mode < 2 -> ptes <> [] -> msg_pages mode copies (ptes ++ [p]) = msg_pages mode copies ptes ++ [page_of p].
Proof.
  intros Hm Hne. unfold msg_pages. rewrite (proj2 (Z.ltb_lt _ _) Hm).
  destruct ptes as [|q ptes]; [done|]. cbn [app tail]. rewrite fmap_app. by rewrite app_assoc.
Qed.

Lemma length_msg_pages mode copies ptes :
  0 <= copies -> ptes <> [] -> Z.of_nat (length (msg_pages mode copies ptes)) = copies + Z.of_nat (length ptes).
Proof.
  intros Hc Hne. unfold msg_pages, copy_pages. destruct (mode <? 2);
    rewrite length_app, !length_fmap, length_seq.
  - destruct ptes; [done|]. cbn. lia.
  - destruct ptes as [|p ptes _] using rev_ind; [done|]. rewrite removelast_last, length_app. cbn. lia.
Qed.

Lemma placed_snoc off l pg : placed off (l ++ [pg]) = placed off l ++ [(u32 (off + Z.of_nat (length l)), pg)].
Proof. unfold placed. rewrite imap_app. cbn. by rewrite Nat.add_0_r. Qed.

(** What the PF expands a message to are the addresses of its pages. *)
Lemma expand_msg_pages mode copies ptes :
  0 <= mode < 4 -> ptes <> [] ->
  expand_ptes mode copies ptes =
    Some ((fun pg => u64 (Z.shiftl pg.1 PAGE_SHIFT)) <$> msg_pages mode copies ptes).
Proof.
  intros Hm Hne.
  assert (forall n pte dup, sg_add_ptes pte n dup =
    (fun pg => u64 (Z.shiftl pg.1 PAGE_SHIFT)) <$> copy_pages n (page_of pte) dup) as Hc.
  { intros n pte dup. unfold sg_add_ptes, copy_pages. rewrite <- list_fmap_compose. apply list_fmap_ext.
    intros k i _. by destruct dup. }
  assert (forall l, l ≫= sg_add_pte = (fun pg : Z * Z => u64 (Z.shiftl pg.1 PAGE_SHIFT)) <$> (page_of <$> l)) as Hs.
  { intros l. induction l as [|p l IH]; [done|]. cbn [mbind list_bind fmap list_fmap]. fold (@mbind list _ Z Z).
    unfold sg_add_pte at 1. rewrite Hc, copy_pages_1. cbn. f_equal. apply IH. }
  unfold expand_ptes, msg_pages, mode_dup.
  assert (mode = 0 \/ mode = 1 \/ mode = 2 \/ mode = 3) as [->|[->|[->| ->]]] by lia; cbn -[sg_add_ptes copy_pages Z.to_nat];
    by rewrite fmap_app, Hc, Hs.
Qed.

(** ** The buffer *)

(** The mode a buffer is sent with. *)
Definition sent_mode (b : intel_iov_vf_ggtt_ptes) : Z :=
  if (b_mode b =? VF_RELAY_UPDATE_GGTT_MODE_INVALID) && (b_num_copies b =? 0) then 0 else b_mode b.

Definition buffer_msg (b : intel_iov_vf_ggtt_ptes) : Z * Z * Z * list Z :=
  (b_offset b, sent_mode b, b_num_copies b, b_ptes b).

(** A buffer in use. *)
Record buffer_ok (max : nat) (b : intel_iov_vf_ggtt_ptes) : Prop := {
  ok_some : b_ptes b <> [];
  ok_max : (length (b_ptes b) <= max)%nat;
  ok_copies : 0 <= b_num_copies b < 1024;
  ok_offset : is_u32 (b_offset b);
  ok_mode : if decide (b_num_copies b = 0) then b_mode b = VF_RELAY_UPDATE_GGTT_MODE_INVALID
            else 0 <= b_mode b < 4;
}.

(** The updates that a buffer, perhaps an empty one, stands for. *)
Definition buffer_holds (max : nat) (b : intel_iov_vf_ggtt_ptes) (us : list (Z * (Z * Z))) : Prop :=
  b_ptes b = [] /\ us = [] \/ buffer_ok max b /\ us = msg_updates (buffer_msg b).

Lemma buffer_ok_msg max b : buffer_ok max b -> msg_ok max (buffer_msg b).
Proof.
  intros [H1 H2 H3 H4 H5]. unfold msg_ok, buffer_msg, sent_mode.
  assert (length (b_ptes b) <> 0%nat) by (by destruct (b_ptes b)).
  split_and!; try done; try lia.
  all: case_decide as Hc; [rewrite H5, Hc; done|].
  all: rewrite (proj2 (Z.eqb_neq (b_num_copies b) 0)), andb_false_r by done; lia.
Qed.

(** The pages of a buffer, by the mode it is in once it has copies. *)
Lemma buffer_pages max b mode :
  buffer_ok max b -> (b_num_copies b <> 0 -> mode = b_mode b) ->
  msg_updates (buffer_msg b) = placed (b_offset b) (msg_pages mode (b_num_copies b) (b_ptes b)).
Proof.
  intros [H1 H2 H3 H4 H5] Hm. unfold msg_updates, buffer_msg, sent_mode. case_decide as Hc.
  - by rewrite Hc, !msg_pages_0.
  - rewrite (proj2 (Z.eqb_neq (b_num_copies b) 0)), andb_false_r, Hm by done. done.
Qed.

Lemma is_next_offset b off :
  is_u32 off -> is_next_ggtt_offset b off = true ->
  off = u32 (b_offset b + (b_num_copies b + Z.of_nat (length (b_ptes b)))).
Proof.
  unfold is_next_ggtt_offset, is_u32, u32. intros Ho Hn. apply Z.eqb_eq in Hn. rewrite <- Hn.
  rewrite Zplus_mod_idemp_l, Z.sub_add. symmetry. by apply Z.mod_small.
Qed.

(** A buffer one copy, or one entry, longer. *)
Lemma buffer_grow max b b' off pg mode :
  buffer_ok max b -> is_u32 off -> is_next_ggtt_offset b off = true -> b_offset b' = b_offset b ->
  buffer_ok max b' -> (b_num_copies b <> 0 -> mode = b_mode b) -> (b_num_copies b' <> 0 -> mode = b_mode b') ->
  msg_pages mode (b_num_copies b') (b_ptes b') = msg_pages mode (b_num_copies b) (b_ptes b) ++ [pg] ->
  buffer_holds max b' (msg_updates (buffer_msg b) ++ [(off, pg)]).
Proof.
  intros Hok Ho Hn Hoff Hok' Hm Hm' Hp. right. split; [done|].
  rewrite (buffer_pages max b mode), (buffer_pages max b' mode), Hp, placed_snoc, Hoff by done.
  pose proof (is_next_offset _ _ Ho Hn) as ->. destruct Hok.
  rewrite length_msg_pages by (done || lia). done.
Qed.

Lemma duplicatable_page b pte : is_pte_duplicatable b pte = true -> page_of pte = page_of (last_pte b).
Proof. intros H. apply Z.eqb_eq in H. by rewrite H. Qed.

Lemma replicable_page b pte :
  0 <= b_num_copies b < 1024 -> is_pte_replicable b pte = true ->
  page_of pte = ((page_of (last_pte b)).1 + (b_num_copies b + 1), (page_of (last_pte b)).2).
Proof.
  intros Hc. unfold is_pte_replicable, page_of. cbn [fst snd].
  pose proof (FIELD_GET_range GEN12_GGTT_PTE_ADDR_MASK 34 12 pte) as H1.
  pose proof (FIELD_GET_range GEN12_GGTT_PTE_ADDR_MASK 34 12 (last_pte b)) as H2.
  change (2 ^ 34) with 17179869184 in *.
  rewrite andb_true_iff, !Z.eqb_eq. unfold u64. change (2 ^ 64) with 18446744073709551616. intros [-> Hg].
  f_equal. revert H1 H2 Hg.
  generalize (FIELD_GET GEN12_GGTT_PTE_ADDR_MASK pte) as x, (FIELD_GET GEN12_GGTT_PTE_ADDR_MASK (last_pte b)) as y.
  intros. dlia.
Qed.

Lemma add_copy_ok max mode b :
  buffer_ok max b -> b_num_copies b <> 1023 -> 0 <= mode < 4 -> buffer_ok max (add_copy mode b).
Proof. intros [] Hc Hm. constructor; cbn; try done; [lia|]. by rewrite decide_False by lia. Qed.

Lemma add_pte_ok max pte b :
  buffer_ok max b -> length (b_ptes b) <> max -> buffer_ok max (add_pte pte b).
Proof.
  intros [] Hl. constructor; cbn; try done; [by destruct (b_ptes b)|]. rewrite length_app. cbn. lia.
Qed.

Section step.
Context (max : nat) (b : intel_iov_vf_ggtt_ptes) (off pte : Z).
Context (Hok : buffer_ok max b) (Hoff : is_u32 off) (Hnext : is_next_ggtt_offset b off = true)
  (Hcop : b_num_copies b <> 1023).

(** The update is a copy. *)
Lemma step_copy mode :
  0 <= mode < 4 -> (b_num_copies b <> 0 -> mode = b_mode b) -> (mode < 2 -> length (b_ptes b) = 1%nat) ->
  (if mode_dup mode then is_pte_duplicatable b pte = true else is_pte_replicable b pte = true) ->
  buffer_holds max (add_copy mode b) (msg_updates (buffer_msg b) ++ [(off, page_of pte)]).
Proof using Hok Hoff Hnext Hcop.
  intros Hm Hmode Hl Hp. pose proof Hok as [H1 _ H3 _ _].
  apply (buffer_grow max b _ _ _ mode); try done; [by apply add_copy_ok|].
  cbn. apply msg_pages_copy; [lia|done|done|]. fold (last_pte b).
  destruct (mode_dup mode); [by apply duplicatable_page|by apply replicable_page].
Qed.

(** The update is an entry of its own. *)
Lemma step_entry :
  (b_num_copies b <> 0 -> b_mode b < 2) -> length (b_ptes b) <> max ->
  buffer_holds max (add_pte pte b) (msg_updates (buffer_msg b) ++ [(off, page_of pte)]).
Proof using Hok Hoff Hnext.
  intros Hm Hl. pose proof Hok as [H1 _ H3 _ H5].
  apply (buffer_grow max b _ _ _ (if decide (b_num_copies b = 0) then 0 else b_mode b)); try done.
  - by apply add_pte_ok.
  - intros Hc. by rewrite decide_False.
  - intros Hc. by rewrite decide_False.
  - cbn. apply msg_pages_snoc; [|done]. case_decide; [done|]. by apply Hm.
Qed.
End step.

(** Adding an update to the buffer, when no flush is needed. *)
Lemma buffer_pte_holds max off pte b b' us :
  (1 <= max)%nat -> is_u32 off -> buffer_holds max b us -> buffer_pte max off pte b = Some b' ->
  buffer_holds max b' (us ++ [(off, page_of pte)]).
Proof.
  intros Hmax Hoff Hb. unfold buffer_pte.
  change (FIELD_MAX VF2PF_MMIO_UPDATE_GGTT_REQUEST_MSG_1_NUM_COPIES) with 1023.
  unfold MMIO_UPDATE_GGTT_MODE_DUPLICATE, MMIO_UPDATE_GGTT_MODE_DUPLICATE_LAST,
    MMIO_UPDATE_GGTT_MODE_REPLICATE, MMIO_UPDATE_GGTT_MODE_REPLICATE_LAST.
  destruct (Nat.eqb_spec (length (b_ptes b)) 0) as [Hl|Hl].
  { intros [= <-]. destruct Hb as [[Hp ->]|[[] _]]; [|by destruct (b_ptes b)]. right.
    split; [by constructor|]. change (msg_updates _) with (placed off (msg_pages 0 0 [pte])).
    rewrite msg_pages_0 by done. unfold placed. cbn -[u32 page_of]. by rewrite Z.add_0_r, u32_small. }
  destruct Hb as [[Hp _]|[Hok ->]]; [by rewrite Hp in Hl|]. pose proof Hok as [H1 H2 H3 H4 H5].
  intros Hs. destruct (is_next_ggtt_offset b off) eqn:Hn; [|done].
  destruct (Z.eqb_spec (b_num_copies b) 1023) as [|Hc]; [done|].
  destruct (Z.eqb_spec (b_num_copies b) 0) as [H0|H0]; cbn [negb orb] in Hs.
  - destruct (is_pte_duplicatable b pte) eqn:Hd; [|destruct (is_pte_replicable b pte) eqn:Hr].
    + injection Hs as <-. destruct (Nat.eqb_spec (length (b_ptes b)) 1); by apply step_copy.
    + injection Hs as <-. destruct (Nat.eqb_spec (length (b_ptes b)) 1); by apply step_copy.
    + destruct (Nat.eqb_spec (length (b_ptes b)) max); [done|]. injection Hs as <-. by apply step_entry.
  - rewrite decide_False in H5 by done.
    repeat match type of Hs with (if ?c then _ else _) = _ => destruct c eqn:?; propify end;
      try done; injection Hs as <-; try (apply step_entry; done || lia);
      apply step_copy; try done; try lia.
    all: match goal with H : b_mode ?x = _ |- _ => rewrite H end; done.
Qed.

Lemma buffer_pte_good (good : Z -> Prop) max off pte b b' :
  Forall good (b_ptes b) -> good pte -> buffer_pte max off pte b = Some b' -> Forall good (b_ptes b').
Proof.
  intros Hb Hp. unfold buffer_pte. intros Hs.
  repeat match type of Hs with (if ?c then _ else _) = _ => destruct c end; try done;
    injection Hs as <-; cbn; auto. all: by apply Forall_app; auto.
Qed.

(** An empty buffer takes every update. *)
Lemma buffer_pte_empty max off pte b : b_ptes b = [] -> exists b', buffer_pte max off pte b = Some b'.
Proof. intros Hb. unfold buffer_pte. rewrite Hb. cbn. by eexists. Qed.

(** ** The updates of a VF *)

(** The entries that fit a message. *)
Definition max_ptes (ct : bool) : nat := if ct then VF2PF_UPDATE_GGTT_MAX_PTES else MMIO_UPDATE_GGTT_MAX_PTES.

Lemma max_ptes_pos ct : (1 <= max_ptes ct)%nat.
Proof. destruct ct; [|done]. change (max_ptes true) with 125%nat. lia. Qed.

Section updates.
Context {W : Type} `{T : VfTransport W}.
#[local] Abbreviation vf A := (st (vf_iov W) A).

(** The transport is the same all along. *)
Context (ct : bool) (Hct : forall w, intel_guc_ct_enabled w = ct).
#[local] Abbreviation max := (max_ptes ct).

Lemma wp_on_below {A} (m : st W A) (Q : A -> vf_iov W -> Prop) v :
  (forall a w, Q a (set_below w v)) -> wp (on_below m) Q v.
Proof using Type. intros HQ. unfold wp, on_below. destruct (m (f_below v)). apply HQ. Qed.

(** Sending the buffer: it is recorded, and only what is below changes besides. *)
Lemma wp_query_update (Q : Z -> vf_iov W -> Prop) v :
  let b := f_buffer v in
  (forall ret w, Q ret (set_below w (add_sent (buffer_msg b)
     (set_buffer {| b_ptes := b_ptes b; b_offset := b_offset b; b_num_copies := b_num_copies b;
                    b_mode := sent_mode b |} v)))) ->
  wp intel_iov_query_update_ggtt_ptes Q v.
Proof using Type.
  intros b HQ. unfold intel_iov_query_update_ggtt_ptes. apply wp_bind, wp_gets, wp_bind, wp_modify, wp_bind, wp_modify.
  fold b (sent_mode b) (buffer_msg b). set (v1 := add_sent _ _) in *.
  assert (forall ret, Q ret v1) as Hnone by (intros ret; exact (HQ ret (f_below v))).
  apply wp_bind, wp_gets, wp_if; intros _.
  - unfold intel_iov_query_update_ggtt_pte_mmio, guc_send_mmio_relay, send_mmio.
    apply wp_bind, wp_bind, wp_on_below. intros [ret resp] w. apply wp_if; intros Hr; apply wp_ret, wp_if; intros _; apply wp_ret, HQ.
  - unfold intel_iov_query_update_ggtt_pte_relay. apply wp_if; intros _; [by apply wp_ret|].
    apply wp_bind, wp_on_below. intros [ret resp] w. apply wp_if; intros _; apply wp_ret, HQ.
Qed.

(** What a client knows of the updates: every entry is [good], every place is [inside], and
    [below] holds of the messages sent and of what is below. *)
Context (good : Z -> Prop) (inside : Z * (Z * Z) -> Prop) (below : list (Z * Z * Z * list Z) -> W -> Prop).
Context (Hbelow : forall v msgs,
  below msgs (f_below v) -> buffer_ok max (f_buffer v) -> Forall good (b_ptes (f_buffer v)) ->
  Forall inside (msg_updates (buffer_msg (f_buffer v))) ->
  wp intel_iov_query_update_ggtt_ptes (fun _ v' => below (msgs ++ [buffer_msg (f_buffer v)]) (f_below v')) v).

(** [us] is what the messages sent since [v0] and the buffer stand for. *)
Definition updates_inv (v0 : vf_iov W) (us : list (Z * (Z * Z))) (v : vf_iov W) : Prop :=
  f_config v = f_config v0 /\ Forall good (b_ptes (f_buffer v)) /\
 exists msgs rest, f_sent v = f_sent v0 ++ msgs /\ Forall (msg_ok max) msgs /\
   buffer_holds max (f_buffer v) rest /\ us = (msgs ≫= msg_updates) ++ rest /\ below msgs (f_below v).

Lemma wp_flush v0 us v :
  updates_inv v0 us v -> Forall inside us ->
  wp intel_iov_ggtt_vf_flush_ptes (fun _ v' => updates_inv v0 us v' /\ b_ptes (f_buffer v') = []) v.
Proof using Hbelow.
  intros (Hc & Hg & msgs & rest & Hs & Hok & Hb & Hu & Hw) Hin. apply wp_bind, wp_gets, wp_if; intros Hl; propify.
  - apply wp_ret. split; [|by apply nil_length_inv]. split; [done|]. split; [done|]. by exists msgs, rest.
  - destruct Hb as [[He _]|[Hbok ->]]; [by rewrite He in Hl|].
    rewrite Hu in Hin. apply Forall_app in Hin as [_ Hin]. specialize (Hbelow _ _ Hw Hbok Hg Hin).
    apply wp_bind. eapply wp_mono; [apply wp_and; [exact Hbelow|]|].
    { apply (wp_query_update (fun _ v' => f_config v' = f_config v /\ f_sent v' = f_sent v ++ [buffer_msg (f_buffer v)])).
      by intros ret w. }
    intros ret v1 (Hw1 & Hc1 & Hs1). apply wp_modify.
    split; [|done]. split; [by rewrite <- Hc|]. split; [done|]. exists (msgs ++ [buffer_msg (f_buffer v)]), []. split_and!.
    + cbn. by rewrite Hs1, Hs, app_assoc.
    + apply Forall_app. split; [done|]. constructor; [by apply buffer_ok_msg|done].
    + left. done.
    + rewrite app_nil_r, bind_app, Hu. cbn. by rewrite app_nil_r.
    + done.
Qed.

(** The entry that an offset names. *)
Definition pte_index (c : intel_iov_vf_config) (offset : Z) : Z :=
  u32 (Z.shiftr (u32 offset) PAGE_SHIFT - Z.shiftr (ggtt_base c) PAGE_SHIFT).

Lemma wp_vf_update v0 us v offset pte :
  updates_inv v0 us v -> Forall inside us -> good pte ->
  wp (intel_iov_ggtt_vf_update_pte offset pte)
    (fun _ v' => updates_inv v0 (us ++ [(pte_index (f_config v0) offset, page_of pte)]) v') v.
Proof using Hct Hbelow.
  intros Hinv Hin Hgood. unfold intel_iov_ggtt_vf_update_pte.
  assert (forall rounds v1 us1, updates_inv v0 us1 v1 -> us1 = us -> forall b,
    buffer_pte max (pte_index (f_config v0) offset) pte (f_buffer v1) = Some b ->
    wp (vf_update_pte (S rounds) (u32 offset) pte)
      (fun _ v' => updates_inv v0 (us ++ [(pte_index (f_config v0) offset, page_of pte)]) v') v1) as Hdone.
  { intros rounds v1 us1 (Hc & Hg & msgs & rest & Hs & Hok & Hb & Hu & Hw) -> b Hbuf.
    apply wp_bind, wp_gets, wp_bind, wp_gets, wp_bind, wp_gets.
    unfold buffer_max_ptes. rewrite Hct. fold (max_ptes ct). rewrite Hc. fold (pte_index (f_config v0) offset).
    rewrite Hbuf. apply wp_modify. split; [done|]. split; [by eapply buffer_pte_good|].
    exists msgs, (rest ++ [(pte_index (f_config v0) offset, page_of pte)]). split_and!; try done.
    - eapply buffer_pte_holds; [apply max_ptes_pos|apply u32_range|exact Hb|exact Hbuf].
    - by rewrite Hu, app_assoc. }
  destruct (buffer_pte max (pte_index (f_config v0) offset) pte (f_buffer v)) as [b|] eqn:Hbuf;
    [by eapply Hdone|].
  apply wp_bind, wp_gets, wp_bind, wp_gets, wp_bind, wp_gets.
  unfold buffer_max_ptes. rewrite Hct. fold (max_ptes ct). rewrite (proj1 Hinv). fold (pte_index (f_config v0) offset).
  rewrite Hbuf. apply wp_bind. eapply wp_mono; [by apply wp_flush|]. intros _ v1 [Hinv1 He].
  destruct (buffer_pte_empty max (pte_index (f_config v0) offset) pte _ He) as [b Hb].
  by eapply (Hdone 0%nat).
Qed.

(** A list of updates, by offset and entry. *)
Fixpoint vf_updates (us : list (Z * Z)) : vf unit :=
  match us with
  | [] => mret tt
  | (offset, pte) :: us => intel_iov_ggtt_vf_update_pte offset pte ≫= fun _ => vf_updates us
  end.

Definition asked_for (c : intel_iov_vf_config) (us : list (Z * Z)) : list (Z * (Z * Z)) :=
  (fun '(offset, pte) => (pte_index c offset, page_of pte)) <$> us.

Lemma wp_vf_updates us : forall v0 before v,
  updates_inv v0 before v -> Forall inside (before ++ asked_for (f_config v0) us) -> Forall good us.*2 ->
  wp (vf_updates us) (fun _ v' => updates_inv v0 (before ++ asked_for (f_config v0) us) v') v.
Proof using Hct Hbelow.
  induction us as [|[offset pte] us IH]; intros v0 before v Hinv Hin Hg; cbn [vf_updates].
  - apply wp_ret. cbn. by rewrite app_nil_r.
  - cbn in Hin, Hg. rewrite cons_middle, app_assoc in Hin. inversion_clear Hg as [|? ? Hg1 Hg2].
    pose proof (proj1 (Forall_app _ _ _) Hin) as [Hin1 _]. apply Forall_app in Hin1 as [Hin1 _].
    apply wp_bind. eapply wp_mono; [by apply wp_vf_update|]. intros u v1 Hinv1. cbv beta in Hinv1.
    eapply wp_mono; [apply (IH _ _ _ Hinv1 Hin Hg2)|]. intros u2 v2 Hinv2. by rewrite <- app_assoc in Hinv2.
Qed.

(** All the updates and the flush behind them. *)
Lemma wp_updates_flushed us v :
  b_ptes (f_buffer v) = [] -> below [] (f_below v) ->
  Forall inside (asked_for (f_config v) us) -> Forall good us.*2 ->
  wp (vf_updates us ≫= fun _ => intel_iov_ggtt_vf_flush_ptes) (fun _ v' =>
    b_ptes (f_buffer v') = [] /\ f_config v' = f_config v /\
   exists msgs, f_sent v' = f_sent v ++ msgs /\ Forall (msg_ok max) msgs /\
     msgs ≫= msg_updates = asked_for (f_config v) us /\ below msgs (f_below v')) v.
Proof using Hct Hbelow.
  intros He Hw Hin Hg. apply wp_bind.
  assert (updates_inv v [] v) as Hinv.
  { split; [done|]. split; [by rewrite He|]. exists [], []. split_and!; [by rewrite app_nil_r|done|by left|done|done]. }
  eapply wp_mono; [apply (wp_vf_updates us _ _ _ Hinv Hin Hg)|]. intros u1 v1 Hinv1. cbv beta in Hinv1.
  eapply wp_mono; [apply (wp_flush _ _ _ Hinv1 Hin)|].
  intros u2 v2 [(Hc & _ & msgs & rest & Hs & Hok & Hb & Hu & Hw2) He2].
  split; [done|]. split; [done|]. exists msgs. split_and!; [done|done| |done].
  destruct Hb as [[_ ->]|[[] _]]; [|done]. by rewrite app_nil_r in Hu.
Qed.
End updates.

(** ** Properties *)

(** C18: the buffer of GGTT updates loses nothing. Whatever entries a VF updates, in whatever
    order, the messages it has sent once it flushes its buffer, read as the ABI says (a mode, a
    number of copies, the entries), stand for exactly these updates, each page with its
    attributes at its place, in the order they were made; every message fits its fields and
    carries no more entries than the transport takes; the buffer is empty. *)
Theorem buffered_updates_all `{T : VfTransport W} ct us (v : vf_iov W) :
  (forall w, intel_guc_ct_enabled w = ct) -> b_ptes (f_buffer v) = [] ->
  let '(_, v') := (vf_updates us ≫= fun _ => intel_iov_ggtt_vf_flush_ptes) v in
  b_ptes (f_buffer v') = [] /\
 exists msgs, f_sent v' = f_sent v ++ msgs /\ Forall (msg_ok (max_ptes ct)) msgs /\
   msgs ≫= msg_updates = asked_for (f_config v) us.
Proof.
  intros Hct He. apply wp_let.
  eapply wp_mono; [apply (wp_updates_flushed ct Hct (fun _ => True) (fun _ => True) (fun _ _ => True))|]; try done.
  - by apply Forall_true.
  - by apply Forall_true.
  - intros u v' (H1 & _ & msgs & H2 & H3 & H4 & _). split; [done|]. by exists msgs.
Qed.
