(* ===== verification/VfPair.v ===== *)
(** * A VF and its PF together

    The interface below the VF (VfIov.v) implemented by the PF's side: a relayed request is a
    notification of GuC for [intel_iov_relay_process_guc2pf], which runs the services of the PF
    on the PF's state, and the message it sends is the response. *)

From S2P Require Export VfPtes RelayWait.

Section pair.
Context `{E : Env} `{R : RelayEnv} `{P : ServiceEnv}.

(** ** The transport *)

(** GuC's notification of a message that VF [origin] relayed. *)
Definition guc2pf_event (origin relay_id : Z) (data : list Z) : list Z :=
  [Z.lor (Z.lor (FIELD_PREP GUC_HXG_MSG_0_ORIGIN GUC_HXG_ORIGIN_GUC)
                (FIELD_PREP GUC_HXG_MSG_0_TYPE GUC_HXG_TYPE_EVENT))
         (FIELD_PREP GUC_HXG_EVENT_MSG_0_ACTION GUC_ACTION_GUC2PF_RELAY_FROM_VF);
   origin; relay_id] ++ data.

(** What the VF's call returns for what the PF sent to it ([deliver], [wait_step]): nothing
    until the timeout, the response, or the error of a failure. *)
Definition answer_of (room : nat) (sent : list (list Z * Z)) : Z * list Z :=
  match last (filter (fun m => 0 <= m.2) sent) with
  | None => (- ETIME, [])
  | Some (m, _) =>
      let body := drop PF2GUC_RELAY_TO_VF_REQUEST_MSG_MIN_LEN m in
      if msg_type body =? GUC_HXG_TYPE_RESPONSE_SUCCESS then
        if (room <? length body)%nat then (- ENOBUFS, [])
        else (Z.of_nat (length body), FIELD_GET GUC_HXG_RESPONSE_MSG_0_DATA0 (body.[0%nat | 0]) :: tail body)
      else if msg_type body =? GUC_HXG_TYPE_RESPONSE_FAILURE then
        (- elvis (FIELD_GET GUC_HXG_FAILURE_MSG_0_ERROR (body.[0%nat | 0])) ERFKILL, [])
      else (- ETIME, [])
  end.

Context (g : gt_id) (origin : Z).

Definition relayed (req : list Z) (room : nat) : st iov_state (Z * list Z) :=
  nb ← gets s_nb;
  intel_iov_relay_process_guc2pf g (guc2pf_event origin 1 req) ≫= fun _ =>
  gets (fun s => answer_of room (drop (length nb) (s_nb s))).

(** The MMIO mailbox is not used here: it refuses every request. *)
Definition pf_below : VfTransport iov_state := {|
  intel_guc_send_mmio _ _ := mret (- EIO, []);
  vf_send_to_pf := relayed;
  intel_guc_ct_enabled _ := true;
  krealloc_ok := mret true;
  crc32_le _ := 0;
  HAS_GMD_ID := false |}.

#[export] Instance pf_below_laws : VfTransportLaws pf_below.
Proof.
  constructor; [by left|]. intros req room s. cbn. unfold relayed, mbind, st_bind, gets.
  destruct (intel_iov_relay_process_guc2pf g _ s) as [? s1]. unfold answer_of.
  destruct (last _) as [[m r]|]; [|by left]. set (body := drop _ m).
  destruct (Z.eqb_spec (msg_type body) GUC_HXG_TYPE_RESPONSE_SUCCESS) as [Hty|].
  - destruct (Nat.ltb_spec room (length body)); [by left|]. right.
    destruct body; [by vm_compute in Hty|]. cbn in *. lia.
  - destruct (msg_type body =? GUC_HXG_TYPE_RESPONSE_FAILURE); [|by left]. left. unfold elvis, ERFKILL.
    pose proof (FIELD_GET_range GUC_HXG_FAILURE_MSG_0_ERROR 16 0 (body.[0%nat | 0])).
    destruct (Z.eqb_spec (FIELD_GET GUC_HXG_FAILURE_MSG_0_ERROR (body.[0%nat | 0])) 0); lia.
Qed.

(** ** One request *)

Context `{!RelayEnvLaws R} `{!TransportWorks R} (Hpf : iov_mode = I915_IOV_MODE_SRIOV_PF) (Ho : 0 < origin < 8).

(** The requests of this file: from the host, not longer than the relay takes. *)
Definition request_ok (req : list Z) : Prop :=
  FIELD_GET GUC_HXG_MSG_0_ORIGIN (req.[0%nat | 0]) = GUC_HXG_ORIGIN_HOST /\
  msg_type req = GUC_HXG_TYPE_REQUEST /\ (1 <= length req <= VF2PF_MSG_MAX_LEN)%nat.

(** The PF answered with the success response [body]. *)
Definition answered (s : iov_state) (body : list Z) (ret : Z) (s' : iov_state) : Prop :=
  ret = 0 /\ s_nb s' = s_nb s ++ [(pf_relay_request origin 1 body, 0)] /\
  msg_type body = GUC_HXG_TYPE_RESPONSE_SUCCESS.

Lemma wp_relayed req room body (Q : Z * list Z -> iov_state -> Prop) s :
  request_ok req -> (length body <= room)%nat ->
  wp (intel_iov_service_process_msg g origin 1 req) (fun ret s' => answered s body ret s' /\
    Q (Z.of_nat (length body), FIELD_GET GUC_HXG_RESPONSE_MSG_0_DATA0 (body.[0%nat | 0]) :: tail body) s') s ->
  wp (relayed req room) Q s.
Proof using Hpf Ho.
  intros (Hhost & Hty & Hl1 & Hl2) Hroom Hserv. apply wp_bind, wp_gets, wp_bind.
  unfold intel_iov_relay_process_guc2pf. rewrite bool_decide_eq_true_2 by done. cbn [negb].
  assert (length (guc2pf_event origin 1 req) = 3 + length req)%nat as Hlen by done.
  rewrite Hlen, (proj2 (Nat.ltb_ge _ _)), (proj2 (Nat.ltb_ge _ _)) by
    (unfold GUC2PF_RELAY_FROM_VF_EVENT_MSG_MAX_LEN, GUC2PF_RELAY_FROM_VF_EVENT_MSG_MIN_LEN, GUC_HXG_EVENT_MSG_MIN_LEN; lia).
  change (FIELD_GET GUC_HXG_EVENT_MSG_0_DATA0 ((guc2pf_event origin 1 req).[0%nat | 0])) with 0. cbn [negb Z.eqb].
  change ((guc2pf_event origin 1 req).[1%nat | 0]) with origin.
  change (FIELD_GET GUC_HXG_MSG_n_PAYLOAD ((guc2pf_event origin 1 req).[2%nat | 0])) with 1.
  change (drop GUC2PF_RELAY_FROM_VF_EVENT_MSG_MIN_LEN (guc2pf_event origin 1 req)) with req.
  assert (FIELD_GET GUC_HXG_MSG_n_PAYLOAD origin = origin) as ->.
  { rewrite (FIELD_GET_mod _ 32 0), Z.div_1_r, Z.mod_small by (change (2 ^ 32) with 4294967296; lia). done. }
  rewrite (proj2 (Z.eqb_neq origin 0)) by lia.
  unfold relay_process_msg. rewrite (proj2 (Nat.ltb_ge _ _)), Hhost by lia. cbn [negb Z.eqb].
  fold (msg_type req). rewrite Hty. cbn [Z.eqb GUC_HXG_TYPE_REQUEST].
  unfold relay_handle_request. rewrite decide_True by done. apply wp_bind.
  eapply wp_mono; [exact Hserv|]. intros ret s' ((-> & Hnb & Hsucc) & HQ). cbn [Z.ltb Z.compare].
  apply wp_ret, wp_gets. rewrite Hnb, drop_app_length. unfold answer_of. cbn [filter list_filter].
  rewrite decide_True by done. cbn [last]. 
  change (drop PF2GUC_RELAY_TO_VF_REQUEST_MSG_MIN_LEN (pf_relay_request origin 1 body)) with body.
  rewrite Hsucc, Z.eqb_refl, (proj2 (Nat.ltb_ge _ _)) by lia. exact HQ.
Qed.

(** ** The runtime registers *)

Lemma decode_stored body : body <> [] ->
  decode_page (FIELD_GET GUC_HXG_RESPONSE_MSG_0_DATA0 (body.[0%nat | 0]) :: tail body) = decode_page body.
Proof using Type.
  intros Hb. destruct body as [|b body]; [done|]. unfold decode_page. cbn [lookup list_lookup tail default].
  change (id ?x) with x. f_equal. f_equal.
  change VF2PF_QUERY_RUNTIME_RESPONSE_MSG_0_COUNT with GUC_HXG_RESPONSE_MSG_0_DATA0.
  rewrite !(FIELD_GET_mod GUC_HXG_RESPONSE_MSG_0_DATA0 28 0), !Z.div_1_r. apply Z.mod_mod. lia.
Qed.

(** The page that starts at [start] has [page_count] registers. *)
Definition page_count (rt : intel_iov_runtime_regs) (start : nat) : nat := Nat.min (rt_size rt - start) runtime_limit.

Lemma wp_relayed_page start (Q : Z * list Z -> iov_state -> Prop) s :
  let rt := s_runtime s in
  let n := page_count rt start in
  rt_wf rt -> (start <= rt_size rt)%nat ->
  (forall resp s', s_runtime s' = rt -> s_dev s' = s_dev s -> length resp = (2 + 2 * n)%nat ->
     decode_page resp = (Z.of_nat n, Z.of_nat (rt_size rt - start - n), take n (drop start (rt_pairs rt))) ->
     Q (Z.of_nat (2 + 2 * n), resp) s') ->
  wp (relayed (runtime_request (Z.of_nat start)) VF2PF_QUERY_RUNTIME_RESPONSE_MSG_MAX_LEN) Q s.
Proof using Hpf Ho RelayEnvLaws0 TransportWorks0.
  intros rt n Hwf Hst HQ. pose proof Hwf as (_ & _ & Hsz). change (2 ^ 28) with 268435456 in Hsz.
  set (body := runtime_response rt start n).
  assert (length body = 2 + 2 * n)%nat as Hlen
    by (unfold body, runtime_response; rewrite length_app, runtime_entries_length; done).
  assert (n <= 9)%nat as Hn9 by (unfold n, page_count; change runtime_limit with 9%nat; lia).
  apply (wp_relayed _ _ body).
  { split; [done|]. split; [done|]. cbn. change VF2PF_MSG_MAX_LEN with 252%nat. lia. }
  { rewrite Hlen. change VF2PF_QUERY_RUNTIME_RESPONSE_MSG_MAX_LEN with 20%nat. lia. }
  unfold intel_iov_service_process_msg. rewrite (proj2 (Z.eqb_neq origin 0)) by lia.
  change (FIELD_GET GUC_HXG_REQUEST_MSG_0_ACTION ((runtime_request (Z.of_nat start)).[0%nat | 0])) with IOV_ACTION_VF2PF_QUERY_RUNTIME.
  cbn [Z.eqb IOV_ACTION_VF2PF_QUERY_RUNTIME IOV_ACTION_VF2PF_HANDSHAKE Pos.eqb].
  assert (FIELD_GET VF2PF_QUERY_RUNTIME_REQUEST_MSG_1_START ((runtime_request (Z.of_nat start)).[1%nat | 0]) = Z.of_nat start) as Hs.
  { unfold runtime_request. cbn [lookup list_lookup default]. change (id ?x) with x.
    apply (FIELD_GET_PREP_small _ 32 0). change (2 ^ 32) with 4294967296. lia. }
  apply wp_runtime_query; rewrite ?Hs, ?Nat2Z.id; [lia|done|fold rt; lia|].
  change (FIELD_GET VF2PF_QUERY_RUNTIME_REQUEST_MSG_0_LIMIT ((runtime_request (Z.of_nat start)).[0%nat | 0])) with 9.
  change (page_size (s_runtime s) 9 start) with (Nat.min (Nat.min (rt_size rt - start) 9) 9).
  replace (Nat.min (Nat.min (rt_size rt - start) 9) 9) with n by (unfold n, page_count; change runtime_limit with 9%nat; lia).
  fold rt body. intros k ret Hset. destruct (proj2 Hset _) as [-> ->]. split; [split_and!; [done|done|]|].
  - apply reply_header_type; [done|by apply FIELD_GET_PREP_disj].
  - rewrite Hlen. apply HQ; [done|done| |].
    + revert Hlen. clearbody body. destruct body; cbn [length tail]; lia.
    + rewrite decode_stored by (by destruct body). apply decode_runtime_response; [done|]. unfold n, page_count. lia.
Qed.

#[local] Existing Instance pf_below.

Lemma wp_below {A} (m : st iov_state A) (Q : A -> vf_iov iov_state -> Prop) v :
  wp m (fun a w => Q a (set_below w v)) (f_below v) -> wp (on_below m) Q v.
Proof using Type. unfold wp, on_below. by destruct (m (f_below v)). Qed.

(** The first [k] registers are in the VF's array, which has room for all. *)
Definition has_regs (rt : intel_iov_runtime_regs) (k : nat) (r : intel_iov_vf_runtime) : Prop :=
  regs_size r = Z.of_nat (rt_size rt) /\
   exists l, regs r = Some l /\ length l = rt_size rt /\ take k l = take k (rt_pairs rt).

Lemma length_rt_pairs rt : rt_wf rt -> length (rt_pairs rt) = rt_size rt.
Proof using Type. intros (H1 & H2 & _). unfold rt_pairs. rewrite length_zip_with. lia. Qed.

Lemma has_regs_all rt k r : rt_wf rt -> (rt_size rt <= k)%nat -> has_regs rt k r -> regs r = Some (rt_pairs rt).
Proof using Type.
  intros Hwf Hk (_ & l & -> & Hl & Ht). rewrite !take_ge in Ht by (rewrite ?length_rt_pairs; done || lia). by rewrite Ht.
Qed.

(** Another page. *)
Lemma has_regs_page rt k n r :
  rt_wf rt -> (k + n <= rt_size rt)%nat -> has_regs rt k r ->
  has_regs rt (k + n) {| regs_size := regs_size r;
    regs := list_inserts k (take n (drop k (rt_pairs rt))) <$> regs r |}.
Proof using Type.
  intros Hwf Hn (Hs & l & -> & Hl & Ht). pose proof (length_rt_pairs _ Hwf) as Hlen. split; [done|].
  eexists. split; [done|]. rewrite length_inserts. split; [done|]. apply list_eq. intros i.
  destruct (decide (i < k + n)%nat) as [Hi|Hi]; [|by rewrite !lookup_take_ge by lia].
  rewrite !lookup_take_lt by lia. destruct (decide (i < k)%nat) as [Hik|Hik].
  - rewrite list_lookup_inserts_lt by done. pose proof (f_equal (lookup i) Ht) as Hti.
    by rewrite !lookup_take_lt in Hti.
  - rewrite list_lookup_inserts by (rewrite ?length_take, ?length_drop; lia).
    rewrite lookup_take_lt, lookup_drop by lia. f_equal. lia.
Qed.

(** All registers are in the VF's array, and [o] is still what is known of overruns. *)
Definition all_regs (rt : intel_iov_runtime_regs) (o : bool) (ret : option Z) (v : vf_iov iov_state) : Prop :=
  ret = Some 0 /\ regs (f_runtime v) = Some (rt_pairs rt) /\ regs_size (f_runtime v) = Z.of_nat (rt_size rt) /\
  f_overrun v = o.

Lemma wp_runtime_pages fuel : forall start v,
  let rt := s_runtime (f_below v) in
  rt_wf rt -> (start <= rt_size rt)%nat -> (rt_size rt - start < fuel)%nat ->
  start = 0%nat \/ has_regs rt start (f_runtime v) ->
  wp (runtime_pages fuel (Z.of_nat start)) (all_regs rt (f_overrun v)) v.
Proof using Hpf Ho RelayEnvLaws0 TransportWorks0.
  induction fuel as [|fuel IH]; intros start v rt Hwf Hst Hfuel Hregs; [lia|].
  pose proof Hwf as (_ & _ & Hsz). change (2 ^ 28) with 268435456 in Hsz.
  set (n := page_count rt start).
  assert (start + n <= rt_size rt)%nat as Hn by (unfold n, page_count; lia).
  assert (n = 0%nat -> start = rt_size rt) as Hn0
    by (unfold n, page_count; change runtime_limit with 9%nat; lia).
  cbn [runtime_pages]. apply wp_bind, wp_below, wp_relayed_page; [done|done|]. intros resp s' Hrt Hd Hlen Hdec.
  fold rt n in Hrt, Hdec, Hlen |- *. rewrite Hdec.
  rewrite (proj2 (Z.ltb_ge _ 0)), (proj2 (Z.ltb_ge _ _)) by (change VF2PF_QUERY_RUNTIME_RESPONSE_MSG_MIN_LEN with 2%nat; lia).
  replace (Z.of_nat (2 + 2 * n) - Z.of_nat VF2PF_QUERY_RUNTIME_RESPONSE_MSG_MIN_LEN) with (Z.of_nat n * 2)
    by (change VF2PF_QUERY_RUNTIME_RESPONSE_MSG_MIN_LEN with 2%nat; lia).
  rewrite Z.mod_mul, Z.div_mul by done. cbn [negb Z.eqb]. rewrite Z.eqb_refl. cbn [negb].
  set (v1 := set_below s' v) in *.
  assert (u32 (Z.of_nat start + Z.of_nat n) = Z.of_nat (start + n)) as Hu by (rewrite u32_small; lia).
  rewrite Hu. assert (forall v2, f_overrun v2 = f_overrun v -> s_runtime (f_below v2) = rt -> has_regs rt start (f_runtime v2) ->
    wp (put_regs (Z.to_nat (Z.of_nat start)) (take n (drop start (rt_pairs rt))) ≫= fun _ =>
        if negb (Z.of_nat (rt_size rt - start - n) =? 0)
        then runtime_pages fuel (Z.of_nat (start + n)) else mret (Some 0))
      (all_regs rt (f_overrun v)) v2) as Hrest.
  { intros v2 Hov2 Hrt2 Hr2. apply wp_bind, wp_modify. rewrite Nat2Z.id.
    pose proof (has_regs_page rt start n _ Hwf Hn Hr2) as Hr3. set (v3 := note_overrun _ _) in *.
    assert (f_overrun v3 = f_overrun v2) as Hov.
    { destruct Hr2 as (_ & l & Hl & Hll & _). unfold v3. cbn [f_overrun note_overrun set_runtime]. rewrite Hl.
      cbn [default]. change (id l) with l. rewrite Hll, length_take, length_drop, length_rt_pairs by done.
      rewrite (proj2 (Nat.ltb_ge _ _)) by lia. apply orb_false_r. }
    rewrite <- Hov2, <- Hov. apply wp_if; intros Hrem; propify.
    - replace rt with (s_runtime (f_below v3)) by done.
      apply IH; cbn; rewrite ?Hrt2; [done|lia|lia|by right].
    - apply wp_ret. split; [done|]. split; [|by destruct Hr3].
      apply (has_regs_all rt (start + n)); [done|lia|exact Hr3]. }
  apply wp_bind. apply wp_if; intros Hs0; propify.
  - assert (start = 0%nat) as -> by lia.
    unfold vf_prepare_runtime_info. apply wp_bind, wp_below, wp_ret. cbn [negb].
    replace (Z.of_nat n + Z.of_nat (rt_size rt - 0 - n)) with (Z.of_nat (rt_size rt)) by lia.
    rewrite u32_small by lia. unfold roundup. rewrite Z.add_0_r, Z.div_1_r, Z.mul_1_r, u32_small by lia.
    unfold s32. rewrite u32_small, (proj2 (Z.ltb_lt (Z.of_nat (rt_size rt)) _)) by (change (2 ^ 31) with 2147483648; lia).
    apply wp_bind, wp_modify, wp_ret. rewrite (proj2 (Z.ltb_ge _ 0)) by lia. apply Hrest; [done|done|].
    split; [done|]. cbn. rewrite Nat2Z.id. eexists. split; [done|]. split; [|done].
    unfold resized. rewrite length_take, length_app, length_replicate. lia.
  - destruct Hregs as [->|Hregs]; [done|]. apply wp_gets. destruct Hregs as [Hsize Hregs].
    replace (regs_size (f_runtime v1)) with (Z.of_nat (rt_size rt)) by done.
    rewrite Z.gtb_ltb, (proj2 (Z.ltb_ge (Z.of_nat (rt_size rt)) (Z.of_nat (start + n)))) by lia. cbn [Z.ltb Z.compare]. by apply Hrest.
Qed.

(** C19: a VF that queries the runtime registers through the relay gets all of them. With a PF
    that serves it, [intel_iov_query_runtime] succeeds after at most one request per register
    and one more, and the VF's array holds every register that the PF shares, in order, with
    the value the PF holds, whatever the array held before; nothing is stored beyond its end. *)
Theorem query_runtime_complete v :
  let rt := s_runtime (f_below v) in
  rt_wf rt ->
  let '(ret, v') := intel_iov_query_runtime (S (rt_size rt)) false v in
  ret = Some 0 /\ regs (f_runtime v') = Some (rt_pairs rt) /\ regs_size (f_runtime v') = Z.of_nat (rt_size rt) /\
  f_overrun v' = f_overrun v.
Proof using Hpf Ho RelayEnvLaws0 TransportWorks0.
  intros rt Hwf. apply wp_let. unfold intel_iov_query_runtime. apply wp_bind, wp_ret. cbn [negb Z.eqb].
  apply (wp_runtime_pages _ 0); [done|lia|fold rt; lia|by left].
Qed.
End pair.
