(* ===== verification/VfMap.v ===== *)
(** * Mapping pages of a VF, end to end

    An update of the GGTT from [intel_iov_ggtt_vf_update_pte] in the VF, through its buffer and
    the relay (VfPair.v), to the page table that the PF writes: what arrives, and the one page
    that does not. *)

From S2P Require Export VfPair.

(** ** An update that the PF can do *)

Section works.
Context `{E : Env} (Halloc : forall n, env_alloc n = true) (Hbind : forall n, bind_fails_after n = None).

Lemma bind_batches_works fuel : forall offset vals d,
  (length vals <= fuel)%nat -> fst (bind_batches fuel offset vals d) = 1.
Proof using Hbind.
  induction fuel as [|fuel IH]; intros offset [|v vals] d Hf; try done; [cbn in Hf; lia|].
  cbn [bind_batches]. unfold mbind, st_bind, gets, modify. rewrite Hbind. apply IH.
  rewrite length_drop. cbn in *. unfold bind_batch. lia.
Qed.

Lemma wp_update_ptes_works vfid addr sg n pat (Q : Z -> dev -> Prop) d :
  is_u32 addr -> Z.of_nat (length sg) = n -> 0 < n ->
  (forall d', d_ptes d' = set_ptes (addr / PAGE_SIZE) ((fun a => Z.lor pat a) <$> sg) (d_ptes d) -> Q 0 d') ->
  wp (i915_ggtt_sgtable_update_ptes vfid addr (Some sg) n pat) Q d.
Proof using Hbind.
  intros Ha Hn Hpos HQ.
  assert (wp (i915_ggtt_sgtable_update_ptes vfid addr (Some sg) n pat) (fun ret _ => ret = 0) d) as H0.
  { assert (forall ret d1, ret <> 0 -> wp ((if (0 <? ret) && negb (vfid =? PFID)%nat
        then sgtable_update_shadow_ggtt vfid addr (Some sg) n pat else mret tt) ≫= fun _ =>
      mret (if negb (ret =? 0) then 0 else - EIO)) (fun ret _ => ret = 0) d1) as Hrest.
    { intros ret d1 Hr. rewrite (proj2 (Z.eqb_neq ret 0)) by done. apply wp_bind, wp_if; intros _; [|by apply wp_ret].
      unfold wp at 1. by destruct (sgtable_update_shadow_ggtt _ _ _ _ _ _). }
    apply wp_bind, wp_gets, wp_bind, wp_if; intros _.
    - unfold gen8_ggtt_bind_ptes.
      pose proof (bind_batches_works _ (Z.shiftr addr PAGE_SHIFT) (bind_values (Some sg) n pat) d (Nat.le_refl _)) as H1.
      unfold wp at 1. rewrite H1. by apply Hrest.
    - apply wp_bind, wp_modify, wp_ret, Hrest. cbn [default]. change (id sg) with sg. lia. }
  pose proof (wp_update_ptes vfid addr sg n pat (fun ret d' => exists m, (m <= length sg)%nat /\
    (ret = 0 -> m = length sg) /\
    d_ptes d' = set_ptes (addr / PAGE_SIZE) (take m ((fun a => Z.lor pat a) <$> sg)) (d_ptes d)) d Ha Hn) as H1.
  unfold wp in *. destruct H1 as (m & Hm & Hmax & Ht).
  { intros ret d' m Hm Hmax _ Ht. exists m. split_and!; [done|auto|done]. }
  rewrite H0. apply HQ. rewrite Ht, (Hmax H0), take_ge by (by rewrite length_fmap). done.
Qed.

Lemma wp_pf_update_works g vfid off mode copies ptes (Q : Z -> dev -> Prop) d :
  let r := ggtt_region (cfg d g vfid) in
  let count := Z.of_nat (length ptes) in
  region_ok g vfid d -> ptes <> [] -> 0 <= mode < 4 -> 0 <= off -> 0 <= copies -> copies + count < 65536 ->
  (off + count) * PAGE_SIZE <= size r ->
  (forall d', same_conf d d' ->
     d_ptes d' = set_ptes (start r / PAGE_SIZE + off)
       ((fun pg => Z.lor (prepare_pattern_pte (ptes.[0%nat | 0]) (Z.of_nat vfid)) (u64 (Z.shiftl pg.1 PAGE_SHIFT)))
          <$> msg_pages mode copies ptes) (d_ptes d) -> Q (copies + count) d') ->
  wp (intel_iov_ggtt_pf_update_vf_ptes g vfid off mode copies ptes) Q d.
Proof using Hbind Halloc.
  intros r count (H1 & H2 & H3 & H4 & H5) Hne Hm Ho Hc Hn Hin HQ.
  change (2 ^ 32) with 4294967296 in H3. fold r in H1, H2, H3, H4, H5.
  assert (1 <= count) as Hcnt by (unfold count; destruct ptes; [done|cbn; lia]).
  assert (forall x, 0 <= x < 2 ^ 60 -> u64 x = x) as Hu by (intros; apply u64_small; lia).
  change (2 ^ 60) with 1152921504606846976 in Hu. unfold PAGE_SIZE in *.
  pose proof (proj1 (pf_update_keeps g vfid off mode copies ptes d)) as Hconf.
  enough (wp (intel_iov_ggtt_pf_update_vf_ptes g vfid off mode copies ptes) (fun ret d' => same_conf d d' -> Q ret d') d)
    as Hw by (unfold wp in *; by apply Hw).
  apply wp_bind, wp_get_cfg. cbv zeta. unfold PAGE_SIZE. fold r count. rewrite (proj2 (Z.eqb_neq count 0)) by lia.
  assert (u64 (start r + off * 4096) = start r + off * 4096) as Ha by (apply Hu; lia).
  rewrite Ha, (Hu (_ + _ * 4096 - 1)), (Hu (start r + size r - 1)) by lia.
  rewrite Z.gtb_ltb, (proj2 (Z.ltb_ge (start r + size r - 1) _)) by lia.
  assert ((if negb (copies =? 0) then copies + count else count) = copies + count) as ->
    by (destruct (Z.eqb_spec copies 0); simpl; lia).
  apply wp_bind. unfold kvzalloc at 1, wp at 1. cbn [fst snd]. rewrite Halloc. cbn [negb].
  apply wp_bind. unfold kvzalloc at 1, wp at 1. cbn [fst snd]. rewrite Halloc. cbn [negb].
  rewrite expand_msg_pages, u16_small by (done || lia).
  apply wp_bind, wp_update_ptes_works; [unfold is_u32; change (2 ^ 32) with 4294967296; lia| |lia|].
  { rewrite length_fmap, length_msg_pages by (done || lia). done. }
  intros d' Ht. apply wp_ret. cbn [Z.ltb Z.compare]. intros Hs. apply HQ; [done|]. rewrite Ht.
  rewrite <- list_fmap_compose. cbn [d_ptes upd_hw]. unfold PAGE_SIZE.
  rewrite Z.div_add by lia. done.
Qed.
(** Entries that all have the same attributes are one range. *)
Lemma update_ranges_uniform g origin mode fl ptes : forall copies off updated range,
  range <> [] -> Forall (fun p => pte_flags p = fl) (range ++ ptes) ->
  update_ranges g origin mode copies off updated range ptes =
  update_ranges g origin mode copies off updated (range ++ ptes) [].
Proof.
  induction ptes as [|p ptes IH]; intros copies off updated range Hne Hfl; [by rewrite app_nil_r|].
  pose proof Hfl as Hfl'. rewrite Forall_app, Forall_cons in Hfl. destruct Hfl as (Hr & Hp & _).
  cbn [update_ranges].
  assert (pte_flags (default 0 (last range)) = fl) as Hl.
  { destruct (exists_last Hne) as (range' & q & ->). rewrite last_snoc.
    apply Forall_app in Hr as [_ Hr]. rewrite Forall_singleton in Hr. exact Hr. }
  rewrite Hl, Hp, Z.eqb_refl. cbn [negb]. rewrite cons_middle, app_assoc in Hfl'.
  rewrite IH, <- app_assoc by (done || by destruct range). done.
Qed.
End works.

(** ** The request of an update *)

Lemma lookup_pairs {A B} (f h : A -> B) l i :
  (l ≫= fun x => [f x; h x]) !! (i * 2)%nat = f <$> l !! i /\
  (l ≫= fun x => [f x; h x]) !! (i * 2 + 1)%nat = h <$> l !! i.
Proof. revert l. induction i as [|i IH]; intros [|x l]; cbn; auto. Qed.

Lemma length_pairs {A B} (f h : A -> B) l : length (l ≫= fun x => [f x; h x]) = (2 * length l)%nat.
Proof. induction l as [|x l IH]; [done|]. cbn in *. lia. Qed.

Lemma length_update_request off mode copies ptes :
  length (update_request off mode copies ptes) = (2 + 2 * length ptes)%nat.
Proof. unfold update_request. cbn [length]. rewrite length_pairs. lia. Qed.

Lemma lookup_skip2 (a b : Z) l j : (a :: b :: l).[S (S j) | 0] = l.[j | 0].
Proof. done. Qed.

(** The PF reads the entries that the VF wrote. *)
Lemma read_update_request off mode copies ptes :
  Forall is_u64 ptes ->
  get_pte_from_msg (update_request off mode copies ptes) <$> seq 0 (length ptes) = ptes.
Proof.
  intros Hu. apply list_eq. intros i. rewrite list_lookup_fmap. destruct (decide (i < length ptes)%nat) as [Hi|Hi].
  2: { rewrite (proj2 (lookup_ge_None _ _)), (proj2 (lookup_ge_None ptes _)) by (rewrite ?length_seq; lia). done. }
  rewrite lookup_seq_lt by done. destruct (lookup_lt_is_Some_2 ptes i Hi) as [p Hp]. rewrite Hp. cbn [fmap option_fmap option_map].
  rewrite Forall_lookup in Hu. specialize (Hu i p Hp). f_equal. unfold get_pte_from_msg, update_request.
  rewrite Nat.add_0_l. replace (i * 2 + 2)%nat with (S (S (i * 2))) by lia. replace (i * 2 + 3)%nat with (S (S (i * 2 + 1))) by lia.
  rewrite !lookup_skip2.
  destruct (lookup_pairs (fun pte => FIELD_PREP VF2PF_UPDATE_GGTT32_REQUEST_DATAn_PTE_LO (lower_32_bits pte))
    (fun pte => FIELD_PREP VF2PF_UPDATE_GGTT32_REQUEST_DATAn_PTE_HI (upper_32_bits pte)) ptes i) as [H1 H2].
  rewrite H1, H2, Hp. cbn [fmap option_fmap option_map default].
  pose proof (u32_range p). pose proof (u32_range (Z.shiftr p 32)). unfold is_u32 in *.
  change (id ?x) with x. rewrite !(FIELD_GET_PREP_small _ 32 0) by (rewrite ?lower_32_bits_mod; done).
  by apply make_u64_split.
Qed.

(** The second dword of the request. *)
Lemma update_request_fields off mode copies ptes :
  0 <= off < 2 ^ 20 -> 0 <= mode < 4 -> 0 <= copies < 1024 ->
  let w := (update_request off mode copies ptes).[1%nat | 0] in
  FIELD_GET VF2PF_UPDATE_GGTT32_REQUEST_MSG_1_OFFSET w = off /\
  FIELD_GET VF2PF_UPDATE_GGTT32_REQUEST_MSG_1_MODE w = mode /\
  FIELD_GET VF2PF_UPDATE_GGTT32_REQUEST_MSG_1_NUM_COPIES w = copies.
Proof.
  intros Ho Hm Hc w. unfold w, update_request. cbn [lookup list_lookup default]. change (id ?x) with x.
  split_and!; field_simpl; done.
Qed.


(** ** What an entry of a VF becomes *)

(** The PF keeps the page and its attributes and adds the VF's identifier and the present bit. *)
Definition page_entry (vfid : Z) (pg : Z * Z) : Z :=
  Z.lor (Z.lor (FIELD_PREP MTL_GGTT_PTE_PAT_MASK pg.2) (i915_ggtt_prepare_vf_pte vfid)) (u64 (Z.shiftl pg.1 PAGE_SHIFT)).

(** Pages written to the entries from [base] on. *)
Definition write_pages (vfid base : Z) (us : list (Z * (Z * Z))) (t : Z -> Z) : Z -> Z :=
  foldl (fun t u => gen8_set_pte (base + u.1) (page_entry vfid u.2) t) t us.

Lemma FIELD_PREP_GET m w lo x : is_field m w lo -> FIELD_PREP m (FIELD_GET m x) = Z.land x m.
Proof.
  intros F. pose proof (field_lo (mask := m)). unfold FIELD_PREP, FIELD_GET. rewrite field_shf.
  apply Z.bits_inj'. intros n Hn. rewrite !Z.land_spec, Z.shiftl_spec by done.
  destruct (Z.testbit m n) eqn:Hm; [|by rewrite !andb_false_r]. rewrite !andb_true_r.
  assert (lo <= n).
  { destruct (Z.le_gt_cases lo n); [done|]. rewrite (field_eq (mask := m)), Z.shiftl_spec_low in Hm by done. done. }
  rewrite Z.shiftr_spec, Z.land_spec by lia. replace (n - lo + lo) with n by lia. by rewrite Hm, andb_true_r.
Qed.

Lemma pattern_of_page pte vfid :
  prepare_pattern_pte pte vfid =
    Z.lor (FIELD_PREP MTL_GGTT_PTE_PAT_MASK (page_of pte).2) (i915_ggtt_prepare_vf_pte vfid).
Proof. unfold prepare_pattern_pte, page_of. cbn [snd]. by erewrite FIELD_PREP_GET by apply PTE_PAT_field. Qed.

Lemma attributes_of_flags pte : (page_of pte).2 = FIELD_GET MTL_GGTT_PTE_PAT_MASK (pte_flags pte).
Proof. unfold page_of, pte_flags, FIELD_GET. cbn [snd]. by rewrite <- Z.land_assoc. Qed.

Lemma copy_pages_attributes n pg dup q : q ∈ copy_pages n pg dup -> q.2 = pg.2.
Proof. unfold copy_pages. intros (i & -> & _)%list_elem_of_fmap. by destruct dup. Qed.

Lemma msg_pages_attributes mode copies ptes a pg :
  ptes <> [] -> Forall (fun p => (page_of p).2 = a) ptes -> pg ∈ msg_pages mode copies ptes -> pg.2 = a.
Proof.
  intros Hne Ha. unfold msg_pages.
  assert (forall l, Forall (fun p => (page_of p).2 = a) l -> pg ∈ page_of <$> l -> pg.2 = a) as Hl.
  { intros l Hl (p & -> & Hp)%list_elem_of_fmap. rewrite Forall_forall in Hl. by apply Hl. }
  destruct (mode <? 2).
  - destruct ptes as [|p ptes]; [done|]. inversion_clear Ha as [|? ? Hp Hps].
    intros [Hc|Hc]%elem_of_app; [by rewrite (copy_pages_attributes _ _ _ _ Hc)|by eapply Hl].
  - destruct (exists_last Hne) as (l & p & ->). apply Forall_app in Ha as [Hps Hp].
    rewrite Forall_singleton in Hp. rewrite removelast_last, last_snoc.
    intros [Hc|Hc]%elem_of_app; [by eapply Hl|by rewrite (copy_pages_attributes _ _ _ _ Hc)].
Qed.

(** The entries of a message, one by one. *)
Lemma write_msg vfid base off mode copies ptes fl t :
  ptes <> [] -> Forall (fun p => pte_flags p = fl) ptes -> 0 <= off ->
  off + Z.of_nat (length (msg_pages mode copies ptes)) <= 2 ^ 32 ->
  set_ptes (base + off)
    ((fun pg => Z.lor (prepare_pattern_pte (ptes.[0%nat | 0]) vfid) (u64 (Z.shiftl pg.1 PAGE_SHIFT)))
       <$> msg_pages mode copies ptes) t =
  write_pages vfid base (msg_updates (off, mode, copies, ptes)) t.
Proof.
  intros Hne Hfl Ho Hend. unfold msg_updates.
  assert (Forall (fun p => (page_of p).2 = FIELD_GET MTL_GGTT_PTE_PAT_MASK fl) ptes) as Ha.
  { eapply Forall_impl; [exact Hfl|]. intros p <-. apply attributes_of_flags. }
  assert (forall pg, pg ∈ msg_pages mode copies ptes ->
    Z.lor (prepare_pattern_pte (ptes.[0%nat | 0]) vfid) (u64 (Z.shiftl pg.1 PAGE_SHIFT)) = page_entry vfid pg) as He.
  { intros pg Hpg. pose proof (msg_pages_attributes _ _ _ _ _ Hne Ha Hpg) as Hpa.
    unfold page_entry. rewrite pattern_of_page. f_equal. f_equal. f_equal. rewrite Hpa.
    destruct ptes as [|p ptes]; [done|]. by inversion_clear Ha. }
  revert off t Ho Hend He. generalize (msg_pages mode copies ptes). induction l as [|pg l IH]; intros off t Ho Hend He; [done|].
  cbn [length] in Hend. cbn [fmap list_fmap set_ptes]. rewrite <- Z.add_assoc.
  rewrite He by by left. change (set_ptes ?a (list_fmap _ _ ?f l)) with (set_ptes a (f <$> l)).
  rewrite IH by (lia || intros; apply He; by right). unfold placed. cbn [imap]. cbn [write_pages foldl fst snd].
  rewrite Z.add_0_r, u32_small by (change (2 ^ 32) with 4294967296 in *; lia). unfold write_pages. f_equal.
  apply imap_ext. intros i q _. cbn. do 2 f_equal. lia.
Qed.

(** ** From the VF to the page table *)

Section served.
Context `{E : Env} `{R : RelayEnv} `{P : ServiceEnv}.
Context (g : gt_id) (origin : Z).
Context `{!RelayEnvLaws R} `{!TransportWorks R}.
Context (Hpf : iov_mode = I915_IOV_MODE_SRIOV_PF) (Ho : 0 < origin < 8).
Context (Hbinder : require_binder = true) (Halloc : forall n, env_alloc n = true) (Hbind : forall n, bind_fails_after n = None).

Definition vf_region (d : dev) : drm_mm_node := ggtt_region (cfg d g (Z.to_nat origin)).
Definition vf_pages (d : dev) : Z := size (vf_region d) / PAGE_SIZE.
Definition vf_base (d : dev) : Z := start (vf_region d) / PAGE_SIZE.

(** The number of pages, in the terms of [region_ok]. *)
Lemma region_pages d : region_ok g (Z.to_nat origin) d ->
  size (vf_region d) = vf_pages d * PAGE_SIZE /\ start (vf_region d) = vf_base d * PAGE_SIZE /\
  0 <= vf_base d /\ 0 < vf_pages d <= 2 ^ 20.
Proof using Type.
  intros (H1 & H2 & H3 & [a Ha] & [b Hb]). fold (vf_region d) in *. unfold vf_pages, vf_base. rewrite Ha, Hb.
  unfold PAGE_SIZE in *. rewrite !Z.div_mul by done. change (2 ^ 20) with 1048576. change (2 ^ 32) with 4294967296 in H3. lia.
Qed.

Lemma wp_relayed_update fl off mode copies ptes (Q : Z * list Z -> iov_state -> Prop) s :
  region_ok g (Z.to_nat origin) (s_dev s) ->
  msg_ok VF2PF_UPDATE_GGTT_MAX_PTES (off, mode, copies, ptes) ->
  Forall is_u64 ptes -> Forall (fun p => pte_flags p = fl) ptes ->
  0 < off -> off + (copies + Z.of_nat (length ptes)) <= vf_pages (s_dev s) ->
  (forall ret s', same_conf (s_dev s) (s_dev s') ->
     d_ptes (s_dev s') = write_pages origin (vf_base (s_dev s)) (msg_updates (off, mode, copies, ptes)) (d_ptes (s_dev s)) ->
     Q ret s') ->
  wp (relayed g origin (update_request off mode copies ptes) VF2PF_UPDATE_GGTT32_RESPONSE_MSG_LEN) Q s.
Proof using All.
  intros Hreg (Hlen & Hm & Hc & _) Hu Hfl Hoff Hend HQ. pose proof (region_pages _ Hreg) as (Hsz & _ & _ & Hpg).
  change VF2PF_UPDATE_GGTT_MAX_PTES with 125%nat in Hlen. change (2 ^ 20) with 1048576 in Hpg.
  assert (ptes <> []) as Hne by (intros ->; cbn in Hlen; lia).
  assert (0 <= off < 2 ^ 20) as Hoff20 by (change (2 ^ 20) with 1048576; lia).
  destruct (update_request_fields off mode copies ptes Hoff20 Hm Hc) as (F1 & F2 & F3).
  pose proof (length_update_request off mode copies ptes) as Hl.
  pose proof (read_update_request off mode copies ptes Hu) as Hread.
  set (n := copies + Z.of_nat (length ptes)) in *.
  apply (wp_relayed g origin Hpf Ho _ _ (update_response n)).
  { split; [done|]. split; [done|]. rewrite Hl. change VF2PF_MSG_MAX_LEN with 252%nat. lia. }
  { done. }
  unfold intel_iov_service_process_msg. rewrite (proj2 (Z.eqb_neq origin 0)) by lia.
  change (FIELD_GET GUC_HXG_REQUEST_MSG_0_ACTION ((update_request off mode copies ptes).[0%nat | 0])) with IOV_ACTION_VF2PF_UPDATE_GGTT32.
  cbn [Z.eqb IOV_ACTION_VF2PF_UPDATE_GGTT32 IOV_ACTION_VF2PF_QUERY_RUNTIME IOV_ACTION_VF2PF_HANDSHAKE Pos.eqb].
  unfold pf_reply_update_ggtt. rewrite Hbinder. cbn [negb]. cbv zeta. rewrite F1, F2, F3, Hl.
  replace ((2 + 2 * length ptes - 2) / 2)%nat with (length ptes)
    by (rewrite Nat.add_comm, Nat.add_sub, Nat.mul_comm, Nat.div_mul; done).
  rewrite Hread.
  apply wp_if; intros Hg.
  { exfalso. revert Hg. rewrite !orb_true_iff, !negb_true_iff. intros [[[Hg|Hg]|Hg]|Hg].
    - by vm_compute in Hg.
    - apply Z.eqb_eq in Hg. rewrite Hg in F1. change (0 = off) in F1. lia.
    - apply Nat.ltb_lt in Hg. lia.
    - apply Nat.eqb_neq in Hg. apply Hg. replace (2 + 2 * length ptes)%nat with ((1 + length ptes) * 2)%nat by lia.
      by apply Nat.Div0.mod_mul. }
  rewrite (proj2 (Nat.ltb_ge VF2PF_UPDATE_GGTT_MAX_PTES _)) by (change VF2PF_UPDATE_GGTT_MAX_PTES with 125%nat; lia).
  apply wp_bind. rewrite (update_ranges_uniform _ _ _ fl), take_drop.
  2: { destruct ptes; [done|by intros]. }
  2: { by rewrite take_drop. }
  cbn [update_ranges]. apply wp_bind, wp_on_dev, wp_pf_update_works; fold (vf_region (s_dev s)); fold n; try done; try lia.
  { rewrite Hsz. apply Z.mul_le_mono_nonneg_r; [done|]. unfold n in *. lia. }
  intros d' Hconf Ht. rewrite Z2Nat.id in Ht by lia. apply wp_ret. cbn [Z.ltb Z.compare].
  rewrite (proj2 (Z.ltb_ge n 0)) by lia. rewrite Z.add_0_l, u16_small by lia.
  rewrite (proj2 (Z.ltb_ge n 0)) by lia.
  apply wp_reply; [lia|]. intros k ret Hset. destruct (proj2 Hset _) as [-> ->]. split; [split_and!; [done|done|]|].
  - apply reply_header_type; [done|by apply FIELD_GET_PREP_disj].
  - apply HQ; [done|]. cbn [s_dev with_nb with_dev]. rewrite Ht. fold (vf_base (s_dev s)).
    apply (write_msg _ _ _ _ _ _ fl); try done; [lia|]. rewrite length_msg_pages by (done || lia).
    change (2 ^ 32) with 4294967296. fold n. lia.
Qed.

#[local] Instance vf_below : VfTransport iov_state := pf_below g origin.

(** What the messages sent so far have done, from the state [s0] on. *)
Definition reached (s0 : iov_state) (msgs : list (Z * Z * Z * list Z)) (s : iov_state) : Prop :=
  same_conf (s_dev s0) (s_dev s) /\
  d_ptes (s_dev s) = write_pages origin (vf_base (s_dev s0)) (msgs ≫= msg_updates) (d_ptes (s_dev s0)).

(** The places of a message whose pages are all inside the region follow one another. *)
Lemma placed_inside n off pages :
  is_u32 off -> pages <> [] -> n <= 2 ^ 20 -> (length pages < 2048)%nat ->
  Forall (fun u => 0 < u.1 < n) (placed off pages) -> 0 < off /\ off + Z.of_nat (length pages) <= n.
Proof using Type.
  intros Hu Hne Hn Hl Hin. change (2 ^ 20) with 1048576 in Hn. rewrite Forall_lookup in Hin.
  assert (forall i, (i < length pages)%nat -> 0 < u32 (off + Z.of_nat i) < n) as Hi.
  { intros i Hi. destruct (lookup_lt_is_Some_2 pages i Hi) as [pg Hpg].
    apply (Hin i (u32 (off + Z.of_nat i), pg)). unfold placed. by rewrite list_lookup_imap, Hpg. }
  assert (0 < length pages)%nat as Hpos by (destruct pages; [done|cbn; lia]).
  pose proof (Hi 0%nat Hpos) as H0. rewrite Z.add_0_r, u32_small in H0 by done. split; [lia|].
  specialize (Hi (length pages - 1)%nat ltac:(lia)). rewrite u32_small in Hi by (change (2 ^ 32) with 4294967296; lia). lia.
Qed.

Lemma write_pages_app base us us' t :
  write_pages origin base (us ++ us') t = write_pages origin base us' (write_pages origin base us t).
Proof using Type. apply foldl_app. Qed.

(** The VF's function that sends the buffer. *)
Lemma wp_update_reaches fl s0 msgs v :
  let b := f_buffer v in
  region_ok g (Z.to_nat origin) (s_dev s0) -> reached s0 msgs (f_below v) ->
  buffer_ok VF2PF_UPDATE_GGTT_MAX_PTES b -> Forall (fun p => is_u64 p /\ pte_flags p = fl) (b_ptes b) ->
  Forall (fun u => 0 < u.1 < vf_pages (s_dev s0)) (msg_updates (buffer_msg b)) ->
  wp intel_iov_query_update_ggtt_ptes (fun _ v' => reached s0 (msgs ++ [buffer_msg b]) (f_below v')) v.
Proof using All.
  intros b Hreg [Hconf Ht] Hok Hgood Hin. pose proof (buffer_ok_msg _ _ Hok) as Hmsg.
  pose proof Hok as [Hne Hlen Hcop Hoff _]. apply Forall_and in Hgood as [Hu Hfl].
  change VF2PF_UPDATE_GGTT_MAX_PTES with 125%nat in Hlen.
  pose proof (region_pages _ Hreg) as (_ & _ & _ & Hpg).
  pose proof (length_msg_pages (sent_mode b) (b_num_copies b) (b_ptes b) (proj1 Hcop) Hne) as Hlm.
  assert (msg_pages (sent_mode b) (b_num_copies b) (b_ptes b) <> []) as Hmne.
  { intros He. rewrite He in Hlm. cbn in Hlm. destruct (b_ptes b); [done|]. cbn in Hlm. lia. }
  destruct (placed_inside _ _ _ Hoff Hmne (proj2 Hpg) ltac:(lia) Hin) as [Hpos Hend].
  assert (vf_pages (s_dev (f_below v)) = vf_pages (s_dev s0)) as Hp by (unfold vf_pages, vf_region; by rewrite (conf_cfg _ _ _ _ Hconf)).
  assert (vf_base (s_dev (f_below v)) = vf_base (s_dev s0)) as Hb by (unfold vf_base, vf_region; by rewrite (conf_cfg _ _ _ _ Hconf)).
  unfold intel_iov_query_update_ggtt_ptes. apply wp_bind, wp_gets, wp_bind, wp_modify, wp_bind, wp_modify.
  fold b (sent_mode b). apply wp_bind, wp_gets. cbn [intel_guc_ct_enabled vf_below pf_below negb].
  unfold intel_iov_query_update_ggtt_pte_relay.
  rewrite (proj2 (Nat.ltb_ge (length (b_ptes b)) 1)) by (destruct (b_ptes b); [done|cbn; lia]).
  apply wp_bind, wp_below, (wp_relayed_update fl); cbn [f_below set_below add_sent set_buffer]; try done.
  - by eapply region_ok_conf.
  - rewrite Hp, <- Hlm. done.
  - intros [ret resp] s' Hconf' Ht'. rewrite Hb in Ht'.
    assert (reached s0 (msgs ++ [buffer_msg b]) s') as Hr.
    { split; [by etransitivity|]. rewrite bind_app, write_pages_app, <- Ht, Ht'. cbn [mbind list_bind]. by rewrite app_nil_r. }
    apply wp_if; intros _; by apply wp_ret.
Qed.

(** The entries that the offsets of the region name. *)
Lemma asked_for_region d c us :
  region_ok g (Z.to_nat origin) d -> ggtt_base c = start (vf_region d) ->
  Forall (fun u => start (vf_region d) + PAGE_SIZE <= u.1 < start (vf_region d) + size (vf_region d)) us ->
  Forall (fun u => 0 < u.1 < vf_pages d) (asked_for c us) /\
  forall t, write_pages origin (vf_base d) (asked_for c us) t =
    foldl (fun t u => gen8_set_pte (u.1 / PAGE_SIZE) (page_entry origin (page_of u.2)) t) t us.
Proof using Type.
  intros Hreg Hb Hin. pose proof (region_pages _ Hreg) as (Hsz & Hst & Hb0 & Hpg).
  destruct Hreg as (_ & _ & Hend & _). fold (vf_region d) in Hend.
  change (2 ^ 32) with 4294967296 in Hend. change (2 ^ 20) with 1048576 in Hpg.
  assert (forall off, start (vf_region d) + PAGE_SIZE <= off < start (vf_region d) + size (vf_region d) ->
    pte_index c off = off / PAGE_SIZE - vf_base d /\ 0 < off / PAGE_SIZE - vf_base d < vf_pages d) as Hi.
  { intros off Hoff. assert (0 < off / PAGE_SIZE - vf_base d < vf_pages d) as Hr.
    { rewrite Hsz, Hst in Hoff. unfold PAGE_SIZE in *. dlia. }
    split; [|done]. unfold pte_index. unfold PAGE_SIZE in *.
    rewrite (u32_small off) by (change (2 ^ 32) with 4294967296; lia).
    rewrite !Z.shiftr_div_pow2 by done. change (2 ^ PAGE_SHIFT) with 4096. rewrite Hb, Hst, Z.div_mul by done.
    apply u32_small. change (2 ^ 32) with 4294967296. lia. }
  induction us as [|[off pte] us IH]; [by split|]. inversion_clear Hin as [|? ? Hoff Hus].
  destruct (IH Hus) as [IH1 IH2]. destruct (Hi _ Hoff) as [Hx Hr]. cbn [fst] in Hx, Hr. cbn [asked_for fmap list_fmap].
  split.
  - constructor; [cbn [fst]; by rewrite Hx|done].
  - intros t. cbn [write_pages foldl fst snd]. rewrite Hx, Z.add_sub_assoc, Z.add_comm, Z.add_simpl_r. apply IH2.
Qed.

(** Updates that are flushed are in the page table, in the order they were made. *)
Lemma wp_updates_reach fl us v :
  let d := s_dev (f_below v) in
  region_ok g (Z.to_nat origin) d -> ggtt_base (f_config v) = start (vf_region d) -> b_ptes (f_buffer v) = [] ->
  Forall (fun u => start (vf_region d) + PAGE_SIZE <= u.1 < start (vf_region d) + size (vf_region d)) us ->
  Forall (fun p => is_u64 p /\ pte_flags p = fl) us.*2 ->
  wp (vf_updates us ≫= fun _ => intel_iov_ggtt_vf_flush_ptes) (fun _ v' =>
    let d' := s_dev (f_below v') in
    d_ptes d' = foldl (fun t u => gen8_set_pte (u.1 / PAGE_SIZE) (page_entry origin (page_of u.2)) t) (d_ptes d) us /\
    same_conf d d' /\ b_ptes (f_buffer v') = []) v.
Proof using All.
  intros d Hreg Hb He Hin Hgood. destruct (asked_for_region d _ us Hreg Hb Hin) as [Hplace Hw].
  eapply wp_mono; [apply (wp_updates_flushed true ltac:(done) (fun p => is_u64 p /\ pte_flags p = fl) (fun u => 0 < u.1 < vf_pages d)
      (fun msgs s => reached (f_below v) msgs s)); try done|].
  { intros v1 msgs Hr Hok Hg Hpl. by apply (wp_update_reaches fl). }
  intros u v' (He' & _ & msgs & _ & _ & Hmsgs & Hconf & Ht). split_and!; [|done|done]. by rewrite Ht, Hmsgs.
Qed.

Lemma imap_snd (f : nat -> Z) (l : list Z) : (imap (fun i p => (f i, p)) l).*2 = l.
Proof using Type. revert f. induction l as [|p l IH]; intros f; [done|]. cbn. f_equal. apply (IH (f ∘ S)). Qed.

(** The updates of a VMA, page by page. *)
Lemma update_all_updates gte ptes : 0 <= gte -> gte + PAGE_SIZE * Z.of_nat (length ptes) < 2 ^ 64 ->
  update_all gte ptes = vf_updates (imap (fun i pte => (gte + PAGE_SIZE * Z.of_nat i, pte)) ptes).
Proof using Type.
  revert gte. induction ptes as [|p ptes IH]; intros gte Hg Hn; [done|]. cbn [length] in Hn.
  cbn [update_all imap vf_updates]. unfold PAGE_SIZE in *. rewrite Z.mul_0_r, Z.add_0_r, u64_small, IH by lia.
  erewrite imap_ext; [done|]. intros i q _. cbn. f_equal. lia.
Qed.

Lemma set_ptes_imap gte es t : (PAGE_SIZE | gte) ->
  foldl (fun t u => gen8_set_pte (u.1 / PAGE_SIZE) (page_entry origin (page_of u.2)) t) t
    (imap (fun i pte => (gte + PAGE_SIZE * Z.of_nat i, pte)) es) =
  set_ptes (gte / PAGE_SIZE) ((fun p => page_entry origin (page_of p)) <$> es) t.
Proof using Type.
  revert gte t. induction es as [|p es IH]; intros gte t [a ->]; [done|]. cbn [imap foldl fst snd fmap list_fmap set_ptes].
  rewrite Z.mul_0_r, Z.add_0_r. change (list_fmap Z Z ?f es) with (f <$> es).
  replace (a * PAGE_SIZE / PAGE_SIZE + 1) with ((a + 1) * PAGE_SIZE / PAGE_SIZE) by (unfold PAGE_SIZE; rewrite !Z.div_mul; done).
  rewrite <- IH by by exists (a + 1). f_equal. apply imap_ext. intros i q _. cbn. f_equal. lia.
Qed.

(** C16: a VF maps pages through its PF. On a device with a binder, as long as it and the
    allocations of the PF do not fail, [ggtt_insert_entries_vf_relay_wa], in a VF whose PF
    serves it, for a VMA inside the VF's region and behind its first page, all entries of which
    have the same attributes: whatever the buffer merges and however often it is sent, the page
    table afterwards holds, from the VMA's guard on, the entry of every page (scratch for the
    guards and the rest of the node), with the VF's identifier, the present bit and the
    attributes the VF gave; no other entry and no configuration changes. *)
Theorem vma_reaches_table vma_start guard node_size pte_encode scratch addrs fl v :
  let d := s_dev (f_below v) in
  let pages := Z.to_nat (guard / PAGE_SIZE) in
  let total := Z.to_nat ((guard + node_size + guard) / PAGE_SIZE) in
  let entries := replicate pages scratch ++ ((fun addr => Z.lor pte_encode addr) <$> addrs) ++
                 replicate (total - pages - length addrs) scratch in
  region_ok g (Z.to_nat origin) d -> ggtt_base (f_config v) = start (vf_region d) -> b_ptes (f_buffer v) = [] ->
  (PAGE_SIZE | vma_start - guard) -> start (vf_region d) + PAGE_SIZE <= vma_start - guard ->
  vma_start - guard + PAGE_SIZE * Z.of_nat (length entries) <= start (vf_region d) + size (vf_region d) ->
  Forall (fun p => is_u64 p /\ pte_flags p = fl) entries ->
  let '(_, v') := ggtt_insert_entries_vf_relay_wa vma_start guard node_size pte_encode scratch addrs v in
  let d' := s_dev (f_below v') in
  d_ptes d' = set_ptes ((vma_start - guard) / PAGE_SIZE) ((fun p => page_entry origin (page_of p)) <$> entries) (d_ptes d) /\
  same_conf d d' /\ b_ptes (f_buffer v') = [].
Proof using All.
  intros d pages total entries Hreg Hb He Hal Hlo Hhi Hgood. apply wp_let. unfold ggtt_insert_entries_vf_relay_wa.
  fold pages total entries. pose proof Hreg as (H1 & _ & H3 & _). fold (vf_region d) in H1, H3.
  change (2 ^ 32) with 4294967296 in H3. unfold PAGE_SIZE in Hlo, Hhi.
  rewrite u64_small, update_all_updates by (unfold PAGE_SIZE; lia).
  rewrite <- set_ptes_imap by done. apply (wp_updates_reach fl); try done.
  - apply Forall_lookup. intros i [off p] (q & Hq & [= -> ->])%list_lookup_imap_Some. apply lookup_lt_Some in Hq.
    fold d. cbn [fst]. unfold PAGE_SIZE. lia.
  - by rewrite imap_snd.
Qed.

(** A request whose second dword is zero: the first page of the region, with no copies. *)
Lemma wp_relayed_first_page pte (Q : Z * list Z -> iov_state -> Prop) s :
  (forall a s', s_dev s' = s_dev s -> Q a s') ->
  wp (relayed g origin (update_request 0 0 0 [pte]) VF2PF_UPDATE_GGTT32_RESPONSE_MSG_LEN) Q s.
Proof using Hpf Ho Hbinder RelayEnvLaws0.
  intros HQ. apply wp_bind, wp_gets, wp_bind. eapply wp_mono; [|intros ret s' H; apply wp_gets, HQ; exact H].
  unfold intel_iov_relay_process_guc2pf. rewrite bool_decide_eq_true_2 by done. cbn [negb].
  change (length (guc2pf_event origin 1 (update_request 0 0 0 [pte]))) with 7%nat.
  rewrite (proj2 (Nat.ltb_ge 7 GUC2PF_RELAY_FROM_VF_EVENT_MSG_MIN_LEN)) by (change GUC2PF_RELAY_FROM_VF_EVENT_MSG_MIN_LEN with 3%nat; lia).
  rewrite (proj2 (Nat.ltb_ge GUC2PF_RELAY_FROM_VF_EVENT_MSG_MAX_LEN 7)) by
    (unfold GUC2PF_RELAY_FROM_VF_EVENT_MSG_MAX_LEN; cbn; lia).
  change (FIELD_GET GUC_HXG_EVENT_MSG_0_DATA0 ((guc2pf_event origin 1 (update_request 0 0 0 [pte])).[0%nat | 0])) with 0.
  cbn [negb Z.eqb]. change ((guc2pf_event origin 1 (update_request 0 0 0 [pte])).[1%nat | 0]) with origin.
  apply wp_if; intros _; [by apply wp_ret|].
  change (drop GUC2PF_RELAY_FROM_VF_EVENT_MSG_MIN_LEN (guc2pf_event origin 1 (update_request 0 0 0 [pte])))
    with (update_request 0 0 0 [pte]).
  unfold relay_process_msg. change (length (update_request 0 0 0 [pte]) <? 1)%nat with false.
  change (FIELD_GET GUC_HXG_MSG_0_ORIGIN ((update_request 0 0 0 [pte]).[0%nat | 0])) with GUC_HXG_ORIGIN_HOST.
  change (FIELD_GET GUC_HXG_MSG_0_TYPE ((update_request 0 0 0 [pte]).[0%nat | 0])) with GUC_HXG_TYPE_REQUEST.
  rewrite !Z.eqb_refl. cbn [negb]. unfold relay_handle_request. rewrite decide_True by done.
  set (o := FIELD_GET GUC_HXG_MSG_n_PAYLOAD origin). set (id := FIELD_GET _ _).
  assert (wp (intel_iov_service_process_msg g o id (update_request 0 0 0 [pte])) (fun ret s' => ret < 0 /\ s_dev s' = s_dev s) s) as Hserv.
  { unfold intel_iov_service_process_msg.
    change (FIELD_GET GUC_HXG_REQUEST_MSG_0_ACTION ((update_request 0 0 0 [pte]).[0%nat | 0])) with IOV_ACTION_VF2PF_UPDATE_GGTT32.
    apply wp_if; intros _; [by apply wp_ret|].
    cbn [Z.eqb IOV_ACTION_VF2PF_UPDATE_GGTT32 IOV_ACTION_VF2PF_QUERY_RUNTIME IOV_ACTION_VF2PF_HANDSHAKE Pos.eqb].
    unfold pf_reply_update_ggtt. rewrite Hbinder. cbn [negb]. cbv zeta.
    change ((update_request 0 0 0 [pte]).[1%nat | 0]) with 0. rewrite Z.eqb_refl, orb_true_r. cbn [orb]. by apply wp_ret. }
  apply wp_bind. eapply wp_mono; [exact Hserv|]. intros ret s1 [Hneg Hd]. rewrite (proj2 (Z.ltb_lt _ _)) by done.
  apply wp_relay_send. intros k r _. exact Hd.
Qed.

(** The first page of a VF cannot be mapped alone. [ggtt_insert_page_vf_relay_wa] for the
    page at the base of the VF's GGTT sends a request whose second dword (offset, mode and
    copies, all zero) is zero; the PF takes that for a malformed message, and nobody looks at
    the error: the function ends as usual and the page table is what it was. *)
Theorem first_page_lost pte v :
  is_u32 (ggtt_base (f_config v)) -> b_ptes (f_buffer v) = [] ->
  let '(_, v') := ggtt_insert_page_vf_relay_wa pte (ggtt_base (f_config v)) v in
  b_ptes (f_buffer v') = [] /\ f_sent v' = f_sent v ++ [(0, 0, 0, [pte])] /\
  s_dev (f_below v') = s_dev (f_below v).
Proof using Hpf Ho Hbinder RelayEnvLaws0.
  intros Hb He. apply wp_let. unfold ggtt_insert_page_vf_relay_wa, intel_iov_ggtt_vf_update_pte.
  apply wp_bind. cbn [vf_update_pte]. apply wp_bind, wp_gets, wp_bind, wp_gets, wp_bind, wp_gets.
  unfold buffer_pte. rewrite He. cbn [length Nat.eqb]. apply wp_modify.
  rewrite (u32_small (ggtt_base _)), Z.sub_diag by done. change (u32 0) with 0.
  apply wp_bind, wp_gets. cbn [f_buffer set_buffer b_ptes length Nat.eqb]. unfold intel_iov_query_update_ggtt_ptes.
  apply wp_bind, wp_bind, wp_gets, wp_bind, wp_modify, wp_bind, wp_modify.
  cbn [f_buffer set_buffer b_ptes b_mode b_num_copies b_offset].
  change ((VF_RELAY_UPDATE_GGTT_MODE_INVALID =? VF_RELAY_UPDATE_GGTT_MODE_INVALID) && (0 =? 0)) with true. cbn iota.
  apply wp_bind, wp_gets. cbn [intel_guc_ct_enabled vf_below pf_below negb]. unfold intel_iov_query_update_ggtt_pte_relay.
  cbn [length Nat.ltb Nat.leb]. apply wp_bind, wp_below, wp_relayed_first_page. intros [ret resp] s' Hd.
  apply wp_if; intros _; apply wp_ret, wp_modify; done.
Qed.
End served.

(** ** Witnesses *)

Section witnesses.
#[local] Existing Instance sample_env_service.
#[local] Existing Instance sample_relay_env.
#[local] Existing Instance sample_service_env.
#[local] Instance sample_below : VfTransport iov_state := vf_below GT_PRIMARY 3.

(** VF 3, which has four pages from 0x300000 on, and its PF. *)
Definition sample_vf : vf_iov iov_state := {|
  f_below := sample_iov;
  f_config := {| abi_branch := 0; abi_major := 1; abi_minor := 1; abi_patch := 0; ggtt_base := 0x300000; ggtt_size := 0x4000;
                 vf_num_ctxs := 0; vf_num_dbs := 0 |};
  f_runtime := {| regs_size := 0; regs := None |};
  f_buffer := {| b_ptes := []; b_offset := 0; b_num_copies := 0; b_mode := VF_RELAY_UPDATE_GGTT_MODE_INVALID |};
  f_ip := {| ip_ver := 0; ip_rel := 0; ip_step := 0 |};
  f_sent := []; f_overrun := false |}.

(** Two updates of one page each, merged into one message with a copy. *)
Lemma buffered_updates_all_witness :
  let '(_, v') := (vf_updates [(0x301000, 0x5001); (0x302000, 0x5001)] ≫= fun _ =>
                   intel_iov_ggtt_vf_flush_ptes) sample_vf in
  exists msgs, f_sent v' = msgs /\ msgs ≫= msg_updates = [(1, (5, 0)); (2, (5, 0))].
Proof.
  pose proof (buffered_updates_all true [(0x301000, 0x5001); (0x302000, 0x5001)] sample_vf
    ltac:(done) ltac:(done)) as Hw.
  match goal with |- let '(_, _) := ?p in _ => destruct p as [u v'] end. destruct Hw as (_ & msgs & H1 & _ & H2).
  exists msgs. split; [exact H1|]. rewrite H2. by vm_compute.
Defined.

Lemma query_runtime_complete_witness :
  let '(ret, v') := intel_iov_query_runtime 18 false sample_vf in
  ret = Some 0 /\ length <$> regs (f_runtime v') = Some 17%nat.
Proof.
  pose proof (query_runtime_complete GT_PRIMARY 3 ltac:(done) ltac:(done) sample_vf ltac:(by vm_compute)) as Hw.
  change (S (rt_size _)) with 18%nat in Hw.
  destruct (intel_iov_query_runtime _ _ _) as [ret v']. destruct Hw as (-> & -> & _). by split.
Defined.

(** A VMA of one page with a guard page on each side. *)
Lemma vma_reaches_table_witness :
  let '(_, v') := ggtt_insert_entries_vf_relay_wa 0x302000 0x1000 0x1000 1 0x7001 [0x5000] sample_vf in
  (fun i => pte_addr (d_ptes (s_dev (f_below v')) (0x300 + i))) <$> [1; 2; 3] = [7; 5; 7].
Proof.
  pose proof (vma_reaches_table GT_PRIMARY 3 ltac:(done) ltac:(done) ltac:(done) ltac:(done) ltac:(done) 0x302000 0x1000 0x1000 1 0x7001
    [0x5000] 1 sample_vf sample_region_ok ltac:(done) ltac:(done) ltac:(by exists 0x301) ltac:(by vm_compute)
    ltac:(by vm_compute) ltac:(by repeat constructor)) as Hw.
  destruct (ggtt_insert_entries_vf_relay_wa _ _ _ _ _ _ _) as [u v']. destruct Hw as [-> _]. by vm_compute.
Defined.

Lemma first_page_lost_witness :
  let '(_, v') := ggtt_insert_page_vf_relay_wa 0x5001 0x300000 sample_vf in
  s_dev (f_below v') = s_dev sample_iov.
Proof.
  pose proof (first_page_lost GT_PRIMARY 3 ltac:(done) ltac:(done) ltac:(done) 0x5001 sample_vf ltac:(done) ltac:(done)) as Hw.
  destruct (ggtt_insert_page_vf_relay_wa _ _ _) as [u v']. by destruct Hw as (_ & _ & ->).
Defined.
End witnesses.
