(* ===== verification/Ctb.v ===== *)
(** * Command transport buffers

    The ring buffers through which the driver and GuC talk (gt/uc/intel_guc_ct.c): the
    descriptor and the dwords in shared memory, the driver's local copies of head, tail and free
    space, and its two operations on them, writing a message and reading one. Each buffer
    implements a queue of dwords. *)

From S2P Require Export Fields.

(** ** ABI (guc_communication_ctb_abi.h) *)

Definition GUC_CTB_STATUS_OVERFLOW : Z := 1.
Definition GUC_CTB_STATUS_UNDERFLOW : Z := 2.
Definition GUC_CTB_STATUS_UNUSED : Z := 8.
Definition GUC_CTB_HDR_LEN : nat := 1.
Definition GUC_CTB_MSG_MIN_LEN : nat := GUC_CTB_HDR_LEN.
Definition GUC_CTB_MSG_0_FENCE : Z := 0xffff0000.
Definition GUC_CTB_MSG_0_FORMAT : Z := 0xf000.
Definition GUC_CTB_FORMAT_HXG : Z := 0.
Definition GUC_CTB_MSG_0_NUM_DWORDS : Z := 0xff.
Definition GUC_CTB_MAX_DWORDS : nat := 255.
Definition GUC_CTB_HXG_MAX_DWORDS : nat := GUC_CTB_MAX_DWORDS.
Definition GUC_CTB_HXG_MSG_MIN_LEN : nat := GUC_CTB_MSG_MIN_LEN + 1.
Definition GUC_CTB_HXG_MSG_MAX_LEN : nat := GUC_CTB_MSG_MIN_LEN + GUC_CTB_HXG_MAX_DWORDS.

#[export] Instance CTB_FENCE_field : is_field GUC_CTB_MSG_0_FENCE 16 16.
Proof. solve_field. Qed.
#[export] Instance CTB_FORMAT_field : is_field GUC_CTB_MSG_0_FORMAT 4 12.
Proof. solve_field. Qed.
#[export] Instance CTB_NUM_DWORDS_field : is_field GUC_CTB_MSG_0_NUM_DWORDS 8 0.
Proof. solve_field. Qed.

Definition INTEL_GUC_CT_SEND_NB : Z := 0x80000000.
Definition INTEL_GUC_CT_SEND_G2H_DW_MASK : Z := 0xff.

Definition EPIPE : Z := 32.

(** [linux/circ_buf.h]: the used and the free elements of a ring of [size] elements, a power of
    two, between [tail] and [head]. *)
Definition CIRC_CNT (head tail size : Z) : Z := Z.land (u32 (head - tail)) (size - 1).
Definition CIRC_SPACE (head tail size : Z) : Z := CIRC_CNT tail (head + 1) size.

(** ** State *)

Record guc_ct_buffer_desc := { desc_head : Z; desc_tail : Z; desc_status : Z }.

(** [ctb_cmds] and [ctb_desc] are the memory that is shared with GuC. *)
Record intel_guc_ct_buffer := {
  ctb_desc : guc_ct_buffer_desc;
  ctb_cmds : list Z;
  ctb_size : Z;
  ctb_resv_space : Z;
  ctb_tail : Z;
  ctb_head : Z;
  ctb_space : Z;
  ctb_broken : bool;
}.

Definition set_ctb_desc (d : guc_ct_buffer_desc) (b : intel_guc_ct_buffer) : intel_guc_ct_buffer :=
  {| ctb_desc := d; ctb_cmds := ctb_cmds b; ctb_size := ctb_size b; ctb_resv_space := ctb_resv_space b;
     ctb_tail := ctb_tail b; ctb_head := ctb_head b; ctb_space := ctb_space b; ctb_broken := ctb_broken b |}.
Definition set_ctb_cmds (l : list Z) (b : intel_guc_ct_buffer) : intel_guc_ct_buffer :=
  {| ctb_desc := ctb_desc b; ctb_cmds := l; ctb_size := ctb_size b; ctb_resv_space := ctb_resv_space b;
     ctb_tail := ctb_tail b; ctb_head := ctb_head b; ctb_space := ctb_space b; ctb_broken := ctb_broken b |}.
Definition set_ctb_tail (t : Z) (b : intel_guc_ct_buffer) : intel_guc_ct_buffer :=
  {| ctb_desc := ctb_desc b; ctb_cmds := ctb_cmds b; ctb_size := ctb_size b; ctb_resv_space := ctb_resv_space b;
     ctb_tail := t; ctb_head := ctb_head b; ctb_space := ctb_space b; ctb_broken := ctb_broken b |}.
Definition set_ctb_head (h : Z) (b : intel_guc_ct_buffer) : intel_guc_ct_buffer :=
  {| ctb_desc := ctb_desc b; ctb_cmds := ctb_cmds b; ctb_size := ctb_size b; ctb_resv_space := ctb_resv_space b;
     ctb_tail := ctb_tail b; ctb_head := h; ctb_space := ctb_space b; ctb_broken := ctb_broken b |}.
Definition set_ctb_space (n : Z) (b : intel_guc_ct_buffer) : intel_guc_ct_buffer :=
  {| ctb_desc := ctb_desc b; ctb_cmds := ctb_cmds b; ctb_size := ctb_size b; ctb_resv_space := ctb_resv_space b;
     ctb_tail := ctb_tail b; ctb_head := ctb_head b; ctb_space := n; ctb_broken := ctb_broken b |}.
Definition set_ctb_broken (b : intel_guc_ct_buffer) : intel_guc_ct_buffer :=
  {| ctb_desc := ctb_desc b; ctb_cmds := ctb_cmds b; ctb_size := ctb_size b; ctb_resv_space := ctb_resv_space b;
     ctb_tail := ctb_tail b; ctb_head := ctb_head b; ctb_space := ctb_space b; ctb_broken := true |}.

Definition with_desc_head (h : Z) (d : guc_ct_buffer_desc) : guc_ct_buffer_desc :=
  {| desc_head := h; desc_tail := desc_tail d; desc_status := desc_status d |}.
Definition with_desc_tail (t : Z) (d : guc_ct_buffer_desc) : guc_ct_buffer_desc :=
  {| desc_head := desc_head d; desc_tail := t; desc_status := desc_status d |}.
Definition add_desc_status (s : Z) (d : guc_ct_buffer_desc) : guc_ct_buffer_desc :=
  {| desc_head := desc_head d; desc_tail := desc_tail d; desc_status := Z.lor (desc_status d) s |}.

(** ** Operations *)

Definition guc_ct_buffer_desc_init : guc_ct_buffer_desc := {| desc_head := 0; desc_tail := 0; desc_status := 0 |}.

Definition guc_ct_buffer_reset (b : intel_guc_ct_buffer) : intel_guc_ct_buffer :=
  {| ctb_desc := guc_ct_buffer_desc_init; ctb_cmds := ctb_cmds b; ctb_size := ctb_size b;
     ctb_resv_space := ctb_resv_space b; ctb_tail := 0; ctb_head := 0;
     ctb_space := s32 (CIRC_SPACE 0 0 (ctb_size b) - ctb_resv_space b); ctb_broken := false |}.

(** [cmds] is the memory that the buffer is put in. *)
Definition guc_ct_buffer_init (cmds : list Z) (size_in_bytes resv_space : Z) : intel_guc_ct_buffer :=
  guc_ct_buffer_reset
    {| ctb_desc := guc_ct_buffer_desc_init; ctb_cmds := cmds; ctb_size := size_in_bytes / 4;
       ctb_resv_space := resv_space / 4; ctb_tail := 0; ctb_head := 0; ctb_space := 0; ctb_broken := false |}.

(** The dwords [ws] stored from element [tail] on, and the element behind them. *)
Fixpoint put_words (ws : list Z) (tail size : Z) (cmds : list Z) : Z * list Z :=
  match ws with
  | [] => (tail, cmds)
  | w :: ws => put_words ws ((tail + 1) mod size) size (<[Z.to_nat tail := w]> cmds)
  end.

Definition ct_header (len : nat) (fence : Z) : Z :=
  Z.lor (Z.lor (FIELD_PREP GUC_CTB_MSG_0_FORMAT GUC_CTB_FORMAT_HXG)
               (FIELD_PREP GUC_CTB_MSG_0_NUM_DWORDS (Z.of_nat len)))
        (FIELD_PREP GUC_CTB_MSG_0_FENCE fence).

Definition ct_hxg (flags action0 : Z) : Z :=
  let type := if negb (Z.land flags INTEL_GUC_CT_SEND_NB =? 0) then GUC_HXG_TYPE_FAST_REQUEST else GUC_HXG_TYPE_REQUEST in
  Z.lor (FIELD_PREP GUC_HXG_MSG_0_TYPE type)
        (FIELD_PREP (Z.lor GUC_HXG_REQUEST_MSG_0_ACTION GUC_HXG_REQUEST_MSG_0_DATA0) action0).

(** What is written for a request. *)
Definition ct_words (action : list Z) (fence flags : Z) : list Z :=
  ct_header (length action) fence :: ct_hxg flags (action.[0%nat | 0]) :: tail action.

Definition ct_write (action : list Z) (fence flags : Z) : st intel_guc_ct_buffer Z := fun b =>
  if negb (desc_status (ctb_desc b) =? 0) then (- EPIPE, set_ctb_broken b) else
  let '(tail, cmds) := put_words (ct_words action fence flags) (ctb_tail b) (ctb_size b) (ctb_cmds b) in
  (0, {| ctb_desc := with_desc_tail tail (ctb_desc b); ctb_cmds := cmds; ctb_size := ctb_size b;
         ctb_resv_space := ctb_resv_space b; ctb_tail := tail; ctb_head := ctb_head b;
         ctb_space := s32 (ctb_space b - Z.of_nat (length action + GUC_CTB_HDR_LEN)); ctb_broken := ctb_broken b |}).

(** The comparison is one of unsigned numbers. *)
Definition h2g_has_room (len_dw : nat) : st intel_guc_ct_buffer bool := fun b =>
  if u32 (ctb_space b) >=? Z.of_nat len_dw then (true, b) else
  let head := desc_head (ctb_desc b) in
  if head >? ctb_size b then
    (false, set_ctb_broken (set_ctb_desc (add_desc_status GUC_CTB_STATUS_OVERFLOW (ctb_desc b)) b))
  else
    let space := CIRC_SPACE (ctb_tail b) head (ctb_size b) in
    (space >=? Z.of_nat len_dw, set_ctb_space space b).

Definition g2h_has_room (g2h_len_dw : Z) (b : intel_guc_ct_buffer) : bool :=
  (g2h_len_dw =? 0) || (u32 (ctb_space b) >=? g2h_len_dw).

Definition g2h_reserve_space (g2h_len_dw : Z) (b : intel_guc_ct_buffer) : intel_guc_ct_buffer :=
  set_ctb_space (s32 (ctb_space b - g2h_len_dw)) b.

Definition g2h_release_space (g2h_len_dw : Z) (b : intel_guc_ct_buffer) : intel_guc_ct_buffer :=
  set_ctb_space (s32 (ctb_space b + g2h_len_dw)) b.

Definition G2H_LEN_DW (f : Z) : Z :=
  let n := FIELD_GET INTEL_GUC_CT_SEND_G2H_DW_MASK f in
  if negb (n =? 0) then n + Z.of_nat GUC_CTB_HXG_MSG_MIN_LEN else 0.

(** The [n] dwords from element [head] on, the first of them being read at [head] itself. *)
Fixpoint get_words (n : nat) (head size : Z) (cmds : list Z) : Z * list Z :=
  match n with
  | O => (head, [])
  | S n => let '(h, ws) := get_words n ((head + 1) mod size) size cmds in (h, cmds.[Z.to_nat head | 0] :: ws)
  end.

(** The label [corrupted] of [ct_read]. *)
Definition ct_corrupted (status : Z) : st intel_guc_ct_buffer (Z * option (list Z)) := fun b =>
  (- EPIPE, None, set_ctb_broken (set_ctb_desc (add_desc_status status (ctb_desc b)) b)).

(** [alloc_ok]: whether the memory for a message is there. The result is the return value and
    the message. *)
Definition ct_read (alloc_ok : bool) : st intel_guc_ct_buffer (Z * option (list Z)) := fun b =>
  let desc := ctb_desc b in
  let head := ctb_head b in
  let tail := desc_tail desc in
  let size := ctb_size b in
  if ctb_broken b then (- EPIPE, None, b) else
  if negb (desc_status desc =? 0) && negb (Z.land (desc_status desc) (Z.lnot GUC_CTB_STATUS_UNUSED) =? 0)
  then ct_corrupted 0 b else
  if tail >=? size then ct_corrupted GUC_CTB_STATUS_OVERFLOW b else
  let available := s32 (tail - head) in
  if available =? 0 then (0, None, b) else
  let available := if available <? 0 then available + size else available in
  let header := (ctb_cmds b).[Z.to_nat head | 0] in
  let len := FIELD_GET GUC_CTB_MSG_0_NUM_DWORDS header + Z.of_nat GUC_CTB_MSG_MIN_LEN in
  if len >? available then ct_corrupted GUC_CTB_STATUS_UNDERFLOW b else
  if negb alloc_ok then (available, None, b) else
  let '(head, msg) := get_words (Z.to_nat len) head size (ctb_cmds b) in
  (available - len, Some msg, set_ctb_desc (with_desc_head head desc) (set_ctb_head head b)).

(** ** The ring as a queue *)

(** A ring of [2 ^ k] elements. *)
Definition ring_size (size : Z) : Prop := exists k, 1 <= k <= 30 /\ size = 2 ^ k.

Lemma ring_size_pos size : ring_size size -> 2 <= size <= 1073741824.
Proof.
  intros (k & Hk & ->). change 2 with (2 ^ 1) at 1. change 1073741824 with (2 ^ 30).
  split; apply Z.pow_le_mono_r; lia.
Qed.

Lemma CIRC_CNT_mod head tail size : ring_size size -> CIRC_CNT head tail size = (head - tail) mod size.
Proof.
  intros (k & Hk & ->). unfold CIRC_CNT, u32. replace (2 ^ k - 1) with (Z.ones k) by (rewrite Z.ones_equiv; lia).
  rewrite Z.land_ones by lia.
  apply Z.mod_mod_divide.
  exists (2 ^ (32 - k)). rewrite <- Z.pow_add_r by lia. f_equal. lia.
Qed.

(** The dwords between [head] and [tail]. *)
Definition used (head tail size : Z) : Z := (tail - head) mod size.

Lemma CIRC_SPACE_used head tail size :
  ring_size size -> CIRC_SPACE tail head size = size - 1 - used head tail size.
Proof.
  intros Hs. unfold CIRC_SPACE, used. rewrite CIRC_CNT_mod by done. pose proof (ring_size_pos _ Hs).
  symmetry. apply (Z.mod_unique_pos _ _ (- 1 - (tail - head) / size)); [|].
  - pose proof (Z.mod_pos_bound (tail - head) size). lia.
  - pose proof (Z_div_mod_eq_full (tail - head) size). lia.
Qed.

Lemma used_range head tail size : 0 < size -> 0 <= used head tail size < size.
Proof. intros. by apply Z.mod_pos_bound. Qed.

Lemma used_tail head tail n size :
  0 < size -> 0 <= n -> used head tail size + n < size -> used head ((tail + n) mod size) size = used head tail size + n.
Proof.
  intros Hs Hn Hlt. unfold used in *. rewrite Zminus_mod_idemp_l.
  replace (tail + n - head) with (tail - head + n) by lia. rewrite Zplus_mod, (Z.mod_small n) by
    (pose proof (Z.mod_pos_bound (tail - head) size); lia).
  apply Z.mod_small. pose proof (Z.mod_pos_bound (tail - head) size). lia.
Qed.

Lemma used_head head tail n size :
  0 < size -> 0 <= n <= used head tail size -> used ((head + n) mod size) tail size = used head tail size - n.
Proof.
  intros Hs Hn. unfold used in *. rewrite Zminus_mod_idemp_r.
  replace (tail - (head + n)) with (tail - head - n) by lia. pose proof (Z.mod_pos_bound (tail - head) size).
  rewrite Zminus_mod, (Z.mod_small n), Z.mod_small by lia. done.
Qed.

(** The element at position [p], counted round the ring. *)
Definition cell (cmds : list Z) (size p : Z) : Z := cmds.[Z.to_nat (p mod size) | 0].
Definition cells (cmds : list Z) (size p : Z) (n : nat) : list Z := (fun i => cell cmds size (p + Z.of_nat i)) <$> seq 0 n.

Lemma length_cells cmds size p n : length (cells cmds size p n) = n.
Proof. unfold cells. by rewrite length_fmap, length_seq. Qed.

Lemma cells_S cmds size p n : cells cmds size p (S n) = cell cmds size p :: cells cmds size (p + 1) n.
Proof.
  unfold cells. cbn [seq fmap list_fmap]. rewrite Z.add_0_r. f_equal.
  change (list_fmap nat Z ?f ?l) with (f <$> l). rewrite <- fmap_S_seq, <- list_fmap_compose.
  apply list_fmap_ext. intros i x _. unfold compose. f_equal. lia.
Qed.

Lemma cells_app cmds size p n m :
  cells cmds size p (n + m) = cells cmds size p n ++ cells cmds size (p + Z.of_nat n) m.
Proof.
  revert p. induction n as [|n IH]; intros p; [by rewrite Z.add_0_r|].
  cbn [Nat.add]. rewrite !cells_S, IH. cbn [app]. do 3 f_equal. lia.
Qed.

Lemma cell_mod cmds size p : 0 < size -> cell cmds size (p mod size) = cell cmds size p.
Proof. intros. unfold cell. by rewrite Zmod_mod. Qed.

Lemma cells_mod cmds size p n : 0 < size -> cells cmds size (p mod size) n = cells cmds size p n.
Proof.
  intros Hs. unfold cells. apply list_fmap_ext. intros i x _. unfold cell. by rewrite Zplus_mod_idemp_l.
Qed.

(** Reading. *)
Lemma get_words_cells n size cmds : 0 < size -> forall head, 0 <= head < size ->
  get_words n head size cmds = ((head + Z.of_nat n) mod size, cells cmds size head n).
Proof.
  intros Hs. induction n as [|n IH]; intros head Hh.
  - cbn. by rewrite Z.add_0_r, Z.mod_small.
  - cbn [get_words]. rewrite IH by (apply Z.mod_pos_bound; lia). rewrite Zplus_mod_idemp_l, cells_mod, cells_S by done.
    f_equal; [f_equal; lia|]. f_equal. unfold cell. by rewrite Z.mod_small.
Qed.

(** Writing. *)
Lemma length_put_words ws size cmds : forall tail, length (put_words ws tail size cmds).2 = length cmds.
Proof. revert cmds. induction ws as [|w ws IH]; intros cmds tail; [done|]. cbn [put_words]. by rewrite IH, length_insert. Qed.

Lemma put_tail ws size cmds : 0 < size -> forall tail, 0 <= tail < size ->
  (put_words ws tail size cmds).1 = (tail + Z.of_nat (length ws)) mod size.
Proof.
  intros Hs. revert cmds. induction ws as [|w ws IH]; intros cmds tail Ht.
  - cbn. by rewrite Z.add_0_r, Z.mod_small.
  - cbn [put_words length]. rewrite IH by (apply Z.mod_pos_bound; lia). rewrite Zplus_mod_idemp_l. f_equal. lia.
Qed.

Lemma cell_insert cmds size p q w :
  0 < size -> Z.of_nat (length cmds) = size -> 0 <= q < size ->
  cell (<[Z.to_nat q := w]> cmds) size p = if decide (p mod size = q) then w else cell cmds size p.
Proof.
  intros Hs Hl Hq. unfold cell. case_decide as Hp.
  - rewrite Hp, list_lookup_insert_eq by lia. done.
  - pose proof (Z.mod_pos_bound p size). rewrite list_lookup_insert_ne by lia. done.
Qed.

(** After a write of [ws] at [tail]: [i] counts from there round the whole ring. *)
Lemma cell_put size : 0 < size -> forall ws cmds tail i,
  Z.of_nat (length cmds) = size -> 0 <= tail < size -> Z.of_nat (length ws) <= size -> 0 <= i < size ->
  cell (put_words ws tail size cmds).2 size (tail + i) =
    default (cell cmds size (tail + i)) (ws !! Z.to_nat i).
Proof.
  intros Hs. induction ws as [|w ws IH]; intros cmds tail i Hl Ht Hw Hi; [done|].
  cbn [put_words]. cbn [length] in Hw.
  set (t1 := (tail + 1) mod size). assert (0 <= t1 < size) as Ht1 by (apply Z.mod_pos_bound; lia).
  destruct (decide (i = 0)) as [->|Hi0].
  - (* the element just written is the last one that the rest could reach *)
    assert (cell (put_words ws t1 size (<[Z.to_nat tail:=w]> cmds)).2 size (tail + 0) = w) as ->; [|done].
    rewrite <- cell_mod by done.
    replace ((tail + 0) mod size) with ((t1 + (size - 1)) mod size).
    2: { unfold t1. rewrite Zplus_mod_idemp_l. replace (tail + 1 + (size - 1)) with (tail + 0 + 1 * size) by lia. by rewrite Z_mod_plus_full. }
    rewrite cell_mod, IH by (rewrite ?length_insert; done || lia).
    rewrite (proj2 (lookup_ge_None ws _)) by lia. cbn [default].
    rewrite cell_insert by done. rewrite decide_True; [done|].
    unfold t1. rewrite Zplus_mod_idemp_l. replace (tail + 1 + (size - 1)) with (tail + 1 * size) by lia.
    rewrite Z_mod_plus_full. by apply Z.mod_small.
  - rewrite <- cell_mod by done. replace ((tail + i) mod size) with ((t1 + (i - 1)) mod size).
    2: { unfold t1. rewrite Zplus_mod_idemp_l. f_equal. lia. }
    rewrite cell_mod, IH by (rewrite ?length_insert; done || lia).
    replace (Z.to_nat i) with (S (Z.to_nat (i - 1))) by lia. cbn [lookup list_lookup].
    change (list_lookup ?a ?l) with (l !! a). destruct (ws !! Z.to_nat (i - 1)); [done|]. cbn [default].
    rewrite cell_insert by done. rewrite decide_False.
    { rewrite <- (cell_mod _ _ (t1 + (i - 1))), <- (cell_mod _ _ (tail + i)) by done. f_equal. unfold t1. rewrite Zplus_mod_idemp_l. f_equal. lia. }
    unfold t1. rewrite Zplus_mod_idemp_l. replace (tail + 1 + (i - 1)) with (tail + i) by lia. intros He.
    destruct (Z_lt_le_dec (tail + i) size); [rewrite Z.mod_small in He by lia; lia|].
    replace (tail + i) with (tail + i - size + 1 * size) in He by lia.
    rewrite Z_mod_plus_full, Z.mod_small in He by lia. lia.
Qed.

(** The queue between [head] and [tail]. *)
Definition queue (b : intel_guc_ct_buffer) (head tail : Z) : list Z :=
  cells (ctb_cmds b) (ctb_size b) head (Z.to_nat (used head tail (ctb_size b))).

(** Writing where there is room appends to the queue. *)
Lemma cells_put size ws cmds head tail :
  0 < size -> Z.of_nat (length cmds) = size -> 0 <= tail < size ->
  used head tail size + Z.of_nat (length ws) < size ->
  cells (put_words ws tail size cmds).2 size head (Z.to_nat (used head tail size) + length ws) =
  cells cmds size head (Z.to_nat (used head tail size)) ++ ws.
Proof.
  intros Hs Hl Ht Hu. pose proof (used_range head tail size Hs) as Hr. rewrite cells_app. f_equal.
  - apply list_fmap_ext. intros i x Hx. apply lookup_seq in Hx as [-> Hi]. rewrite Nat.add_0_l.
    (* position [head + i] is the [size - used + i]-th one from [tail] *)
    set (j := size - used head tail size + Z.of_nat i).
    assert ((head + Z.of_nat i) mod size = (tail + j) mod size) as Hj.
    { unfold j, used. replace (tail + (size - (tail - head) mod size + Z.of_nat i))
        with (tail + Z.of_nat i - (tail - head) mod size + 1 * size) by lia.
      rewrite Z_mod_plus_full, Zminus_mod_idemp_r. f_equal. lia. }
    rewrite <- cell_mod, <- (cell_mod cmds) by done. rewrite Hj, !cell_mod by done.
    destruct (decide (j < size)) as [Hlt|Hge]; [|lia].
    rewrite cell_put by (done || lia). by rewrite (proj2 (lookup_ge_None ws _)) by lia.
  - apply list_eq. intros i. unfold cells. rewrite list_lookup_fmap.
    destruct (decide (i < length ws)%nat) as [Hi|Hi].
    + rewrite lookup_seq_lt by done. cbn [fmap option_fmap option_map]. rewrite Nat.add_0_l, Z2Nat.id by lia.
      rewrite <- cell_mod by done. replace ((head + used head tail size + Z.of_nat i) mod size) with ((tail + Z.of_nat i) mod size).
      2: { unfold used. rewrite (Z.add_comm head), <- Z.add_assoc, Zplus_mod_idemp_l. f_equal. lia. }
      rewrite cell_mod, cell_put by (done || lia). rewrite Nat2Z.id.
      destruct (lookup_lt_is_Some_2 ws i Hi) as [w Hw]. by rewrite Hw.
    + rewrite (proj2 (lookup_ge_None (seq 0 _) i)) by (rewrite length_seq; lia).
      by rewrite (proj2 (lookup_ge_None ws i)) by lia.
Qed.

(** ** The buffer to GuC *)

(** What the driver keeps of the buffer it writes to: GuC only moves the head. *)
Record send_ok (b : intel_guc_ct_buffer) : Prop := {
  send_ring : ring_size (ctb_size b);
  send_cmds : Z.of_nat (length (ctb_cmds b)) = ctb_size b;
  send_tail : 0 <= ctb_tail b < ctb_size b;
  send_desc_tail : desc_tail (ctb_desc b) = ctb_tail b;
  send_desc_head : 0 <= desc_head (ctb_desc b) < ctb_size b;
  send_status : desc_status (ctb_desc b) = 0;
  send_space : 0 <= ctb_space b <= ctb_size b - 1 - used (desc_head (ctb_desc b)) (ctb_tail b) (ctb_size b);
}.

(** What GuC has not read yet. *)
Definition sent_words (b : intel_guc_ct_buffer) : list Z := queue b (desc_head (ctb_desc b)) (ctb_tail b).

Definition send_room (b : intel_guc_ct_buffer) : Z :=
  ctb_size b - 1 - used (desc_head (ctb_desc b)) (ctb_tail b) (ctb_size b).

Lemma length_sent_words b : ring_size (ctb_size b) -> Z.of_nat (length (sent_words b)) = ctb_size b - 1 - send_room b.
Proof.
  intros Hs%ring_size_pos. unfold sent_words, queue, send_room. rewrite length_cells.
  pose proof (used_range (desc_head (ctb_desc b)) (ctb_tail b) (ctb_size b)). lia.
Qed.

Lemma wp_h2g_has_room len (Q : bool -> intel_guc_ct_buffer -> Prop) b :
  send_ok b ->
  (forall b', send_ok b' -> sent_words b' = sent_words b -> ctb_broken b' = ctb_broken b ->
     send_room b' = send_room b ->
     (Z.of_nat len <= send_room b -> Z.of_nat len <= ctb_space b') ->
     Q (bool_decide (Z.of_nat len <= send_room b)) b') ->
  wp (h2g_has_room len) Q b.
Proof.
  intros Hok HQ. pose proof Hok as [Hs Hc Ht Hdt Hdh Hst Hsp]. pose proof (ring_size_pos _ Hs) as Hpos.
  pose proof (used_range (desc_head (ctb_desc b)) (ctb_tail b) (ctb_size b) ltac:(lia)) as Hu.
  unfold wp, h2g_has_room. rewrite u32_small by lia. rewrite Z.geb_leb.
  destruct (Z.leb_spec (Z.of_nat len) (ctb_space b)) as [Hle|Hgt].
  - cbn [fst snd]. specialize (HQ b Hok eq_refl eq_refl eq_refl). unfold send_room in HQ.
    rewrite bool_decide_eq_true_2 in HQ by lia. apply HQ. lia.
  - rewrite Z.gtb_ltb, (proj2 (Z.ltb_ge _ _)) by lia. cbn [fst snd].
    rewrite CIRC_SPACE_used by done. fold (send_room b). rewrite Z.geb_leb.
    assert ((Z.of_nat len <=? send_room b) = bool_decide (Z.of_nat len <= send_room b)) as ->.
    { destruct (Z.leb_spec (Z.of_nat len) (send_room b)); [by rewrite bool_decide_eq_true_2|by rewrite bool_decide_eq_false_2 by lia]. }
    apply HQ; try done. constructor; cbn; try done. unfold send_room. lia.
Qed.

Lemma length_ct_words action fence flags :
  action <> [] -> length (ct_words action fence flags) = (length action + GUC_CTB_HDR_LEN)%nat.
Proof. intros Ha. destruct action; [done|]. unfold ct_words, GUC_CTB_HDR_LEN. cbn [length tail]. lia. Qed.

(** A write where there is room. *)
Lemma wp_ct_write action fence flags (Q : Z -> intel_guc_ct_buffer -> Prop) b :
  send_ok b -> action <> [] -> Z.of_nat (length action + GUC_CTB_HDR_LEN) <= ctb_space b ->
  (forall b', send_ok b' -> sent_words b' = sent_words b ++ ct_words action fence flags ->
     ctb_space b' = ctb_space b - Z.of_nat (length action + GUC_CTB_HDR_LEN) -> ctb_broken b' = ctb_broken b -> Q 0 b') ->
  wp (ct_write action fence flags) Q b.
Proof.
  intros [Hs Hc Ht Hdt Hdh Hst Hsp] Ha Hroom HQ. pose proof (ring_size_pos _ Hs) as Hpos.
  pose proof (length_ct_words action fence flags Ha) as Hlen.
  unfold wp, ct_write. rewrite Hst. cbn [negb Z.eqb].
  pose proof (length_put_words (ct_words action fence flags) (ctb_size b) (ctb_cmds b) (ctb_tail b)) as Hl.
  pose proof (put_tail (ct_words action fence flags) (ctb_size b) (ctb_cmds b) ltac:(lia) (ctb_tail b) Ht) as Hput.
  pose proof (cells_put (ctb_size b) (ct_words action fence flags) (ctb_cmds b) (desc_head (ctb_desc b)) (ctb_tail b)
    ltac:(lia) Hc Ht) as Hcells. rewrite Hlen in Hcells. specialize (Hcells ltac:(lia)).
  destruct (put_words _ _ _ _) as [tail cmds]. cbn [fst snd] in *. rewrite Hlen in Hput.
  pose proof (used_range (desc_head (ctb_desc b)) (ctb_tail b) (ctb_size b) ltac:(lia)) as Hu.
  pose proof (used_tail (desc_head (ctb_desc b)) (ctb_tail b) (Z.of_nat (length action + GUC_CTB_HDR_LEN)) (ctb_size b)
    ltac:(lia) ltac:(lia) ltac:(lia)) as Hut.
  apply HQ; try done.
  - constructor; cbn; try done.
    + by rewrite Hl.
    + rewrite Hput. apply Z.mod_pos_bound. lia.
    + rewrite Hput, Hut, s32_small by lia. lia.
  - unfold sent_words, queue. cbn. rewrite Hput, Hut, <- Hcells. f_equal. lia.
  - cbn. apply s32_small. lia.
Qed.

(** ** Messages in a queue *)

Definition msg_len (header : Z) : nat := Z.to_nat (FIELD_GET GUC_CTB_MSG_0_NUM_DWORDS header) + GUC_CTB_MSG_MIN_LEN.

(** A message as it stands in a buffer. *)
Definition is_msg (m : list Z) : Prop := match m with [] => False | h :: _ => length m = msg_len h end.

Lemma ct_words_msg action fence flags :
  (1 <= length action <= GUC_CTB_MAX_DWORDS)%nat -> is_msg (ct_words action fence flags).
Proof.
  intros Hl. change GUC_CTB_MAX_DWORDS with 255%nat in Hl. unfold is_msg.
  pose proof (length_ct_words action fence flags) as Hw. unfold ct_words in *. rewrite Hw by (by destruct action; [cbn in Hl; lia|]).
  unfold msg_len, ct_header, GUC_CTB_HDR_LEN, GUC_CTB_MSG_MIN_LEN, GUC_CTB_HDR_LEN. field_simpl. lia.
Qed.

Lemma msg_len_pos h : (1 <= msg_len h)%nat.
Proof. unfold msg_len, GUC_CTB_MSG_MIN_LEN, GUC_CTB_HDR_LEN. lia. Qed.

Lemma msg_len_Z h : FIELD_GET GUC_CTB_MSG_0_NUM_DWORDS h + Z.of_nat GUC_CTB_MSG_MIN_LEN = Z.of_nat (msg_len h).
Proof.
  pose proof (FIELD_GET_range GUC_CTB_MSG_0_NUM_DWORDS 8 0 h). unfold msg_len. lia.
Qed.

(** ** The buffer from GuC *)

Record recv_ok (b : intel_guc_ct_buffer) : Prop := {
  recv_ring : ring_size (ctb_size b);
  recv_cmds : Z.of_nat (length (ctb_cmds b)) = ctb_size b;
  recv_head : 0 <= ctb_head b < ctb_size b;
  recv_desc_tail : 0 <= desc_tail (ctb_desc b) < ctb_size b;
  recv_status : Z.land (desc_status (ctb_desc b)) (Z.lnot GUC_CTB_STATUS_UNUSED) = 0;
  recv_unbroken : ctb_broken b = false;
}.

(** What the driver has not read yet. *)
Definition recv_words (b : intel_guc_ct_buffer) : list Z := queue b (ctb_head b) (desc_tail (ctb_desc b)).

(** The buffer with its head moved by [n]. *)
Definition moved (n : nat) (b : intel_guc_ct_buffer) : intel_guc_ct_buffer :=
  let head := (ctb_head b + Z.of_nat n) mod ctb_size b in
  set_ctb_desc (with_desc_head head (ctb_desc b)) (set_ctb_head head b).

Lemma recv_words_moved n b : ring_size (ctb_size b) -> (n <= length (recv_words b))%nat ->
  recv_words (moved n b) = drop n (recv_words b).
Proof.
  intros Hs%ring_size_pos Hn. unfold recv_words, queue, moved in *. cbn in *. rewrite length_cells in Hn.
  pose proof (used_range (ctb_head b) (desc_tail (ctb_desc b)) (ctb_size b) ltac:(lia)) as Hu.
  rewrite used_head by lia. rewrite cells_mod by lia.
  replace (Z.to_nat (used (ctb_head b) (desc_tail (ctb_desc b)) (ctb_size b)))
    with (n + Z.to_nat (used (ctb_head b) (desc_tail (ctb_desc b)) (ctb_size b) - Z.of_nat n))%nat by lia.
  rewrite cells_app. symmetry. rewrite <- (length_cells (ctb_cmds b) (ctb_size b) (ctb_head b) n) at 1.
  by rewrite drop_app_length.
Qed.

(** [ct_read] on the queue: nothing when it is empty; a message when a whole one is there and
    memory for it; the buffer is broken by a message that is not complete. *)
Lemma ct_read_run alloc_ok b : recv_ok b ->
  ct_read alloc_ok b =
    match recv_words b with
    | [] => (0, None, b)
    | h :: _ =>
        if (length (recv_words b) <? msg_len h)%nat then ct_corrupted GUC_CTB_STATUS_UNDERFLOW b
        else if negb alloc_ok then (Z.of_nat (length (recv_words b)), None, b)
        else (Z.of_nat (length (recv_words b) - msg_len h), Some (take (msg_len h) (recv_words b)), moved (msg_len h) b)
    end.
Proof.
  intros [Hs Hc Hh Ht Hst Hbr]. pose proof (ring_size_pos _ Hs) as Hpos.
  unfold ct_read. rewrite Hbr, Hst. cbn [negb Z.eqb]. rewrite andb_false_r.
  rewrite Z.geb_leb, (proj2 (Z.leb_gt _ _)) by lia. rewrite s32_small by lia.
  pose proof (used_range (ctb_head b) (desc_tail (ctb_desc b)) (ctb_size b) ltac:(lia)) as Hu.
  assert (used (ctb_head b) (desc_tail (ctb_desc b)) (ctb_size b) =
    if desc_tail (ctb_desc b) - ctb_head b <? 0 then desc_tail (ctb_desc b) - ctb_head b + ctb_size b
    else desc_tail (ctb_desc b) - ctb_head b) as Hav.
  { unfold used. destruct (Z.ltb_spec (desc_tail (ctb_desc b) - ctb_head b) 0).
    - rewrite <- (Z_mod_plus_full _ 1), Z.mul_1_l. apply Z.mod_small. lia.
    - apply Z.mod_small. lia. }
  rewrite <- Hav.
  assert (length (recv_words b) = Z.to_nat (used (ctb_head b) (desc_tail (ctb_desc b)) (ctb_size b))) as Hlen
    by (unfold recv_words, queue; by rewrite length_cells).
  destruct (Z.eqb_spec (desc_tail (ctb_desc b) - ctb_head b) 0) as [H0|H0].
  { destruct (recv_words b); [done|]. cbn in Hlen. rewrite Hav in Hlen.
    rewrite (proj2 (Z.ltb_ge _ _)) in Hlen by lia. lia. }
  assert (0 < used (ctb_head b) (desc_tail (ctb_desc b)) (ctb_size b)) as Hu0.
  { rewrite Hav. destruct (Z.ltb_spec (desc_tail (ctb_desc b) - ctb_head b) 0); lia. }
  assert (recv_words b = cells (ctb_cmds b) (ctb_size b) (ctb_head b) (length (recv_words b))) as Hw
    by (rewrite Hlen; done).
  set (ws := recv_words b) in *. clearbody ws.
  destruct ws as [|h ws]; [cbn in Hlen; lia|]. cbn [length] in Hw. rewrite cells_S in Hw.
  assert ((ctb_cmds b).[Z.to_nat (ctb_head b) | 0] = h) as ->.
  { injection Hw as -> _. unfold cell. by rewrite Z.mod_small. }
  rewrite msg_len_Z, Z.gtb_ltb. cbn [length].
  destruct (Nat.ltb_spec (S (length ws)) (msg_len h)) as [Hlt|Hge].
  { rewrite (proj2 (Z.ltb_lt _ _)) by (cbn in Hlen; lia). done. }
  rewrite (proj2 (Z.ltb_ge _ _)) by (cbn in Hlen; lia). destruct alloc_ok; cbn [negb].
  2: { do 2 f_equal. cbn in Hlen. lia. }
  rewrite Nat2Z.id, get_words_cells by lia. rewrite <- cells_S in Hw.
  assert (cells (ctb_cmds b) (ctb_size b) (ctb_head b) (msg_len h) = take (msg_len h) (h :: ws)) as ->.
  { rewrite Hw. replace (S (length ws)) with (msg_len h + (S (length ws) - msg_len h))%nat by lia.
    rewrite cells_app. by rewrite take_app_length' by (by rewrite length_cells). }
  unfold moved. do 2 f_equal. cbn in Hlen. lia.
Qed.

(** ** The buffer as a queue of messages

    The driver writes messages while GuC takes them, in any order of the two. *)

Inductive ring_op := OpSend (action : list Z) (fence flags : Z) | OpTake.

(** [r_accepted]: the messages written so far; [r_got]: those that GuC has taken. *)
Record ring := { r_buf : intel_guc_ct_buffer; r_accepted : list (list Z); r_got : list (list Z) }.

(** GuC takes the message at the head, if there is one, and moves the head behind it. *)
Definition guc_take (b : intel_guc_ct_buffer) : list (list Z) * intel_guc_ct_buffer :=
  match sent_words b with
  | [] => ([], b)
  | h :: _ =>
      let '(head, msg) := get_words (msg_len h) (desc_head (ctb_desc b)) (ctb_size b) (ctb_cmds b) in
      ([msg], set_ctb_desc (with_desc_head head (ctb_desc b)) b)
  end.

Definition ring_step (op : ring_op) (r : ring) : ring :=
  match op with
  | OpSend action fence flags =>
      let '(ok, b) := h2g_has_room (length action + GUC_CTB_HDR_LEN) (r_buf r) in
      if ok then {| r_buf := snd (ct_write action fence flags b);
                    r_accepted := r_accepted r ++ [ct_words action fence flags]; r_got := r_got r |}
      else {| r_buf := b; r_accepted := r_accepted r; r_got := r_got r |}
  | OpTake => let '(msgs, b) := guc_take (r_buf r) in
      {| r_buf := b; r_accepted := r_accepted r; r_got := r_got r ++ msgs |}
  end.
Definition ring_run (ops : list ring_op) (r : ring) : ring := foldl (fun r op => ring_step op r) r ops.

Definition op_ok (op : ring_op) : Prop :=
  match op with OpSend action _ _ => (1 <= length action <= GUC_CTB_MAX_DWORDS)%nat | OpTake => True end.

(** The queue that the ring stands for: the messages that were accepted and not yet taken. *)
Definition ring_inv (r : ring) : Prop :=
  send_ok (r_buf r) /\ exists pending, r_accepted r = r_got r ++ pending /\ Forall is_msg pending /\
    sent_words (r_buf r) = concat pending.

Lemma wp_guc_take b msgs : send_ok b -> Forall is_msg msgs -> sent_words b = concat msgs ->
  let '(got, b') := guc_take b in
  send_ok b' /\ got = take 1 msgs /\ sent_words b' = concat (drop 1 msgs).
Proof.
  intros Hok Hm Hw. unfold guc_take. destruct msgs as [|m msgs]; [by rewrite Hw|].
  inversion_clear Hm as [|? ? Hmsg Hms]. destruct m as [|h m]; [done|]. rewrite Hw. cbn [concat app].
  pose proof Hok as [Hs Hc Ht Hdt Hdh Hst Hsp]. pose proof (ring_size_pos _ Hs) as Hpos. cbn [is_msg] in Hmsg.
  rewrite get_words_cells by lia.
  pose proof (used_range (desc_head (ctb_desc b)) (ctb_tail b) (ctb_size b) ltac:(lia)) as Hu.
  assert (Z.to_nat (used (desc_head (ctb_desc b)) (ctb_tail b) (ctb_size b)) = msg_len h + length (concat msgs))%nat as Hlen.
  { apply (f_equal length) in Hw. unfold sent_words, queue in Hw. rewrite length_cells in Hw. rewrite Hw.
    cbn [concat]. by rewrite length_app, Hmsg. }
  unfold sent_words, queue in Hw. rewrite Hlen, cells_app in Hw. cbn [concat] in Hw. rewrite <- Hmsg in Hw.
  apply app_inj_1 in Hw as [Hw1 Hw2]; [|by rewrite length_cells]. split_and!.
  - constructor; cbn; try done; [apply Z.mod_pos_bound; lia|]. rewrite used_head by lia. lia.
  - rewrite <- Hmsg, Hw1. done.
  - change (drop 1 ((h :: m) :: msgs)) with msgs. unfold sent_words, queue. rewrite <- Hw2.
    cbn [ctb_cmds ctb_size ctb_desc ctb_tail desc_head set_ctb_desc with_desc_head]. rewrite used_head, cells_mod by lia.
    rewrite Hmsg. f_equal. lia.
Qed.

Lemma ring_step_inv op r : op_ok op -> ring_inv r -> ring_inv (ring_step op r).
Proof.
  intros Hop (Hok & pending & Ha & Hm & Hw). destruct op as [action fence flags|]; cbn [ring_step].
  - cbn in Hop. assert (action <> []) as Hne by (intros ->; cbn in Hop; lia).
    pose proof (fun Q => wp_h2g_has_room (length action + GUC_CTB_HDR_LEN) Q (r_buf r) Hok) as Hroom. unfold wp in Hroom.
    destruct (h2g_has_room _ _) as [ok b]. cbn [fst snd] in Hroom.
    specialize (Hroom (fun ok b => send_ok b /\ sent_words b = sent_words (r_buf r) /\
      (ok = true -> Z.of_nat (length action + GUC_CTB_HDR_LEN) <= ctb_space b))). destruct Hroom as (Hok' & Hw' & Hsp).
    { intros b' H1 H2 _ _ H3. split_and!; try done. rewrite bool_decide_eq_true. apply H3. }
    destruct ok; [|split; [done|]; exists pending; split_and!; [done|done|cbn [r_buf]; by rewrite Hw']].
    pose proof (fun Q => wp_ct_write action fence flags Q b Hok' Hne (Hsp eq_refl)) as Hwr. unfold wp in Hwr.
    destruct (ct_write _ _ _ b) as [ret b2]. cbn [fst snd] in *.
    specialize (Hwr (fun _ b2 => send_ok b2 /\ sent_words b2 = sent_words b ++ ct_words action fence flags)).
    destruct Hwr as [Hok2 Hw2]; [by intros|]. split; [done|]. exists (pending ++ [ct_words action fence flags]). split_and!.
    + cbn. by rewrite Ha, app_assoc.
    + apply Forall_app. split; [done|]. rewrite Forall_singleton. by apply ct_words_msg.
    + cbn [r_buf]. rewrite Hw2, Hw', Hw, concat_app. cbn [concat]. by rewrite app_nil_r.
  - pose proof (wp_guc_take _ _ Hok Hm Hw) as Htake. destruct (guc_take (r_buf r)) as [got b].
    destruct Htake as (H1 & -> & H3). split; [done|]. exists (drop 1 pending). cbn [r_accepted r_got r_buf]. split_and!.
    + by rewrite Ha, <- app_assoc, take_drop.
    + by apply Forall_drop.
    + done.
Qed.

(** C26: the buffer to GuC is a queue. Starting with an empty buffer, in whatever order the
    driver writes messages (of 1 to 255 dwords, each only where [h2g_has_room] finds room) and
    GuC takes them, round the end of the ring as often as it may be: GuC gets exactly the
    messages that were written, whole and in order; what it has not taken yet is still in the
    buffer, unchanged, and nothing else is. *)
Theorem ring_fifo ops b :
  send_ok b -> sent_words b = [] -> Forall op_ok ops ->
  let r := ring_run ops {| r_buf := b; r_accepted := []; r_got := [] |} in
  exists pending, r_accepted r = r_got r ++ pending /\ sent_words (r_buf r) = concat pending /\ send_ok (r_buf r).
Proof.
  intros Hok He Hops. cbv zeta.
  enough (ring_inv (ring_run ops {| r_buf := b; r_accepted := []; r_got := [] |})) as (H1 & pending & H2 & _ & H3) by (by exists pending).
  assert (ring_inv {| r_buf := b; r_accepted := []; r_got := [] |}) as Hinv by (split; [done|]; by exists []).
  revert Hinv. generalize {| r_buf := b; r_accepted := []; r_got := [] |}.
  induction Hops as [|op ops Hop Hops IH]; intros r Hinv; [done|]. cbn [ring_run foldl]. by apply IH, ring_step_inv.
Qed.

(** ** What the driver reads *)

(** Reads until the buffer is empty, a message is not complete or [fuel] of them are read. *)
Fixpoint read_all (fuel : nat) (b : intel_guc_ct_buffer) : list (list Z) * intel_guc_ct_buffer :=
  match fuel with
  | O => ([], b)
  | S fuel => match ct_read true b with
              | (_, Some m, b) => let '(ms, b) := read_all fuel b in (m :: ms, b)
              | (_, None, b) => ([], b)
              end
  end.

(** C27: the buffer from GuC is read message by message. When what GuC has written since the
    driver read last is a sequence of whole messages, wherever in the ring they lie,
    [ct_read] called once per message returns each of them, in order, and leaves the buffer
    empty and sound. *)
Theorem reads_arrive msgs b :
  recv_ok b -> Forall is_msg msgs -> recv_words b = concat msgs ->
  let '(got, b') := read_all (length msgs) b in
  got = msgs /\ recv_words b' = [] /\ recv_ok b'.
Proof.
  revert b. induction msgs as [|m msgs IH]; intros b Hok Hm Hw; [by split_and!|].
  inversion_clear Hm as [|? ? Hmsg Hms]. destruct m as [|h m]; [done|]. cbn [is_msg] in Hmsg.
  cbn [length read_all]. rewrite ct_read_run by done. rewrite Hw. cbn [concat app].
  change (h :: m ++ concat msgs) with ((h :: m) ++ concat msgs).
  rewrite (proj2 (Nat.ltb_ge _ _)) by (rewrite length_app; lia). cbn [negb].
  pose proof (recv_ring _ Hok) as Hs. pose proof (ring_size_pos _ Hs) as Hpos.
  rewrite <- Hmsg, take_app_length.
  specialize (IH (moved (length (h :: m)) b)). rewrite recv_words_moved, Hw in IH by (done || rewrite Hw; cbn [concat]; rewrite length_app; lia).
  cbn [concat] in IH. rewrite drop_app_length in IH.
  destruct (read_all (length msgs) _) as [got b']. destruct IH as (-> & H2 & H3); [|done..|by split_and!].
  destruct Hok. constructor; cbn; try done. apply Z.mod_pos_bound. lia.
Qed.

(** ** Witnesses *)

Definition sample_ring : intel_guc_ct_buffer := guc_ct_buffer_init (replicate 8 0) 32 0.

(** Two messages of four dwords do not fit a ring of eight: the second one waits. *)
Lemma ring_fifo_witness :
  let r := ring_run [OpSend [1; 2; 3] 1 0; OpSend [4; 5; 6] 2 0; OpTake; OpSend [7; 8; 9] 3 0; OpTake]
             {| r_buf := sample_ring; r_accepted := []; r_got := [] |} in
  length (r_accepted r) = 2%nat /\ exists pending, r_accepted r = r_got r ++ pending.
Proof.
  split; [by vm_compute|].
  destruct (ring_fifo [OpSend [1; 2; 3] 1 0; OpSend [4; 5; 6] 2 0; OpTake; OpSend [7; 8; 9] 3 0; OpTake] sample_ring) as (pending & H1 & _).
  - constructor; try done; by exists 3.
  - done.
  - repeat constructor; cbn; unfold GUC_CTB_MAX_DWORDS; lia.
  - by exists pending.
Defined.

(** Two messages, the second of them round the end of the ring. *)
Definition sample_recv : intel_guc_ct_buffer := {|
  ctb_desc := {| desc_head := 4; desc_tail := 2; desc_status := 0 |};
  ctb_cmds := [0xa; 0xb; 0; 0; 0x10001; 0xc; 0x20003; 0xd]; ctb_size := 8; ctb_resv_space := 2; ctb_tail := 0; ctb_head := 4;
  ctb_space := 5; ctb_broken := false |}.

Lemma reads_arrive_witness : fst (read_all 2 sample_recv) = [[0x10001; 0xc]; [0x20003; 0xd; 0xa; 0xb]].
Proof.
  pose proof (reads_arrive [[0x10001; 0xc]; [0x20003; 0xd; 0xa; 0xb]] sample_recv) as Hw. cbn [length] in Hw.
  destruct (read_all 2 sample_recv) as [got b']. apply Hw.
  - constructor; try done; by exists 3.
  - by repeat constructor.
  - by vm_compute.
Defined.
