(* ===== verification/GucMmio.v ===== *)
(** * The mailbox of GuC

    [intel_guc_send_mmio] of gt/uc/intel_guc.c: a request in the scratch registers of GuC, its
    reply in the same registers, and what goes through it before the command transport runs:
    self configuration and the control of the transport. The registers are an interface. *)

From S2P Require Export Fields.

Definition GUC_ACTION_HOST2GUC_SELF_CFG : Z := 0x0508.
Definition HOST2GUC_SELF_CFG_REQUEST_MSG_1_KLV_KEY : Z := 0xffff0000.
Definition HOST2GUC_SELF_CFG_REQUEST_MSG_1_KLV_LEN : Z := 0xffff.
Definition ENXIO : Z := 6.

(** ** The registers *)

Class GucRegs (W : Type) := {
  write_request : list Z -> st W unit;   (** the dwords written to the registers, and the doorbell *)
  wait_reply : st W (option Z);          (** the first register once GuC owns it, [None] after 10 ms *)
  wait_not_busy : st W (option Z);       (** the same once it says something else than busy, [None] after 1 s *)
  read_reg : nat -> st W Z;
  send_regs_count : nat;
  mmio_is_vf : bool;                     (** [IS_SRIOV_VF] *)
}.

Section mmio.
Context {W : Type} `{R : GucRegs W}.

(** The label [busy_loop], with [loop] waits to go. *)
Fixpoint busy_loop (loop : nat) : st W (option Z) :=
  match loop with
  | O => mret None
  | S loop => r ← wait_not_busy;
              match r with Some header => mret (Some header) | None => busy_loop loop end
  end.

Fixpoint read_regs (n i : nat) : st W (list Z) :=
  match n with
  | O => mret []
  | S n => x ← read_reg i; xs ← read_regs n (S i); mret (x :: xs)
  end.

(** What comes after the reply [header], which is not busy: [inl] for [goto retry]. *)
Definition mmio_answered (header : Z) (room : option nat) : st W (unit + Z * list Z) :=
  let type := FIELD_GET GUC_HXG_MSG_0_TYPE header in
  if type =? GUC_HXG_TYPE_NO_RESPONSE_RETRY then mret (inl tt) else
  if type =? GUC_HXG_TYPE_RESPONSE_FAILURE then mret (inr (- ENXIO, [])) else
  if negb (type =? GUC_HXG_TYPE_RESPONSE_SUCCESS) then mret (inr (- EPROTO, [])) else
  match room with
  | Some room =>
      let count := Nat.min room send_regs_count in
      data ← read_regs (count - 1) 1;
      mret (inr (Z.of_nat count, header :: data))
  | None => mret (inr (FIELD_GET GUC_HXG_RESPONSE_MSG_0_DATA0 header, []))
  end.

(** One request, from the label [retry] on. *)
Definition mmio_try (request : list Z) (room : option nat) : st W (unit + Z * list Z) :=
  write_request request ≫= fun _ =>
  r ← wait_reply;
  match r with
  | None => mret (inr (- ETIMEDOUT, []))
  | Some header =>
      if FIELD_GET GUC_HXG_MSG_0_TYPE header =? GUC_HXG_TYPE_NO_RESPONSE_BUSY then
        r ← busy_loop (if mmio_is_vf then 20 else 1);
        match r with
        | None => mret (inr (- ETIMEDOUT, []))
        | Some header =>
            if negb (FIELD_GET GUC_HXG_MSG_0_ORIGIN header =? GUC_HXG_ORIGIN_GUC) then mret (inr (- EPROTO, []))
            else mmio_answered header room
        end
      else mmio_answered header room
  end.

(** GuC decides how often it has the request sent again: [None] when that is more than [fuel]
    times. [room] is the size of the caller's buffer, if it has one; the result is the return
    value and what is in the buffer. *)
Fixpoint intel_guc_send_mmio (fuel : nat) (request : list Z) (room : option nat) : st W (option (Z * list Z)) :=
  match fuel with
  | O => mret None
  | S fuel => r ← mmio_try request room;
              match r with inl _ => intel_guc_send_mmio fuel request room | inr r => mret (Some r) end
  end.

(** ** Properties *)

Lemma wp_read_regs n : forall i (Q : list Z -> W -> Prop) w,
  (forall l w', length l = n -> Q l w') -> wp (read_regs n i) Q w.
Proof.
  induction n as [|n IH]; intros i Q w HQ; [by apply wp_ret, HQ|].
  apply wp_bind. unfold wp at 1. apply wp_bind, IH. intros l w' Hl. apply wp_ret, HQ. cbn. by f_equal.
Qed.

Lemma busy_loop_any loop (Q : option Z -> W -> Prop) w : (forall r w', Q r w') -> wp (busy_loop loop) Q w.
Proof. intros HQ. unfold wp. apply HQ. Qed.

(** A result of the mailbox: an error, or the buffer filled as far as there are registers. *)
Definition mmio_result (room : option nat) (ret : Z) (resp : list Z) : Prop :=
  (ret = - ETIMEDOUT \/ ret = - ENXIO \/ ret = - EPROTO) \/
  match room with
  | Some room => ret = Z.of_nat (length resp) /\ length resp = Nat.min room send_regs_count
  | None => 0 <= ret < 2 ^ 28 /\ resp = []
  end.

Lemma wp_mmio_answered header room (Q : unit + Z * list Z -> W -> Prop) w :
  (0 < default 1 room)%nat -> (0 < send_regs_count)%nat -> (forall w', Q (inl tt) w') ->
  (forall ret resp w', mmio_result room ret resp -> Q (inr (ret, resp)) w') ->
  wp (mmio_answered header room) Q w.
Proof.
  intros Hroom Hregs Hretry HQ. apply wp_if; intros _; [by apply wp_ret|].
  apply wp_if; intros _; [apply wp_ret, HQ; left; tauto|].
  apply wp_if; intros _; [apply wp_ret, HQ; left; tauto|].
  destruct room as [room|].
  - apply wp_bind, wp_read_regs. intros l w' Hl. apply wp_ret, HQ. right. cbn [length] in *. rewrite Hl.
    cbn in Hroom. split; lia.
  - apply wp_ret, HQ. right. split; [|done]. apply (FIELD_GET_range _ 28 0).
Qed.

(** What the mailbox returns. With a GuC that asks for the request to be sent again at most
    [retries] times, and whatever else it does with the registers, [intel_guc_send_mmio] returns:
    a timeout, a refusal or a protocol error, or it has filled the caller's buffer, as far as
    there are registers, and returns the number of dwords; without a buffer it returns the 28
    bits of data of the response. *)
Theorem send_mmio_result fuel request room (retries : W -> nat) w :
  (0 < default 1 room)%nat -> (0 < send_regs_count)%nat ->
  (forall w, match mmio_try request room w with (inl _, w') => (retries w' < retries w)%nat | _ => True end) ->
  (retries w < fuel)%nat ->
  exists ret resp, fst (intel_guc_send_mmio fuel request room w) = Some (ret, resp) /\ mmio_result room ret resp.
Proof.
  intros Hroom Hregs Hretry. revert w. induction fuel as [|fuel IH]; intros w Hfuel; [lia|].
  cbn [intel_guc_send_mmio]. unfold mbind at 1, st_bind at 1. specialize (Hretry w).
  assert (wp (mmio_try request room) (fun r _ => match r with inl _ => True | inr (ret, resp) => mmio_result room ret resp end) w) as Hw.
  { assert (forall header w', wp (mmio_answered header room)
      (fun r _ => match r with inl _ => True | inr (ret, resp) => mmio_result room ret resp end) w') as Hreply
      by (intros header w'; by apply wp_mmio_answered).
    apply wp_bind. unfold wp at 1. apply wp_bind. unfold wp at 1.
    destruct (fst (wait_reply _)) as [header|]; [|apply wp_ret; left; tauto].
    apply wp_if; intros _; [|apply Hreply]. apply wp_bind, busy_loop_any. intros [h|] w'; [|apply wp_ret; left; tauto].
    apply wp_if; intros _; [apply wp_ret; left; tauto|apply Hreply]. }
  unfold wp in Hw. destruct (mmio_try request room w) as [[[]|[ret resp]] w']; cbn [fst] in Hw.
  - apply IH. lia.
  - by exists ret, resp.
Qed.
End mmio.

(** ** What goes through the mailbox *)

(** The mailbox without a response buffer. *)
Class GucMailbox (W : Type) := { send_mmio_data : list Z -> st W Z }.

(** [intel_guc_send_mmio] as such a mailbox, for a GuC that asks at most [fuel] times. *)
Definition mmio_mailbox {W} `{R : GucRegs W} (fuel : nat) : GucMailbox W := {|
  send_mmio_data request := r ← intel_guc_send_mmio fuel request None; mret (fst (default (- ETIMEDOUT, []) r)) |}.

Section mailbox.
Context {W : Type} `{M : GucMailbox W}.

Definition self_cfg_request (key len value : Z) : list Z :=
  [Z.lor (Z.lor (FIELD_PREP GUC_HXG_MSG_0_ORIGIN GUC_HXG_ORIGIN_HOST)
                (FIELD_PREP GUC_HXG_MSG_0_TYPE GUC_HXG_TYPE_REQUEST))
         (FIELD_PREP GUC_HXG_REQUEST_MSG_0_ACTION GUC_ACTION_HOST2GUC_SELF_CFG);
   Z.lor (FIELD_PREP HOST2GUC_SELF_CFG_REQUEST_MSG_1_KLV_KEY key)
         (FIELD_PREP HOST2GUC_SELF_CFG_REQUEST_MSG_1_KLV_LEN len);
   lower_32_bits value; upper_32_bits value].

Definition __guc_action_self_cfg (key len value : Z) : st W Z :=
  ret ← send_mmio_data (self_cfg_request key len value);
  mret (if ret <? 0 then ret else if ret >? 1 then - EPROTO else if ret =? 0 then - ENOKEY else 0).

Definition __guc_self_cfg (key len value : Z) : st W Z := __guc_action_self_cfg key len value.
Definition intel_guc_self_cfg32 (key value : Z) : st W Z := __guc_self_cfg key 1 (u32 value).
Definition intel_guc_self_cfg64 (key value : Z) : st W Z := __guc_self_cfg key 2 value.

(** The key is configured exactly when GuC says that it took one. *)
Lemma self_cfg_0 key len value w :
  fst (__guc_self_cfg key len value w) = 0 <-> fst (send_mmio_data (self_cfg_request key len value) w) = 1.
Proof.
  unfold __guc_self_cfg, __guc_action_self_cfg, mbind, st_bind. destruct (send_mmio_data _ w) as [ret w']. cbn [fst].
  unfold mret, st_ret, EPROTO, ENOKEY. cbn [fst]. repeat case_match; propify; lia.
Qed.
End mailbox.

(** ** Witness *)

(** A GuC that is busy first and then answers with the data 5. *)
Definition sample_regs : GucRegs nat := {|
  write_request _ := modify S;
  wait_reply := mret (Some (Z.lor (FIELD_PREP GUC_HXG_MSG_0_ORIGIN GUC_HXG_ORIGIN_GUC)
                                  (FIELD_PREP GUC_HXG_MSG_0_TYPE GUC_HXG_TYPE_NO_RESPONSE_BUSY)));
  wait_not_busy := mret (Some (Z.lor (Z.lor (FIELD_PREP GUC_HXG_MSG_0_ORIGIN GUC_HXG_ORIGIN_GUC)
                                  (FIELD_PREP GUC_HXG_MSG_0_TYPE GUC_HXG_TYPE_RESPONSE_SUCCESS)) 5));
  read_reg i := mret (Z.of_nat i);
  send_regs_count := 4;
  mmio_is_vf := true |}.

Lemma send_mmio_result_witness :
  exists ret resp, fst (intel_guc_send_mmio (R := sample_regs) 1 [0] (Some 3%nat) 0%nat) = Some (ret, resp) /\
    mmio_result (R := sample_regs) (Some 3%nat) ret resp.
Proof.
  apply (send_mmio_result (R := sample_regs) 1 [0] (Some 3%nat) (fun _ => 0%nat) 0%nat); [cbn; lia|cbn; lia| |lia].
  intros w. by vm_compute.
Defined.
