(* ===== verification/Memirq.v ===== *)
(** * Interrupts of a VF

    gt/iov/intel_iov_memirq.c: a VF has no interrupt registers, so the device writes its
    interrupts to a page in memory, one for each GT, and raises one line for all of them. Here
    are the life of that page, its registration with GuC and the handler, which runs while the
    device keeps writing. *)

From stdpp Require Import relations functions.
From S2P Require Export Threads GucMmio PfState.

(** Layout of the page: a vector of 16 bytes for each unit, a byte for each unit, the mask. *)
Definition I915_VF_IRQ_STATUS : Z := 0x0.
Definition I915_VF_IRQ_SOURCE : Z := 0x400.
Definition I915_VF_IRQ_ENABLE : Z := 0x440.
Definition GEN11_GUC : Z := 25.
Definition GT_RENDER_USER_INTERRUPT : Z := Z.shiftl 1 0.
Definition GUC_INTR_GUC2HOST : Z := Z.shiftl 1 15.
Definition GUC_KLV_SELF_CFG_MEMIRQ_STATUS_ADDR_KEY : Z := 0x0900.
Definition GUC_KLV_SELF_CFG_MEMIRQ_SOURCE_ADDR_KEY : Z := 0x0901.
Definition SZ_16 : Z := 16.

(** ** State *)

(** [struct intel_iov_memirq]: whether the pointers are set, and the GGTT offset of [vma]. *)
Record intel_iov_memirq := { irq_obj : bool; irq_vma : option Z; irq_vaddr : bool }.

(** How far the device is with an interrupt of a unit: it sets the byte of the status vector,
    then the byte of the source vector, then it raises the line. *)
Inductive hw_phase := HwIdle | HwStatusWritten | HwSourceWritten.

Inductive mq_event :=
| Raised (g : gt_id) (u : Z)            (** the device has an interrupt of unit [u] *)
| Breadcrumbs (g : gt_id) (u : Z)       (** [intel_engine_signal_breadcrumbs] *)
| Tasklet (g : gt_id) (u : Z)           (** [tasklet_hi_schedule] *)
| GucEvent (g : gt_id).                 (** [intel_guc_ct_event_handler] *)

#[export] Instance mq_event_eq_dec : EqDecision mq_event.
Proof. solve_decision. Defined.

Record memirq_state := {
  mq_irq : gt_id -> intel_iov_memirq;
  mq_page : gt_id -> Z -> Z;               (** the bytes of the page [vaddr] points to *)
  mq_objs : gt_id -> Z;                    (** references to the object, mappings, pins of the VMA *)
  mq_maps : gt_id -> Z;
  mq_pins : gt_id -> Z;
  mq_phase : gt_id -> Z -> hw_phase;
  mq_line : bool;                          (** an interrupt message waits for the CPU *)
  mq_trace : list mq_event;                (** what happened, the latest first *)
}.

(** What is around: the results of the memory manager (0 or a negative errno), the offset the VMA
    gets, the GTs and the [irq_offset] of their engines. *)
Class MemirqEnv := {
  HAS_MEMORY_IRQ_STATUS : bool;
  object_create_shmem : gt_id -> Z;
  object_pin_map_unlocked : gt_id -> Z;
  vma_instance : gt_id -> Z;
  vma_pin : gt_id -> Z;
  guc_ggtt_offset : gt_id -> Z;
  mq_gts : list gt_id;
  engine_offsets : gt_id -> list Z;
  intel_irqs_enabled : bool;
  guc_interrupts_enabled : gt_id -> bool;
}.

(** The offsets are bit positions in the two dwords of GEN11_GT_INTR_DW; none is that of GuC. *)
Class MemirqEnvLaws (V : MemirqEnv) : Prop :=
  engine_offsets_ok g : Forall (fun u => 0 <= u < 64 /\ u <> GEN11_GUC) (engine_offsets g).

Definition upd {A} (g : gt_id) (x : A) (f : gt_id -> A) : gt_id -> A :=
  fun g' => if decide (g' = g) then x else f g'.

Definition set_irq (g : gt_id) (x : intel_iov_memirq) (s : memirq_state) : memirq_state :=
  {| mq_irq := upd g x (mq_irq s); mq_page := mq_page s; mq_objs := mq_objs s; mq_maps := mq_maps s;
     mq_pins := mq_pins s; mq_phase := mq_phase s; mq_line := mq_line s; mq_trace := mq_trace s |}.
Definition set_page (g : gt_id) (f : Z -> Z) (s : memirq_state) : memirq_state :=
  {| mq_irq := mq_irq s; mq_page := upd g f (mq_page s); mq_objs := mq_objs s; mq_maps := mq_maps s;
     mq_pins := mq_pins s; mq_phase := mq_phase s; mq_line := mq_line s; mq_trace := mq_trace s |}.
Definition set_byte (g : gt_id) (a v : Z) (s : memirq_state) : memirq_state :=
  set_page g (fun a' => if decide (a' = a) then v else mq_page s g a') s.
Definition add_refs (g : gt_id) (objs maps pins : Z) (s : memirq_state) : memirq_state :=
  {| mq_irq := mq_irq s; mq_page := mq_page s; mq_objs := upd g (mq_objs s g + objs) (mq_objs s);
     mq_maps := upd g (mq_maps s g + maps) (mq_maps s); mq_pins := upd g (mq_pins s g + pins) (mq_pins s);
     mq_phase := mq_phase s; mq_line := mq_line s; mq_trace := mq_trace s |}.
Definition set_phase (g : gt_id) (u : Z) (ph : hw_phase) (s : memirq_state) : memirq_state :=
  {| mq_irq := mq_irq s; mq_page := mq_page s; mq_objs := mq_objs s; mq_maps := mq_maps s; mq_pins := mq_pins s;
     mq_phase := upd g (fun u' => if decide (u' = u) then ph else mq_phase s g u') (mq_phase s);
     mq_line := mq_line s; mq_trace := mq_trace s |}.
Definition set_line (b : bool) (s : memirq_state) : memirq_state :=
  {| mq_irq := mq_irq s; mq_page := mq_page s; mq_objs := mq_objs s; mq_maps := mq_maps s; mq_pins := mq_pins s;
     mq_phase := mq_phase s; mq_line := b; mq_trace := mq_trace s |}.
Definition add_event (e : mq_event) (s : memirq_state) : memirq_state :=
  {| mq_irq := mq_irq s; mq_page := mq_page s; mq_objs := mq_objs s; mq_maps := mq_maps s; mq_pins := mq_pins s;
     mq_phase := mq_phase s; mq_line := mq_line s; mq_trace := e :: mq_trace s |}.

(** A store of a u32, the least significant byte first. *)
Definition write32 (g : gt_id) (a v : Z) (s : memirq_state) : memirq_state :=
  foldl (fun s i => set_byte g (a + i) (Z.land (Z.shiftr v (8 * i)) 0xff) s) s [0; 1; 2; 3].

Section memirq.
Context `{V : MemirqEnv}.
Abbreviation op := (st memirq_state).
Abbreviation pr := (prog memirq_state).

(** ** The life of the page *)

Definition vf_create_memirq_data (g : gt_id) : op Z :=
  if object_create_shmem g <? 0 then mret (object_create_shmem g) else
  modify (add_refs g 1 0 0) ≫= fun _ =>
  if object_pin_map_unlocked g <? 0 then
    modify (add_refs g (-1) 0 0) ≫= fun _ => mret (object_pin_map_unlocked g)
  else
    modify (add_refs g 0 1 0) ≫= fun _ => modify (set_page g (fun _ => 0)) ≫= fun _ =>
    irq ← gets (fun s => mq_irq s g);
    modify (set_irq g {| irq_obj := true; irq_vma := irq_vma irq; irq_vaddr := true |}) ≫= fun _ =>
    modify (write32 g I915_VF_IRQ_ENABLE 0xffff) ≫= fun _ => mret 0.

Definition vf_map_memirq_data (g : gt_id) : op Z :=
  if vma_instance g <? 0 then mret (vma_instance g) else
  if negb (vma_pin g =? 0) then modify (add_refs g (-1) 0 0) ≫= fun _ => mret (vma_pin g) else
  modify (add_refs g 0 0 1) ≫= fun _ =>
  irq ← gets (fun s => mq_irq s g);
  modify (set_irq g {| irq_obj := irq_obj irq; irq_vma := Some (guc_ggtt_offset g); irq_vaddr := irq_vaddr irq |}) ≫= fun _ =>
  mret 0.

(** [i915_vma_unpin_and_release] with [I915_VMA_RELEASE_MAP] does nothing without a VMA. *)
Definition vf_release_memirq_data (g : gt_id) : op unit :=
  irq ← gets (fun s => mq_irq s g);
  (match irq_vma irq with Some _ => modify (add_refs g (-1) (-1) (-1)) | None => mret tt end) ≫= fun _ =>
  modify (set_irq g {| irq_obj := false; irq_vma := None; irq_vaddr := false |}).

Definition intel_iov_memirq_init (g : gt_id) : op Z :=
  if negb HAS_MEMORY_IRQ_STATUS then mret 0 else
  err ← vf_create_memirq_data g;
  if negb (err =? 0) then mret err else
  err ← vf_map_memirq_data g;
  if negb (err =? 0) then mret err else mret 0.

Definition intel_iov_memirq_fini (g : gt_id) : op unit :=
  if negb HAS_MEMORY_IRQ_STATUS then mret tt else vf_release_memirq_data g.

Definition intel_iov_memirq_reset (g : gt_id) : op unit :=
  irq ← gets (fun s => mq_irq s g);
  if irq_vaddr irq then modify (write32 g I915_VF_IRQ_ENABLE 0) else mret tt.

Definition intel_iov_memirq_postinstall (g : gt_id) : op unit :=
  irq ← gets (fun s => mq_irq s g);
  if irq_vaddr irq then modify (write32 g I915_VF_IRQ_ENABLE 0xffff) else mret tt.

(** [for_each_gt] of [vf_mem_irq_reset] and [vf_mem_irq_postinstall] (i915_irq.c) *)
Definition vf_mem_irq_reset : op unit :=
  foldr (fun g k => intel_iov_memirq_reset g ≫= fun _ => k) (mret tt) mq_gts.
Definition vf_mem_irq_postinstall : op Z :=
  foldr (fun g k => intel_iov_memirq_postinstall g ≫= fun _ => k) (mret 0) mq_gts.

(** ** The handler *)

Definition READ_ONCE (g : gt_id) (a : Z) : pr Z := atom (gets (fun s => mq_page s g a)).
Definition WRITE_ONCE (g : gt_id) (a v : Z) : pr unit := atom (modify (set_byte g a v)).

Definition intel_engine_signal_breadcrumbs (g : gt_id) (engine : Z) : pr unit :=
  atom (modify (add_event (Breadcrumbs g engine))).
Definition tasklet_hi_schedule (g : gt_id) (engine : Z) : pr unit :=
  atom (modify (add_event (Tasklet g engine))).
Definition intel_guc_to_host_event_handler (g : gt_id) : pr unit :=
  if guc_interrupts_enabled g then atom (modify (add_event (GucEvent g))) else mret tt.

Definition __engine_mem_irq_handler (g : gt_id) (engine status : Z) : pr unit :=
  value ← READ_ONCE g (status + Z.log2 GT_RENDER_USER_INTERRUPT);
  if value =? 0xff then
    WRITE_ONCE g (status + Z.log2 GT_RENDER_USER_INTERRUPT) 0x00 ≫= fun _ =>
    intel_engine_signal_breadcrumbs g engine ≫= fun _ => tasklet_hi_schedule g engine
  else mret tt.

Definition __guc_mem_irq_handler (g : gt_id) (status : Z) : pr unit :=
  value ← READ_ONCE g (status + Z.log2 GUC_INTR_GUC2HOST);
  if value =? 0xff then
    WRITE_ONCE g (status + Z.log2 GUC_INTR_GUC2HOST) 0x00 ≫= fun _ => intel_guc_to_host_event_handler g
  else mret tt.

(** The source byte of a unit, for an engine as for GuC. *)
Definition check_source (g : gt_id) (source : Z) (handler : pr unit) : pr unit :=
  value ← READ_ONCE g source;
  if value =? 0xff then WRITE_ONCE g source 0x00 ≫= fun _ => handler else mret tt.

Definition intel_iov_memirq_handler (g : gt_id) : pr unit :=
  irq ← atom (gets (fun s => mq_irq s g));
  if negb (irq_vaddr irq) then mret tt else
  each (engine_offsets g) (fun irq_offset =>
    check_source g (I915_VF_IRQ_SOURCE + irq_offset)
      (__engine_mem_irq_handler g irq_offset (I915_VF_IRQ_STATUS + irq_offset * SZ_16))) ≫= fun _ =>
  check_source g (I915_VF_IRQ_SOURCE + GEN11_GUC)
    (__guc_mem_irq_handler g (I915_VF_IRQ_STATUS + GEN11_GUC * SZ_16)).

Definition vf_mem_irq_handler : pr unit :=
  if negb intel_irqs_enabled then mret tt else each mq_gts intel_iov_memirq_handler.

(** Where GuC finds its bytes, told through its mailbox; [base] is [intel_guc_ggtt_offset] of the
    VMA. *)
Definition intel_iov_memirq_prepare_guc {W} `{GucMailbox W} (base : Z) : st W Z :=
  let source := u32 (u32 (base + I915_VF_IRQ_SOURCE) + GEN11_GUC) in
  let status := u32 (u32 (base + I915_VF_IRQ_STATUS) + GEN11_GUC * SZ_16) in
  err ← intel_guc_self_cfg64 GUC_KLV_SELF_CFG_MEMIRQ_SOURCE_ADDR_KEY source;
  if negb (err =? 0) then mret err else
  err ← intel_guc_self_cfg64 GUC_KLV_SELF_CFG_MEMIRQ_STATUS_ADDR_KEY status;
  if negb (err =? 0) then mret err else mret 0.

(** ** The device and the CPU *)

Definition is_unit (g : gt_id) (u : Z) : Prop := g ∈ mq_gts /\ (u ∈ engine_offsets g \/ u = GEN11_GUC).
Definition status_addr (u : Z) : Z := I915_VF_IRQ_STATUS + u * SZ_16 + (if u =? GEN11_GUC then 15 else 0).
Definition source_addr (u : Z) : Z := I915_VF_IRQ_SOURCE + u.

(** What happens beside the handler: an interrupt of a unit, in three steps, of which another
    may begin as soon as the line is raised; other threads that mask and unmask. *)
Inductive device_step (s : memirq_state) : memirq_state -> Prop :=
| DevStatus g u : is_unit g u -> mq_phase s g u = HwIdle ->
    device_step s (add_event (Raised g u) (set_phase g u HwStatusWritten (set_byte g (status_addr u) 0xff s)))
| DevSource g u : is_unit g u -> mq_phase s g u = HwStatusWritten ->
    device_step s (set_phase g u HwSourceWritten (set_byte g (source_addr u) 0xff s))
| DevSignal g u : is_unit g u -> mq_phase s g u = HwSourceWritten ->
    device_step s (set_line true (set_phase g u HwIdle s))
| SwMask g : device_step s (snd (intel_iov_memirq_reset g s))
| SwUnmask g : device_step s (snd (intel_iov_memirq_postinstall g s)).

(** The CPU takes the message that waits and enters the handler, unless it is in it. *)
Inductive irq_step : option (pr unit) * memirq_state -> option (pr unit) * memirq_state -> Prop :=
| IrqDevice t s s' : device_step s s' -> irq_step (t, s) (t, s')
| IrqEnter s : mq_line s = true -> irq_step (None, s) (Some vf_mem_irq_handler, set_line false s)
| IrqRun p s : irq_step (Some p, s) (let '(p', s') := step_prog p s in (Some p', s'))
| IrqLeave s : irq_step (Some (Ret tt), s) (None, s).

(** The CPU goes on alone: the handler it is in, and once more if a message waits then. *)
Definition settle (x : option (pr unit) * memirq_state) : memirq_state :=
  let s := match x.1 with Some p => snd (atomically p x.2) | None => x.2 end in
  if mq_line s then snd (atomically vf_mem_irq_handler (set_line false s)) else s.

(** What an interrupt of a unit asks for, and whether it still waits for [e]. *)
Definition acts (g : gt_id) (u : Z) : list mq_event :=
  if u =? GEN11_GUC then [GucEvent g] else [Breadcrumbs g u; Tasklet g u].
Fixpoint pending (g : gt_id) (u : Z) (e : mq_event) (trace : list mq_event) : bool :=
  match trace with
  | [] => false
  | x :: trace => if decide (x = e) then false else
                  if decide (x = Raised g u) then true else pending g u e trace
  end.

(** The device is at rest, no interrupt waits and every GT has its page. *)
Record irq_ready (s : memirq_state) : Prop := {
  rd_mapped g : g ∈ mq_gts -> irq_vaddr (mq_irq s g) = true;
  rd_status g u : is_unit g u -> mq_page s g (status_addr u) = 0;
  rd_phase g u : mq_phase s g u = HwIdle;
  rd_line : mq_line s = false;
  rd_trace : mq_trace s = [];
}.
End memirq.

(** ** The page *)

Section page.
Context `{V : MemirqEnv}.
Implicit Types s : memirq_state.

Definition irq_refs (g : gt_id) s : Z * Z * Z := (mq_objs s g, mq_maps s g, mq_pins s g).

(** A successful initialization leaves one reference to the object, its mapping and its VMA, and a
    page that is zero but for its mask; the release gives them back. *)
Lemma memirq_init_fini g s :
  HAS_MEMORY_IRQ_STATUS = true -> object_create_shmem g = 0 -> object_pin_map_unlocked g = 0 ->
  vma_instance g = 0 -> vma_pin g = 0 ->
  let '(err, s1) := intel_iov_memirq_init g s in
  err = 0 /\ mq_irq s1 g = {| irq_obj := true; irq_vma := Some (guc_ggtt_offset g); irq_vaddr := true |} /\
  irq_refs g s1 = (mq_objs s g + 1, mq_maps s g + 1, mq_pins s g + 1) /\
  (forall a, a < I915_VF_IRQ_ENABLE -> mq_page s1 g a = 0) /\
  let s2 := snd (intel_iov_memirq_fini g s1) in
  mq_irq s2 g = {| irq_obj := false; irq_vma := None; irq_vaddr := false |} /\ irq_refs g s2 = irq_refs g s.
Proof.
  intros Hhas H1 H2 H3 H4. unfold intel_iov_memirq_init, intel_iov_memirq_fini, vf_create_memirq_data, vf_map_memirq_data,
    vf_release_memirq_data, mbind, st_bind, add_refs, set_irq, set_page, write32, set_byte.
  rewrite Hhas, H1, H2, H3, H4. unfold irq_refs, upd, I915_VF_IRQ_ENABLE. cbn.
  rewrite !decide_True by done. cbn. rewrite !decide_True by done.
  split_and!; [done|done|f_equal; [f_equal|]; lia| |done|f_equal; [f_equal|]; lia].
  intros a Ha. unfold upd. repeat first [rewrite decide_True by done|rewrite decide_False by lia]. done.
Qed.

(** A release finds nothing to release when there is no VMA. *)
Lemma fini_without_vma g s : irq_vma (mq_irq s g) = None -> irq_refs g (snd (intel_iov_memirq_fini g s)) = irq_refs g s.
Proof.
  intros Hv. unfold intel_iov_memirq_fini, vf_release_memirq_data, mbind, st_bind. destruct HAS_MEMORY_IRQ_STATUS; [|done].
  cbn. by rewrite Hv.
Qed.

(** What an initialization leaves behind that fails: when there is no VMA the object and its
    mapping stay, and the release does not give them back; when the VMA is not pinned the object
    is given back but [vaddr] is still set, so the handler goes on reading its memory. *)
Lemma memirq_init_fails g s :
  HAS_MEMORY_IRQ_STATUS = true -> object_create_shmem g = 0 -> object_pin_map_unlocked g = 0 ->
  irq_vma (mq_irq s g) = None -> vma_instance g < 0 \/ 0 <= vma_instance g /\ vma_pin g <> 0 ->
  let '(err, s1) := intel_iov_memirq_init g s in
  err <> 0 /\ irq_vaddr (mq_irq s1 g) = true /\
  mq_objs s1 g = mq_objs s g + (if vma_instance g <? 0 then 1 else 0) /\
  irq_refs g (snd (intel_iov_memirq_fini g s1)) = irq_refs g s1.
Proof.
  intros Hhas H1 H2 Hvma Herr.
  enough (let '(err, s1) := intel_iov_memirq_init g s in err <> 0 /\ irq_vaddr (mq_irq s1 g) = true /\
    mq_objs s1 g = mq_objs s g + (if vma_instance g <? 0 then 1 else 0) /\ irq_vma (mq_irq s1 g) = None) as H.
  { destruct (intel_iov_memirq_init g s) as [err s1]. destruct H as (? & ? & ? & Hn). split_and!; [done..|].
    by apply fini_without_vma. }
  unfold intel_iov_memirq_init, vf_create_memirq_data, vf_map_memirq_data, mbind, st_bind. rewrite Hhas, H1, H2.
  destruct (Z.ltb_spec (vma_instance g) 0).
  - assert ((vma_instance g =? 0) = false) as E by (apply Z.eqb_neq; lia). cbn. rewrite E. cbn. unfold upd.
    rewrite !decide_True by done. cbn. split_and!; [lia|done|lia|done].
  - assert ((vma_pin g =? 0) = false) as E by (apply Z.eqb_neq; lia). cbn. rewrite E. cbn. rewrite E.
    cbn. unfold upd. rewrite !decide_True by done. cbn. split_and!; [lia|done|lia|done].
Qed.

(** The registration with GuC succeeds exactly when GuC takes both keys, and the addresses it gets
    are those of the bytes that the handler looks at. *)
Lemma prepare_guc_0 {W} `{GucMailbox W} base (w : W) :
  let '(n1, w1) := send_mmio_data (self_cfg_request GUC_KLV_SELF_CFG_MEMIRQ_SOURCE_ADDR_KEY 2
                     (u32 (base + source_addr GEN11_GUC))) w in
  let '(n2, _) := send_mmio_data (self_cfg_request GUC_KLV_SELF_CFG_MEMIRQ_STATUS_ADDR_KEY 2
                     (u32 (base + (status_addr GEN11_GUC - Z.log2 GUC_INTR_GUC2HOST)))) w1 in
  fst (intel_iov_memirq_prepare_guc base w) = 0 <-> n1 = 1 /\ n2 = 1.
Proof.
  unfold intel_iov_memirq_prepare_guc. cbv zeta.
  assert (forall a b, u32 (u32 a + b) = u32 (a + b)) as Hu by (intros; unfold u32; apply Zplus_mod_idemp_l).
  rewrite !Hu, <- !Z.add_assoc.
  change (I915_VF_IRQ_SOURCE + GEN11_GUC) with (source_addr GEN11_GUC).
  change (I915_VF_IRQ_STATUS + GEN11_GUC * SZ_16) with (status_addr GEN11_GUC - Z.log2 GUC_INTR_GUC2HOST).
  set (a := u32 _). set (b := u32 (base + (_ - _))).
  unfold intel_guc_self_cfg64.
  assert (forall key x (w : W), exists e, __guc_self_cfg key 2 x w = (e, snd (send_mmio_data (self_cfg_request key 2 x) w)) /\
    (e = 0 <-> fst (send_mmio_data (self_cfg_request key 2 x) w) = 1)) as Hcfg.
  { intros key x w0. exists (fst (__guc_self_cfg key 2 x w0)). split; [|apply self_cfg_0].
    unfold __guc_self_cfg, __guc_action_self_cfg, mbind, st_bind. by destruct (send_mmio_data _ w0). }
  destruct (Hcfg GUC_KLV_SELF_CFG_MEMIRQ_SOURCE_ADDR_KEY a w) as (e1 & E1 & H1). unfold mbind, st_bind. rewrite E1. clear E1.
  destruct (send_mmio_data _ w) as [n1 w1]. cbn [fst snd] in *.
  destruct (Hcfg GUC_KLV_SELF_CFG_MEMIRQ_STATUS_ADDR_KEY b w1) as (e2 & E2 & H2).
  destruct (send_mmio_data _ w1) as [n2 w2]. cbn [fst snd] in *.
  destruct (Z.eqb_spec e1 0) as [Hz|Hz]; cbn [negb]; [|cbn; tauto]. rewrite E2.
  destruct (Z.eqb_spec e2 0) as [Hz2|Hz2]; cbn; tauto.
Qed.
End page.

(** ** What is known of a unit *)

(** Before its source byte is read, after that byte was cleared, and when the acts [es] are still
    owed; a unit that is done, or that nobody looks at, owes nothing. *)
Inductive stage := Todo | Taken | Owing (es : list mq_event).

Section units.
Context `{V : MemirqEnv} {VL : MemirqEnvLaws V}.
Implicit Types s : memirq_state.

(** An act that waits is announced by the status byte, unless it is owed. *)
Definition kept (es : list mq_event) (g : gt_id) (u : Z) s : Prop :=
  forall e, e ∈ acts g u -> e ∉ es -> pending g u e (mq_trace s) = true -> mq_page s g (status_addr u) = 0xff.
(** A status byte is announced by the source byte, or soon will be. *)
Definition visible (g : gt_id) (u : Z) s : Prop :=
  mq_page s g (status_addr u) = 0xff -> mq_phase s g u = HwStatusWritten \/ mq_page s g (source_addr u) = 0xff.
(** The same, with an entry of the handler to come. *)
Definition noticed (g : gt_id) (u : Z) s : Prop :=
  mq_page s g (status_addr u) = 0xff ->
  mq_phase s g u = HwStatusWritten \/
  mq_page s g (source_addr u) = 0xff /\ (mq_phase s g u = HwSourceWritten \/ mq_line s = true).

Definition holds (x : stage) (g : gt_id) (u : Z) s : Prop :=
  match x with
  | Todo => kept [] g u s /\ visible g u s
  | Taken => kept [] g u s
  | Owing es => kept es g u s /\ noticed g u s
  end.

(** Every unit at its stage. *)
Definition stages (ph : gt_id * Z -> stage) s : Prop :=
  (forall g, g ∈ mq_gts -> irq_vaddr (mq_irq s g) = true) /\
  forall g u, is_unit g u -> holds (ph (g, u)) g u s.

(** What [holds] depends on. *)
Record same_unit (g : gt_id) (u : Z) s s' : Prop := {
  su_status : mq_page s' g (status_addr u) = mq_page s g (status_addr u);
  su_source : mq_page s' g (source_addr u) = mq_page s g (source_addr u);
  su_phase : mq_phase s' g u = mq_phase s g u;
  su_line : mq_line s = true -> mq_line s' = true;
  su_pending e : e ∈ acts g u -> pending g u e (mq_trace s') = pending g u e (mq_trace s);
}.

Lemma holds_same x g u s s' : same_unit g u s s' -> holds x g u s -> holds x g u s'.
Proof.
  intros [H1 H2 H3 H4 H5].
  assert (forall es, kept es g u s -> kept es g u s') as Hk.
  { intros es Hk e He Hes. rewrite H1, H5 by done. by apply Hk. }
  destruct x as [| |es]; cbn [holds]; unfold visible, noticed; rewrite ?H1, ?H2, ?H3; [|auto|]; intros [Hkept Hv];
    (split; [by apply Hk|]); [done|]. intros Hst. destruct (Hv Hst) as [?|[? [?|?]]]; auto.
Qed.

Lemma unit_range g u : is_unit g u -> 0 <= u < 64.
Proof using VL.
  intros [_ [Hu| ->]]; [|by unfold GEN11_GUC]. pose proof (engine_offsets_ok g) as H.
  rewrite Forall_forall in H. by apply H.
Qed.
Lemma engine_not_guc g u : u ∈ engine_offsets g -> (u =? GEN11_GUC) = false.
Proof using VL.
  intros Hu. pose proof (engine_offsets_ok g) as H. rewrite Forall_forall in H. apply Z.eqb_neq. by apply H.
Qed.

(** The bytes of the units are apart, and apart from the mask. *)
Lemma unit_bytes g u g' u' : is_unit g u -> is_unit g' u' ->
  (status_addr u = status_addr u' -> u = u') /\ (source_addr u = source_addr u' -> u = u') /\
  status_addr u <> source_addr u' /\ source_addr u' < I915_VF_IRQ_ENABLE /\ status_addr u' < I915_VF_IRQ_ENABLE.
Proof using VL.
  intros Hu%unit_range Hu'%unit_range.
  unfold status_addr, source_addr, I915_VF_IRQ_STATUS, I915_VF_IRQ_SOURCE, I915_VF_IRQ_ENABLE, SZ_16, GEN11_GUC in *.
  destruct (Z.eqb_spec u 25), (Z.eqb_spec u' 25); lia.
Qed.

Lemma byte_set g a v s g' a' :
  mq_page (set_byte g a v s) g' a' = if decide (g' = g /\ a' = a) then v else mq_page s g' a'.
Proof. cbn. unfold upd. repeat case_decide; intuition congruence. Qed.
Lemma phase_set g u x s g' u' :
  mq_phase (set_phase g u x s) g' u' = if decide (g' = g /\ u' = u) then x else mq_phase s g' u'.
Proof. cbn. unfold upd. repeat case_decide; intuition congruence. Qed.

Lemma acts_not_raised g u e g' u' : e ∈ acts g u -> e <> Raised g' u'.
Proof. unfold acts. destruct (u =? GEN11_GUC); rewrite !elem_of_cons, elem_of_nil; intuition congruence. Qed.
Lemma acts_unit g u g' u' e : e ∈ acts g u -> e ∈ acts g' u' -> (g', u') = (g, u).
Proof.
  unfold acts. destruct (Z.eqb_spec u GEN11_GUC), (Z.eqb_spec u' GEN11_GUC); rewrite !elem_of_cons, !elem_of_nil;
    intuition congruence.
Qed.

(** [s'] differs from [s] in the bytes and the phase of a unit and its part of the trace. *)
Record only_unit (g : gt_id) (u : Z) s s' : Prop := {
  ou_irq : mq_irq s' = mq_irq s;
  ou_page g' a : (g', a) <> (g, status_addr u) -> (g', a) <> (g, source_addr u) -> mq_page s' g' a = mq_page s g' a;
  ou_phase g' u' : (g', u') <> (g, u) -> mq_phase s' g' u' = mq_phase s g' u';
  ou_line : mq_line s = true -> mq_line s' = true;
  ou_trace : exists es, mq_trace s' = es ++ mq_trace s /\ Forall (fun e => e = Raised g u \/ e ∈ acts g u) es;
}.

Lemma same_other g u g' u' s s' :
  is_unit g u -> is_unit g' u' -> (g', u') <> (g, u) -> only_unit g u s s' -> same_unit g' u' s s'.
Proof using VL.
  intros Hu Hu' Hne [_ Hpage Hphase Hline (es & Ht & Hes)].
  destruct (unit_bytes g u g' u' Hu Hu') as (H1 & H2 & H3 & _).
  destruct (unit_bytes g' u' g u Hu' Hu) as (_ & _ & H4 & _).
  assert (forall a, (g', a) = (g, status_addr u) \/ (g', a) = (g, source_addr u) ->
    a = status_addr u' \/ a = source_addr u' -> False) as Hapart.
  { intros a [[= -> ->]|[= -> ->]] [E|E]; try (by destruct (H4 (eq_sym E)) || by destruct (H3 E));
      apply Hne; f_equal; symmetry; auto. }
  split; [apply Hpage; eauto|apply Hpage; eauto|by apply Hphase|done|].
  intros e He. rewrite Ht. clear Ht Hpage Hphase. induction Hes as [|x es Hx Hes IH]; [done|]. cbn [app pending].
  rewrite decide_False by (destruct Hx as [->|Hx]; [by intros <-; eapply acts_not_raised|
    intros ->; apply Hne; by eapply acts_unit]).
  rewrite decide_False; [done|]. destruct Hx as [->|Hx]; [intros [= -> ->]; by apply Hne|].
  by apply (acts_not_raised _ _ _ _ _ Hx).
Qed.

Lemma stages_only ph g u x s s' :
  is_unit g u -> only_unit g u s s' -> holds x g u s' -> stages ph s -> stages (<[(g, u) := x]> ph) s'.
Proof using VL.
  intros Hu Ho Hx [Hm Hph]. split; [by rewrite (ou_irq _ _ _ _ Ho)|]. intros g' u' Hu'.
  destruct (decide ((g', u') = (g, u))) as [[= -> ->]|Hne]; [by rewrite fn_lookup_insert|].
  rewrite fn_lookup_insert_ne by done. apply (holds_same _ _ _ s); [by apply (same_other g u)|auto].
Qed.

(** A unit at its stage [x] whose state changes and keeps that stage. *)
Lemma stages_stay ph g u s s' :
  is_unit g u -> only_unit g u s s' -> (forall x, holds x g u s -> holds x g u s') -> stages ph s -> stages ph s'.
Proof using VL.
  intros Hu Ho Hx Hs. pose proof (stages_only ph g u (ph (g, u)) s s' Hu Ho (Hx _ (proj2 Hs g u Hu)) Hs) as [Hm H].
  split; [done|]. intros g' u' Hu'. specialize (H g' u' Hu').
  destruct (decide ((g', u') = (g, u))) as [[= -> ->]|Hne]; [by rewrite fn_lookup_insert in H|].
  rewrite fn_lookup_insert_ne in H; auto.
Qed.

Lemma stages_weaken ph g u x s :
  (holds (ph (g, u)) g u s -> holds x g u s) -> stages ph s -> stages (<[(g, u) := x]> ph) s.
Proof.
  intros Hx [Hm H]. split; [done|]. intros g' u' Hu'.
  destruct (decide ((g', u') = (g, u))) as [[= -> ->]|Hne]; [rewrite fn_lookup_insert; auto|].
  rewrite fn_lookup_insert_ne; auto.
Qed.

Lemma only_trans g u s1 s2 s3 : only_unit g u s1 s2 -> only_unit g u s2 s3 -> only_unit g u s1 s3.
Proof.
  intros [I1 P1 F1 L1 (e1 & T1 & E1)] [I2 P2 F2 L2 (e2 & T2 & E2)]. split; [congruence| | |auto|].
  - intros. rewrite P2, P1; done.
  - intros. rewrite F2, F1; done.
  - exists (e2 ++ e1). rewrite <- app_assoc, <- T1, <- T2. split; [done|]. by apply Forall_app.
Qed.
Lemma only_byte g u a v s : a = status_addr u \/ a = source_addr u -> only_unit g u s (set_byte g a v s).
Proof.
  intros Ha. split; [done| |done|done|by exists []]. intros g' a' H1 H2. rewrite byte_set, decide_False; [done|].
  intros [-> ->]. by destruct Ha as [->| ->].
Qed.
Lemma only_phase g u x s : only_unit g u s (set_phase g u x s).
Proof.
  split; [done..| |done|by exists []]. intros g' u' H. rewrite phase_set, decide_False; [done|]. by intros [-> ->].
Qed.
Lemma only_line g u s : only_unit g u s (set_line true s).
Proof. split; try done. by exists []. Qed.
Lemma only_event g u e s : e = Raised g u \/ e ∈ acts g u -> only_unit g u s (add_event e s).
Proof. intros He. split; try done. exists [e]. split; [done|]. by constructor. Qed.

Lemma page_event e s : mq_page (add_event e s) = mq_page s.
Proof. done. Qed.
Lemma page_phase g u x s : mq_page (set_phase g u x s) = mq_page s.
Proof. done. Qed.
Lemma phase_event e s : mq_phase (add_event e s) = mq_phase s.
Proof. done. Qed.
Lemma phase_byte g a v s : mq_phase (set_byte g a v s) = mq_phase s.
Proof. done. Qed.
Lemma status_byte g u v s : mq_page (set_byte g (status_addr u) v s) g (status_addr u) = v.
Proof. rewrite byte_set, decide_True; done. Qed.
Lemma source_byte g u v s : mq_page (set_byte g (source_addr u) v s) g (source_addr u) = v.
Proof. rewrite byte_set, decide_True; done. Qed.
Lemma status_source g u v s :
  is_unit g u -> mq_page (set_byte g (source_addr u) v s) g (status_addr u) = mq_page s g (status_addr u).
Proof using VL.
  intros Hu. destruct (unit_bytes g u g u Hu Hu) as (_ & _ & Hne & _). rewrite byte_set, decide_False; [done|]. by intros [_ ?].
Qed.
Lemma phase_here g u x s : mq_phase (set_phase g u x s) g u = x.
Proof. rewrite phase_set, decide_True; done. Qed.

(** ** What happens beside the handler keeps every stage *)

Lemma write32_mask ph g v s : stages ph s -> stages ph (write32 g I915_VF_IRQ_ENABLE v s).
Proof using VL.
  intros [Hm H]. split; [done|]. intros g' u' Hu'. apply (holds_same _ _ _ s); [|by apply H].
  destruct (unit_bytes g' u' g' u' Hu' Hu') as (_ & _ & _ & Hsrc & Hst).
  split; try done; unfold write32; cbn [foldl]; rewrite !byte_set, !decide_False by lia; done.
Qed.

Lemma device_keeps ph s s' : device_step s s' -> stages ph s -> stages ph s'.
Proof using VL.
  intros Hst Hs. destruct Hst as [g u Hu Hph|g u Hu Hph|g u Hu Hph|g|g].
  - apply (stages_stay ph g u s); [done| | |done].
    + eapply only_trans; [|by apply only_event; left]. eapply only_trans; [|apply only_phase]. by apply only_byte; left.
    + intros x. destruct x as [| |es]; cbn [holds]; unfold kept, visible, noticed;
        rewrite ?phase_event, ?phase_here, ?page_event, ?page_phase, ?status_byte; intuition.
  - apply (stages_stay ph g u s); [done| | |done].
    + eapply only_trans; [|apply only_phase]. by apply only_byte; right.
    + intros x. destruct x as [| |es]; cbn [holds]; unfold kept, visible, noticed;
        rewrite ?phase_here, ?page_phase, ?source_byte, ?status_source by done; intuition.
  - apply (stages_stay ph g u s); [done| | |done].
    + eapply only_trans; [|apply only_line]. apply only_phase.
    + intros x. destruct x as [| |es]; cbn [holds]; unfold kept, visible, noticed;
        change (mq_phase (set_line true ?x)) with (mq_phase x); change (mq_page (set_line true ?x)) with (mq_page x);
        rewrite ?phase_here, ?page_phase, ?Hph; intuition congruence.
  - unfold intel_iov_memirq_reset, mbind, st_bind. cbn. case_match; [by apply write32_mask|done].
  - unfold intel_iov_memirq_postinstall, mbind, st_bind. cbn. case_match; [by apply write32_mask|done].
Qed.

(** ** Steps of the handler *)

Lemma stages_move ph g u x y s s' :
  is_unit g u -> only_unit g u s s' -> (holds x g u s -> holds y g u s') ->
  stages (<[(g, u) := x]> ph) s -> stages (<[(g, u) := y]> ph) s'.
Proof using VL.
  intros Hu Ho Hxy Hs. pose proof (proj2 Hs g u Hu) as Hx. rewrite fn_lookup_insert in Hx.
  destruct (stages_only _ g u y s s' Hu Ho (Hxy Hx) Hs) as [Hm H]. split; [done|].
  intros g' u' Hu'. specialize (H g' u' Hu'). destruct (decide ((g', u') = (g, u))) as [[= -> ->]|Hne].
  - by rewrite fn_lookup_insert in *.
  - rewrite !fn_lookup_insert_ne in H by done. by rewrite fn_lookup_insert_ne.
Qed.

Lemma clear_source ph g u s : is_unit g u ->
  stages (<[(g, u) := Todo]> ph) s -> stages (<[(g, u) := Taken]> ph) (set_byte g (source_addr u) 0 s).
Proof using VL.
  intros Hu. apply stages_move; [done|by apply only_byte; right|].
  intros [Hk _] e He Hes. rewrite status_source by done. by apply Hk.
Qed.
Lemma source_clear ph g u s : is_unit g u -> mq_page s g (source_addr u) <> 0xff ->
  stages (<[(g, u) := Todo]> ph) s -> stages (<[(g, u) := Owing []]> ph) s.
Proof using VL.
  intros Hu Hne. apply stages_move; [done|by split; try done; exists []|].
  intros [Hk Hv]. split; [done|]. intros Hst. by destruct (Hv Hst); [left|].
Qed.
Lemma clear_status ph g u s : is_unit g u ->
  stages (<[(g, u) := Taken]> ph) s -> stages (<[(g, u) := Owing (acts g u)]> ph) (set_byte g (status_addr u) 0 s).
Proof using VL.
  intros Hu. apply stages_move; [done|by apply only_byte; left|].
  intros _. split; [by intros e He Hes|]. unfold noticed. by rewrite status_byte.
Qed.
Lemma status_clear ph g u s : is_unit g u -> mq_page s g (status_addr u) <> 0xff ->
  stages (<[(g, u) := Taken]> ph) s -> stages (<[(g, u) := Owing []]> ph) s.
Proof using VL. intros Hu Hne. apply stages_move; [done|by split; try done; exists []|]. intros Hk. split; [done|]. by intros Hst. Qed.
Lemma act_done ph g u e es s : is_unit g u -> e ∈ acts g u ->
  stages (<[(g, u) := Owing (e :: es)]> ph) s -> stages (<[(g, u) := Owing es]> ph) (add_event e s).
Proof using VL.
  intros Hu He. apply stages_move; [done|by apply only_event; right|]. intros [Hk Hn]. split; [|done].
  intros e' He' Hes'. rewrite page_event. cbn [add_event mq_trace pending]. case_decide as Hee; [done|].
  rewrite decide_False by (by apply (acts_not_raised g u)). apply Hk; [done|]. rewrite elem_of_cons. intuition.
Qed.

(** The handler among the device: it neither takes an interrupt back nor touches the line. *)
Definition same_device s s' : Prop := mq_phase s' = mq_phase s /\ mq_line s' = mq_line s.
#[export] Instance same_device_preorder : PreOrder same_device.
Proof. split; [done|]. intros s1 s2 s3 [] []. split; congruence. Qed.

Definition ends (ph : gt_id * Z -> stage) (p : prog memirq_state unit) s : Prop :=
  safe (fun _ => True) (rtc device_step) same_device p (fun _ => stages ph) s.

Lemma stages_rely ph s s' : rtc device_step s s' -> stages ph s -> stages ph s'.
Proof using VL. induction 1; [done|]. intros. by apply IHrtc, (device_keeps ph x). Qed.

Lemma ends_ret ph s : stages ph s -> ends ph (mret tt) s.
Proof using VL. intros Hs. apply safe_ret. intros s' HR _. by apply (stages_rely ph s). Qed.
Lemma ends_act {A} ph ph' (m : st memirq_state A) k s :
  stages ph s -> (forall s, stages ph s -> wp m (fun a s' => same_device s s' /\ ends ph' (k a) s') s) ->
  ends ph' (atom m ≫= k) s.
Proof using VL.
  intros Hs Hm. apply safe_act. intros s' HR _.
  eapply wp_mono; [apply Hm; by apply (stages_rely ph s)|]. intros a s2 [HG Hk]. by split_and!.
Qed.
Lemma ends_last ph ph' (f : memirq_state -> memirq_state) s :
  stages ph s -> (forall s, stages ph s -> same_device s (f s) /\ stages ph' (f s)) -> ends ph' (atom (modify f)) s.
Proof using VL.
  intros Hs Hf. apply safe_atom. intros s' HR _. cbn. destruct (Hf s') as [HG Hs']; [by apply (stages_rely ph s)|].
  split_and!; [done..|]. intros s3 HR3 _. by apply (stages_rely ph' (f s')).
Qed.
Lemma ends_then ph ph' p q s :
  ends ph p s -> (forall s, stages ph s -> ends ph' q s) -> ends ph' (p ≫= fun _ => q) s.
Proof using VL.
  intros Hp Hq. apply (safe_then _ _ _ _ _ (fun _ => stages ph)); [done| |done]. intros _ s' _. apply Hq.
Qed.

Lemma ends_status ph g u (notify : prog memirq_state unit) s :
  is_unit g u ->
  (forall s, stages (<[(g, u) := Owing (acts g u)]> ph) s -> ends (<[(g, u) := Owing []]> ph) notify s) ->
  stages (<[(g, u) := Taken]> ph) s ->
  ends (<[(g, u) := Owing []]> ph)
    (value ← READ_ONCE g (status_addr u);
     if value =? 0xff then WRITE_ONCE g (status_addr u) 0 ≫= fun _ => notify else mret tt) s.
Proof using VL.
  intros Hu Hn Hs. eapply ends_act; [exact Hs|]. clear s Hs. intros s Hs. apply wp_gets. split; [done|].
  destruct (Z.eqb_spec (mq_page s g (status_addr u)) 0xff) as [E|E].
  - eapply ends_act; [exact Hs|]. clear s Hs E. intros s Hs. apply wp_modify. split; [done|].
    by apply Hn, clear_status.
  - by apply ends_ret, status_clear.
Qed.

(** A unit that is to be checked, or has been, is done after the check of its source. *)
Lemma ends_source ph g u (check : prog memirq_state unit) s :
  is_unit g u ->
  (forall s, stages (<[(g, u) := Taken]> ph) s -> ends (<[(g, u) := Owing []]> ph) check s) ->
  stages (<[(g, u) := Todo]> ph) s ->
  ends (<[(g, u) := Owing []]> ph) (check_source g (source_addr u) check) s.
Proof using VL.
  intros Hu Hc Hs. eapply ends_act; [exact Hs|]. clear s Hs. intros s Hs. apply wp_gets. split; [done|].
  destruct (Z.eqb_spec (mq_page s g (source_addr u)) 0xff) as [E|E].
  - eapply ends_act; [exact Hs|]. clear s Hs E. intros s Hs. apply wp_modify. split; [done|].
    by apply Hc, clear_source.
  - by apply ends_ret, source_clear.
Qed.

Lemma ends_engine ph g u s : g ∈ mq_gts -> u ∈ engine_offsets g ->
  stages (<[(g, u) := Todo]> ph) s ->
  ends (<[(g, u) := Owing []]> ph) (check_source g (I915_VF_IRQ_SOURCE + u)
    (__engine_mem_irq_handler g u (I915_VF_IRQ_STATUS + u * SZ_16))) s.
Proof using VL.
  intros Hg Hu. assert (is_unit g u) as Hunit by by split; [|left].
  assert (I915_VF_IRQ_STATUS + u * SZ_16 + Z.log2 GT_RENDER_USER_INTERRUPT = status_addr u) as Ha
    by (unfold status_addr; by rewrite (engine_not_guc g u Hu)).
  assert (acts g u = [Breadcrumbs g u; Tasklet g u]) as Hacts by (unfold acts; by rewrite (engine_not_guc g u Hu)).
  apply ends_source; [done|]. intros s1. unfold __engine_mem_irq_handler. rewrite Ha. apply ends_status; [done|].
  rewrite Hacts. intros s2 Hs2. eapply ends_act; [exact Hs2|]. intros s3 Hs3. apply wp_modify. split; [done|].
  eapply ends_last; [apply act_done, Hs3; [done|rewrite Hacts; apply list_elem_of_here]|].
  intros s4 Hs4. split; [done|]. apply act_done; [done| |done]. rewrite Hacts. set_solver.
Qed.

Lemma ends_guc ph g s : g ∈ mq_gts -> guc_interrupts_enabled g = true ->
  stages (<[(g, GEN11_GUC) := Todo]> ph) s ->
  ends (<[(g, GEN11_GUC) := Owing []]> ph) (check_source g (I915_VF_IRQ_SOURCE + GEN11_GUC)
    (__guc_mem_irq_handler g (I915_VF_IRQ_STATUS + GEN11_GUC * SZ_16))) s.
Proof using VL.
  intros Hg Hen. assert (is_unit g GEN11_GUC) as Hunit by by split; [|right].
  apply (ends_source _ _ GEN11_GUC); [done|]. intros s1. apply (ends_status _ _ GEN11_GUC); [done|].
  intros s2 Hs2. unfold intel_guc_to_host_event_handler. rewrite Hen. eapply ends_last; [exact Hs2|].
  intros s3 Hs3. split; [done|]. by apply act_done; [|apply list_elem_of_here|].
Qed.

(** A loop over units that are checked one by one. *)
Definition to_do (todo : list (gt_id * Z)) : gt_id * Z -> stage :=
  fun k => if decide (k ∈ todo) then Todo else Owing [].

Lemma to_do_next k todo s : stages (to_do (k :: todo)) s -> stages (<[k := Todo]> (to_do todo)) s.
Proof.
  intros [Hm H]. split; [done|]. intros g u Hu. specialize (H g u Hu). unfold to_do in *.
  destruct (decide ((g, u) = k)) as [<-|Hne].
  - rewrite fn_lookup_insert. rewrite decide_True in H by apply list_elem_of_here. done.
  - rewrite fn_lookup_insert_ne by done. rewrite (decide_ext _ ((g, u) ∈ todo)) in H; [done|].
    rewrite elem_of_cons. intuition.
Qed.
Lemma noticed_visible g u s : holds (Owing []) g u s -> holds Todo g u s.
Proof. intros [Hk Hn]. split; [done|]. intros Hst. destruct (Hn Hst) as [?|[? _]]; auto. Qed.
Lemma ends_checked k todo p s : ends (<[k := Owing []]> (to_do todo)) p s -> ends (to_do todo) p s.
Proof.
  intros Hp. eapply safe_mono; [exact Hp|]. intros _ s' [Hm H]. split; [done|]. intros g u Hu. specialize (H g u Hu).
  unfold to_do in *. destruct (decide ((g, u) = k)) as [<-|Hne].
  - rewrite fn_lookup_insert in H. case_decide; [by apply noticed_visible|done].
  - by rewrite fn_lookup_insert_ne in H.
Qed.

Lemma ends_engines g l todo s :
  g ∈ mq_gts -> l ⊆ engine_offsets g -> stages (to_do (map (g,.) l ++ todo)) s ->
  ends (to_do todo) (each l (fun u => check_source g (I915_VF_IRQ_SOURCE + u)
    (__engine_mem_irq_handler g u (I915_VF_IRQ_STATUS + u * SZ_16)))) s.
Proof using VL.
  intros Hg. revert s. induction l as [|u l IH]; intros s Hl Hs; [by apply ends_ret|]. cbn [each].
  apply (ends_then (to_do (map (g,.) l ++ todo))).
  - apply ends_checked with (g, u), ends_engine; [done|apply Hl, list_elem_of_here|by apply to_do_next].
  - intros s' Hs'. apply IH; [|done]. intros x Hx. by apply Hl, list_elem_of_further.
Qed.

Definition units_of (g : gt_id) : list (gt_id * Z) := map (g,.) (engine_offsets g) ++ [(g, GEN11_GUC)].

Lemma ends_handler g todo s :
  g ∈ mq_gts -> guc_interrupts_enabled g = true -> stages (to_do (units_of g ++ todo)) s ->
  ends (to_do todo) (intel_iov_memirq_handler g) s.
Proof using VL.
  intros Hg Hen Hs. eapply ends_act; [exact Hs|]. clear s Hs. intros s Hs. apply wp_gets. split; [done|].
  rewrite (proj1 Hs g Hg). cbn [negb]. unfold units_of in Hs. rewrite <- app_assoc in Hs.
  apply (ends_then (to_do ((g, GEN11_GUC) :: todo))); [by apply ends_engines|].
  intros s' Hs'. apply ends_checked with (g, GEN11_GUC), ends_guc; [done..|by apply to_do_next].
Qed.

Lemma ends_handlers gts todo s :
  gts ⊆ mq_gts -> (forall g, guc_interrupts_enabled g = true) -> stages (to_do (concat (map units_of gts) ++ todo)) s ->
  ends (to_do todo) (each gts intel_iov_memirq_handler) s.
Proof using VL.
  intros Hg Hen. revert s. induction gts as [|g gts IH]; intros s Hs; [by apply ends_ret|]. cbn [each].
  apply (ends_then (to_do (concat (map units_of gts) ++ todo))).
  - apply ends_handler; [apply Hg, list_elem_of_here|done|]. cbn [map concat] in Hs. by rewrite <- app_assoc in Hs.
  - intros s' Hs'. apply IH; [|done]. intros x Hx. by apply Hg, list_elem_of_further.
Qed.

(** An entry of the handler takes the message and checks every unit. *)
Lemma enter_handler s :
  intel_irqs_enabled = true -> (forall g, guc_interrupts_enabled g = true) -> stages (to_do []) s ->
  ends (to_do []) vf_mem_irq_handler (set_line false s).
Proof using VL.
  intros Hirq Hen [Hm H]. unfold vf_mem_irq_handler. rewrite Hirq. cbn [negb]. apply ends_handlers; [done..|].
  rewrite app_nil_r. split; [done|]. intros g u Hu. unfold to_do. rewrite decide_True.
  - by apply (noticed_visible g u s), (H g u).
  - apply list_elem_of_In, in_concat. exists (units_of g). rewrite <- !list_elem_of_In. destruct Hu as [Hg Hu].
    split; [by apply list_elem_of_fmap_2|]. unfold units_of. apply elem_of_app. destruct Hu as [Hu| ->].
    + left. by apply list_elem_of_fmap_2.
    + right. apply list_elem_of_here.
Qed.

(** ** All interrupts are served *)

Definition irq_inv (x : option (prog memirq_state unit) * memirq_state) : Prop :=
  match x.1 with None => stages (to_do []) x.2 | Some p => ends (to_do []) p x.2 end.

Lemma irq_step_inv x y :
  intel_irqs_enabled = true -> (forall g, guc_interrupts_enabled g = true) -> irq_step x y -> irq_inv x -> irq_inv y.
Proof using VL.
  intros Hirq Hen Hst Hx. destruct Hst as [t s s' Hd|s Hl|p s|s]; unfold irq_inv in *; cbn [fst snd] in *.
  - destruct t as [p|]; [|by apply (device_keeps _ s)].
    apply (safe_interfere _ _ _ _ _ s); [by apply rtc_once|done].
  - by apply enter_handler.
  - pose proof (safe_step (fun _ => True) (rtc device_step) same_device p _ s _ I Hx) as Hp.
    destruct (step_prog p s) as [p' s']. apply Hp.
  - by apply Hx.
Qed.

Lemma ready_inv s : irq_ready s -> irq_inv (None, s).
Proof.
  intros [Hm Hst Hph Hl Ht]. split; [done|]. intros g u Hu. unfold to_do. cbn [fst snd].
  split; [intros e _ _; by rewrite Ht|]. intros Hff. exfalso. rewrite Hst in Hff; done.
Qed.

(** Nothing waits once the device and the CPU are at rest. *)
Lemma at_rest_served s g u e :
  stages (to_do []) s -> mq_line s = false -> mq_phase s g u = HwIdle -> is_unit g u -> e ∈ acts g u ->
  pending g u e (mq_trace s) = false.
Proof.
  intros [_ H] Hl Hph Hu He. destruct (H g u Hu) as [Hk Hn]. apply not_true_iff_false. intros Hp.
  destruct (Hn (Hk e He ltac:(apply not_elem_of_nil) Hp)) as [?|[_ [?|?]]]; congruence.
Qed.

Lemma settled x :
  intel_irqs_enabled = true -> (forall g, guc_interrupts_enabled g = true) -> irq_inv x ->
  stages (to_do []) (settle x) /\ mq_line (settle x) = false /\ mq_phase (settle x) = mq_phase x.2.
Proof using VL.
  intros Hirq Hen Hx. destruct x as [t s]. unfold settle, irq_inv in *. cbn [fst snd] in *.
  assert (let s1 := match t with Some p => snd (atomically p s) | None => s end in
          stages (to_do []) s1 /\ mq_phase s1 = mq_phase s) as [Hs1 Hph1].
  { destruct t as [p|]; [|done]. destruct (safe_atomically _ _ _ p _ s _ I Hx) as [[Hph _] Hs]. done. }
  set (s1 := match t with Some p => snd (atomically p s) | None => s end) in *.
  destruct (mq_line s1) eqn:Hl; [|done].
  destruct (safe_atomically _ _ _ _ _ _ _ I (enter_handler s1 Hirq Hen Hs1)) as [[Hph2 Hl2] Hs2].
  split_and!; [done..|]. by rewrite Hph2.
Qed.

(** C35: no interrupt of a VF is lost. From a device at rest, in every interleaving of the device,
    which writes status and source bytes of any unit on any GT and raises the line while the
    handler runs, of the actions of the handler and of threads that mask and unmask: once the
    device has nothing more under way, the handler, entered at most once more, leaves no line up
    and every interrupt has been followed by all that it asks for, the breadcrumbs and the tasklet
    of its engine or the event handler of GuC. *)
Theorem irqs_served s0 t s :
  intel_irqs_enabled = true -> (forall g, guc_interrupts_enabled g = true) ->
  irq_ready s0 -> rtc irq_step (None, s0) (t, s) -> (forall g u, mq_phase s g u = HwIdle) ->
  mq_line (settle (t, s)) = false /\
  forall g u e, is_unit g u -> e ∈ acts g u -> pending g u e (mq_trace (settle (t, s))) = false.
Proof using VL.
  intros Hirq Hen Hready Hrun Hidle.
  assert (irq_inv (t, s)) as Hinv.
  { pose proof (ready_inv s0 Hready) as H0. remember (None, s0) as x eqn:Ex. clear Ex. induction Hrun as [|x y z Hst _ IH]; [done|].
    apply IH. by apply (irq_step_inv x). }
  destruct (settled _ Hirq Hen Hinv) as (Hs & Hl & Hph). split; [done|]. intros g u e Hu He.
  apply at_rest_served; try done. by rewrite Hph.
Qed.
End units.

(** ** Witness *)

(** Meteor Lake: the render and the copy engine on the root GT, two video engines on the media
    GT, and memory for both pages. *)
Definition sample_memirq : MemirqEnv := {|
  HAS_MEMORY_IRQ_STATUS := true;
  object_create_shmem _ := 0;
  object_pin_map_unlocked _ := 0;
  vma_instance _ := 0;
  vma_pin _ := 0;
  guc_ggtt_offset _ := 0x100000;
  mq_gts := [GT_PRIMARY; GT_MEDIA];
  engine_offsets g := match g with GT_PRIMARY => [0; 15] | GT_MEDIA => [32; 63] end;
  intel_irqs_enabled := true;
  guc_interrupts_enabled _ := true;
|}.
#[export] Instance sample_memirq_laws : MemirqEnvLaws sample_memirq.
Proof. intros []; repeat constructor; lia || discriminate. Qed.

(** Both pages after [intel_iov_memirq_init]. *)
Definition sample_irq_start : memirq_state :=
  snd ((intel_iov_memirq_init (V := sample_memirq) GT_PRIMARY ≫= fun _ =>
        intel_iov_memirq_init (V := sample_memirq) GT_MEDIA)
    {| mq_irq _ := {| irq_obj := false; irq_vma := None; irq_vaddr := false |}; mq_page _ _ := 0; mq_objs _ := 0;
       mq_maps _ := 0; mq_pins _ := 0; mq_phase _ _ := HwIdle; mq_line := false; mq_trace := [] |}).

Lemma sample_irq_ready : irq_ready (V := sample_memirq) sample_irq_start.
Proof.
  split; try done; [by intros []|]. intros g u [_ [Hu| ->]]; [|by destruct g].
  destruct g; repeat (apply elem_of_cons in Hu as [->|Hu]; [done|]); by apply elem_of_nil in Hu.
Qed.

(** An interrupt of a unit at rest, from its first byte to the line. *)
Definition whole_irq (g : gt_id) (u : Z) (s : memirq_state) : memirq_state :=
  set_line true (set_phase g u HwIdle (set_phase g u HwSourceWritten (set_byte g (source_addr u) 0xff
    (add_event (Raised g u) (set_phase g u HwStatusWritten (set_byte g (status_addr u) 0xff s)))))).

Lemma irq_whole `{V : MemirqEnv} t g u s :
  is_unit g u -> mq_phase s g u = HwIdle -> rtc irq_step (t, s) (t, whole_irq g u s).
Proof.
  intros Hu Hph. eapply rtc_l; [by apply IrqDevice, DevStatus|].
  eapply rtc_l; [apply IrqDevice, DevSource; [done|]|].
  { rewrite phase_event. apply phase_here. }
  eapply rtc_l; [apply IrqDevice, DevSignal; [done|apply phase_here]|]. apply rtc_refl.
Qed.

Lemma irq_own_steps `{V : MemirqEnv} k p s :
  rtc irq_step (Some p, s) (Some (own_steps k (p, s)).1, (own_steps k (p, s)).2).
Proof.
  induction k as [|k IH]; [done|]. eapply rtc_r; [exact IH|].
  change (own_steps (S k) (p, s)) with (step_prog (own_steps k (p, s)).1 (own_steps k (p, s)).2).
  destruct (own_steps k (p, s)) as [p' s']. cbn [fst snd].
  replace (Some (step_prog p' s').1, (step_prog p' s').2) with (let '(p'', s'') := step_prog p' s' in (Some p'', s''))
    by (by destruct (step_prog p' s')). apply IrqRun.
Qed.

(** The render engine has an interrupt, the handler is in its first steps, and GuC of the media
    GT has one too. *)
Definition sample_irq_mid : prog memirq_state unit * memirq_state :=
  own_steps 3 (vf_mem_irq_handler (V := sample_memirq), set_line false (whole_irq GT_PRIMARY 0 sample_irq_start)).
Definition sample_irq_run : option (prog memirq_state unit) * memirq_state :=
  (Some sample_irq_mid.1, whole_irq GT_MEDIA GEN11_GUC sample_irq_mid.2).

Lemma sample_irq_reached : rtc (irq_step (V := sample_memirq)) (None, sample_irq_start) sample_irq_run.
Proof.
  trans (@None (prog memirq_state unit), whole_irq GT_PRIMARY 0 sample_irq_start).
  { apply (irq_whole (V := sample_memirq)); [|done].
    split; [apply list_elem_of_here|left; apply list_elem_of_here]. }
  eapply rtc_l; [by apply IrqEnter|]. trans (Some sample_irq_mid.1, sample_irq_mid.2).
  { apply (irq_own_steps (V := sample_memirq) 3). }
  apply (irq_whole (V := sample_memirq)); [|by vm_compute].
  split; [apply list_elem_of_further, list_elem_of_here|by right].
Qed.

Lemma irqs_served_witness :
  mq_line (settle (V := sample_memirq) sample_irq_run) = false /\
  pending GT_MEDIA GEN11_GUC (GucEvent GT_MEDIA) (mq_trace (settle (V := sample_memirq) sample_irq_run)) = false.
Proof.
  destruct (irqs_served (V := sample_memirq) sample_irq_start (fst sample_irq_run) (snd sample_irq_run)
    eq_refl (fun _ => eq_refl) sample_irq_ready) as [Hl Hp].
  - exact sample_irq_reached.
  - intros g u. vm_compute. destruct g; repeat case_match; done.
  - split; [exact Hl|]. apply (Hp GT_MEDIA GEN11_GUC); [|apply list_elem_of_here].
    split; [apply list_elem_of_further, list_elem_of_here|by right].
Defined.

(** What the run does: all that both interrupts ask for, in the same run of the handler. *)
Example sample_irq_trace :
  mq_trace (settle (V := sample_memirq) sample_irq_run) =
    [GucEvent GT_MEDIA; Tasklet GT_PRIMARY 0; Breadcrumbs GT_PRIMARY 0; Raised GT_MEDIA GEN11_GUC; Raised GT_PRIMARY 0].
Proof. by vm_compute. Qed.
