(* ===== verification/VfInit.v ===== *)
(** * How a VF starts

    The VF's part of gt/iov/intel_iov.c: it learns its configuration, limits itself to its
    contexts and takes what is not its own out of the GGTT ([i915_ggtt_balloon] and
    [ggtt_reserve_guc_top] of gt/intel_ggtt.c), so that whatever it allocates
    lies in the region that the PF gave it. *)

From stdpp Require Import relations.
From S2P Require Export VfConf GgttProv Ctxs Memirq.

(** ** State *)

(** include/drm/drm_mm.h: an exact range is reserved when there is a hole around it. *)
Class ReserveSpace (M : GgttSpace) := { drm_mm_reserve_node : gtt_space -> Z * Z -> Z * gtt_space }.

Class ReserveSpaceLaws {M : GgttSpace} (S : ReserveSpace M) : Prop := {
  reserve_ok m n m' : drm_mm_reserve_node m n = (0, m') ->
    0 < n.2 /\ (forall k, k ∈ mm_pinned m -> ranges_disj n k) /\
    (forall k, k ∈ mm_pinned m' <-> k = n \/ k ∈ mm_pinned m);
  reserve_err m n err m' : drm_mm_reserve_node m n = (err, m') -> err <> 0 ->
    err = - ENOSPC /\ forall k, k ∈ mm_pinned m' <-> k ∈ mm_pinned m;
}.

(** The part of a VF's GT and of its GGTT that the start works on. *)
Record vf_gt {W : Type} {M : GgttSpace} := {
  vi_iov : vf_iov W;
  vi_irq : memirq_state;
  vi_mm : gtt_space;                      (** [ggtt->vm.mm] *)
  vi_reserved : Z;                        (** [ggtt->vm.reserved] *)
  vi_ggtt_balloon0 : drm_mm_node;         (** [iov->vf.ggtt_balloon] *)
  vi_ggtt_balloon1 : drm_mm_node;
  vi_uc_fw : drm_mm_node;                 (** [ggtt->uc_fw] *)
  vi_ids_in_use : Z;                      (** [guc->submission_state] *)
  vi_num_guc_ids : Z;
}.
Arguments vf_gt W {M}.

Section setters.
Context {W : Type} {M : GgttSpace}.
Implicit Types v : vf_gt W.

Definition on_vf_iov {A} (m : st (vf_iov W) A) : st (vf_gt W) A := fun v =>
  let '(a, i) := m (vi_iov v) in
  (a, {| vi_iov := i; vi_irq := vi_irq v; vi_mm := vi_mm v; vi_reserved := vi_reserved v;
         vi_ggtt_balloon0 := vi_ggtt_balloon0 v; vi_ggtt_balloon1 := vi_ggtt_balloon1 v;
         vi_uc_fw := vi_uc_fw v; vi_ids_in_use := vi_ids_in_use v; vi_num_guc_ids := vi_num_guc_ids v |}).
Definition on_irq {A} (m : st memirq_state A) : st (vf_gt W) A := fun v =>
  let '(a, i) := m (vi_irq v) in
  (a, {| vi_iov := vi_iov v; vi_irq := i; vi_mm := vi_mm v; vi_reserved := vi_reserved v;
         vi_ggtt_balloon0 := vi_ggtt_balloon0 v; vi_ggtt_balloon1 := vi_ggtt_balloon1 v;
         vi_uc_fw := vi_uc_fw v; vi_ids_in_use := vi_ids_in_use v; vi_num_guc_ids := vi_num_guc_ids v |}).
Definition set_space (mm : gtt_space) (reserved : Z) v : vf_gt W :=
  {| vi_iov := vi_iov v; vi_irq := vi_irq v; vi_mm := mm; vi_reserved := reserved;
     vi_ggtt_balloon0 := vi_ggtt_balloon0 v; vi_ggtt_balloon1 := vi_ggtt_balloon1 v;
     vi_uc_fw := vi_uc_fw v; vi_ids_in_use := vi_ids_in_use v; vi_num_guc_ids := vi_num_guc_ids v |}.
(** [ggtt_balloon[1]] for [true]. *)
Definition balloon (second : bool) v : drm_mm_node := if second then vi_ggtt_balloon1 v else vi_ggtt_balloon0 v.
Definition set_balloon (second : bool) (n : drm_mm_node) v : vf_gt W :=
  {| vi_iov := vi_iov v; vi_irq := vi_irq v; vi_mm := vi_mm v; vi_reserved := vi_reserved v;
     vi_ggtt_balloon0 := if second then vi_ggtt_balloon0 v else n;
     vi_ggtt_balloon1 := if second then n else vi_ggtt_balloon1 v;
     vi_uc_fw := vi_uc_fw v; vi_ids_in_use := vi_ids_in_use v; vi_num_guc_ids := vi_num_guc_ids v |}.
Definition set_uc_fw (n : drm_mm_node) v : vf_gt W :=
  {| vi_iov := vi_iov v; vi_irq := vi_irq v; vi_mm := vi_mm v; vi_reserved := vi_reserved v;
     vi_ggtt_balloon0 := vi_ggtt_balloon0 v; vi_ggtt_balloon1 := vi_ggtt_balloon1 v;
     vi_uc_fw := n; vi_ids_in_use := vi_ids_in_use v; vi_num_guc_ids := vi_num_guc_ids v |}.
Definition set_num_guc_ids (n : Z) v : vf_gt W :=
  {| vi_iov := vi_iov v; vi_irq := vi_irq v; vi_mm := vi_mm v; vi_reserved := vi_reserved v;
     vi_ggtt_balloon0 := vi_ggtt_balloon0 v; vi_ggtt_balloon1 := vi_ggtt_balloon1 v;
     vi_uc_fw := vi_uc_fw v; vi_ids_in_use := vi_ids_in_use v; vi_num_guc_ids := n |}.
End setters.

Section vf.
Context {W : Type} `{T : VfTransport W} `{P : ServiceEnv} {M : GgttSpace} {S : ReserveSpace M} `{V : MemirqEnv}.
#[local] Abbreviation op A := (st (vf_gt W) A).

(** ** Balloons *)

(** [i915_gem_gtt_reserve] with [PIN_NOEVICT]: nothing is evicted for the node, which [put]
    stores. *)
Definition i915_gem_gtt_reserve (put : drm_mm_node -> vf_gt W -> vf_gt W) (size offset : Z) : op Z := fun v =>
  let '(err, mm) := drm_mm_reserve_node (vi_mm v) (offset, size) in
  (err, set_space mm (vi_reserved v) (put {| allocated := err =? 0; start := offset; size := size |} v)).

Definition i915_ggtt_balloon (second : bool) (start end_ : Z) : op Z :=
  let size := u64 (end_ - start) in
  err ← i915_gem_gtt_reserve (set_balloon second) size start;
  if negb (err =? 0) then mret err else
  modify (fun v => set_space (vi_mm v) (u64 (vi_reserved v + PfState.size (balloon second v))) v) ≫= fun _ => mret 0.

Definition i915_ggtt_deballoon (second : bool) : op unit :=
  node ← gets (balloon second);
  if negb (allocated node) then mret tt else
  modify (fun v => set_space (vi_mm v) (u64 (vi_reserved v - PfState.size node)) v) ≫= fun _ =>
  modify (fun v => set_balloon second {| allocated := false; start := start node; size := PfState.size node |}
    (set_space (PfState.drm_mm_remove_node (vi_mm v) (node_range node)) (vi_reserved v) v)).

Definition vf_balloon_ggtt : op Z :=
  c ← gets (fun v => f_config (vi_iov v));
  err ← i915_ggtt_balloon false 0 (ggtt_base c);
  if negb (err =? 0) then mret err else
  i915_ggtt_balloon true (u64 (ggtt_base c + ggtt_size c)) GUC_GGTT_TOP.

Definition vf_deballoon_ggtt : op unit := i915_ggtt_deballoon true ≫= fun _ => i915_ggtt_deballoon false.

(** [intel_iov_init_ggtt] and [intel_iov_fini_ggtt] of a VF *)
Definition vf_init_ggtt : op Z :=
  err ← vf_balloon_ggtt;
  if negb (err =? 0) then mret err else mret 0.
Definition vf_fini_ggtt : op unit := vf_deballoon_ggtt.

(** ** The GGTT of a VF *)

(** [ggtt->vm.total] by [gen12vf_ggtt_probe] *)
Definition vf_total : Z := Z.shiftl 1 (Z.log2 (GUC_GGTT_TOP - 1) + 1).
Definition GUC_TOP_RESERVE_SIZE : Z := 2 ^ 32 - GUC_GGTT_TOP.

Definition ggtt_reserve_guc_top (uses_guc : bool) : op Z :=
  if negb uses_guc then mret 0 else
  i915_gem_gtt_reserve set_uc_fw GUC_TOP_RESERVE_SIZE (vf_total - GUC_TOP_RESERVE_SIZE).
Definition ggtt_release_guc_top : op unit :=
  node ← gets vi_uc_fw;
  if negb (allocated node) then mret tt else
  modify (fun v => set_uc_fw {| allocated := false; start := start node; size := PfState.size node |}
    (set_space (PfState.drm_mm_remove_node (vi_mm v) (node_range node)) (vi_reserved v) v)).

(** [init_ggtt] of a VF that is no GVT guest. It has no aperture ([mappable_end] is 0), and so no
    node for the capture of errors, and its [clear_range] does nothing. *)
Definition init_ggtt (uses_guc : bool) : op Z :=
  ret ← vf_init_ggtt;
  if negb (ret =? 0) then mret ret else
  ret ← ggtt_reserve_guc_top uses_guc;
  if negb (ret =? 0) then ggtt_release_guc_top ≫= fun _ => mret ret else mret 0.

(** ** The [struct intel_iov] of a VF *)

(** [intel_iov_init_mmio] of a VF; the early query of the registers needs no fuel. *)
Definition vf_init_mmio : op (option Z) :=
  ret ← on_vf_iov intel_iov_query_bootstrap;
  if negb (ret =? 0) then mret (Some ret) else
  ret ← on_vf_iov intel_iov_query_config;
  if negb (ret =? 0) then mret (Some ret) else
  on_vf_iov (intel_iov_query_runtime 0 true).

(** [intel_guc_submission_limit_ids] in the VF *)
Definition vf_limit_ids (limit : Z) : op Z :=
  used ← gets vi_ids_in_use;
  if limit >? GUC_MAX_CONTEXT_ID then mret (- E2BIG) else
  if negb (used =? 0) then mret (- ETXTBSY) else
  modify (set_num_guc_ids limit) ≫= fun _ => mret 0.

Definition vf_tweak_guc_submission : op Z :=
  n ← gets (fun v => vf_num_ctxs (f_config (vi_iov v)));
  vf_limit_ids n.

(** [intel_iov_init] and [intel_iov_fini] of a VF *)
Definition vf_init (g : gt_id) : op Z :=
  err ← on_vf_iov intel_iov_query_bootstrap;
  if negb (err =? 0) then mret err else
  vf_tweak_guc_submission ≫= fun _ =>
  err ← on_irq (intel_iov_memirq_init g);
  if negb (err =? 0) then mret err else mret 0.
Definition vf_fini (g : gt_id) : op unit := on_irq (intel_iov_memirq_fini g).

(** [intel_iov_init_hw] and [intel_iov_fini_hw] of a VF; fuel as in VfIov.v *)
Definition vf_init_hw (fuel : nat) : op (option Z) :=
  err ← on_vf_iov (intel_iov_query_runtime fuel false);
  mret (match err with None => None | Some err => Some (if negb (err =? 0) then - EIO else 0) end).
Definition vf_fini_hw : op unit := on_vf_iov intel_iov_query_fini.

(** [intel_iov_init_late] of a VF *)
Definition vf_init_late (uses_guc_submission : bool) : op Z :=
  if negb uses_guc_submission then mret (- EIO) else mret 0.
End vf.

(** ** What the balloons take *)

Section balloons.
Context {W : Type} {M : GgttSpace} {S : ReserveSpace M} `{!ReserveSpaceLaws S}.
Implicit Types v : vf_gt W.

(** The space and the balloons changed and nothing else. *)
Definition rest v := (vi_iov v, vi_irq v, vi_uc_fw v, vi_ids_in_use v, vi_num_guc_ids v).

Lemma wp_balloon second s e (Q : Z -> vf_gt W -> Prop) v :
  (forall v', rest v' = rest v -> balloon (negb second) v' = balloon (negb second) v ->
     allocated (balloon second v') = false -> vi_reserved v' = vi_reserved v ->
     (forall k, k ∈ mm_pinned (vi_mm v') <-> k ∈ mm_pinned (vi_mm v)) -> Q (- ENOSPC) v') ->
  (forall v', rest v' = rest v -> balloon (negb second) v' = balloon (negb second) v ->
     balloon second v' = {| allocated := true; start := s; size := u64 (e - s) |} ->
     vi_reserved v' = u64 (vi_reserved v + u64 (e - s)) -> 0 < u64 (e - s) ->
     (forall k, k ∈ mm_pinned (vi_mm v) -> ranges_disj (s, u64 (e - s)) k) ->
     (forall k, k ∈ mm_pinned (vi_mm v') <-> k = (s, u64 (e - s)) \/ k ∈ mm_pinned (vi_mm v)) -> Q 0 v') ->
  wp (i915_ggtt_balloon second s e) Q v.
Proof using Type*.
  intros Herr Hok. unfold i915_ggtt_balloon. cbv zeta. apply wp_bind. unfold wp at 1, i915_gem_gtt_reserve.
  destruct (drm_mm_reserve_node (vi_mm v) (s, u64 (e - s))) as [err mm] eqn:E. cbn [fst snd].
  destruct (Z.eqb_spec err 0) as [->|Hne]; cbn [negb].
  - apply reserve_ok in E as (H1 & H2 & H3). apply wp_bind, wp_modify, wp_ret.
    apply Hok; destruct second; try done.
  - apply reserve_err in E as [-> H1]; [|done]. apply wp_ret. apply Herr; destruct second; try done.
Qed.

(** The balloons that are allocated are nodes of [v'] that [v0] does not have. *)
Definition taken v : Z := sumZ ((fun b => if allocated (balloon b v) then size (balloon b v) else 0) <$> [false; true]).
Record held v0 v' : Prop := {
  hd_rest : rest v' = rest v0;
  hd_pinned k : k ∈ mm_pinned (vi_mm v') <->
    k ∈ mm_pinned (vi_mm v0) \/ exists b, allocated (balloon b v') = true /\ k = node_range (balloon b v');
  hd_new b : allocated (balloon b v') = true -> node_range (balloon b v') ∉ mm_pinned (vi_mm v0);
  hd_apart : allocated (balloon false v') = true -> allocated (balloon true v') = true ->
    node_range (balloon false v') <> node_range (balloon true v');
  hd_reserved : vi_reserved v' = u64 (vi_reserved v0 + taken v');
}.

(** The balloons of a VF whose region is [base, base + sz). *)
Record ballooned (base sz : Z) v : Prop := {
  bl_first : node_range (balloon false v) = (0, base);
  bl_second : node_range (balloon true v) = (base + sz, GUC_GGTT_TOP - (base + sz));
  bl_pinned b : node_range (balloon b v) ∈ mm_pinned (vi_mm v);
}.

Lemma disj_not_in (n : Z * Z) (l : list (Z * Z)) : 0 < n.2 -> (forall k, k ∈ l -> ranges_disj n k) -> n ∉ l.
Proof. intros Hn Hl Hin. specialize (Hl n Hin). unfold ranges_disj in Hl. lia. Qed.

(** On every path the VF holds what its balloons say. It starts only when something lies below
    its region and above it. *)
Lemma wp_init_ggtt (Q : Z -> vf_gt W -> Prop) v :
  let base := ggtt_base (f_config (vi_iov v)) in
  let sz := ggtt_size (f_config (vi_iov v)) in
  0 <= base -> 0 <= sz -> base + sz <= GUC_GGTT_TOP -> is_u64 (vi_reserved v) ->
  (forall b, allocated (balloon b v) = false) ->
  (forall v', held v v' -> Q (- ENOSPC) v') ->
  (forall v', held v v' -> ballooned base sz v' -> 0 < base -> base + sz < GUC_GGTT_TOP -> Q 0 v') ->
  wp vf_init_ggtt Q v.
Proof using Type*.
  intros base sz Hb Hs Htop Hres0 Hfree Herr Hok. unfold vf_init_ggtt, vf_balloon_ggtt.
  assert (GUC_GGTT_TOP < 2 ^ 64) as Htop64 by done.
  apply wp_bind, wp_bind, wp_gets. fold base sz. apply wp_bind, wp_balloon.
  - intros v1 Hr Ho Ha Hres Hp. cbn [negb Z.eqb]. do 2 apply wp_ret. cbn [negb]. apply Herr. cbn [negb] in Ho.
    assert (forall b, allocated (balloon b v1) = false) as Hno by (intros []; [by rewrite Ho|done]).
    split; [done|..].
    + intros k. rewrite Hp. split; [by left|]. intros [?|(b & Hb1 & _)]; [done|]. by rewrite Hno in Hb1.
    + intros b Hb1. by rewrite Hno in Hb1.
    + intros Hb1. by rewrite Hno in Hb1.
    + unfold taken, sumZ. cbn -[balloon]. rewrite !Hno, Hres, u64_small by (unfold is_u64 in Hres0; lia). lia.
  - rewrite Z.sub_0_r, (u64_small base) by lia. intros v1 Hr Ho Ha Hres Hpos Hdj Hp. cbn [negb Z.eqb] in *.
    assert (vi_iov v1 = vi_iov v) as Hiov by (unfold rest in Hr; congruence).
    rewrite (u64_small (base + sz)) by lia. apply wp_balloon.
    + intros v2 Hr2 Ho2 Ha2 Hres2 Hp2. do 2 apply wp_ret. cbn [negb] in *. apply Herr.
      assert (balloon false v2 = {| allocated := true; start := 0; size := base |}) as Hb0 by congruence.
      split; [congruence|..].
      * intros k. rewrite Hp2, Hp. split; [intros [->|?]; [right; exists false; by rewrite Hb0|by left]|].
        intros [?|([] & Hb1 & ->)]; [by right|congruence|left; by rewrite Hb0].
      * intros [] Hb1; [congruence|]. rewrite Hb0. by apply disj_not_in.
      * intros _ Hb1. congruence.
      * unfold taken, sumZ. cbn -[balloon]. rewrite Ha2, Hb0. cbn. rewrite Hres2, Hres. f_equal. lia.
    + rewrite (u64_small (GUC_GGTT_TOP - (base + sz))) by lia. intros v2 Hr2 Ho2 Ha2 Hres2 Hpos2 Hdj2 Hp2.
      cbn [negb Z.eqb] in *. apply wp_ret.
      assert (balloon false v2 = {| allocated := true; start := 0; size := base |}) as Hb0 by congruence.
      assert (forall b, node_range (balloon b v2) = if b : bool then (base + sz, GUC_GGTT_TOP - (base + sz)) else (0, base))
        as Hrange by (intros []; [by rewrite Ha2|by rewrite Hb0]).
      assert (forall b, allocated (balloon b v2) = true) as Hall by (intros []; [by rewrite Ha2|by rewrite Hb0]).
      assert ((base + sz, GUC_GGTT_TOP - (base + sz)) <> (0, base)) as Hne.
      { intros E. assert (ranges_disj (base + sz, GUC_GGTT_TOP - (base + sz)) (0, base)) as Hd by (apply Hdj2, Hp; by left).
        unfold ranges_disj in Hd. simplify_eq. cbn in Hd. lia. }
      apply Hok; [|split|done|lia].
      * split; [congruence|..].
        -- intros k. rewrite Hp2, Hp. split.
           ++ intros [->|[->|?]]; [right; by exists true; rewrite Hrange|right; by exists false; rewrite Hrange|by left].
           ++ intros [?|(b & _ & ->)]; [by right; right|]. rewrite Hrange. destruct b; auto.
        -- intros b _. rewrite Hrange. destruct b.
           ++ apply disj_not_in; [done|]. intros k Hk. apply Hdj2, Hp. by right.
           ++ by apply disj_not_in.
        -- intros _ _. rewrite !Hrange. congruence.
        -- unfold taken, sumZ. cbn -[balloon]. rewrite !Hall, Ha2, Hb0. cbn. rewrite Hres2, Hres. unfold u64.
           rewrite Zplus_mod_idemp_l. f_equal. lia.
      * by rewrite Hrange.
      * by rewrite Hrange.
      * intros b. rewrite Hrange. apply Hp2. rewrite Hp. destruct b; auto.
Qed.

(** What the VF holds it gives back. *)
Lemma wp_deballoon `{!GgttSpaceLaws M} b (Q : unit -> vf_gt W -> Prop) v :
  (allocated (balloon b v) = false -> Q tt v) ->
  (forall v', allocated (balloon b v) = true -> rest v' = rest v -> balloon (negb b) v' = balloon (negb b) v ->
     allocated (balloon b v') = false -> vi_reserved v' = u64 (vi_reserved v - size (balloon b v)) ->
     (forall k, k ∈ mm_pinned (vi_mm v') <-> k ∈ mm_pinned (vi_mm v) /\ k <> node_range (balloon b v)) -> Q tt v') ->
  wp (i915_ggtt_deballoon b) Q v.
Proof using Type*.
  intros Hno Hyes. apply wp_bind, wp_gets. destruct (allocated (balloon b v)) eqn:Ha; [|by apply wp_ret, Hno].
  cbn [negb]. apply wp_bind, wp_modify, wp_modify. apply Hyes; destruct b; try done; intros k; apply mm_remove_spec.
Qed.

(** One balloon less. *)
Lemma held_less `{!GgttSpaceLaws M} b (Q : unit -> vf_gt W -> Prop) v0 v :
  held v0 v ->
  (forall v', held v0 v' -> allocated (balloon b v') = false -> balloon (negb b) v' = balloon (negb b) v -> Q tt v') ->
  wp (i915_ggtt_deballoon b) Q v.
Proof using Type*.
  intros [Hr Hp Hn Ha Hres] HQ. apply wp_deballoon; [intros Hb; by apply HQ|].
  intros v' Hb Hr' Ho Hb' Hres' Hp'. apply HQ; [|done..]. split; [congruence|..].
  - intros k. rewrite Hp', Hp. split.
    + intros [[?|(b2 & Hb2 & ->)] Hk]; [by left|right]. exists (negb b).
      destruct b, b2; try done; cbn [negb] in *; by rewrite Ho.
    + intros [Hk|(b2 & Hb2 & ->)].
      * split; [by left|]. intros ->. by apply (Hn b).
      * assert (b2 = negb b) as -> by (destruct b, b2; cbn in *; congruence). rewrite Ho in *.
        split; [right; by exists (negb b)|]. destruct b; cbn [negb] in *; [by apply Ha|]. intros E. by apply Ha.
  - intros b2 Hb2. assert (b2 = negb b) as -> by (destruct b, b2; cbn in *; congruence). rewrite Ho in *. by apply Hn.
  - intros H1 H2. destruct b; congruence.
  - rewrite Hres', Hres. unfold u64. rewrite Zminus_mod_idemp_l. f_equal. unfold taken, sumZ. cbn -[balloon].
    destruct b; cbn [negb] in Ho; rewrite Hb, Hb', Ho; lia.
Qed.

(** The GGTT is as before, whether the VF started or not. *)
Lemma fini_gives_back `{!GgttSpaceLaws M} v0 v :
  held v0 v -> is_u64 (vi_reserved v0) ->
  let '(_, v') := vf_fini_ggtt v in
  rest v' = rest v0 /\ (forall b, allocated (balloon b v') = false) /\ vi_reserved v' = vi_reserved v0 /\
  forall k, k ∈ mm_pinned (vi_mm v') <-> k ∈ mm_pinned (vi_mm v0).
Proof using Type*.
  intros Hh H64. apply wp_let, wp_bind, (held_less _ _ v0); [done|]. intros v1 Hh1 Hb1 _.
  apply (held_less _ _ v0); [done|]. intros v2 [Hr Hp _ _ Hres] Hb2 Ho. cbn [negb] in Ho.
  assert (forall b, allocated (balloon b v2) = false) as Hno by (intros []; [by rewrite Ho|done]).
  split_and!; [done|done| |].
  - rewrite Hres. unfold taken, sumZ. cbn -[balloon]. rewrite !Hno, u64_small by (unfold is_u64 in H64; lia). lia.
  - intros k. rewrite Hp. split; [|by left]. intros [?|(b & Hb & _)]; [done|]. by rewrite Hno in Hb.
Qed.

(** ** Where a VF allocates *)

(** What takes a place in the GGTT of a VF: an insertion in a range, or a reservation of one. *)
Definition gtt_takes (m : gtt_space) (r : Z * Z) (m' : gtt_space) : Prop :=
  (exists a s e, i915_gem_gtt_insert m r.2 a s e = (0, r.1, m') /\ 0 < r.2 /\ 0 <= s /\ e <= vf_total) \/
  (drm_mm_reserve_node m r = (0, m') /\ 0 <= r.1 /\ r.1 + r.2 <= vf_total).

(** The GGTT of a VF that runs: anything is inserted or reserved, with whatever result, anything
    but what the start took removed. *)
Inductive gtt_use (keep : list (Z * Z)) (m : gtt_space) : gtt_space -> Prop :=
| UseInsert sz a s e err st m' : i915_gem_gtt_insert m sz a s e = (err, st, m') -> gtt_use keep m m'
| UseReserve r err m' : drm_mm_reserve_node m r = (err, m') -> gtt_use keep m m'
| UseRemove n : n ∉ keep -> gtt_use keep m (PfState.drm_mm_remove_node m n).

Lemma use_keeps `{!GgttSpaceLaws M} keep m m' k :
  rtc (gtt_use keep) m m' -> k ∈ keep -> k ∈ mm_pinned m -> k ∈ mm_pinned m'.
Proof using ReserveSpaceLaws0.
  intros Hr Hk. induction Hr as [|m1 m2 m3 Hst _ IH]; [done|]. intros Hin. apply IH.
  destruct Hst as [sz a s e err st m' Hi|r err m' Hi|n Hn].
  - destruct (decide (err = 0)) as [->|Hne].
    + apply gtt_insert_ok in Hi as (_ & _ & _ & _ & Hp). apply Hp. by right.
    + apply gtt_insert_err in Hi as [_ Hp]; [|done]. by apply Hp.
  - destruct (decide (err = 0)) as [->|Hne].
    + apply reserve_ok in Hi as (_ & _ & Hp). apply Hp. by right.
    + apply reserve_err in Hi as [_ Hp]; [|done]. by apply Hp.
  - apply mm_remove_spec. split; [done|]. by intros ->.
Qed.

(** With the balloons the VF holds what lies above [GUC_GGTT_TOP]. *)
Lemma wp_init_whole (Q : Z -> vf_gt W -> Prop) v :
  let base := ggtt_base (f_config (vi_iov v)) in
  let sz := ggtt_size (f_config (vi_iov v)) in
  0 <= base -> 0 <= sz -> base + sz <= GUC_GGTT_TOP -> is_u64 (vi_reserved v) ->
  (forall b, allocated (balloon b v) = false) ->
  (forall v', Q (- ENOSPC) v') ->
  (forall v', ballooned base sz v' -> 0 < base -> base + sz < GUC_GGTT_TOP ->
     node_range (vi_uc_fw v') = (GUC_GGTT_TOP, vf_total - GUC_GGTT_TOP) ->
     node_range (vi_uc_fw v') ∈ mm_pinned (vi_mm v') -> Q 0 v') ->
  wp (init_ggtt true) Q v.
Proof using Type*.
  intros base sz Hb Hs Htop H64 Hfree Herr Hok. apply wp_bind, wp_init_ggtt; try done.
  { intros v1 _. by apply wp_ret. }
  intros v1 _ [Hf Hsec Hp] Hpos Hlt. cbn [negb Z.eqb]. apply wp_bind. cbn [ggtt_reserve_guc_top negb].
  unfold wp at 1, i915_gem_gtt_reserve.
  destruct (drm_mm_reserve_node (vi_mm v1) _) as [err mm] eqn:E. cbn [fst snd].
  destruct (Z.eqb_spec err 0) as [->|Hne]; cbn [negb].
  - apply reserve_ok in E as (_ & _ & H3). apply wp_ret, Hok; [|done|done|done|].
    + split; [done|done|]. intros b. apply H3. right. apply (Hp b).
    + apply H3. by left.
  - apply reserve_err in E as [-> _]; [|done]. apply wp_bind, wp_bind, wp_gets. cbn [vi_uc_fw set_space set_uc_fw allocated].
    by do 2 apply wp_ret.
Qed.

(** A VF whose region is [n] started, ran for a while and got the range [r]. It uses GuC, or it
    would not have started ([vf_init_late]). *)
Definition vf_allocates (n : drm_mm_node) (r : Z * Z) : Prop := exists (v : vf_gt W) m m',
  ggtt_base (f_config (vi_iov v)) = start n /\ ggtt_size (f_config (vi_iov v)) = size n /\
  is_u64 (vi_reserved v) /\ (forall b, allocated (balloon b v) = false) /\
  let '(ret, v1) := init_ggtt true v in
  let keep := [node_range (balloon false v1); node_range (balloon true v1); node_range (vi_uc_fw v1)] in
  ret = 0 /\ rtc (gtt_use keep) (vi_mm v1) m /\ gtt_takes m r m'.

Lemma vf_allocates_inside `{!GgttSpaceLaws M} n r :
  0 <= start n -> 0 <= size n -> start n + size n <= GUC_GGTT_TOP -> vf_allocates n r ->
  start n <= r.1 /\ r.1 + r.2 <= start n + size n.
Proof using Type*.
  intros H1 H2 H3 (v & m & m' & Hb & Hs & H64 & Hfree & Hrun).
  assert (wp (init_ggtt true) (fun ret v1 => ret = 0 -> ballooned (start n) (size n) v1 /\ 0 < start n /\
    start n + size n < GUC_GGTT_TOP /\ node_range (vi_uc_fw v1) = (GUC_GGTT_TOP, vf_total - GUC_GGTT_TOP) /\
    node_range (vi_uc_fw v1) ∈ mm_pinned (vi_mm v1)) v)
    as Hw by (apply wp_init_whole; rewrite ?Hb, ?Hs; try done; intros; by split_and!).
  unfold wp in Hw. destruct (init_ggtt true v) as [ret v1]. destruct Hrun as (-> & Huse & Htake).
  cbn [fst snd] in Hw. destruct (Hw eq_refl) as ([Hf Hsec Hp] & Hpos & Htop & Hfw & Hin).
  assert (0 <= r.1 /\ r.1 + r.2 <= vf_total /\ 0 < r.2 /\ forall k, k ∈ mm_pinned m -> ranges_disj r k) as (Hr1 & Hr2 & Hr3 & Hdj).
  { destruct Htake as [(a & s & e & Hins & Hr & Hs0 & He)|(Hres & Hr1 & Hr2)].
    - apply gtt_insert_ok in Hins as (Hlo & Hhi & _ & Hdj & _). split_and!; [lia|lia|done|].
      intros k Hk. specialize (Hdj k Hk). by destruct r.
    - apply reserve_ok in Hres as (Hpos' & Hdj & _). by split_and!. }
  pose proof (fun k => use_keeps _ _ _ k Huse) as Hkept.
  assert (forall b, ranges_disj r (node_range (balloon b v1))) as Hd.
  { intros b. apply Hdj, Hkept; [|apply Hp]. destruct b; [apply list_elem_of_further|]; apply list_elem_of_here. }
  assert (ranges_disj r (node_range (vi_uc_fw v1))) as Hd2.
  { apply Hdj, Hkept; [|done]. do 2 apply list_elem_of_further. apply list_elem_of_here. }
  pose proof (Hd false) as Hd0. pose proof (Hd true) as Hd1. rewrite Hf in Hd0. rewrite Hsec in Hd1. rewrite Hfw in Hd2.
  unfold ranges_disj in *. cbn [fst snd] in *. lia.
Qed.
End balloons.

(** ** The regions of VFs *)

Section apart.
Context {W : Type} {M : GgttSpace} {S : ReserveSpace M} `{!ReserveSpaceLaws S} `{!GgttSpaceLaws M}.
Context `{E : Env} `{!EnvLaws E}.

(** C17: VFs do not meet in the GGTT. Take a PF whose provisioning satisfies its invariant, in
    which the regions of the VFs are disjoint, and two of its VFs. Whatever the VFs insert,
    reserve and remove anywhere in the address space of their GGTT after they have started with
    the region they were given, the range that one of them gets from its range manager lies in
    its own region and does not meet that of the other: the balloons and the node that holds the
    top for the firmware leave nothing else. *)
Theorem vfs_allocate_apart d id id' r r' :
  ggtt_inv d -> has_region d id -> has_region d id' -> id <> id' ->
  vf_allocates (W := W) (M := M) (region d id) r -> vf_allocates (W := W) (M := M) (region d id') r' ->
  ranges_disj r r' /\ start (region d id) <= r.1 /\ r.1 + r.2 <= start (region d id) + size (region d id).
Proof using Type*.
  intros I Hid Hid' Hne Hr Hr'. destruct env_pin_bias as [Hbias _].
  assert (forall i x, has_region d i -> vf_allocates (W := W) (M := M) (region d i) x ->
    start (region d i) <= x.1 /\ x.1 + x.2 <= start (region d i) + size (region d i)) as Hin.
  { intros i x Hi Hx. destruct (gi_region _ _ I i Hi) as (? & ? & ? & _). apply (vf_allocates_inside (W := W) (M := M)); try done; lia. }
  pose proof (Hin id r Hid Hr). pose proof (Hin id' r' Hid' Hr'). pose proof (gi_disj _ _ I id id' Hid Hid' Hne) as Hd.
  unfold ranges_disj, node_range in *. cbn [fst snd] in *. split; [|lia]. lia.
Qed.
End apart.

(** ** The top of the GGTT *)

Section top.
Context {W : Type} {M : GgttSpace} {S : ReserveSpace M} `{!ReserveSpaceLaws S}.

(** A region that ends at [GUC_GGTT_TOP], where [pf_provision_ggtt] begins to look for room, has
    nothing above it for the second balloon: the VF that was given it does not start. *)
Lemma vf_at_top_refused (v : vf_gt W) :
  0 <= ggtt_base (f_config (vi_iov v)) -> 0 <= ggtt_size (f_config (vi_iov v)) ->
  ggtt_base (f_config (vi_iov v)) + ggtt_size (f_config (vi_iov v)) = GUC_GGTT_TOP ->
  is_u64 (vi_reserved v) -> (forall b, allocated (balloon b v) = false) ->
  fst (vf_init_ggtt v) = - ENOSPC.
Proof using Type*.
  intros Hb Hs Htop H64 Hfree.
  change (wp vf_init_ggtt (fun ret _ => ret = - ENOSPC) v). apply wp_init_ggtt; try done; lia.
Qed.
End top.

(** ** Contexts *)

Section limits.
Context {W : Type} `{T : VfTransport W} {M : GgttSpace} `{V : MemirqEnv}.

Lemma bootstrap_keeps_ctxs (Q : Z -> vf_iov W -> Prop) v :
  (forall err v', vf_num_ctxs (f_config v') = vf_num_ctxs (f_config v) -> Q err v') -> wp intel_iov_query_bootstrap Q v.
Proof.
  intros HQ. assert (forall req room (Q : Z * list Z -> vf_iov W -> Prop) v,
    (forall r w, Q r (set_below w v)) -> wp (send_mmio req room) Q v) as Hsend.
  { intros req room Q' v' HQ'. unfold wp, send_mmio, on_below. destruct (VfIov.intel_guc_send_mmio req room (f_below v')). apply HQ'. }
  assert (forall b mj mn (Q : Z + Z * Z * Z * Z -> vf_iov W -> Prop) v,
    (forall r w, Q r (set_below w v)) -> wp (guc_action_match_version b mj mn) Q v) as Hmatch.
  { intros b mj mn Q' v' HQ'. apply wp_bind, Hsend. intros [ret resp] w. repeat (apply wp_if; intros _; [apply wp_ret, HQ'|]).
    apply wp_ret, HQ'. }
  apply wp_bind, wp_bind, Hsend. intros [ret resp] w1. apply wp_ret. apply wp_if; intros _; [by apply wp_ret, HQ|].
  apply wp_bind, wp_bind, Hmatch. intros [err|[[[b mj] mn] pt]] w2.
  - apply wp_bind, Hmatch. intros r w3. apply wp_ret. apply wp_if; intros _; by apply wp_ret, HQ.
  - apply wp_if; intros _.
    + apply wp_bind, Hmatch. intros r w3. apply wp_ret. apply wp_if; intros _; by apply wp_ret, HQ.
    + apply wp_bind, wp_modify, wp_ret. apply wp_if; intros _; by apply wp_ret, HQ.
Qed.

(** A VF that starts before any context exists keeps to the contexts it was given, which it has
    learned in [vf_init_mmio]. *)
Lemma vf_init_limits g (v : vf_gt W) :
  0 <= vf_num_ctxs (f_config (vi_iov v)) < 65536 -> vi_ids_in_use v = 0 ->
  let '(err, v') := vf_init g v in
  err = 0 -> vi_num_guc_ids v' = vf_num_ctxs (f_config (vi_iov v)).
Proof.
  intros Hn Hu. apply wp_let. apply wp_bind. unfold wp at 1, on_vf_iov.
  pose proof (bootstrap_keeps_ctxs (fun _ v' => vf_num_ctxs (f_config v') = vf_num_ctxs (f_config (vi_iov v))) (vi_iov v)
    ltac:(done)) as Hb. unfold wp in Hb. destruct (intel_iov_query_bootstrap (vi_iov v)) as [err i]. cbn [fst snd] in *.
  apply wp_if; intros He; [apply wp_ret; intros ->; done|]. apply wp_bind, wp_bind, wp_gets, wp_bind, wp_gets.
  cbn [vi_iov vi_ids_in_use]. rewrite Hb, Hu. rewrite Z.gtb_ltb, (proj2 (Z.ltb_ge _ _)) by (unfold GUC_MAX_CONTEXT_ID; lia).
  cbn [negb Z.eqb]. apply wp_bind, wp_modify, wp_ret. apply wp_bind. unfold wp at 1, on_irq.
  destruct (intel_iov_memirq_init g _) as [err2 q]. cbn [fst snd]. by apply wp_if; intros _; apply wp_ret.
Qed.
End limits.

(** ** Runs *)

(** The range manager of Sample.v with reservations. *)
Definition sample_reserve_node (m : list (Z * Z)) (n : Z * Z) : Z * list (Z * Z) :=
  if (0 <? n.2) && forallb (Mm.disjb n) m then (0, n :: m) else (- ENOSPC, m).
Definition sample_reserve : ReserveSpace sample_gtt := Build_ReserveSpace sample_gtt sample_reserve_node.

#[export] Instance sample_reserve_laws : ReserveSpaceLaws sample_reserve.
Proof.
  split; cbn; unfold sample_reserve_node.
  - intros m n m'. destruct (0 <? n.2) eqn:E1; cbn [andb]; [|discriminate].
    destruct (forallb (Mm.disjb n) m) eqn:E2; [|discriminate]. intros [= <-]. propify.
    split_and!; [done| |intros k; by rewrite elem_of_cons]. intros k Hk%list_elem_of_In.
    rewrite forallb_forall in E2. specialize (E2 k Hk). unfold Mm.disjb in E2.
    apply orb_true_iff in E2 as [?|?]; propify; [by left|by right].
  - intros m n err m'. destruct (_ && _); intros [= <- <-]; [done|]. by split.
Qed.

(** A PF that has given a region to three VFs, one after the other. *)
Definition sample_pf3 : @dev sample_env :=
  snd (pf_provision_ggtt (E := sample_env) GT_PRIMARY 3 0x100000 (
  snd (pf_provision_ggtt (E := sample_env) GT_PRIMARY 2 0x100000 (
  snd (pf_provision_ggtt (E := sample_env) GT_PRIMARY 1 0x100000 sample_dev))))).

Lemma sample_pf3_inv : ggtt_inv sample_pf3.
Proof.
  assert (forall id (d : @dev sample_env), ggtt_inv d -> (1 <= id <= d_totalvfs d)%nat ->
    ggtt_inv (snd (pf_provision_ggtt (E := sample_env) GT_PRIMARY id 0x100000 d))) as Hstep.
  { intros id d I Hid. apply (wp_provision_ggtt id 0x100000 (fun _ d' => ggtt_inv d') d); try done. }
  apply Hstep; [apply Hstep; [apply Hstep; [exact sample_ggtt_inv|]|]|]; vm_compute; lia.
Qed.

(** The VF with a region, as it is before its GGTT is initialized. *)
Definition sample_vf (n : drm_mm_node) : vf_gt (M := sample_gtt) unit :=
  let none := {| allocated := false; start := 0; size := 0 |} in {|
  vi_iov := {| f_below := tt;
    f_config := {| abi_branch := 0; abi_major := 1; abi_minor := 1; abi_patch := 0; ggtt_base := start n; ggtt_size := size n;
                   vf_num_ctxs := 1024; vf_num_dbs := 16 |};
    f_runtime := {| regs_size := 0; regs := None |};
    f_buffer := {| b_ptes := []; b_offset := 0; b_num_copies := 0; b_mode := 0 |};
    f_ip := {| ip_ver := 12; ip_rel := 70; ip_step := 0 |}; f_sent := []; f_overrun := false |};
  vi_irq := sample_irq_start; vi_mm := ([] : list (Z * Z)) : @gtt_space sample_gtt; vi_reserved := 0;
  vi_ggtt_balloon0 := none; vi_ggtt_balloon1 := none; vi_uc_fw := none; vi_ids_in_use := 0; vi_num_guc_ids := 65535 |}.

(** The first VF gets the top of the GGTT and does not start. *)
Example first_vf_refused :
  start (region sample_pf3 1) + size (region sample_pf3 1) = GUC_GGTT_TOP /\
  fst (vf_init_ggtt (S := sample_reserve) (sample_vf (region sample_pf3 1))) = - ENOSPC.
Proof. by vm_compute. Qed.

(** The others do, and each finds the place for a page at the end of its region. *)
Lemma sample_vf_allocates id :
  id = 2%nat \/ id = 3%nat ->
  vf_allocates (W := unit) (S := sample_reserve) (region sample_pf3 id)
    (start (region sample_pf3 id) + size (region sample_pf3 id) - 0x1000, 0x1000).
Proof.
  intros Hid. set (x := init_ggtt (S := sample_reserve) true (sample_vf (region sample_pf3 id))).
  assert (fst x = 0) as Hret by (destruct Hid as [-> | ->]; by vm_compute).
  exists (sample_vf (region sample_pf3 id)), (vi_mm (snd x)).
  exists (snd (Mm.insert (vi_mm (snd x)) 0x1000 0x1000 0 vf_total)).
  split; [exact eq_refl|]. split; [exact eq_refl|]. split; [split; reflexivity|]. split; [by intros []|].
  fold x. rewrite (surjective_pairing x). split; [exact Hret|]. split; [apply rtc_refl|].
  left. exists 0x1000, 0, vf_total.
  split; [|split; [reflexivity|split; [reflexivity|apply Z.le_refl]]].
  subst x. destruct Hid as [-> | ->]; vm_compute; reflexivity.
Qed.

Lemma vfs_allocate_apart_witness :
  ranges_disj (0xfec00000 + 0x100000 - 0x1000, 0x1000) (0xfeb00000 + 0x100000 - 0x1000, 0x1000).
Proof.
  apply (vfs_allocate_apart (W := unit) (S := sample_reserve) sample_pf3 2 3); [exact sample_pf3_inv|..].
  - split; [vm_compute; lia|by vm_compute].
  - split; [vm_compute; lia|by vm_compute].
  - done.
  - refine (eq_rect _ (vf_allocates (region sample_pf3 2)) (sample_vf_allocates 2 (or_introl eq_refl)) _ _). by vm_compute.
  - refine (eq_rect _ (vf_allocates (region sample_pf3 3)) (sample_vf_allocates 3 (or_intror eq_refl)) _ _). by vm_compute.
Defined.
