(* ===== verification/Ct.v ===== *)
(** * The command transport

    gt/uc/intel_guc_ct.c: requests to GuC through the buffer of Ctb.v, with and without waiting
    for the response, the messages that GuC sends and where they go, and turning the transport
    on and off. Callers that wait, the tasklet, the worker and GuC interleave step by step. *)

From S2P Require Export GucMmio Ctb.

(** ** Constants (intel_guc_ct.c, guc_actions_abi.h, guc_actions_pf_abi.h, guc_klvs_abi.h) *)

Definition CTB_DESC_SIZE : Z := 2048.
Definition CTB_H2G_BUFFER_SIZE : Z := 4096.
Definition CTB_G2H_BUFFER_SIZE : Z := 4 * CTB_H2G_BUFFER_SIZE.
Definition G2H_ROOM_BUFFER_SIZE : Z := CTB_G2H_BUFFER_SIZE / 4.
Definition GUC_CTB_TIMEOUT_MS : Z := 1500.

Definition GUC_ACTION_HOST2GUC_CONTROL_CTB : Z := 0x4509.
Definition GUC_CTB_CONTROL_DISABLE : Z := 0.
Definition GUC_CTB_CONTROL_ENABLE : Z := 1.
Definition GUC_KLV_SELF_CFG_H2G_CTB_ADDR_KEY : Z := 0x0902.
Definition GUC_KLV_SELF_CFG_H2G_CTB_DESCRIPTOR_ADDR_KEY : Z := 0x0903.
Definition GUC_KLV_SELF_CFG_H2G_CTB_SIZE_KEY : Z := 0x0904.
Definition GUC_KLV_SELF_CFG_G2H_CTB_ADDR_KEY : Z := 0x0905.
Definition GUC_KLV_SELF_CFG_G2H_CTB_DESCRIPTOR_ADDR_KEY : Z := 0x0906.
Definition GUC_KLV_SELF_CFG_G2H_CTB_SIZE_KEY : Z := 0x0907.

Definition INTEL_GUC_ACTION_DEFAULT : Z := 0x0.
Definition INTEL_GUC_ACTION_SCHED_CONTEXT_MODE_DONE : Z := 0x1002.
Definition GUC_ACTION_GUC2HOST_SET_ENGINE_SCHED_DONE : Z := 0x1004.
Definition INTEL_GUC_ACTION_CONTEXT_RESET_NOTIFICATION : Z := 0x1008.
Definition INTEL_GUC_ACTION_ENGINE_FAILURE_NOTIFICATION : Z := 0x1009.
Definition INTEL_GUC_ACTION_DEREGISTER_CONTEXT_DONE : Z := 0x4600.
Definition INTEL_GUC_ACTION_TLB_INVALIDATION_DONE : Z := 0x7001.
Definition INTEL_GUC_ACTION_STATE_CAPTURE_NOTIFICATION : Z := 0x8002.
Definition INTEL_GUC_ACTION_NOTIFY_FLUSH_LOG_BUFFER_TO_FILE : Z := 0x8003.
Definition INTEL_GUC_ACTION_NOTIFY_CRASH_DUMP_POSTED : Z := 0x8004.
Definition INTEL_GUC_ACTION_NOTIFY_EXCEPTION : Z := 0x8005.

Definition EINTR : Z := 4.
Definition EBADMSG : Z := 74.

(** ** State *)

(** A call of [ct_send] that is under way: its [struct ct_request], which lives on its stack,
    its arguments and where it stands. *)
Inductive send_pc :=
| CtTry                              (** at the label [retry] *)
| CtStalled                          (** no room: before [ct_deadlocked] *)
| CtWait                             (** in [wait_for_ct_request_update] *)
| CtGot (err : Z)                    (** the wait is over *)
| CtUnlink (ret : Z) (again : bool)  (** at the label [unlink] *)
| CtReturned (ret : Z).

Record sender := {
  sd_action : list Z;
  sd_room : nat;                     (** [response_buf_size] *)
  sd_fence : Z;
  sd_status : Z;
  sd_len : Z;                        (** [response_len] *)
  sd_buf : option (list Z);          (** [response_buf], [None] being the null pointer *)
  sd_pc : send_pc;
}.

(** Where the messages of GuC go: the functions that [ct_process_request] calls. *)
Inductive ct_handler :=
| HToHost | HDeregisterDone | HSchedDone | HEngineSchedDone | HContextReset | HErrorCapture
| HEngineFailure | HStateNotify | HAdverseEvent | HRelayFromVf | HRelayFromPf | HMmioRelay
| HLogFlush | HCrash (action : Z) | HTlbDone.

(** The rest of the driver, with state [W]: the handlers, whether a message can be allocated,
    where the blob is and whether GuC runs. *)
Class CtClient (W : Type) := {
  run_handler : ct_handler -> list Z -> st W Z;
  msg_alloc_ok : nat -> bool;
  ct_vma_err : Z;
  ct_ggtt_offset : Z;
  fw_running : W -> bool;
}.

(** [ct_pending] holds the callers that wait, as indices into [ct_senders], in the order of the
    list; [ct_worker] and [ct_running] say whether the worker is queued and whether it is in its
    loop, [ct_tasklet] whether the tasklet is scheduled. [ct_now] is the time in milliseconds,
    [None] in [ct_stall_time] stands for [KTIME_MAX]. [ct_hands] are the readers that have taken a
    message from the buffer and not handled it yet, each with what [ct_read] returned. [ct_live] counts the messages allocated,
    [ct_ticks] the attempts, [ct_notifies] the doorbells. *)
Record ct {W : Type} := {
  ct_enabled : bool;
  ct_send_ctb : intel_guc_ct_buffer;
  ct_recv_ctb : intel_guc_ct_buffer;
  ct_last_fence : Z;
  ct_pending : list nat;
  ct_incoming : list (list Z);
  ct_worker : bool;
  ct_running : bool;
  ct_tasklet : bool;
  ct_stall_time : option Z;
  ct_now : Z;
  ct_senders : list sender;
  ct_hands : list (list Z * Z);
  ct_live : Z;
  ct_ticks : nat;
  ct_notifies : nat;
  ct_world : W;
}.
Arguments ct : clear implicits.

Section setters.
Context {W : Type}.
Implicit Types c : ct W.

Definition set_enabled (x : bool) c : ct W :=
  {| ct_enabled := x; ct_send_ctb := ct_send_ctb c; ct_recv_ctb := ct_recv_ctb c;
     ct_last_fence := ct_last_fence c; ct_pending := ct_pending c; ct_incoming := ct_incoming c;
     ct_worker := ct_worker c; ct_running := ct_running c; ct_tasklet := ct_tasklet c;
     ct_stall_time := ct_stall_time c; ct_now := ct_now c; ct_senders := ct_senders c; ct_hands := ct_hands c; ct_live := ct_live c;
     ct_ticks := ct_ticks c; ct_notifies := ct_notifies c; ct_world := ct_world c |}.
Definition set_send (x : intel_guc_ct_buffer) c : ct W :=
  {| ct_enabled := ct_enabled c; ct_send_ctb := x; ct_recv_ctb := ct_recv_ctb c;
     ct_last_fence := ct_last_fence c; ct_pending := ct_pending c; ct_incoming := ct_incoming c;
     ct_worker := ct_worker c; ct_running := ct_running c; ct_tasklet := ct_tasklet c;
     ct_stall_time := ct_stall_time c; ct_now := ct_now c; ct_senders := ct_senders c; ct_hands := ct_hands c; ct_live := ct_live c;
     ct_ticks := ct_ticks c; ct_notifies := ct_notifies c; ct_world := ct_world c |}.
Definition set_recv (x : intel_guc_ct_buffer) c : ct W :=
  {| ct_enabled := ct_enabled c; ct_send_ctb := ct_send_ctb c; ct_recv_ctb := x;
     ct_last_fence := ct_last_fence c; ct_pending := ct_pending c; ct_incoming := ct_incoming c;
     ct_worker := ct_worker c; ct_running := ct_running c; ct_tasklet := ct_tasklet c;
     ct_stall_time := ct_stall_time c; ct_now := ct_now c; ct_senders := ct_senders c; ct_hands := ct_hands c; ct_live := ct_live c;
     ct_ticks := ct_ticks c; ct_notifies := ct_notifies c; ct_world := ct_world c |}.
Definition set_fence (x : Z) c : ct W :=
  {| ct_enabled := ct_enabled c; ct_send_ctb := ct_send_ctb c; ct_recv_ctb := ct_recv_ctb c;
     ct_last_fence := x; ct_pending := ct_pending c; ct_incoming := ct_incoming c; ct_worker := ct_worker c;
     ct_running := ct_running c; ct_tasklet := ct_tasklet c; ct_stall_time := ct_stall_time c;
     ct_now := ct_now c; ct_senders := ct_senders c; ct_hands := ct_hands c; ct_live := ct_live c; ct_ticks := ct_ticks c;
     ct_notifies := ct_notifies c; ct_world := ct_world c |}.
Definition set_pending (x : list nat) c : ct W :=
  {| ct_enabled := ct_enabled c; ct_send_ctb := ct_send_ctb c; ct_recv_ctb := ct_recv_ctb c;
     ct_last_fence := ct_last_fence c; ct_pending := x; ct_incoming := ct_incoming c; ct_worker := ct_worker c;
     ct_running := ct_running c; ct_tasklet := ct_tasklet c; ct_stall_time := ct_stall_time c;
     ct_now := ct_now c; ct_senders := ct_senders c; ct_hands := ct_hands c; ct_live := ct_live c; ct_ticks := ct_ticks c;
     ct_notifies := ct_notifies c; ct_world := ct_world c |}.
Definition set_incoming (x : list (list Z)) c : ct W :=
  {| ct_enabled := ct_enabled c; ct_send_ctb := ct_send_ctb c; ct_recv_ctb := ct_recv_ctb c;
     ct_last_fence := ct_last_fence c; ct_pending := ct_pending c; ct_incoming := x; ct_worker := ct_worker c;
     ct_running := ct_running c; ct_tasklet := ct_tasklet c; ct_stall_time := ct_stall_time c;
     ct_now := ct_now c; ct_senders := ct_senders c; ct_hands := ct_hands c; ct_live := ct_live c; ct_ticks := ct_ticks c;
     ct_notifies := ct_notifies c; ct_world := ct_world c |}.
Definition set_queued (x : bool) c : ct W :=
  {| ct_enabled := ct_enabled c; ct_send_ctb := ct_send_ctb c; ct_recv_ctb := ct_recv_ctb c;
     ct_last_fence := ct_last_fence c; ct_pending := ct_pending c; ct_incoming := ct_incoming c;
     ct_worker := x; ct_running := ct_running c; ct_tasklet := ct_tasklet c; ct_stall_time := ct_stall_time c;
     ct_now := ct_now c; ct_senders := ct_senders c; ct_hands := ct_hands c; ct_live := ct_live c; ct_ticks := ct_ticks c;
     ct_notifies := ct_notifies c; ct_world := ct_world c |}.
Definition set_running (x : bool) c : ct W :=
  {| ct_enabled := ct_enabled c; ct_send_ctb := ct_send_ctb c; ct_recv_ctb := ct_recv_ctb c;
     ct_last_fence := ct_last_fence c; ct_pending := ct_pending c; ct_incoming := ct_incoming c;
     ct_worker := ct_worker c; ct_running := x; ct_tasklet := ct_tasklet c; ct_stall_time := ct_stall_time c;
     ct_now := ct_now c; ct_senders := ct_senders c; ct_hands := ct_hands c; ct_live := ct_live c; ct_ticks := ct_ticks c;
     ct_notifies := ct_notifies c; ct_world := ct_world c |}.
Definition set_tasklet (x : bool) c : ct W :=
  {| ct_enabled := ct_enabled c; ct_send_ctb := ct_send_ctb c; ct_recv_ctb := ct_recv_ctb c;
     ct_last_fence := ct_last_fence c; ct_pending := ct_pending c; ct_incoming := ct_incoming c;
     ct_worker := ct_worker c; ct_running := ct_running c; ct_tasklet := x; ct_stall_time := ct_stall_time c;
     ct_now := ct_now c; ct_senders := ct_senders c; ct_hands := ct_hands c; ct_live := ct_live c; ct_ticks := ct_ticks c;
     ct_notifies := ct_notifies c; ct_world := ct_world c |}.
Definition set_stall (x : option Z) c : ct W :=
  {| ct_enabled := ct_enabled c; ct_send_ctb := ct_send_ctb c; ct_recv_ctb := ct_recv_ctb c;
     ct_last_fence := ct_last_fence c; ct_pending := ct_pending c; ct_incoming := ct_incoming c;
     ct_worker := ct_worker c; ct_running := ct_running c; ct_tasklet := ct_tasklet c; ct_stall_time := x;
     ct_now := ct_now c; ct_senders := ct_senders c; ct_hands := ct_hands c; ct_live := ct_live c; ct_ticks := ct_ticks c;
     ct_notifies := ct_notifies c; ct_world := ct_world c |}.
Definition set_senders (x : list sender) c : ct W :=
  {| ct_enabled := ct_enabled c; ct_send_ctb := ct_send_ctb c; ct_recv_ctb := ct_recv_ctb c;
     ct_last_fence := ct_last_fence c; ct_pending := ct_pending c; ct_incoming := ct_incoming c;
     ct_worker := ct_worker c; ct_running := ct_running c; ct_tasklet := ct_tasklet c;
     ct_stall_time := ct_stall_time c; ct_now := ct_now c; ct_senders := x; ct_hands := ct_hands c; ct_live := ct_live c;
     ct_ticks := ct_ticks c; ct_notifies := ct_notifies c; ct_world := ct_world c |}.
Definition set_live (x : Z) c : ct W :=
  {| ct_enabled := ct_enabled c; ct_send_ctb := ct_send_ctb c; ct_recv_ctb := ct_recv_ctb c;
     ct_last_fence := ct_last_fence c; ct_pending := ct_pending c; ct_incoming := ct_incoming c;
     ct_worker := ct_worker c; ct_running := ct_running c; ct_tasklet := ct_tasklet c;
     ct_stall_time := ct_stall_time c; ct_now := ct_now c; ct_senders := ct_senders c; ct_hands := ct_hands c; ct_live := x;
     ct_ticks := ct_ticks c; ct_notifies := ct_notifies c; ct_world := ct_world c |}.
Definition set_ticks (x : nat) c : ct W :=
  {| ct_enabled := ct_enabled c; ct_send_ctb := ct_send_ctb c; ct_recv_ctb := ct_recv_ctb c;
     ct_last_fence := ct_last_fence c; ct_pending := ct_pending c; ct_incoming := ct_incoming c;
     ct_worker := ct_worker c; ct_running := ct_running c; ct_tasklet := ct_tasklet c;
     ct_stall_time := ct_stall_time c; ct_now := ct_now c; ct_senders := ct_senders c; ct_hands := ct_hands c; ct_live := ct_live c;
     ct_ticks := x; ct_notifies := ct_notifies c; ct_world := ct_world c |}.
Definition set_notifies (x : nat) c : ct W :=
  {| ct_enabled := ct_enabled c; ct_send_ctb := ct_send_ctb c; ct_recv_ctb := ct_recv_ctb c;
     ct_last_fence := ct_last_fence c; ct_pending := ct_pending c; ct_incoming := ct_incoming c;
     ct_worker := ct_worker c; ct_running := ct_running c; ct_tasklet := ct_tasklet c;
     ct_stall_time := ct_stall_time c; ct_now := ct_now c; ct_senders := ct_senders c; ct_hands := ct_hands c; ct_live := ct_live c;
     ct_ticks := ct_ticks c; ct_notifies := x; ct_world := ct_world c |}.
Definition set_world (x : W) c : ct W :=
  {| ct_enabled := ct_enabled c; ct_send_ctb := ct_send_ctb c; ct_recv_ctb := ct_recv_ctb c;
     ct_last_fence := ct_last_fence c; ct_pending := ct_pending c; ct_incoming := ct_incoming c;
     ct_worker := ct_worker c; ct_running := ct_running c; ct_tasklet := ct_tasklet c;
     ct_stall_time := ct_stall_time c; ct_now := ct_now c; ct_senders := ct_senders c; ct_hands := ct_hands c; ct_live := ct_live c;
     ct_ticks := ct_ticks c; ct_notifies := ct_notifies c; ct_world := x |}.
Definition set_now (now : Z) c : ct W :=
  {| ct_enabled := ct_enabled c; ct_send_ctb := ct_send_ctb c; ct_recv_ctb := ct_recv_ctb c;
     ct_last_fence := ct_last_fence c; ct_pending := ct_pending c; ct_incoming := ct_incoming c;
     ct_worker := ct_worker c; ct_running := ct_running c; ct_tasklet := ct_tasklet c;
     ct_stall_time := ct_stall_time c; ct_now := now; ct_senders := ct_senders c; ct_hands := ct_hands c; ct_live := ct_live c;
     ct_ticks := ct_ticks c; ct_notifies := ct_notifies c; ct_world := ct_world c |}.

Definition set_hands (x : list (list Z * Z)) c : ct W :=
  {| ct_enabled := ct_enabled c; ct_send_ctb := ct_send_ctb c; ct_recv_ctb := ct_recv_ctb c;
     ct_last_fence := ct_last_fence c; ct_pending := ct_pending c; ct_incoming := ct_incoming c;
     ct_worker := ct_worker c; ct_running := ct_running c; ct_tasklet := ct_tasklet c;
     ct_stall_time := ct_stall_time c; ct_now := ct_now c; ct_senders := ct_senders c; ct_hands := x;
     ct_live := ct_live c; ct_ticks := ct_ticks c; ct_notifies := ct_notifies c; ct_world := ct_world c |}.

(** A message of GuC more, a message less; what reading one does to the buffer. *)
Definition allocated c : ct W := set_live (ct_live c + 1) c.
Definition freed c : ct W := set_live (ct_live c - 1) c.
Definition after_read (b : intel_guc_ct_buffer) c : ct W := set_ticks (S (ct_ticks c)) (set_recv b c).
End setters.

(** ** Sending *)

Section ct.
Context {W : Type} `{M : GucMailbox W} `{C : CtClient W}.
#[local] Abbreviation op A := (st (ct W) A).

Definition on_send {A} (m : st intel_guc_ct_buffer A) : op A := fun c =>
  let '(a, b) := m (ct_send_ctb c) in (a, set_send b c).
Definition on_recv {A} (m : st intel_guc_ct_buffer A) : op A := fun c =>
  let '(a, b) := m (ct_recv_ctb c) in (a, set_recv b c).
Definition on_world {A} (m : st W A) : op A := fun c =>
  let '(a, w) := m (ct_world c) in (a, set_world w c).

Definition ct_get_next_fence : op Z := fun c =>
  let fence := u16 (ct_last_fence c + 1) in (fence, set_fence fence c).

Definition ct_deadlocked : op bool :=
  ret ← gets (fun c => match ct_stall_time c with Some t => ct_now c - t >? GUC_CTB_TIMEOUT_MS | None => false end);
  (if ret : bool then on_send (modify set_ctb_broken) else mret tt) ≫= fun _ => mret ret.

Definition note_stall : op unit :=
  modify (fun c => set_stall (Some (default (ct_now c) (ct_stall_time c))) c).

Definition has_room_nb (h2g_dw : nat) (g2h_dw : Z) : op Z :=
  h2g ← on_send (h2g_has_room h2g_dw);
  g2h ← gets (fun c => g2h_has_room g2h_dw (ct_recv_ctb c));
  if negb h2g || negb g2h then
    note_stall ≫= fun _ =>
    (if negb g2h then modify (set_tasklet true) else mret tt) ≫= fun _ =>
    dead ← ct_deadlocked;
    mret (if dead : bool then - EPIPE else - EBUSY)
  else modify (set_stall None) ≫= fun _ => mret 0.

Definition intel_guc_notify : op unit := modify (fun c => set_notifies (S (ct_notifies c)) c).

Definition ct_send_nb (action : list Z) (flags : Z) : op Z :=
  let g2h_len_dw := G2H_LEN_DW flags in
  ret ← has_room_nb (length action + GUC_CTB_HDR_LEN) g2h_len_dw;
  if negb (ret =? 0) then mret ret else
  fence ← ct_get_next_fence;
  ret ← on_send (ct_write action fence flags);
  if negb (ret =? 0) then mret ret else
  on_recv (modify (g2h_reserve_space g2h_len_dw)) ≫= fun _ =>
  intel_guc_notify ≫= fun _ => mret 0.

(** [intel_guc_ct_send] up to [ct_send]: the result, or the call that begins. *)
Definition new_sender (action : list Z) (room : option nat) : sender :=
  {| sd_action := action; sd_room := default 0%nat room; sd_fence := 0; sd_status := 0; sd_len := 0;
     sd_buf := (fun n => replicate n 0) <$> room; sd_pc := CtTry |}.

Definition intel_guc_ct_send (action : list Z) (room : option nat) (flags : Z) : op (option Z) :=
  enabled ← gets ct_enabled;
  if negb enabled then mret (Some (- ENODEV)) else
  broken ← gets (fun c => ctb_broken (ct_send_ctb c));
  if broken : bool then mret (Some (- EPIPE)) else
  if negb (Z.land flags INTEL_GUC_CT_SEND_NB =? 0) then ret ← ct_send_nb action flags; mret (Some ret) else
  modify (fun c => set_senders (ct_senders c ++ [new_sender action room]) c) ≫= fun _ => mret None.

(** *** A call that waits *)

Definition set_sd_pc (pc : send_pc) (s : sender) : sender :=
  {| sd_action := sd_action s; sd_room := sd_room s; sd_fence := sd_fence s; sd_status := sd_status s;
     sd_len := sd_len s; sd_buf := sd_buf s; sd_pc := pc |}.
Definition new_request (fence : Z) (s : sender) : sender :=
  {| sd_action := sd_action s; sd_room := sd_room s; sd_fence := fence; sd_status := 0;
     sd_len := Z.of_nat (sd_room s); sd_buf := sd_buf s; sd_pc := sd_pc s |}.

Definition upd_sender (i : nat) (f : sender -> sender) : op unit :=
  modify (fun c => set_senders (alter f i (ct_senders c)) c).
Definition goto (i : nat) (pc : send_pc) : op unit := upd_sender i (set_sd_pc pc).

(** With room in both buffers: the request is listed, written and announced. *)
Definition send_request (i : nat) (action : list Z) : op unit :=
  modify (set_stall None) ≫= fun _ =>
  fence ← ct_get_next_fence;
  upd_sender i (new_request fence) ≫= fun _ =>
  modify (fun c => set_pending (ct_pending c ++ [i]) c) ≫= fun _ =>
  err ← on_send (ct_write action fence 0);
  on_recv (modify (g2h_reserve_space (Z.of_nat GUC_CTB_HXG_MSG_MAX_LEN))) ≫= fun _ =>
  if negb (err =? 0) then goto i (CtUnlink err false) else
  intel_guc_notify ≫= fun _ => goto i CtWait.

(** From the label [retry] to the wait, under the lock of the buffer. *)
Definition send_try (i : nat) (action : list Z) : op unit :=
  h2g ← on_send (h2g_has_room (length action + GUC_CTB_HDR_LEN));
  g2h ← (if h2g : bool then gets (fun c => g2h_has_room (Z.of_nat GUC_CTB_HXG_MSG_MAX_LEN) (ct_recv_ctb c)) else mret false);
  if negb g2h then note_stall ≫= fun _ => goto i CtStalled else send_request i action.

(** The result of a wait that ended with [err], and whether the request is sent again. *)
Definition send_result (err : Z) (s : sender) : Z * bool :=
  let type := FIELD_GET GUC_HXG_MSG_0_TYPE (sd_status s) in
  if negb (err =? 0) then (err, false) else
  if type =? GUC_HXG_TYPE_NO_RESPONSE_RETRY then (0, true) else
  if negb (type =? GUC_HXG_TYPE_RESPONSE_SUCCESS) then (- EIO, false) else
  match sd_buf s with
  | Some _ => (sd_len s, false)
  | None => (FIELD_GET GUC_HXG_RESPONSE_MSG_0_DATA0 (sd_status s), false)
  end.

(** One step of caller [i]: [expired] says whether its wait times out now, [signal] whether its
    sleep is interrupted. *)
Definition send_step (i : nat) (expired signal : bool) : op unit :=
  s ← gets (fun c => ct_senders c !! i);
  match s with
  | None => mret tt
  | Some s =>
      match sd_pc s with
      | CtTry => send_try i (sd_action s)
      | CtStalled =>
          dead ← ct_deadlocked;
          goto i (if dead : bool then CtReturned (- EPIPE) else if signal then CtReturned (- EINTR) else CtTry)
      | CtWait =>
          enabled ← gets ct_enabled;
          if negb enabled then goto i (CtGot (- ENODEV)) else
          if FIELD_GET GUC_HXG_MSG_0_ORIGIN (sd_status s) =? GUC_HXG_ORIGIN_GUC then goto i (CtGot 0) else
          if expired then goto i (CtGot (- ETIMEDOUT)) else mret tt
      | CtGot err =>
          on_recv (modify (g2h_release_space (Z.of_nat GUC_CTB_HXG_MSG_MAX_LEN))) ≫= fun _ =>
          let '(ret, again) := send_result err s in goto i (CtUnlink ret again)
      | CtUnlink ret again =>
          modify (fun c => set_pending (filter (fun j => j <> i) (ct_pending c)) c) ≫= fun _ =>
          goto i (if again then CtTry else CtReturned ret)
      | CtReturned _ => mret tt
      end
  end.

(** ** Receiving *)

Definition ct_free_msg : op unit := modify (fun c => set_live (ct_live c - 1) c).

(** The response in the request of a caller: the memory of the caller's buffer is overwritten
    from its start. *)
Definition store_data (hxg0 : Z) (data : list Z) (s : sender) : sender :=
  {| sd_action := sd_action s; sd_room := sd_room s; sd_fence := sd_fence s; sd_status := hxg0;
     sd_len := Z.of_nat (length data); sd_buf := (fun buf => data ++ drop (length data) buf) <$> sd_buf s;
     sd_pc := sd_pc s |}.

(** The first pending request with the fence. *)
Definition find_request (fence : Z) (c : ct W) : option nat :=
  snd <$> list_find (fun i => sd_fence <$> ct_senders c !! i = Some fence) (ct_pending c).

Definition ct_handle_response (msg : list Z) : op Z :=
  let len := FIELD_GET GUC_CTB_MSG_0_NUM_DWORDS (msg.[0%nat | 0]) in
  let fence := FIELD_GET GUC_CTB_MSG_0_FENCE (msg.[0%nat | 0]) in
  let hxg0 := msg.[1%nat | 0] in
  let data := take (Z.to_nat (len - 1)) (drop 2 msg) in
  i ← gets (find_request fence);
  match i with
  | None => mret (- ENOKEY)
  | Some i =>
      room ← gets (fun c => match ct_senders c !! i with Some s => sd_len s | None => 0 end);
      upd_sender i (store_data hxg0 (take (Z.to_nat room) data)) ≫= fun _ =>
      if Z.of_nat (length data) >? room then mret (- EMSGSIZE) else
      ct_free_msg ≫= fun _ => mret 0
  end.

(** The [switch] of [ct_process_request]. *)
Definition ct_handler_of (action : Z) : option ct_handler :=
  if action =? INTEL_GUC_ACTION_DEFAULT then Some HToHost
  else if action =? INTEL_GUC_ACTION_DEREGISTER_CONTEXT_DONE then Some HDeregisterDone
  else if action =? INTEL_GUC_ACTION_SCHED_CONTEXT_MODE_DONE then Some HSchedDone
  else if action =? GUC_ACTION_GUC2HOST_SET_ENGINE_SCHED_DONE then Some HEngineSchedDone
  else if action =? INTEL_GUC_ACTION_CONTEXT_RESET_NOTIFICATION then Some HContextReset
  else if action =? INTEL_GUC_ACTION_STATE_CAPTURE_NOTIFICATION then Some HErrorCapture
  else if action =? INTEL_GUC_ACTION_ENGINE_FAILURE_NOTIFICATION then Some HEngineFailure
  else if action =? GUC_ACTION_GUC2PF_VF_STATE_NOTIFY then Some HStateNotify
  else if action =? GUC_ACTION_GUC2PF_ADVERSE_EVENT then Some HAdverseEvent
  else if action =? GUC_ACTION_GUC2PF_RELAY_FROM_VF then Some HRelayFromVf
  else if action =? GUC_ACTION_GUC2VF_RELAY_FROM_PF then Some HRelayFromPf
  else if action =? GUC_ACTION_GUC2PF_MMIO_RELAY_SERVICE then Some HMmioRelay
  else if action =? INTEL_GUC_ACTION_NOTIFY_FLUSH_LOG_BUFFER_TO_FILE then Some HLogFlush
  else if (action =? INTEL_GUC_ACTION_NOTIFY_CRASH_DUMP_POSTED) || (action =? INTEL_GUC_ACTION_NOTIFY_EXCEPTION) then Some (HCrash action)
  else if action =? INTEL_GUC_ACTION_TLB_INVALIDATION_DONE then Some HTlbDone
  else None.

(** The handlers of the SR-IOV layer and of the engines get the whole message, the others its
    payload. *)
Definition handler_arg (h : ct_handler) (hxg : list Z) : list Z :=
  match h with
  | HEngineSchedDone | HStateNotify | HAdverseEvent | HRelayFromVf | HRelayFromPf | HMmioRelay => hxg
  | HLogFlush | HCrash _ => []
  | _ => drop 1 hxg
  end.

Definition ct_process_request (msg : list Z) : op Z :=
  let hxg := drop GUC_CTB_MSG_MIN_LEN msg in
  let action := FIELD_GET GUC_HXG_EVENT_MSG_0_ACTION (hxg.[0%nat | 0]) in
  ret ← match ct_handler_of action with
        | None => mret (- EOPNOTSUPP)
        | Some h => ret ← on_world (run_handler h (handler_arg h hxg));
                    mret (match h with HLogFlush => 0 | _ => ret end)
        end;
  if negb (ret =? 0) then mret ret else ct_free_msg ≫= fun _ => mret 0.

Definition ct_process_incoming_requests : op bool :=
  incoming ← gets ct_incoming;
  match incoming with
  | [] => mret true
  | msg :: rest =>
      modify (set_incoming rest) ≫= fun _ =>
      err ← ct_process_request msg;
      (if negb (err =? 0) then ct_free_msg else mret tt) ≫= fun _ =>
      mret (length rest =? 0)%nat
  end.

(** One round of the loop of [ct_incoming_request_worker_func], or its start. *)
Definition worker_step : op unit :=
  running ← gets ct_running;
  if running : bool then done ← ct_process_incoming_requests; modify (set_running (negb done)) else
  queued ← gets ct_worker;
  if queued : bool then modify (fun c => set_running true (set_queued false c)) else mret tt.

Definition releases_space (action : Z) : bool :=
  (action =? GUC_ACTION_GUC2HOST_SET_ENGINE_SCHED_DONE) || (action =? INTEL_GUC_ACTION_SCHED_CONTEXT_MODE_DONE) ||
  (action =? INTEL_GUC_ACTION_DEREGISTER_CONTEXT_DONE) || (action =? INTEL_GUC_ACTION_TLB_INVALIDATION_DONE).

Definition ct_handle_event (msg : list Z) : op Z :=
  let action := FIELD_GET GUC_HXG_EVENT_MSG_0_ACTION (msg.[1%nat | 0]) in
  (if releases_space action then on_recv (modify (g2h_release_space (Z.of_nat (length msg)))) else mret tt) ≫= fun _ =>
  if action =? INTEL_GUC_ACTION_TLB_INVALIDATION_DONE then ct_process_request msg else
  modify (fun c => set_queued true (set_incoming (ct_incoming c ++ [msg]) c)) ≫= fun _ => mret 0.

Definition ct_handle_hxg (msg : list Z) : op Z :=
  if (length msg <? GUC_CTB_HXG_MSG_MIN_LEN)%nat then mret (- EBADMSG) else
  let hxg0 := msg.[1%nat | 0] in
  if negb (FIELD_GET GUC_HXG_MSG_0_ORIGIN hxg0 =? GUC_HXG_ORIGIN_GUC) then mret (- EPROTO) else
  let type := FIELD_GET GUC_HXG_MSG_0_TYPE hxg0 in
  if type =? GUC_HXG_TYPE_EVENT then ct_handle_event msg
  else if (type =? GUC_HXG_TYPE_RESPONSE_SUCCESS) || (type =? GUC_HXG_TYPE_RESPONSE_FAILURE) ||
          (type =? GUC_HXG_TYPE_NO_RESPONSE_RETRY) then ct_handle_response msg
  else mret (- EOPNOTSUPP).

Definition ct_handle_msg (msg : list Z) : op unit :=
  err ← (if FIELD_GET GUC_CTB_MSG_0_FORMAT (msg.[0%nat | 0]) =? GUC_CTB_FORMAT_HXG then ct_handle_hxg msg
         else mret (- EOPNOTSUPP));
  if negb (err =? 0) then ct_free_msg else mret tt.

(** [ct_receive] and its caller [ct_try_receive_message] in two actions, between which other
    readers can come: [ct_receive] takes a message from the buffer, under [recv.lock];
    [ct_received] is what the [k]-th of the readers that hold one does with it, without that lock. *)
Definition receive_more (ret : Z) : op unit :=
  if ret >? 0 then modify (set_tasklet true) else mret tt.
Definition ct_receive : op unit :=
  ok ← gets (fun c => msg_alloc_ok (ct_ticks c));
  '(ret, msg) ← on_recv (ct_read ok);
  modify (fun c => set_ticks (S (ct_ticks c)) c) ≫= fun _ =>
  if ret <? 0 then mret tt else
  match msg with
  | Some msg => modify (fun c => set_hands (ct_hands c ++ [(msg, ret)]) (set_live (ct_live c + 1) c))
  | None => receive_more ret
  end.
Definition ct_received (k : nat) : op unit :=
  hands ← gets ct_hands;
  match hands !! k with
  | Some (msg, ret) =>
      modify (set_hands (delete k hands)) ≫= fun _ => ct_handle_msg msg ≫= fun _ => receive_more ret
  | None => mret tt
  end.

Definition ct_try_receive_message : op unit :=
  enabled ← gets ct_enabled;
  if negb enabled then mret tt else ct_receive.

(** The tasklet, when it is scheduled. *)
Definition ct_receive_tasklet_func : op unit :=
  scheduled ← gets ct_tasklet;
  if scheduled : bool then modify (set_tasklet false) ≫= fun _ => ct_try_receive_message else mret tt.

Definition intel_guc_ct_event_handler : op unit :=
  enabled ← gets ct_enabled;
  if negb enabled then mret tt else ct_try_receive_message.

(** ** Turning it on and off *)

Definition control_ctb_request (control : Z) : list Z :=
  [Z.lor (Z.lor (FIELD_PREP GUC_HXG_MSG_0_ORIGIN GUC_HXG_ORIGIN_HOST)
                (FIELD_PREP GUC_HXG_MSG_0_TYPE GUC_HXG_TYPE_REQUEST))
         (FIELD_PREP GUC_HXG_REQUEST_MSG_0_ACTION GUC_ACTION_HOST2GUC_CONTROL_CTB);
   control].

Definition guc_action_control_ctb (control : Z) : op Z :=
  ret ← on_world (send_mmio_data (control_ctb_request control));
  mret (if ret >? 0 then - EPROTO else ret).

Definition ct_control_enable (enable : bool) : op Z :=
  guc_action_control_ctb (if enable then GUC_CTB_CONTROL_ENABLE else GUC_CTB_CONTROL_DISABLE).

Definition ct_register_buffer (send : bool) (desc_addr buff_addr size : Z) : op Z :=
  err ← on_world (intel_guc_self_cfg64 (if send then GUC_KLV_SELF_CFG_H2G_CTB_DESCRIPTOR_ADDR_KEY
                                        else GUC_KLV_SELF_CFG_G2H_CTB_DESCRIPTOR_ADDR_KEY) desc_addr);
  if negb (err =? 0) then mret err else
  err ← on_world (intel_guc_self_cfg64 (if send then GUC_KLV_SELF_CFG_H2G_CTB_ADDR_KEY
                                        else GUC_KLV_SELF_CFG_G2H_CTB_ADDR_KEY) buff_addr);
  if negb (err =? 0) then mret err else
  on_world (intel_guc_self_cfg32 (if send then GUC_KLV_SELF_CFG_H2G_CTB_SIZE_KEY
                                  else GUC_KLV_SELF_CFG_G2H_CTB_SIZE_KEY) size).

(** The structure, zeroed by whoever has allocated it. *)
Definition intel_guc_ct_init_early (w : W) : ct W :=
  let zero := {| ctb_desc := guc_ct_buffer_desc_init; ctb_cmds := []; ctb_size := 0; ctb_resv_space := 0;
                 ctb_tail := 0; ctb_head := 0; ctb_space := 0; ctb_broken := false |} in
  {| ct_enabled := false; ct_send_ctb := zero; ct_recv_ctb := zero; ct_last_fence := 0; ct_pending := [];
     ct_incoming := []; ct_worker := false; ct_running := false; ct_tasklet := false; ct_stall_time := Some 0;
     ct_now := 0; ct_senders := []; ct_hands := []; ct_live := 0; ct_ticks := 0; ct_notifies := 0; ct_world := w |}.

(** The memory of the blob is zero. *)
Definition intel_guc_ct_init : op Z :=
  if negb (ct_vma_err =? 0) then mret ct_vma_err else
  modify (fun c => set_send (guc_ct_buffer_init (replicate (Z.to_nat (CTB_H2G_BUFFER_SIZE / 4)) 0) CTB_H2G_BUFFER_SIZE 0)
    (set_recv (guc_ct_buffer_init (replicate (Z.to_nat (CTB_G2H_BUFFER_SIZE / 4)) 0) CTB_G2H_BUFFER_SIZE G2H_ROOM_BUFFER_SIZE) c))
    ≫= fun _ => mret 0.

Definition intel_guc_ct_sanitize : op unit := modify (set_enabled false).

(** The descriptors are in the first half of the blob, that of the buffer to GuC first. *)
Definition intel_guc_ct_enable : op Z :=
  let base := ct_ggtt_offset in
  modify (fun c => set_send (guc_ct_buffer_reset (ct_send_ctb c)) (set_recv (guc_ct_buffer_reset (ct_recv_ctb c)) c)) ≫= fun _ =>
  size ← gets (fun c => u32 (ctb_size (ct_recv_ctb c) * 4));
  err ← ct_register_buffer false (u32 (base + CTB_DESC_SIZE)) (u32 (base + (2 * CTB_DESC_SIZE + CTB_H2G_BUFFER_SIZE))) size;
  if negb (err =? 0) then mret err else
  size ← gets (fun c => u32 (ctb_size (ct_send_ctb c) * 4));
  err ← ct_register_buffer true (u32 base) (u32 (base + 2 * CTB_DESC_SIZE)) size;
  if negb (err =? 0) then mret err else
  err ← ct_control_enable true;
  if negb (err =? 0) then mret err else
  modify (fun c => set_stall None (set_enabled true c)) ≫= fun _ => mret 0.

Definition intel_guc_ct_disable : op unit :=
  modify (set_enabled false) ≫= fun _ =>
  running ← gets (fun c => fw_running (ct_world c));
  if running : bool then ct_control_enable false ≫= fun _ => mret tt else mret tt.
End ct.

(** ** What an operation does not touch *)

Section keeps.
Context {W : Type}.
#[local] Abbreviation op A := (st (ct W) A).

Definition keeps {A T} (f : ct W -> T) (m : op A) : Prop := forall c, f (snd (m c)) = f c.

Lemma keeps_then {A B T} (f : ct W -> T) (m : op A) (k : A -> op B) :
  keeps f m -> (forall a, keeps f (k a)) -> keeps f (m ≫= k).
Proof.
  intros Hm Hk c. unfold mbind, st_bind. specialize (Hm c). destruct (m c) as [a c']. cbn [snd] in Hm. by rewrite Hk.
Qed.
Lemma keeps_if {A T} (f : ct W -> T) (b : bool) (m1 m2 : op A) :
  keeps f m1 -> keeps f m2 -> keeps f (if b then m1 else m2).
Proof. by destruct b. Qed.
Lemma keeps_send {A T} (f : ct W -> T) (m : st intel_guc_ct_buffer A) :
  (forall b c, f (set_send b c) = f c) -> keeps f (on_send m).
Proof. intros Hf c. unfold on_send. destruct (m _). apply Hf. Qed.
Lemma keeps_recv {A T} (f : ct W -> T) (m : st intel_guc_ct_buffer A) :
  (forall b c, f (set_recv b c) = f c) -> keeps f (on_recv m).
Proof. intros Hf c. unfold on_recv. destruct (m _). apply Hf. Qed.
Lemma keeps_world {A T} (f : ct W -> T) (m : st W A) :
  (forall w c, f (set_world w c) = f c) -> keeps f (on_world m).
Proof. intros Hf c. unfold on_world. destruct (m _). apply Hf. Qed.

Lemma keeps_wp {A T} (f : ct W -> T) (m : op A) (Q : A -> ct W -> Prop) c :
  keeps f m -> (forall a c', f c' = f c -> Q a c') -> wp m Q c.
Proof. intros Hm HQ. unfold wp. apply HQ, Hm. Qed.

End keeps.

Ltac keep_step :=
  match goal with
  | |- keeps _ (_ ≫= _) => apply keeps_then; [|intros ?]
  | |- keeps _ (if _ then _ else _) => apply keeps_if
  | |- keeps _ (on_send _) => apply keeps_send; intros; reflexivity
  | |- keeps _ (on_recv _) => apply keeps_recv; intros; reflexivity
  | |- keeps _ (on_world _) => apply keeps_world; intros; reflexivity
  | |- keeps _ (mret _) => intros ?; reflexivity
  | |- keeps _ (gets _) => intros ?; reflexivity
  | |- keeps _ (modify _) => intros ?; reflexivity
  | |- keeps _ (match ?x with _ => _ end) => destruct x
  | |- keeps _ (fun _ => _) => intros ?; reflexivity
  end.

(** The fields of a state that has just been updated. *)
Ltac ct_simpl := cbn [ct_enabled ct_send_ctb ct_recv_ctb ct_last_fence ct_pending ct_incoming ct_worker ct_running ct_tasklet
  ct_stall_time ct_now ct_senders ct_hands ct_live ct_ticks ct_notifies ct_world set_enabled set_send set_recv set_fence set_pending
  set_incoming set_queued set_running set_tasklet set_stall set_senders set_hands set_live set_ticks set_notifies set_world
  set_now freed allocated after_read ctb_space set_ctb_space fst snd andb negb].

Lemma keeps_deadlocked {W T} (f : ct W -> T) : (forall b c, f (set_send b c) = f c) -> keeps f ct_deadlocked.
Proof. intros Hf. unfold ct_deadlocked. repeat keep_step. by apply keeps_send. Qed.

(** ** Properties *)

(** *** Sending without waiting *)

Section send.
Context {W : Type} `{C : CtClient W}.
Implicit Types c : ct W.

Lemma wp_on_send {A} (m : st intel_guc_ct_buffer A) (Q : A -> ct W -> Prop) c :
  wp m (fun a b => Q a (set_send b c)) (ct_send_ctb c) -> wp (on_send m) Q c.
Proof. unfold wp, on_send. by destruct (m (ct_send_ctb c)). Qed.

Lemma wp_on_recv {A} (m : st intel_guc_ct_buffer A) (Q : A -> ct W -> Prop) c :
  wp m (fun a b => Q a (set_recv b c)) (ct_recv_ctb c) -> wp (on_recv m) Q c.
Proof. unfold wp, on_recv. by destruct (m (ct_recv_ctb c)). Qed.

(** The time since which there is no room, if there is none now. *)
Definition stalled_since c : Z := default (ct_now c) (ct_stall_time c).

Definition is_stalled c : bool :=
  match ct_stall_time c with Some t => ct_now c - t >? GUC_CTB_TIMEOUT_MS | None => false end.

Lemma wp_ct_deadlocked (Q : bool -> ct W -> Prop) c :
  (is_stalled c = true -> Q true (set_send (set_ctb_broken (ct_send_ctb c)) c)) ->
  (is_stalled c = false -> Q false c) -> wp ct_deadlocked Q c.
Proof.
  intros H1 H2. unfold ct_deadlocked. apply wp_bind, wp_gets. fold (is_stalled c). apply wp_bind.
  destruct (is_stalled c); [apply wp_on_send, wp_modify, wp_ret, H1|apply wp_ret, wp_ret, H2]; done.
Qed.

Lemma wp_run_fence (Q : Z -> ct W -> Prop) c :
  Q (u16 (ct_last_fence c + 1)) (set_fence (u16 (ct_last_fence c + 1)) c) -> wp ct_get_next_fence Q c.
Proof. done. Qed.

(** What [ct_send_nb] does where there is no room. *)
Definition nb_refused (g2h_room : bool) (c c' : ct W) (ret : Z) : Prop :=
  sent_words (ct_send_ctb c') = sent_words (ct_send_ctb c) /\ ct_recv_ctb c' = ct_recv_ctb c /\
  ct_notifies c' = ct_notifies c /\ ct_last_fence c' = ct_last_fence c /\
  ct_stall_time c' = Some (stalled_since c) /\ ct_tasklet c' = ct_tasklet c || negb g2h_room /\
  if decide (GUC_CTB_TIMEOUT_MS < ct_now c - stalled_since c)
  then ret = - EPIPE /\ ctb_broken (ct_send_ctb c') = true
  else ret = - EBUSY /\ ctb_broken (ct_send_ctb c') = ctb_broken (ct_send_ctb c).

Definition nb_sent (action : list Z) (flags : Z) (c c' : ct W) (ret : Z) : Prop :=
  ret = 0 /\
  sent_words (ct_send_ctb c') = sent_words (ct_send_ctb c) ++ ct_words action (u16 (ct_last_fence c + 1)) flags /\
  ct_recv_ctb c' = g2h_reserve_space (G2H_LEN_DW flags) (ct_recv_ctb c) /\
  ct_notifies c' = S (ct_notifies c) /\ ct_last_fence c' = u16 (ct_last_fence c + 1) /\ ct_stall_time c' = None.

Lemma send_ok_broken b : send_ok b -> send_ok (set_ctb_broken b).
Proof. intros []. by constructor. Qed.

Lemma wp_has_room_nb h2g g2h (Q : Z -> ct W -> Prop) c :
  send_ok (ct_send_ctb c) ->
  (forall c' ret, ~ (Z.of_nat h2g <= send_room (ct_send_ctb c) /\ g2h_has_room g2h (ct_recv_ctb c) = true) ->
     ret <> 0 -> send_ok (ct_send_ctb c') -> nb_refused (g2h_has_room g2h (ct_recv_ctb c)) c c' ret -> Q ret c') ->
  (forall b, Z.of_nat h2g <= send_room (ct_send_ctb c) -> g2h_has_room g2h (ct_recv_ctb c) = true ->
     send_ok b -> sent_words b = sent_words (ct_send_ctb c) -> Z.of_nat h2g <= ctb_space b ->
     Q 0 (set_stall None (set_send b c))) ->
  wp (has_room_nb h2g g2h) Q c.
Proof.
  intros Hok Hno Hyes. unfold has_room_nb. apply wp_bind, wp_on_send, wp_h2g_has_room; [done|].
  intros b Hok' Hw Hbr _ Hsp. apply wp_bind, wp_gets. cbn [ct_recv_ctb set_send].
  destruct (decide (Z.of_nat h2g <= send_room (ct_send_ctb c) /\ g2h_has_room g2h (ct_recv_ctb c) = true)) as [[H1 H2]|Hn].
  { rewrite bool_decide_eq_true_2, H2 by done. apply wp_bind, wp_modify, wp_ret, Hyes; auto. }
  replace (negb _ || negb _) with true by (case_bool_decide; destruct (g2h_has_room g2h (ct_recv_ctb c)); done || tauto).
  apply wp_bind, wp_modify, wp_bind.
  assert (forall t, t = ct_tasklet c || negb (g2h_has_room g2h (ct_recv_ctb c)) ->
    wp (dead ← ct_deadlocked; mret (if dead : bool then - EPIPE else - EBUSY)) Q
       (set_tasklet t (set_stall (Some (stalled_since c)) (set_send b c)))) as Hrest.
  { intros t Ht. apply wp_bind, wp_ct_deadlocked; intros Hd; apply wp_ret; (apply Hno; [done|done|by try apply send_ok_broken|]);
      unfold is_stalled in Hd; cbn in Hd; propify; repeat split; cbn; try done.
    - by rewrite decide_True.
    - by rewrite decide_False by lia. }
  destruct (g2h_has_room g2h (ct_recv_ctb c)); [apply wp_ret|apply wp_modify].
  - apply (Hrest (ct_tasklet c)). by rewrite orb_false_r.
  - apply (Hrest true). by rewrite orb_true_r.
Qed.

(** C28: a message without a response. [ct_send_nb] sends it exactly when both buffers have the
    room, one for the message and the other for the credits that its answers need: the message
    then stands behind those that GuC has not read, with the next fence, the credits are
    reserved, GuC is notified, and 0 is returned. Otherwise nothing is written or reserved; the
    time since which there is no room is noted, the tasklet is scheduled when it is credits that
    are missing, and the caller is told to try again (-EBUSY) - or, when this has been going on for
    more than 1500 ms, the buffer is given up (-EPIPE). *)
Theorem send_nb_outcome action flags c :
  send_ok (ct_send_ctb c) -> action <> [] ->
  let g2h_room := g2h_has_room (G2H_LEN_DW flags) (ct_recv_ctb c) in
  let '(ret, c') := ct_send_nb action flags c in
  send_ok (ct_send_ctb c') /\
  if decide (Z.of_nat (length action + GUC_CTB_HDR_LEN) <= send_room (ct_send_ctb c) /\ g2h_room = true)
  then nb_sent action flags c c' ret else nb_refused g2h_room c c' ret.
Proof.
  intros Hok Ha g2h_room.
  apply (wp_let _ (fun ret c' => send_ok (ct_send_ctb c') /\
    if decide (Z.of_nat (length action + GUC_CTB_HDR_LEN) <= send_room (ct_send_ctb c) /\ g2h_room = true)
    then nb_sent action flags c c' ret else nb_refused g2h_room c c' ret)).
  unfold ct_send_nb. apply wp_bind, wp_has_room_nb; [done| |].
  - intros c' ret Hn Hret Hok' Hr. rewrite (proj2 (Z.eqb_neq _ _)) by done. apply wp_ret. split; [done|]. by rewrite decide_False.
  - intros b H1 H2 Hok' Hw Hsp. cbn [negb Z.eqb].
    apply wp_bind, wp_run_fence. apply wp_bind, wp_on_send, wp_ct_write; [done..|]. intros b' Hok2 Hw2 _ _. cbn [negb Z.eqb].
    apply wp_bind, wp_on_recv, wp_modify, wp_bind, wp_modify, wp_ret. split; [done|]. rewrite decide_True by done.
    unfold nb_sent. cbn. cbn in Hw2. by rewrite Hw2, Hw.
Qed.
End send.

(** *** Turning the transport on *)

Section enable.
Context {W : Type} `{M : GucMailbox W} `{C : CtClient W}.
Implicit Types c : ct W.

(** Requests through the mailbox, each with the reply that lets the next one follow. *)
Fixpoint ask_all (rs : list (list Z * Z)) : st W bool :=
  match rs with
  | [] => mret true
  | (request, expected) :: rs =>
      reply ← send_mmio_data request;
      if reply =? expected then ask_all rs else mret false
  end.

Lemma ask_all_app rs1 rs2 w :
  ask_all (rs1 ++ rs2) w = let '(ok, w) := ask_all rs1 w in if ok : bool then ask_all rs2 w else (false, w).
Proof.
  revert w. induction rs1 as [|[r e] rs1 IH]; intros w; [done|]. cbn [app ask_all]. unfold mbind, st_bind.
  destruct (send_mmio_data r w) as [x w']. destruct (x =? e); [apply IH|done].
Qed.

Definition register_requests (desc_key addr_key size_key desc_addr buff_addr size : Z) : list (list Z * Z) :=
  [(self_cfg_request desc_key 2 desc_addr, 1); (self_cfg_request addr_key 2 buff_addr, 1);
   (self_cfg_request size_key 1 (u32 size), 1)].

Definition enable_requests : list (list Z * Z) :=
  let base := ct_ggtt_offset in
  register_requests GUC_KLV_SELF_CFG_G2H_CTB_DESCRIPTOR_ADDR_KEY GUC_KLV_SELF_CFG_G2H_CTB_ADDR_KEY
    GUC_KLV_SELF_CFG_G2H_CTB_SIZE_KEY (u32 (base + 0x800)) (u32 (base + 0x2000)) 0x4000 ++
  register_requests GUC_KLV_SELF_CFG_H2G_CTB_DESCRIPTOR_ADDR_KEY GUC_KLV_SELF_CFG_H2G_CTB_ADDR_KEY
    GUC_KLV_SELF_CFG_H2G_CTB_SIZE_KEY (u32 base) (u32 (base + 0x1000)) 0x1000 ++
  [(control_ctb_request GUC_CTB_CONTROL_ENABLE, 0)].

Lemma self_cfg_ask key len value w : exists err,
  __guc_self_cfg key len value w = (err, snd (send_mmio_data (self_cfg_request key len value) w)) /\
  (err =? 0) = (fst (send_mmio_data (self_cfg_request key len value) w) =? 1).
Proof.
  exists (fst (__guc_self_cfg key len value w)). pose proof (self_cfg_0 key len value w) as H0. split.
  - unfold __guc_self_cfg, __guc_action_self_cfg, mbind, st_bind. by destruct (send_mmio_data _ w).
  - apply bool_eq_false. rewrite !Z.eqb_neq. tauto.
Qed.

Lemma register_ask (send : bool) desc_addr buff_addr size c : exists err,
  let '(ok, w) := ask_all (register_requests
    (if send then GUC_KLV_SELF_CFG_H2G_CTB_DESCRIPTOR_ADDR_KEY else GUC_KLV_SELF_CFG_G2H_CTB_DESCRIPTOR_ADDR_KEY)
    (if send then GUC_KLV_SELF_CFG_H2G_CTB_ADDR_KEY else GUC_KLV_SELF_CFG_G2H_CTB_ADDR_KEY)
    (if send then GUC_KLV_SELF_CFG_H2G_CTB_SIZE_KEY else GUC_KLV_SELF_CFG_G2H_CTB_SIZE_KEY) desc_addr buff_addr size) (ct_world c) in
  ct_register_buffer send desc_addr buff_addr size c = (err, set_world w c) /\ (err =? 0) = ok.
Proof.
  unfold ct_register_buffer, register_requests, on_world, intel_guc_self_cfg64, intel_guc_self_cfg32. cbn [ask_all].
  unfold mbind, st_bind.
  match goal with |- context [__guc_self_cfg ?k 2 desc_addr] => destruct (self_cfg_ask k 2 desc_addr (ct_world c)) as (e1 & -> & H1) end.
  destruct (send_mmio_data _ (ct_world c)) as [x1 w1]. cbn [fst snd] in *. rewrite <- H1.
  destruct (e1 =? 0) eqn:He1; cbn [negb]; [|by exists e1].
  cbn [ct_world set_world].
  match goal with |- context [__guc_self_cfg ?k 2 buff_addr] => destruct (self_cfg_ask k 2 buff_addr w1) as (e2 & -> & H2) end.
  destruct (send_mmio_data _ w1) as [x2 w2]. cbn [fst snd] in *. rewrite <- H2.
  destruct (e2 =? 0) eqn:He2; cbn [negb]; [|by exists e2].
  cbn [ct_world set_world].
  match goal with |- context [__guc_self_cfg ?k 1 (u32 size)] => destruct (self_cfg_ask k 1 (u32 size) w2) as (e3 & -> & H3) end.
  destruct (send_mmio_data _ w2) as [x3 w3]. cbn [fst snd] in *. rewrite <- H3. exists e3.
  by destruct (e3 =? 0) eqn:He3.
Qed.

Lemma control_ask c : exists err,
  let '(ok, w) := ask_all [(control_ctb_request GUC_CTB_CONTROL_ENABLE, 0)] (ct_world c) in
  ct_control_enable true c = (err, set_world w c) /\ (err =? 0) = ok.
Proof.
  unfold ct_control_enable, guc_action_control_ctb, on_world. cbn [ask_all]. unfold mbind, st_bind.
  destruct (send_mmio_data _ _) as [x w]. exists (if x >? 0 then - EPROTO else x).
  destruct (Z.eqb_spec x 0) as [->|Hx]; [done|]. split; [done|]. destruct (x >? 0); [done|]. by apply Z.eqb_neq.
Qed.

(** The buffers are in a blob of the size that [intel_guc_ct_init] allocates. *)
Record ct_ready c : Prop := {
  ready_send : ctb_size (ct_send_ctb c) = 1024 /\ length (ctb_cmds (ct_send_ctb c)) = 1024%nat /\ ctb_resv_space (ct_send_ctb c) = 0;
  ready_recv : ctb_size (ct_recv_ctb c) = 4096 /\ length (ctb_cmds (ct_recv_ctb c)) = 4096%nat /\ ctb_resv_space (ct_recv_ctb c) = 1024;
}.

Lemma init_ready c : fst (intel_guc_ct_init c) = 0 -> ct_ready (snd (intel_guc_ct_init c)).
Proof.
  unfold intel_guc_ct_init. destruct (ct_vma_err =? 0) eqn:He; cbn [negb].
  - intros _. constructor; cbn; by vm_compute.
  - cbn. intros H. by rewrite H in He.
Qed.

(** All of both buffers is free, less the quarter of the buffer from GuC which is kept for its
    unexpected messages. *)
Definition ct_empty c : Prop :=
  send_ok (ct_send_ctb c) /\ sent_words (ct_send_ctb c) = [] /\ ctb_space (ct_send_ctb c) = 1023 /\
  recv_ok (ct_recv_ctb c) /\ recv_words (ct_recv_ctb c) = [] /\ ctb_space (ct_recv_ctb c) = 4095 - 1024.

Lemma reset_empty c c' :
  ct_ready c -> ct_send_ctb c' = guc_ct_buffer_reset (ct_send_ctb c) ->
  ct_recv_ctb c' = guc_ct_buffer_reset (ct_recv_ctb c) -> ct_empty c'.
Proof.
  intros [(S1 & S2 & S3) (R1 & R2 & R3)] Hs Hr. unfold ct_empty. rewrite Hs, Hr.
  unfold guc_ct_buffer_reset, sent_words, recv_words, queue. rewrite S1, S3, R1, R3. split_and!; try done.
  - constructor; cbn; rewrite ?S1, ?S2; try done; by exists 10.
  - constructor; cbn; rewrite ?R1, ?R2; try done; by exists 12.
Qed.

(** The transport is on exactly when GuC has taken all of it. [intel_guc_ct_enable] starts with
    empty, unbroken buffers and asks GuC, through the mailbox, to take the address of the
    descriptor, the address and the size of the buffer from GuC, then those of the buffer to GuC,
    and to turn the transport on; each request is made only when GuC has taken the ones before
    it, whatever else its replies may be. The call returns 0, and the transport is enabled, if and only if
    all seven are taken. Both buffers are then empty. *)
Theorem enable_outcome c :
  ct_ready c -> ct_enabled c = false ->
  let '(ok, w) := ask_all enable_requests (ct_world c) in
  let '(err, c') := intel_guc_ct_enable c in
  (err = 0 <-> ok = true) /\ ct_enabled c' = ok /\ ct_world c' = w /\
  ct_empty c'.
Proof.
  intros Hr Hoff. pose proof (ready_send c Hr) as (S1 & _ & _). pose proof (ready_recv c Hr) as (R1 & _ & _).
  set (c0 := set_send (guc_ct_buffer_reset (ct_send_ctb c)) (set_recv (guc_ct_buffer_reset (ct_recv_ctb c)) c)).
  unfold enable_requests, intel_guc_ct_enable. rewrite ask_all_app.
  unfold mbind at 1, st_bind at 1, modify at 1. fold c0. unfold mbind at 1, st_bind at 1, gets at 1.
  replace (u32 (ctb_size (ct_recv_ctb c0) * 4)) with 0x4000 by (unfold c0; cbn; by rewrite R1).
  unfold mbind at 1, st_bind at 1.
  destruct (register_ask false (u32 (ct_ggtt_offset + CTB_DESC_SIZE)) (u32 (ct_ggtt_offset + (2 * CTB_DESC_SIZE + CTB_H2G_BUFFER_SIZE))) 0x4000 c0)
    as (e1 & H1).
  change (ct_world c0) with (ct_world c) in H1. cbn [negb] in H1.
  change (u32 (ct_ggtt_offset + 0x800)) with (u32 (ct_ggtt_offset + CTB_DESC_SIZE)).
  change (u32 (ct_ggtt_offset + 0x2000)) with (u32 (ct_ggtt_offset + (2 * CTB_DESC_SIZE + CTB_H2G_BUFFER_SIZE))).
  destruct (ask_all _ (ct_world c)) as [ok1 w1]. destruct H1 as [-> <-].
  assert (forall e w, (e =? 0) = false -> (e = 0 <-> false = true) /\ ct_enabled (set_world w c0) = false /\
    ct_world (set_world w c0) = w /\ ct_empty (set_world w c0)) as Hfail.
  { intros e w He%Z.eqb_neq. split; [intuition congruence|]. split; [done|]. split; [done|]. by apply (reset_empty c). }
  destruct (e1 =? 0) eqn:He1; cbn [negb]; [|by apply Hfail].
  rewrite ask_all_app. unfold mbind at 1, st_bind at 1, gets at 1.
  replace (u32 (ctb_size (ct_send_ctb (set_world w1 c0)) * 4)) with 0x1000 by (unfold c0; cbn; by rewrite S1).
  unfold mbind at 1, st_bind at 1.
  destruct (register_ask true (u32 ct_ggtt_offset) (u32 (ct_ggtt_offset + 2 * CTB_DESC_SIZE)) 0x1000 (set_world w1 c0)) as (e2 & H2).
  change (ct_world (set_world w1 c0)) with w1 in H2. cbn [negb] in H2.
  change (u32 (ct_ggtt_offset + 0x1000)) with (u32 (ct_ggtt_offset + 2 * CTB_DESC_SIZE)).
  destruct (ask_all _ w1) as [ok2 w2]. destruct H2 as [-> <-].
  destruct (e2 =? 0) eqn:He2; cbn [negb]; [|by apply Hfail].
  unfold mbind at 1, st_bind at 1. change (set_world w2 (set_world w1 c0)) with (set_world w2 c0).
  destruct (control_ask (set_world w2 c0)) as (e3 & H3). change (ct_world (set_world w2 c0)) with w2 in H3.
  destruct (ask_all _ w2) as [ok3 w3]. destruct H3 as [-> <-].
  destruct (e3 =? 0) eqn:He3; cbn [negb]; [|by apply Hfail].
  split; [done|]. split; [done|]. split; [done|]. by apply (reset_empty c).
Qed.
End enable.

(** ** Witnesses *)

(** A GuC that takes every request, and a driver that notes what its handlers are called with. *)
#[local] Instance sample_mailbox : GucMailbox (list (list Z)) := {|
  send_mmio_data request w :=
    (if FIELD_GET GUC_HXG_REQUEST_MSG_0_ACTION (request.[0%nat | 0]) =? GUC_ACTION_HOST2GUC_CONTROL_CTB then 0 else 1, w) |}.
#[local] Instance sample_client : CtClient (list (list Z)) := {|
  run_handler h msg := fun w => (0, w ++ [msg]);
  msg_alloc_ok n := true;
  ct_vma_err := 0;
  ct_ggtt_offset := 0x100000;
  fw_running w := true |}.

Definition sample_ct : ct (list (list Z)) := snd (intel_guc_ct_init (intel_guc_ct_init_early [])).
Definition sample_enabled : ct (list (list Z)) := snd (intel_guc_ct_enable sample_ct).

Lemma sample_ready : ct_ready sample_ct.
Proof. by apply init_ready. Qed.

Lemma enable_outcome_witness : fst (intel_guc_ct_enable sample_ct) = 0 /\ ct_enabled sample_enabled = true.
Proof.
  pose proof (enable_outcome sample_ct sample_ready ltac:(done)) as Hw. unfold sample_enabled.
  assert (fst (ask_all enable_requests (ct_world sample_ct)) = true) as Hask by (by vm_compute).
  destruct (ask_all _ _) as [ok w]. destruct (intel_guc_ct_enable sample_ct) as [err c]. cbn [fst snd] in *. subst ok.
  destruct Hw as (H1 & H2 & _). split; [by apply H1|done].
Defined.

Lemma sample_send_ok : send_ok (ct_send_ctb sample_enabled).
Proof.
  pose proof (enable_outcome sample_ct sample_ready ltac:(done)) as Hw. unfold sample_enabled.
  destruct (ask_all _ _) as [ok w]. destruct (intel_guc_ct_enable sample_ct) as [err c]. apply Hw.
Qed.

Lemma send_nb_outcome_witness : fst (ct_send_nb [0x1001; 2; 3] 0x80000004 sample_enabled) = 0.
Proof.
  pose proof (send_nb_outcome [0x1001; 2; 3] 0x80000004 sample_enabled sample_send_ok ltac:(done)) as Hw.
  destruct (ct_send_nb _ _ _) as [ret c]. destruct Hw as [_ Hw]. rewrite decide_True in Hw by (by vm_compute). apply Hw.
Defined.
