(* ===== verification/CtRuns.v ===== *)
(** * Runs of the command transport

    The operations of Ct.v in any order: calls and the steps of those that wait, the interrupt
    handler, the tasklet and the worker, the transport being turned on and off, while GuC writes
    what it likes to the memory it shares with the driver. What holds in every such run: no
    message is lost or freed twice, the worker is always called and the credits add up. Each step
    of a call that waits is a transition of a small machine, [turn]. *)

From S2P Require Export Ct.

Section runs.
Context {W : Type} `{M : GucMailbox W} `{C : CtClient W}.
Implicit Types c : ct W.
#[local] Abbreviation op A := (st (ct W) A).

(** ** Operations *)

(** [DoHandle]: a reader that holds a message handles it. [GucWrites]: what GuC does to the shared memory, the head and the status of the buffer that
    it reads, the tail, the status and the dwords of the buffer that it writes. *)
Inductive ct_op :=
| DoSend (action : list Z) (room : option nat) (flags : Z)
| DoStep (i : nat) (expired signal : bool)
| DoIrq
| DoTasklet
| DoHandle (k : nat)
| DoWorker
| DoEnable
| DoDisable
| DoSanitize
| GucWrites (head status tail status' : Z) (cmds : list Z)
| TimeIs (now : Z).

Definition guc_reads (head status : Z) (b : intel_guc_ct_buffer) : intel_guc_ct_buffer :=
  set_ctb_desc {| desc_head := head; desc_tail := desc_tail (ctb_desc b); desc_status := status |} b.
Definition guc_writes (tail status : Z) (cmds : list Z) (b : intel_guc_ct_buffer) : intel_guc_ct_buffer :=
  set_ctb_cmds cmds (set_ctb_desc {| desc_head := desc_head (ctb_desc b); desc_tail := tail; desc_status := status |} b).
Definition ct_do (o : ct_op) : op unit :=
  match o with
  | DoSend action room flags => intel_guc_ct_send action room flags ≫= fun _ => mret tt
  | DoStep i expired signal => send_step i expired signal
  | DoIrq => intel_guc_ct_event_handler
  | DoTasklet => ct_receive_tasklet_func
  | DoHandle k => ct_received k
  | DoWorker => worker_step
  | DoEnable => intel_guc_ct_enable ≫= fun _ => mret tt
  | DoDisable => intel_guc_ct_disable
  | DoSanitize => intel_guc_ct_sanitize
  | GucWrites head status tail status' cmds =>
      on_send (modify (guc_reads head status)) ≫= fun _ => on_recv (modify (guc_writes tail status' cmds))
  | TimeIs now => modify (set_now now)
  end.
Definition ct_next (c : ct W) (o : ct_op) : ct W := snd (ct_do o c).
Definition ct_run (ops : list ct_op) (c : ct W) : ct W := foldl ct_next c ops.

Lemma ct_run_snoc ops o c : ct_run (ops ++ [o]) c = ct_next (ct_run ops c) o.
Proof. unfold ct_run. by rewrite foldl_snoc. Qed.

(** ** What becomes of a message *)

Definition msg_action (msg : list Z) : Z := FIELD_GET GUC_HXG_EVENT_MSG_0_ACTION (msg.[1%nat | 0]).
Definition msg_type (msg : list Z) : Z := FIELD_GET GUC_HXG_MSG_0_TYPE (msg.[1%nat | 0]).
Definition msg_fence (msg : list Z) : Z := FIELD_GET GUC_CTB_MSG_0_FENCE (msg.[0%nat | 0]).

Definition from_guc (msg : list Z) : bool :=
  (FIELD_GET GUC_CTB_MSG_0_FORMAT (msg.[0%nat | 0]) =? GUC_CTB_FORMAT_HXG) &&
  (GUC_CTB_HXG_MSG_MIN_LEN <=? length msg)%nat &&
  (FIELD_GET GUC_HXG_MSG_0_ORIGIN (msg.[1%nat | 0]) =? GUC_HXG_ORIGIN_GUC).
Definition is_event (msg : list Z) : bool := from_guc msg && (msg_type msg =? GUC_HXG_TYPE_EVENT).
Definition is_response (msg : list Z) : bool :=
  from_guc msg && ((msg_type msg =? GUC_HXG_TYPE_RESPONSE_SUCCESS) || (msg_type msg =? GUC_HXG_TYPE_RESPONSE_FAILURE) ||
                   (msg_type msg =? GUC_HXG_TYPE_NO_RESPONSE_RETRY)).

Definition release (msg : list Z) (c : ct W) : ct W :=
  if releases_space (msg_action msg) then set_recv (g2h_release_space (Z.of_nat (length msg)) (ct_recv_ctb c)) c else c.

(** The dwords of a response behind its header, as many as the message says. *)
Definition msg_data (msg : list Z) : list Z :=
  take (Z.to_nat (FIELD_GET GUC_CTB_MSG_0_NUM_DWORDS (msg.[0%nat | 0]) - 1)) (drop 2 msg).

(** [store_data] with the response [msg], cut to the room that the caller has. *)
Definition answer (msg : list Z) (s : sender) : sender :=
  store_data (msg.[1%nat | 0]) (take (Z.to_nat (sd_len s)) (msg_data msg)) s.

Lemma wp_ct_process_request msg (Q : Z -> ct W -> Prop) c :
  (forall w, Q 0 (freed (set_world w c))) -> (forall w ret, ret <> 0 -> Q ret (set_world w c)) ->
  wp (ct_process_request msg) Q c.
Proof.
  intros H0 H1. unfold ct_process_request. apply wp_bind.
  assert (forall w ret, wp (if negb (ret =? 0) then mret ret else ct_free_msg ≫= fun _ => mret 0) Q (set_world w c)) as Hend.
  { intros w ret. destruct (Z.eqb_spec ret 0) as [->|Hr]; cbn [negb]; [apply wp_bind, wp_modify, wp_ret, H0|apply wp_ret, H1, Hr]. }
  destruct (ct_handler_of _) as [h|].
  - apply wp_bind. unfold wp at 1, on_world. destruct (run_handler _ _ _) as [ret w]. cbn [fst snd]. apply wp_ret, Hend.
  - apply wp_ret. specialize (Hend (ct_world c) (- EOPNOTSUPP)). by destruct c.
Qed.

Lemma wp_ct_handle_event msg (Q : Z -> ct W -> Prop) c :
  (msg_action msg = INTEL_GUC_ACTION_TLB_INVALIDATION_DONE -> forall w, Q 0 (freed (set_world w (release msg c)))) ->
  (msg_action msg = INTEL_GUC_ACTION_TLB_INVALIDATION_DONE -> forall w ret, ret <> 0 -> Q ret (set_world w (release msg c))) ->
  (msg_action msg <> INTEL_GUC_ACTION_TLB_INVALIDATION_DONE ->
     Q 0 (set_queued true (set_incoming (ct_incoming c ++ [msg]) (release msg c)))) ->
  wp (ct_handle_event msg) Q c.
Proof.
  intros H1 H2 H3. unfold ct_handle_event. fold (msg_action msg). apply wp_bind.
  assert (wp (if msg_action msg =? INTEL_GUC_ACTION_TLB_INVALIDATION_DONE then ct_process_request msg
    else modify (fun c => set_queued true (set_incoming (ct_incoming c ++ [msg]) c)) ≫= fun _ => mret 0) Q (release msg c)) as Hrest.
  { destruct (Z.eqb_spec (msg_action msg) INTEL_GUC_ACTION_TLB_INVALIDATION_DONE) as [Ha|Ha].
    - apply wp_ct_process_request; eauto.
    - apply wp_bind, wp_modify, wp_ret. replace (ct_incoming (release msg c)) with (ct_incoming c); [by apply H3|].
      unfold release. by destruct (releases_space _). }
  unfold release in Hrest. destruct (releases_space _); [by apply wp_on_recv, wp_modify|by apply wp_ret].
Qed.

Lemma wp_ct_handle_response msg (Q : Z -> ct W -> Prop) c :
  (find_request (msg_fence msg) c = None -> Q (- ENOKEY) c) ->
  (forall i s, find_request (msg_fence msg) c = Some i -> ct_senders c !! i = Some s ->
     Q 0 (freed (set_senders (<[i := answer msg s]> (ct_senders c)) c)) /\
     Q (- EMSGSIZE) (set_senders (<[i := answer msg s]> (ct_senders c)) c)) ->
  wp (ct_handle_response msg) Q c.
Proof.
  intros Hno Hyes. unfold ct_handle_response. fold (msg_fence msg) (msg_data msg). apply wp_bind, wp_gets.
  destruct (find_request _ c) as [i|] eqn:Hf; [|by apply wp_ret, Hno].
  assert (exists s, ct_senders c !! i = Some s) as [s Hs].
  { unfold find_request in Hf. apply fmap_Some in Hf as ([j k] & Hf & ->). apply list_find_Some in Hf as (_ & Hf & _).
    cbn [snd]. by destruct (ct_senders c !! k); [eexists|]. }
  destruct (Hyes i s eq_refl Hs) as [H1 H2]. apply wp_bind, wp_gets. rewrite Hs. apply wp_bind. unfold upd_sender. apply wp_modify.
  assert (alter (store_data (msg.[1%nat | 0]) (take (Z.to_nat (sd_len s)) (msg_data msg))) i (ct_senders c) =
    <[i := answer msg s]> (ct_senders c)) as ->.
  { apply list_eq. intros j. destruct (decide (i = j)) as [<-|Hne].
    - rewrite list_lookup_alter_eq, list_lookup_insert_eq, Hs by (by eapply lookup_lt_Some). done.
    - by rewrite list_lookup_alter_ne, list_lookup_insert_ne. }
  destruct (_ >? _); [by apply wp_ret|by apply wp_bind, wp_modify, wp_ret].
Qed.

(** A message is dropped, answers a request, is handled at once or waits for the worker; in all
    cases but the last its memory is freed, once. *)
Lemma wp_ct_handle_msg msg (Q : unit -> ct W -> Prop) c :
  (is_event msg = false -> Q tt (freed c)) ->
  (is_response msg = true -> forall i s, find_request (msg_fence msg) c = Some i -> ct_senders c !! i = Some s ->
     Q tt (freed (set_senders (<[i := answer msg s]> (ct_senders c)) c))) ->
  (is_event msg = true -> msg_action msg = INTEL_GUC_ACTION_TLB_INVALIDATION_DONE ->
     forall w, Q tt (freed (set_world w (release msg c)))) ->
  (is_event msg = true -> msg_action msg <> INTEL_GUC_ACTION_TLB_INVALIDATION_DONE ->
     Q tt (set_queued true (set_incoming (ct_incoming c ++ [msg]) (release msg c)))) ->
  wp (ct_handle_msg msg) Q c.
Proof.
  intros Hdrop Hresp Htlb Hevent. unfold ct_handle_msg, ct_handle_hxg. fold (msg_type msg).
  assert (forall err, err <> 0 -> is_event msg = false -> wp (if negb (err =? 0) then ct_free_msg else mret tt) Q c) as Hfree.
  { intros err He Hd. rewrite (proj2 (Z.eqb_neq _ _)) by done. apply wp_modify. by apply Hdrop. }
  apply wp_bind. unfold is_event, is_response, from_guc in *. rewrite Nat.ltb_antisym.
  destruct (FIELD_GET GUC_CTB_MSG_0_FORMAT _ =? _); cbn [andb] in *; [|by apply wp_ret, Hfree].
  destruct (GUC_CTB_HXG_MSG_MIN_LEN <=? length msg)%nat; cbn [andb negb] in *; [|by apply wp_ret, Hfree].
  destruct (FIELD_GET GUC_HXG_MSG_0_ORIGIN _ =? _); cbn [andb negb] in *; [|by apply wp_ret, Hfree].
  destruct (msg_type msg =? GUC_HXG_TYPE_EVENT) eqn:Ht.
  { apply wp_ct_handle_event; [|intros Ha w ret Hr|]; cbn [negb Z.eqb].
    - intros Ha w. apply wp_ret. by apply Htlb.
    - rewrite (proj2 (Z.eqb_neq _ _)) by done. by apply wp_modify, Htlb.
    - intros Ha. by apply wp_ret, Hevent. }
  match goal with |- wp (if ?b then _ else _) _ _ => destruct b end; [|by apply wp_ret, Hfree].
  apply wp_ct_handle_response.
  - intros _. by apply Hfree.
  - intros i s Hf Hs. split; [apply wp_ret|apply wp_modify]; by eapply Hresp.
Qed.
(** ** Reading *)

(** The message that the driver would read now. *)
Definition incoming_msg (c : ct W) : option (list Z) := snd (fst (ct_read (msg_alloc_ok (ct_ticks c)) (ct_recv_ctb c))).

(** The message that an operation reads. *)
Definition reading (o : ct_op) (c : ct W) : option (list Z) :=
  match o with
  | DoIrq => if ct_enabled c then incoming_msg c else None
  | DoTasklet => if ct_tasklet c && ct_enabled c then incoming_msg c else None
  | _ => None
  end.

Lemma ct_read_frame alloc_ok b :
  let '(ret, msg, b') := ct_read alloc_ok b in ctb_space b' = ctb_space b /\ (ret < 0 -> msg = None).
Proof.
  unfold ct_read, ct_corrupted. repeat case_goal; simplify_eq; try done; split; try done; intros; exfalso; propify; lia.
Qed.


Lemma set_tasklet_id c : set_tasklet (ct_tasklet c) c = c.
Proof. by destruct c. Qed.

Lemma wp_receive_more ret (Q : unit -> ct W -> Prop) c : (forall t, Q tt (set_tasklet t c)) -> wp (receive_more ret) Q c.
Proof. intros HQ. unfold receive_more. apply wp_if; intros _; [by apply wp_modify|]. apply wp_ret. rewrite <- set_tasklet_id. apply HQ. Qed.

(** A reader holds [msg]. *)
Definition grabbed (msg : list Z) (ret : Z) c : ct W := set_hands (ct_hands c ++ [(msg, ret)]) (allocated c).

Lemma wp_try_receive (Q : unit -> ct W -> Prop) c :
  (ct_enabled c = false -> Q tt c) ->
  (ct_enabled c = true -> incoming_msg c = None -> forall b t, ctb_space b = ctb_space (ct_recv_ctb c) ->
     Q tt (set_tasklet t (after_read b c))) ->
  (ct_enabled c = true -> forall msg, incoming_msg c = Some msg -> forall b ret, ctb_space b = ctb_space (ct_recv_ctb c) ->
     Q tt (grabbed msg ret (after_read b c))) ->
  wp ct_try_receive_message Q c.
Proof.
  intros Hoff Hnone Hmsg. unfold ct_try_receive_message. apply wp_bind, wp_gets.
  destruct (ct_enabled c) eqn:He; cbn [negb]; [|by apply wp_ret, Hoff]. specialize (Hnone eq_refl). specialize (Hmsg eq_refl).
  unfold incoming_msg in *. pose proof (ct_read_frame (msg_alloc_ok (ct_ticks c)) (ct_recv_ctb c)) as Hfr.
  unfold ct_receive. apply wp_bind, wp_gets, wp_bind. unfold wp at 1, on_recv.
  destruct (ct_read _ _) as [[ret msg] b]. cbn [fst snd] in *. destruct Hfr as [Hsp Hneg].
  apply wp_bind, wp_modify. apply wp_if; intros Hr.
  { propify. apply wp_ret. rewrite Hneg in Hnone by done. rewrite <- (set_tasklet_id (set_ticks _ _)). by apply Hnone. }
  destruct msg as [msg|]; [by apply wp_modify, Hmsg|]. apply wp_receive_more. intros t. by apply Hnone.
Qed.

Lemma wp_tasklet (Q : unit -> ct W -> Prop) c :
  (ct_tasklet c = false -> Q tt c) ->
  (ct_tasklet c = true -> wp ct_try_receive_message Q (set_tasklet false c)) -> wp ct_receive_tasklet_func Q c.
Proof.
  intros H0 H1. unfold ct_receive_tasklet_func. apply wp_bind, wp_gets.
  destruct (ct_tasklet c); [apply wp_bind, wp_modify|apply wp_ret]; auto.
Qed.

(** An operation that reads: what has to hold of it when it reads nothing and when it reads [msg]. *)
Lemma wp_reading o (Q : ct W -> Prop) c :
  o = DoIrq \/ o = DoTasklet ->
  (reading o c = None -> forall b t n, ctb_space b = ctb_space (ct_recv_ctb c) -> Q (set_tasklet t (set_ticks n (set_recv b c)))) ->
  (forall msg, reading o c = Some msg -> forall b t ret, ctb_space b = ctb_space (ct_recv_ctb c) ->
     Q (set_tasklet t (grabbed msg ret (after_read b c)))) ->
  Q (ct_next c o).
Proof.
  intros Ho H1 H2. change (wp (ct_do o) (fun _ => Q) c).
  assert (reading o c = None -> forall t, Q (set_tasklet t c)) as H0.
  { intros Hr t. specialize (H1 Hr (ct_recv_ctb c) t (ct_ticks c) eq_refl). by destruct c. }
  destruct Ho as [-> | ->]; cbn [ct_do reading] in *.
  - unfold intel_guc_ct_event_handler. apply wp_bind, wp_gets.
    destruct (ct_enabled c) eqn:He; cbn [negb]; [|apply wp_ret; rewrite <- set_tasklet_id; auto].
    apply wp_try_receive; [congruence|intros; by apply H1|]. intros _ msg Hm b ret Hb. rewrite <- (set_tasklet_id (grabbed _ _ _)). auto.
  - apply wp_tasklet; intros Ht; rewrite Ht in *; cbn [andb] in *; [rewrite <- set_tasklet_id; auto|].
    destruct (ct_enabled c) eqn:He; apply wp_try_receive; cbn [ct_enabled set_tasklet ct_recv_ctb]; rewrite ?He; try done.
    + intros _ Hm b t Hb. by apply (H1 Hm).
    + intros _ msg Hm b ret Hb. by apply (H2 msg Hm b false).
    + intros _. by apply H0.
Qed.

(** The message that an operation handles, by a reader that holds it. *)
Definition handling (o : ct_op) (c : ct W) : option (list Z) :=
  match o with DoHandle k => fst <$> ct_hands c !! k | _ => None end.

Lemma wp_handling k (Q : ct W -> Prop) c :
  (handling (DoHandle k) c = None -> Q c) ->
  (forall msg ret, handling (DoHandle k) c = Some msg -> ct_hands c !! k = Some (msg, ret) ->
     wp (ct_handle_msg msg) (fun _ c' => forall t, Q (set_tasklet t c')) (set_hands (delete k (ct_hands c)) c)) ->
  Q (ct_next c (DoHandle k)).
Proof.
  cbn [handling]. intros H0 H1. change (wp (ct_received k) (fun _ => Q) c). unfold ct_received. apply wp_bind, wp_gets.
  destruct (ct_hands c !! k) as [[msg ret]|]; [|by apply wp_ret, H0].
  apply wp_bind, wp_modify, wp_bind. eapply wp_mono; [by apply (H1 msg ret)|]. intros [] c' Hc'. by apply wp_receive_more.
Qed.
(** ** The messages *)

Definition inbox c : Z * list (list Z) * list (list Z * Z) * bool * bool :=
  (ct_live c, ct_incoming c, ct_hands c, ct_worker c, ct_running c).

(** The memory allocated is that of the messages that wait or are in the hands of a reader, and
    the worker is called for those that wait. *)
Definition ct_tidy c : Prop :=
  ct_live c = Z.of_nat (length (ct_incoming c) + length (ct_hands c)) /\ (ct_incoming c <> [] -> ct_worker c = true \/ ct_running c = true).

Lemma keeps_inbox o : (match o with DoIrq | DoTasklet | DoHandle _ | DoWorker => False | _ => True end) -> keeps inbox (ct_do o).
Proof.
  intros Ho. destruct o; try done; cbn [ct_do];
    unfold intel_guc_ct_send, ct_send_nb, has_room_nb, send_step, send_try, send_request, note_stall, ct_deadlocked, ct_get_next_fence,
      intel_guc_notify, goto, upd_sender, intel_guc_ct_enable, ct_register_buffer, ct_control_enable,
      guc_action_control_ctb, intel_guc_ct_disable, intel_guc_ct_sanitize, ct_control_enable, guc_action_control_ctb;
    repeat keep_step.
Qed.

Lemma inbox_tidy c c' : inbox c' = inbox c -> ct_tidy c -> ct_tidy c'.
Proof. unfold inbox, ct_tidy. by intros [= -> -> -> -> ->]. Qed.

Lemma reading_tidy o c : o = DoIrq \/ o = DoTasklet -> ct_tidy c -> ct_tidy (ct_next c o).
Proof.
  intros Ho [Hl Hw]. apply wp_reading; [done|intros; by split|]. intros msg _ b t ret _. split; [|done]. cbn. rewrite length_app. cbn. lia.
Qed.
Lemma release_inbox msg c : inbox (release msg c) = inbox c.
Proof. unfold release. by destruct (releases_space _). Qed.
Lemma handling_tidy k c : ct_tidy c -> ct_tidy (ct_next c (DoHandle k)).
Proof.
  intros [Hl Hw]. apply wp_handling; [by split|]. intros msg ret _ Hk. assert (length (delete k (ct_hands c)) = length (ct_hands c) - 1)%nat as Hd by (apply length_delete; by rewrite Hk).
  apply lookup_lt_Some in Hk as Hlt. set (c1 := set_hands _ c).
  pose proof (release_inbox msg c1) as [= R1 R2 R3 R4 R5].
  apply wp_ct_handle_msg; intros; unfold ct_tidy; cbn; rewrite ?R1, ?R2, ?R3, ?R4, ?R5; cbn;
    rewrite ?length_app, ?Hd; cbn [length]; (split; [lia|by auto]).
Qed.

Lemma worker_tidy c : ct_tidy c -> ct_tidy (ct_next c DoWorker).
Proof.
  intros [Hl Hw]. change (wp worker_step (fun _ => ct_tidy) c). unfold worker_step. apply wp_bind, wp_gets.
  destruct (ct_running c) eqn:Hr.
  - apply wp_bind. unfold ct_process_incoming_requests. apply wp_bind, wp_gets.
    destruct (ct_incoming c) as [|msg rest] eqn:Hi.
    { apply wp_ret, wp_modify. split; cbn; rewrite Hi; done. }
    apply wp_bind, wp_modify, wp_bind. cbn [length] in Hl.
    apply wp_ct_process_request; intros; [|rewrite (proj2 (Z.eqb_neq _ _)) by done]; cbn [negb Z.eqb];
      unfold ct_free_msg; wp_steps; (split; cbn; [lia|]); intros Hne; (destruct rest; [done|]); right; reflexivity.
  - apply wp_bind, wp_gets. destruct (ct_worker c) eqn:Hq; [apply wp_modify|apply wp_ret].
    + split; [done|]. cbn. by right.
    + split; [done|]. by rewrite Hq, Hr.
Qed.

(** C22: no message of GuC is lost. However calls, the interrupt handler, the tasklet and the worker
    interleave, whether the transport is on or off, whatever GuC writes to the buffers and
    whichever message is malformed, answers a request that is not there or is refused by its
    handler: the messages that are allocated are those that a reader holds or that wait for the
    worker - every other one has been freed, once - and when one waits, the worker is queued or in its loop. *)
Theorem messages_kept ops c : ct_tidy c -> ct_tidy (ct_run ops c).
Proof.
  intros Hc. induction ops as [|o ops IH] using rev_ind; [done|]. rewrite ct_run_snoc. revert IH.
  generalize (ct_run ops c). clear c Hc. intros c Hc.
  destruct o; try (by apply (inbox_tidy c); [apply keeps_inbox|]).
  - by apply reading_tidy; [left|].
  - by apply reading_tidy; [right|].
  - by apply handling_tidy.
  - by apply worker_tidy.
Qed.
(** ** The credits *)

Definition space c : Z := ctb_space (ct_recv_ctb c).
Definition max_len : Z := Z.of_nat GUC_CTB_HXG_MSG_MAX_LEN.

(** A call holds the credits that it has reserved until its wait is over. *)
Definition hold (s : sender) : Z := match sd_pc s with CtWait | CtGot _ => 1 | _ => 0 end.
Definition held (l : list sender) : Z := sumZ (hold <$> l).

(** What an operation adds to the credits that no call holds: a message that is sent without
    waiting reserves some for its answers, which release theirs when they are handled; a call
    whose message cannot be written does not get its own back. *)
Definition owed_by (o : ct_op) c : Z :=
  match o with
  | DoSend action room flags =>
      if negb (Z.land flags INTEL_GUC_CT_SEND_NB =? 0) && bool_decide (fst (intel_guc_ct_send action room flags c) = Some 0)
      then G2H_LEN_DW flags else 0
  | DoStep i _ _ =>
      match ct_senders c !! i, ct_senders (ct_next c o) !! i with
      | Some s, Some s' => match sd_pc s, sd_pc s' with CtTry, CtUnlink _ _ => max_len | _, _ => 0 end
      | _, _ => 0
      end
  | _ => match handling o c with
         | Some msg => if is_event msg && releases_space (msg_action msg) then - Z.of_nat (length msg) else 0
         | None => 0
         end
  end.
(** The books of a run: where it is, what is owed, and the credits that waiting calls held when
    the transport was last enabled. Enabling fills the counter, whoever holds what. *)
Definition book (x : ct W * (Z * Z)) (o : ct_op) : ct W * (Z * Z) :=
  let '(c, (owed, stray)) := x in
  let c' := ct_next c o in
  (c', match o with DoEnable => (0, max_len * held (ct_senders c')) | _ => (owed + owed_by o c, stray) end).
Definition books (ops : list ct_op) c : ct W * (Z * Z) := foldl book (c, (0, 0)) ops.
Definition owed (ops : list ct_op) c : Z := (books ops c).2.1.
Definition stray (ops : list ct_op) c : Z := (books ops c).2.2.

Lemma books_snoc ops o c : books (ops ++ [o]) c = book (books ops c) o.
Proof. unfold books. by rewrite foldl_app. Qed.
Lemma books_run ops c : (books ops c).1 = ct_run ops c.
Proof.
  induction ops as [|o ops IH] using rev_ind; [done|]. rewrite books_snoc, ct_run_snoc, <- IH.
  by destruct (books ops c) as [c1 [? ?]].
Qed.

Lemma held_nonneg l : 0 <= held l.
Proof. unfold held. apply sumZ_nonneg, Forall_fmap, Forall_true. intros s. unfold compose, hold. destruct (sd_pc s); lia. Qed.
Lemma held_alter f i l s : l !! i = Some s -> held (alter f i l) = held l - hold s + hold (f s).
Proof.
  revert i. induction l as [|x l IH]; intros [|i]; [done..| |].
  - intros [= ->]. change (hold (f s) + held l = hold s + held l - hold s + hold (f s)). lia.
  - intros Hi. change (hold x + held (alter f i l) = hold x + held l - hold s + hold (f s)). rewrite (IH i Hi). lia.
Qed.

Lemma held_insert i l s s' : l !! i = Some s -> held (<[i := s']> l) = held l - hold s + hold s'.
Proof. intros Hi. rewrite <- (held_alter (fun _ => s') i l s Hi). by rewrite list_insert_alter. Qed.

Lemma max_len_eq : max_len = 256.
Proof. done. Qed.

Definition credits c : Z := space c + max_len * held (ct_senders c).

(** The credits after an operation, when the counter does not wrap. *)
Definition credits_ok (o : ct_op) c (c' : ct W) : Prop := credits c' = credits c - owed_by o c /\ 0 <= space c'.

Lemma response_no_event msg : is_response msg = true -> is_event msg = false.
Proof.
  unfold is_response, is_event. destruct (from_guc msg); [|done]. cbn [andb].
  intros H. apply Z.eqb_neq. intros Ht. rewrite Ht in H. by vm_compute in H.
Qed.

Lemma reading_credits o c : o = DoIrq \/ o = DoTasklet -> 0 <= space c -> credits_ok o c (ct_next c o).
Proof.
  intros Ho Hsp. assert (owed_by o c = 0) as Hby by (by destruct Ho as [-> | ->]).
  unfold credits_ok, credits, space in *. rewrite Hby.
  apply wp_reading; [done|intros _ b t n Hb; ct_simpl; rewrite Hb; lia|]. intros msg _ b t ret Hb. unfold grabbed. ct_simpl. rewrite Hb. lia.
Qed.
Lemma handling_credits k c : 0 <= space c ->
  credits c - owed_by (DoHandle k) c <= 2 ^ 30 -> credits_ok (DoHandle k) c (ct_next c (DoHandle k)).
Proof.
  intros Hsp Hmax. pose proof (held_nonneg (ct_senders c)) as Hh.
  assert (owed_by (DoHandle k) c = match handling (DoHandle k) c with
    | Some msg => if is_event msg && releases_space (msg_action msg) then - Z.of_nat (length msg) else 0
    | None => 0 end) as Hby by done.
  unfold credits_ok. rewrite Hby in *. clear Hby. unfold credits, space in *. rewrite max_len_eq in *.
  apply wp_handling; [intros ->; lia|]. intros msg ret Hr _. rewrite Hr in *. apply wp_ct_handle_msg.
  - intros -> t'. ct_simpl. lia.
  - intros Hresp i s _ Hs t'. rewrite (response_no_event _ Hresp). ct_simpl. cbn [andb] in Hmax. cbn [ct_senders set_hands] in Hs.
    rewrite (held_insert _ _ s) by done. change (hold (answer msg s)) with (hold s). lia.
  - intros He _ w t'. rewrite He in *. cbn [andb] in *. unfold release, g2h_release_space. revert Hmax.
    destruct (releases_space _); intros Hmax; ct_simpl; [|lia]. rewrite s32_small; lia.
  - intros He _ t'. rewrite He in *. cbn [andb] in *. unfold release, g2h_release_space. revert Hmax.
    destruct (releases_space _); intros Hmax; ct_simpl; [|lia]. rewrite s32_small; lia.
Qed.
Lemma g2h_room_space n b : g2h_has_room n b = true -> n <> 0 -> 0 <= ctb_space b < 2 ^ 31 -> n <= ctb_space b.
Proof. unfold g2h_has_room. intros Hr Hn Hs. rewrite u32_small in Hr by lia. apply orb_true_iff in Hr as [Hr|Hr]; propify; lia. Qed.

Lemma G2H_LEN_DW_range f : 0 <= G2H_LEN_DW f <= 257.
Proof.
  unfold G2H_LEN_DW. pose proof (FIELD_GET_range INTEL_GUC_CT_SEND_G2H_DW_MASK 8 0 f) as Hr.
  change (Z.of_nat GUC_CTB_HXG_MSG_MIN_LEN) with 2. destruct (negb _); lia.
Qed.

Definition accounts c : intel_guc_ct_buffer * list sender := (ct_recv_ctb c, ct_senders c).

Lemma wp_room_credits h n (Q : Z -> ct W -> Prop) c :
  (forall ret c', accounts c' = accounts c -> (ret = 0 -> g2h_has_room n (ct_recv_ctb c) = true) -> Q ret c') ->
  wp (has_room_nb h n) Q c.
Proof.
  intros HQ. unfold has_room_nb. apply wp_bind, (keeps_wp accounts); [by apply keeps_send|]. intros h2g c1 H1.
  apply wp_bind, wp_gets. replace (ct_recv_ctb c1) with (ct_recv_ctb c) by (unfold accounts in H1; congruence).
  destruct (negb h2g || negb (g2h_has_room n (ct_recv_ctb c))) eqn:Hroom.
  - apply wp_bind, wp_modify, wp_bind. apply (keeps_wp accounts); [repeat keep_step|]. intros _ c2 H2. apply wp_bind.
    apply (keeps_wp accounts); [by apply keeps_deadlocked|]. intros dead c3 H3. apply wp_ret, HQ; [|by destruct dead].
    by rewrite H3, H2.
  - apply wp_bind, wp_modify, wp_ret, HQ; [done|]. intros _. by apply orb_false_iff in Hroom as [_ ->%negb_false_iff].
Qed.

(** [ct_send_nb] and the credits: they are reserved exactly when it returns 0. *)
Lemma wp_send_nb_credits action flags c : 0 <= space c < 2 ^ 31 ->
  wp (ct_send_nb action flags) (fun ret c' => ct_senders c' = ct_senders c /\ 0 <= space c' /\
    space c' = space c - (if decide (ret = 0) then G2H_LEN_DW flags else 0)) c.
Proof.
  intros Hsp. unfold ct_send_nb. pose proof (G2H_LEN_DW_range flags) as Hg. set (n := G2H_LEN_DW flags) in *. clearbody n.
  assert (forall ret c', ret <> 0 -> accounts c' = accounts c -> ct_senders c' = ct_senders c /\ 0 <= space c' /\
    space c' = space c - (if decide (ret = 0) then n else 0)) as Hfail.
  { intros ret c' Hr [= Hrecv Hs]. unfold space in *. rewrite Hrecv, decide_False by done. split; [done|lia]. }
  apply wp_bind, wp_room_credits. intros ret c1 H1 Hroom. destruct (Z.eqb_spec ret 0) as [->|Hr]; cbn [negb]; [|by apply wp_ret, Hfail].
  specialize (Hroom eq_refl). apply wp_bind, (keeps_wp accounts); [by intros ?|]. intros fence c2 H2.
  apply wp_bind, (keeps_wp accounts); [by apply keeps_send|]. intros ret c3 H3. rewrite H2, H1 in H3.
  destruct (Z.eqb_spec ret 0) as [->|Hr]; cbn [negb]; [|by apply wp_ret, Hfail].
  apply wp_bind, wp_on_recv, wp_modify, wp_bind, wp_modify, wp_ret. injection H3 as Hrecv Hs. split; [done|].
  unfold space, g2h_reserve_space in *. ct_simpl. rewrite Hrecv. rewrite decide_True by done.
  assert (n = 0 \/ n <= ctb_space (ct_recv_ctb c)) as Hn.
  { destruct (decide (n = 0)); [by left|right]. by apply g2h_room_space. }
  rewrite s32_small; lia.
Qed.

Lemma held_app l1 l2 : held (l1 ++ l2) = held l1 + held l2.
Proof. unfold held. by rewrite fmap_app, sumZ_app. Qed.

Lemma send_credits action room flags c : 0 <= space c -> credits c <= 2 ^ 30 ->
  credits_ok (DoSend action room flags) c (ct_next c (DoSend action room flags)).
Proof.
  intros Hsp Hmax. pose proof (held_nonneg (ct_senders c)) as Hh. unfold credits_ok, owed_by.
  replace (ct_next c (DoSend action room flags)) with (snd (intel_guc_ct_send action room flags c))
    by (unfold ct_next; cbn [ct_do]; unfold mbind, st_bind; by destruct (intel_guc_ct_send action room flags c)).
  unfold credits in *. rewrite max_len_eq in *.
  set (nb := negb (Z.land flags INTEL_GUC_CT_SEND_NB =? 0)).
  enough (wp (intel_guc_ct_send action room flags) (fun r c' => space c' + 256 * held (ct_senders c') =
    space c + 256 * held (ct_senders c) - (if nb && bool_decide (r = Some 0) then G2H_LEN_DW flags else 0) /\ 0 <= space c') c) as Hwp
    by exact Hwp.
  assert (forall r, r <> 0 -> nb && bool_decide (Some r = Some 0) = false) as Hno.
  { intros r Hr. rewrite bool_decide_eq_false_2 by congruence. by rewrite andb_false_r. }
  unfold intel_guc_ct_send. fold nb. apply wp_bind, wp_gets, wp_if; intros _; [apply wp_ret; rewrite Hno by done; lia|].
  apply wp_bind, wp_gets, wp_if; intros _; [apply wp_ret; rewrite Hno by done; lia|].
  apply wp_if; intros Hnb.
  - apply wp_bind. eapply wp_mono; [apply wp_send_nb_credits; lia|]. intros ret c' (Hs & Hpos & Hspace). apply wp_ret.
    rewrite Hs, Hspace, Hnb. split; [|lia]. case_decide as Hr.
    + rewrite Hr, bool_decide_eq_true_2 by done. cbn [andb]. lia.
    + rewrite bool_decide_eq_false_2 by congruence. cbn [andb]. lia.
  - apply wp_bind, wp_modify, wp_ret. rewrite Hnb. unfold space. ct_simpl. rewrite held_app. split; [|done].
    change (held [new_sender action room]) with 0. lia.
Qed.

(** *** One step of a call *)

(** What a step of call [i] makes of the buffer from GuC, the pending list and the call itself. *)
Inductive turn (i : nat) (r : intel_guc_ct_buffer) (p : list nat) (s : sender) : intel_guc_ct_buffer -> list nat -> sender -> Prop :=
| turn_none : turn i r p s r p s
| turn_stall : sd_pc s = CtTry -> turn i r p s r p (set_sd_pc CtStalled s)
| turn_sent fence pc :
    sd_pc s = CtTry -> g2h_has_room max_len r = true -> pc = CtWait \/ pc = CtUnlink (- EPIPE) false ->
    turn i r p s (g2h_reserve_space max_len r) (p ++ [i]) (set_sd_pc pc (new_request fence s))
| turn_again pc :
    sd_pc s = CtStalled -> pc = CtReturned (- EPIPE) \/ pc = CtReturned (- EINTR) \/ pc = CtTry -> turn i r p s r p (set_sd_pc pc s)
| turn_got err : sd_pc s = CtWait -> err <= 0 -> turn i r p s r p (set_sd_pc (CtGot err) s)
| turn_result err ret again :
    sd_pc s = CtGot err -> send_result err s = (ret, again) ->
    turn i r p s (g2h_release_space max_len r) p (set_sd_pc (CtUnlink ret again) s)
| turn_unlink ret again :
    sd_pc s = CtUnlink ret again ->
    turn i r p s r (filter (fun j => j <> i) p) (set_sd_pc (if again then CtTry else CtReturned ret) s).

Definition calls c : intel_guc_ct_buffer * list nat * list sender := (ct_recv_ctb c, ct_pending c, ct_senders c).

Definition turned (i : nat) (s : sender) c (c' : ct W) : Prop :=
  exists r p s', turn i (ct_recv_ctb c) (ct_pending c) s r p s' /\ calls c' = (r, p, <[i := s']> (ct_senders c)).

Lemma wp_goto i f s (Q : unit -> ct W -> Prop) c :
  ct_senders c !! i = Some s ->
  (forall c', calls c' = (ct_recv_ctb c, ct_pending c, <[i := f s]> (ct_senders c)) -> Q tt c') ->
  wp (upd_sender i f) Q c.
Proof.
  intros Hs HQ. unfold upd_sender. apply wp_modify, HQ. unfold calls. ct_simpl. f_equal.
  apply list_eq. intros j. destruct (decide (i = j)) as [<-|Hne].
  - rewrite list_lookup_alter_eq, list_lookup_insert_eq, Hs by (by eapply lookup_lt_Some). done.
  - by rewrite list_lookup_alter_ne, list_lookup_insert_ne.
Qed.

Lemma turned_pc i s c c' pc :
  calls c' = (ct_recv_ctb c, ct_pending c, <[i := set_sd_pc pc s]> (ct_senders c)) ->
  turn i (ct_recv_ctb c) (ct_pending c) s (ct_recv_ctb c) (ct_pending c) (set_sd_pc pc s) -> turned i s c c'.
Proof. intros Hc Ht. by eexists _, _, _. Qed.

Lemma ct_write_result action fence flags b :
  fst (ct_write action fence flags b) = 0 \/ fst (ct_write action fence flags b) = - EPIPE.
Proof. unfold ct_write. destruct (negb _); [by right|left]. by destruct (put_words _ _ _ _). Qed.

Lemma turned_send i s c c' fence pc :
  sd_pc s = CtTry -> g2h_has_room max_len (ct_recv_ctb c) = true -> pc = CtWait \/ pc = CtUnlink (- EPIPE) false ->
  calls c' = (g2h_reserve_space max_len (ct_recv_ctb c), ct_pending c ++ [i], <[i := set_sd_pc pc (new_request fence s)]> (ct_senders c)) ->
  turned i s c c'.
Proof. intros H1 H2 H3 Hc. eexists _, _, _. split; [by apply (turn_sent _ _ _ _ fence pc)|done]. Qed.

Lemma wp_send_request i action s c :
  ct_senders c !! i = Some s -> sd_pc s = CtTry -> g2h_has_room max_len (ct_recv_ctb c) = true ->
  wp (send_request i action) (fun _ c' => turned i s c c') c.
Proof.
  intros Hs Hpc Hroom. unfold send_request. apply wp_bind, wp_modify, wp_bind, wp_run_fence. set (fence := u16 _).
  apply wp_bind, (wp_goto i _ s); [done|]. intros c1 [= R1 P1 S1]. apply wp_bind, wp_modify, wp_bind. unfold wp at 1, on_send.
  pose proof (ct_write_result action fence 0 (ct_send_ctb (set_pending (ct_pending c1 ++ [i]) c1))) as Herr.
  destruct (ct_write _ _ _ _) as [err b]. cbn [fst snd] in *. apply wp_bind, wp_on_recv, wp_modify.
  assert (ct_senders c1 !! i = Some (new_request fence s)) as Hs1
    by (rewrite S1, list_lookup_insert_eq; [done|by eapply lookup_lt_Some]).
  destruct Herr as [-> | ->]; cbn [negb Z.eqb Z.opp EPIPE].
  - apply wp_bind, wp_modify, (wp_goto i _ (new_request fence s)); [done|]. intros c2 H2.
    apply (turned_send _ _ _ _ fence CtWait); auto. rewrite H2. ct_simpl. by rewrite R1, P1, S1, list_insert_insert_eq.
  - apply (wp_goto i _ (new_request fence s)); [done|]. intros c2 H2.
    apply (turned_send _ _ _ _ fence (CtUnlink (- EPIPE) false)); auto. rewrite H2. ct_simpl.
    by rewrite R1, P1, S1, list_insert_insert_eq.
Qed.

Lemma wp_send_try i action s c :
  ct_senders c !! i = Some s -> sd_pc s = CtTry -> wp (send_try i action) (fun _ c' => turned i s c c') c.
Proof.
  intros Hs Hpc. unfold send_try. apply wp_bind, (keeps_wp calls); [by apply keeps_send|]. intros h2g c1 [= R1 P1 S1].
  assert (forall g2h, (g2h = true -> g2h_has_room max_len (ct_recv_ctb c) = true) -> wp
    (if negb g2h then note_stall ≫= fun _ => goto i CtStalled else send_request i action) (fun _ c' => turned i s c c') c1) as Hrest.
  { intros g2h Hroom. apply wp_if; intros Hg.
    - apply wp_bind, wp_modify, (wp_goto i _ s); [ct_simpl; congruence|]. intros c2 H2.
      apply (turned_pc _ _ _ _ CtStalled); [|by apply turn_stall]. rewrite H2. ct_simpl. by rewrite R1, P1, S1.
    - eapply wp_mono; [apply (wp_send_request i action s c1); [congruence|done|]|].
      + rewrite R1. apply Hroom. by destruct g2h.
      + intros u c2 Ht. cbv beta in Ht. unfold turned in *. by rewrite R1, P1, S1 in Ht. }
  apply wp_bind. destruct h2g; [|by apply wp_ret, Hrest]. apply wp_gets, Hrest. by rewrite R1.
Qed.

(** Each step of a call is a turn of it. *)
Lemma step_turned i expired signal s c :
  ct_senders c !! i = Some s -> turned i s c (ct_next c (DoStep i expired signal)).
Proof.
  intros Hs. change (wp (send_step i expired signal) (fun _ => turned i s c) c). unfold send_step.
  apply wp_bind, wp_gets. rewrite Hs.
  assert (turned i s c c) as Hsame by (eexists _, _, _; split; [constructor|]; by rewrite list_insert_id).
  assert (forall pc, turn i (ct_recv_ctb c) (ct_pending c) s (ct_recv_ctb c) (ct_pending c) (set_sd_pc pc s) ->
    wp (goto i pc) (fun _ => turned i s c) c) as Hgoto.
  { intros pc Ht. apply (wp_goto i _ s); [done|]. intros c' Hc'. by apply (turned_pc _ _ _ _ pc). }
  destruct (sd_pc s) as [| | |err|ret again|ret] eqn:Hpc.
  - by apply wp_send_try.
  - apply wp_bind, (keeps_wp calls); [by apply keeps_deadlocked|]. intros dead c1 [= R1 P1 S1].
    apply (wp_goto i _ s); [congruence|]. intros c2 H2. rewrite R1, P1, S1 in H2. eapply turned_pc; [exact H2|].
    apply turn_again; [done|]. destruct dead; [by left|]. destruct signal; [by right; left|by right; right].
  - apply wp_bind, wp_gets, wp_if; intros _; [by apply Hgoto, turn_got|]. apply wp_if; intros _; [by apply Hgoto, turn_got|].
    apply wp_if; intros _; [by apply Hgoto, turn_got|by apply wp_ret].
  - destruct (send_result err s) as [ret again] eqn:Hres. apply wp_bind, wp_on_recv, wp_modify, (wp_goto i _ s); [done|].
    intros c' Hc'. eexists _, _, _. split; [by apply (turn_result _ _ _ _ err ret again)|done].
  - apply wp_bind, wp_modify, (wp_goto i _ s); [done|]. intros c' Hc'. eexists _, _, _. split; [by apply turn_unlink|done].
  - by apply wp_ret.
Qed.
Lemma step_missing i expired signal c : ct_senders c !! i = None -> ct_next c (DoStep i expired signal) = c.
Proof. intros Hs. unfold ct_next. cbn [ct_do]. unfold send_step, mbind, st_bind, gets. by rewrite Hs. Qed.

Lemma held_ge l i s : l !! i = Some s -> hold s <= held l.
Proof.
  intros Hs. unfold held. rewrite <- (take_drop_middle _ _ _ Hs), fmap_app, fmap_cons, sumZ_app.
  pose proof (held_nonneg (take i l)) as H1. pose proof (held_nonneg (drop (S i) l)) as H2. unfold held in *. cbn [sumZ foldr].
  unfold sumZ in *. lia.
Qed.

Lemma step_credits i expired signal c : 0 <= space c -> credits c <= 2 ^ 30 ->
  credits_ok (DoStep i expired signal) c (ct_next c (DoStep i expired signal)).
Proof.
  intros Hsp Hmax. unfold credits_ok. cbn [owed_by]. destruct (ct_senders c !! i) as [s|] eqn:Hs.
  2: { rewrite step_missing by done. lia. }
  destruct (step_turned i expired signal s c Hs) as (r & p & s' & Ht & [= R1 P1 S1]).
  unfold credits, space in *. rewrite R1, S1, list_lookup_insert_eq, (held_insert _ _ s) by (done || by eapply lookup_lt_Some).
  pose proof (held_nonneg (ct_senders c)) as Hh. pose proof (held_ge _ _ _ Hs) as Hge. unfold hold in *. rewrite max_len_eq in *.
  destruct Ht as [|Hpc|fence pc Hpc Hroom Hpc'|pc Hpc Hpc'|err Hpc|err ret again Hpc|ret again Hpc];
    try rewrite Hpc in *; cbn [sd_pc set_sd_pc new_request]; unfold g2h_reserve_space, g2h_release_space; ct_simpl; rewrite ?max_len_eq.
  - destruct (sd_pc s); lia.
  - lia.
  - apply g2h_room_space in Hroom; [|done|lia]. rewrite max_len_eq in Hroom. destruct Hpc' as [-> | ->]; rewrite s32_small; lia.
  - destruct Hpc' as [-> | [-> | ->]]; lia.
  - lia.
  - rewrite s32_small; lia.
  - destruct again; lia.
Qed.

Lemma keeps_account o c : (match o with DoWorker | DoDisable | DoSanitize | GucWrites _ _ _ _ _ | TimeIs _ => True | _ => False end) ->
  credits_ok o c (ct_next c o) <-> 0 <= space c.
Proof.
  intros Ho. enough (space (ct_next c o) = space c /\ ct_senders (ct_next c o) = ct_senders c) as [H1 H2].
  { unfold credits_ok, credits. rewrite H1, H2. destruct o; try done; cbn [owed_by handling]; lia. }
  enough (keeps (fun c => (space c, ct_senders c)) (ct_do o)) as Hk by (specialize (Hk c); unfold ct_next; split; congruence).
  destruct o; try done; cbn [ct_do]; unfold worker_step, ct_process_incoming_requests, ct_process_request, ct_free_msg,
    intel_guc_ct_disable, intel_guc_ct_sanitize, ct_control_enable, guc_action_control_ctb; repeat keep_step.
Qed.

Lemma op_credits o c : o <> DoEnable -> 0 <= space c -> credits c <= 2 ^ 30 -> credits c - owed_by o c <= 2 ^ 30 ->
  credits_ok o c (ct_next c o).
Proof.
  intros Ho H1 H2 H3. destruct o; try (apply keeps_account; [exact I|done]); [by apply send_credits|by apply step_credits|..|done].
  - apply reading_credits; auto.
  - apply reading_credits; auto.
  - by apply handling_credits.
Qed.

(** *** Enabling *)

Definition geometry c : Z * Z := (ctb_size (ct_recv_ctb c), ctb_resv_space (ct_recv_ctb c)).

Lemma keeps_geometry_recv {A} (m : st intel_guc_ct_buffer A) :
  (forall b, ctb_size (snd (m b)) = ctb_size b /\ ctb_resv_space (snd (m b)) = ctb_resv_space b) -> keeps geometry (on_recv m).
Proof.
  intros Hm c. unfold geometry, on_recv. specialize (Hm (ct_recv_ctb c)). destruct (m _) as [a b]. cbn in *. by destruct Hm as [-> ->].
Qed.
Lemma geometry_read ok b : ctb_size (snd (ct_read ok b)) = ctb_size b /\ ctb_resv_space (snd (ct_read ok b)) = ctb_resv_space b.
Proof. unfold ct_read, ct_corrupted. repeat case_match; done. Qed.

Lemma keeps_geometry o : keeps geometry (ct_do o).
Proof.
  assert (forall f : intel_guc_ct_buffer -> intel_guc_ct_buffer,
    (forall b, ctb_size (f b) = ctb_size b /\ ctb_resv_space (f b) = ctb_resv_space b) -> keeps geometry (on_recv (modify f))) as Hm
    by (intros f Hf; apply keeps_geometry_recv; exact Hf).
  assert (keeps geometry ct_receive) as Hrecv.
  { unfold ct_receive, receive_more. apply keeps_then; [by intros ?|]. intros ok.
    apply keeps_then; [apply keeps_geometry_recv, geometry_read|]. intros [ret msg]. repeat keep_step. }
  assert (keeps geometry ct_try_receive_message) as Htry by (unfold ct_try_receive_message; repeat (apply Hrecv || keep_step)).
  destruct o; cbn [ct_do];
    repeat first [apply Htry | apply Hm; done | keep_step | progress unfold intel_guc_ct_send, ct_send_nb, has_room_nb, note_stall,
      ct_deadlocked, ct_get_next_fence, intel_guc_notify, send_step, send_try, send_request, goto, upd_sender,
      intel_guc_ct_event_handler, ct_receive_tasklet_func, ct_received, receive_more, ct_handle_msg, ct_handle_hxg, ct_handle_event,
      ct_handle_response, ct_process_request, ct_free_msg, worker_step, ct_process_incoming_requests, intel_guc_ct_enable,
      ct_register_buffer, ct_control_enable, guc_action_control_ctb, intel_guc_ct_disable, intel_guc_ct_sanitize].
Qed.
Lemma keeps_run_geometry ops c : geometry (ct_run ops c) = geometry c.
Proof.
  induction ops as [|o ops IH] using rev_ind; [done|]. rewrite ct_run_snoc, <- IH. apply keeps_geometry.
Qed.

Lemma enable_fills c : geometry c = (4096, 1024) -> space (ct_next c DoEnable) = 4095 - 1024.
Proof.
  intros Hg. unfold geometry in Hg. injection Hg as Hs Hr.
  change (wp (intel_guc_ct_enable ≫= fun _ => mret tt) (fun _ c' => space c' = 4095 - 1024) c).
  assert (forall A (m : op A) c1, keeps space m -> space c1 = 4095 - 1024 -> wp m (fun _ c' => space c' = 4095 - 1024) c1) as Hk
    by (intros A m c1 Hm <-; apply Hm).
  apply wp_bind, wp_bind, wp_modify.
  assert (space (set_send (guc_ct_buffer_reset (ct_send_ctb c)) (set_recv (guc_ct_buffer_reset (ct_recv_ctb c)) c)) = 4095 - 1024) as H0.
  { unfold space. ct_simpl. cbn [guc_ct_buffer_reset ctb_space]. rewrite Hs, Hr. by vm_compute. }
  revert H0. generalize (set_send (guc_ct_buffer_reset (ct_send_ctb c)) (set_recv (guc_ct_buffer_reset (ct_recv_ctb c)) c)).
  intros c1 H1. eapply wp_mono; [apply Hk; [|exact H1]|by intros a c2 H2].
  unfold ct_register_buffer, ct_control_enable, guc_action_control_ctb. repeat keep_step.
Qed.

(** C23: the credits add up. At every moment of every run, from an enabling of the transport with
    no call waiting, the free credits, the 256 that each waiting call holds and those that are
    owed, to GuC's answers or to messages that could not be written (less what GuC gave back
    without having announced it), make up the 3071 dwords that there are and 256 more for each
    call that was already waiting when the transport was last enabled again, which fills the
    counter whoever holds what ([enable_forgets_waiters]). The counter is never below zero, and a
    call gets its own credits back exactly once, whether it was answered, timed out or was
    cancelled. The bounds only keep the 32-bit counter from wrapping: fewer than a million calls
    wait at once, and GuC has not given back half a billion dwords that it did not announce. *)
Theorem credits_add_up ops c :
  geometry c = (4096, 1024) -> space c = 4095 - 1024 -> held (ct_senders c) = 0 ->
  (forall n, - 2 ^ 29 <= owed (take n ops) c /\ held (ct_senders (ct_run (take n ops) c)) < 2 ^ 20) ->
  space (ct_run ops c) + max_len * held (ct_senders (ct_run ops c)) + owed ops c = 4095 - 1024 + stray ops c /\
  0 <= space (ct_run ops c).
Proof.
  intros Hgeo Hsp Hheld Howed.
  enough (space (ct_run ops c) + max_len * held (ct_senders (ct_run ops c)) + owed ops c = 4095 - 1024 + stray ops c /\
    0 <= space (ct_run ops c) /\ stray ops c <= 2 ^ 28) as (? & ? & _) by done.
  induction ops as [|o ops IH] using rev_ind.
  { unfold owed, stray. cbn [ct_run foldl books snd fst]. rewrite max_len_eq. split_and!; [lia|lia|done]. }
  assert (forall n, - 2 ^ 29 <= owed (take n ops) c /\ held (ct_senders (ct_run (take n ops) c)) < 2 ^ 20) as Hpre.
  { intros n. specialize (Howed (n `min` length ops)%nat). rewrite take_app_le in Howed by lia.
    by rewrite <- (take_take ops n (length ops)), firstn_all in Howed. }
  specialize (IH Hpre) as (H1 & H2 & H3). specialize (Howed (length (ops ++ [o]))). rewrite firstn_all in Howed.
  specialize (Hpre (length ops)). rewrite firstn_all in Hpre. destruct Howed as [Ho Hw], Hpre as [Hp _].
  rewrite ct_run_snoc in *. unfold owed, stray in *. rewrite books_snoc in *. pose proof (books_run ops c) as Hrun.
  destruct (books ops c) as [c1 [ow st]]. cbn [fst snd] in *. subst c1.
  pose proof (held_nonneg (ct_senders (ct_next (ct_run ops c) o))) as Hh.
  assert (o = DoEnable \/ o <> DoEnable) as [->|Hne] by (destruct o; ((by left) || by right)).
  - cbn [book snd fst] in *. rewrite enable_fills by (by rewrite keeps_run_geometry). rewrite max_len_eq in *.
    change (2 ^ 20) with 1048576 in Hw. change (2 ^ 28) with 268435456. lia.
  - assert (book (ct_run ops c, (ow, st)) o = (ct_next (ct_run ops c) o, (ow + owed_by o (ct_run ops c), st))) as Hb
      by (by destruct o). rewrite Hb in *. cbn [fst snd] in *. change (2 ^ 28) with 268435456 in *. change (2 ^ 29) with 536870912 in *.
    destruct (op_credits o (ct_run ops c)) as [H4 H5]; unfold credits in *; try done;
      change (2 ^ 30) with 1073741824; lia.
Qed.
End runs.

(** ** Witnesses *)

#[local] Existing Instance sample_mailbox.
#[local] Existing Instance sample_client.

(** A message as GuC writes it. *)
Definition guc_msg (fence type action : Z) (data : list Z) : list Z :=
  Z.lor (FIELD_PREP GUC_CTB_MSG_0_NUM_DWORDS (Z.of_nat (S (length data)))) (FIELD_PREP GUC_CTB_MSG_0_FENCE fence) ::
  Z.lor (Z.lor (FIELD_PREP GUC_HXG_MSG_0_ORIGIN GUC_HXG_ORIGIN_GUC) (FIELD_PREP GUC_HXG_MSG_0_TYPE type))
        (FIELD_PREP GUC_HXG_EVENT_MSG_0_ACTION action) :: data.

Definition guc_sends (ws : list Z) : ct_op := GucWrites 0 0 (Z.of_nat (length ws)) 0 (ws ++ replicate (4096 - length ws) 0).

(** A message without a response that announces two dwords of answer; its answer; a call that waits and is answered. *)
Definition sample_run : list ct_op := [
  DoSend [0x1000; 1] None 0x80000002; DoSend [0x3000; 7] (Some 2%nat) 0; DoStep 0 false false;
  guc_sends (guc_msg 0 GUC_HXG_TYPE_EVENT INTEL_GUC_ACTION_SCHED_CONTEXT_MODE_DONE [1; 2] ++
             guc_msg 2 GUC_HXG_TYPE_RESPONSE_SUCCESS 0 [0xa; 0xb]);
  DoIrq; DoHandle 0; DoTasklet; DoHandle 0; DoStep 0 false false; DoWorker; DoStep 0 false false; DoWorker; DoStep 0 false false].

Lemma messages_kept_witness : ct_tidy (ct_run sample_run sample_enabled).
Proof. apply (messages_kept sample_run sample_enabled). by vm_compute. Defined.

Lemma credits_add_up_witness :
  space (ct_run sample_run sample_enabled) = 4095 - 1024 /\
  let ops := [DoSend [0x3000; 7] None 0; DoStep 0 false false; DoDisable; DoEnable; DoStep 0 true false; DoStep 0 false false] in
  space (ct_run ops sample_enabled) = 4095 - 1024 + stray ops sample_enabled.
Proof.
  split.
  - assert (forall n, - 2 ^ 29 <= owed (take n sample_run) sample_enabled /\
      held (ct_senders (ct_run (take n sample_run) sample_enabled)) < 2 ^ 20) as Howed.
    { intros n. do 13 (destruct n as [|n]; [by vm_compute|]). rewrite firstn_all2 by (cbn; lia). by vm_compute. }
    destruct (credits_add_up sample_run sample_enabled) as [H _]; [by vm_compute|by vm_compute|by vm_compute|exact Howed|].
    assert (held (ct_senders (ct_run sample_run sample_enabled)) = 0) as Hh by (by vm_compute).
    assert (owed sample_run sample_enabled = 0) as Ho by (by vm_compute).
    assert (stray sample_run sample_enabled = 0) as Hs by (by vm_compute).
    rewrite Hh, Ho, Hs in H. lia.
  - intros ops. assert (forall n, - 2 ^ 29 <= owed (take n ops) sample_enabled /\
      held (ct_senders (ct_run (take n ops) sample_enabled)) < 2 ^ 20) as Howed.
    { intros n. do 6 (destruct n as [|n]; [by vm_compute|]). rewrite firstn_all2 by (cbn; lia). by vm_compute. }
    destruct (credits_add_up ops sample_enabled) as [H _]; [by vm_compute|by vm_compute|by vm_compute|exact Howed|].
    assert (held (ct_senders (ct_run ops sample_enabled)) = 0) as Hh by (by vm_compute).
    assert (owed ops sample_enabled = 0) as Ho by (by vm_compute).
    rewrite Hh, Ho in H. lia.
Defined.

(** A call that still waits when the transport is turned off and on again gives its credits
    back to a counter that no longer counts them. *)
Example enable_forgets_waiters :
  space (ct_run [DoSend [0x3000; 7] None 0; DoStep 0 false false; DoDisable; DoEnable; DoStep 0 true false; DoStep 0 false false]
           sample_enabled) = (4095 - 1024) + max_len.
Proof. by vm_compute. Qed.
