(* ===== verification/CtAnswers.v ===== *)
(** * Answers and events of the command transport

    What reaches its destination in the runs of CtRuns.v: a call that waits returns only what GuC
    has answered to it, events are handled once each, in the order in which GuC sent them unless
    one reader overtakes another, and a burst of events is delivered after a single interrupt. *)

From S2P Require Export CtRuns.

Section answers.
Context {W : Type} `{M : GucMailbox W} `{C : CtClient W}.
Implicit Types c : ct W.
#[local] Abbreviation op A := (st (ct W) A).

(** ** The answers *)

(** What an operation makes of call [i]: [o] at [c] leaves it as [s']. *)
Inductive sender_next (o : ct_op) c (i : nat) (s' : sender) : Prop :=
| next_same : ct_senders c !! i = Some s' -> sender_next o c i s'
| next_new action room : s' = new_sender action room -> sender_next o c i s'
| next_turn s r p : ct_senders c !! i = Some s -> turn i (ct_recv_ctb c) (ct_pending c) s r p s' -> sender_next o c i s'
| next_answer s msg :
    ct_senders c !! i = Some s -> i ∈ ct_pending c -> handling o c = Some msg -> is_response msg = true ->
    msg_fence msg = sd_fence s -> s' = answer msg s -> sender_next o c i s'.

Lemma find_request_Some f c i : find_request f c = Some i -> i ∈ ct_pending c /\ sd_fence <$> ct_senders c !! i = Some f.
Proof.
  unfold find_request. intros ([j k] & Hf & ->)%fmap_Some. apply list_find_Some in Hf as (Hj & Hf & _).
  split; [by eapply list_elem_of_lookup_2|done].
Qed.

Lemma insert_next (l : list sender) i j s s' : <[j := s]> l !! i = Some s' -> l !! i = Some s' \/ (i = j /\ s' = s).
Proof. intros H. apply list_lookup_insert_Some in H as [(-> & <- & _)|[_ H]]; auto. Qed.

Lemma reading_sender o c i s' : o = DoIrq \/ o = DoTasklet -> ct_senders (ct_next c o) !! i = Some s' -> sender_next o c i s'.
Proof. intros Ho. apply wp_reading; [done|intros; by apply next_same|intros; by apply next_same]. Qed.
Lemma handling_sender k c i s' : ct_senders (ct_next c (DoHandle k)) !! i = Some s' -> sender_next (DoHandle k) c i s'.
Proof.
  apply wp_handling; [intros; by apply next_same|]. intros msg ret Hr _.
  assert (forall c', ct_senders (release msg c') = ct_senders c') as Hrel by (intros c'; unfold release; by destruct (releases_space _)).
  apply wp_ct_handle_msg.
  - intros _ t' Hi. by apply next_same.
  - intros Hresp j s Hf Hs t' Hi. apply find_request_Some in Hf as [Hj Hf]. rewrite Hs in Hf. injection Hf as Hf.
    apply insert_next in Hi as [Hi|[-> ->]]; [by apply next_same|]. by apply (next_answer _ _ _ _ s msg).
  - intros _ _ w t' Hi. apply next_same. unfold freed in Hi. cbn [ct_senders set_tasklet set_live set_world] in Hi. by rewrite Hrel in Hi.
  - intros _ _ t' Hi. apply next_same. cbn [ct_senders set_tasklet set_queued set_incoming] in Hi. by rewrite Hrel in Hi.
Qed.

Lemma keeps_senders o : (match o with DoStep _ _ _ | DoSend _ _ _ | DoIrq | DoTasklet | DoHandle _ => False | _ => True end) ->
  keeps ct_senders (ct_do o).
Proof.
  destruct o; try done; intros _; cbn [ct_do]; unfold worker_step, ct_process_incoming_requests, ct_process_request, ct_free_msg,
    intel_guc_ct_disable, intel_guc_ct_sanitize, intel_guc_ct_enable, ct_register_buffer, ct_control_enable, guc_action_control_ctb;
    repeat keep_step.
Qed.

Lemma send_senders action room flags c :
  ct_senders (ct_next c (DoSend action room flags)) = ct_senders c \/
  ct_senders (ct_next c (DoSend action room flags)) = ct_senders c ++ [new_sender action room].
Proof.
  change (wp (ct_do (DoSend action room flags)) (fun _ c' => ct_senders c' = ct_senders c \/
    ct_senders c' = ct_senders c ++ [new_sender action room]) c). cbn [ct_do]. apply wp_bind. unfold intel_guc_ct_send.
  apply wp_bind, wp_gets, wp_if; intros _; [apply wp_ret, wp_ret; by left|].
  apply wp_bind, wp_gets, wp_if; intros _; [apply wp_ret, wp_ret; by left|].
  apply wp_if; intros _; [|apply wp_bind, wp_modify, wp_ret, wp_ret; by right].
  apply (keeps_wp ct_senders); [|intros r c' Hc; apply wp_ret; by left].
  unfold ct_send_nb, has_room_nb, note_stall, ct_deadlocked, ct_get_next_fence, intel_guc_notify. repeat keep_step.
Qed.

Lemma senders_next o c i s' : ct_senders (ct_next c o) !! i = Some s' -> sender_next o c i s'.
Proof.
  intros Hi. destruct o as [action room flags|j expired signal| | |k| | | | | |];
    try (apply next_same; rewrite <- Hi; symmetry; f_equal; by apply keeps_senders).
  - destruct (send_senders action room flags c) as [He|He]; rewrite He in Hi; [by apply next_same|].
    apply lookup_app_Some in Hi as [Hi|[_ Hi]]; [by apply next_same|]. apply list_lookup_singleton_Some in Hi as [_ <-].
    by apply (next_new _ _ _ _ action room).
  - destruct (ct_senders c !! j) as [s|] eqn:Hs; [|rewrite step_missing in Hi by done; by apply next_same].
    destruct (step_turned j expired signal s c Hs) as (r & p & s2 & Ht & [= R1 P1 S1]). rewrite S1 in Hi.
    apply insert_next in Hi as [Hi|[-> ->]]; [by apply next_same|]. by apply (next_turn _ _ _ _ s r p).
  - apply reading_sender; auto.
  - apply reading_sender; auto.
  - by apply handling_sender.
Qed.

(** A reader read [msg] from GuC's buffer in the run. *)
Definition was_read (ops : list ct_op) (c0 : ct W) (msg : list Z) : Prop :=
  exists ops1 o ops2, ops = ops1 ++ o :: ops2 /\ reading o (ct_run ops1 c0) = Some msg.

Lemma keeps_hands o : (match o with DoIrq | DoTasklet | DoHandle _ | DoWorker => False | _ => True end) -> keeps ct_hands (ct_do o).
Proof. intros Ho c. pose proof (keeps_inbox o Ho c) as Hk. unfold inbox in Hk. congruence. Qed.
Lemma handled_hands k c : ct_hands (ct_next c (DoHandle k)) = delete k (ct_hands c).
Proof.
  apply wp_handling.
  - cbn [handling]. intros Hk. destruct (ct_hands c !! k) eqn:He; [done|]. apply lookup_ge_None in He. rewrite delete_take_drop, take_ge, drop_ge by lia. by rewrite app_nil_r.
  - intros msg ret _ _. set (c1 := set_hands _ c). pose proof (release_inbox msg c1) as [= _ _ R3 _ _]. by apply wp_ct_handle_msg; intros; cbn; rewrite ?R3.
Qed.
Lemma worker_hands c : ct_hands (ct_next c DoWorker) = ct_hands c.
Proof.
  assert (keeps ct_hands (ct_do DoWorker)) as Hk; [|apply Hk]. cbn [ct_do].
  unfold worker_step, ct_process_incoming_requests, ct_process_request, ct_free_msg. repeat keep_step.
Qed.
Lemma read_hands o c : o = DoIrq \/ o = DoTasklet ->
  match reading o c with
  | Some msg => exists ret, ct_hands (ct_next c o) = ct_hands c ++ [(msg, ret)]
  | None => ct_hands (ct_next c o) = ct_hands c
  end.
Proof. intros Ho. apply wp_reading; [done|by intros ->|]. intros msg -> b t ret _. by exists ret. Qed.

(** What a reader holds has been read. *)
Lemma hands_read ops c0 x : ct_hands c0 = [] -> x ∈ ct_hands (ct_run ops c0) -> was_read ops c0 x.1.
Proof.
  intros H0. revert x. induction ops as [|o ops IH] using rev_ind; intros x Hx; [cbn in Hx; rewrite H0 in Hx; by apply not_elem_of_nil in Hx|].
  assert (x ∈ ct_hands (ct_run ops c0) -> was_read (ops ++ [o]) c0 x.1) as Hold.
  { intros Hx'. destruct (IH x Hx') as (ops1 & o' & ops2 & -> & Hr). exists ops1, o', (ops2 ++ [o]). by rewrite <- app_assoc. }
  rewrite ct_run_snoc in Hx. destruct o as [| | | |k| | | | | |];
    try (apply Hold; erewrite <- keeps_hands; [exact Hx|exact I]); [..|by apply Hold; rewrite worker_hands in Hx].
  1-2: (match type of Hx with context [ct_next _ ?o] => pose proof (read_hands o (ct_run ops c0) ltac:(auto)) as Hr;
      destruct (reading o (ct_run ops c0)) as [msg|] eqn:Hread; [destruct Hr as [ret Hr]|]; rewrite Hr in Hx; [|by apply Hold];
      apply elem_of_app in Hx as [Hx | ->%list_elem_of_singleton]; [by apply Hold|]; exists ops, o, []; done end).
  apply Hold. rewrite handled_hands in Hx. by apply list_elem_of_delete_inv in Hx.
Qed.
(** [msg] is a response that was read in the run and handled at a moment when call [i] was listed
    with the fence that the response has. *)
Definition heard (i : nat) (ops : list ct_op) (c0 : ct W) (fence : Z) (msg : list Z) : Prop :=
  exists ops1 o ops2 s1, ops = ops1 ++ o :: ops2 /\ was_read ops1 c0 msg /\ handling o (ct_run ops1 c0) = Some msg /\
    is_response msg = true /\ msg_fence msg = fence /\ i ∈ ct_pending (ct_run ops1 c0) /\
    ct_senders (ct_run ops1 c0) !! i = Some s1 /\ sd_fence s1 = fence.

Lemma heard_snoc i ops o c0 fence msg : heard i ops c0 fence msg -> heard i (ops ++ [o]) c0 fence msg.
Proof.
  intros (ops1 & o' & ops2 & s1 & -> & H). exists ops1, o', (ops2 ++ [o]), s1. split; [by rewrite <- app_assoc|done].
Qed.

Lemma heard_now i ops o c0 s msg :
  ct_hands c0 = [] -> handling o (ct_run ops c0) = Some msg -> is_response msg = true -> msg_fence msg = sd_fence s ->
  i ∈ ct_pending (ct_run ops c0) -> ct_senders (ct_run ops c0) !! i = Some s -> heard i (ops ++ [o]) c0 (sd_fence s) msg.
Proof.
  intros H0 Hm. intros. exists ops, o, [], s. split_and!; try done. destruct o as [| | | |k| | | | | |]; try done. cbn [handling] in Hm.
  destruct (ct_hands (ct_run ops c0) !! k) as [x|] eqn:Hk; [|done]. injection Hm as <-. apply hands_read; [done|]. by apply list_elem_of_lookup_2 in Hk.
Qed.

(** The request of a call holds what [msg] says. *)
Definition holds_answer (msg : list Z) (s : sender) : Prop :=
  sd_status s = msg.[1%nat | 0] /\ 0 <= sd_len s <= Z.of_nat (length (msg_data msg)) /\
  forall buf, sd_buf s = Some buf -> take (Z.to_nat (sd_len s)) buf = take (Z.to_nat (sd_len s)) (msg_data msg).

(** The result [ret] is what [msg] says. *)
Definition says (msg : list Z) (s : sender) (ret : Z) : Prop :=
  msg_type msg = GUC_HXG_TYPE_RESPONSE_SUCCESS /\
  match sd_buf s with
  | Some _ => ret <= Z.of_nat (length (msg_data msg))
  | None => ret = FIELD_GET GUC_HXG_RESPONSE_MSG_0_DATA0 (msg.[1%nat | 0])
  end.

Definition in_room (s : sender) : Prop :=
  0 <= sd_len s <= Z.of_nat (sd_room s) /\ length (default [] (sd_buf s)) = sd_room s.

Record sender_ok (i : nat) (ops : list ct_op) (c0 : ct W) (s : sender) : Prop := {
  ok_room : in_room s;
  ok_status : sd_status s <> 0 -> exists msg, heard i ops c0 (sd_fence s) msg /\ holds_answer msg s;
  ok_got err : sd_pc s = CtGot err -> err <= 0;
  ok_result ret : sd_pc s = CtUnlink ret false \/ sd_pc s = CtReturned ret -> 0 <= ret ->
    sd_status s <> 0 /\ exists msg, heard i ops c0 (sd_fence s) msg /\ says msg s ret;
}.

Lemma sender_ok_snoc i ops o c0 s : sender_ok i ops c0 s -> sender_ok i (ops ++ [o]) c0 s.
Proof.
  intros [H1 H2 Hg H3]. constructor; [done| |done|].
  - intros Hs. destruct (H2 Hs) as (msg & Hm & Hh). exists msg. split; [by apply heard_snoc|done].
  - intros ret Hpc Hr. destruct (H3 ret Hpc Hr) as (Hs & msg & Hm & Hh). split; [done|]. exists msg. split; [by apply heard_snoc|done].
Qed.

Lemma length_answer_data msg s : in_room s ->
  (length (take (Z.to_nat (sd_len s)) (msg_data msg)) <= sd_room s)%nat /\
  (length (take (Z.to_nat (sd_len s)) (msg_data msg)) <= length (msg_data msg))%nat.
Proof. intros [H1 _]. rewrite length_take. lia. Qed.

Lemma answer_in_room msg s : in_room s -> in_room (answer msg s).
Proof.
  intros Hr. pose proof (length_answer_data msg s Hr) as [H1 _]. destruct Hr as [Hl Hb]. unfold answer, in_room. cbn.
  set (data := take _ _) in *. clearbody data. split; [lia|]. destruct (sd_buf s) as [buf|]; cbn in *; [|done].
  rewrite length_app, length_drop. lia.
Qed.

Lemma answer_holds msg s : in_room s -> holds_answer msg (answer msg s).
Proof.
  intros Hr. pose proof (length_answer_data msg s Hr) as [_ H2]. unfold answer, holds_answer. cbn. split; [done|].
  rewrite length_take in *. split; [lia|]. intros buf'. rewrite Nat2Z.id. destruct (sd_buf s) as [buf|]; [|done].
  cbn. intros [= <-]. rewrite take_app_length' by (rewrite length_take; lia). by rewrite <- take_take, firstn_all.
Qed.
Lemma result_ok i ops c0 s err ret :
  sender_ok i ops c0 s -> err <= 0 -> send_result err s = (ret, false) -> 0 <= ret ->
  sd_status s <> 0 /\ exists msg, heard i ops c0 (sd_fence s) msg /\ says msg s ret.
Proof.
  intros [H1 H2 _ _] He Hres Hr. unfold send_result in Hres.
  destruct (Z.eqb_spec err 0) as [->|Herr]; cbn [negb] in Hres; [|simplify_eq; lia].
  destruct (FIELD_GET GUC_HXG_MSG_0_TYPE (sd_status s) =? GUC_HXG_TYPE_NO_RESPONSE_RETRY); [done|].
  destruct (Z.eqb_spec (FIELD_GET GUC_HXG_MSG_0_TYPE (sd_status s)) GUC_HXG_TYPE_RESPONSE_SUCCESS) as [Ht|Ht]; cbn [negb] in Hres.
  2: { injection Hres as <-. by vm_compute in Hr. }
  assert (sd_status s <> 0) as Hs by (intros H0; rewrite H0 in Ht; by vm_compute in Ht).
  split; [done|]. destruct (H2 Hs) as (msg & Hm & Hst & Hl & _). exists msg. split; [done|]. unfold says, msg_type.
  rewrite <- Hst. split; [done|]. destruct (sd_buf s); simplify_eq; [lia|done].
Qed.

Lemma turn_ok i ops c0 s r p r' p' s' : sender_ok i ops c0 s -> turn i r p s r' p' s' -> sender_ok i ops c0 s'.
Proof.
  intros Hs Ht. pose proof Hs as [H1 H2 Hg H3].
  destruct Ht as [|Hpc|fence pc Hpc _ Hpc'|pc Hpc Hpc'|err Hpc|err ret again Hpc Hres|ret again Hpc]; [done|..].
  - constructor; [done|done|done|by intros ret [|]].
  - constructor; cbn; [|done|by destruct Hpc' as [-> | ->]|].
    + destruct H1 as [_ Hb]. unfold in_room. cbn. split; [lia|done].
    + intros ret Hret Hr. destruct Hpc' as [-> | ->], Hret as [Hret|Hret]; try done. by injection Hret as <-.
  - constructor; [done|done|by destruct Hpc' as [-> | [-> | ->]]|].
    intros ret Hret Hr. cbn in Hret. by destruct Hpc' as [-> | [-> | ->]], Hret as [Hret|Hret]; try done; injection Hret as <-.
  - constructor; [done|done|by intros ? [= <-]|by intros ret [|]].
  - constructor; [done|done|done|]. intros ret' [[= -> ->]|Hret] Hr; [|done]. apply (result_ok i ops c0 s err); auto.
  - destruct again; constructor; try done.
    + by intros ret' [|].
    + intros ret' [Hret|[= <-]] Hr; [done|]. apply H3; auto.
Qed.

Lemma answer_ok i ops c0 s msg :
  sender_ok i ops c0 s -> heard i ops c0 (sd_fence s) msg -> is_response msg = true -> sender_ok i ops c0 (answer msg s).
Proof.
  intros [H1 H2 Hg H3] Hm Hresp. constructor.
  - by apply answer_in_room.
  - intros _. exists msg. split; [done|by apply answer_holds].
  - done.
  - intros ret Hpc Hr. destruct (H3 ret Hpc Hr) as (_ & msg' & Hm' & Hs). split.
    + change (sd_status (answer msg s)) with (msg.[1%nat | 0]). intros H0. unfold is_response, from_guc in Hresp.
      rewrite H0, andb_comm, !andb_assoc, andb_comm in Hresp. by vm_compute in Hresp.
    + exists msg'. split; [done|]. destruct Hs as [Ht Hret]. split; [done|]. cbn. by destruct (sd_buf s).
Qed.

Lemma next_ok i ops o c0 s' :
  ct_hands c0 = [] ->
  (forall s, ct_senders (ct_run ops c0) !! i = Some s -> sender_ok i ops c0 s) ->
  sender_next o (ct_run ops c0) i s' -> sender_ok i (ops ++ [o]) c0 s'.
Proof.
  intros H0 IH [Hs|action room ->|s r p Hs Ht|s msg Hs Hi Hread Hresp Hf ->].
  - apply sender_ok_snoc. auto.
  - constructor; cbn; [|done|done|by intros ret [|]]. unfold in_room. cbn. destruct room as [n|]; cbn; rewrite ?length_replicate; lia.
  - eapply turn_ok; [|done]. apply sender_ok_snoc. auto.
  - apply answer_ok; [apply sender_ok_snoc; auto| |done]. by apply heard_now.
Qed.

(** C21: nobody is answered but by GuC. In every run of the transport, whatever GuC writes,
    however the callers, the interrupt, the tasklet and the worker interleave, and
    however often the transport is turned off and on: when a call that waits has returned a
    result that is not an error, GuC has said so to this call - a response of success was read and,
    while the call was listed, handled, that carries the fence of its request; the result is the data of that
    response or, for a caller with a buffer, at most the length of its payload, and the buffer
    holds the payload of such a response. No response, however long, is written past the end
    of a caller's buffer. *)
Theorem answers_are_heard ops c0 i s :
  ct_senders c0 = [] -> ct_hands c0 = [] -> ct_senders (ct_run ops c0) !! i = Some s ->
  length (default [] (sd_buf s)) = sd_room s /\
  forall ret, sd_pc s = CtReturned ret -> 0 <= ret ->
    (exists msg, heard i ops c0 (sd_fence s) msg /\ says msg s ret) /\
    (exists msg, heard i ops c0 (sd_fence s) msg /\ holds_answer msg s).
Proof.
  intros Hnil H0 Hi. enough (sender_ok i ops c0 s) as [[_ Hb] H2 _ H3].
  { split; [done|]. intros ret Hpc Hr. destruct (H3 ret (or_intror Hpc) Hr) as [Hs Hm]. split; [done|]. by apply H2. }
  revert i s Hi. induction ops as [|o ops IH] using rev_ind; intros i s Hi; [cbn in Hi; by rewrite Hnil in Hi|].
  rewrite ct_run_snoc in Hi. apply next_ok; [done|auto|]. by apply senders_next.
Qed.
(** ** Delivery of the events *)

Definition for_worker (msg : list Z) : bool :=
  is_event msg && negb (msg_action msg =? INTEL_GUC_ACTION_TLB_INVALIDATION_DONE).

(** The event for the worker that an operation reads, those that readers hold, and the one that
    the worker hands to its handler. *)
Definition fetches (o : ct_op) c : list (list Z) :=
  match reading o c with Some msg => if for_worker msg then [msg] else [] | None => [] end.
Definition in_hands c : list (list Z) := filter (fun m => for_worker m = true) (fst <$> ct_hands c).
Definition handles (o : ct_op) c : list (list Z) :=
  match o with DoWorker => if ct_running c then take 1 (ct_incoming c) else [] | _ => [] end.

Fixpoint along (f : ct_op -> ct W -> list (list Z)) (ops : list ct_op) c : list (list Z) :=
  match ops with [] => [] | o :: ops => f o c ++ along f ops (ct_next c o) end.

(** The call of the handler. *)
Definition dispatch (msg : list Z) (w : W) : W :=
  let hxg := drop GUC_CTB_MSG_MIN_LEN msg in
  match ct_handler_of (FIELD_GET GUC_HXG_EVENT_MSG_0_ACTION (hxg.[0%nat | 0])) with
  | Some h => snd (run_handler h (handler_arg h hxg) w)
  | None => w
  end.

Lemma worker_next c msg rest : ct_running c = true -> ct_incoming c = msg :: rest ->
  let c' := ct_next c DoWorker in
  ct_incoming c' = rest /\ ct_running c' = negb (length rest =? 0)%nat /\ ct_worker c' = ct_worker c /\
  ct_world c' = dispatch msg (ct_world c).
Proof.
  intros Hr Hi. cbv zeta. change (wp worker_step (fun _ c' => ct_incoming c' = rest /\ ct_running c' = negb (length rest =? 0)%nat /\
    ct_worker c' = ct_worker c /\ ct_world c' = dispatch msg (ct_world c)) c).
  unfold worker_step. apply wp_bind, wp_gets. rewrite Hr. apply wp_bind. unfold ct_process_incoming_requests.
  apply wp_bind, wp_gets. rewrite Hi. apply wp_bind, wp_modify, wp_bind. unfold ct_process_request, dispatch. apply wp_bind.
  destruct (ct_handler_of _) as [h|].
  - apply wp_bind. unfold wp at 1, on_world. ct_simpl. destruct (run_handler _ _ _) as [ret w]. ct_simpl.
    apply wp_ret. unfold ct_free_msg. destruct (negb _); wp_steps; destruct (negb _); wp_steps; by split_and!.
  - apply wp_ret. unfold ct_free_msg. cbn [negb Z.eqb Z.opp EOPNOTSUPP]. wp_steps; by split_and!.
Qed.

Lemma worker_idle c : ct_running c && negb (bool_decide (ct_incoming c = [])) = false ->
  let c' := ct_next c DoWorker in
  ct_incoming c' = ct_incoming c /\ ct_world c' = ct_world c /\
  (ct_running c = false -> ct_worker c = true -> ct_running c' = true /\ ct_worker c' = false).
Proof.
  intros Hr. cbv zeta. unfold ct_next. cbn [ct_do]. unfold worker_step, ct_process_incoming_requests, mbind, st_bind, gets, modify.
  destruct (ct_running c); cbn [andb] in Hr.
  - apply negb_false_iff, bool_decide_eq_true in Hr. by rewrite Hr.
  - by destruct (ct_worker c).
Qed.

Lemma reading_step o c : o = DoIrq \/ o = DoTasklet ->
  ct_incoming (ct_next c o) = ct_incoming c /\ in_hands (ct_next c o) = in_hands c ++ fetches o c.
Proof.
  intros Ho. unfold fetches. apply wp_reading; [done|intros ->; by rewrite app_nil_r|]. intros msg -> b t ret _. split; [done|].
  unfold in_hands, grabbed. ct_simpl. rewrite fmap_app, filter_app. cbn. by destruct (for_worker msg).
Qed.
Lemma handling_step k c :
  ct_incoming (ct_next c (DoHandle k)) = ct_incoming c ++ match handling (DoHandle k) c with
    | Some msg => if for_worker msg then [msg] else [] | None => [] end.
Proof.
  apply wp_handling; [intros ->; by rewrite app_nil_r|]. intros msg ret -> _. set (c1 := set_hands _ c).
  pose proof (release_inbox msg c1) as [= _ R2 _ _ _]. unfold for_worker. apply wp_ct_handle_msg.
  - intros -> t'. by rewrite app_nil_r.
  - intros Hresp j s _ _ t'. by rewrite (response_no_event _ Hresp), app_nil_r.
  - intros -> Ha w t'. rewrite Ha, Z.eqb_refl, app_nil_r. cbn. by rewrite R2.
  - intros -> Ha t'. by rewrite (proj2 (Z.eqb_neq _ _)) by done.
Qed.

(** No reader overtakes another one: the message that has been held for longest is handled. *)
Definition in_turn (o : ct_op) : Prop := match o with DoHandle k => k = 0%nat | _ => True end.

Lemma queue_step o c :
  ct_incoming c ++ in_hands c ++ fetches o c ≡ₚ handles o c ++ ct_incoming (ct_next c o) ++ in_hands (ct_next c o) /\
  (in_turn o -> ct_incoming c ++ in_hands c ++ fetches o c = handles o c ++ ct_incoming (ct_next c o) ++ in_hands (ct_next c o)).
Proof.
  assert (forall l l' : list (list Z), l = l' -> l ≡ₚ l' /\ (in_turn o -> l = l')) as Heq by (by intros l l' ->).
  destruct o as [| | | |k| | | | | |]; try (apply Heq; cbn [fetches reading handles app]; rewrite app_nil_r;
    match goal with |- _ = ct_incoming (ct_next c ?o) ++ _ => pose proof (keeps_inbox o I c) as Hk end;
    unfold inbox in Hk; unfold in_hands, ct_next; congruence).
  - apply Heq. destruct (reading_step DoIrq c) as [-> ->]; auto.
  - apply Heq. destruct (reading_step DoTasklet c) as [-> ->]; auto.
  - cbn [fetches reading handles app]. rewrite app_nil_r, handling_step. unfold in_hands. rewrite handled_hands. cbn [handling].
    destruct (ct_hands c !! k) as [[msg ret]|] eqn:Hk; cbn [fmap option_fmap option_map fst].
    + assert (filter (fun m => for_worker m = true) [msg] = if for_worker msg then [msg] else []) as Hf by (cbn; by destruct (for_worker msg)).
      rewrite <- Hf, <- app_assoc, <- filter_app. split.
      * rewrite (delete_Permutation _ _ _ Hk) at 1. by rewrite fmap_cons.
      * intros ->. by destruct (ct_hands c); simplify_eq/=.
    + apply lookup_ge_None in Hk. rewrite delete_take_drop, take_ge, drop_ge, !app_nil_r by lia. done.
  - apply Heq. cbn [fetches reading handles]. rewrite app_nil_r. unfold in_hands. rewrite worker_hands. destruct (ct_running c) eqn:Hr.
    + destruct (ct_incoming c) as [|msg rest] eqn:Hi.
      * destruct (worker_idle c) as (-> & _); [by rewrite Hi, bool_decide_eq_true_2, andb_false_r|]. by rewrite Hi.
      * by destruct (worker_next c msg rest Hr Hi) as (-> & _).
    + destruct (worker_idle c) as (-> & _); [by rewrite Hr|done].
Qed.

(** C25: events are handled once each, and in the order of GuC unless a reader overtakes another. In
    every run, however reading, the worker and everything else interleave: what the worker has
    handed to the handlers, what still waits for it and what readers hold are, together, the
    events that waited or were held at the start and those that were read, except for the
    completions of TLB invalidations, which do not wait. As long as no reader that has taken a
    message from the buffer is overtaken by a later one before it queues it - which the interrupt
    can do to the tasklet, [events_overtake] -, they are also in the order in which they were read. *)
Theorem events_in_order ops c :
  ct_incoming c ++ in_hands c ++ along fetches ops c ≡ₚ along handles ops c ++ ct_incoming (ct_run ops c) ++ in_hands (ct_run ops c) /\
  (Forall in_turn ops ->
   ct_incoming c ++ in_hands c ++ along fetches ops c = along handles ops c ++ ct_incoming (ct_run ops c) ++ in_hands (ct_run ops c)).
Proof.
  revert c. induction ops as [|o ops IH]; intros c; [cbn; by rewrite app_nil_r|].
  cbn [along]. change (ct_run (o :: ops) c) with (ct_run ops (ct_next c o)).
  destruct (queue_step o c) as [Hp He], (IH (ct_next c o)) as [IHp IHe]. split.
  - trans ((ct_incoming c ++ in_hands c ++ fetches o c) ++ along fetches ops (ct_next c o)); [by rewrite <- !app_assoc|].
    by rewrite Hp, <- !app_assoc, IHp.
  - intros [Ho Hops]%Forall_cons.
    trans ((ct_incoming c ++ in_hands c ++ fetches o c) ++ along fetches ops (ct_next c o)); [by rewrite <- !app_assoc|].
    by rewrite He, <- !app_assoc, IHe by done.
Qed.

(** *** A burst of events *)

(** The driver is awake to the messages [msgs]: they are in the buffer, and nothing else is. *)
Record awake (msgs : list (list Z)) c : Prop := {
  aw_enabled : ct_enabled c = true;
  aw_recv : recv_ok (ct_recv_ctb c);
  aw_words : recv_words (ct_recv_ctb c) = concat msgs;
  aw_msgs : Forall is_msg msgs;
  aw_hands : ct_hands c = [];
}.

Lemma awake_read m msgs b : recv_ok b -> recv_words b = concat (m :: msgs) -> Forall is_msg (m :: msgs) ->
  ct_read true b = (Z.of_nat (length (concat msgs)), Some m, moved (length m) b) /\
  recv_ok (moved (length m) b) /\ recv_words (moved (length m) b) = concat msgs.
Proof.
  intros Hok Hw Hm. inversion_clear Hm as [|? ? Hmsg Hms]. destruct m as [|h m]; [done|]. cbn [is_msg] in Hmsg.
  pose proof (recv_ring _ Hok) as Hs. pose proof (ring_size_pos _ Hs) as Hpos. split_and!.
  - rewrite ct_read_run, Hw by done. cbn [concat app]. change (h :: m ++ concat msgs) with ((h :: m) ++ concat msgs).
    rewrite (proj2 (Nat.ltb_ge _ _)) by (rewrite length_app; lia). cbn [negb]. rewrite <- Hmsg, take_app_length, length_app.
    do 3 f_equal. lia.
  - destruct Hok. constructor; cbn; try done. apply Z.mod_pos_bound. lia.
  - rewrite recv_words_moved, Hw by (done || rewrite Hw; cbn [concat]; rewrite length_app; lia). cbn [concat]. by rewrite drop_app_length.
Qed.

Lemma release_recv msg c :
  (recv_ok (ct_recv_ctb c) -> recv_ok (ct_recv_ctb (release msg c))) /\
  recv_words (ct_recv_ctb (release msg c)) = recv_words (ct_recv_ctb c) /\
  release msg c = set_recv (ct_recv_ctb (release msg c)) c.
Proof. unfold release. destruct (releases_space _); [|by destruct c]. split_and!; [|done..]. intros []. by constructor. Qed.

Definition burst_read m msgs c (c' : ct W) : Prop :=
  awake msgs c' /\ ct_incoming c' = ct_incoming c ++ [m] /\ ct_worker c' = true /\ ct_running c' = ct_running c /\
  ct_world c' = ct_world c /\ (msgs <> [] -> ct_tasklet c' = true).

Lemma wp_receive_one m msgs c :
  (forall n, msg_alloc_ok n = true) -> awake (m :: msgs) c ->
  wp ct_try_receive_message (fun _ c' => exists l n, c' = set_hands [(m, Z.of_nat (length (concat msgs)))]
    (set_live l (set_ticks n (set_recv (moved (length m) (ct_recv_ctb c)) c)))) c.
Proof.
  intros Halloc [He Hok Hw Hm Hh]. destruct (awake_read m msgs _ Hok Hw Hm) as (Hread & _ & _).
  unfold ct_try_receive_message, ct_receive. apply wp_bind, wp_gets. rewrite He. cbn [negb].
  apply wp_bind, wp_gets, wp_bind. rewrite Halloc. unfold wp at 1, on_recv. rewrite Hread. ct_simpl.
  apply wp_bind, wp_modify. rewrite (proj2 (Z.ltb_ge _ _)) by lia. apply wp_modify. ct_simpl. rewrite Hh. by eexists _, _.
Qed.

Lemma wp_received_one m msgs c l n t :
  awake (m :: msgs) c -> for_worker m = true ->
  wp (ct_received 0) (fun _ => burst_read m msgs c) (set_tasklet t (set_hands [(m, Z.of_nat (length (concat msgs)))]
    (set_live l (set_ticks n (set_recv (moved (length m) (ct_recv_ctb c)) c))))).
Proof.
  intros [He Hok Hw Hm Hh] Hfor. destruct (awake_read m msgs _ Hok Hw Hm) as (_ & Hok' & Hw').
  unfold ct_received. apply wp_bind, wp_gets. ct_simpl. apply wp_bind, wp_modify, wp_bind.
  unfold for_worker in Hfor. apply andb_true_iff in Hfor as [Hev Hact]. apply negb_true_iff, Z.eqb_neq in Hact.
  apply wp_ct_handle_msg; [congruence| |congruence|].
  { intros Hr. by rewrite (response_no_event _ Hr) in Hev. }
  intros _ _. match goal with |- context [release m ?x] => destruct (release_recv m x) as (Hrok & Hrw & ->);
    set (r := ct_recv_ctb (release m x)) in *; clearbody r end.
  specialize (Hrok Hok').
  assert (forall t' h, (msgs <> [] -> t' = true) -> h = [] -> burst_read m msgs c (set_tasklet t' (set_queued true
    (set_incoming (ct_incoming c ++ [m]) (set_recv r (set_hands h (set_tasklet t (set_live l (set_ticks n (set_recv (moved (length m) (ct_recv_ctb c)) c)))))))))) as Hend.
  { intros t' h Ht ->. split_and!; try done. constructor; try done; [exact (eq_trans Hrw Hw')|by inversion Hm]. }
  unfold receive_more. rewrite Z.gtb_ltb. destruct (Z.ltb_spec 0 (Z.of_nat (length (concat msgs)))) as [Hn|Hn]; [by apply wp_modify, (Hend true [])|].
  apply wp_ret. apply (Hend t []); [|done]. intros Hne. exfalso. destruct msgs as [|m' msgs]; [done|].
  inversion_clear Hm as [|? ? _ Hms]. inversion_clear Hms as [|? ? Hm' _]. destruct m'; [done|]. cbn in Hn. lia.
Qed.

(** A reader comes, takes the first message and handles it. *)
Lemma read_one o c m msgs :
  (forall n, msg_alloc_ok n = true) -> o = DoIrq \/ (o = DoTasklet /\ ct_tasklet c = true) ->
  awake (m :: msgs) c -> for_worker m = true -> burst_read m msgs c (ct_run [o; DoHandle 0] c).
Proof.
  intros Halloc Ho Haw Hfor. change (ct_run [o; DoHandle 0] c) with (ct_next (ct_next c o) (DoHandle 0)).
  assert (exists l n t, ct_next c o = set_tasklet t (set_hands [(m, Z.of_nat (length (concat msgs)))]
    (set_live l (set_ticks n (set_recv (moved (length m) (ct_recv_ctb c)) c))))) as (l & n & t & ->).
  { change (wp (ct_do o) (fun _ c' => exists l n t, c' = set_tasklet t (set_hands [(m, Z.of_nat (length (concat msgs)))]
      (set_live l (set_ticks n (set_recv (moved (length m) (ct_recv_ctb c)) c))))) c). destruct Ho as [-> |[-> Ht]]; cbn [ct_do].
    - unfold intel_guc_ct_event_handler. apply wp_bind, wp_gets. rewrite (aw_enabled _ _ Haw).
      eapply wp_mono; [by apply (wp_receive_one m msgs)|]. intros u c' (l & n & ->). exists l, n, (ct_tasklet c). by destruct c.
    - apply wp_tasklet; [congruence|]. intros _. eapply wp_mono; [apply (wp_receive_one m msgs); [done|]|].
      + by destruct Haw.
      + intros u c' (l & n & ->). by exists l, n, false. }
  by apply (wp_received_one m msgs c l n t).
Qed.

Lemma ct_run_app ops1 ops2 c : ct_run (ops1 ++ ops2) c = ct_run ops2 (ct_run ops1 c).
Proof. apply foldl_app. Qed.

Lemma burst_queued msgs c :
  (forall n, msg_alloc_ok n = true) -> awake msgs c -> Forall (fun m => for_worker m = true) msgs ->
  (msgs <> [] -> ct_tasklet c = true) ->
  let c' := ct_run (concat (replicate (length msgs) [DoTasklet; DoHandle 0])) c in
  awake [] c' /\ ct_incoming c' = ct_incoming c ++ msgs /\ (ct_worker c = true \/ msgs <> [] -> ct_worker c' = true) /\
  ct_running c' = ct_running c /\ ct_world c' = ct_world c.
Proof.
  intros Halloc. revert c. induction msgs as [|m msgs IH]; intros c Haw Hfor Ht; cbv zeta.
  { rewrite app_nil_r. split_and!; try done. by intros [|]. }
  inversion_clear Hfor as [|? ? Hm Hms].
  destruct (read_one DoTasklet c m msgs) as (A1 & A2 & A3 & A4 & A5 & A6); [done|by right; split; [|apply Ht]|done|done|].
  change (concat (replicate (length (m :: msgs)) [DoTasklet; DoHandle 0])) with
    ([DoTasklet; DoHandle 0] ++ concat (replicate (length msgs) [DoTasklet; DoHandle 0])). rewrite ct_run_app.
  destruct (IH (ct_run [DoTasklet; DoHandle 0] c) A1 Hms A6) as (B1 & B2 & B3 & B4 & B5).
  split_and!; [done|by rewrite B2, A2, <- app_assoc|auto|by rewrite B4|by rewrite B5].
Qed.

Lemma worker_drains l c : ct_running c = true -> ct_incoming c = l -> l <> [] ->
  let c' := ct_run (replicate (length l) DoWorker) c in
  ct_incoming c' = [] /\ ct_running c' = false /\ ct_world c' = foldl (fun w m => dispatch m w) (ct_world c) l.
Proof.
  revert c. induction l as [|m l IH]; intros c Hr Hi Hne; [done|]. cbv zeta.
  change (ct_run (replicate (length (m :: l)) DoWorker) c) with (ct_run (replicate (length l) DoWorker) (ct_next c DoWorker)).
  destruct (worker_next c m l Hr Hi) as (H1 & H2 & _ & H4). destruct l as [|m' l]; [by split_and!|].
  destruct (IH (ct_next c DoWorker)) as (J1 & J2 & J3); [done..|]. split_and!; [done|done|]. by rewrite J3, H4.
Qed.

Lemma workers_recv n c : ct_recv_ctb (ct_run (replicate n DoWorker) c) = ct_recv_ctb c.
Proof.
  revert c. induction n as [|n IH]; intros c; [done|].
  change (ct_run (replicate (S n) DoWorker) c) with (ct_run (replicate n DoWorker) (ct_next c DoWorker)). rewrite IH.
  assert (keeps ct_recv_ctb (ct_do DoWorker)) as Hk; [|apply Hk]. cbn [ct_do].
  unfold worker_step, ct_process_incoming_requests, ct_process_request, ct_free_msg. repeat keep_step.
Qed.

(** C24: a burst of events is delivered. When GuC has written any number of events and raises one
    interrupt, and memory for messages can be had: the interrupt handler reads the first of them and, by way of the
    tasklet, which it schedules as long as there are more, they are all read; the worker is queued and
    hands them all, after those that waited before, to their handlers, in order, and
    goes to rest. Nothing is left in the buffer or in the list. *)
Theorem events_delivered msgs c :
  (forall n, msg_alloc_ok n = true) -> awake msgs c -> msgs <> [] -> Forall (fun m => for_worker m = true) msgs ->
  ct_running c = false ->
  let waiting := ct_incoming c ++ msgs in
  let c' := ct_run ([DoIrq; DoHandle 0] ++ concat (replicate (length msgs - 1) [DoTasklet; DoHandle 0]) ++ replicate (S (length waiting)) DoWorker) c in
  recv_words (ct_recv_ctb c') = [] /\ ct_incoming c' = [] /\ ct_running c' = false /\
  ct_world c' = foldl (fun w m => dispatch m w) (ct_world c) waiting.
Proof.
  intros Halloc Haw Hne Hfor Hrun waiting. destruct msgs as [|m msgs]; [done|]. inversion_clear Hfor as [|? ? Hm Hms]. cbv zeta.
  destruct (read_one DoIrq c m msgs) as (A1 & A2 & A3 & A4 & A5 & A6); [done|by left|done|done|].
  destruct (burst_queued msgs (ct_run [DoIrq; DoHandle 0] c) Halloc A1 Hms A6) as (B1 & B2 & B3 & B4 & B5).
  replace (length (m :: msgs) - 1)%nat with (length msgs) by (cbn; lia). rewrite !ct_run_app.
  set (c2 := ct_run (concat _) (ct_run [DoIrq; DoHandle 0] c)) in *.
  change (ct_run (replicate (S ?n) DoWorker) c2) with (ct_run (replicate n DoWorker) (ct_next c2 DoWorker)).
  assert (ct_incoming c2 = waiting) as Hi by (by rewrite B2, A2, <- app_assoc).
  assert (ct_running c2 = false) as Hr by (by rewrite B4, A4).
  destruct (worker_idle c2) as (I1 & I2 & I3); [by rewrite Hr|]. specialize (I3 Hr (B3 (or_introl A3))) as [I3 _].
  destruct (worker_drains waiting (ct_next c2 DoWorker)) as (D1 & D2 & D3); [done|by rewrite I1|by subst waiting; destruct (ct_incoming c)|].
  split_and!; [|done|done|by rewrite D3, I2, B5, A5].
  change (ct_run (replicate (length waiting) DoWorker) (ct_next c2 DoWorker)) with (ct_run (replicate (S (length waiting)) DoWorker) c2).
  rewrite workers_recv. apply (aw_words _ _ B1).
Qed.
End answers.

(** ** Witnesses *)

#[local] Existing Instance sample_mailbox.
#[local] Existing Instance sample_client.

(** The call of [sample_run] returns the two dwords of GuC's response. *)
Lemma answers_are_heard_witness :
  exists s, ct_senders (ct_run sample_run sample_enabled) !! 0%nat = Some s /\ sd_pc s = CtReturned 2 /\ sd_buf s = Some [0xa; 0xb] /\
  exists msg, heard 0 sample_run sample_enabled (sd_fence s) msg /\ says msg s 2.
Proof.
  assert (exists s, ct_senders (ct_run sample_run sample_enabled) !! 0%nat = Some s /\ sd_pc s = CtReturned 2 /\ sd_buf s = Some [0xa; 0xb])
    as (s & Hs & Hpc & Hb) by (vm_compute; eexists; split; [reflexivity|by split]).
  exists s. split; [done|]. split; [done|]. split; [done|].
  destruct (answers_are_heard sample_run sample_enabled 0 s) as [_ H]; [by vm_compute|by vm_compute|done|].
  by destruct (H 2 Hpc) as [Hm _].
Defined.

(** Two events that wait for the worker. *)
Definition sample_events : list (list Z) :=
  [guc_msg 0 GUC_HXG_TYPE_EVENT GUC_ACTION_GUC2PF_VF_STATE_NOTIFY [1; 1]; guc_msg 0 GUC_HXG_TYPE_EVENT GUC_ACTION_GUC2PF_ADVERSE_EVENT [2; 3]].
Definition sample_awake : ct (list (list Z)) := ct_next sample_enabled (guc_sends (concat sample_events)).

Lemma events_delivered_witness :
  ct_world (ct_run ([DoIrq; DoHandle 0] ++ concat (replicate 1 [DoTasklet; DoHandle 0]) ++ replicate 3 DoWorker) sample_awake) =
    foldl (fun w m => dispatch m w) [] sample_events.
Proof.
  apply (events_delivered sample_events sample_awake); [done| |done| |by vm_compute].
  - constructor; [by vm_compute| |by vm_compute|by repeat constructor|by vm_compute].
    constructor; try (by vm_compute). by exists 12.
  - by repeat constructor.
Defined.

(** Two events, read and handled in turn. *)
Lemma events_in_order_witness :
  along handles [DoIrq; DoHandle 0; DoTasklet; DoHandle 0; DoWorker; DoWorker; DoWorker] sample_awake = sample_events.
Proof.
  pose proof (proj2 (events_in_order [DoIrq; DoHandle 0; DoTasklet; DoHandle 0; DoWorker; DoWorker; DoWorker] sample_awake)) as H.
  assert (forall l, l ++ [] ++ [] = sample_events -> l = sample_events) as Hnil by (intros l; by rewrite !app_nil_r).
  apply Hnil. etransitivity; [symmetry|].
  - etransitivity; [apply H; by repeat constructor|]. by vm_compute.
  - by vm_compute.
Defined.

(** The interrupt comes while the tasklet holds the first event, and its event is handled first. *)
Example events_overtake :
  along handles [DoTasklet; DoIrq; DoHandle 1; DoHandle 0; DoWorker; DoWorker; DoWorker] (set_tasklet true sample_awake) =
    reverse sample_events.
Proof. by vm_compute. Qed.
