(* ===== verification/Sriov.v ===== *)
(** * SR-IOV of the device

    i915_sriov.c: the detection of the mode the driver runs in, the life of the PF from its
    confirmation to enabling and disabling its VFs, the commands to a VF on all GTs, and what
    happens to the VFs when the system suspends and resumes. The operations are programs of
    Threads.v over the state of VfState.v and what this file adds to it, because the reset
    handlers and workers of VfState.v run between their steps. *)

From S2P Require Export Threads VfState Provisioning Service Migration.

(** ** ABI *)

(** GuC's control of engine scheduling (gt/uc/abi/guc_actions_abi.h, gt/uc/intel_guc_fwif.h,
    gt/uc/intel_guc_submission.h) *)
Definition GUC_ACTION_HOST2GUC_SET_ENGINE_SCHED : Z := 0x1003.
Definition HOST2GUC_SET_ENGINE_SCHED_REQUEST_MSG_1_ENGINE_CLASS : Z := GUC_HXG_EVENT_MSG_n_DATAn.
Definition HOST2GUC_SET_ENGINE_SCHED_REQUEST_MSG_2_STATE : Z := GUC_HXG_EVENT_MSG_n_DATAn.
Definition HOST2GUC_SET_ENGINE_SCHED_REQUEST_MSG_3_IMM_MODE : Z := GUC_HXG_EVENT_MSG_n_DATAn.
Definition GUC_SET_ENGINE_SCHED_STATE_DISABLE : Z := 0.
Definition GUC_SET_ENGINE_SCHED_STATE_ENABLE : Z := 1.
Definition GUC_SET_ENGINE_SCHED_IMM_MODE_DISABLE : Z := 0.
Definition GUC_SET_ENGINE_SCHED_IMM_MODE_ENABLE : Z := 1.
Definition SET_ENGINE_SCHED_FLAGS_ENABLE : Z := 1.
Definition SET_ENGINE_SCHED_FLAGS_IMMEDIATE : Z := 2.
Definition GUC_GSC_OTHER_CLASS : Z := 5.

(** Registers and BARs of a VF (gt/iov/intel_iov_reg.h, i915_reg.h, intel_pci_config.h) *)
Definition GEN12_VF : Z := 1.
Definition GEN12_VF_GTTMMADR_BAR : nat := 7.
Definition GEN12_VF_LMEM_BAR : nat := 9.
Definition GEN12_VF_REGISTERS_STRIDE : Z := 0x1000.
Definition XEHPSDV_VF_REGISTERS_STRIDE : Z := 0x400.
Definition GEN12_VF_GFX_MSTR_IRQ (vfid : nat) : Z := 0x190010 + Z.of_nat vfid * GEN12_VF_REGISTERS_STRIDE.
Definition XEHPSDV_VF_GFX_MSTR_IRQ (vfid : nat) : Z := 0x190010 + Z.of_nat vfid * XEHPSDV_VF_REGISTERS_STRIDE.
Definition GEN11_MASTER_IRQ : Z := 2 ^ 31.
Definition GEN12_VIRTUAL_CTRL_REG : Z := 0x10108C.
Definition GEN12_GUEST_GTT_UPDATE_EN : Z := 2 ^ 8.
Definition IORESOURCE_UNSET : Z := 0x20000000.
Definition I915_VF_FLR_TIMEOUT_MS : Z := 1000.
Definition I915_VF_REPROVISION_TIMEOUT_MS : Z := 1000.
Definition I915_VF_PAUSE_TIMEOUT_MS : Z := 500.

(** ** The kernel and the hardware around the driver *)

(** The results of a call depend on how many were made before it. *)
Class SriovEnv := {
  HAS_SRIOV : bool;                       (** the platform's [has_sriov] *)
  vf_cap : option Z;                      (** [GEN12_VF_CAP_REG]; [None]: it cannot be mapped *)
  dev_is_pf : bool;
  max_vfs : Z;                            (** [i915->params.max_vfs] *)
  pci_resource_flags : nat -> Z;
  pci_resource_len : nat -> Z;
  has_lmem : bool;                        (** [REGION_LMEM] in the device's memory regions *)
  set_totalvfs_result : nat -> Z;         (** [pci_sriov_set_totalvfs] *)
  gt_wedged : gt_id -> bool;              (** [intel_gt_has_unrecoverable_error] *)
  IS_METEORLAKE : bool;
  has_gsc : gt_id -> bool;                (** [HAS_ENGINE(gt, GSC0)] *)
  gsc_idle : nat -> bool;                 (** the engine becomes idle in time *)
  gsc_reset : nat -> Z;                   (** [__intel_gt_reset] of the engine *)
  pxp_result : nat -> Z;                  (** [intel_pxp_init] *)
  enable_sriov_result : nat -> Z;         (** [pci_enable_sriov] *)
  vfs_assigned : nat -> Z;                (** [pci_vfs_assigned] *)
  vf_pdev : nat -> nat -> option bool;    (** the PCI device of a VF: whether a driver other than the PF's has it *)
  link_result : nat -> Z;                 (** [sysfs_create_link] *)
  guc_v2 : gt_id -> bool;                 (** GuC is 70.25.0 or later *)
  uses_guc_submission : gt_id -> bool;    (** [intel_uc_uses_guc_submission] *)
  gt_hw_result : nat -> Z;                (** [intel_gt_resume] up to [intel_iov_init_hw] *)
  gt_engines_result : nat -> Z;           (** and behind it *)
  wait_polls : Z -> nat;                  (** looks of a [wait_for] of so many ms after the first *)
}.

(** ** State *)

Record guc_state := { blob : option (list Z); blob_size : Z }.

(** [sr_pm] counts the references to the power state of a GT; [sr_links] lists the VFs whose
    sysfs node links to their device, [sr_kobjs] is whether the nodes exist; [sr_pdev_refs]
    counts the references to PCI devices of VFs, [sr_writes] lists the registers written;
    [sr_calls] counts the calls whose results [SriovEnv] gives. *)
Record sriov_state `{Env} := {
  sr_vf : vf_state;
  sr_relay : gt_id -> intel_iov_relay;
  sr_runtime : gt_id -> intel_iov_runtime_regs;
  sr_reads : nat;
  sr_device_vfs : Z;
  sr_limit : Z;
  sr_pm : gt_id -> Z;
  sr_pxp : bool;
  sr_kobjs : bool;
  sr_links : list nat;
  sr_guc_state : gt_id -> nat -> guc_state;
  sr_pdev_refs : Z;
  sr_writes : list (gt_id * Z * Z);
  sr_calls : nat;
}.

Section state.
Context `{E : Env}.
Implicit Types s : sriov_state.

Definition set_sr_vf (x : vf_state) s : sriov_state :=
  {| sr_vf := x; sr_relay := sr_relay s; sr_runtime := sr_runtime s; sr_reads := sr_reads s;
     sr_device_vfs := sr_device_vfs s; sr_limit := sr_limit s; sr_pm := sr_pm s; sr_pxp := sr_pxp s;
     sr_kobjs := sr_kobjs s; sr_links := sr_links s; sr_guc_state := sr_guc_state s;
     sr_pdev_refs := sr_pdev_refs s; sr_writes := sr_writes s; sr_calls := sr_calls s |}.
(** The services and the relay of a GT. *)
Definition set_services (g : gt_id) (relay : intel_iov_relay) (r : intel_iov_runtime_regs) (reads : nat) s : sriov_state :=
  {| sr_vf := sr_vf s; sr_relay := fun g' => if decide (g' = g) then relay else sr_relay s g';
     sr_runtime := fun g' => if decide (g' = g) then r else sr_runtime s g'; sr_reads := reads;
     sr_device_vfs := sr_device_vfs s; sr_limit := sr_limit s; sr_pm := sr_pm s; sr_pxp := sr_pxp s;
     sr_kobjs := sr_kobjs s; sr_links := sr_links s; sr_guc_state := sr_guc_state s;
     sr_pdev_refs := sr_pdev_refs s; sr_writes := sr_writes s; sr_calls := sr_calls s |}.
(** What the PF knows of the number of VFs: the device's, and the limit it gave to the PCI core. *)
Definition set_vfs (device limit : Z) s : sriov_state :=
  {| sr_vf := sr_vf s; sr_relay := sr_relay s; sr_runtime := sr_runtime s; sr_reads := sr_reads s;
     sr_device_vfs := device; sr_limit := limit; sr_pm := sr_pm s; sr_pxp := sr_pxp s;
     sr_kobjs := sr_kobjs s; sr_links := sr_links s; sr_guc_state := sr_guc_state s;
     sr_pdev_refs := sr_pdev_refs s; sr_writes := sr_writes s; sr_calls := sr_calls s |}.
Definition add_pm (g : gt_id) (x : Z) s : sriov_state :=
  {| sr_vf := sr_vf s; sr_relay := sr_relay s; sr_runtime := sr_runtime s; sr_reads := sr_reads s;
     sr_device_vfs := sr_device_vfs s; sr_limit := sr_limit s;
     sr_pm := fun g' => if decide (g' = g) then sr_pm s g' + x else sr_pm s g'; sr_pxp := sr_pxp s;
     sr_kobjs := sr_kobjs s; sr_links := sr_links s; sr_guc_state := sr_guc_state s;
     sr_pdev_refs := sr_pdev_refs s; sr_writes := sr_writes s; sr_calls := sr_calls s |}.
Definition set_pxp (x : bool) s : sriov_state :=
  {| sr_vf := sr_vf s; sr_relay := sr_relay s; sr_runtime := sr_runtime s; sr_reads := sr_reads s;
     sr_device_vfs := sr_device_vfs s; sr_limit := sr_limit s; sr_pm := sr_pm s; sr_pxp := x;
     sr_kobjs := sr_kobjs s; sr_links := sr_links s; sr_guc_state := sr_guc_state s;
     sr_pdev_refs := sr_pdev_refs s; sr_writes := sr_writes s; sr_calls := sr_calls s |}.
Definition set_links (l : list nat) s : sriov_state :=
  {| sr_vf := sr_vf s; sr_relay := sr_relay s; sr_runtime := sr_runtime s; sr_reads := sr_reads s;
     sr_device_vfs := sr_device_vfs s; sr_limit := sr_limit s; sr_pm := sr_pm s; sr_pxp := sr_pxp s;
     sr_kobjs := sr_kobjs s; sr_links := l; sr_guc_state := sr_guc_state s;
     sr_pdev_refs := sr_pdev_refs s; sr_writes := sr_writes s; sr_calls := sr_calls s |}.
Definition set_guc_state (g : gt_id) (v : nat) (x : guc_state) s : sriov_state :=
  {| sr_vf := sr_vf s; sr_relay := sr_relay s; sr_runtime := sr_runtime s; sr_reads := sr_reads s;
     sr_device_vfs := sr_device_vfs s; sr_limit := sr_limit s; sr_pm := sr_pm s; sr_pxp := sr_pxp s;
     sr_kobjs := sr_kobjs s; sr_links := sr_links s;
     sr_guc_state := fun g' v' => if decide (g' = g /\ v' = v) then x else sr_guc_state s g' v';
     sr_pdev_refs := sr_pdev_refs s; sr_writes := sr_writes s; sr_calls := sr_calls s |}.
Definition add_refs (x : Z) s : sriov_state :=
  {| sr_vf := sr_vf s; sr_relay := sr_relay s; sr_runtime := sr_runtime s; sr_reads := sr_reads s;
     sr_device_vfs := sr_device_vfs s; sr_limit := sr_limit s; sr_pm := sr_pm s; sr_pxp := sr_pxp s;
     sr_kobjs := sr_kobjs s; sr_links := sr_links s; sr_guc_state := sr_guc_state s;
     sr_pdev_refs := sr_pdev_refs s + x; sr_writes := sr_writes s; sr_calls := sr_calls s |}.
Definition add_write (w : gt_id * Z * Z) s : sriov_state :=
  {| sr_vf := sr_vf s; sr_relay := sr_relay s; sr_runtime := sr_runtime s; sr_reads := sr_reads s;
     sr_device_vfs := sr_device_vfs s; sr_limit := sr_limit s; sr_pm := sr_pm s; sr_pxp := sr_pxp s;
     sr_kobjs := sr_kobjs s; sr_links := sr_links s; sr_guc_state := sr_guc_state s;
     sr_pdev_refs := sr_pdev_refs s; sr_writes := sr_writes s ++ [w]; sr_calls := sr_calls s |}.
Definition count_call s : sriov_state :=
  {| sr_vf := sr_vf s; sr_relay := sr_relay s; sr_runtime := sr_runtime s; sr_reads := sr_reads s;
     sr_device_vfs := sr_device_vfs s; sr_limit := sr_limit s; sr_pm := sr_pm s; sr_pxp := sr_pxp s;
     sr_kobjs := sr_kobjs s; sr_links := sr_links s; sr_guc_state := sr_guc_state s;
     sr_pdev_refs := sr_pdev_refs s; sr_writes := sr_writes s; sr_calls := S (sr_calls s) |}.

Definition sr_dev s : dev := v_dev (sr_vf s).
Definition set_sr_dev (d : dev) s : sriov_state := set_sr_vf (set_v_dev d (sr_vf s)) s.
End state.

Section sriov.
Context `{E : Env} `{B : BitmapOps} `{R : RelayEnv} `{P : ServiceEnv} `{Sv : SaveEnv} `{V : SriovEnv}.

#[local] Abbreviation pr A := (prog sriov_state A).

(** The result of a call into the kernel or the hardware. *)
Definition call {A} (f : nat -> A) : pr A := atom (fun s => (f (sr_calls s), count_call s)).
Definition look {A} (f : sriov_state -> A) : pr A := atom (gets f).
Definition change (f : sriov_state -> sriov_state) : pr unit := atom (modify f).

(** Programs of VfState.v and operations on the device. *)
Definition on_vf {A} (p : prog vf_state A) : pr A := zoom sr_vf set_sr_vf p.
Definition on_sdev {A} (m : st dev A) : pr A := on_vf (atom (on_v_dev m)).

(** Operations of Service.v on the [struct intel_iov] of a GT. *)
Definition the_iov (g : gt_id) (s : sriov_state) : iov_state :=
  {| s_dev := sr_dev s; s_relay := sr_relay s g; s_runtime := sr_runtime s g; s_nb := [];
     s_reads := sr_reads s; s_returned := [] |}.
Definition on_iov {A} (g : gt_id) (m : st iov_state A) : pr A := atom (fun s =>
  let '(a, i) := m (the_iov g s) in
  (a, set_services g (s_relay i) (s_runtime i) (s_reads i) (set_sr_dev (s_dev i) s))).

(** ** The [struct intel_iov] of a PF (gt/iov/intel_iov.c) *)

Definition intel_iov_relay_init_early : st iov_state unit := fun s =>
  (tt, with_relay {| pending_relays := []; last_fence := last_fence (s_relay s) |} s).

Definition pf_init_early (g : gt_id) : pr unit :=
  on_sdev (intel_iov_provisioning_init_early g) ≫= fun _ =>
  on_iov g intel_iov_service_init_early ≫= fun _ =>
  on_vf (atom (intel_iov_state_init_early g)) ≫= fun _ =>
  on_iov g intel_iov_relay_init_early.

Definition pf_release (g : gt_id) : pr unit :=
  on_vf (atom (intel_iov_state_release g)) ≫= fun _ =>
  on_iov g intel_iov_service_release ≫= fun _ =>
  on_sdev (intel_iov_provisioning_release g).

Definition pf_init (g : gt_id) : pr Z := on_sdev (intel_iov_provisioning_init g) ≫= fun _ => mret 0.
Definition pf_fini (g : gt_id) : pr unit := on_sdev (intel_iov_provisioning_fini g).

Definition pf_init_ggtt (g : gt_id) : pr Z :=
  if require_binder && negb (bool_decide (g = GT_MEDIA)) then on_sdev intel_iov_ggtt_shadow_init else mret 0.
Definition pf_fini_ggtt : pr unit := on_sdev intel_iov_ggtt_shadow_fini.

Definition pf_enable_ggtt_guest_update (g : gt_id) : pr unit :=
  change (add_write (g, GEN12_VIRTUAL_CTRL_REG, GEN12_GUEST_GTT_UPDATE_EN)).

Definition pf_init_hw (g : gt_id) : pr Z :=
  pf_enable_ggtt_guest_update g ≫= fun _ =>
  on_iov g intel_iov_service_update ≫= fun _ =>
  on_sdev (intel_iov_provisioning_restart g) ≫= fun _ =>
  on_vf (intel_iov_state_reset g) ≫= fun _ => mret 0.
Definition pf_fini_hw (g : gt_id) : pr unit := on_iov g intel_iov_service_reset.

Definition pf_init_late (g : gt_id) : pr Z :=
  if negb (uses_guc_submission g) then on_sdev (pf_update_status (- EIO)) ≫= fun _ => mret 0 else mret 0.

(** ** Detection of the mode *)

Definition gen12_pci_capability_is_vf : bool :=
  let value := default 0 vf_cap in
  if negb (Z.land value (Z.lnot GEN12_VF) =? 0) then false else negb (Z.land value GEN12_VF =? 0).

Definition i915_pci_resource_valid (bar : nat) : bool :=
  if pci_resource_flags bar =? 0 then false else
  if negb (Z.land (pci_resource_flags bar) IORESOURCE_UNSET =? 0) then false else
  negb (pci_resource_len bar =? 0).

Definition pf_has_valid_vf_bars : bool :=
  if negb (i915_pci_resource_valid GEN12_VF_GTTMMADR_BAR) then false else
  if has_lmem && negb (i915_pci_resource_valid GEN12_VF_LMEM_BAR) then false else true.

(** A refusal of the PCI core is only warned about. *)
Definition pf_reduce_totalvfs (limit : Z) : pr Z :=
  err ← call set_totalvfs_result;
  (if err =? 0 then change (fun s => set_vfs (sr_device_vfs s) limit s) else mret tt) ≫= fun _ => mret err.

Definition pf_continue_as_native : pr bool := pf_reduce_totalvfs 0 ≫= fun _ => mret false.

(** [driver_vfs] is what VfState.v calls [d_totalvfs]. *)
Definition set_totalvfs (n : nat) (d : dev) : dev :=
  {| d_prov := d_prov d; d_totalvfs := n; d_numvfs := d_numvfs d; d_status := d_status d;
     d_disable_auto := d_disable_auto d; d_ids_in_use := d_ids_in_use d;
     d_num_guc_ids := d_num_guc_ids d; d_mm := d_mm d; d_ptes := d_ptes d;
     d_shadows := d_shadows d; d_log := d_log d; d_ticks := d_ticks d; d_live := d_live d |}.

Definition pf_verify_readiness : pr bool :=
  totalvfs ← look sr_limit;
  let newlimit := Z.min (u16 max_vfs) (u16 totalvfs) in
  if newlimit =? 0 then pf_continue_as_native else
  if negb pf_has_valid_vf_bars then pf_continue_as_native else
  pf_reduce_totalvfs newlimit ≫= fun _ =>
  change (fun s => set_vfs (u16 totalvfs) (sr_limit s) s) ≫= fun _ =>
  on_sdev (modify (set_totalvfs (Z.to_nat newlimit))) ≫= fun _ => mret true.

Definition i915_sriov_probe : pr i915_iov_mode :=
  if negb HAS_SRIOV then mret I915_IOV_MODE_NONE else
  if gen12_pci_capability_is_vf then mret I915_IOV_MODE_SRIOV_VF else
  ready ← (if dev_is_pf then pf_verify_readiness else mret false);
  mret (if ready : bool then I915_IOV_MODE_SRIOV_PF else I915_IOV_MODE_NONE).

(** ** Status of the PF *)

Definition i915_sriov_pf_get_device_totalvfs (s : sriov_state) : Z := sr_device_vfs s.
Definition i915_sriov_pf_get_totalvfs (s : sriov_state) : nat := d_totalvfs (sr_dev s).

Definition pf_set_status (status : Z) : st dev unit :=
  modify (fun d => upd_sriov (d_numvfs d) status (d_disable_auto d) d).

Fixpoint pf_checklist (gts : list gt_id) : pr bool :=
  match gts with
  | [] => mret true
  | g :: gts =>
      if gt_wedged g then on_sdev (pf_update_status (- EIO)) ≫= fun _ => mret false
      else pf_checklist gts
  end.

Definition i915_sriov_pf_confirm : pr unit :=
  totalvfs ← look i915_sriov_pf_get_totalvfs;
  aborted ← look (fun s => i915_sriov_pf_aborted (sr_dev s));
  ready ← (if aborted : bool then mret false else pf_checklist all_gts);
  if negb ready then pf_reduce_totalvfs 0 ≫= fun _ => mret tt else
  on_sdev (pf_set_status (Z.of_nat totalvfs)) ≫= fun _ =>
  each all_gts (fun g => on_sdev (intel_iov_provisioning_force_vgt_mode g) ≫= fun _ => mret tt).

(** ** Enabling VFs *)

Definition set_engine_sched_msg (class flags : Z) : list Z :=
  [Z.lor (Z.lor (FIELD_PREP GUC_HXG_MSG_0_ORIGIN GUC_HXG_ORIGIN_HOST)
                (FIELD_PREP GUC_HXG_MSG_0_TYPE GUC_HXG_TYPE_REQUEST))
         (FIELD_PREP GUC_HXG_REQUEST_MSG_0_ACTION GUC_ACTION_HOST2GUC_SET_ENGINE_SCHED);
   FIELD_PREP HOST2GUC_SET_ENGINE_SCHED_REQUEST_MSG_1_ENGINE_CLASS class;
   FIELD_PREP HOST2GUC_SET_ENGINE_SCHED_REQUEST_MSG_2_STATE
     (if negb (Z.land flags SET_ENGINE_SCHED_FLAGS_ENABLE =? 0)
      then GUC_SET_ENGINE_SCHED_STATE_ENABLE else GUC_SET_ENGINE_SCHED_STATE_DISABLE);
   FIELD_PREP HOST2GUC_SET_ENGINE_SCHED_REQUEST_MSG_3_IMM_MODE
     (if negb (Z.land flags SET_ENGINE_SCHED_FLAGS_IMMEDIATE =? 0)
      then GUC_SET_ENGINE_SCHED_IMM_MODE_ENABLE else GUC_SET_ENGINE_SCHED_IMM_MODE_DISABLE)].

(** The send is repeated while the transport has no room; this is its last attempt. *)
Definition intel_guc_set_engine_sched (g : gt_id) (class flags : Z) : st dev Z :=
  intel_guc_send {| req_gt := g; req_msg := set_engine_sched_msg class flags; req_blob := [] |}.

Definition intel_guc_enable_gsc_engine (g : gt_id) : pr Z :=
  if negb (has_gsc g) then mret 0 else
  on_sdev (intel_guc_set_engine_sched g GUC_GSC_OTHER_CLASS SET_ENGINE_SCHED_FLAGS_ENABLE).

Definition intel_guc_disable_gsc_engine (g : gt_id) : pr Z :=
  if negb (has_gsc g) then mret 0 else
  idle ← call gsc_idle;
  if negb idle then mret (- EBUSY) else
  err ← on_sdev (intel_guc_set_engine_sched g GUC_GSC_OTHER_CLASS 0);
  if err <? 0 then mret err else call gsc_reset.

Definition intel_pxp_init : pr Z :=
  err ← call pxp_result;
  (if err =? 0 then change (set_pxp true) else mret tt) ≫= fun _ => mret err.
Definition intel_pxp_fini : pr unit := change (set_pxp false).

Definition pf_enable_gsc_engine : pr Z :=
  err ← each_until (fun e => e <? 0) all_gts intel_guc_enable_gsc_engine;
  if err <? 0 then mret err else
  err ← intel_pxp_init;
  mret (if (err <? 0) && negb (err =? - ENODEV) then err else 0).

(** The flush of GSC's work has no effect on the state here. *)
Definition pf_disable_gsc_engine : pr Z :=
  intel_pxp_fini ≫= fun _ => each_until (fun e => e <? 0) all_gts intel_guc_disable_gsc_engine.

Definition pf_update_guc_clients (g : gt_id) (num_vfs : nat) : pr Z :=
  on_sdev (intel_iov_provisioning_push g num_vfs).

Definition intel_gt_pm_get (g : gt_id) : pr unit := change (add_pm g 1).
Definition intel_gt_pm_put (g : gt_id) : pr unit := change (add_pm g (-1)).

(** On success the PCI core counts the VFs as enabled. *)
Definition pci_enable_sriov (num_vfs : nat) : pr Z :=
  err ← call enable_sriov_result;
  (if err <? 0 then mret tt else
   on_sdev (modify (fun d => upd_sriov num_vfs (d_status d) (d_disable_auto d) d))) ≫= fun _ => mret err.
Definition pci_disable_sriov : pr unit :=
  on_sdev (modify (fun d => upd_sriov 0 (d_status d) (d_disable_auto d) d)).

(** *** Links from the sysfs nodes of VFs to their devices (i915_sriov_sysfs.c) *)

Definition get_vf_pdev (n : nat) : pr (option bool) := atom (fun s =>
  let vf := vf_pdev (sr_calls s) n in
  (vf, count_call (if vf is Some _ then add_refs 1 s else s))).
Definition pci_dev_put : pr unit := change (add_refs (-1)).
Definition sysfs_create_link (n : nat) : pr Z :=
  err ← call link_result;
  (if err =? 0 then change (fun s => set_links (n :: sr_links s) s) else mret tt) ≫= fun _ => mret err.
Definition sysfs_remove_link (n : nat) : pr unit :=
  change (fun s => set_links (filter (fun m => m <> n) (sr_links s)) s).

(** The label [failed_n] of the loop at VF [n]: the links of VFs [n - 1], ..., 1 are removed. *)
Definition links_failed (n : nat) (err : Z) : pr Z :=
  each (rev (seq 1 (n - 1))) sysfs_remove_link ≫= fun _ => mret err.

Fixpoint add_links (ns : list nat) : pr Z :=
  match ns with
  | [] => mret 0
  | n :: ns =>
      vf ← get_vf_pdev n;
      match vf with
      | None => links_failed n (- ENODEV)
      | Some _ =>
          err ← sysfs_create_link n;
          if negb (err =? 0) then pci_dev_put ≫= fun _ => links_failed n err else
          pci_dev_put ≫= fun _ => add_links ns
      end
  end.

Definition pf_add_vfs_device_links : pr Z :=
  numvfs ← look (fun s => d_numvfs (sr_dev s));
  kobjs ← look sr_kobjs;
  if negb kobjs then mret 0 else add_links (seq 1 numvfs).

Definition pf_remove_vfs_device_links : pr unit :=
  numvfs ← look (fun s => d_numvfs (sr_dev s));
  kobjs ← look sr_kobjs;
  if negb kobjs then mret tt else each (seq 1 numvfs) sysfs_remove_link.

Definition i915_sriov_sysfs_update_links (add : bool) : pr unit :=
  if negb is_sriov_pf then mret tt else
  if add then pf_add_vfs_device_links ≫= fun _ => mret tt else pf_remove_vfs_device_links.

(** *** *)

(** The body of the loop that makes sure that a GT is provisioned. *)
Definition enable_provision (auto_provisioning : bool) (num_vfs : nat) (g : gt_id) : pr Z :=
  err ← look (fun s => intel_iov_provisioning_verify g num_vfs (sr_dev s));
  err ← (if err =? - ENODATA then
           if auto_provisioning then on_sdev (intel_iov_provisioning_auto g num_vfs) else mret 0
         else mret err);
  if negb (err =? 0) then mret err else on_iov g intel_iov_service_update ≫= fun _ => mret 0.

(** The labels [fail_pm] and [fail_guc]. *)
Definition enable_fail_pm (err : Z) : pr Z :=
  each all_gts (fun g =>
    on_sdev (intel_iov_provisioning_auto g 0) ≫= fun _ => intel_gt_pm_put g) ≫= fun _ => mret err.
Definition enable_fail_guc (err : Z) : pr Z :=
  each all_gts (fun g => pf_update_guc_clients g 0 ≫= fun _ => mret tt) ≫= fun _ => enable_fail_pm err.

Definition i915_sriov_pf_enable_vfs (num_vfs : nat) : pr Z :=
  auto_provisioning ← look (fun s => i915_sriov_pf_is_auto_provisioning_enabled (sr_dev s));
  err ← look (fun s => i915_sriov_pf_status (sr_dev s));
  if err <? 0 then mret err else
  each all_gts intel_gt_pm_get ≫= fun _ =>
  (if IS_METEORLAKE then pf_disable_gsc_engine ≫= fun _ => mret tt else mret tt) ≫= fun _ =>
  err ← each_until (fun e => negb (e =? 0)) all_gts (enable_provision auto_provisioning num_vfs);
  if negb (err =? 0) then enable_fail_pm err else
  err ← each_until (fun e => e <? 0) all_gts (fun g => pf_update_guc_clients g num_vfs);
  if err <? 0 then enable_fail_pm err else
  err ← pci_enable_sriov num_vfs;
  if err <? 0 then enable_fail_guc err else
  i915_sriov_sysfs_update_links true ≫= fun _ => mret (Z.of_nat num_vfs).

(** ** Disabling VFs *)

Definition pf_start_vfs_flr (g : gt_id) (num_vfs : nat) : pr unit :=
  each (seq 1 num_vfs) (fun n => on_vf (intel_iov_state_start_flr g n)).

(** The loop of [pf_wait_vfs_flr]. *)
Fixpoint wait_flrs (g : gt_id) (ns : list nat) (timeout_ms : Z) (timed_out : nat) : pr nat :=
  match ns with
  | [] => mret timed_out
  | n :: ns =>
      ok ← wait_for (on_vf (intel_iov_state_no_flr g n)) (wait_polls timeout_ms);
      if negb ok then wait_flrs g ns (timeout_ms / 2) (S timed_out) else wait_flrs g ns timeout_ms timed_out
  end.
Definition pf_wait_vfs_flr (g : gt_id) (num_vfs : nat) (timeout_ms : Z) : pr nat :=
  wait_flrs g (seq 1 num_vfs) timeout_ms 0.

(** The body of the loop that unprovisions a GT. *)
Definition disable_unprovision (num_vfs : nat) (g : gt_id) : pr unit :=
  in_flr ← pf_wait_vfs_flr g num_vfs 0;
  if negb (in_flr =? 0)%nat then mret tt else
  pf_update_guc_clients g 0 ≫= fun _ =>
  on_sdev (intel_iov_provisioning_auto g 0) ≫= fun _ => mret tt.

Definition i915_sriov_pf_disable_vfs : pr Z :=
  num_vfs ← look (fun s => d_numvfs (sr_dev s));
  assigned ← call vfs_assigned;
  if negb (u16 assigned =? 0) then mret (- EPERM) else
  if (num_vfs =? 0)%nat then mret 0 else
  i915_sriov_sysfs_update_links false ≫= fun _ =>
  pci_disable_sriov ≫= fun _ =>
  each all_gts (fun g => pf_start_vfs_flr g num_vfs) ≫= fun _ =>
  each all_gts (fun g => pf_wait_vfs_flr g num_vfs I915_VF_FLR_TIMEOUT_MS ≫= fun _ => mret tt) ≫= fun _ =>
  each all_gts (disable_unprovision num_vfs) ≫= fun _ =>
  (if IS_METEORLAKE then pf_enable_gsc_engine ≫= fun _ => mret tt else mret tt) ≫= fun _ =>
  each all_gts intel_gt_pm_put ≫= fun _ => mret 0.

Definition i915_pci_sriov_configure (num_vfs : nat) : pr Z :=
  if negb is_sriov_pf then mret (- ENODEV) else
  if (0 <? num_vfs)%nat then i915_sriov_pf_enable_vfs num_vfs else i915_sriov_pf_disable_vfs.

(** ** Commands to a VF on all GTs *)

Definition i915_sriov_pf_stop_vf (vfid : nat) : pr Z :=
  each_result all_gts (fun g => on_vf (intel_iov_state_stop_vf g vfid)) 0.
Definition i915_sriov_pf_pause_vf (vfid : nat) : pr Z :=
  each_result all_gts (fun g => on_vf (intel_iov_state_pause_vf g vfid)) 0.
Definition i915_sriov_pf_resume_vf (vfid : nat) : pr Z :=
  each_result all_gts (fun g => on_vf (intel_iov_state_resume_vf g vfid)) 0.
Definition i915_sriov_pf_clear_vf (vfid : nat) : pr Z :=
  each_result all_gts (fun g => on_sdev (intel_iov_provisioning_clear g vfid)) 0.

Definition i915_sriov_pause_vf (vfid : nat) : pr Z :=
  if negb is_sriov_pf then mret (- ENODEV) else i915_sriov_pf_pause_vf vfid.
Definition i915_sriov_resume_vf (vfid : nat) : pr Z :=
  if negb is_sriov_pf then mret (- ENODEV) else i915_sriov_pf_resume_vf vfid.
Definition i915_sriov_wait_vf_flr_done (vfid : nat) : pr Z :=
  if negb is_sriov_pf then mret (- ENODEV) else
  each_until (fun e => negb (e =? 0)) all_gts (fun g =>
    ok ← wait_for (on_vf (intel_iov_state_no_flr g vfid)) (wait_polls I915_VF_FLR_TIMEOUT_MS);
    mret (if ok : bool then 0 else - ETIMEDOUT)).

(** ** Suspend and resume *)

(** [i915_pci_pf_get_vf_dev] with the reference it takes. *)
Definition needs_save_restore (vfid : nat) : pr bool :=
  vf ← get_vf_pdev vfid;
  match vf with
  | None => mret false
  | Some other => pci_dev_put ≫= fun _ => mret other
  end.

(** The wait for the VF's driver and what is restored of the VF's PCI device are outside of the
    state. *)
Definition restore_vf_pci_state (vfid : nat) : pr unit :=
  vf ← get_vf_pdev vfid;
  match vf with
  | None => mret tt
  | Some _ =>
      needs ← needs_save_restore vfid;
      if negb needs then mret tt else pci_dev_put
  end.
Definition pf_restore_vfs_pci_state (num_vfs : nat) : pr unit := each (seq 1 num_vfs) restore_vf_pci_state.

(** The loops over VFs and GTs that end at the first error: the number of VFs that were done. *)
Fixpoint save_vfs (one : gt_id -> nat -> pr Z) (vs : list nat) (saved : nat) : pr nat :=
  match vs with
  | [] => mret saved
  | vfid :: vs =>
      needs ← needs_save_restore vfid;
      if negb needs then save_vfs one vs saved else
      err ← each_until (fun e => e <? 0) all_gts (fun g => one g vfid);
      if err <? 0 then mret saved else save_vfs one vs (S saved)
  end.

(** [wait_for (data->paused, ...)] takes [polls_paused] looks after the first. *)
Definition polls_paused : nat := wait_polls I915_VF_PAUSE_TIMEOUT_MS.
Definition pf_gt_save_vf_running (g : gt_id) (vfid : nat) : pr Z :=
  on_vf (intel_iov_state_pause_vf_sync polls_paused g vfid true).
Definition pf_save_vfs_running (num_vfs : nat) : pr nat := save_vfs pf_gt_save_vf_running (seq 1 num_vfs) 0.

(** [kzalloc]; no memory is needed for a size of 0. *)
Definition kzalloc (size : Z) : pr (option (list Z)) :=
  if size =? 0 then mret (Some []) else
  ok ← on_sdev kvzalloc;
  mret (if ok : bool then Some (replicate (Z.to_nat size) 0) else None).

Definition pf_gt_save_vf_guc_state (g : gt_id) (vfid : nat) : pr Z :=
  size ← on_sdev (intel_iov_state_save_vf_size g vfid);
  if size <? 0 then mret size else
  data ← look (fun s => sr_guc_state s g vfid);
  data ← (match blob data with
          | Some b => if size <=? blob_size data
                      then mret {| blob := Some (replicate (length b) 0); blob_size := blob_size data |}
                      else b ← kzalloc size; mret {| blob := b; blob_size := size |}
          | None => b ← kzalloc size; mret {| blob := b; blob_size := size |}
          end);
  change (set_guc_state g vfid data) ≫= fun _ =>
  match blob data with
  | None => mret (- ENOMEM)
  | Some b =>
      '(ret, b) ← on_sdev (intel_iov_state_save_vf g vfid b (blob_size data));
      change (set_guc_state g vfid {| blob := Some b; blob_size := blob_size data |}) ≫= fun _ => mret ret
  end.
Definition pf_save_vfs_guc_state (num_vfs : nat) : pr nat := save_vfs pf_gt_save_vf_guc_state (seq 1 num_vfs) 0.

Definition pf_gt_restore_vf_guc_state (g : gt_id) (vfid : nat) : pr Z :=
  data ← look (fun s => sr_guc_state s g vfid);
  match blob data with
  | None => mret (- EINVAL)
  | Some b =>
      ok ← wait_for (look (fun s => (vfid <=? num_pushed (d_prov (sr_dev s) g))%nat))
             (wait_polls I915_VF_REPROVISION_TIMEOUT_MS);
      if negb ok then mret (- ETIMEDOUT) else
      err ← (if guc_v2 g then on_vf (intel_iov_state_pause_vf_sync polls_paused g vfid true) else mret 0);
      if err <? 0 then mret err else
      err ← on_sdev (intel_iov_state_restore_vf g vfid b (blob_size data));
      if err <? 0 then mret err else
      change (set_guc_state g vfid {| blob := None; blob_size := blob_size data |}) ≫= fun _ => mret 0
  end.
Definition pf_restore_vfs_guc_state (num_vfs : nat) : pr nat :=
  save_vfs pf_gt_restore_vf_guc_state (seq 1 num_vfs) 0.

Definition vf_master_irq (vfid : nat) : Z :=
  if GRAPHICS_VER_FULL <? IP_VER 12 50 then GEN12_VF_GFX_MSTR_IRQ vfid else XEHPSDV_VF_GFX_MSTR_IRQ vfid.
Definition pf_restore_vfs_irqs (num_vfs : nat) : pr unit :=
  each all_gts (fun g => each (seq 1 num_vfs) (fun vfid => change (add_write (g, vf_master_irq vfid, GEN11_MASTER_IRQ)))).

Definition pf_gt_restore_vf_running (g : gt_id) (vfid : nat) : pr Z :=
  suspended ← on_vf (test_and_clear_bit IOV_VF_PAUSE_BY_SUSPEND g vfid);
  if negb suspended then mret 0 else on_vf (intel_iov_state_resume_vf g vfid).

(** Here an error on a GT only ends the work on its VF. *)
Fixpoint restore_running (vs : list nat) (running : nat) : pr nat :=
  match vs with
  | [] => mret running
  | vfid :: vs =>
      err ← each_until (fun e => e <? 0) all_gts (fun g => pf_gt_restore_vf_running g vfid);
      restore_running vs (if err <? 0 then running else S running)
  end.
Definition pf_restore_vfs_running (num_vfs : nat) : pr nat := restore_running (seq 1 num_vfs) 0.

Definition pf_suspend_active_vfs : pr unit :=
  num_vfs ← look (fun s => d_numvfs (sr_dev s));
  if (num_vfs =? 0)%nat then mret tt else
  pf_save_vfs_running num_vfs ≫= fun _ =>
  pf_save_vfs_guc_state num_vfs ≫= fun _ => mret tt.

Definition pf_resume_active_vfs : pr unit :=
  num_vfs ← look (fun s => d_numvfs (sr_dev s));
  if (num_vfs =? 0)%nat then mret tt else
  pf_restore_vfs_pci_state num_vfs ≫= fun _ =>
  pf_restore_vfs_guc_state num_vfs ≫= fun _ =>
  pf_restore_vfs_irqs num_vfs ≫= fun _ =>
  pf_restore_vfs_running num_vfs ≫= fun _ => mret tt.

(** The references to the power state that [i915_sriov_pf_enable_vfs] took, while suspended. *)
Definition put_vfs_pm (num_vfs : nat) (change_pm : gt_id -> pr unit) : pr unit :=
  if negb (num_vfs =? 0)%nat then each all_gts change_pm else mret tt.

Definition i915_sriov_suspend_prepare : pr Z :=
  (if is_sriov_pf then
     num_vfs ← look (fun s => d_numvfs (sr_dev s));
     put_vfs_pm num_vfs intel_gt_pm_put ≫= fun _ => pf_suspend_active_vfs
   else mret tt) ≫= fun _ => mret 0.

Definition i915_sriov_resume : pr Z :=
  (if is_sriov_pf then
     pf_resume_active_vfs ≫= fun _ =>
     num_vfs ← look (fun s => d_numvfs (sr_dev s));
     put_vfs_pm num_vfs intel_gt_pm_get
   else mret tt) ≫= fun _ => mret 0.

(** *** The driver's suspend and resume around it (gem/i915_gem_pm.c, gt/intel_gt_pm.c) *)

Definition i915_gem_suspend : pr unit := i915_sriov_suspend_prepare ≫= fun _ => mret tt.

Definition intel_gt_resume (g : gt_id) : pr Z :=
  err ← call gt_hw_result;
  if negb (err =? 0) then mret err else
  err ← (if is_sriov_pf then pf_init_hw g else mret 0);
  if negb (err =? 0) then mret err else call gt_engines_result.

(** A GT that fails is wedged, and the SR-IOV layer is not resumed. *)
Definition i915_gem_resume : pr unit :=
  err ← each_until (fun e => negb (e =? 0)) all_gts intel_gt_resume;
  if negb (err =? 0) then mret tt else i915_sriov_resume ≫= fun _ => mret tt.

(** i915_pci.c: the removal of the driver and a shutdown *)
Definition pci_remove_vfs : pr unit :=
  if is_sriov_pf then i915_sriov_pf_disable_vfs ≫= fun _ => mret tt else mret tt.
End sriov.

(** ** Samples *)

(** A Meteor Lake whose PCI core answers [res] when VFs are enabled; a driver of its own has VF 1. *)
Definition sample_sriov_env (res : Z) : SriovEnv := {|
  HAS_SRIOV := true; vf_cap := Some 0; dev_is_pf := true; max_vfs := 4;
  pci_resource_flags _ := 0x200; pci_resource_len _ := 4096; has_lmem := false;
  set_totalvfs_result _ := 0; gt_wedged _ := false; IS_METEORLAKE := true;
  has_gsc := fun g => bool_decide (g = GT_MEDIA); gsc_idle _ := true; gsc_reset _ := 0;
  pxp_result _ := 0; enable_sriov_result _ := res; vfs_assigned _ := 0;
  vf_pdev := fun _ n => Some (n =? 1)%nat; link_result _ := 0; guc_v2 _ := true; uses_guc_submission _ := true;
  gt_hw_result _ := 0; gt_engines_result _ := 0; wait_polls _ := 3%nat |}.

Section samples.
#[local] Existing Instance sample_env.

Definition sample_vf_state : vf_state := {|
  v_dev := sample_dev; v_data _ := replicate 5 data0; v_worker _ := false; v_trace := [] |}.
Definition sample_sriov : sriov_state := {|
  sr_vf := sample_vf_state; sr_relay _ := {| pending_relays := []; last_fence := 0 |};
  sr_runtime _ := {| rt_size := 0; rt_regs := []; rt_values := [] |}; sr_reads := 0;
  sr_device_vfs := 4; sr_limit := 4; sr_pm _ := 0; sr_pxp := true; sr_kobjs := true; sr_links := [];
  sr_guc_state _ _ := {| blob := None; blob_size := 0 |}; sr_pdev_refs := 0; sr_writes := []; sr_calls := 0 |}.
End samples.
