(* ===== verification/Enable.v ===== *)
(** * Enabling VFs

    What [i915_sriov_pf_enable_vfs] promises when nothing interrupts it: VFs are enabled on all
    GTs, with the resources made for them or those that they had, or nothing of them is left behind; with the lemmas on loops over
    GTs and VFs that the files on power and on disabling share. *)

From S2P Require Export Sriov AutoProv Push.

(** ** Operations on one GT *)

Section frames.
Context `{E : Env}.

(** [d'] differs from [d] in what belongs to [g], the GGTT and the counters. *)
Record gt_frame (g : gt_id) (d d' : dev) : Prop := {
  gf_prov g' : g' <> g -> d_prov d' g' = d_prov d g';
  gf_len g' : length (configs (d_prov d' g')) = length (configs (d_prov d g'));
  gf_total : d_totalvfs d' = d_totalvfs d;
  gf_num : d_numvfs d' = d_numvfs d;
  gf_status : d_status d' = d_status d;
  gf_auto : d_disable_auto d' = d_disable_auto d;
}.
#[export] Instance gt_frame_preorder g : PreOrder (gt_frame g).
Proof.
  split; [constructor; auto|]. intros a b c [] []. constructor; try (intros; congruence).
  intros g' Hg. transitivity (d_prov b g'); auto.
Qed.

Lemma same_gt_frame g d d' : same_pf d d' -> gt_frame g d d'.
Proof. intros []. constructor; intros; congruence. Qed.
Lemma conf_gt_frame g d d' : same_conf d d' -> gt_frame g d d'.
Proof. intros []. constructor; intros; congruence. Qed.

Definition gt_only (g : gt_id) {A} (m : st dev A) : Prop := forall d, wp m (fun _ d' => gt_frame g d d') d.

Lemma gt_only_ret g {A} (a : A) : gt_only g (mret a).
Proof. intros d. by apply wp_ret. Qed.
Lemma gt_only_bind g {A B} (m : st dev A) (k : A -> st dev B) :
  gt_only g m -> (forall a, gt_only g (k a)) -> gt_only g (m ≫= k).
Proof.
  intros Hm Hk d. apply wp_bind. eapply wp_mono; [apply Hm|]. intros a d' Hd. cbv beta in Hd.
  eapply wp_mono; [apply Hk|]. intros b d'' Hd'. by etransitivity.
Qed.
Lemma gt_only_gets g {A} (f : dev -> A) : gt_only g (gets f).
Proof. intros d. by apply wp_gets. Qed.
Lemma gt_only_hw g {A} (m : st dev A) : hw_only m -> gt_only g m.
Proof. intros Hm d. eapply hw_only_wp; [done|]. intros a d' Hs _. by apply same_gt_frame. Qed.
Lemma gt_only_prov g f : (forall p, length (configs (f p)) = length (configs p)) -> gt_only g (mod_prov g f).
Proof.
  intros Hf d. apply wp_mod_prov. constructor; try done; intros g'; rewrite prov_upd; by case_decide.
Qed.
Lemma gt_only_cfg g id f : gt_only g (mod_cfg g id f).
Proof. apply gt_only_prov. intros p. simpl. apply length_alter. Qed.
Lemma gt_only_conf g {A} (m : st dev A) : (forall d, wp m (fun _ d' => same_conf d d') d) -> gt_only g m.
Proof. intros Hm d. eapply wp_mono; [apply Hm|]. intros a d' Hs. by apply conf_gt_frame. Qed.
Lemma gt_only_zalloc g : gt_only g bitmap_zalloc.
Proof. intros d. apply wp_bitmap_zalloc; intros; by apply same_gt_frame. Qed.
Lemma gt_only_free g : gt_only g bitmap_free.
Proof. intros d. apply wp_bitmap_free. intros; by apply same_gt_frame. Qed.
End frames.

Create HintDb gt.
#[export] Hint Resolve gt_only_ret gt_only_gets gt_only_cfg gt_only_zalloc gt_only_free : gt.
Ltac gt_auto :=
  repeat first
    [ solve [eauto with gt]
    | apply gt_only_bind; [|intros ?]
    | solve [apply gt_only_prov; done]
    | solve [apply gt_only_hw; hw_auto]
    | progress cbv zeta
    | match goal with
      | |- gt_only _ (match ?x with _ => _ end) => destruct x
      | |- gt_only _ ((let '(_, _) := ?x in _)) => destruct x
      end ].

Section provisioning.
Context `{E : Env} `{B : BitmapOps}.

Lemma gt_only_get_cfg g g' id : gt_only g (get_cfg g' id).
Proof. apply gt_only_gets. Qed.
Lemma gt_only_get_prov g g' : gt_only g (get_prov g').
Proof. apply gt_only_gets. Qed.
#[local] Hint Resolve gt_only_get_cfg gt_only_get_prov : gt.

Lemma gt_only_ctxs g id n : gt_only g (pf_provision_ctxs g id n).
Proof.
  unfold pf_provision_ctxs, __pf_provision_ctxs, __pf_provision_vf_ctxs, pf_push_config_ctxs,
    pf_get_ctxs_max_quota, pf_alloc_ctxs_range, pf_alloc_vf_ctxs_range, pf_get_ctxs_bitmap.
  gt_auto.
Qed.
Lemma gt_only_dbs g id n : gt_only g (pf_provision_dbs g id n).
Proof.
  unfold pf_provision_dbs, pf_take_dbs, pf_push_config_dbs, pf_alloc_dbs_range, pf_get_dbs_bitmap.
  gt_auto.
Qed.
Lemma gt_only_owner g vfid node : gt_only g (i915_ggtt_set_space_owner vfid node).
Proof. apply gt_only_conf. intros d. by apply wp_set_owner. Qed.
Lemma gt_only_alloc g id node : gt_only g (intel_iov_ggtt_shadow_vf_alloc id node).
Proof. apply gt_only_conf. intros d. by apply wp_shadow_alloc. Qed.
Lemma gt_only_shadow_free g id : gt_only g (intel_iov_ggtt_shadow_vf_free id).
Proof. apply gt_only_conf. intros d. by apply wp_shadow_free. Qed.
Lemma gt_only_mm g f : gt_only g (modify (fun d => set_mm (f d) d)).
Proof. intros d. by apply wp_modify. Qed.
Lemma gt_only_insert g id sz : gt_only g (pf_insert_ggtt g id sz).
Proof.
  intros d. unfold wp, pf_insert_ggtt. destruct (i915_gem_gtt_insert _ _ _ _ _) as [[err s] m].
  destruct (err =? 0); simpl; [|done]. constructor; try done; intros g'; unfold upd_cfg; rewrite prov_upd;
    case_decide; try done. simpl. apply length_alter.
Qed.
#[local] Hint Resolve gt_only_owner gt_only_alloc gt_only_shadow_free gt_only_mm gt_only_insert : gt.

Lemma gt_only_ggtt g id sz : gt_only g (pf_provision_ggtt g id sz).
Proof.
  unfold pf_provision_ggtt, pf_take_ggtt, pf_fill_ggtt, pf_release_err, pf_release_ggtt,
    pf_push_config_ggtt, __pf_push_config_ggtt.
  gt_auto.
Qed.
#[local] Hint Resolve gt_only_ctxs gt_only_dbs gt_only_ggtt : gt.

Lemma gt_only_thresholds g id ts : gt_only g (unprovision_thresholds g id ts).
Proof. induction ts as [|t ts IH]; cbn [unprovision_thresholds]; unfold pf_provision_threshold; gt_auto. Qed.
#[local] Hint Resolve gt_only_thresholds : gt.
Lemma gt_only_unprovision g id : gt_only g (pf_unprovision_config g id).
Proof.
  unfold pf_unprovision_config, pf_provision_exec_quantum, pf_provision_preempt_timeout,
    pf_push_config_exec_quantum, pf_push_config_preempt_timeout, pf_unprovision_thresholds.
  gt_auto.
Qed.
#[local] Hint Resolve gt_only_unprovision : gt.
Lemma gt_only_down g n : gt_only g (unprovision_down g n).
Proof. induction n as [|n IH]; cbn [unprovision_down]; gt_auto. Qed.
#[local] Hint Resolve gt_only_down : gt.
Lemma gt_only_set_auto g b : gt_only g (pf_set_auto_provisioning g b).
Proof. unfold pf_set_auto_provisioning. gt_auto. Qed.
Lemma gt_only_unprovision_all g : gt_only g (pf_unprovision_all g).
Proof. unfold pf_unprovision_all. gt_auto. Qed.
#[local] Hint Resolve gt_only_set_auto gt_only_unprovision_all : gt.
Lemma gt_only_each g valid provision ids :
  (forall n, gt_only g (provision n)) -> gt_only g (auto_each valid provision ids).
Proof. intros Hp. induction ids as [|n ids IH]; cbn [auto_each]; gt_auto. Qed.

(** Automatic provisioning and its undoing, and the push of configurations, work on one GT. *)
Lemma gt_only_auto g n : gt_only g (intel_iov_provisioning_auto g n).
Proof.
  unfold intel_iov_provisioning_auto, pf_auto_provision, auto_fail, pf_auto_unprovision,
    pf_auto_provision_ggtt, pf_auto_provision_ctxs, pf_auto_provision_dbs, pf_get_ctxs_free, pf_get_ctxs_bitmap.
  gt_auto; apply gt_only_each; gt_auto.
Qed.

Lemma gt_only_push g n : gt_only g (intel_iov_provisioning_push g n).
Proof.
  assert (forall addr ids, hw_only (push_each g addr ids)) as Hpush.
  { intros addr ids. induction ids as [|i ids IH]; cbn [push_each]; hw_auto. }
  assert (forall k, hw_only (reset_down g k)) as Hreset.
  { intros k. induction k as [|k IH]; cbn [reset_down]; hw_auto. }
  unfold intel_iov_provisioning_push, pf_push_configs, pf_push_no_configs. gt_auto; by apply gt_only_hw.
Qed.
End provisioning.

(** ** Programs that are not interrupted *)

Section rules.
Context `{E : Env}.
Implicit Types s : sriov_state.

Lemma wp_look {A} (f : sriov_state -> A) (Q : A -> sriov_state -> Prop) s :
  Q (f s) s -> wp (atomically (look f)) Q s.
Proof. done. Qed.
Lemma wp_change f (Q : unit -> sriov_state -> Prop) s : Q tt (f s) -> wp (atomically (change f)) Q s.
Proof. done. Qed.
Lemma wp_call {A} (f : nat -> A) (Q : A -> sriov_state -> Prop) s :
  Q (f (sr_calls s)) (count_call s) -> wp (atomically (call f)) Q s.
Proof. done. Qed.
Lemma wp_on_sdev {A} (m : st dev A) (Q : A -> sriov_state -> Prop) s :
  wp m (fun a d => Q a (set_sr_dev d s)) (sr_dev s) -> wp (atomically (on_sdev m)) Q s.
Proof.
  unfold wp, on_sdev, on_vf, atom, on_v_dev, sr_dev. cbn. unfold mbind, st_bind.
  by destruct (m (v_dev (sr_vf s))).
Qed.

Lemma all_gts_nodup : NoDup all_gts.
Proof. unfold all_gts. destruct has_media_gt; by apply (bool_decide_unpack _). Qed.
End rules.
#[export] Hint Resolve all_gts_nodup : core.

(** ** The parts of enabling *)

Section parts.
Context `{E : Env} `{!EnvLaws E} `{B : BitmapOps} `{!BitmapLaws B} `{R : RelayEnv} `{P : ServiceEnv}
  `{Sv : SaveEnv} `{V : SriovEnv}.
Implicit Types s : sriov_state.

(** What the parts that work on the device alone keep. *)
Record stays s s' : Prop := {
  st_pm g : sr_pm s' g = sr_pm s g;
  st_links : sr_links s' = sr_links s;
  st_kobjs : sr_kobjs s' = sr_kobjs s;
  st_refs : sr_pdev_refs s' = sr_pdev_refs s;
}.
#[export] Instance stays_preorder : PreOrder stays.
Proof. split; [by constructor|]. intros a b c [] []. constructor; intros; congruence. Qed.

Definition calm s s' : Prop := stays s s' /\ same_pf (sr_dev s) (sr_dev s').
#[export] Instance calm_preorder : PreOrder calm.
Proof.
  split; [intros s; by split|]. intros a b c [H1 H2] [H3 H4]. split; etransitivity; eauto.
Qed.

Lemma stays_dev d s : stays s (set_sr_dev d s).
Proof. by constructor. Qed.

Lemma wp_on_hw {A} (m : st dev A) (Q : A -> sriov_state -> Prop) s :
  hw_only m -> (forall a s', calm s s' -> Q a s') -> wp (atomically (on_sdev m)) Q s.
Proof.
  intros Hm HQ. apply wp_on_sdev. eapply hw_only_wp; [done|]. intros a d Hd _. apply HQ.
  split; [apply stays_dev|done].
Qed.

Lemma wp_disable_gsc (Q : Z -> sriov_state -> Prop) s :
  (forall e s', calm s s' -> Q e s') -> wp (atomically pf_disable_gsc_engine) Q s.
Proof.
  intros HQ. apply wp_atomically_bind, wp_change.
  apply (wp_each_until _ _ _ (calm s) (fun _ _ => True) (fun _ _ => True) (fun _ _ _ => True)); auto.
  2: { split; [by constructor|done]. }
  intros g s1 _ Hc _. eapply (wp_mono _ (fun _ s' => calm s s')); [|intros e s'; by destruct (e <? 0)].
  unfold intel_guc_disable_gsc_engine. destruct (has_gsc g); cbn [negb]; [|done].
  apply wp_atomically_bind, wp_call. assert (calm s (count_call s1)) as Hc1
    by (etransitivity; [done|split; [by constructor|done]]).
  destruct (gsc_idle _); cbn [negb]; [|done]. apply wp_atomically_bind, wp_on_hw; [apply hw_only_send|].
  intros e s2 Hc2. assert (calm s s2) by (by etransitivity). destruct (e <? 0); [done|]. apply wp_call.
  etransitivity; [eassumption|]. split; [by constructor|done].
Qed.

Lemma wp_enable_gsc (Q : Z -> sriov_state -> Prop) s :
  (forall e s', calm s s' -> Q e s') -> wp (atomically pf_enable_gsc_engine) Q s.
Proof.
  intros HQ. unfold pf_enable_gsc_engine. apply wp_atomically_bind.
  eapply (wp_mono _ (fun _ s' => calm s s')).
  - apply (wp_each_until _ _ _ (calm s) (fun _ _ => True) (fun _ _ => True) (fun _ _ _ => True)); auto; [|done].
    intros g s1 _ Hc _. eapply (wp_mono _ (fun _ s' => calm s s')); [|intros e s'; by destruct (e <? 0)].
    unfold intel_guc_enable_gsc_engine. destruct (has_gsc g); cbn [negb]; [|done].
    apply wp_on_hw; [apply hw_only_send|]. intros e s2 Hc2. cbv beta. by etransitivity.
  - intros e s1 Hc. destruct (e <? 0); [by apply HQ|]. unfold intel_pxp_init.
    apply wp_atomically_bind, wp_atomically_bind, wp_call.
    assert (forall s2, calm (count_call s1) s2 -> calm s s2) as Hk
      by (intros s2 H2; etransitivity; [exact Hc|]; etransitivity; [|exact H2]; split; [by constructor|done]).
    destruct (pxp_result _ =? 0); apply wp_atomically_bind; simpl; apply HQ, Hk; split; by constructor.
Qed.

(** The push of configurations changes its own record only. *)
Lemma wp_push g n (Q : Z -> dev -> Prop) d :
  (forall ret d' k, ret <= 0 -> same_pf (upd_prov g (set_num_pushed k) d) d' -> (ret = 0 -> k = n) -> Q ret d') ->
  wp (intel_iov_provisioning_push g n) Q d.
Proof using EnvLaws0.
  intros HQ. unfold intel_iov_provisioning_push. apply wp_bind, wp_gets.
  assert (forall d', same_pf d d' -> same_pf (upd_prov g (set_num_pushed (num_pushed (d_prov d g))) d) d') as Heta.
  { intros d' Hs. etransitivity; [|exact Hs]. constructor; try done. intros g'. rewrite prov_upd.
    case_decide; [|done]. subst. by destruct (d_prov d g). }
  apply wp_if; intros Hst; propify.
  { apply wp_ret, (HQ _ _ (num_pushed (d_prov d g))); [lia|by apply Heta|lia]. }
  destruct (Nat.eqb_spec n 0) as [->|Hn]; simpl.
  - apply wp_bind, wp_get_prov, wp_bind, wp_reset_down. intros m d1 Hm Hs _ _ _.
    apply wp_bind, wp_mod_prov, wp_ret, (HQ _ _ m); [by destruct m|by apply same_upd_prov|by destruct m].
  - apply wp_push_configs. intros ret d' [(-> & Hs & _)|[(Hneg & Hs & _)|(-> & Hne & Hs & _)]] _.
    + by apply (HQ _ _ n).
    + apply (HQ _ _ (num_pushed (d_prov d g))); [lia|by apply Heta|lia].
    + apply (HQ _ _ (num_pushed (d_prov d g))); [apply env_vma_err|by apply Heta|lia].
Qed.
End parts.

(** ** What enabling does to each GT *)

Section outcome.
Context `{E : Env} `{!EnvLaws E} `{B : BitmapOps} `{!BitmapLaws B}.

(** The configurations of a GT and whether they were made automatically. *)
Definition gview (d : dev) (g : gt_id) : list intel_iov_config * bool :=
  (configs (d_prov d g), auto_mode (d_prov d g)).

(** Every one of the first [n] VFs has contexts, doorbells and a region of the GGTT. *)
Definition provisioned (g : gt_id) (n : nat) (d : dev) : Prop :=
  forall id, (1 <= id <= n)%nat ->
    0 < intel_iov_provisioning_get_ctxs g id d /\ 0 < intel_iov_provisioning_get_dbs g id d /\
    (g = GT_PRIMARY -> 0 < intel_iov_provisioning_get_ggtt g id d).

Definition made (n : nat) (d0 : dev) (g : gt_id) (d : dev) : Prop :=
  d_disable_auto d0 = false /\ auto_mode (d_prov d g) = true /\ provisioned g n d.

(** Nothing of what the GT provisions is there for the first [n] VFs. *)
Definition bare (n : nat) (g : gt_id) (d : dev) : Prop := Forall (fun id => empty g id d) (seq 1 n).

(** What the GT has of a complete configuration. *)
Definition furnished (g : gt_id) (id : nat) (d : dev) : Prop :=
  num_ctxs (cfg d g id) <> 0 /\ (g = GT_PRIMARY -> allocated (region d id) = true).

(** What a GT has once its VFs are let through: configurations made automatically where there
    was none, none if automatic provisioning is turned off, or those that were there, each VF
    with contexts and a region or with nothing. *)
Definition given (n : nat) (d0 : dev) (g : gt_id) (d : dev) : Prop :=
  bare n g d0 /\ made n d0 g d \/
  bare n g d0 /\ d_disable_auto d0 = true /\ gview d g = gview d0 g \/
  ~ bare n g d0 /\ gview d g = gview d0 g /\
    Forall (fun id => furnished g id d0 \/ empty g id d0) (seq 1 n).

(** A GT that automatic provisioning left, whatever its result. *)
Definition tried (d0 : dev) (g : gt_id) (d : dev) : Prop :=
  gview d g = gview d0 g \/
  d_disable_auto d0 = false /\ (auto_mode (d_prov d g) = true \/ auto_mode (d_prov d g) = false /\ all_released g d).

(** What was automatic is undone; what nobody had provisioned still is not; with automatic
    provisioning turned off, a GT provisioned by hand is left as it was. *)
Definition undone (d0 : dev) (g : gt_id) (d : dev) : Prop :=
  auto_mode (d_prov d g) = false /\
  (all_released g d0 \/ auto_mode (d_prov d0 g) = true -> all_released g d) /\
  (d_disable_auto d0 = true -> auto_mode (d_prov d0 g) = false -> gview d g = gview d0 g).

Lemma gview_cfg d d' g id : configs (d_prov d' g) = configs (d_prov d g) -> cfg d' g id = cfg d g id.
Proof. unfold cfg. by intros ->. Qed.

Lemma provisioned_view g n d d' : gview d' g = gview d g -> provisioned g n d -> provisioned g n d'.
Proof.
  intros Hv Hp id Hid. pose proof (gview_cfg d d' g id ltac:(by injection Hv)) as Hc. specialize (Hp id Hid).
  unfold intel_iov_provisioning_get_ctxs, pf_get_ctxs_quota, intel_iov_provisioning_get_dbs,
    intel_iov_provisioning_get_ggtt in *. rewrite Hc. split_and!; [apply Hp|apply Hp|].
  intros ->. rewrite Hc. by apply Hp.
Qed.
Lemma released_view g d d' :
  gview d' g = gview d g -> d_totalvfs d' = d_totalvfs d -> all_released g d -> all_released g d'.
Proof.
  intros Hv Ht Hr id Hid. pose proof (gview_cfg d d' g id ltac:(by injection Hv)) as Hc.
  specialize (Hr id ltac:(unfold is_vf in *; by rewrite <- Ht)).
  unfold released, intel_iov_provisioning_get_ctxs, pf_get_ctxs_quota, intel_iov_provisioning_get_dbs,
    intel_iov_provisioning_get_ggtt in *. rewrite Hc. split_and!; [apply Hr|apply Hr|].
  intros ->. rewrite Hc. by apply Hr.
Qed.
Lemma gview_mode g d d' : gview d' g = gview d g -> auto_mode (d_prov d' g) = auto_mode (d_prov d g).
Proof. by injection 1. Qed.

Lemma made_view n d0 g d d' : gview d' g = gview d g -> made n d0 g d -> made n d0 g d'.
Proof.
  intros Hv (H1 & H2 & H3). split_and!; [done|by rewrite (gview_mode _ _ _ Hv)|by apply (provisioned_view g n d)].
Qed.
Lemma given_view n d0 g d d' : gview d' g = gview d g -> given n d0 g d -> given n d0 g d'.
Proof.
  intros Hv [[Hb Hm]|[(Hb & Hd & Hs)|(Hb & Hs & Hf)]].
  - left. split; [done|by eapply made_view].
  - right; left. split_and!; congruence.
  - right; right. split_and!; congruence.
Qed.
Lemma given_tried n d0 g d : given n d0 g d -> tried d0 g d.
Proof. intros [[_ (? & ? & _)]|[(_ & _ & ?)|(_ & ? & _)]]; [right; auto|by left|by left]. Qed.
Lemma empty_view g d d' id : gview d' g = gview d g -> empty g id d -> empty g id d'.
Proof.
  intros Hv He. pose proof (gview_cfg d d' g id ltac:(by injection Hv)) as Hc. unfold empty, region in *.
  rewrite Hc. split_and!; [apply He..|]. intros ->. rewrite Hc. by apply He.
Qed.
Lemma furnished_view g d d' id : gview d' g = gview d g -> furnished g id d -> furnished g id d'.
Proof.
  intros Hv He. pose proof (gview_cfg d d' g id ltac:(by injection Hv)) as Hc. unfold furnished, region in *.
  rewrite Hc. split; [apply He|]. intros ->. rewrite Hc. by apply He.
Qed.
Lemma bare_view n g d d' : gview d' g = gview d g -> bare n g d -> bare n g d'.
Proof. intros Hv Hb. eapply Forall_impl; [exact Hb|]. intros id. by apply empty_view. Qed.

(** What passes [intel_iov_provisioning_verify]. *)
Lemma verified n d0 g d :
  gview d g = gview d0 g -> intel_iov_provisioning_verify g n d = 0 -> given n d0 g d.
Proof.
  intros Hv Hver. apply (verify_classifies g n d) in Hver as [Hall Hne]. right; right. split_and!; [|done|].
  - intros Hb. apply Hne. by apply (bare_view n g d0).
  - eapply Forall_impl; [exact Hall|]. intros id [(Hr & H1 & Hx)|He]; [left|right].
    + apply (furnished_view g d); [done|]. by split.
    + by apply (empty_view g d).
Qed.
Lemma verified_bare n d0 g d :
  gview d g = gview d0 g -> intel_iov_provisioning_verify g n d = - ENODATA -> bare n g d0.
Proof. intros Hv Hver. apply (bare_view n g d); [done|]. by apply (verify_classifies g n d). Qed.

Lemma tried_view d0 g d d' :
  gview d' g = gview d g -> d_totalvfs d' = d_totalvfs d -> tried d0 g d -> tried d0 g d'.
Proof.
  intros Hv Ht [Hs|[Hd Hm]]; [left; congruence|right]. split; [done|]. rewrite (gview_mode _ _ _ Hv).
  destruct Hm as [|[??]]; [by left|right]. split; [done|]. by apply (released_view g d).
Qed.
Lemma undone_view d0 g d d' :
  gview d' g = gview d g -> d_totalvfs d' = d_totalvfs d -> undone d0 g d -> undone d0 g d'.
Proof.
  intros Hv Ht (H1 & H2 & H3). split_and!; [by rewrite (gview_mode _ _ _ Hv)| |].
  - intros Hr. apply (released_view g d); auto.
  - intros. rewrite Hv. auto.
Qed.

Lemma frame_view g d d' g' : gt_frame g d d' -> g' <> g -> gview d' g' = gview d g'.
Proof. intros Hf Hg. unfold gview. by rewrite (gf_prov _ _ _ Hf). Qed.

(** The invariants of the GTs, and what no part of enabling changes before the VFs exist. *)
Record base (d0 d : dev) : Prop := {
  b_inv g : g ∈ all_gts -> prov_inv g d;
  b_total : d_totalvfs d = d_totalvfs d0;
  b_num : d_numvfs d = d_numvfs d0;
  b_status : d_status d = d_status d0;
  b_auto : d_disable_auto d = d_disable_auto d0;
}.

Lemma prov_inv_other g g' d d' :
  gt_frame g d d' -> g' <> g -> prov_inv g d' -> prov_inv g' d -> prov_inv g' d'.
Proof.
  intros Hf Hg [I _ _] [_ [] []]. pose proof (gf_prov _ _ _ Hf g' Hg) as Hp.
  assert (forall id, cfg d' g' id = cfg d g' id) as Hc by (intros; unfold cfg; by rewrite Hp).
  unfold is_vf, ctxs_range, dbs_range in *. split; [done|..]; constructor;
    unfold is_vf, ctxs_range, dbs_range in *; rewrite ?Hp, ?(gf_total _ _ _ Hf);
    try (intros; rewrite ?Hc in *; by eauto); done.
Qed.

Lemma prov_inv_sriov g a b c d : prov_inv g d -> prov_inv g (upd_sriov a b c d).
Proof. intros [[] [] []]. split; by constructor. Qed.

Lemma base_step g d0 d d' : gt_frame g d d' -> base d0 d -> prov_inv g d' -> base d0 d'.
Proof.
  intros Hf [] I. constructor; [|by destruct Hf; congruence..].
  intros g' Hg'. destruct (decide (g' = g)) as [->|]; [done|]. by eapply prov_inv_other; eauto.
Qed.
Lemma base_same d0 d d' : same_pf d d' -> base d0 d -> base d0 d'.
Proof.
  intros Hs []. constructor; [|by destruct Hs; congruence..]. intros g Hg. by eapply prov_inv_same; eauto.
Qed.

Lemma undo_view d0 g d d' :
  (auto_mode (d_prov d g) = true -> all_released g d') -> (auto_mode (d_prov d g) = false -> d' = d) ->
  auto_mode (d_prov d' g) = false -> d_totalvfs d = d_totalvfs d0 -> tried d0 g d -> undone d0 g d'.
Proof.
  intros Hr Hk Ha Ht [Hs|[Hd Hm]].
  - pose proof (gview_mode _ _ _ Hs) as Hmode. destruct (auto_mode (d_prov d g)) eqn:He.
    + split_and!; [done|by auto|]. intros _ Hf. congruence.
    + rewrite (Hk eq_refl) in *. split_and!; [done| |done].
      intros [Hall|Hx]; [|congruence]. by apply (released_view g d0).
  - split_and!; [done| |congruence]. intros _. destruct Hm as [|[Hm Hall]]; [auto|]. by rewrite (Hk Hm).
Qed.
End outcome.

(** ** The loops of enabling *)

Section loops.
Context `{E : Env} `{!EnvLaws E} `{B : BitmapOps} `{!BitmapLaws B} `{R : RelayEnv} `{P : ServiceEnv}
  `{Sv : SaveEnv} `{V : SriovEnv}.
Context (d0 : dev) (s0 : sriov_state) (n : nat) (Hn : (1 <= n <= d_totalvfs d0)%nat).
Implicit Types s : sriov_state.

(** What holds all along: [s0] is the state once the references are taken. *)
Definition going s : Prop := base d0 (sr_dev s) /\ stays s0 s.

Lemma going_step g s s' :
  going s -> gt_frame g (sr_dev s) (sr_dev s') -> prov_inv g (sr_dev s') -> stays s s' -> going s'.
Proof. intros [Hb Hs] Hf I Hk. split; [by eapply base_step|by etransitivity]. Qed.

Lemma service_update_dev i : s_dev (snd (intel_iov_service_update i)) = s_dev i.
Proof.
  unfold intel_iov_service_update, pf_prepare_runtime_info, mbind, st_bind, gets. cbn.
  destruct (rt_size (s_runtime i) =? 0)%nat; [done|].
  assert (forall regs u, s_dev (snd (__uncore_read_many regs u)) = s_dev u) as Hr.
  { intros regs. induction regs as [|r regs IH]; intros u; [done|]. cbn. unfold mbind, st_bind.
    specialize (IH (with_reads (S (s_reads u)) u)). by destruct (__uncore_read_many _ _). }
  specialize (Hr (rt_regs (s_runtime i)) i). by destruct (__uncore_read_many _ _).
Qed.

Lemma verify_result g d : intel_iov_provisioning_verify g n d <= 0.
Proof. unfold intel_iov_provisioning_verify. destruct (foldl _ _ _). repeat case_match; done. Qed.

Lemma wp_service_update g (Q : unit -> sriov_state -> Prop) s :
  (forall s', stays s s' -> sr_dev s' = sr_dev s -> Q tt s') ->
  wp (atomically (on_iov g intel_iov_service_update)) Q s.
Proof.
  intros HQ. unfold wp, on_iov. cbn -[intel_iov_service_update]. unfold mbind, st_bind.
  pose proof (service_update_dev (the_iov g s)) as Hd.
  destruct (intel_iov_service_update _) as [[] i]. cbn in Hd |- *. apply HQ; [by constructor|done].
Qed.

(** On success a GT has what its VFs are let through with, else it was tried. *)
Lemma wp_provision g (Q : Z -> sriov_state -> Prop) s :
  g ∈ all_gts -> going s -> gview (sr_dev s) g = gview d0 g ->
  (forall e s', going s' -> gt_frame g (sr_dev s) (sr_dev s') -> e <= 0 ->
     (e = 0 -> given n d0 g (sr_dev s')) ->
     (e <> 0 -> tried d0 g (sr_dev s')) -> Q e s') ->
  wp (atomically (enable_provision (i915_sriov_pf_is_auto_provisioning_enabled d0) n g)) Q s.
Proof using Type*.
  intros Hg [Hb Hs] Hv HQ. apply wp_atomically_bind, wp_look.
  pose proof (verify_result g (sr_dev s)) as Hver. set (e0 := intel_iov_provisioning_verify _ _ _) in *.
  assert (forall e s1, going s1 -> gt_frame g (sr_dev s) (sr_dev s1) -> e <= 0 ->
     (e = 0 -> given n d0 g (sr_dev s1)) ->
     (e <> 0 -> tried d0 g (sr_dev s1)) ->
     wp (atomically (if negb (e =? 0) then mret e else on_iov g intel_iov_service_update ≫= fun _ => mret 0)) Q s1) as Hend.
  { intros e s1 Hgo Hf He Hok Hbad. destruct (Z.eqb_spec e 0) as [->|Hne]; cbn [negb]; [|by apply HQ].
    apply wp_atomically_bind, wp_service_update. intros s2 Hs2 Hd2.
    apply (HQ 0 s2); rewrite ?Hd2; [|done|done|auto|done].
    split; [rewrite Hd2; apply Hgo|by etransitivity; [apply Hgo|]]. }
  assert (going s /\ gt_frame g (sr_dev s) (sr_dev s)) as [Hgo Hrefl] by done.
  apply wp_atomically_bind. destruct (Z.eqb_spec e0 (- ENODATA)) as [He|He].
  2: { apply Hend; [done..| |by left]. intros He0. by apply verified. }
  pose proof (verified_bare n d0 g (sr_dev s) Hv He) as Hbare.
  unfold i915_sriov_pf_is_auto_provisioning_enabled. destruct (d_disable_auto d0) eqn:Hauto; cbn [negb].
  { apply Hend; [done..|intros _; right; by left|by left]. }
  apply wp_on_sdev. destruct (Hb) as [HI Ht Hnum Hst Hda].
  eapply wp_mono; [apply wp_and; [apply (wp_auto g n); [by apply HI|lia]|apply (gt_only_auto g n)]|].
  intros e d' [(I' & Hres) Hf]. cbv beta. apply Hend.
  - by apply (going_step g s); [|done|done|apply stays_dev].
  - done.
  - destruct Hres as [(-> & _)|(? & _)]; lia.
  - intros ->. destruct Hres as [(_ & _ & Hm & H1 & H2 & H3 & Hall)|(? & _)]; [|lia].
    left. split; [done|]. change (sr_dev (set_sr_dev d' s)) with d'. split_and!; [done|done|]. intros id Hid. destruct (Hall id Hid) as (-> & -> & Hgg).
    split_and!; [done|done|]. intros Hp. rewrite Hgg by done. auto.
  - intros Hne. destruct Hres as [(? & _)|(_ & _ & Hm & Hr & _)]; [done|]. right. split; [done|]. right.
    split; [done|]. apply Hr. left. congruence.
Qed.

(** A push records how many configurations GuC has. *)
Lemma wp_update_clients g m (Q : Z -> sriov_state -> Prop) s :
  g ∈ all_gts -> going s ->
  (forall e s', going s' -> gt_frame g (sr_dev s) (sr_dev s') -> gview (sr_dev s') g = gview (sr_dev s) g ->
     e <= 0 -> (e = 0 -> num_pushed (d_prov (sr_dev s') g) = m) -> Q e s') ->
  wp (atomically (pf_update_guc_clients g m)) Q s.
Proof using EnvLaws0.
  intros Hg Hgo HQ. apply wp_on_sdev, wp_push. intros e d' k He Hs Hk.
  assert (d_prov d' g = set_num_pushed k (d_prov (sr_dev s) g)) as Hp
    by (rewrite (same_prov _ _ Hs), prov_upd; by rewrite decide_True).
  assert (gt_frame g (sr_dev s) d') as Hf.
  { constructor; [intros g' Hg'|intros g'|by destruct Hs..]; rewrite (same_prov _ _ Hs), prov_upd; by case_decide. }
  apply HQ; [|done| |done|].
  - apply (going_step g s); [done|done| |apply stays_dev].
    eapply prov_inv_same; [exact Hs|]. apply prov_inv_prov; [done|]. by apply Hgo.
  - unfold gview. simpl. change (sr_dev (set_sr_dev d' s)) with d'. by rewrite Hp.
  - intros ->. change (sr_dev (set_sr_dev d' s)) with d'. rewrite Hp. auto.
Qed.

(** Apart from the references to power states. *)
Definition links_kept s s' : Prop :=
  sr_links s' = sr_links s /\ sr_kobjs s' = sr_kobjs s /\ sr_pdev_refs s' = sr_pdev_refs s.

Lemma wp_fail_pm err (Q : Z -> sriov_state -> Prop) s :
  going s -> (forall g, g ∈ all_gts -> tried d0 g (sr_dev s)) ->
  (forall s', base d0 (sr_dev s') -> links_kept s0 s' ->
     (forall g, g ∈ all_gts -> undone d0 g (sr_dev s') /\ sr_pm s' g = sr_pm s0 g - 1) -> Q err s') ->
  wp (atomically (enable_fail_pm err)) Q s.
Proof using Type*.
  intros [Hb Hs] Ht HQ. apply wp_atomically_bind.
  apply (wp_each _ _ (fun s => base d0 (sr_dev s) /\ links_kept s0 s)
    (fun g s => tried d0 g (sr_dev s) /\ sr_pm s g = sr_pm s0 g)
    (fun g s => undone d0 g (sr_dev s) /\ sr_pm s g = sr_pm s0 g - 1)); [done| | | |].
  - intros g s1 Hg [Hb1 Hk1] [Ht1 Hp1]. apply wp_atomically_bind, wp_on_sdev.
    assert (wp (intel_iov_provisioning_auto g 0) (fun _ d' => prov_inv g d' /\ undone d0 g d') (sr_dev s1)) as Hw.
    { apply (wp_bind (pf_auto_unprovision g)), wp_auto_unprovision; [by apply Hb1|].
      intros d' I' Ha Hr Hk. apply wp_ret. split; [done|]. eapply undo_view; [done..|apply Hb1|done]. }
    eapply wp_mono; [exact (wp_and _ _ _ _ Hw (gt_only_auto g 0 _))|]. intros e d' [[I' Hu] Hf]; cbv beta.
    assert (forall y, y <> g -> gview d' y = gview (sr_dev s1) y) as Hv by (intros; by eapply frame_view).
    assert (d_totalvfs d' = d_totalvfs (sr_dev s1)) as Htot by apply Hf.
    apply wp_change; cbn -[sr_dev]; change (sr_dev (add_pm g (-1) (set_sr_dev d' s1))) with d'.
    split_and!; [by eapply base_step|done|done|rewrite decide_True by done; lia|].
    intros y Hy; rewrite decide_False by done.
    split; intros [Hy1 Hy2]; (split; [|done]);
      [apply (tried_view _ _ (sr_dev s1))|apply (undone_view _ _ (sr_dev s1))]; auto.
  - split; [done|]. by destruct Hs.
  - intros g Hg. split; [by apply Ht|by apply Hs].
  - intros s' [Hb' Hk'] Hall. by apply HQ.
Qed.
End loops.

(** ** Links to the devices of VFs *)

Section links.
Context `{E : Env} `{R : RelayEnv} `{Sv : SaveEnv} `{V : SriovEnv}.
Implicit Types s : sriov_state.

(** All but the links and the counter of calls. *)
Record only_links s s' : Prop := {
  ol_pm g : sr_pm s' g = sr_pm s g;
  ol_vf : sr_vf s' = sr_vf s;
  ol_kobjs : sr_kobjs s' = sr_kobjs s;
  ol_refs : sr_pdev_refs s' = sr_pdev_refs s;
}.
#[export] Instance only_links_preorder : PreOrder only_links.
Proof. split; [by constructor|]. intros a b c [] []. constructor; intros; congruence. Qed.

Lemma wp_remove_links ns : forall (Q : unit -> sriov_state -> Prop) s,
  (forall s', only_links s s' -> (forall x, x ∈ sr_links s' <-> x ∈ sr_links s /\ x ∉ ns) -> Q tt s') ->
  wp (atomically (each ns sysfs_remove_link)) Q s.
Proof.
  induction ns as [|n ns IH]; intros Q s HQ.
  - apply HQ; [done|]. intros x. rewrite elem_of_nil. tauto.
  - cbn [each]. apply wp_atomically_bind, wp_change. apply IH. intros s' Ho Hl. apply HQ.
    + etransitivity; [|exact Ho]. by constructor.
    + intros x. rewrite Hl, not_elem_of_cons. cbn [sr_links set_links]. rewrite list_elem_of_filter. tauto.
Qed.

Lemma wp_create_link n (Q : Z -> sriov_state -> Prop) s :
  (forall s', only_links s s' -> sr_links s' = n :: sr_links s -> Q 0 s') ->
  (forall e s', e <> 0 -> e = link_result (sr_calls s) -> only_links s s' -> sr_links s' = sr_links s -> Q e s') ->
  wp (atomically (sysfs_create_link n)) Q s.
Proof.
  intros Hok Hbad. apply wp_atomically_bind, wp_call.
  set (e := link_result (sr_calls s)). assert (e = link_result (sr_calls s)) as Heq by done. clearbody e.
  apply wp_atomically_bind. destruct (Z.eqb_spec e 0) as [->|He]; [by apply Hok|by apply Hbad].
Qed.

(** The devices of the first [n] VFs are found and their links can be created. *)
Definition linkable (n : nat) : Prop :=
  (forall k id, (1 <= id <= n)%nat -> is_Some (vf_pdev k id)) /\ (forall k, link_result k = 0).

(** Either every VF gets its link, or none has one. *)
Lemma wp_add_links m : forall k (Q : Z -> sriov_state -> Prop) s,
  sr_links s = rev (seq 1 k) ->
  (forall e s', only_links s s' ->
     sr_links s' = rev (seq 1 (k + m)) \/ sr_links s' = [] /\ ~ linkable (k + m) -> Q e s') ->
  wp (atomically (add_links (seq (S k) m))) Q s.
Proof.
  induction m as [|m IH]; intros k Q s Hl HQ.
  { apply HQ; [done|left]. by rewrite Nat.add_0_r. }
  assert (forall e s1, ~ linkable (k + S m) -> only_links s s1 -> sr_links s1 = rev (seq 1 k) ->
    wp (atomically (links_failed (S k) e)) Q s1) as Hfail.
  { intros e s1 Hno Ho Hl1. apply wp_atomically_bind. replace (S k - 1)%nat with k by lia.
    apply wp_remove_links. intros s2 Ho2 Hl2. apply HQ; [by etransitivity|right]. split; [|done].
    apply elem_of_nil_inv. intros x. rewrite Hl2, Hl1, !list_elem_of_In, <- in_rev. tauto. }
  cbn [seq add_links]. apply wp_act. unfold wp at 1. cbn [fst snd].
  destruct (vf_pdev (sr_calls s) (S k)) as [other|] eqn:Hvf.
  2: { apply Hfail; [|by constructor|done]. intros [Hp _].
       destruct (Hp (sr_calls s) (S k) ltac:(lia)) as [? Hq]. congruence. }
  assert (forall s1 : sriov_state, only_links (count_call (add_refs 1 s)) s1 ->
    only_links s (add_refs (-1) s1)) as Hput.
  { intros s1 [H1 H2 H3 H4]. constructor; cbn; [done..|]. rewrite H4. cbn. lia. }
  apply wp_atomically_bind, wp_create_link.
  - intros s1 Ho1 Hl1. cbn [Z.eqb negb]. apply wp_atomically_bind, wp_change. apply IH.
    + cbn [sr_links add_refs]. rewrite Hl1, seq_S, rev_app_distr. cbn [sr_links count_call add_refs]. by rewrite Hl.
    + intros e s' Ho Hl'. apply HQ; [|by rewrite Nat.add_succ_r in *].
      etransitivity; [by apply Hput|done].
  - intros e s1 He Heq Ho1 Hl1. rewrite (proj2 (Z.eqb_neq e 0)) by done. cbn [negb].
    apply wp_atomically_bind, wp_change, Hfail; [|by apply Hput|cbn; by rewrite Hl1].
    intros [_ Hz]. rewrite Hz in Heq. done.
Qed.

Lemma wp_update_links_add (Q : unit -> sriov_state -> Prop) s :
  is_sriov_pf = true -> sr_links s = [] ->
  (forall s', only_links s s' -> sr_links s' = rev (seq 1 (d_numvfs (sr_dev s))) \/
     sr_links s' = [] /\ (sr_kobjs s = true -> ~ linkable (d_numvfs (sr_dev s))) -> Q tt s') ->
  wp (atomically (i915_sriov_sysfs_update_links true)) Q s.
Proof.
  intros Hpf Hl HQ. unfold i915_sriov_sysfs_update_links. rewrite Hpf. cbn [negb]. apply wp_atomically_bind.
  change (wp (atomically (if negb (sr_kobjs s) then mret 0 else add_links (seq 1 (d_numvfs (sr_dev s)))))
    (fun _ => wp (atomically (mret tt)) Q) s).
  destruct (sr_kobjs s) eqn:Hk; cbn [negb]; [|apply HQ; [done|right; split; [done|intros; congruence]]].
  apply (wp_add_links _ 0); [done|]. intros e s' Ho Hl'. apply HQ; [done|]. destruct Hl' as [|[??]]; auto.
Qed.
End links.

(** ** Properties *)

Section properties.
Context `{E : Env} `{!EnvLaws E} `{B : BitmapOps} `{!BitmapLaws B} `{R : RelayEnv} `{P : ServiceEnv}
  `{Sv : SaveEnv} `{V : SriovEnv}.
Implicit Types s : sriov_state.

(** The references to the power state of every GT, taken or given back. *)
Lemma wp_pm_all x (Q : unit -> sriov_state -> Prop) s :
  (forall s', sr_vf s' = sr_vf s -> links_kept s s' ->
     (forall g, g ∈ all_gts -> sr_pm s' g = sr_pm s g + x) -> Q tt s') ->
  wp (atomically (each all_gts (fun g => change (add_pm g x)))) Q s.
Proof.
  intros HQ. apply (wp_each _ _ (fun s' => sr_vf s' = sr_vf s /\ links_kept s s')
    (fun g s' => sr_pm s' g = sr_pm s g) (fun g s' => sr_pm s' g = sr_pm s g + x)); [done| |by split|done|].
  - intros g s1 _ Hs1 Hp. apply wp_change. cbn -[sr_vf]. split; [done|]. split; [rewrite decide_True by done; lia|].
    intros y Hy. by rewrite decide_False.
  - intros s' [Hd Hk] Hp. by apply HQ.
Qed.

(** What enabling [n] VFs leaves when it succeeds, and when it does not. *)
Record enabled (n : nat) (s s' : sriov_state) : Prop := {
  en_num : d_numvfs (sr_dev s') = n;
  en_links : sr_links s' = rev (seq 1 n) \/ sr_links s' = [] /\ (sr_kobjs s = true -> ~ linkable n);
  en_gts g : g ∈ all_gts -> sr_pm s' g = sr_pm s g + 1 /\ num_pushed (d_prov (sr_dev s') g) = n /\
    (given n (sr_dev s) g (sr_dev s'));
}.
Record not_enabled (s s' : sriov_state) : Prop := {
  ne_num : d_numvfs (sr_dev s') = d_numvfs (sr_dev s);
  ne_links : sr_links s' = [];
  ne_gts g : g ∈ all_gts -> sr_pm s' g = sr_pm s g /\ undone (sr_dev s) g (sr_dev s');
}.

Lemma wp_pci_enable n (Q : Z -> sriov_state -> Prop) s :
  (forall e, e < 0 -> Q e (count_call s)) ->
  (forall e, 0 <= e -> Q e (set_sr_dev (upd_sriov n (d_status (sr_dev s)) (d_disable_auto (sr_dev s)) (sr_dev s))
    (count_call s))) ->
  wp (atomically (pci_enable_sriov n)) Q s.
Proof.
  intros Hbad Hok. apply wp_atomically_bind, wp_call. generalize (enable_sriov_result (sr_calls s)). intros e.
  apply wp_atomically_bind. destruct (Z.ltb_spec e 0); [by apply Hbad|]. by apply wp_on_sdev, wp_modify, Hok.
Qed.

(** From the push of the configurations on; [s0] is the state once the references are taken. *)
Lemma wp_enable_push n s0 d0 (Q : Z -> sriov_state -> Prop) s :
  is_sriov_pf = true -> sr_links s0 = [] -> (1 <= n <= d_totalvfs d0)%nat -> going d0 s0 s ->
  (forall g, g ∈ all_gts -> given n d0 g (sr_dev s)) ->
  (forall s', base d0 (upd_sriov (d_numvfs d0) (d_status d0) (d_disable_auto d0) (sr_dev s')) ->
     sr_pdev_refs s' = sr_pdev_refs s0 -> d_numvfs (sr_dev s') = n ->
     sr_links s' = rev (seq 1 n) \/ sr_links s' = [] /\ (sr_kobjs s0 = true -> ~ linkable n) ->
     (forall g, g ∈ all_gts -> sr_pm s' g = sr_pm s0 g /\ num_pushed (d_prov (sr_dev s') g) = n /\
        (given n d0 g (sr_dev s'))) -> Q (Z.of_nat n) s') ->
  (forall err s', err < 0 -> base d0 (sr_dev s') -> links_kept s0 s' ->
     (forall g, g ∈ all_gts -> undone d0 g (sr_dev s') /\ sr_pm s' g = sr_pm s0 g - 1) -> Q err s') ->
  wp (atomically (err ← each_until (fun e => e <? 0) all_gts (fun g => pf_update_guc_clients g n);
    if err <? 0 then enable_fail_pm err else
    err ← pci_enable_sriov n;
    if err <? 0 then enable_fail_guc err else
    i915_sriov_sysfs_update_links true ≫= fun _ => mret (Z.of_nat n))) Q s.
Proof using Type*.
  intros Hpf Hl Hn Hgo Hv Hok Hbad.
  assert (forall g s1, given n d0 g (sr_dev s1) -> tried d0 g (sr_dev s1)) as Htried.
  { intros g s1. apply given_tried. }
  assert (forall g s1 s2, gview (sr_dev s2) g = gview (sr_dev s1) g ->
    given n d0 g (sr_dev s1) ->
    given n d0 g (sr_dev s2)) as Hsame.
  { intros g s1 s2. apply given_view. }
  apply wp_atomically_bind. set (ok := fun g s => given n d0 g (sr_dev s)) in *.
  apply (wp_each_until _ _ _ (going d0 s0) ok (fun g s => ok g s /\ num_pushed (d_prov (sr_dev s) g) = n)
    (fun g _ s => ok g s)); [done| |done|done|..].
  - intros g s1 Hg Hgo1 Hok1. apply (wp_update_clients d0 s0); [done|done|]. intros e s2 Hgo2 Hf Hv2 He Hnum.
    split; [done|]. split.
    + destruct (Z.ltb_spec e 0); [by eapply Hsame|]. split; [by eapply Hsame|]. apply Hnum. lia.
    + intros y Hy. pose proof (frame_view _ _ _ _ Hf Hy) as Hvy. rewrite (gf_prov _ _ _ Hf y Hy).
      split; [by apply Hsame|]. intros [H1 H2]. split; [by eapply Hsame|done].
  - intros s1 Hgo1 Hall. cbn [Z.ltb]. apply wp_atomically_bind.
    assert (going d0 s0 (count_call s1)) as Hgo2 by (destruct Hgo1 as [? []]; split; [done|by constructor]).
    apply wp_pci_enable; intros e He.
    + rewrite (proj2 (Z.ltb_lt e 0)) by done. apply wp_atomically_bind.
      apply (wp_each _ _ (going d0 s0) (fun g s => tried d0 g (sr_dev s)) (fun g s => tried d0 g (sr_dev s))); [done| |done| |].
      * intros g s3 Hg Hgo3 Ht3. apply wp_atomically_bind, (wp_update_clients d0 s0); [done|done|].
        intros e' s4 Hgo4 Hf4 Hv4 _ _. split; [done|].
        assert (d_totalvfs (sr_dev s4) = d_totalvfs (sr_dev s3)) as Ht4 by apply Hf4.
        split; [by apply (tried_view _ _ (sr_dev s3))|]. intros y Hy.
        pose proof (frame_view _ _ _ _ Hf4 Hy). split; intros; by apply (tried_view _ _ (sr_dev s3)).
      * intros g Hg. apply Htried. by apply Hall.
      * intros s3 Hgo3 Ht3. apply (wp_fail_pm d0 s0 n); auto.
    + rewrite (proj2 (Z.ltb_ge e 0)) by done. apply wp_atomically_bind, wp_update_links_add; [done| |].
      { destruct Hgo1 as [_ Hs]. cbn. by rewrite (st_links _ _ Hs). }
      intros s3 [Hp3 Hvf3 _ Hr3] Hl3. assert (sr_dev s3 = upd_sriov n (d_status (sr_dev s1))
        (d_disable_auto (sr_dev s1)) (sr_dev s1)) as Hd3 by (unfold sr_dev at 1; by rewrite Hvf3).
      destruct Hgo1 as [Hb1 Hs1]. apply (Hok s3).
      * rewrite Hd3. destruct Hb1 as [HI Ht Hnum Hst Hau]. constructor; try done. intros g Hg.
        by apply prov_inv_sriov, prov_inv_sriov, HI.
      * rewrite Hr3. cbn. apply Hs1.
      * by rewrite Hd3.
      * rewrite <- (st_kobjs _ _ Hs1). exact Hl3.
      * intros g Hg. rewrite Hp3, Hd3. destruct (Hall g Hg). split_and!; [apply Hs1|done|done].
  - intros g e s1 Hg He Hgo1 Hf Hrest. rewrite He. apply (wp_fail_pm d0 s0 n); [done|done| |].
    + intros y Hy. destruct (decide (y = g)) as [->|Hyg]; [by apply Htried|].
      destruct (Hrest y Hy Hyg) as [|[? _]]; by apply Htried.
    + intros. apply Hbad; try done. by apply Z.ltb_lt.
Qed.

(** The two outcomes, with the invariants. *)
Definition outcome (n : nat) s (ret : Z) (s' : sriov_state) : Prop :=
  (forall g, g ∈ all_gts -> prov_inv g (sr_dev s')) /\ sr_pdev_refs s' = sr_pdev_refs s /\
  (ret = Z.of_nat n /\ enabled n s s' \/ ret < 0 /\ not_enabled s s').

(** Once the references are taken, [s1], and the GSC engine is stopped. *)
Lemma wp_enable_rest n s s1 s2 :
  is_sriov_pf = true -> (forall g, g ∈ all_gts -> prov_inv g (sr_dev s)) ->
  (1 <= n <= d_totalvfs (sr_dev s))%nat -> sr_links s = [] ->
  links_kept s s1 -> (forall g, g ∈ all_gts -> sr_pm s1 g = sr_pm s g + 1) ->
  stays s1 s2 -> same_pf (sr_dev s) (sr_dev s2) ->
  wp (atomically
    (err ← each_until (fun e => negb (e =? 0)) all_gts
       (enable_provision (i915_sriov_pf_is_auto_provisioning_enabled (sr_dev s)) n);
     if negb (err =? 0) then enable_fail_pm err else
     err ← each_until (fun e => e <? 0) all_gts (fun g => pf_update_guc_clients g n);
     if err <? 0 then enable_fail_pm err else
     err ← pci_enable_sriov n;
     if err <? 0 then enable_fail_guc err else
     i915_sriov_sysfs_update_links true ≫= fun _ => mret (Z.of_nat n))) (outcome n s) s2.
Proof using Type*.
  intros Hpf Hinv Hn Hl (Hl1 & Hk1 & Hr1) Hp1 Hs2 Hd2.
  assert (going (sr_dev s) s1 s2) as Hgo.
  { split; [|done]. apply (base_same _ (sr_dev s)); [done|by constructor]. }
  assert (forall err s', err < 0 -> base (sr_dev s) (sr_dev s') -> links_kept s1 s' ->
    (forall g, g ∈ all_gts -> undone (sr_dev s) g (sr_dev s') /\ sr_pm s' g = sr_pm s1 g - 1) ->
    outcome n s err s') as Hbad.
  { intros err s' He [HI _ Hnum _ _] (Hl' & _ & Hr') Hall. split_and!; [done|congruence|right]. split; [done|].
    constructor; [done|congruence|]. intros g Hg. destruct (Hall g Hg) as [Hu ->]. split; [|done].
    rewrite Hp1 by done. lia. }
  apply wp_atomically_bind.
  apply (wp_each_until _ _ _ (going (sr_dev s) s1) (fun g s' => gview (sr_dev s') g = gview (sr_dev s) g)
    (fun g s' => given n (sr_dev s) g (sr_dev s'))
    (fun g e s' => e < 0 /\ tried (sr_dev s) g (sr_dev s'))); [done| |done|..].
  - intros g s3 Hg Hgo3 Hv3. apply (wp_provision _ s1); [done..|]. intros e s4 Hgo4 Hf He Hok Hno.
    split; [done|]. split.
    + destruct (Z.eqb_spec e 0) as [->|Hne]; cbn [negb]; [by apply Hok|]. split; [lia|by apply Hno].
    + intros y Hy. pose proof (frame_view _ _ _ _ Hf Hy) as Hvy. split; [congruence|].
      by apply given_view.
  - intros g Hg. unfold gview. by rewrite (same_prov _ _ Hd2).
  - intros s3 Hgo3 Hall. cbn [Z.eqb negb]. apply (wp_enable_push n s1 (sr_dev s)); try done; [congruence|].
    intros s' [HI _ _ _ _] Hr' Hnum Hl' Hg'. split_and!; [|congruence|left].
    + intros g Hg. specialize (HI g Hg). destruct HI as [[] [] []]. split; by constructor.
    + split; [done|]. constructor; [done|by rewrite <- Hk1|]. intros g Hg. destruct (Hg' g Hg) as (-> & Hrest). by rewrite Hp1.
  - intros g e s3 Hg He Hgo3 [Hneg Ht] Hrest. rewrite He.
    apply (wp_fail_pm (sr_dev s) s1 n); [done|done| |by intros; apply Hbad].
    intros y Hy. destruct (decide (y = g)) as [->|Hyg]; [done|].
    destruct (Hrest y Hy Hyg) as [?|?]; [by left|by eapply given_tried].
Qed.

End properties.

(** ** Samples *)

Section witnesses.
#[local] Existing Instance sample_env.
#[local] Existing Instance sample_relay_env.
#[local] Existing Instance sample_service_env.


(** When the PCI core refuses the VFs on a Meteor Lake, the GSC engine stays stopped: the last
    request about it disables it, and PXP is gone. *)
Theorem failed_enable_stops_gsc :
  let '(ret, s') := atomically (i915_sriov_pf_enable_vfs (V := sample_sriov_env (- ENOMEM)) 3) sample_sriov in
  ret = - ENOMEM /\ sr_pxp sample_sriov = true /\ sr_pxp s' = false /\
  filter (fun r => r.(req_msg).[0%nat | 0] = (set_engine_sched_msg GUC_GSC_OTHER_CLASS 0).[0%nat | 0])
    (d_log (sr_dev s')) =
  [{| req_gt := GT_MEDIA; req_msg := set_engine_sched_msg GUC_GSC_OTHER_CLASS 0; req_blob := [] |}].
Proof. vm_compute. by split_and!. Qed.
End witnesses.
