(* ===== verification/Power.v ===== *)
(** * The references to the power state

    Over every sequence of enabling, disabling, suspending and resuming, the GTs hold one
    reference to their power state for the VFs exactly while VFs are enabled and the system runs,
    less one for every resume of the GTs that failed while VFs were enabled. *)

From stdpp Require Import relations.
From S2P Require Export Enable.

Section tame.
Context `{E : Env} `{B : BitmapOps} `{R : RelayEnv} `{P : ServiceEnv} `{Sv : SaveEnv} `{V : SriovEnv}.
Implicit Types s : sriov_state.

(** ** What keeps the number of VFs and the references *)

Definition vf_num (s : vf_state) : nat := d_numvfs (v_dev s).
Definition pm_num (g : gt_id) s : Z * nat := (sr_pm s g, d_numvfs (sr_dev s)).

Lemma leaves_dev {A} (m : st dev A) :
  (forall d, d_numvfs (snd (m d)) = d_numvfs d) -> leaves vf_num (atom (on_v_dev m)).
Proof.
  intros Hm. apply leaves_atom. intros s. unfold on_v_dev. specialize (Hm (v_dev s)). by destruct (m (v_dev s)).
Qed.
Lemma leaves_control g v cmd : leaves vf_num (pf_control_vf g v cmd).
Proof. by apply leaves_atom. Qed.
Lemma leaves_on_vf g {A} (p : prog vf_state A) : leaves vf_num p -> leaves (pm_num g) (on_vf p).
Proof.
  apply leaves_zoom; [by intros []|done|done|]. intros x s Hx. unfold pm_num. f_equal. exact Hx.
Qed.
Lemma leaves_on_sdev g {A} (m : st dev A) :
  (forall d, d_numvfs (snd (m d)) = d_numvfs d) -> leaves (pm_num g) (on_sdev m).
Proof. intros Hm. by apply leaves_on_vf, leaves_dev. Qed.
Lemma leaves_call g {A} (f : nat -> A) : leaves (pm_num g) (call f).
Proof. by apply leaves_atom. Qed.
Lemma leaves_look g {A} (f : sriov_state -> A) : leaves (pm_num g) (look f).
Proof. apply leaves_gets. Qed.
Lemma leaves_change g f : (forall s, pm_num g (f s) = pm_num g s) -> leaves (pm_num g) (change f).
Proof. intros Hf. by apply leaves_atom. Qed.
Lemma leaves_on_iov g g' {A} (m : st iov_state A) :
  (forall i, s_dev (snd (m i)) = s_dev i) -> leaves (pm_num g) (on_iov g' m).
Proof.
  intros Hm. apply leaves_atom. intros s. unfold on_iov. specialize (Hm (the_iov g' s)).
  destruct (m (the_iov g' s)) as [a i]. unfold pm_num. cbn in *. by rewrite Hm.
Qed.
Lemma leaves_get_pdev g n : leaves (pm_num g) (get_vf_pdev n).
Proof. apply leaves_atom. intros s. cbn. by destruct (vf_pdev (sr_calls s) n). Qed.

Lemma gt_only_num g {A} (m : st dev A) d : gt_only g m -> d_numvfs (snd (m d)) = d_numvfs d.
Proof. intros Hm. apply (gf_num _ _ _ (Hm d)). Qed.
Lemma num_auto g n d : d_numvfs (snd (intel_iov_provisioning_auto g n d)) = d_numvfs d.
Proof. apply (gt_only_num g), gt_only_auto. Qed.
Lemma num_push g n d : d_numvfs (snd (intel_iov_provisioning_push g n d)) = d_numvfs d.
Proof. apply (gt_only_num g), gt_only_push. Qed.

Lemma hw_only_num {A} (m : st dev A) d : hw_only m -> d_numvfs (snd (m d)) = d_numvfs d.
Proof. intros Hm. apply (same_num _ _ (proj1 (Hm d))). Qed.
Lemma leaves_on_hw g {A} (m : st dev A) : hw_only m -> leaves (pm_num g) (on_sdev m).
Proof. intros Hm. apply leaves_on_sdev. intros d. by apply hw_only_num. Qed.
End tame.

#[export] Hint Resolve leaves_control leaves_call leaves_look leaves_get_pdev : leaves.
#[export] Hint Extern 1 (leaves _ (change _)) => (apply leaves_change; done) : leaves.
#[export] Hint Extern 1 (leaves _ (on_sdev (intel_iov_provisioning_auto _ _))) => (apply leaves_on_sdev, num_auto) : leaves.
#[export] Hint Extern 1 (leaves _ (on_sdev (intel_iov_provisioning_push _ _))) => (apply leaves_on_sdev, num_push) : leaves.
#[export] Hint Extern 1 (leaves _ (pf_update_guc_clients _ _)) => (apply leaves_on_sdev, num_push) : leaves.
#[export] Hint Extern 1 (leaves _ (on_iov _ intel_iov_service_update)) => (apply leaves_on_iov, service_update_dev) : leaves.

Section parts.
Context `{E : Env} `{B : BitmapOps} `{R : RelayEnv} `{P : ServiceEnv} `{Sv : SaveEnv} `{V : SriovEnv}.
Implicit Types s : sriov_state.

Lemma tame_gsc g : leaves (pm_num g) pf_disable_gsc_engine /\ leaves (pm_num g) pf_enable_gsc_engine.
Proof.
  unfold pf_disable_gsc_engine, pf_enable_gsc_engine, intel_guc_disable_gsc_engine, intel_guc_enable_gsc_engine,
    intel_pxp_init, intel_pxp_fini.
  split; leaves_auto; apply leaves_on_hw, hw_only_send.
Qed.

Lemma tame_links g b : leaves (pm_num g) (i915_sriov_sysfs_update_links b).
Proof.
  assert (forall ns, leaves (pm_num g) (add_links ns)) as Hadd.
  { intros ns. induction ns as [|n ns IH]; cbn [add_links];
      unfold links_failed, sysfs_create_link, sysfs_remove_link, pci_dev_put; leaves_auto. }
  unfold i915_sriov_sysfs_update_links, pf_add_vfs_device_links, pf_remove_vfs_device_links, sysfs_remove_link.
  leaves_auto.
Qed.

Lemma tame_provision g auto n g' : leaves (pm_num g) (enable_provision auto n g').
Proof. unfold enable_provision. leaves_auto. Qed.

Lemma tame_start_flr g g' n : leaves (pm_num g) (pf_start_vfs_flr g' n).
Proof.
  unfold pf_start_vfs_flr. leaves_auto. apply leaves_on_vf. unfold intel_iov_state_start_flr, pf_init_vf_flr,
    set_bit, pf_queue_worker. leaves_auto.
Qed.
Lemma tame_wait_flr g g' n ms : leaves (pm_num g) (pf_wait_vfs_flr g' n ms).
Proof.
  unfold pf_wait_vfs_flr. generalize (seq 1 n) as ns. generalize 0%nat as k. intros k ns. revert k ms.
  induction ns as [|v ns IH]; intros k ms; cbn [wait_flrs]; leaves_auto. apply leaves_on_vf.
  unfold intel_iov_state_no_flr, test_bit. leaves_auto.
Qed.
End parts.

(** ** The operations *)

Section ops.
Context `{E : Env} `{B : BitmapOps} `{R : RelayEnv} `{P : ServiceEnv} `{Sv : SaveEnv} `{V : SriovEnv}.
Context (g : gt_id) (Hg : g ∈ all_gts).
Implicit Types s : sriov_state.

(** The references and the number of VFs change from [a] as given. *)
Definition moved (a : Z * nat) (dp : Z) (n : nat) s : Prop := pm_num g s = (a.1 + dp, n).

Lemma tame_then {A C} (p : prog sriov_state A) (k : A -> prog sriov_state C) (Q : C -> sriov_state -> Prop) s :
  leaves (pm_num g) p -> (forall a s', pm_num g s' = pm_num g s -> wp (atomically (k a)) Q s') ->
  wp (atomically (p ≫= k)) Q s.
Proof. intros Hp Hk. apply wp_atomically_bind. by eapply leaves_wp. Qed.

Lemma pm_then {C} x (k : unit -> prog sriov_state C) (Q : C -> sriov_state -> Prop) s :
  (forall s', moved (pm_num g s) x (pm_num g s).2 s' -> wp (atomically (k tt)) Q s') ->
  wp (atomically (each all_gts (fun g => change (add_pm g x)) ≫= k)) Q s.
Proof using Hg.
  intros HQ. apply wp_atomically_bind, wp_pm_all. intros s' Hvf _ Hp. apply HQ. unfold moved, pm_num, sr_dev. cbn.
  by rewrite Hvf, Hp.
Qed.

Lemma fail_pm_moved err a s : pm_num g s = a ->
  wp (atomically (enable_fail_pm err)) (fun _ s' => moved a (-1) a.2 s') s.
Proof using Hg.
  intros Ha. apply wp_atomically_bind.
  apply (wp_each _ _ (fun _ => True) (fun g' s' => g' = g -> pm_num g s' = a)
    (fun g' s' => g' = g -> moved a (-1) a.2 s')); [done| |done|done|].
  - intros g' s1 _ _ Hb. apply wp_atomically_bind.
    eapply leaves_wp; [apply (leaves_on_sdev g), num_auto|]. intros e s2 H2. apply wp_change. split; [done|]. split.
    + intros ->. rewrite Hb in H2 by done. unfold moved, pm_num, sr_dev in *. cbn -[sr_pm] in *. cbn.
      rewrite decide_True by done. by rewrite <- H2.
    + intros y Hy. assert (y = g -> pm_num g (add_pm g' (-1) s2) = pm_num g s2) as Hk.
      { intros ->. unfold pm_num, sr_dev. cbn. by rewrite decide_False. }
      unfold moved. split; intros H -> ; rewrite Hk, H2; by auto.
  - intros s' _ Hall. by apply (Hall g).
Qed.

Lemma enable_moved n s :
  let s' := snd (atomically (i915_sriov_pf_enable_vfs n) s) in
  moved (pm_num g s) 1 n s' \/ pm_num g s' = pm_num g s.
Proof using Hg.
  set (a := pm_num g s).
  enough (wp (atomically (i915_sriov_pf_enable_vfs n)) (fun _ s' => moved a 1 n s' \/ pm_num g s' = a) s) as Hw by done.
  assert (forall err s1, moved a 1 a.2 s1 ->
    wp (atomically (enable_fail_pm err)) (fun _ s' => moved a 1 n s' \/ pm_num g s' = a) s1) as Hfail.
  { intros err s1 H1. eapply wp_mono; [by apply (fail_pm_moved _ (pm_num g s1))|]. intros e s2 H2. cbv beta in H2. right. unfold moved in *.
    rewrite H2, H1, (surjective_pairing a). cbn. f_equal. lia. }
  unfold i915_sriov_pf_enable_vfs. apply wp_atomically_bind, wp_look, wp_atomically_bind, wp_look.
  destruct (_ <? 0); [by right|]. apply pm_then. intros s1 H1. fold a in H1.
  apply tame_then; [destruct IS_METEORLAKE; leaves_auto; apply tame_gsc|]. intros _ s2 H2.
  apply tame_then; [leaves_auto; apply tame_provision|]. intros err s3 H3.
  destruct (negb (err =? 0)); [apply Hfail; unfold moved in *; congruence|].
  apply tame_then; [leaves_auto|]. clear err. intros err s4 H4.
  destruct (err <? 0); [apply Hfail; unfold moved in *; congruence|].
  apply wp_atomically_bind, wp_pci_enable; intros e He.
  - rewrite (proj2 (Z.ltb_lt e 0)) by done. apply tame_then; [leaves_auto|]. intros [] s5 H5.
    apply Hfail. unfold moved in *. rewrite H5. change (pm_num g (count_call s4)) with (pm_num g s4). congruence.
  - rewrite (proj2 (Z.ltb_ge e 0)) by done. apply tame_then; [apply tame_links|]. intros [] s5 H5. left.
    unfold moved in *. assert (pm_num g s4 = (a.1 + 1, a.2)) as H4' by congruence.
    change (pm_num g s5 = (a.1 + 1, n)). rewrite H5. unfold pm_num in *. cbn in *. congruence.
Qed.

Lemma disable_moved s :
  let s' := snd (atomically i915_sriov_pf_disable_vfs s) in
  moved (pm_num g s) (-1) 0 s' /\ (pm_num g s).2 <> 0%nat \/ pm_num g s' = pm_num g s.
Proof using Hg.
  set (a := pm_num g s).
  enough (wp (atomically i915_sriov_pf_disable_vfs)
    (fun _ s' => moved a (-1) 0 s' /\ a.2 <> 0%nat \/ pm_num g s' = a) s) as Hw by done.
  apply wp_atomically_bind, wp_look. apply tame_then; [leaves_auto|]. intros assigned s1 H1.
  destruct (negb _); [by right|]. destruct (Nat.eqb_spec (d_numvfs (sr_dev s)) 0) as [|Hn]; [by right|].
  apply tame_then; [apply tame_links|]. intros [] s2 H2.
  apply wp_atomically_bind, wp_on_sdev, wp_modify. set (s3 := set_sr_dev _ s2).
  assert (pm_num g s3 = (a.1, 0%nat)) as H3.
  { rewrite H1 in H2. injection H2 as H2 _. unfold pm_num. cbn. unfold a, pm_num. cbn. by rewrite <- H2. }
  apply tame_then; [apply leaves_each; intros; apply tame_start_flr|]. intros [] s4 H4.
  apply tame_then; [leaves_auto; apply tame_wait_flr|]. intros [] s5 H5.
  apply tame_then; [unfold disable_unprovision; leaves_auto; apply tame_wait_flr|]. intros [] s6 H6.
  apply tame_then; [destruct IS_METEORLAKE; leaves_auto; apply tame_gsc|]. intros [] s7 H7.
  apply pm_then. intros s8 H8. left. split; [|done]. unfold moved in *.
  change (pm_num g s8 = (a.1 + -1, 0%nat)). rewrite H8. rewrite H7, H6, H5, H4, H3. done.
Qed.
End ops.

(** ** Suspend and resume *)

Section suspend.
Context `{E : Env} `{B : BitmapOps} `{R : RelayEnv} `{P : ServiceEnv} `{Sv : SaveEnv} `{V : SriovEnv}.
Context (g : gt_id) (Hg : g ∈ all_gts).
Implicit Types s : sriov_state.

Lemma tame_pause g' v polls inferred : leaves (pm_num g) (on_vf (intel_iov_state_pause_vf_sync polls g' v inferred)).
Proof.
  apply leaves_on_vf. unfold intel_iov_state_pause_vf_sync, intel_iov_state_pause_vf, intel_iov_state_no_flr,
    intel_iov_state_no_pause, test_bit, set_bit, clear_bit, test_and_set_bit, get_paused.
  leaves_auto. induction polls as [|polls IH]; cbn [wait_for_paused]; unfold get_paused; leaves_auto.
Qed.
Lemma tame_resume_vf g' v : leaves (pm_num g) (on_vf (intel_iov_state_resume_vf g' v)).
Proof. apply leaves_on_vf. unfold intel_iov_state_resume_vf, put_paused. leaves_auto. Qed.
Lemma tame_needs v : leaves (pm_num g) (needs_save_restore v).
Proof. unfold needs_save_restore, pci_dev_put. leaves_auto. Qed.
#[local] Hint Resolve tame_pause tame_resume_vf tame_needs : leaves.

Lemma tame_save_vfs one vs k : (forall g' v, leaves (pm_num g) (one g' v)) -> leaves (pm_num g) (save_vfs one vs k).
Proof.
  intros Hone. revert k. induction vs as [|v vs IH]; intros k; cbn [save_vfs]; leaves_auto.
Qed.

Lemma tame_save_guc g' v : leaves (pm_num g) (pf_gt_save_vf_guc_state g' v).
Proof.
  assert (forall sz, leaves (pm_num g) (kzalloc sz)) as Hk.
  { intros sz. unfold kzalloc. leaves_auto. }
  assert (forall b sz, leaves (pm_num g) (on_sdev (intel_iov_state_save_vf g' v b sz))) as Hs.
  { intros b sz. apply leaves_on_hw. unfold intel_iov_state_save_vf, pf_save_vf, guc_action_save_restore_vf. hw_auto. }
  assert (leaves (pm_num g) (on_sdev (intel_iov_state_save_vf_size g' v))) as Hz by (by apply leaves_on_sdev).
  unfold pf_gt_save_vf_guc_state. leaves_auto.
Qed.
Lemma tame_restore_guc g' v : leaves (pm_num g) (pf_gt_restore_vf_guc_state g' v).
Proof.
  assert (forall b sz, leaves (pm_num g) (on_sdev (intel_iov_state_restore_vf g' v b sz))) as Hs.
  { intros b sz. apply leaves_on_hw. unfold intel_iov_state_restore_vf, pf_restore_vf, guc_action_save_restore_vf.
    hw_auto. }
  unfold pf_gt_restore_vf_guc_state. leaves_auto.
Qed.
#[local] Hint Resolve tame_save_guc tame_restore_guc : leaves.

Lemma tame_suspend : leaves (pm_num g) pf_suspend_active_vfs.
Proof.
  unfold pf_suspend_active_vfs, pf_save_vfs_running, pf_save_vfs_guc_state, pf_gt_save_vf_running.
  leaves_auto; apply tame_save_vfs; intros; leaves_auto.
Qed.
Lemma tame_resume : leaves (pm_num g) pf_resume_active_vfs.
Proof.
  assert (forall vs k, leaves (pm_num g) (restore_running vs k)) as Hr.
  { intros vs. induction vs as [|v vs IH]; intros k; cbn [restore_running]; unfold pf_gt_restore_vf_running;
      leaves_auto. }
  unfold pf_resume_active_vfs, pf_restore_vfs_pci_state, restore_vf_pci_state, pf_restore_vfs_guc_state,
    pf_restore_vfs_irqs, pf_restore_vfs_running, pci_dev_put.
  leaves_auto. apply tame_save_vfs. intros; leaves_auto.
Qed.

Lemma tame_gt_resume g' : leaves (pm_num g) (intel_gt_resume g').
Proof.
  assert (leaves (pm_num g) (on_sdev (intel_iov_provisioning_restart g'))) as Hrestart.
  { apply leaves_on_sdev. intros d. apply (gt_only_num g'). unfold intel_iov_provisioning_restart,
      pf_start_reprovisioning_worker. gt_auto. }
  assert (leaves (pm_num g) (on_vf (intel_iov_state_reset g'))) as Hreset.
  { apply leaves_on_vf. unfold intel_iov_state_reset, pf_reset_vf_state, put_paused. leaves_auto. }
  unfold intel_gt_resume, pf_init_hw, pf_enable_ggtt_guest_update. leaves_auto.
Qed.

Lemma put_vfs_moved n x (Q : unit -> sriov_state -> Prop) s :
  (forall s', pm_num g s' = (if (n =? 0)%nat then pm_num g s else ((pm_num g s).1 + x, (pm_num g s).2)) -> Q tt s') ->
  wp (atomically (put_vfs_pm n (fun g => change (add_pm g x)))) Q s.
Proof using Hg.
  intros HQ. unfold put_vfs_pm. destruct (n =? 0)%nat; cbn [negb]; [by apply HQ|].
  apply wp_pm_all. intros s' Hvf _ Hp. apply HQ. unfold pm_num, sr_dev. cbn. by rewrite Hvf, Hp.
Qed.

(** What a reference that goes with the VFs does. *)
Definition with_vfs (x : Z) (a : Z * nat) : Z * nat := if (a.2 =? 0)%nat then a else (a.1 + x, a.2).

Lemma suspend_moved s :
  is_sriov_pf = true -> pm_num g (snd (atomically i915_gem_suspend s)) = with_vfs (-1) (pm_num g s).
Proof using Hg.
  intros Hpf. enough (wp (atomically i915_gem_suspend) (fun _ s' => pm_num g s' = with_vfs (-1) (pm_num g s)) s) by done.
  unfold i915_gem_suspend, i915_sriov_suspend_prepare. rewrite Hpf.
  do 2 apply wp_atomically_bind. apply wp_atomically_bind, wp_look, wp_atomically_bind, put_vfs_moved.
  intros s1 H1. eapply leaves_wp; [apply tame_suspend|]. intros [] s2 H2. unfold with_vfs.
  change (pm_num g s2 = if ((pm_num g s).2 =? 0)%nat then pm_num g s else ((pm_num g s).1 + -1, (pm_num g s).2)).
  by rewrite H2, H1.
Qed.

(** Whether all GTs come back. *)
Definition gts_resume s : bool :=
  fst (atomically (each_until (fun e => negb (e =? 0)) all_gts intel_gt_resume) s) =? 0.

Lemma resume_moved s :
  is_sriov_pf = true ->
  pm_num g (snd (atomically i915_gem_resume s)) =
    (if gts_resume s then with_vfs 1 (pm_num g s) else pm_num g s).
Proof using Hg.
  intros Hpf. unfold i915_gem_resume, gts_resume. rewrite atomically_bind. unfold mbind at 1, st_bind.
  assert (leaves (pm_num g) (each_until (fun e => negb (e =? 0)) all_gts intel_gt_resume)) as Hl
    by (apply leaves_until; intros; apply tame_gt_resume).
  specialize (Hl s). destruct (atomically (each_until _ _ _) s) as [e s1]. cbn [fst snd] in *.
  destruct (Z.eqb_spec e 0) as [->|He]; cbn [negb]; [|exact Hl].
  unfold i915_sriov_resume. rewrite Hpf.
  enough (wp (atomically ((pf_resume_active_vfs ≫= fun _ => num_vfs ← look (fun s => d_numvfs (sr_dev s));
    put_vfs_pm num_vfs intel_gt_pm_get) ≫= fun _ => mret 0 : prog sriov_state Z))
    (fun _ s' => pm_num g s' = with_vfs 1 (pm_num g s)) s1) as Hw.
  { rewrite atomically_bind. unfold mbind at 1, st_bind. revert Hw. unfold wp. by destruct (atomically _ s1). }
  apply wp_atomically_bind, wp_atomically_bind. eapply leaves_wp; [apply tame_resume|]. intros [] s2 H2.
  apply wp_atomically_bind, wp_look, put_vfs_moved. intros s3 H3.
  change (pm_num g s3 = with_vfs 1 (pm_num g s)). rewrite H3, H2, Hl. unfold with_vfs.
  assert (d_numvfs (sr_dev s2) = (pm_num g s).2) as -> by (rewrite <- Hl, <- H2; done). done.
Qed.
End suspend.

(** ** Sequences of operations *)

Section runs.
Context `{E : Env} `{B : BitmapOps} `{R : RelayEnv} `{P : ServiceEnv} `{Sv : SaveEnv} `{V : SriovEnv}.
Implicit Types s : sriov_state.

(** Whether the system is suspended, how many resumes failed while VFs were enabled, the state. *)
Record pm_run := PmRun { pr_suspended : bool; pr_lost : Z; pr_state : sriov_state }.

(** The PCI core asks for VFs when there are none and for none when there are some; while the
    system is suspended it asks for nothing. Between the operations the rest of the driver runs,
    which neither changes the number of VFs nor holds these references. *)
Inductive sr_step : pm_run -> pm_run -> Prop :=
| StepEnable n k s : (0 < n)%nat -> d_numvfs (sr_dev s) = 0%nat ->
    sr_step (PmRun false k s) (PmRun false k (snd (atomically (i915_pci_sriov_configure n) s)))
| StepDisable k s : d_numvfs (sr_dev s) <> 0%nat ->
    sr_step (PmRun false k s) (PmRun false k (snd (atomically (i915_pci_sriov_configure 0) s)))
| StepRemove k s : sr_step (PmRun false k s) (PmRun false k (snd (atomically pci_remove_vfs s)))
| StepSuspend k s : sr_step (PmRun false k s) (PmRun true k (snd (atomically i915_gem_suspend s)))
| StepResume k s :
    let lost := if gts_resume s || (d_numvfs (sr_dev s) =? 0)%nat then 0 else 1 in
    sr_step (PmRun true k s) (PmRun false (k + lost) (snd (atomically i915_gem_resume s)))
| StepOther b k s s' : (forall g, pm_num g s' = pm_num g s) -> sr_step (PmRun b k s) (PmRun b k s').

Definition held (suspended : bool) (n : nat) : Z := if suspended || (n =? 0)%nat then 0 else 1.

(** C6: the references to the power state balance. In every sequence of enabling, disabling,
    removing, suspending and resuming, starting without VFs and whatever fails in between, each GT
    holds exactly one reference more than at the start while VFs are enabled and the system is not
    suspended, and none more otherwise, less exactly one for each resume in which a GT did not
    come back while VFs were enabled: that reference is never taken again. *)
Theorem pm_balanced g s0 b lost s :
  is_sriov_pf = true -> g ∈ all_gts -> d_numvfs (sr_dev s0) = 0%nat ->
  rtc sr_step (PmRun false 0 s0) (PmRun b lost s) ->
  sr_pm s g = sr_pm s0 g + held b (d_numvfs (sr_dev s)) - lost.
Proof.
  intros Hpf Hg H0 Hrun.
  enough (forall x y, rtc sr_step x y ->
    sr_pm (pr_state x) g = sr_pm s0 g + held (pr_suspended x) (d_numvfs (sr_dev (pr_state x))) - pr_lost x ->
    sr_pm (pr_state y) g = sr_pm s0 g + held (pr_suspended y) (d_numvfs (sr_dev (pr_state y))) - pr_lost y) as H.
  { apply (H (PmRun false 0 s0) (PmRun b lost s) Hrun). cbn. rewrite H0. unfold held. cbn. lia. }
  clear Hrun. induction 1 as [x|x y z Hst _ IH]; [done|]. intros Hx. apply IH. clear IH. unfold held in *.
  destruct Hst as [n k s1 Hn Hv|k s1 Hv|k s1|k s1|k s1 l|b1 k s1 s2 Ho]; cbn [pr_state pr_suspended pr_lost] in *.
  - unfold i915_pci_sriov_configure. rewrite Hpf, (proj2 (Nat.ltb_lt 0 n)) by done. cbn [negb].
    pose proof (enable_moved g Hg n s1) as Hm. cbv zeta in Hm. set (s2 := snd _) in *. clearbody s2.
    destruct Hm as [Hm|Hm]; apply pair_eq in Hm as [Hp Hm]; cbn [fst snd pm_num] in Hp; rewrite Hp, Hm, Hv in *;
      cbn in *; [|lia]. rewrite (proj2 (Nat.eqb_neq n 0)) by lia. lia.
  - unfold i915_pci_sriov_configure. rewrite Hpf. cbn [negb Nat.ltb Nat.leb].
    pose proof (disable_moved g Hg s1) as Hm. cbv zeta in Hm. set (s2 := snd _) in *. clearbody s2.
    destruct Hm as [[Hm _]|Hm]; apply pair_eq in Hm as [Hp Hm]; cbn [fst snd pm_num] in Hp; rewrite Hp, Hm;
      rewrite (proj2 (Nat.eqb_neq _ 0)) in * by done; cbn in *; lia.
  - assert (snd (atomically pci_remove_vfs s1) = snd (atomically i915_sriov_pf_disable_vfs s1)) as ->.
    { unfold pci_remove_vfs. rewrite Hpf, atomically_bind. unfold mbind, st_bind. by destruct (atomically _ s1). }
    pose proof (disable_moved g Hg s1) as Hm. cbv zeta in Hm. set (s2 := snd _) in *. clearbody s2.
    destruct Hm as [[Hm Hn]|Hm]; apply pair_eq in Hm as [Hp Hm]; cbn [fst snd pm_num] in *; rewrite Hp, Hm; [|lia].
    rewrite (proj2 (Nat.eqb_neq _ 0)) in Hx by done. cbn in *. lia.
  - pose proof (suspend_moved g Hg s1 Hpf) as Hm. set (s2 := snd _) in *. clearbody s2. unfold with_vfs in Hm.
    cbn [pm_num snd fst] in Hm. destruct (d_numvfs (sr_dev s1) =? 0)%nat eqn:Hz; injection Hm as Hp Hm; cbn in *; lia.
  - pose proof (resume_moved g Hg s1 Hpf) as Hm. set (s2 := snd _) in *. clearbody s2.
    subst l. unfold with_vfs in Hm. cbn [pm_num snd fst] in Hm.
    destruct (gts_resume s1), (d_numvfs (sr_dev s1) =? 0)%nat eqn:Hz; injection Hm as Hp Hm;
      rewrite Hp, Hm, Hz; cbn in *; lia.
  - specialize (Ho g). injection Ho as Hp Hm. by rewrite Hp, Hm.
Qed.
End runs.

(** ** Samples *)

Section samples.
#[local] Existing Instance sample_env.
#[local] Existing Instance sample_relay_env.
#[local] Existing Instance sample_service_env.

(** The sample device, whose GTs do not come back from their second call on, in which VFs are
    enabled, the system suspended and resumed and the VFs disabled. *)
Definition sample_lost_env : SriovEnv := {|
  HAS_SRIOV := true; vf_cap := Some 0; dev_is_pf := true; max_vfs := 4;
  pci_resource_flags _ := 0x200; pci_resource_len _ := 4096; has_lmem := false;
  set_totalvfs_result _ := 0; gt_wedged _ := false; IS_METEORLAKE := false;
  has_gsc _ := false; gsc_idle _ := true; gsc_reset _ := 0;
  pxp_result _ := 0; enable_sriov_result _ := 0; vfs_assigned _ := 0;
  vf_pdev := fun _ n => Some false; link_result _ := 0; guc_v2 _ := true; uses_guc_submission _ := true;
  gt_hw_result _ := - EIO; gt_engines_result _ := 0; wait_polls _ := 3%nat |}.

Lemma pm_balanced_witness :
  let s1 := snd (atomically (i915_pci_sriov_configure (V := sample_lost_env) 2) sample_sriov) in
  let s2 := snd (atomically (i915_gem_suspend (V := sample_lost_env)) s1) in
  let s3 := snd (atomically (i915_gem_resume (V := sample_lost_env)) s2) in
  sr_pm s1 GT_MEDIA = 1 /\ sr_pm s2 GT_MEDIA = 0 /\ sr_pm s3 GT_MEDIA = 0.
Proof.
  intros s1 s2 s3.
  assert (forall b k s, rtc (sr_step (V := sample_lost_env)) (PmRun false 0 sample_sriov) (PmRun b k s) ->
    sr_pm s GT_MEDIA = 0 + held b (d_numvfs (sr_dev s)) - k) as H.
  { intros b k s Hr. apply (pm_balanced (V := sample_lost_env) GT_MEDIA sample_sriov b k s); try done.
    apply list_elem_of_further, list_elem_of_here. }
  assert (sr_step (V := sample_lost_env) (PmRun false 0 sample_sriov) (PmRun false 0 s1)) as Hs1
    by (apply StepEnable; [lia|done]).
  assert (sr_step (V := sample_lost_env) (PmRun false 0 s1) (PmRun true 0 s2)) as Hs2 by apply StepSuspend.
  assert (sr_step (V := sample_lost_env) (PmRun true 0 s2) (PmRun false 1 s3)) as Hs3.
  { pose proof (StepResume (V := sample_lost_env) 0 s2) as Hr. cbv zeta in Hr.
    assert (gts_resume (V := sample_lost_env) s2 || (d_numvfs (sr_dev s2) =? 0)%nat = false) as Hl by (by vm_compute).
    rewrite Hl in Hr. exact Hr. }
  split_and!.
  - rewrite (H false 0 s1) by (by apply rtc_once). by vm_compute.
  - rewrite (H true 0 s2) by (eapply rtc_l; [exact Hs1|]; by apply rtc_once). by vm_compute.
  - rewrite (H false 1 s3); [by vm_compute|]. eapply rtc_l; [exact Hs1|]. eapply rtc_l; [exact Hs2|]. by apply rtc_once.
Defined.

(** A GT that fails to resume ends [i915_gem_resume] before the SR-IOV layer takes its references
    back: disabling the VFs afterwards gives back references that are not held. *)
Theorem failed_resume_unbalances :
  let run {A} (p : prog sriov_state A) s := snd (atomically p s) in
  let s1 := run (i915_pci_sriov_configure (V := sample_lost_env) 2) sample_sriov in
  let s2 := run (i915_gem_suspend (V := sample_lost_env)) s1 in
  let s3 := run (i915_gem_resume (V := sample_lost_env)) s2 in
  let s4 := run (i915_pci_sriov_configure (V := sample_lost_env) 0) s3 in
  sr_pm s1 GT_PRIMARY = 1 /\ sr_pm s3 GT_PRIMARY = 0 /\ d_numvfs (sr_dev s3) = 2%nat /\
  sr_pm s4 GT_PRIMARY = -1.
Proof. vm_compute. by split_and!. Qed.
End samples.
