(* ===== verification/Disable.v ===== *)
(** * Disabling VFs while resets run

    [i915_sriov_pf_disable_vfs] resets every VF and waits for the end of the resets, which the
    worker of each GT and the notifications of GuC bring about between its steps. The theorem is
    about its program among these threads. *)

From stdpp Require Import relations.
From S2P Require Export Enable Power.

Section disable.
Context `{E : Env} `{B : BitmapOps} `{R : RelayEnv} `{P : ServiceEnv} `{Sv : SaveEnv} `{V : SriovEnv}.
Context (n : nat) (g0 : gt_id) (v0 : nat).
Implicit Types s : sriov_state.

(** VF [v] is not being reset on [g]. *)
Definition no_flr (g : gt_id) (v : nat) s : Prop := vf_bit (sr_vf s) g v IOV_VF_FLR_IN_PROGRESS = false.

(** The other threads start no new reset of this VF on this GT. *)
Definition no_new_flr s s' : Prop := no_flr g0 v0 s -> no_flr g0 v0 s'.
#[export] Instance no_new_flr_preorder : PreOrder no_new_flr.
Proof. split; [by intros s H|]. intros a b c H1 H2 Hc. by apply H2, H1. Qed.

(** The provisioning of the GT changes only while the VF is not being reset on it. *)
Definition after_resets s s' : Prop := d_prov (sr_dev s') g0 = d_prov (sr_dev s) g0 \/ no_flr g0 v0 s.

(** Nobody else changes the number of VFs. *)
Definition own_vfs s : Prop := d_numvfs (sr_dev s) = n \/ d_numvfs (sr_dev s) = 0%nat.

#[local] Abbreviation safely := (safe own_vfs no_new_flr after_resets).

(** Actions that change neither the provisioning nor the number of VFs. *)
Definition same_vfs (d d' : dev) : Prop := d_numvfs d' = d_numvfs d /\ forall g, d_prov d' g = d_prov d g.
Definition keeps_prov {A} (m : st sriov_state A) : Prop :=
  forall s, same_vfs (sr_dev s) (sr_dev (snd (m s))).

Lemma own_vfs_same s s' : d_numvfs (sr_dev s') = d_numvfs (sr_dev s) -> own_vfs s -> own_vfs s'.
Proof. unfold own_vfs. by intros ->. Qed.

Lemma safe_keeps {A} (p : prog sriov_state A) s : all_acts (@keeps_prov) p -> safely p (fun _ _ => True) s.
Proof.
  intros Hp. apply (safe_all_acts (@keeps_prov) _ no_new_flr after_resets (fun _ => True)); try done.
  intros A0 m s0 Hm HI _. destruct (Hm s0) as [Hn Hpr]. split; [by left|]. split; [|done].
  by apply (own_vfs_same s0).
Qed.

Lemma safely_then {A C} (p : prog sriov_state A) (k : A -> prog sriov_state C) Q s :
  own_vfs s -> all_acts (@keeps_prov) p -> (forall a s, own_vfs s -> safely (k a) Q s) -> safely (p ≫= k) Q s.
Proof. intros HI Hp Hk. eapply safe_seq; [apply _|by apply safe_keeps|by intros; apply Hk|done]. Qed.

Lemma keeps_on_vf {A} (p : prog vf_state A) :
  all_acts (fun A (m : st vf_state A) => forall u, same_vfs (v_dev u) (v_dev (snd (m u)))) p ->
  all_acts (@keeps_prov) (on_vf p).
Proof.
  induction p as [a|C m k IH]; [done|]. intros [Hm Hk]. split; [|by intros b; apply IH].
  intros s. specialize (Hm (sr_vf s)). by destruct (m (sr_vf s)).
Qed.
Lemma keeps_hw {A} (m : st dev A) : hw_only m -> all_acts (@keeps_prov) (on_sdev m).
Proof.
  intros Hm. apply keeps_on_vf, all_acts_atom. intros s. pose proof (Hm (v_dev s)) as [Hs _].
  unfold on_v_dev. destruct (m (v_dev s)). split; [apply (same_num _ _ Hs)|apply (same_prov _ _ Hs)].
Qed.

(** *** Waiting for the resets *)

(** Looks of which only [L] is asked that the others keep. *)
Lemma safe_wait_flr g v polls (L : sriov_state -> Prop) (Q : bool -> sriov_state -> Prop) s :
  (forall s s', no_new_flr s s' -> L s -> L s') -> L s ->
  (forall b s', own_vfs s' -> L s' -> (b = true -> g = g0 -> v = v0 -> no_flr g0 v0 s') -> Q b s') ->
  safely (wait_for (on_vf (intel_iov_state_no_flr g v)) polls) Q s.
Proof.
  intros HL HLs HQ. revert s HLs. induction polls as [|polls IH]; intros s HLs; cbn [wait_for].
  all: intros s1 HR HI; cbn -[wait_for vf_bit]; assert (set_sr_vf (sr_vf s1) s1 = s1) as -> by (by destruct s1); split; [by left|]; split; [done|].
  all: assert (L s1) as HL1 by (by eapply HL).
  all: destruct (vf_bit (sr_vf s1) g v IOV_VF_FLR_IN_PROGRESS) eqn:Hb; cbn [negb].
  - intros s2 HR2 HI2. apply HQ; [done|by eapply HL|done].
  - intros s2 HR2 HI2. apply HQ; [done|by eapply HL|]. intros _ -> ->. by apply HR2.
  - by apply IH.
  - intros s2 HR2 HI2. apply HQ; [done|by eapply HL|]. intros _ -> ->. by apply HR2.
Qed.

(** When no wait timed out, the VF is not being reset if it was among those waited for. *)
Lemma safe_wait_flrs g ns : forall seen ms k (Q : nat -> sriov_state -> Prop) s,
  own_vfs s -> (k = 0%nat -> g = g0 -> v0 ∈ seen -> no_flr g0 v0 s) ->
  (forall m s', own_vfs s' -> (k <= m)%nat -> (m = 0%nat -> g = g0 -> v0 ∈ ns ++ seen -> no_flr g0 v0 s') -> Q m s') ->
  safely (wait_flrs g ns ms k) Q s.
Proof.
  induction ns as [|v ns IH]; intros seen ms k Q s HI Hseen HQ; cbn [wait_flrs].
  { apply safe_ret. intros s' HR HI'. apply HQ; [done|done|]. intros ? ? ?. apply HR; auto. }
  assert (forall x, x ∈ ns ++ v :: seen <-> x ∈ (v :: ns) ++ seen) as Hperm.
  { intros x. rewrite !elem_of_app, !elem_of_cons. tauto. }
  apply safe_bind; [apply _|done|].
  apply (safe_wait_flr g v _ (fun s => k = 0%nat -> g = g0 -> v0 ∈ seen -> no_flr g0 v0 s)); [|done|].
  { intros s1 s2 HR H1 Hk Hg Hx. by apply HR, H1. }
  intros b s1 HI1 H1 Hb. destruct b; cbn [negb]; apply (IH (v :: seen)); try done.
  - intros Hk Hg Hx. apply elem_of_cons in Hx as [Hx|Hx]; auto.
  - intros m s' HI' Hm Hall. apply HQ; [done|done|]. intros ? ? Hx%Hperm. auto.
  - intros m s' HI' Hm Hall. apply HQ; [done|lia|]. intros ? ? Hx%Hperm. auto.
Qed.

(** *** The rest changes no provisioning *)

Lemma keeps_each_until {A} bad (l : list A) (f : A -> prog sriov_state Z) :
  (forall x, all_acts (@keeps_prov) (f x)) -> all_acts (@keeps_prov) (each_until bad l f).
Proof.
  intros Hf. induction l as [|x l IH]; [done|]. cbn [each_until]. apply all_acts_bind; [apply Hf|].
  intros e. by destruct (bad e).
Qed.
Lemma keeps_atom {A} (m : st sriov_state A) : keeps_prov m -> all_acts (@keeps_prov) (atom m).
Proof. by apply all_acts_atom. Qed.
Lemma keeps_call {A} (f : nat -> A) : all_acts (@keeps_prov) (call f).
Proof. by apply all_acts_atom. Qed.
Lemma keeps_look {A} (f : sriov_state -> A) : all_acts (@keeps_prov) (look f).
Proof. by apply all_acts_atom. Qed.
Lemma keeps_change f : (forall s, same_vfs (sr_dev s) (sr_dev (f s))) -> all_acts (@keeps_prov) (change f).
Proof. intros Hf. by apply all_acts_atom. Qed.
Lemma keeps_pdev v : all_acts (@keeps_prov) (get_vf_pdev v).
Proof. apply all_acts_atom. intros s. cbn. by destruct (vf_pdev _ _). Qed.

Ltac keeps_auto :=
  repeat first
    [ done
    | apply keeps_call | apply keeps_look | apply keeps_pdev
    | apply all_acts_bind; [|intros ?]
    | apply all_acts_if
    | apply all_acts_each; intros ?
    | apply keeps_each_until; intros ?
    | solve [apply keeps_change; done]
    | match goal with |- all_acts _ (match ?x with _ => _ end) => destruct x end ].

Lemma acts_links b : all_acts (@keeps_prov) (i915_sriov_sysfs_update_links b).
Proof.
  assert (forall ns, all_acts (@keeps_prov) (add_links ns)) as Hadd.
  { intros ns. induction ns as [|m ns IH]; cbn [add_links];
      unfold links_failed, sysfs_create_link, sysfs_remove_link, pci_dev_put; keeps_auto. }
  unfold i915_sriov_sysfs_update_links, pf_add_vfs_device_links, pf_remove_vfs_device_links, sysfs_remove_link.
  keeps_auto.
Qed.

Lemma acts_start_flr g m : all_acts (@keeps_prov) (pf_start_vfs_flr g m).
Proof.
  unfold pf_start_vfs_flr. keeps_auto. apply keeps_on_vf. unfold intel_iov_state_start_flr, pf_init_vf_flr,
    set_bit, pf_queue_worker. repeat first [apply all_acts_bind; [|intros ?] | apply all_acts_if | done
    | apply all_acts_atom; done ].
Qed.

Lemma acts_gsc : all_acts (@keeps_prov) pf_enable_gsc_engine.
Proof.
  unfold pf_enable_gsc_engine, intel_guc_enable_gsc_engine, intel_pxp_init.
  keeps_auto.
Qed.

(** *** Unprovisioning *)

(** An action on the device of one GT, at a state in which the VF is not reset on that GT. *)
Lemma safe_gt {A} g (m : st dev A) s :
  gt_only g m -> (g = g0 -> no_flr g0 v0 s) -> safely (on_sdev m) (fun _ s' => g = g0 -> no_flr g0 v0 s') s.
Proof.
  intros Hm HLs s1 HR HI. cbn. pose proof (Hm (sr_dev s1)) as Hf. unfold wp in Hf. unfold on_v_dev.
  change (v_dev (sr_vf s1)) with (sr_dev s1). destruct (m (sr_dev s1)) as [a d]. cbn. split.
  - destruct (decide (g = g0)) as [Hg|Hg]; [right; by apply HR, HLs|]. left. by apply (gf_prov _ _ _ Hf).
  - split; [apply (own_vfs_same s1); [apply (gf_num _ _ _ Hf)|done]|].
    intros s2 HR2 HI2 Hg. apply HR2. change (no_flr g0 v0 s1). by apply HR, HLs.
Qed.

Lemma safe_unprovision g s : (1 <= v0 <= n)%nat -> own_vfs s -> safely (disable_unprovision n g) (fun _ _ => True) s.
Proof.
  intros Hv0 HI. unfold disable_unprovision, pf_wait_vfs_flr. apply safe_bind; [apply _|done|].
  apply (safe_wait_flrs g _ []); [done|by intros _ _ Hv%elem_of_nil|]. intros m s1 HI1 _ Hall.
  destruct (Nat.eqb_spec m 0) as [->|Hm]; cbn [negb]; [|done].
  assert (g = g0 -> no_flr g0 v0 s1) as Hno.
  { intros Hg. apply Hall; [done|done|]. rewrite app_nil_r, elem_of_seq. lia. }
  eapply safe_then; [apply _|apply (safe_gt g); [apply gt_only_push|done]| |done].
  intros e s2 HI2 HL2. eapply safe_then; [apply _|apply (safe_gt g); [apply gt_only_auto|done]|done|done].
Qed.

Lemma safe_pci_disable s : own_vfs s -> safely pci_disable_sriov (fun _ _ => True) s.
Proof. intros _ s1 HR HI. cbn. split; [by left|]. split; [by right|done]. Qed.

(** Disabling VFs keeps the promises to the other threads, whatever they do. *)
Lemma safe_disable s : (1 <= v0 <= n)%nat -> own_vfs s -> safely i915_sriov_pf_disable_vfs (fun _ _ => True) s.
Proof.
  intros Hv0 HI0. unfold i915_sriov_pf_disable_vfs.
  apply safe_act. intros s1 _ HI1. apply wp_gets. split; [by left|]. split; [done|].
  apply safely_then; [done|apply keeps_call|]. intros assigned s2 HI2.
  destruct (negb _); [done|]. destruct (Nat.eqb_spec (d_numvfs (sr_dev s1)) 0) as [Hz|Hz]; [done|].
  destruct HI1 as [->|]; [|done].
  apply safely_then; [done|apply acts_links|]. intros [] s3 HI3.
  apply safe_seq; [apply _|by apply safe_pci_disable| |done]. intros [] s4 HI4.
  apply safely_then; [done|apply all_acts_each; intros; apply acts_start_flr|]. intros [] s5 HI5.
  apply safe_seq; [apply _|apply safe_each; [apply _| |done]; intros g s6 HI6| |done].
  { unfold pf_wait_vfs_flr. apply safe_seq; [apply _| |done|done].
    apply (safe_wait_flrs g _ []); [done|by intros _ _ Hv%elem_of_nil|done]. }
  intros [] s6 HI6. apply safe_seq; [apply _| | |done].
  { apply safe_each; [apply _| |done]. intros g s7 HI7. by apply safe_unprovision. }
  intros [] s7 HI7. apply safely_then; [done| |].
  { apply all_acts_if; [|done]. apply all_acts_bind; [apply acts_gsc|done]. }
  intros [] s8 HI8. apply safely_then; [done| |done]. unfold intel_gt_pm_put. keeps_auto.
Qed.

End disable.

(** ** Samples *)

Section samples.
#[local] Existing Instance sample_env.
#[local] Existing Instance sample_relay_env.
#[local] Existing Instance sample_service_env.
#[local] Instance sample_device : SriovEnv := sample_sriov_env 0.

(** Two VFs are enabled. *)
Definition enabled2 : sriov_state := snd (atomically (i915_pci_sriov_configure 2) sample_sriov).

(** What the workers and GuC bring about: no VF is in its reset. *)
Definition resets_done (s : sriov_state) : sriov_state :=
  set_sr_vf {| v_dev := sr_dev s; v_data _ := replicate 5 data0; v_worker _ := false; v_trace := [] |} s.

Lemma resets_done_step (x : prog sriov_state Z * sriov_state) :
  own_vfs 2 (resets_done x.2) -> among (own_vfs 2) (no_new_flr GT_PRIMARY 1) x (x.1, resets_done x.2).
Proof.
  intros Ho. destruct x as [p s]. apply OtherStep; [|exact Ho].
  intros _. unfold no_flr, vf_bit, vf_data. cbn [v_data sr_vf set_sr_vf resets_done]. done.
Qed.

End samples.
