(* ===== verification/Typed.v ===== *)
(** * The types of the provisioning data

    The fields of the configurations are integers of a fixed width in C and unbounded here. Over
    every sequence of the operations of provisioning each of them stays in the type that
    gt/iov/intel_iov_types.h gives it, so that no assignment to a field truncates, and every
    dword of the buffers that are pushed to GuC is one. *)

From S2P Require Export AutoProv.

Section types.
Context `{E : Env}.

Definition is_u16 (x : Z) : Prop := 0 <= x < 2 ^ 16.
Definition is_u32 (x : Z) : Prop := 0 <= x < 2 ^ 32.

(** [struct intel_iov_config], [struct intel_iov_spare_config], [struct intel_iov_policies] *)
Record typed_cfg (c : intel_iov_config) : Prop := {
  ty_start : is_u64 (start (ggtt_region c));
  ty_size : is_u64 (size (ggtt_region c));
  ty_begin_ctx : is_u16 (begin_ctx c);
  ty_num_ctxs : is_u16 (num_ctxs c);
  ty_begin_db : is_u16 (begin_db c);
  ty_num_dbs : is_u16 (num_dbs c);
  ty_eq : is_u32 (exec_quantum c);
  ty_pt : is_u32 (preempt_timeout c);
  ty_thresholds : Forall is_u32 (thresholds c);
}.
Record typed_prov (p : intel_iov_provisioning) : Prop := {
  ty_configs : Forall typed_cfg (configs p);
  ty_spare_ggtt : is_u64 (spare_ggtt_size (spare p));
  ty_spare_ctxs : is_u16 (spare_num_ctxs (spare p));
  ty_spare_dbs : is_u16 (spare_num_dbs (spare p));
  ty_sample : is_u32 (sample_period (policies p));
}.
Definition typed (d : dev) : Prop := forall g, typed_prov (d_prov d g).

Lemma is_u16_u16 x : is_u16 (u16 x).
Proof. apply (Z.mod_pos_bound x (2 ^ 16)). done. Qed.
Lemma is_u16_0 : is_u16 0.
Proof. done. Qed.
Lemma is_u32_0 : is_u32 0.
Proof. done. Qed.

Lemma typed_config0 : typed_cfg config0.
Proof. split; try done; by repeat constructor. Qed.
Lemma typed_wf c : typed_cfg c -> config_wf c.
Proof. intros []. by split. Qed.
Lemma typed_at d g id : typed d -> typed_cfg (cfg d g id).
Proof.
  intros Hd. unfold cfg. destruct (Hd g) as [Hc _ _ _ _].
  destruct (configs (d_prov d g) !! id) as [c|] eqn:Hl; simpl.
  - by apply (list.Forall_lookup_1 _ _ _ _ Hc Hl).
  - apply typed_config0.
Qed.

(** [m] keeps the types and its result satisfies [R]. *)
Definition ty {A} (R : A -> Prop) (m : st dev A) : Prop :=
  forall d, typed d -> wp m (fun a d' => R a /\ typed d') d.
Definition any_result {A} (_ : A) : Prop := True.

Lemma ty_ret {A} (R : A -> Prop) a : R a -> ty R (mret a).
Proof. intros HR d Hd. by apply wp_ret. Qed.
Lemma ty_bind {A B} (R : A -> Prop) (R' : B -> Prop) (m : st dev A) (k : A -> st dev B) :
  ty R m -> (forall a, R a -> ty R' (k a)) -> ty R' (m ≫= k).
Proof.
  intros Hm Hk d Hd. apply wp_bind. eapply wp_mono; [by apply Hm|]. intros a d' [Ha Hd']. by apply Hk.
Qed.
Lemma ty_gets {A} (R : A -> Prop) (f : dev -> A) : (forall d, typed d -> R (f d)) -> ty R (gets f).
Proof. intros Hf d Hd. apply wp_gets. by split; [apply Hf|]. Qed.
Lemma ty_weaken {A} (R R' : A -> Prop) (m : st dev A) : ty R m -> (forall a, R a -> R' a) -> ty R' m.
Proof. intros Hm HR d Hd. eapply wp_mono; [by apply Hm|]. intros a d' [Ha ?]. split; auto. Qed.
Lemma ty_any {A} (R : A -> Prop) (m : st dev A) : ty R m -> ty any_result m.
Proof. intros Hm. by eapply ty_weaken. Qed.
Lemma ty_prov_eq {A} (m : st dev A) :
  (forall d, wp m (fun _ d' => forall g, d_prov d' g = d_prov d g) d) -> ty any_result m.
Proof.
  intros Hm d Hd. eapply wp_mono; [apply Hm|]. intros a d' Heq. split; [done|]. intros g. by rewrite Heq.
Qed.
Lemma ty_conf {A} (m : st dev A) : (forall d, wp m (fun _ d' => same_conf d d') d) -> ty any_result m.
Proof. intros Hm. apply ty_prov_eq. intros d. eapply wp_mono; [apply Hm|]. intros a d' Hs. apply (conf_prov _ _ Hs). Qed.
Lemma ty_hw {A} (m : st dev A) : hw_only m -> ty any_result m.
Proof. intros Hm. apply ty_prov_eq. intros d. eapply hw_only_wp; [done|]. intros a d' Hs _. apply (same_prov _ _ Hs). Qed.

Lemma typed_upd g f d : (forall p, typed_prov p -> typed_prov (f p)) -> typed d -> typed (upd_prov g f d).
Proof. intros Hf Hd g'. rewrite prov_upd. case_decide; [subst; apply Hf|]; apply Hd. Qed.
Lemma ty_prov g f : (forall p, typed_prov p -> typed_prov (f p)) -> ty any_result (mod_prov g f).
Proof. intros Hf d Hd. apply wp_mod_prov. split; [done|]. by apply typed_upd. Qed.
Lemma typed_alter f id p : (forall c, typed_cfg c -> typed_cfg (f c)) -> typed_prov p -> typed_prov (set_configs (alter f id (configs p)) p).
Proof.
  intros Hf []. split; simpl; try done. apply list.Forall_forall. intros c Hc.
  apply list_elem_of_lookup in Hc as [i Hi]. rewrite list.Forall_forall in ty_configs0.
  destruct (decide (i = id)) as [->|Hne].
  - rewrite list_lookup_alter_eq in Hi. destruct (configs p !! id) as [c'|] eqn:Hl; [|done].
    injection Hi as <-. apply Hf, ty_configs0. by eapply list_elem_of_lookup_2.
  - rewrite list_lookup_alter_ne in Hi by done. apply ty_configs0. by eapply list_elem_of_lookup_2.
Qed.
Lemma ty_cfg g id f : (forall c, typed_cfg c -> typed_cfg (f c)) -> ty any_result (mod_cfg g id f).
Proof. intros Hf. apply ty_prov. intros p. by apply typed_alter. Qed.
End types.

Create HintDb ty.
#[export] Hint Resolve is_u16_u16 is_u16_0 is_u32_0 ty_ret : ty.
#[export] Hint Extern 1 (any_result _) => exact I : ty.
#[export] Hint Extern 2 (is_u16 ?a) => (match goal with H : 0 <= a -> is_u16 a |- _ => apply H; lia end) : ty.
Ltac ty_auto :=
  repeat first
    [ solve [eauto with ty]
    | progress intros
    | progress cbv zeta
    | progress cbv beta in *
    | eapply ty_bind; [solve [eauto with ty]|intros ? ?]
    | eapply (ty_bind any_result); [solve [eapply ty_any; eauto with ty]|intros ? _]
    | eapply (ty_bind any_result); [solve [apply ty_gets; done]|intros ? _]
    | eapply (ty_bind any_result); [solve [apply ty_hw; hw_auto]|intros ? _]
    | eapply (ty_bind any_result); [|intros ? _]
    | solve [apply ty_hw; hw_auto]
    | solve [apply ty_gets; done]
    | solve [apply ty_prov; intros ? []; split; auto with ty]
    | match goal with
      | |- ty _ (match ?x with _ => _ end) => destruct x eqn:?
      | |- ty _ ((let '(_, _) := ?x in _)) => destruct x
      end ].

Section ops.
Context `{E : Env} `{!EnvLaws E} `{B : BitmapOps} `{!BitmapLaws B}.

Lemma ty_get_cfg g id : ty typed_cfg (get_cfg g id).
Proof. apply ty_gets. intros d. apply typed_at. Qed.
Lemma ty_get_prov g : ty typed_prov (get_prov g).
Proof. apply ty_gets. intros d Hd. apply Hd. Qed.
Lemma ty_get_node g id : ty (fun n => is_u64 (start n) /\ is_u64 (size n)) (gets (fun d => ggtt_region (cfg d g id))).
Proof. apply ty_gets. intros d Hd. by destruct (typed_at d g id Hd). Qed.
Lemma ty_mark b : ty any_result (mark_manual_if b).
Proof. apply ty_prov_eq. intros d. unfold mark_manual_if. destruct b; [by apply wp_modify|by apply wp_ret]. Qed.
Lemma ty_sriov f1 f2 f3 : ty any_result (modify (fun d => upd_sriov (f1 d) (f2 d) (f3 d) d)).
Proof. apply ty_prov_eq. intros d. by apply wp_modify. Qed.
Lemma ty_zalloc : ty any_result bitmap_zalloc.
Proof. apply ty_prov_eq. intros d. apply wp_bitmap_zalloc; intros; by apply same_prov. Qed.
Lemma ty_free : ty any_result bitmap_free.
Proof. apply ty_prov_eq. intros d. apply wp_bitmap_free; intros; by apply same_prov. Qed.
#[local] Hint Resolve ty_get_cfg ty_get_prov ty_get_node ty_mark ty_sriov ty_zalloc ty_free : ty.

(** *** Contexts *)

Lemma align_ctxs_u16 id n : is_u16 (align_ctxs id n).
Proof. unfold align_ctxs. destruct (n =? 0); [done|]. destruct (id =? 0)%nat; apply is_u16_u16. Qed.
Lemma ty_set_ctxs g id b n : is_u16 b -> is_u16 n -> ty any_result (mod_cfg g id (set_ctxs b n)).
Proof. intros Hb Hn. apply ty_cfg. intros c []. by split. Qed.
Lemma ty_push_two g id k1 v1 k2 v2 : ty any_result (push_two_klv32 g id k1 v1 k2 v2).
Proof. apply ty_hw. hw_auto. Qed.
Lemma ty_provision_range g id b n : is_u16 b -> is_u16 n -> ty any_result (__pf_provision_ctxs g id b n).
Proof.
  intros Hb Hn. unfold __pf_provision_ctxs, __pf_provision_vf_ctxs, pf_push_config_ctxs.
  pose proof (ty_push_two g id). pose proof (ty_set_ctxs g id). ty_auto.
Qed.
Lemma ty_bitmap g : ty any_result (pf_get_ctxs_bitmap g).
Proof. unfold pf_get_ctxs_bitmap. ty_auto. Qed.
#[local] Hint Resolve align_ctxs_u16 ty_provision_range ty_bitmap : ty.
Lemma ty_alloc_ctxs g id n : ty (fun r => 0 <= r -> is_u16 r) (pf_alloc_ctxs_range g id n).
Proof.
  unfold pf_alloc_ctxs_range, pf_alloc_vf_ctxs_range. ty_auto.
Qed.
Lemma ty_ctxs g id n : ty any_result (pf_provision_ctxs g id n).
Proof.
  assert (ty any_result (pf_get_ctxs_max_quota g)) by (unfold pf_get_ctxs_max_quota; ty_auto).
  pose proof (ty_alloc_ctxs g id). unfold pf_provision_ctxs. ty_auto.
Qed.

(** *** Doorbells *)

Lemma ty_set_dbs g id b n : is_u16 b -> is_u16 n -> ty any_result (mod_cfg g id (set_dbs b n)).
Proof. intros Hb Hn. apply ty_cfg. intros c []. by split. Qed.
Lemma ty_alloc_dbs g n : 0 < n -> ty (fun r => 0 <= r -> is_u16 r) (pf_alloc_dbs_range g n).
Proof.
  intros Hn. assert (ty any_result (pf_get_dbs_bitmap g)) by (unfold pf_get_dbs_bitmap; ty_auto).
  unfold pf_alloc_dbs_range. ty_auto.
  apply ty_ret. intros Hr. unfold is_u16. split; [done|]. change (2 ^ 16) with 65536.
  change GUC_NUM_DOORBELLS with 256 in *. lia.
Qed.
Lemma ty_take_dbs g id n : is_u16 n -> ty any_result (pf_take_dbs g id n).
Proof.
  intros Hn. pose proof (ty_set_dbs g id). unfold pf_take_dbs, pf_push_config_dbs.
  pose proof (ty_push_two g id). destruct (Z.eqb_spec n 0) as [->|]; [ty_auto|].
  pose proof (ty_alloc_dbs g n ltac:(unfold is_u16 in *; lia)). ty_auto.
Qed.
Lemma ty_dbs g id n : is_u16 n -> ty any_result (pf_provision_dbs g id n).
Proof.
  intros Hn. pose proof (ty_set_dbs g id). pose proof (ty_take_dbs g id n Hn). pose proof (ty_push_two g id).
  unfold pf_provision_dbs, pf_push_config_dbs. ty_auto.
Qed.

(** *** GGTT *)

Lemma ty_set_region g id x : is_u64 (start x) -> is_u64 (size x) -> ty any_result (mod_cfg g id (set_region x)).
Proof. intros Hs Hz. apply ty_cfg. intros c []. by split. Qed.
Lemma ty_owner vfid node : ty any_result (i915_ggtt_set_space_owner vfid node).
Proof. apply ty_conf. intros d. by apply wp_set_owner. Qed.
Lemma ty_shadow_alloc id node : ty any_result (intel_iov_ggtt_shadow_vf_alloc id node).
Proof. apply ty_conf. intros d. by apply wp_shadow_alloc. Qed.
Lemma ty_shadow_free id : ty any_result (intel_iov_ggtt_shadow_vf_free id).
Proof. apply ty_conf. intros d. by apply wp_shadow_free. Qed.
Lemma ty_mm f : ty any_result (modify (fun d => set_mm (f d) d)).
Proof. apply ty_prov_eq. intros d. by apply wp_modify. Qed.
#[local] Hint Resolve ty_owner ty_shadow_alloc ty_shadow_free ty_mm : ty.

Lemma ty_insert g id sz : is_u64 sz -> ty any_result (pf_insert_ggtt g id sz).
Proof using Type*.
  intros Hsz d Hd. unfold wp, pf_insert_ggtt. destruct (i915_gem_gtt_insert _ _ _ _ _) as [[err s] m] eqn:Hi.
  destruct (Z.eqb_spec err 0) as [->|]; [|done]. destruct (gtt_insert_ok _ _ _ _ _ _ _ Hi) as (H1 & H2 & _).
  destruct (env_pin_bias) as [Hb _]. split; [done|]. unfold is_u64 in Hsz.
  assert (is_u64 s) as Hs by (unfold is_u64; change GUC_GGTT_TOP with 4276092928 in H2; lia).
  intros g'. apply (ty_set_region g id {| allocated := true; start := s; size := sz |} Hs Hsz (set_mm m d)). exact Hd.
Qed.
Lemma ty_push_ggtt g id b sz : ty any_result (pf_push_config_ggtt g id b sz).
Proof. apply ty_hw. unfold pf_push_config_ggtt, __pf_push_config_ggtt. hw_auto. Qed.
Lemma ty_release g id : ty any_result (pf_release_ggtt g id).
Proof.
  unfold pf_release_ggtt. eapply ty_bind; [apply ty_get_node|]. intros node [Hs Hz].
  pose proof (ty_set_region g id). ty_auto.
Qed.
#[local] Hint Resolve ty_insert ty_push_ggtt ty_release : ty.
Lemma ty_take_ggtt g id sz : is_u64 sz -> ty any_result (pf_take_ggtt g id sz).
Proof using Type*. intros Hsz. unfold pf_take_ggtt, pf_fill_ggtt, pf_release_err. ty_auto. Qed.
Lemma round_up_u64 sz over r : check_round_up_overflow sz pf_get_ggtt_alignment = (over, r) -> is_u64 r.
Proof.
  unfold check_round_up_overflow. destruct (sz =? 0); intros [= _ <-]; [done|].
  apply (Z.mod_pos_bound _ (2 ^ 64)). done.
Qed.
Lemma ty_ggtt g id sz : ty any_result (pf_provision_ggtt g id sz).
Proof using Type*.
  unfold pf_provision_ggtt. destruct (decide _); [ty_auto|].
  destruct (check_round_up_overflow _ _) as [over r] eqn:Hr. apply round_up_u64 in Hr.
  pose proof (ty_take_ggtt g id r Hr). ty_auto.
Qed.

(** *** Scheduling *)

Lemma ty_exec_quantum g id v : is_u32 v -> ty any_result (pf_provision_exec_quantum g id v).
Proof.
  intros Hv. assert (ty any_result (mod_cfg g id (set_eq v))) by (apply ty_cfg; intros c []; by split).
  unfold pf_provision_exec_quantum, pf_push_config_exec_quantum. ty_auto.
Qed.
Lemma ty_preempt_timeout g id v : is_u32 v -> ty any_result (pf_provision_preempt_timeout g id v).
Proof.
  intros Hv. assert (ty any_result (mod_cfg g id (set_pt v))) by (apply ty_cfg; intros c []; by split).
  unfold pf_provision_preempt_timeout, pf_push_config_preempt_timeout. ty_auto.
Qed.
Lemma ty_threshold g id t v : is_u32 v -> ty any_result (pf_provision_threshold g id t v).
Proof.
  intros Hv. assert (ty any_result (mod_cfg g id (set_threshold t v))).
  { apply ty_cfg. intros c []. split; try done. by apply Forall_insert. }
  unfold pf_provision_threshold. ty_auto.
Qed.
Lemma ty_unprovision_thresholds g id ts : ty any_result (unprovision_thresholds g id ts).
Proof.
  induction ts as [|t ts IH]; cbn [unprovision_thresholds]; [ty_auto|].
  pose proof (ty_threshold g id t 0 is_u32_0). ty_auto.
Qed.
#[local] Hint Resolve ty_ctxs ty_dbs ty_ggtt ty_exec_quantum ty_preempt_timeout ty_threshold ty_unprovision_thresholds : ty.

(** *** The life of provisioning *)

Lemma ty_unprovision g id : ty any_result (pf_unprovision_config g id).
Proof using Type*. unfold pf_unprovision_config, pf_unprovision_thresholds. ty_auto. Qed.
Lemma ty_down g n : ty any_result (unprovision_down g n).
Proof using Type*. pose proof (ty_unprovision g). induction n; cbn [unprovision_down]; ty_auto. Qed.
Lemma ty_unprovision_all g : ty any_result (pf_unprovision_all g).
Proof using Type*. pose proof (ty_down g). unfold pf_unprovision_all. ty_auto. Qed.
#[local] Hint Resolve ty_unprovision ty_unprovision_all : ty.
Lemma ty_set_auto g b : ty any_result (pf_set_auto_provisioning g b).
Proof. unfold pf_set_auto_provisioning. ty_auto. Qed.
Lemma ty_each valid provision ids :
  (forall n, ty any_result (provision n)) -> ty any_result (auto_each valid provision ids).
Proof. intros Hp. induction ids as [|n ids IH]; cbn [auto_each]; ty_auto. Qed.
#[local] Hint Resolve ty_set_auto : ty.
Lemma ty_auto_prov g n : ty any_result (intel_iov_provisioning_auto g n).
Proof using Type*.
  assert (ty any_result (pf_get_ctxs_free g)) by (unfold pf_get_ctxs_free; ty_auto).
  unfold intel_iov_provisioning_auto, pf_auto_provision, auto_fail, pf_auto_unprovision,
    pf_auto_provision_ggtt, pf_auto_provision_ctxs, pf_auto_provision_dbs.
  ty_auto; apply ty_each; ty_auto.
Qed.
#[local] Hint Resolve ty_auto_prov : ty.

Lemma ty_push g n : ty any_result (intel_iov_provisioning_push g n).
Proof.
  assert (forall addr ids, hw_only (push_each g addr ids)) as Hpush.
  { intros addr ids. induction ids as [|i ids IH]; cbn [push_each]; hw_auto. }
  assert (forall k, hw_only (reset_down g k)) as Hreset.
  { intros k. induction k as [|k IH]; cbn [reset_down]; hw_auto. }
  unfold intel_iov_provisioning_push, pf_push_configs, pf_push_no_configs. ty_auto; by apply ty_hw.
Qed.
#[local] Hint Resolve ty_push : ty.

Lemma ty_spare g (f : intel_iov_spare_config -> intel_iov_spare_config) :
  (forall s, is_u64 (spare_ggtt_size s) -> is_u64 (spare_ggtt_size (f s))) ->
  (forall s, is_u16 (spare_num_ctxs s) -> is_u16 (spare_num_ctxs (f s))) ->
  (forall s, is_u16 (spare_num_dbs s) -> is_u16 (spare_num_dbs (f s))) ->
  ty any_result (mod_prov g (fun p => set_spare (f (spare p)) p)).
Proof. intros H1 H2 H3. apply ty_prov. intros p []. split; simpl; auto. Qed.
Lemma ty_policy g (f : intel_iov_policies -> intel_iov_policies) :
  (forall p, is_u32 (sample_period p) -> is_u32 (sample_period (f p))) ->
  ty any_result (mod_prov g (fun p => set_policies (f (policies p)) p)).
Proof. intros Hf. apply ty_prov. intros p []. split; simpl; auto. Qed.
Lemma ty_bool_policy g key commit b :
  (forall p, sample_period (commit b p) = sample_period p) -> ty any_result (pf_update_bool_policy g key commit b).
Proof.
  intros Hc. assert (ty any_result (mod_prov g (fun p => set_policies (commit b (policies p)) p))).
  { apply ty_policy. intros p. by rewrite Hc. }
  unfold pf_update_bool_policy. ty_auto.
Qed.
Lemma ty_sample_period g v : is_u32 v -> ty any_result (pf_provision_sample_period g v).
Proof.
  intros Hv. assert (ty any_result (mod_prov g (fun p => set_policies (with_sample_period v (policies p)) p))).
  { by apply ty_policy. }
  unfold pf_provision_sample_period, pf_update_policy_u32. ty_auto.
Qed.
#[local] Hint Resolve ty_sample_period : ty.

Lemma ty_reprovision_sample g : ty any_result (pf_reprovision_sample_period g).
Proof. eapply ty_bind; [apply ty_get_prov|]. intros p []. ty_auto. Qed.
Lemma ty_reprovision_eq g id : ty any_result (pf_reprovision_exec_quantum g id).
Proof. unfold pf_reprovision_exec_quantum, pf_push_config_exec_quantum. ty_auto. Qed.
Lemma ty_reprovision_pt g id : ty any_result (pf_reprovision_preempt_timeout g id).
Proof. unfold pf_reprovision_preempt_timeout, pf_push_config_preempt_timeout. ty_auto. Qed.
Lemma ty_force_vgt g : ty any_result (intel_iov_provisioning_force_vgt_mode g).
Proof. unfold intel_iov_provisioning_force_vgt_mode, pf_push_self_config. ty_auto. Qed.
#[local] Hint Resolve ty_reprovision_sample ty_reprovision_eq ty_reprovision_pt ty_force_vgt : ty.
Lemma ty_worker g : ty any_result (pf_reprovisioning_worker_func g).
Proof.
  assert (ty any_result (pf_reprovision_sched_if_idle g)) by
    (eapply ty_bind; [apply ty_get_prov|]; intros; by apply ty_bool_policy).
  assert (ty any_result (pf_reprovision_reset_engine g)) by
    (eapply ty_bind; [apply ty_get_prov|]; intros; by apply ty_bool_policy).
  unfold pf_reprovisioning_worker_func, pf_do_reprovisioning, pf_reprovision_pf. ty_auto.
Qed.
Lemma ty_init_early g : ty any_result (intel_iov_provisioning_init_early g).
Proof.
  assert (ty any_result (modify (fun d => upd_prov g (set_configs (replicate (S (d_totalvfs d)) config0)) d))).
  { intros d Hd. apply wp_modify. split; [done|]. apply typed_upd; [|done]. intros p []. split; try done.
    apply list.Forall_forall. intros c [-> _]%elem_of_replicate. apply typed_config0. }
  unfold intel_iov_provisioning_init_early. ty_auto.
Qed.
Lemma ty_init g : ty any_result (intel_iov_provisioning_init g).
Proof.
  assert (forall n, ty any_result (modify (upd_guc_ids g n))) by
    (intros n; apply ty_prov_eq; intros d; by apply wp_modify).
  unfold intel_iov_provisioning_init, pf_assign_ctxs_for_pf, intel_guc_submission_limit_ids, pf_ctxs_share,
    decode_pf_ctxs_count, __decode_ctxs_count. cbn [negb].
  eapply (ty_bind any_result); [by apply ty_gets|]. intros [] _; [ty_auto|].
  eapply (ty_bind is_u16); [apply ty_gets; intros; apply is_u16_u16|]. intros n Hn.
  pose proof (ty_set_ctxs g PFID 0 n is_u16_0 Hn). ty_auto.
Qed.
End ops.

(** ** Sequences of operations *)

(** The calls of user space (sysfs), of the driver's life and of the worker, with what the C
    types of their parameters say. *)
Inductive prov_call :=
| SetCtxs (g : gt_id) (id : nat) (n : Z) | SetDbs (g : gt_id) (id : nat) (n : Z) | SetGgtt (g : gt_id) (id : nat) (sz : Z)
| SetExecQuantum (g : gt_id) (id : nat) (v : Z) | SetPreemptTimeout (g : gt_id) (id : nat) (v : Z)
| SetThreshold (g : gt_id) (id : nat) (t : intel_iov_threshold) (v : Z)
| SetSpareCtxs (g : gt_id) (n : Z) | SetSpareDbs (g : gt_id) (n : Z) | SetSpareGgtt (g : gt_id) (sz : Z)
| SetSchedIfIdle (g : gt_id) (b : bool) | SetResetEngine (g : gt_id) (b : bool) | SetSamplePeriod (g : gt_id) (v : Z)
| SetAutoProvisioning (b : bool) | Auto (g : gt_id) (n : nat) | Push (g : gt_id) (n : nat) | Clear (g : gt_id) (id : nat)
| InitEarly (g : gt_id) | Init (g : gt_id) | Fini (g : gt_id) | Release (g : gt_id) | Restart (g : gt_id)
| ForceVgtMode (g : gt_id) | Worker (g : gt_id).

Definition well_called (c : prov_call) : Prop :=
  match c with
  | SetDbs _ _ n | SetSpareCtxs _ n | SetSpareDbs _ n => is_u16 n
  | SetExecQuantum _ _ v | SetPreemptTimeout _ _ v | SetThreshold _ _ _ v | SetSamplePeriod _ v => is_u32 v
  | _ => True
  end.

Section calls.
Context `{E : Env} `{B : BitmapOps}.

Definition run_call (c : prov_call) : st dev unit :=
  let ignore (m : st dev Z) : st dev unit := m ≫= fun _ => mret tt in
  match c with
  | SetCtxs g id n => ignore (intel_iov_provisioning_set_ctxs g id n)
  | SetDbs g id n => ignore (intel_iov_provisioning_set_dbs g id n)
  | SetGgtt g id sz => ignore (intel_iov_provisioning_set_ggtt g id sz)
  | SetExecQuantum g id v => ignore (intel_iov_provisioning_set_exec_quantum g id v)
  | SetPreemptTimeout g id v => ignore (intel_iov_provisioning_set_preempt_timeout g id v)
  | SetThreshold g id t v => ignore (intel_iov_provisioning_set_threshold g id t v)
  | SetSpareCtxs g n => ignore (intel_iov_provisioning_set_spare_ctxs g n)
  | SetSpareDbs g n => ignore (intel_iov_provisioning_set_spare_dbs g n)
  | SetSpareGgtt g sz => ignore (intel_iov_provisioning_set_spare_ggtt g sz)
  | SetSchedIfIdle g b => ignore (intel_iov_provisioning_set_sched_if_idle g b)
  | SetResetEngine g b => ignore (intel_iov_provisioning_set_reset_engine g b)
  | SetSamplePeriod g v => ignore (intel_iov_provisioning_set_sample_period g v)
  | SetAutoProvisioning b => ignore (i915_sriov_pf_set_auto_provisioning b)
  | Auto g n => ignore (intel_iov_provisioning_auto g n)
  | Push g n => ignore (intel_iov_provisioning_push g n)
  | Clear g id => ignore (intel_iov_provisioning_clear g id)
  | InitEarly g => intel_iov_provisioning_init_early g
  | Init g => intel_iov_provisioning_init g
  | Fini g => intel_iov_provisioning_fini g
  | Release g => intel_iov_provisioning_release g
  | Restart g => intel_iov_provisioning_restart g
  | ForceVgtMode g => ignore (intel_iov_provisioning_force_vgt_mode g)
  | Worker g => pf_reprovisioning_worker_func g
  end.
Definition run_calls (cs : list prov_call) (d : dev) : dev := foldl (fun d c => snd (run_call c d)) d cs.
End calls.

Ltac unfold_call :=
  match goal with
  | |- ty _ (?f _) => unfold f
  | |- ty _ (?f _ _) => unfold f
  | |- ty _ (?f _ _ _) => unfold f
  | |- ty _ (?f _ _ _ _) => unfold f
  end.

Section properties.
Context `{E : Env} `{!EnvLaws E} `{B : BitmapOps} `{!BitmapLaws B}.

#[local] Hint Resolve ty_get_cfg ty_get_prov ty_mark ty_sriov ty_ctxs ty_dbs ty_ggtt ty_exec_quantum
  ty_preempt_timeout ty_threshold ty_unprovision ty_unprovision_all ty_auto_prov ty_push ty_force_vgt
  ty_sample_period ty_worker ty_init_early ty_init : ty.

Lemma ty_call c : well_called c -> ty any_result (run_call c).
Proof using Type*.
  intros Hc.
  assert (forall m : st dev Z, ty any_result m -> ty any_result (m ≫= fun _ => mret tt)) as Hig
    by (intros m Hm; ty_auto).
  destruct c; cbn [run_call well_called] in *; try apply Hig; ty_auto.
  all: try unfold_call; ty_auto.
  apply ty_spare; try done. intros s _. simpl. destruct b; [done|]. by eapply round_up_u64.
Qed.

Lemma typed_calls cs d : Forall well_called cs -> typed d -> typed (run_calls cs d).
Proof using Type*.
  intros Hcs. revert d. induction Hcs as [|c cs Hc _ IH]; intros d Hd; [done|].
  apply IH. pose proof (ty_call c Hc d Hd) as Hw. unfold wp in Hw. by destruct (run_call c d) as [u d'], Hw.
Qed.

Lemma is_u32_lower x : is_u32 (lower_32_bits x).
Proof.
  unfold is_u32, lower_32_bits. change 0xffffffff with (Z.ones 32). rewrite Z.land_ones by done.
  by apply Z.mod_pos_bound.
Qed.
Lemma is_u32_upper x : is_u32 (upper_32_bits x).
Proof. apply (Z.mod_pos_bound _ (2 ^ 32)). done. Qed.
Lemma is_u16_32 x : is_u16 x -> is_u32 x.
Proof. unfold is_u16, is_u32. change (2 ^ 16) with 65536. change (2 ^ 32) with 4294967296. lia. Qed.

Lemma encode_ggtt_u32 c : typed_cfg c -> Forall is_u32 (encode_config_ggtt c).
Proof.
  intros _. unfold encode_config_ggtt. destruct (allocated _); [|done].
  repeat (constructor; [first [apply is_u32_lower|apply is_u32_upper|done]|]). done.
Qed.
Lemma encode_config_u32 c : typed_cfg c -> Forall is_u32 (encode_config c).
Proof.
  intros Hc. unfold encode_config. apply Forall_app. split; [by apply encode_ggtt_u32|]. destruct Hc.
  apply Forall_app. split.
  - repeat (constructor; [first [done|by apply is_u16_32|idtac]|]). done.
  - apply Forall_bind. apply list.Forall_forall. intros t _. repeat constructor; try (by destruct t).
    all: unfold threshold_of; destruct (thresholds c !! threshold_index t) as [v|] eqn:Hv; simpl; [|done].
    all: apply (list.Forall_lookup_1 _ _ _ _ ty_thresholds0 Hv).
Qed.

(** C12: no field of the provisioning data leaves its C type. Starting with data of these types,
    after every sequence of calls whose arguments have the types of the parameters every field
    of every configuration, spare setting and policy fits its width, whatever GuC and the
    allocators answer and wherever a call fails; so every buffer that a push would send consists of
    dwords, and the configuration in it decodes to the fields, none of them cut off. *)
Theorem prov_typed cs d :
  typed d -> Forall well_called cs ->
  typed (run_calls cs d) /\
  forall g n,
    Forall is_u32 (push_blob g n (run_calls cs d)) /\
    pf_verify_config_klvs (encode_config (cfg (run_calls cs d) g n)) =
      Some (config_klvs (cfg (run_calls cs d) g n)).
Proof using Type*.
  intros Hd Hcs. pose proof (typed_calls cs d Hcs Hd) as Hd'. split; [done|]. intros g n.
  set (d' := run_calls cs d) in *. clearbody d'. split.
  - unfold push_blob. apply Forall_app. split.
    + destruct (negb _); [apply encode_config_u32, typed_at, Hd'|done].
    + destruct (decide _); [apply encode_ggtt_u32, typed_at, Hd'|done].
  - pose proof (encode_config_decodes (cfg d' g n) [] [] (typed_wf _ (typed_at d' g n Hd')) decodes_nil) as D.
    rewrite !app_nil_r in D. by apply decodes_verify.
Qed.
End properties.

(** Large numbers of contexts on the sample device, whose structures start zeroed; automatic
    provisioning after that. *)
Definition sample_calls : list prov_call :=
  [InitEarly GT_PRIMARY; Init GT_PRIMARY; SetCtxs GT_PRIMARY 1 (2 ^ 40); SetGgtt GT_PRIMARY 1 (2 ^ 64 + 5);
   SetExecQuantum GT_PRIMARY 2 (2 ^ 32 - 1); SetDbs GT_PRIMARY 2 65535; SetSpareGgtt GT_PRIMARY (2 ^ 64 - 1);
   Fini GT_PRIMARY; Auto GT_PRIMARY 2].

Lemma prov_typed_witness :
  exec_quantum (cfg (run_calls (E := sample_env) sample_calls sample_dev) GT_PRIMARY 2) = 0 /\
  Forall is_u32 (push_blob GT_PRIMARY 1 (run_calls (E := sample_env) sample_calls sample_dev)).
Proof.
  split; [by vm_compute|].
  apply (prov_typed (E := sample_env) sample_calls sample_dev).
  - intros g. destruct g; (split; [repeat constructor; by vm_compute| | | |]; by vm_compute).
  - by repeat constructor.
Defined.
