(* ===== verification/Suspend.v ===== *)
(** * The state that GuC keeps of a VF, over a suspend

    While the system sleeps GuC loses the state of the VFs. The PF saves it before
    ([pf_gt_save_vf_guc_state]) and gives it back afterwards ([pf_gt_restore_vf_guc_state]), both
    among other threads that talk to GuC. *)

From stdpp Require Import relations.
From S2P Require Export Power.

Section survive.
Context `{E : Env} `{!EnvLaws E} `{B : BitmapOps} `{R : RelayEnv} `{P : ServiceEnv} `{Sv : SaveEnv} `{V : SriovEnv}.
Context (g : gt_id) (v : nat).
Implicit Types s : sriov_state.

Definition log_of s : list guc_req := d_log (sr_dev s).

(** The other threads leave the copy of this VF on this GT alone and send requests. *)
Definition others s s' : Prop :=
  sr_guc_state s' g v = sr_guc_state s g v /\ exists l, log_of s' = log_of s ++ l.
#[export] Instance others_preorder : PreOrder others.
Proof.
  split; [intros s; split; [done|]; exists []; by rewrite app_nil_r|].
  intros a b c [H1 [l1 L1]] [H2 [l2 L2]]. split; [congruence|]. exists (l1 ++ l2). by rewrite L2, L1, app_assoc.
Qed.

Definition is_request (opcode : Z) (req : guc_req) : Prop :=
  req_gt req = g /\ exists offset sz, req_msg req = save_restore_msg v opcode offset sz.

(** [bytes] are what GuC left in the buffer of a request to save. *)
Definition saved (bytes : list Z) s : Prop :=
  exists before req after, log_of s = before ++ req :: after /\
    is_request GUC_PF_OPCODE_VF_SAVE req /\ bytes = guc_blob before req (length bytes).
Definition copy (bytes : list Z) : guc_state := {| blob := Some bytes; blob_size := Z.of_nat (length bytes) |}.

(** The size of the buffer is the one that is noted. *)
Definition size_ok (gs : guc_state) : Prop :=
  forall b, blob gs = Some b -> Z.of_nat (length b) = blob_size gs /\ blob_size gs < 2 ^ 32.

Lemma saved_others bytes s s' : others s s' -> saved bytes s -> saved bytes s'.
Proof.
  intros [_ [l Hl]] (b & r & a & Hs & Hr). exists b, r, (a ++ l). split; [|done]. by rewrite Hl, Hs, <- app_assoc.
Qed.

(** ** Steps among the others *)

Section steps.
Context (G : sriov_state -> sriov_state -> Prop).
#[local] Abbreviation safely := (safe (fun _ => True) others G).

Lemma safe_sdev {A C} (m : st dev A) (k : A -> prog sriov_state C) Q s :
  (forall s', others s s' -> let '(a, d) := m (sr_dev s') in G s' (set_sr_dev d s') /\ safely (k a) Q (set_sr_dev d s')) ->
  safely (on_sdev m ≫= k) Q s.
Proof.
  intros H s' HR _. specialize (H s' HR). cbn. unfold on_v_dev. change (v_dev (sr_vf s')) with (sr_dev s').
  destruct (m (sr_dev s')) as [a d]. destruct H. by split_and!.
Qed.
Lemma safe_look {A C} (f : sriov_state -> A) (k : A -> prog sriov_state C) Q s :
  Reflexive G -> (forall s', others s s' -> safely (k (f s')) Q s') -> safely (look f ≫= k) Q s.
Proof. intros HG H s' HR _. cbn. split; [apply HG|]. split; [done|]. by apply H. Qed.
Lemma safe_change {C} (f : sriov_state -> sriov_state) (k : unit -> prog sriov_state C) Q s :
  (forall s', others s s' -> G s' (f s') /\ safely (k tt) Q (f s')) -> safely (change f ≫= k) Q s.
Proof. intros H s' HR _. cbn. destruct (H s' HR). by split_and!. Qed.
Lemma safe_end {A} (a : A) (Q : A -> sriov_state -> Prop) s :
  (forall s', others s s' -> Q a s') -> safely (mret a) Q s.
Proof. intros H s' HR _. by apply H. Qed.
End steps.

(** ** Saving *)

Context (Hreplies : forall l r, guc_reply l r < 2 ^ 28).

Lemma log_guc_state s gs : log_of (set_guc_state g v gs s) = log_of s.
Proof. done. Qed.
Lemma guc_state_at gs s : sr_guc_state (set_guc_state g v gs s) g v = gs.
Proof. cbn. by rewrite decide_True by done. Qed.

Lemma save_size_range d : fst (intel_iov_state_save_vf_size g v d) < 2 ^ 30.
Proof using Hreplies.
  unfold intel_iov_state_save_vf_size, pf_save_vf_size, guc_action_save_restore_vf, intel_guc_send, mbind, st_bind. cbn.
  specialize (Hreplies (d_log d)). set (r := guc_reply _ _). assert (r < 2 ^ 28) by apply Hreplies. clearbody r.
  change (2 ^ 28) with 268435456 in *. change (2 ^ 30) with 1073741824.
  destruct (Z.ltb_spec r 0); unfold mret, st_ret; cbn [fst]; lia.
Qed.

Lemma save_vf_copies b sz d :
  Z.of_nat (length b) = sz -> sz < 2 ^ 32 ->
  let '((ret, b'), d') := intel_iov_state_save_vf g v b sz d in
  length b' = length b /\
  (0 < ret -> exists req, d_log d' = d_log d ++ [req] /\ is_request GUC_PF_OPCODE_VF_SAVE req /\
    b' = guc_blob (d_log d) req (length b')).
Proof using Type*.
  intros Hb Hsz. unfold intel_iov_state_save_vf.
  destruct (sz <? _); [cbn; split; [done|]; unfold EINVAL; lia|]. rewrite u32_small by lia.
  unfold pf_save_vf, guc_action_save_restore_vf, intel_guc_allocate_and_map_vma, intel_guc_send, mbind, st_bind, gets.
  pose proof (env_vma_err (d_ticks d)) as Hvma. cbn [fst snd d_log d_ticks d_live upd_hw].
  destruct (Z.eqb_spec (env_vma (d_ticks d)) 0) as [_|Hv]; cbn [negb]; [|cbn; split; [done|lia]].
  set (req := {| req_gt := g |}). unfold mret, st_ret. cbn [fst snd d_log d_ticks d_live upd_hw].
  set (r := if _ : bool then - EPROTO else _). rewrite Z.gtb_ltb. destruct (Z.ltb_spec 0 r) as [Hr|Hr].
  - rewrite (proj2 (Z.ltb_ge r 0)) by lia. cbn [fst snd d_log upd_hw].
    rewrite put_front_full by (rewrite guc_blob_length; lia). rewrite guc_blob_length. split; [lia|].
    intros _. exists req. split; [done|]. split; [split; [done|by eexists _, _]|done].
  - destruct (r <? 0) eqn:Hn; (split; [done|]); lia.
Qed.

Lemma safe_kzalloc sz (s : sriov_state) :
  0 <= sz < 2 ^ 32 ->
  safe (fun _ => True) others (fun _ _ => True) (kzalloc sz)
    (fun b _ => forall l, b = Some l -> Z.of_nat (length l) = sz) s.
Proof.
  intros Hsz. unfold kzalloc. destruct (Z.eqb_spec sz 0) as [->|_].
  - apply safe_end. by intros s' _ l [= <-].
  - apply safe_sdev. intros s' _. destruct (kvzalloc (sr_dev s')) as [ok d]. split; [done|]. apply safe_end.
    intros s2 _ l. destruct ok; [|done]. intros [= <-]. rewrite length_replicate. lia.
Qed.

Lemma safe_save s :
  size_ok (sr_guc_state s g v) ->
  safe (fun _ => True) others (fun _ _ => True) (pf_gt_save_vf_guc_state g v)
    (fun ret s' => 0 < ret -> exists bytes, sr_guc_state s' g v = copy bytes /\ saved bytes s') s.
Proof using Type*.
  intros Hok. unfold pf_gt_save_vf_guc_state. apply safe_sdev. intros s1 HR1.
  pose proof (save_size_range (sr_dev s1)) as Hsz. destruct (intel_iov_state_save_vf_size g v _) as [sz d1].
  cbn [fst] in Hsz. change (2 ^ 30) with 1073741824 in Hsz. split; [done|].
  destruct (Z.ltb_spec sz 0); [apply safe_end; lia|]. apply safe_look; [done|]. intros s2 HR2.
  assert (sr_guc_state s2 g v = sr_guc_state s g v) as Hgs by exact (eq_trans (proj1 HR2) (proj1 HR1)).
  rewrite Hgs. clear Hgs.
  apply (safe_then _ _ _ _ _ (fun data _ => size_ok data)); [|intros data s3 _ Hdata|done].
  { assert (forall s0, safe (fun _ => True) others (fun _ _ => True)
      (b ← kzalloc sz; mret {| blob := b; blob_size := sz |}) (fun data _ => size_ok data) s0) as Hk.
    { intros s0. eapply safe_then; [apply _|apply safe_kzalloc; lia| |done]. intros b s4 _ Hb. apply safe_end.
      intros s5 _ l Hl. cbn [blob blob_size] in *. split; [by apply Hb|lia]. }
    destruct (blob (sr_guc_state s g v)) as [b|] eqn:Hb; [|apply Hk].
    destruct (sz <=? _); [|apply Hk]. apply safe_end. intros s5 _ l. cbn [blob blob_size].
    intros [= <-]. rewrite length_replicate. by apply Hok. }
  apply safe_change. intros s4 _. split; [done|]. destruct (blob data) as [b|] eqn:Hb.
  2: { apply safe_end. intros s5 _. unfold ENOMEM. lia. }
  destruct (Hdata b Hb) as [Hlen Hmax]. apply safe_sdev. intros s5 HR5.
  pose proof (save_vf_copies b (blob_size data) (sr_dev s5) Hlen Hmax) as Hs.
  destruct (intel_iov_state_save_vf _ _ _ _ _) as [[ret b'] d5]. destruct Hs as [Hl Hs]. split; [done|].
  apply safe_change. intros s6 HR6. split; [done|]. apply safe_end. intros s7 HR7 Hret. exists b'.
  destruct (Hs Hret) as (req & Hlog & Hreq & Hby). split.
  - destruct HR7 as [-> _]. rewrite guc_state_at. unfold copy. f_equal. lia.
  - eapply saved_others; [exact HR7|]. destruct HR6 as [_ [l Hl6]].
    exists (log_of s5), req, l. split_and!; [|done|done]. rewrite log_guc_state, Hl6.
    change (d_log d5 ++ l = log_of s5 ++ req :: l). unfold log_of. by rewrite Hlog, <- app_assoc.
Qed.

(** ** Giving it back *)

Section restore.
Context (bytes : list Z).

(** Every request to restore the VF has the saved bytes. *)
Definition gives_back s s' : Prop :=
  forall l req, log_of s' = log_of s ++ l -> req ∈ l -> is_request GUC_PF_OPCODE_VF_RESTORE req -> req_blob req = bytes.
#[export] Instance gives_back_refl : Reflexive gives_back.
Proof. intros s l req Hl Hin. rewrite <- (app_nil_r (log_of s)) in Hl at 1. apply app_inv_head in Hl as <-. by apply elem_of_nil in Hin. Qed.

(** Such a request was sent since [s]. *)
Definition given_back s s' : Prop :=
  exists l req l', log_of s' = log_of s ++ l ++ req :: l' /\ is_request GUC_PF_OPCODE_VF_RESTORE req /\ req_blob req = bytes.

#[local] Abbreviation safely := (safe (fun _ => True) others gives_back).

(** Actions on the VFs that ask for no restore. *)
Definition asks_no_restore {A} (m : st vf_state A) : Prop :=
  forall u, exists l, d_log (v_dev (snd (m u))) = d_log (v_dev u) ++ l /\
    forall req, req ∈ l -> ~ is_request GUC_PF_OPCODE_VF_RESTORE req.
Definition quiet {A} (m : st sriov_state A) : Prop :=
  forall s, sr_guc_state (snd (m s)) g v = sr_guc_state s g v /\
    exists l, log_of (snd (m s)) = log_of s ++ l /\ forall req, req ∈ l -> ~ is_request GUC_PF_OPCODE_VF_RESTORE req.

Lemma quiet_on_vf {A} (p : prog vf_state A) : all_acts (@asks_no_restore) p -> all_acts (@quiet) (on_vf p).
Proof.
  induction p as [a|C m k IH]; [done|]. intros [Hm Hk]. split; [|by intros b; apply IH].
  intros s. specialize (Hm (sr_vf s)). by destruct (m (sr_vf s)).
Qed.
Lemma asks_nothing {A} (m : st vf_state A) : (forall u, d_log (v_dev (snd (m u))) = d_log (v_dev u)) -> asks_no_restore m.
Proof. intros Hm u. exists []. rewrite Hm, app_nil_r. split; [done|]. by intros req ?%elem_of_nil. Qed.

Lemma control_asks cmd : asks_no_restore (guc_action_vf_control_cmd g v cmd).
Proof.
  intros u. exists [{| req_gt := g; req_msg := vf_control_msg v cmd; req_blob := [] |}]. split; [done|].
  intros req ->%list_elem_of_singleton (_ & off & sz & Hm). cbn [req_msg] in Hm.
  apply (f_equal head) in Hm. cbn [head vf_control_msg save_restore_msg] in Hm. revert Hm. by vm_compute.
Qed.
Lemma pause_quiet polls inferred : all_acts (@quiet) (on_vf (intel_iov_state_pause_vf_sync polls g v inferred)).
Proof.
  apply quiet_on_vf.
  assert (forall k, all_acts (@asks_no_restore) (wait_for_paused k g v)) as Hw.
  { intros k. induction k as [|k IH]; (apply all_acts_bind; [by apply all_acts_atom, asks_nothing|]); by intros []. }
  unfold intel_iov_state_pause_vf_sync, intel_iov_state_pause_vf, intel_iov_state_no_flr, intel_iov_state_no_pause,
    test_bit, set_bit, clear_bit, test_and_set_bit, get_paused, pf_control_vf.
  repeat match goal with
    | |- all_acts _ (_ ≫= _) => apply all_acts_bind; [|intros ?]
    | |- all_acts _ (if _ then _ else _) => apply all_acts_if
    | |- all_acts _ (mret _) => done
    | |- all_acts _ (wait_for_paused _ _ _) => apply Hw
    | |- all_acts _ (atom (guc_action_vf_control_cmd _ _ _)) => apply all_acts_atom, control_asks
    | |- all_acts _ (atom _) => apply all_acts_atom, asks_nothing; done
    end.
Qed.

Lemma safe_quiet {A} (p : prog sriov_state A) s0 s :
  all_acts (@quiet) p -> sr_guc_state s g v = copy bytes -> (exists l, log_of s = log_of s0 ++ l) ->
  safely p (fun _ s' => sr_guc_state s' g v = copy bytes /\ exists l, log_of s' = log_of s0 ++ l) s.
Proof.
  intros Hp Hc Hl. apply (safe_all_acts (@quiet) (fun _ => True) others gives_back
    (fun s => sr_guc_state s g v = copy bytes /\ exists l, log_of s = log_of s0 ++ l)); try done.
  - intros A0 m s1 Hm _ [Hc1 [l1 Hl1]]. destruct (Hm s1) as (Hg & l & Hlog & Hno). split_and!; [|done|congruence|].
    + intros l' req Hl' Hin Hreq. rewrite Hl' in Hlog. apply app_inv_head in Hlog as ->. by destruct (Hno req Hin).
    + exists (l1 ++ l). by rewrite Hlog, Hl1, app_assoc.
  - intros s1 s2 [Hg [l Hl2]] [Hc1 [l1 Hl1]]. split; [congruence|]. exists (l1 ++ l). by rewrite Hl2, Hl1, app_assoc.
Qed.

Lemma restore_vf_asks d :
  let '(err, d') := intel_iov_state_restore_vf g v bytes (Z.of_nat (length bytes)) d in
  (exists l, d_log d' = d_log d ++ l /\ forall req, req ∈ l -> req_blob req = bytes) /\
  (0 <= err -> exists req, d_log d' = d_log d ++ [req] /\ is_request GUC_PF_OPCODE_VF_RESTORE req /\ req_blob req = bytes).
Proof.
  assert (forall x : Z, x < 0 -> (exists l, d_log d = d_log d ++ l /\ forall req, req ∈ l -> req_blob req = bytes) /\
    (0 <= x -> exists req, d_log d = d_log d ++ [req] /\ is_request GUC_PF_OPCODE_VF_RESTORE req /\ req_blob req = bytes)) as Hno.
  { intros x Hx. split; [|lia]. exists []. rewrite app_nil_r. split; [done|]. by intros req ?%elem_of_nil. }
  unfold intel_iov_state_restore_vf. destruct (_ <? _); [by apply Hno|].
  unfold pf_restore_vf, guc_action_save_restore_vf, intel_guc_allocate_and_map_vma, intel_guc_send, mbind, st_bind.
  cbn [fst snd d_log d_ticks d_live upd_hw]. destruct (Z.ltb_spec (env_vma (d_ticks d)) 0); [by apply Hno|].
  rewrite Nat2Z.id, take_ge by lia. set (req := {| req_gt := g |}). unfold mret, st_ret.
  cbn [fst snd d_log d_ticks d_live upd_hw].
  assert (is_request GUC_PF_OPCODE_VF_RESTORE req) as Hreq by (split; [done|by eexists _, _]).
  split; [|by exists req]. exists [req]. split; [done|]. by intros q ->%list_elem_of_singleton.
Qed.

Definition restore_result s0 (err : Z) s : Prop :=
  err = 0 /\ blob (sr_guc_state s g v) = None /\ given_back s0 s \/
  err < 0 /\ sr_guc_state s g v = copy bytes.

Lemma safe_restore s :
  sr_guc_state s g v = copy bytes -> safely (pf_gt_restore_vf_guc_state g v) (restore_result s) s.
Proof.
  intros Hc. unfold pf_gt_restore_vf_guc_state. apply safe_look; [apply _|]. intros s1 [Hg1 Hl1].
  rewrite Hg1, Hc. cbn [blob copy blob_size].
  assert (forall err s', err < 0 -> sr_guc_state s' g v = copy bytes -> safely (mret err) (restore_result s) s') as Hfail.
  { intros err s' He Hs'. apply safe_end. intros s2 [Hg2 _]. right. split; [done|congruence]. }
  apply (safe_then _ _ _ _ _ (fun _ s' => sr_guc_state s' g v = copy bytes /\ exists l, log_of s' = log_of s ++ l));
    [apply safe_quiet; [|congruence|done]| |done].
  { generalize (wait_polls I915_VF_REPROVISION_TIMEOUT_MS). intros k.
    induction k as [|k IH]; (apply all_acts_bind; [apply all_acts_atom|by intros []]).
    all: intros u; split; [done|]; exists []; rewrite app_nil_r; (split; [done|]); by intros req ?%elem_of_nil. }
  intros ok s2 _ [Hc2 Hl2]. destruct ok; cbn [negb]; [|by apply Hfail].
  apply (safe_then _ _ _ _ _ (fun _ s' => sr_guc_state s' g v = copy bytes /\ exists l, log_of s' = log_of s ++ l));
    [apply safe_quiet; [destruct (guc_v2 g); [apply pause_quiet|done]|done|done]| |done].
  intros err s3 _ [Hc3 Hl3]. destruct (Z.ltb_spec err 0) as [He|_]; [by apply Hfail|].
  apply safe_sdev. intros s4 [Hg4 [l4 Hl4]]. pose proof (restore_vf_asks (sr_dev s4)) as Ha.
  destruct (intel_iov_state_restore_vf _ _ _ _ _) as [err2 d4]. destruct Ha as [(l & Hl & Hall) Hsent]. split.
  { intros l' req Hl' Hin _. apply Hall. change (d_log d4 = log_of s4 ++ l') in Hl'. unfold log_of in Hl'.
    rewrite Hl in Hl'. apply app_inv_head in Hl' as ->. done. }
  destruct (Z.ltb_spec err2 0) as [He|He]; [apply Hfail; [done|]; change (sr_guc_state s4 g v = copy bytes); congruence|].
  destruct (Hsent He) as (req & Hlog & Hreq & Hblob). destruct Hl3 as [l3 Hl3].
  apply safe_change. intros s5 [_ [l5 Hl5]]. split.
  { intros l' q Hl' Hin _. rewrite log_guc_state in Hl'. rewrite <- (app_nil_r (log_of s5)) in Hl' at 1.
    apply app_inv_head in Hl' as <-. by apply elem_of_nil in Hin. }
  apply safe_end. intros s6 [Hg6 [l6 Hl6]]. left. split; [done|]. split; [by rewrite Hg6, guc_state_at|].
  exists (l3 ++ l4), req, (l5 ++ l6). split; [|done]. rewrite Hl6, log_guc_state, Hl5.
  change ((d_log d4 ++ l5) ++ l6 = log_of s ++ (l3 ++ l4) ++ req :: l5 ++ l6).
  rewrite Hlog. change (d_log (sr_dev s4)) with (log_of s4). rewrite Hl4, Hl3, <- !app_assoc. done.
Qed.
End restore.

(** C7: what GuC knows of a VF survives the suspend. When the save of a VF on a GT ends with a
    positive size, among any other threads that send requests of their own, the PF holds exactly
    the bytes that GuC left in answer to a request to save this VF. From any later state with that
    copy, every request to restore the VF that [pf_gt_restore_vf_guc_state] sends carries these
    bytes; the function returns 0 only after it has sent one, and then the copy is gone, and an
    error only with the copy still there. *)
Theorem guc_state_survives s ret s1 :
  size_ok (sr_guc_state s g v) ->
  rtc (among (fun _ => True) others) (pf_gt_save_vf_guc_state g v, s) (Ret ret, s1) -> 0 < ret ->
  exists bytes, saved bytes s1 /\ forall s2 p s3,
    sr_guc_state s2 g v = sr_guc_state s1 g v ->
    rtc (among (fun _ => True) others) (pf_gt_restore_vf_guc_state g v, s2) (p, s3) ->
    gives_back bytes s3 (snd (step_prog p s3)) /\
    forall err, p = Ret err ->
      err = 0 /\ blob (sr_guc_state s3 g v) = None /\ given_back bytes s2 s3 \/
      err < 0 /\ sr_guc_state s3 g v = sr_guc_state s1 g v.
Proof using Type*.
  intros Hok Hsave Hret.
  assert (Reflexive (fun _ _ : sriov_state => True)) as Hrefl by done.
  destruct (among_result (fun _ => True) others (fun _ _ => True) _ _ _ _ _ Hsave I (safe_save s Hok) Hret)
    as (bytes & Hc & Hby).
  exists bytes. split; [done|]. intros s2 p s3 H2 Hrun. rewrite Hc in H2 |- *.
  split; [exact (among_step _ others (gives_back bytes) _ _ _ _ _ Hrun I (safe_restore bytes s2 H2))|].
  intros err ->. exact (among_result _ others (gives_back bytes) _ _ _ _ _ Hrun I (safe_restore bytes s2 H2)).
Qed.
End survive.

(** ** Samples *)

(** GuC answers a request to save or restore with 8, one to control a VF with 0 and one that
    carries KLVs with the one of them that it takes. *)
Definition state_reply (r : guc_req) : Z :=
  let action := FIELD_GET GUC_HXG_REQUEST_MSG_0_ACTION (nth 0 (req_msg r) 0) in
  if action =? GUC_ACTION_PF2GUC_SAVE_RESTORE_VF then 8 else
  if action =? GUC_ACTION_PF2GUC_VF_CONTROL then 0 else 1.
Definition sample_state_env : Env := {|
  env_gtt := sample_gtt; has_media_gt := true; env_alloc _ := true; env_vma _ := 0;
  env_vma_addr n := 0x100000 + 4096 * Z.of_nat n; guc_reply _ := state_reply; ggtt_pin_bias := 0x100000;
  ggtt_total := sample_total; wopcm_guc_size _ := 0x100000; require_binder := false; bind_ready _ := false;
  bind_fails_after _ := None; scratch_pte := 0 |}.
#[local] Existing Instance sample_state_env.
#[export] Instance sample_state_env_laws : EnvLaws sample_state_env.
Proof.
  destruct sample_env_laws. split; assumption.
Qed.

Section samples.
#[local] Existing Instance sample_relay_env.
#[local] Existing Instance sample_service_env.
#[local] Instance sample_state_device : SriovEnv := sample_sriov_env 0.

(** A device with two VFs enabled and pushed, of which a driver of its own has VF 1. *)
Definition sample_state_dev : dev := {|
  d_prov _ := set_num_pushed 2 sample_prov; d_totalvfs := 4; d_numvfs := 2; d_status := 4; d_disable_auto := false;
  d_ids_in_use _ := 100; d_num_guc_ids _ := 12799;
  d_mm := ([(0, 0x100000)] : list (Z * Z)) : @gtt_space (@env_gtt sample_state_env);
  d_ptes _ := 0; d_shadows := None; d_log := []; d_ticks := 0; d_live := 0 |}.
Definition sample_active : sriov_state := {|
  sr_vf := {| v_dev := sample_state_dev; v_data _ := replicate 5 data0; v_worker _ := false; v_trace := [] |};
  sr_relay _ := {| pending_relays := []; last_fence := 0 |};
  sr_runtime _ := {| rt_size := 0; rt_regs := []; rt_values := [] |}; sr_reads := 0;
  sr_device_vfs := 4; sr_limit := 4; sr_pm _ := 1; sr_pxp := true; sr_kobjs := true; sr_links := [];
  sr_guc_state _ _ := {| blob := None; blob_size := 0 |}; sr_pdev_refs := 0; sr_writes := []; sr_calls := 0 |}.

Lemma state_reply_small r : state_reply r < 2 ^ 28.
Proof. unfold state_reply. repeat case_match; by vm_compute. Qed.

Definition result_of {S A} (p : prog S A) : option A := match p with Ret a => Some a | _ => None end.
Lemma result_ret {S A} (p : prog S A) a : result_of p = Some a -> p = Ret a.
Proof. destruct p; [|done]. by intros [= ->]. Qed.
Lemma among_own_end {S A} (I : S -> Prop) (Rely : S -> S -> Prop) k (x : prog S A * S) p :
  (own_steps k x).1 = p -> rtc (among I Rely) x (p, (own_steps k x).2).
Proof. intros <-. rewrite <- surjective_pairing. apply among_own. Qed.

(** VF 1 is saved and, when it is paused again, restored. *)
Definition all_paused (s : sriov_state) : sriov_state :=
  set_sr_vf {| v_dev := sr_dev s; v_data _ := replicate 5 (with_paused true data0); v_worker _ := false; v_trace := [] |} s.

Lemma guc_state_survives_witness :
  let x := own_steps 6 (pf_gt_save_vf_guc_state GT_PRIMARY 1, sample_active) in
  let y := own_steps 40 (pf_gt_restore_vf_guc_state GT_PRIMARY 1, all_paused x.2) in
  result_of y.1 = Some 0 /\ exists bytes, saved GT_PRIMARY 1 bytes x.2 /\ given_back GT_PRIMARY 1 bytes (all_paused x.2) y.2.
Proof.
  intros x y. assert (result_of x.1 = Some 32) as Hx by (by vm_compute).
  assert (result_of y.1 = Some 0) as Hy by (by vm_compute). split; [exact Hy|].
  apply result_ret in Hx, Hy.
  destruct (guc_state_survives (E := sample_state_env) GT_PRIMARY 1 (fun _ => state_reply_small) sample_active 32 x.2) as (bytes & Hs & Hr).
  - by intros b.
  - by apply among_own_end.
  - lia.
  - exists bytes. split; [done|].
    destruct (Hr (all_paused x.2) y.1 y.2) as [_ Hend]; [done|by apply among_own_end|].
    destruct (Hend 0 Hy) as [(_ & _ & Hg)|[Hneg _]]; [exact Hg|]. discriminate Hneg.
Defined.

(** *** A pause that is forgotten *)

(** A program among whose steps GuC confirms every pause and the workers run that push the
    configurations again. *)
Definition confirm_pauses (s : sriov_state) : sriov_state :=
  foldl (fun s gv => if vf_bit (sr_vf s) gv.1 gv.2 IOV_VF_PAUSE_IN_PROGRESS
                     then snd (atomically (on_vf (pf_handle_vf_pause_done gv.1 gv.2)) s) else s)
    s (list_prod all_gts [1; 2]%nat).
Definition run_workers (s : sriov_state) : sriov_state :=
  foldl (fun s g => if worker_queued (d_prov (sr_dev s) g)
                    then snd (atomically (on_sdev (pf_reprovisioning_worker_func g)) s) else s) s all_gts.
Fixpoint run_confirmed {A} (fuel : nat) (p : prog sriov_state A) (s : sriov_state) : option (A * sriov_state) :=
  match p, fuel with
  | Ret a, _ => Some (a, s)
  | _, O => None
  | _, S fuel => let '(p, s) := step_prog p s in run_confirmed fuel p (run_workers (confirm_pauses s))
  end.
Definition then_run {A} (p : prog sriov_state A) (x : option sriov_state) : option sriov_state :=
  s ← x; snd <$> run_confirmed 1000 p s.
Definition is_paused (s : sriov_state) : bool := paused (vf_data (sr_vf s) GT_PRIMARY 1).

(** The user paused VF 1. The resume of the GTs forgets that ([intel_iov_state_reset]); to restore
    the VF's state the PF then pauses it itself and notes that the suspend did, so that in the end it
    resumes the VF. *)
Theorem user_pause_forgotten :
  let paused := then_run (i915_sriov_pause_vf 1) (Some sample_active) in
  let resumed := then_run i915_gem_resume (then_run i915_gem_suspend paused) in
  is_paused <$> paused = Some true /\ is_paused <$> resumed = Some false /\
  (s ← resumed; last (filter (fun r => bool_decide (req_gt r = GT_PRIMARY)) (log_of s))) =
    Some {| req_gt := GT_PRIMARY; req_msg := vf_control_msg 1 GUC_PF_TRIGGER_VF_RESUME; req_blob := [] |}.
Proof. vm_compute. by split_and!. Qed.
End samples.
