(* ===== verification/Sysfs.v ===== *)
(** * What user space can do

    The attributes in sysfs through which the administrator of the host provisions and controls
    VFs: gt/iov/intel_iov_sysfs.c for each GT and i915_sriov_sysfs.c for the device. Which
    attributes a node has and with which mode, what a read shows and what a write does. *)

From Stdlib Require Import String DecimalString.
From S2P Require Export Typed Enable.
Open Scope Z_scope.

#[local] Abbreviation pr A := (prog sriov_state A).

(** The conversions of the kernel (include/linux/kstrtox.h, sysfs.h) from the text that user
    space writes. *)
Class SysfsEnv := {
  kstrtou : Z -> string -> Z + Z;             (** kstrtou16, 32 or 64 with base 0: an errno or the number *)
  kstrtobool : string -> Z + bool;
  sysfs_streq : string -> string -> bool;
}.
Class SysfsEnvLaws (K : SysfsEnv) : Prop := {
  kstrtou_range w buf v : kstrtou w buf = inr v -> 0 <= v < 2 ^ w;
  kstrtou_err w buf err : kstrtou w buf = inl err -> err < 0;
  kstrtobool_err buf err : kstrtobool buf = inl err -> err < 0;
}.

(** [err ?: count] *)
Definition err_or_count (err count : Z) : Z := elvis err count.

(** ** The attributes of a GT *)

(** The variables of type [struct iov_attr]; the thresholds are generated by a macro. *)
Inductive iov_attr :=
| exec_quantum_ms_iov_attr | preempt_timeout_us_iov_attr
| ggtt_spare_iov_attr | contexts_spare_iov_attr | doorbells_spare_iov_attr
| ggtt_free_iov_attr | ggtt_max_quota_iov_attr | contexts_free_iov_attr | contexts_max_quota_iov_attr
| doorbells_free_iov_attr | doorbells_max_quota_iov_attr
| sched_if_idle_iov_attr | engine_reset_iov_attr | sample_period_ms_iov_attr
| ggtt_quota_iov_attr | contexts_quota_iov_attr | doorbells_quota_iov_attr
| threshold_iov_attr (t : intel_iov_threshold).

#[export] Instance iov_attr_eq_dec : EqDecision iov_attr.
Proof. assert (EqDecision intel_iov_threshold) by solve_decision. solve_decision. Defined.

Section attrs.
Context `{E : Env} `{B : BitmapOps} `{R : RelayEnv} `{P : ServiceEnv} `{Sv : SaveEnv} `{V : SriovEnv} `{K : SysfsEnv}.

(** *** Reading: the number that is printed, in the width of its format *)

Definition exec_quantum_ms_iov_attr_show (g : gt_id) (id : nat) : st dev Z :=
  gets (fun d => u32 (intel_iov_provisioning_get_exec_quantum g id d)).
Definition preempt_timeout_us_iov_attr_show (g : gt_id) (id : nat) : st dev Z :=
  gets (fun d => u32 (intel_iov_provisioning_get_preempt_timeout g id d)).
Definition ggtt_spare_iov_attr_show (g : gt_id) : st dev Z := gets (intel_iov_provisioning_get_spare_ggtt g).
Definition contexts_spare_iov_attr_show (g : gt_id) : st dev Z :=
  gets (fun d => u16 (intel_iov_provisioning_get_spare_ctxs g d)).
Definition doorbells_spare_iov_attr_show (g : gt_id) : st dev Z :=
  gets (fun d => u16 (intel_iov_provisioning_get_spare_dbs g d)).
Definition ggtt_free_iov_attr_show (g : gt_id) : st dev Z := gets (intel_iov_provisioning_query_free_ggtt g).
Definition ggtt_max_quota_iov_attr_show (g : gt_id) : st dev Z := gets (intel_iov_provisioning_query_max_ggtt g).
Definition contexts_free_iov_attr_show (g : gt_id) : st dev Z :=
  n ← intel_iov_provisioning_query_free_ctxs g; mret (u16 n).
Definition contexts_max_quota_iov_attr_show (g : gt_id) : st dev Z :=
  n ← intel_iov_provisioning_query_max_ctxs g; mret (u16 n).
Definition doorbells_free_iov_attr_show (g : gt_id) : st dev Z :=
  n ← intel_iov_provisioning_query_free_dbs g; mret (u16 n).
Definition doorbells_max_quota_iov_attr_show (g : gt_id) : st dev Z :=
  n ← intel_iov_provisioning_query_max_dbs g; mret (u16 n).
Definition sched_if_idle_iov_attr_show (g : gt_id) : st dev Z :=
  gets (fun d => Z.b2z (intel_iov_provisioning_get_sched_if_idle g d)).
Definition engine_reset_iov_attr_show (g : gt_id) : st dev Z :=
  gets (fun d => Z.b2z (intel_iov_provisioning_get_reset_engine g d)).
Definition sample_period_ms_iov_attr_show (g : gt_id) : st dev Z :=
  gets (fun d => u32 (intel_iov_provisioning_get_sample_period g d)).
Definition ggtt_quota_iov_attr_show (g : gt_id) (id : nat) : st dev Z :=
  gets (fun d => u64 (intel_iov_provisioning_get_ggtt g id d)).
Definition contexts_quota_iov_attr_show (g : gt_id) (id : nat) : st dev Z :=
  gets (fun d => u16 (intel_iov_provisioning_get_ctxs g id d)).
Definition doorbells_quota_iov_attr_show (g : gt_id) (id : nat) : st dev Z :=
  gets (fun d => u16 (intel_iov_provisioning_get_dbs g id d)).
Definition threshold_iov_attr_show (t : intel_iov_threshold) (g : gt_id) (id : nat) : st dev Z :=
  gets (fun d => u32 (intel_iov_provisioning_get_threshold g id t d)).

(** [iov_attr_show]: every attribute has a [show]. *)
Definition iov_attr_show (g : gt_id) (id : nat) (a : iov_attr) : st dev Z :=
  match a with
  | exec_quantum_ms_iov_attr => exec_quantum_ms_iov_attr_show g id
  | preempt_timeout_us_iov_attr => preempt_timeout_us_iov_attr_show g id
  | ggtt_spare_iov_attr => ggtt_spare_iov_attr_show g
  | contexts_spare_iov_attr => contexts_spare_iov_attr_show g
  | doorbells_spare_iov_attr => doorbells_spare_iov_attr_show g
  | ggtt_free_iov_attr => ggtt_free_iov_attr_show g
  | ggtt_max_quota_iov_attr => ggtt_max_quota_iov_attr_show g
  | contexts_free_iov_attr => contexts_free_iov_attr_show g
  | contexts_max_quota_iov_attr => contexts_max_quota_iov_attr_show g
  | doorbells_free_iov_attr => doorbells_free_iov_attr_show g
  | doorbells_max_quota_iov_attr => doorbells_max_quota_iov_attr_show g
  | sched_if_idle_iov_attr => sched_if_idle_iov_attr_show g
  | engine_reset_iov_attr => engine_reset_iov_attr_show g
  | sample_period_ms_iov_attr => sample_period_ms_iov_attr_show g
  | ggtt_quota_iov_attr => ggtt_quota_iov_attr_show g id
  | contexts_quota_iov_attr => contexts_quota_iov_attr_show g id
  | doorbells_quota_iov_attr => doorbells_quota_iov_attr_show g id
  | threshold_iov_attr t => threshold_iov_attr_show t g id
  end.

(** *** Writing: parse, set, and say that all of the text was taken *)

Definition store_number (w : Z) (set : Z -> st dev Z) (buf : string) (count : Z) : st dev Z :=
  match kstrtou w buf with
  | inl err => mret err
  | inr v => err ← set v; mret (err_or_count err count)
  end.
Definition store_bool (set : bool -> st dev Z) (buf : string) (count : Z) : st dev Z :=
  match kstrtobool buf with
  | inl err => mret err
  | inr v => err ← set v; mret (err_or_count err count)
  end.

Definition exec_quantum_ms_iov_attr_store (g : gt_id) (id : nat) : string -> Z -> st dev Z :=
  store_number 32 (intel_iov_provisioning_set_exec_quantum g id).
Definition preempt_timeout_us_iov_attr_store (g : gt_id) (id : nat) : string -> Z -> st dev Z :=
  store_number 32 (intel_iov_provisioning_set_preempt_timeout g id).
Definition ggtt_spare_iov_attr_store (g : gt_id) : string -> Z -> st dev Z :=
  store_number 64 (intel_iov_provisioning_set_spare_ggtt g).
Definition contexts_spare_iov_attr_store (g : gt_id) : string -> Z -> st dev Z :=
  store_number 16 (intel_iov_provisioning_set_spare_ctxs g).
Definition doorbells_spare_iov_attr_store (g : gt_id) : string -> Z -> st dev Z :=
  store_number 16 (intel_iov_provisioning_set_spare_dbs g).
Definition sched_if_idle_iov_attr_store (g : gt_id) : string -> Z -> st dev Z :=
  store_bool (intel_iov_provisioning_set_sched_if_idle g).
Definition engine_reset_iov_attr_store (g : gt_id) : string -> Z -> st dev Z :=
  store_bool (intel_iov_provisioning_set_reset_engine g).
Definition sample_period_ms_iov_attr_store (g : gt_id) : string -> Z -> st dev Z :=
  store_number 32 (intel_iov_provisioning_set_sample_period g).
Definition ggtt_quota_iov_attr_store (g : gt_id) (id : nat) : string -> Z -> st dev Z :=
  store_number 64 (intel_iov_provisioning_set_ggtt g id).
Definition contexts_quota_iov_attr_store (g : gt_id) (id : nat) : string -> Z -> st dev Z :=
  store_number 16 (intel_iov_provisioning_set_ctxs g id).
Definition doorbells_quota_iov_attr_store (g : gt_id) (id : nat) : string -> Z -> st dev Z :=
  store_number 16 (intel_iov_provisioning_set_dbs g id).
Definition threshold_iov_attr_store (t : intel_iov_threshold) (g : gt_id) (id : nat) : string -> Z -> st dev Z :=
  store_number 32 (intel_iov_provisioning_set_threshold g id t).

(** The [store] of an attribute, if it has one ([IOV_ATTR] and [IOV_ATTR_RO]). *)
Definition iov_attr_store_of (a : iov_attr) : option (gt_id -> nat -> string -> Z -> st dev Z) :=
  match a with
  | exec_quantum_ms_iov_attr => Some exec_quantum_ms_iov_attr_store
  | preempt_timeout_us_iov_attr => Some preempt_timeout_us_iov_attr_store
  | ggtt_spare_iov_attr => Some (fun g _ => ggtt_spare_iov_attr_store g)
  | contexts_spare_iov_attr => Some (fun g _ => contexts_spare_iov_attr_store g)
  | doorbells_spare_iov_attr => Some (fun g _ => doorbells_spare_iov_attr_store g)
  | sched_if_idle_iov_attr => Some (fun g _ => sched_if_idle_iov_attr_store g)
  | engine_reset_iov_attr => Some (fun g _ => engine_reset_iov_attr_store g)
  | sample_period_ms_iov_attr => Some (fun g _ => sample_period_ms_iov_attr_store g)
  | ggtt_quota_iov_attr => Some ggtt_quota_iov_attr_store
  | contexts_quota_iov_attr => Some contexts_quota_iov_attr_store
  | doorbells_quota_iov_attr => Some doorbells_quota_iov_attr_store
  | threshold_iov_attr t => Some (threshold_iov_attr_store t)
  | ggtt_free_iov_attr | ggtt_max_quota_iov_attr | contexts_free_iov_attr | contexts_max_quota_iov_attr
  | doorbells_free_iov_attr | doorbells_max_quota_iov_attr => None
  end.

Definition iov_attr_store (g : gt_id) (id : nat) (a : iov_attr) (buf : string) (count : Z) : st dev Z :=
  match iov_attr_store_of a with Some store => store g id buf count | None => mret (- EIO) end.

(** *** Which node has which attribute *)

Definition iov_attrs : list iov_attr := [exec_quantum_ms_iov_attr; preempt_timeout_us_iov_attr].
Definition pf_attrs : list iov_attr := [ggtt_spare_iov_attr; contexts_spare_iov_attr; doorbells_spare_iov_attr].
Definition pf_available_attrs : list iov_attr :=
  [ggtt_free_iov_attr; ggtt_max_quota_iov_attr; contexts_free_iov_attr; contexts_max_quota_iov_attr;
   doorbells_free_iov_attr; doorbells_max_quota_iov_attr].
Definition pf_policies_attrs : list iov_attr := [sched_if_idle_iov_attr; engine_reset_iov_attr; sample_period_ms_iov_attr].
Definition vf_attrs : list iov_attr := [ggtt_quota_iov_attr; contexts_quota_iov_attr; doorbells_quota_iov_attr].
Definition vf_threshold_attrs : list iov_attr := threshold_iov_attr <$> IOV_THRESHOLDS.

(** [iov_attr_groups], with the default groups of every node. *)
Definition iov_attr_groups (id : nat) : list iov_attr :=
  iov_attrs ++ if (id =? 0)%nat then pf_attrs ++ pf_available_attrs ++ pf_policies_attrs else vf_attrs ++ vf_threshold_attrs.

(** The mode of an attribute: 0644 or, without a [store], 0444. *)
Definition attr_mode (a : iov_attr) : Z := match iov_attr_store_of a with Some _ => 0x1a4 | None => 0x124 end.

(** [vf_attr_is_visible]: the quota of the GGTT, which the GTs share, is set on the root GT. *)
Definition vf_attr_is_visible (g : gt_id) (a : iov_attr) : Z :=
  if bool_decide (a = ggtt_quota_iov_attr) && bool_decide (g = GT_MEDIA) then Z.land (attr_mode a) 0x124 else attr_mode a.

(** The mode of the file, 0 if the node has none of that name. *)
Definition file_mode (g : gt_id) (id : nat) (a : iov_attr) : Z :=
  if bool_decide (a ∈ iov_attr_groups id) then
    if bool_decide (a ∈ vf_attrs) then vf_attr_is_visible g a else attr_mode a
  else 0.
Definition writable (g : gt_id) (id : nat) (a : iov_attr) : bool := negb (Z.land (file_mode g id a) 0x80 =? 0).

(** A write of user space to a file, refused without the permission to write. *)
Definition user_write (g : gt_id) (id : nat) (a : iov_attr) (buf : string) (count : Z) : st dev Z :=
  if writable g id a then iov_attr_store g id a buf count else mret (- EACCES).

(** *** The state of a VF, as a file of 4 KiB *)

Definition bin_attr_state_read (g : gt_id) (id : nat) (buf : list Z) (off count : Z) : st dev (Z * list Z) :=
  if off >? 0 then mret (- EINVAL, buf) else
  '(err, buf) ← intel_iov_state_save_vf g id buf count;
  mret (if negb (err =? 0) then (err, buf) else (SZ_4K, buf)).

Definition bin_attr_state_write (g : gt_id) (id : nat) (buf : list Z) (off count : Z) : st dev Z :=
  if off >? 0 then mret (- EINVAL) else
  err ← intel_iov_state_restore_vf g id buf count;
  mret (if negb (err =? 0) then err else count).

(** ** The attributes of the device and of the functions *)

Definition i915_iov_mode_to_string (mode : i915_iov_mode) : string :=
  match mode with
  | I915_IOV_MODE_NONE => "non virtualized" | I915_IOV_MODE_GVT_VGPU => "GVT VGPU"
  | I915_IOV_MODE_SRIOV_PF => "SR-IOV PF" | I915_IOV_MODE_SRIOV_VF => "SR-IOV VF"
  end%string.
Definition mode_sriov_attr_show : string := i915_iov_mode_to_string iov_mode.

(** The variables of type [struct i915_sriov_ext_attr]. *)
Inductive sriov_ext_attr := auto_provisioning_sriov_ext_attr | id_sriov_ext_attr | control_sriov_ext_attr.
#[export] Instance sriov_ext_attr_eq_dec : EqDecision sriov_ext_attr.
Proof. solve_decision. Defined.

Definition pf_ext_attrs : list sriov_ext_attr := [auto_provisioning_sriov_ext_attr].
Definition vf_ext_attrs : list sriov_ext_attr := [id_sriov_ext_attr; control_sriov_ext_attr].

(** The macros of all of them, also those for reading or writing only, say 0644. *)
Definition ext_attr_mode (a : sriov_ext_attr) : Z := 0x1a4.
Definition pf_ext_attr_is_visible (id : nat) (a : sriov_ext_attr) : Z := if negb (id =? 0)%nat then 0 else ext_attr_mode a.
Definition vf_ext_attr_is_visible (id : nat) (a : sriov_ext_attr) : Z := if (id =? 0)%nat then 0 else ext_attr_mode a.
(** [default_sriov_ext_attr_groups] *)
Definition ext_file_mode (id : nat) (a : sriov_ext_attr) : Z :=
  if bool_decide (a ∈ pf_ext_attrs) then pf_ext_attr_is_visible id a else vf_ext_attr_is_visible id a.

Definition auto_provisioning_sriov_ext_attr_show : st dev Z :=
  gets (fun d => Z.b2z (i915_sriov_pf_is_auto_provisioning_enabled d)).
Definition auto_provisioning_sriov_ext_attr_store : string -> Z -> st dev Z :=
  store_bool i915_sriov_pf_set_auto_provisioning.
Definition id_sriov_ext_attr_show (id : nat) : Z := Z.of_nat id.

Definition control_sriov_ext_attr_store (id : nat) (buf : string) (count : Z) : pr Z :=
  err ← (if sysfs_streq buf "stop" then i915_sriov_pf_stop_vf id
         else if sysfs_streq buf "pause" then i915_sriov_pf_pause_vf id
         else if sysfs_streq buf "resume" then i915_sriov_pf_resume_vf id
         else if sysfs_streq buf "clear" then i915_sriov_pf_clear_vf id
         else mret (- EINVAL));
  mret (err_or_count err count).

Definition sriov_ext_attr_show (id : nat) (a : sriov_ext_attr) : st dev Z :=
  match a with
  | auto_provisioning_sriov_ext_attr => auto_provisioning_sriov_ext_attr_show
  | id_sriov_ext_attr => mret (id_sriov_ext_attr_show id)
  | control_sriov_ext_attr => mret (- EIO)
  end.
Definition sriov_ext_attr_store (id : nat) (a : sriov_ext_attr) (buf : string) (count : Z) : pr Z :=
  match a with
  | auto_provisioning_sriov_ext_attr => on_sdev (auto_provisioning_sriov_ext_attr_store buf count)
  | id_sriov_ext_attr => mret (- EIO)
  | control_sriov_ext_attr => control_sriov_ext_attr_store id buf count
  end.

Definition ext_writable (id : nat) (a : sriov_ext_attr) : bool := negb (Z.land (ext_file_mode id a) 0x80 =? 0).
Definition user_ext_write (id : nat) (a : sriov_ext_attr) (buf : string) (count : Z) : pr Z :=
  if ext_writable id a then sriov_ext_attr_store id a buf count else mret (- EACCES).
End attrs.

(** ** No write breaks the provisioning *)

Section safe.
Context `{E : Env} `{!EnvLaws E} `{B : BitmapOps} `{!BitmapLaws B} `{K : SysfsEnv} `{!SysfsEnvLaws K}.

(** Only the configuration of [id] on [g] changed. *)
Record cfg_only (g : gt_id) (id : nat) (d d' : dev) : Prop := {
  co_total : d_totalvfs d' = d_totalvfs d;
  co_other g' id' : g' <> g \/ id' <> id -> cfg d' g' id' = cfg d g' id';
}.
#[export] Instance cfg_only_preorder g id : PreOrder (cfg_only g id).
Proof.
  split; [done|]. intros a b c [H1 H2] [H3 H4]. split; [congruence|]. intros g' id' Hne. by rewrite H4, H2.
Qed.

(** On a PF with [n] VFs [m] keeps the invariant of provisioning and all other configurations. *)
Definition sound (g : gt_id) (id n : nat) {A} (m : st dev A) : Prop := forall d,
  (forall g', prov_inv g' d) -> d_totalvfs d = n ->
  wp m (fun _ d' => (forall g', prov_inv g' d') /\ cfg_only g id d d') d.

Lemma sound_ret g id n {A} (a : A) : sound g id n (mret a).
Proof. intros d I _. by apply wp_ret. Qed.
Lemma sound_bind g id n {A C} (m : st dev A) (k : A -> st dev C) :
  sound g id n m -> (forall a, sound g id n (k a)) -> sound g id n (m ≫= k).
Proof.
  intros Hm Hk d I Hn. apply wp_bind. eapply wp_mono; [by apply Hm|]. intros a d1 [I1 Hc1].
  eapply wp_mono; [apply Hk; [done|by rewrite (co_total _ _ _ _ Hc1)]|]. intros b d2 [I2 Hc2]. split; [done|by etransitivity].
Qed.
Lemma sound_gets g id n {A} (f : dev -> A) : sound g id n (gets f).
Proof. intros d I _. by apply wp_gets. Qed.
Lemma sound_hw g id n {A} (m : st dev A) : hw_only m -> sound g id n m.
Proof.
  intros Hm d I _. eapply hw_only_wp; [done|]. intros a d' Hs _. split; [intros g'; by apply (prov_inv_same g' d)|].
  split; [by destruct Hs|]. intros. by apply same_cfg.
Qed.
Lemma sound_prov g id n f : (forall p, configs (f p) = configs p) -> sound g id n (mod_prov g f).
Proof.
  intros Hf d I _. apply wp_mod_prov. split; [intros g'; by apply prov_inv_prov|]. split; [done|].
  intros g' id' _. unfold cfg. rewrite prov_upd. case_decide; [subst; by rewrite Hf|done].
Qed.
Lemma sound_mark g id n b : sound g id n (mark_manual_if b).
Proof. intros d I _. apply wp_mark_manual; (split; [|done]); [done|]. intros g'. by apply prov_inv_sriov. Qed.
(** What works on one GT keeps the invariant of the other. *)
Lemma sound_step g id n {A} (m : st dev A) :
  gt_only g m -> (forall d, prov_inv g d -> prov_inv GT_PRIMARY d -> d_totalvfs d = n ->
    wp m (fun _ d' => prov_inv g d' /\ forall g' id', g' <> g \/ id' <> id -> cfg d' g' id' = cfg d g' id') d) ->
  sound g id n m.
Proof.
  intros Hg Hm d I Hn. eapply wp_mono; [apply wp_and; [apply Hg|by apply Hm]|]. intros a d' (Hf & Hi & Hc). split.
  - intros g'. destruct (decide (g' = g)) as [->|Hne]; [done|]. by apply (prov_inv_other g g' d).
  - split; [by apply (gf_total _ _ _ Hf)|done].
Qed.

Lemma sound_ctxs g id n v : (1 <= id <= n)%nat -> 0 <= v < 65536 -> sound g id n (pf_provision_ctxs g id v).
Proof using EnvLaws0 BitmapLaws0.
  intros Hid Hv. apply sound_step; [apply gt_only_ctxs|]. intros d I _ Hn. apply step_ctxs; [done|by rewrite <- Hn in Hid|done|].
  intros ret d' b m I' Hst _. split; [done|]. intros. by eapply cfg_step_other.
Qed.
Lemma sound_dbs g id n v : (1 <= id <= n)%nat -> 0 <= v -> sound g id n (pf_provision_dbs g id v).
Proof using EnvLaws0 BitmapLaws0.
  intros Hid Hv. apply sound_step; [apply gt_only_dbs|]. intros d I _ Hn. apply step_dbs; [done|by rewrite <- Hn in Hid|done|].
  intros ret d' b m I' Hst _. split; [done|]. intros. by eapply cfg_step_other.
Qed.
Lemma sound_ggtt id n v : (1 <= id <= n)%nat -> is_u64 v -> sound GT_PRIMARY id n (pf_provision_ggtt GT_PRIMARY id v).
Proof using EnvLaws0 BitmapLaws0.
  intros Hid Hv. apply sound_step; [apply gt_only_ggtt|]. intros d I _ Hn.
  apply wp_provision_ggtt; [apply I|by rewrite <- Hn in Hid|done|]. intros ret d' nd I' Hs _.
  pose proof (cfg_step_conf _ _ _ _ _ Hs) as Hst. pose proof (cs_base _ _ _ _ _ Hst) as Hb.
  split; [|intros; by eapply cfg_step_other]. split; [done|..].
  - apply (ctxs_inv_ext _ d); [done| | |apply I]; by (eapply cfg_step_kept; [|exact Hst]).
  - apply (dbs_inv_ext _ d); [done| | |apply I]; by (eapply cfg_step_kept; [|exact Hst]).
Qed.
(** A scheduling parameter, of a VF or of the PF. *)
Lemma sound_param g id n key get put v :
  (forall c, resources (put v c) = resources c) -> sound g id n (provision_param g id key get put v).
Proof using EnvLaws0.
  intros Hres d I _. apply wp_bind, wp_get_cfg. apply wp_if; intros _; [by apply wp_ret|].
  apply wp_bind. eapply wp_mono; [apply call_klv32|]. intros err d1 (Hs & _). cbv beta.
  apply wp_if; intros _.
  - apply wp_ret. split; [intros g'; by apply (prov_inv_same g' d)|]. split; [by destruct Hs|]. intros. by apply same_cfg.
  - apply wp_bind, wp_mod_cfg, wp_ret.
    pose proof (cfg_step_pf _ _ _ _ _ (same_upd_cfg g id (put v) d d1 Hs)) as Hst. split.
    + intros g'. eapply prov_inv_ext; [apply Hst|by eapply cfg_step_kept|apply (same_mm _ _ Hs)|apply (same_ptes _ _ Hs)|done].
    + split; [apply (sb_total _ _ (cs_base _ _ _ _ _ Hst))|]. intros. by eapply cfg_step_other.
Qed.

Lemma sound_number g id n w set buf count :
  (forall v, 0 <= v < 2 ^ w -> sound g id n (set v)) -> sound g id n (store_number w set buf count).
Proof using SysfsEnvLaws0.
  intros Hset. unfold store_number. destruct (kstrtou w buf) as [err|v] eqn:Hk; [apply sound_ret|].
  apply sound_bind; [by apply Hset, (kstrtou_range w buf)|]. intros err. apply sound_ret.
Qed.
Lemma sound_bool g id n set buf count : (forall b, sound g id n (set b)) -> sound g id n (store_bool set buf count).
Proof using Type.
  intros Hset. unfold store_bool. destruct (kstrtobool buf) as [err|v]; [apply sound_ret|].
  apply sound_bind; [apply Hset|]. intros err. apply sound_ret.
Qed.
(** A setter marks the provisioning as manual when it has set something. *)
Lemma sound_then_mark g id n (m : st dev Z) (b : Z -> bool) :
  sound g id n m -> sound g id n (err ← m; mark_manual_if (b err) ≫= fun _ => mret err).
Proof using Type.
  intros Hm. apply sound_bind; [done|]. intros err. apply sound_bind; [apply sound_mark|]. intros _. apply sound_ret.
Qed.
Lemma sound_valid_mark g id n (valid : dev -> bool) (m : st dev Z) (b : bool -> Z -> bool) :
  sound g id n m -> sound g id n (v ← gets valid; err ← m; mark_manual_if (b v err) ≫= fun _ => mret err).
Proof using Type. intros Hm. apply sound_bind; [apply sound_gets|]. intros v. by apply sound_then_mark. Qed.
Lemma sound_spare g id n f : sound g id n (mod_prov g (fun p => set_spare (f (spare p)) p) ≫= fun _ => mret 0).
Proof using Type. apply sound_bind; [by apply sound_prov|]. intros _. apply sound_ret. Qed.
Lemma sound_policy g id n f (v : Z) key :
  sound g id n (err ← guc_update_policy_klv32 g key v; if negb (err =? 0) then mret err else
    mod_prov g (fun p => set_policies (f (policies p)) p) ≫= fun _ => mret 0).
Proof using Type.
  apply sound_bind; [apply sound_hw; hw_auto|]. intros err. destruct (negb _); [apply sound_ret|].
  apply sound_bind; [by apply sound_prov|]. intros _. apply sound_ret.
Qed.

Lemma vf_attr_id id a : a ∉ iov_attr_groups 0 -> a ∈ iov_attr_groups id -> (1 <= id)%nat.
Proof using Type. destruct id; [done|lia]. Qed.

Lemma writable_in g id a : writable g id a = true -> a ∈ iov_attr_groups id.
Proof using Type. unfold writable, file_mode. case_bool_decide; [done|]. by cbn. Qed.
Lemma writable_ggtt g id : writable g id ggtt_quota_iov_attr = true -> g = GT_PRIMARY.
Proof using Type. unfold writable, file_mode. case_bool_decide; [|by cbn]. by destruct g. Qed.

(** A write changes no other configuration than that of the file's node. *)
Lemma sound_write g id n a buf count : (id <= n)%nat -> sound g id n (user_write g id a buf count).
Proof using EnvLaws0 BitmapLaws0 SysfsEnvLaws0.
  intros Hle. unfold user_write. destruct (writable g id a) eqn:Hw; [|apply sound_ret].
  pose proof (writable_in _ _ _ Hw) as Hin.
  assert (bool_decide (a ∈ iov_attr_groups 0) = false -> (1 <= id <= n)%nat) as Hid.
  { intros Ha%bool_decide_eq_false. pose proof (vf_attr_id id a Ha Hin). lia. }
  destruct a; try apply sound_ret; cbn [iov_attr_store iov_attr_store_of];
    first [apply sound_bool; intros b|apply sound_number; intros v Hv].
  - apply sound_then_mark, (sound_param _ _ _ _ exec_quantum set_eq). done.
  - apply sound_then_mark, (sound_param _ _ _ _ preempt_timeout set_pt). done.
  - unfold intel_iov_provisioning_set_spare_ggtt. destruct (_ && _); [apply sound_ret|].
    destruct (check_round_up_overflow _ _) as [o r]. apply (sound_spare _ _ _ (with_spare_ggtt _)).
  - unfold intel_iov_provisioning_set_spare_ctxs. destruct (_ >? _); [apply sound_ret|].
    destruct (_ && _); [apply sound_ret|]. apply (sound_spare _ _ _ (with_spare_ctxs _)).
  - unfold intel_iov_provisioning_set_spare_dbs. destruct (_ >? _); [apply sound_ret|].
    destruct (_ && _); [apply sound_ret|]. apply (sound_spare _ _ _ (with_spare_dbs _)).
  - apply (sound_policy _ _ _ (with_sched_if_idle b)).
  - apply (sound_policy _ _ _ (with_reset_engine b)).
  - apply (sound_policy _ _ _ (with_sample_period v)).
  - assert (g = GT_PRIMARY) as -> by exact (writable_ggtt _ _ Hw).
    apply (sound_valid_mark _ _ _ _ _ (fun valid err => (err =? 0) && (valid || negb (v =? 0)))).
    apply sound_ggtt; [by apply Hid|done].
  - apply (sound_valid_mark _ _ _ _ _ (fun valid err => (err =? 0) && (valid || negb (v =? 0)) && negb (id =? PFID)%nat)).
    apply sound_ctxs; [by apply Hid|done].
  - apply (sound_valid_mark _ _ _ _ _ (fun valid err => (err =? 0) && (valid || negb (v =? 0)) && negb (id =? PFID)%nat)).
    apply sound_dbs; [by apply Hid|by apply Hv].
  - apply sound_then_mark, (sound_param _ _ _ _ (threshold_of t) (set_threshold t)). done.
Qed.

(** A write is a call whose argument has the type of the parameter. *)
Lemma ty_ignored {A} (m : st dev A) : ty any_result (m ≫= fun _ => mret tt) -> ty any_result m.
Proof using Type.
  intros Hm d Hd. specialize (Hm d Hd). unfold wp, mbind, mret, st_bind, st_ret in *. by destruct (m d).
Qed.
Lemma ty_number w set buf count :
  (forall v, 0 <= v < 2 ^ w -> ty any_result (set v)) -> ty any_result (store_number w set buf count).
Proof using SysfsEnvLaws0.
  intros Hset. unfold store_number. destruct (kstrtou w buf) as [err|v] eqn:Hk; [by apply ty_ret|].
  eapply ty_bind; [by apply Hset, (kstrtou_range w buf)|]. intros err _. by apply ty_ret.
Qed.
Lemma ty_store_bool set buf count : (forall b, ty any_result (set b)) -> ty any_result (store_bool set buf count).
Proof using Type.
  intros Hset. unfold store_bool. destruct (kstrtobool buf) as [err|v]; [by apply ty_ret|].
  eapply ty_bind; [apply Hset|]. intros err _. by apply ty_ret.
Qed.
Lemma ty_write g id a buf count : ty any_result (user_write g id a buf count).
Proof using EnvLaws0 BitmapLaws0 SysfsEnvLaws0.
  unfold user_write. destruct (writable g id a); [|by apply ty_ret].
  destruct a; try by apply ty_ret.
  all: cbn [iov_attr_store iov_attr_store_of]; first [apply ty_store_bool; intros b|apply ty_number; intros v Hv]; apply ty_ignored.
  - by apply (ty_call (SetExecQuantum g id v)).
  - by apply (ty_call (SetPreemptTimeout g id v)).
  - by apply (ty_call (SetSpareGgtt g v)).
  - by apply (ty_call (SetSpareCtxs g v)).
  - by apply (ty_call (SetSpareDbs g v)).
  - by apply (ty_call (SetSchedIfIdle g b)).
  - by apply (ty_call (SetResetEngine g b)).
  - by apply (ty_call (SetSamplePeriod g v)).
  - by apply (ty_call (SetGgtt g id v)).
  - by apply (ty_call (SetCtxs g id v)).
  - by apply (ty_call (SetDbs g id v)).
  - by apply (ty_call (SetThreshold g id t v)).
Qed.

(** The state file and automatic provisioning touch no configuration at all. *)
Lemma sound_all n {A} (m : st dev A) d :
  (forall g id, sound g id n m) -> (forall g, prov_inv g d) -> d_totalvfs d = n ->
  wp m (fun _ d' => (forall g, prov_inv g d') /\ d_totalvfs d' = n /\ forall g id, cfg d' g id = cfg d g id) d.
Proof using Type.
  intros Hm I Hn. pose proof (Hm GT_PRIMARY 0%nat d I Hn) as [I' C0]. pose proof (Hm GT_PRIMARY 1%nat d I Hn) as [_ C1].
  split; [done|]. split; [by rewrite (co_total _ _ _ _ C0)|]. intros g id.
  destruct (decide (id = 0%nat)) as [->|]; [apply (co_other _ _ _ _ C1)|apply (co_other _ _ _ _ C0)]; by right.
Qed.
End safe.

(** ** The administrator *)

(** One [write] to a file of the tree: of a GT's node, of the state of a VF, of the device or of
    one of its functions. *)
Inductive admin_write :=
| WriteGt (g : gt_id) (id : nat) (a : iov_attr) (buf : string) (count : Z)
| WriteState (g : gt_id) (id : nat) (buf : list Z) (off count : Z)
| WriteDev (id : nat) (a : sriov_ext_attr) (buf : string) (count : Z).

Section admin.
Context `{E : Env} `{B : BitmapOps} `{R : RelayEnv} `{Se : ServiceEnv} `{Sv : SaveEnv} `{V : SriovEnv} `{K : SysfsEnv}.

Definition admin_step (w : admin_write) : pr Z :=
  match w with
  | WriteGt g id a buf count => on_sdev (user_write g id a buf count)
  | WriteState g id buf off count => on_sdev (bin_attr_state_write g id buf off count)
  | WriteDev id a buf count => user_ext_write id a buf count
  end.
Definition admin_run (ws : list admin_write) (s : sriov_state) : sriov_state :=
  foldl (fun s w => snd (atomically (admin_step w) s)) s ws.

(** There are nodes of the PF and of [n] VFs. *)
Definition has_node (n : nat) (w : admin_write) : bool :=
  match w with
  | WriteGt _ id _ _ _ => (id <=? n)%nat
  | WriteState _ id _ _ _ => (1 <=? id)%nat && (id <=? n)%nat
  | WriteDev id _ _ _ => (id <=? n)%nat
  end.
(** A quota or parameter names its function on its GT, clearing a VF names it on all GTs. *)
Definition names (g : gt_id) (id : nat) (w : admin_write) : bool :=
  match w with
  | WriteGt g' id' _ _ _ => bool_decide (g' = g) && (id' =? id)%nat
  | WriteState _ _ _ _ _ => false
  | WriteDev id' a buf _ => bool_decide (a = control_sriov_ext_attr) && sysfs_streq buf "clear" && (id' =? id)%nat
  end.

Context `{!EnvLaws E} `{!BitmapLaws B} `{!SysfsEnvLaws K}.

(** What an action keeps on a PF with [n] VFs that names the configurations [P]. *)
Definition kept (n : nat) (P : gt_id -> nat -> bool) (d d' : dev) : Prop :=
  typed d -> (forall g, prov_inv g d) -> d_totalvfs d = n ->
  typed d' /\ (forall g, prov_inv g d') /\ d_totalvfs d' = n /\ forall g id, P g id = false -> cfg d' g id = cfg d g id.
#[local] Instance kept_preorder n P : PreOrder (kept n P).
Proof.
  split; [by intros d T I Hn; split_and!|]. intros a b c Hab Hbc T I Hn. destruct (Hab T I Hn) as (T1 & I1 & Hn1 & H1).
  destruct (Hbc T1 I1 Hn1) as (T2 & I2 & Hn2 & H2). split_and!; try done. intros g id HP. by rewrite H2, H1.
Qed.
Definition keeps n P {A} (m : st sriov_state A) : Prop := forall s, kept n P (sr_dev s) (sr_dev (snd (m s))).

Lemma keeps_run n P {A} (p : prog sriov_state A) s :
  all_acts (@keeps n P) p -> kept n P (sr_dev s) (sr_dev (snd (atomically p s))).
Proof using Type.
  revert s. induction p as [a|C m k IH]; intros s; [done|]. intros [Hm Hk]. cbn [atomically].
  unfold mbind, st_bind. specialize (Hm s). destruct (m s) as [c s1]. etransitivity; [exact Hm|]. by apply IH.
Qed.
Lemma keeps_result n P {A} (l : list A) (f : A -> pr Z) r :
  (forall x, all_acts (@keeps n P) (f x)) -> all_acts (@keeps n P) (each_result l f r).
Proof using Type. intros Hf. revert r. induction l as [|x l IH]; intros r; [done|]. apply all_acts_bind; [apply Hf|by intros]. Qed.

(** An action on the device. *)
Lemma keeps_on_dev n P g id {A} (T : A -> Prop) (m : st dev A) :
  ty T m -> sound g id n m -> (forall g' id', P g' id' = false -> g' <> g \/ id' <> id) ->
  all_acts (@keeps n P) (on_sdev m).
Proof using Type.
  intros Ht Hs HP. split; [|by intros]. intros s Hty I Hn. pose proof (Ht _ Hty) as Ht'. pose proof (Hs _ I Hn) as Hs'.
  cbn. unfold on_v_dev, wp in *. change (v_dev (sr_vf s)) with (sr_dev s) in *. destruct (m (sr_dev s)) as [a d].
  destruct Ht' as [_ T'], Hs' as [I' C]. split_and!; [done|done|exact (eq_trans (co_total _ _ _ _ C) Hn)|].
  intros g' id' Hf. apply (co_other _ _ _ _ C). by apply HP.
Qed.
(** One that names no configuration. *)
Lemma keeps_on_quiet n P {A} (T : A -> Prop) (m : st dev A) :
  ty T m -> (forall g id, sound g id n m) -> all_acts (@keeps n P) (on_sdev m).
Proof using Type.
  intros Ht Hs. split; [|by intros]. intros s Hty I Hn. pose proof (Ht _ Hty) as Ht'.
  pose proof (sound_all n m (sr_dev s) Hs I Hn) as Hs'.
  cbn. unfold on_v_dev, wp in *. change (v_dev (sr_vf s)) with (sr_dev s) in *. destruct (m (sr_dev s)) as [a d].
  destruct Ht' as [_ T'], Hs' as (I' & Hn' & Hc). cbn. split_and!; auto.
Qed.
(** The state machine of the VFs talks to GuC only. *)
Lemma kept_on_vf n P {A} (p : prog vf_state A) :
  all_acts (fun A (m : st vf_state A) => forall u, same_pf (v_dev u) (v_dev (snd (m u)))) p ->
  all_acts (@keeps n P) (on_vf p).
Proof using Type.
  induction p as [a|C m k IH]; [done|]. intros [Hm Hk]. split; [|by intros b; apply IH].
  intros s T I Hn. specialize (Hm (sr_vf s)). cbn. destruct (m (sr_vf s)) as [c u]. cbn in *.
  change (v_dev (sr_vf s)) with (sr_dev s) in Hm. change (sr_dev (set_sr_vf u s)) with (v_dev u). split_and!.
  - intros g. by rewrite (same_prov _ _ Hm).
  - intros g. by apply (prov_inv_same g (sr_dev s)).
  - by rewrite (same_total _ _ Hm).
  - intros g id _. by apply same_cfg.
Qed.

Lemma state_write_hw g id buf off count : hw_only (bin_attr_state_write g id buf off count).
Proof using Type.
  unfold bin_attr_state_write, intel_iov_state_restore_vf, pf_restore_vf, guc_action_save_restore_vf. hw_auto.
Qed.
Lemma set_auto_sound g id n b : sound g id n (i915_sriov_pf_set_auto_provisioning b).
Proof using Type.
  unfold i915_sriov_pf_set_auto_provisioning. apply sound_bind; [apply sound_gets|]. intros en.
  destruct (Bool.eqb _ _); [apply sound_ret|]. apply sound_bind; [destruct b; [apply sound_gets|apply sound_ret]|].
  intros ok. destruct ok; [|apply sound_ret]. apply sound_bind; [|intros; apply sound_ret].
  intros d I Hn. apply wp_modify. split; [intros g'; by apply prov_inv_sriov|done].
Qed.
Lemma sound_clear g id n : (1 <= id <= n)%nat -> sound g id n (intel_iov_provisioning_clear g id).
Proof using EnvLaws0 BitmapLaws0.
  intros Hid. apply sound_step.
  { unfold intel_iov_provisioning_clear. pose proof (gt_only_unprovision g id). gt_auto. }
  intros d I _ Hn. assert (is_vf d id) as Hvf by (unfold is_vf; by rewrite Hn).
  pose proof (clear_needs_guc g id d I Hvf) as Hw. unfold wp.
  destruct (intel_iov_provisioning_clear g id d) as [ret d']. destruct Hw as (_ & I' & Ho & _).
  split; [done|]. intros g' id' Hne. by apply (oc_other _ _ _ _ Ho).
Qed.

(** The commands of the control file. *)
Lemma acts_send g v c :
  all_acts (fun A (m : st vf_state A) => forall u, same_pf (v_dev u) (v_dev (snd (m u)))) (pf_control_vf g v c).
Proof using Type.
  split; [|by intros]. intros u. set (r := {| req_gt := g; req_msg := vf_control_msg v c; req_blob := [] |}).
  destruct (hw_only_send r (v_dev u)) as [Hs _]. unfold guc_action_vf_control_cmd, mbind, st_bind, on_v_dev. fold r.
  by destruct (intel_guc_send r (v_dev u)).
Qed.
Lemma keeps_control n P id buf count :
  (1 <= id <= n)%nat -> (forall g id', P g id' = false -> sysfs_streq buf "clear" = true -> id' <> id) ->
  all_acts (@keeps n P) (control_sriov_ext_attr_store id buf count).
Proof using EnvLaws0 BitmapLaws0 SysfsEnvLaws0.
  intros Hid HP. unfold control_sriov_ext_attr_store. apply all_acts_bind; [|by intros].
  apply all_acts_if; [|apply all_acts_if; [|apply all_acts_if]].
  - apply keeps_result. intros g. apply kept_on_vf, acts_send.
  - apply keeps_result. intros g. apply kept_on_vf. unfold intel_iov_state_pause_vf, intel_iov_state_no_flr,
      intel_iov_state_no_pause, get_paused, test_bit, test_and_set_bit, clear_bit.
    repeat first [apply acts_send | apply all_acts_bind; [|intros ?] | apply all_acts_if | done | apply all_acts_atom; intros u; by cbn].
  - apply keeps_result. intros g. apply kept_on_vf. unfold intel_iov_state_resume_vf, put_paused.
    repeat first [apply acts_send | apply all_acts_bind; [|intros ?] | apply all_acts_if | done | apply all_acts_atom; intros u; by cbn].
  - destruct (sysfs_streq buf "clear") eqn:Hc; [|done].
    apply keeps_result. intros g. apply (keeps_on_dev n P g id any_result).
    + apply ty_ignored. by apply (ty_call (Clear g id)).
    + by apply sound_clear.
    + intros g' id' Hf. right. by eapply HP.
Qed.

Lemma admin_step_keeps n w : has_node n w = true -> all_acts (@keeps n (fun g id => names g id w)) (admin_step w).
Proof using EnvLaws0 BitmapLaws0 SysfsEnvLaws0.
  intros Hw. destruct w as [g id a buf count|g id buf off count|id a buf count]; cbn [admin_step has_node names] in *.
  - apply Nat.leb_le in Hw. apply (keeps_on_dev _ _ g id any_result); [apply ty_write|by apply sound_write|].
    intros g' id' [H%bool_decide_eq_false|H%Nat.eqb_neq]%andb_false_iff; [left|right]; congruence.
  - apply (keeps_on_quiet _ _ any_result); [apply ty_hw, state_write_hw|]. intros. apply sound_hw, state_write_hw.
  - apply Nat.leb_le in Hw. unfold user_ext_write. destruct (ext_writable id a) eqn:Hx; [|done].
    destruct a; cbn [sriov_ext_attr_store].
    + apply (keeps_on_quiet _ _ any_result).
      * apply ty_store_bool. intros b. apply ty_ignored. by apply (ty_call (SetAutoProvisioning b)).
      * intros g id'. apply sound_bool. intros b. apply set_auto_sound.
    + done.
    + apply keeps_control; [split; [|done]; by destruct id; [|lia]|]. intros g id'. rewrite bool_decide_eq_true_2 by done.
      intros Hn Hc. rewrite Hc in Hn. cbn in Hn. by apply Nat.eqb_neq in Hn.
Qed.

(** C10: nothing that the administrator writes to sysfs breaks the provisioning. Whatever texts are
    written in whatever order to files of the PF's node and of the nodes of the supported VFs, on
    any GT and for the device - quotas, spare resources, parameters and policies, the state of a
    VF, the switch of automatic provisioning and the commands to stop, pause, resume or clear a
    VF -, and whatever GuC and the allocators answer: no field leaves its type, no two functions
    share a context and no two VFs a doorbell or an address of the GGTT, every region is pinned and
    its entries are owned by its VF (as far as they can be marked); and the configuration of a
    function on a GT is what it was before unless one of the writes named it there or cleared its
    VF. *)
Theorem admin_writes_safe ws s :
  typed (sr_dev s) -> (forall g, prov_inv g (sr_dev s)) ->
  Forall (fun w => has_node (d_totalvfs (sr_dev s)) w = true) ws ->
  typed (sr_dev (admin_run ws s)) /\ (forall g, prov_inv g (sr_dev (admin_run ws s))) /\
  forall g id, Forall (fun w => names g id w = false) ws -> cfg (sr_dev (admin_run ws s)) g id = cfg (sr_dev s) g id.
Proof using EnvLaws0 BitmapLaws0 SysfsEnvLaws0.
  intros T I Hws. remember (d_totalvfs (sr_dev s)) as n eqn:Hn. symmetry in Hn. revert s T I Hn.
  induction Hws as [|w ws Hw Hws IH]; intros s T I Hn; [done|].
  destruct (keeps_run n _ _ s (admin_step_keeps n w Hw) T I Hn) as (T1 & I1 & Hn1 & Hc1).
  destruct (IH _ T1 I1 Hn1) as (T2 & I2 & Hc2). split_and!; [done|done|].
  intros g id Hnm. inversion Hnm; subst. rewrite <- Hc1 by done. by apply Hc2.
Qed.

End admin.

(** ** Samples *)

(** Decimal numbers, without the prefixes and the newline that the kernel also takes. *)
Definition sample_kstrtou (w : Z) (buf : string) : Z + Z :=
  match buf with
  | EmptyString => inl (- EINVAL)
  | _ => match NilEmpty.uint_of_string buf with
         | Some u => let v := Z.of_uint u in if v <? 2 ^ w then inr v else inl (- ERANGE)
         | None => inl (- EINVAL)
         end
  end.
#[export] Instance sample_sysfs : SysfsEnv := {|
  kstrtou := sample_kstrtou;
  kstrtobool buf := if String.eqb buf "1" then inr true else if String.eqb buf "0" then inr false else inl (- EINVAL);
  sysfs_streq := String.eqb |}.
#[export] Instance sample_sysfs_laws : SysfsEnvLaws sample_sysfs.
Proof.
  split.
  - intros w buf v. cbn [kstrtou sample_sysfs]. unfold sample_kstrtou. destruct buf; [done|].
    destruct (NilEmpty.uint_of_string _) as [u|]; [|done]. cbv zeta. destruct (Z.ltb_spec (Z.of_uint u) (2 ^ w)); [|done].
    intros [= <-]. split; [|done]. unfold Z.of_uint. lia.
  - intros w buf err. cbn [kstrtou sample_sysfs]. unfold sample_kstrtou. destruct buf; [by intros [= <-]|].
    destruct (NilEmpty.uint_of_string _) as [u|]; [|by intros [= <-]]. cbv zeta.
    destruct (_ <? _); [done|]. by intros [= <-].
  - intros buf err. cbn. destruct (String.eqb _ _); [done|]. destruct (String.eqb _ _); [done|]. by intros [= <-].
Qed.

(** A region, contexts and doorbells for VF1, too many contexts for VF2, a second region through the
    media GT, which is refused, back to automatic provisioning; VF1 is paused and VF2 cleared. *)
Definition sample_writes : list admin_write :=
  [WriteGt GT_PRIMARY 1 ggtt_quota_iov_attr "65536" 5; WriteGt GT_PRIMARY 1 contexts_quota_iov_attr "1024" 4;
   WriteGt GT_PRIMARY 1 doorbells_quota_iov_attr "16" 2; WriteGt GT_PRIMARY 2 contexts_quota_iov_attr "65535" 5;
   WriteGt GT_MEDIA 1 ggtt_quota_iov_attr "65536" 5; WriteDev 0 auto_provisioning_sriov_ext_attr "1" 1;
   WriteGt GT_PRIMARY 0 contexts_spare_iov_attr "70000" 5; WriteGt GT_PRIMARY 0 exec_quantum_ms_iov_attr "20" 2;
   WriteGt GT_MEDIA 2 contexts_quota_iov_attr "64" 2; WriteDev 1 control_sriov_ext_attr "pause" 5;
   WriteDev 2 control_sriov_ext_attr "clear" 5].

(** The sample environment, in which GuC takes the reset of a configuration and the commands to
    a VF, too. *)
Definition admin_reply (r : guc_req) : Z :=
  let m0 := nth 0 (req_msg r) 0 in
  if (m0 =? GUC_ACTION_PF2GUC_UPDATE_VF_CFG) && negb (nth 4 (req_msg r) 0 =? 0) then 1 else 0.
Definition sample_admin_env : Env := {|
  env_gtt := sample_gtt; has_media_gt := true; env_alloc _ := true; env_vma _ := 0;
  env_vma_addr n := 0x100000 + 4096 * Z.of_nat n; guc_reply _ := admin_reply; ggtt_pin_bias := 0x100000;
  ggtt_total := sample_total; wopcm_guc_size _ := 0x100000; require_binder := false; bind_ready _ := false;
  bind_fails_after _ := None; scratch_pte := 1 |}.
#[export] Instance sample_admin_laws : EnvLaws sample_admin_env.
Proof. destruct sample_env_laws. split; assumption. Qed.

Section samples.
#[local] Existing Instance sample_admin_env.
#[local] Existing Instance sample_relay_env.
#[local] Existing Instance sample_service_env.
#[local] Instance sample_device : SriovEnv := sample_sriov_env 0.

(** Of four VFs none is provisioned, as on the sample device. *)
Definition sample_admin_dev : dev := {|
  d_prov _ := sample_prov; d_totalvfs := 4; d_numvfs := 0; d_status := 4; d_disable_auto := false;
  d_ids_in_use _ := 100; d_num_guc_ids _ := 12799;
  d_mm := ([(0, 0x100000)] : list (Z * Z)) : @gtt_space (@env_gtt sample_admin_env);
  d_ptes _ := 0; d_shadows := None; d_log := []; d_ticks := 0; d_live := 0 |}.
Definition sample_admin : sriov_state := {|
  sr_vf := {| v_dev := sample_admin_dev; v_data _ := replicate 5 data0; v_worker _ := false; v_trace := [] |};
  sr_relay _ := {| pending_relays := []; last_fence := 0 |};
  sr_runtime _ := {| rt_size := 0; rt_regs := []; rt_values := [] |}; sr_reads := 0;
  sr_device_vfs := 4; sr_limit := 4; sr_pm _ := 0; sr_pxp := true; sr_kobjs := true; sr_links := [];
  sr_guc_state _ _ := {| blob := None; blob_size := 0 |}; sr_pdev_refs := 0; sr_writes := []; sr_calls := 0 |}.

Lemma admin_cfg g id : id <> 0%nat -> cfg sample_admin_dev g id = config0.
Proof.
  intros Hid. unfold cfg. simpl. destruct id as [|id]; [done|].
  change (default config0 (replicate 4 config0 !! id) = config0).
  destruct (replicate 4 config0 !! id) as [c|] eqn:Ec; [|done].
  by apply lookup_replicate in Ec as [-> _].
Qed.
Lemma admin_inv g : prov_inv g sample_admin_dev.
Proof.
  assert (forall id, is_vf sample_admin_dev id -> forall g, cfg sample_admin_dev g id = config0) as H0.
  { intros id [Hid _] g'. apply admin_cfg. lia. }
  split.
  - assert (forall id, ~ has_region sample_admin_dev id) as Hno.
    { intros id [Hid Ha]. unfold region in Ha. by rewrite H0 in Ha. }
    constructor; [done|simpl; lia|..]; intros; exfalso; by eapply Hno.
  - assert (forall id r, ctxs_range sample_admin_dev g id = Some r -> id = PFID) as Hr.
    { intros [|id] r Hr; [done|]. unfold ctxs_range in Hr. by rewrite admin_cfg in Hr. }
    constructor; [done|done| |].
    + intros [|id] _; [|left; by rewrite admin_cfg]. right. exists 0, 100. by unfold ctx_slot, NPKG.
    + intros id id' r r' _ _ Hne Hr1%Hr Hr2%Hr. congruence.
  - constructor; [done| |].
    + intros id Hid. left. by rewrite H0.
    + intros id id' r r' Hid _ _ Hr. unfold dbs_range in Hr. by rewrite H0 in Hr.
Qed.

Lemma admin_writes_safe_witness :
  let s' := admin_run sample_writes sample_admin in
  let d' := sr_dev s' in
  num_ctxs (cfg d' GT_PRIMARY 1) = 1024 /\ num_dbs (cfg d' GT_PRIMARY 1) = 16 /\
  exec_quantum (cfg d' GT_PRIMARY 0) = 20 /\ d_disable_auto d' = true /\
  num_ctxs (cfg (sr_dev (admin_run (take 9 sample_writes) sample_admin)) GT_MEDIA 2) = 128 /\
  num_ctxs (cfg d' GT_MEDIA 2) = 0 /\ vf_bit (sr_vf s') GT_PRIMARY 1 IOV_VF_PAUSE_IN_PROGRESS = true /\
  cfg d' GT_PRIMARY 3 = cfg (sr_dev sample_admin) GT_PRIMARY 3 /\ forall g, prov_inv g d'.
Proof.
  intros s' d'. do 7 (split; [by vm_compute|]).
  assert (typed (sr_dev sample_admin)) as T.
  { intros g. destruct g; (split; [repeat constructor; by vm_compute| | | |]; by vm_compute). }
  assert (Forall (fun w => has_node 4 w = true) sample_writes) as Hw by (repeat constructor).
  pose proof (admin_writes_safe sample_writes sample_admin T admin_inv Hw) as (_ & I & Hc).
  split; [|exact I]. apply Hc. repeat constructor.
Defined.
End samples.

(** The size that the functions return which save and restore a state is taken for an errno: the
    program that reads the file gets the four bytes that GuC saved and, at the offset behind them, an error
    where the file ends; and a write of 4096 bytes is reported as one of four. *)
Lemma state_file_short :
  fst (fst (bin_attr_state_read (E := sample_env) GT_PRIMARY 1 (replicate 4096 0) 0 4096 sample_dev)) = 4 /\
  fst (fst (bin_attr_state_read (E := sample_env) GT_PRIMARY 1 (replicate 4096 0) 4 4096 sample_dev)) = - EINVAL /\
  fst (bin_attr_state_write (E := sample_env) GT_PRIMARY 1 (replicate 4096 0) 0 4096 sample_dev) = 4.
Proof. split; [by vm_compute|]. split; by vm_compute. Qed.

(** The file of a VF's identifier has the mode of one that can be written, but no [store]. *)
Lemma id_file_not_writable (E := sample_env) id buf count :
  (1 <= id)%nat -> ext_file_mode id id_sriov_ext_attr = 0x1a4 /\
  sriov_ext_attr_store id id_sriov_ext_attr buf count = mret (- EIO).
Proof. intros Hid. split; [|done]. unfold ext_file_mode. cbn. by destruct id; [lia|]. Qed.
