(* ===== verification/SysfsTree.v ===== *)
(** * The tree of sysfs nodes

    The kernel objects behind the files of Sysfs.v: [i915_sriov_sysfs_setup] and [_teardown] of
    i915_sriov_sysfs.c for the device's nodes, [intel_iov_sysfs_setup] and [_teardown] of
    gt/iov/intel_iov_sysfs.c for the nodes of each GT below them, with the reference counts, the
    memory of the arrays and every point where a step can fail. *)

From stdpp Require Import gmap sets.
From S2P Require Export Enable.

(** ** Kernel objects *)

Record kobj := { k_refs : nat; k_parent : option nat }.
Definition bump (o : kobj) : kobj := {| k_refs := S (k_refs o); k_parent := k_parent o |}.
Definition unbump (o : kobj) : kobj := {| k_refs := pred (k_refs o); k_parent := k_parent o |}.
Definition kid (p : nat) : kobj := {| k_refs := 1; k_parent := Some p |}.
Definition orphan : kobj := {| k_refs := 1; k_parent := None |}.

(** An allocation is named by the number of the call that made it. [t_objs] are the live
    kobjects, [t_arrays] the live arrays, [t_groups] the objects that have their groups of files,
    [t_links] those with a link to their device; [t_home] and [t_kobjs] are [sriov.pf.sysfs], [t_entries]
    is [iov->pf.sysfs] of each GT; [t_bad]: a freed object was used. *)
Record tree := {
  t_tick : nat;
  t_objs : gmap nat kobj;
  t_arrays : gset nat;
  t_groups : gset nat;
  t_links : gset nat;
  t_home : option nat;
  t_kobjs : option (nat * list nat);
  t_entries : gt_id -> option (nat * list nat);
  t_bad : bool;
}.

Definition fresh_tree : tree := {|
  t_tick := 0; t_objs := ∅; t_arrays := ∅; t_groups := ∅; t_links := ∅; t_home := None; t_kobjs := None;
  t_entries _ := None; t_bad := false |}.

(** The part that the loops change. *)
Definition upd (n : nat) (o : gmap nat kobj) (a gr : gset nat) (s : tree) : tree := {|
  t_tick := n; t_objs := o; t_arrays := a; t_groups := gr; t_links := t_links s; t_home := t_home s;
  t_kobjs := t_kobjs s; t_entries := t_entries s; t_bad := t_bad s |}.
Definition set_objs (o : gmap nat kobj) (s : tree) : tree := upd (t_tick s) o (t_arrays s) (t_groups s) s.
Definition set_arrays (a : gset nat) (s : tree) : tree := upd (t_tick s) (t_objs s) a (t_groups s) s.
Definition set_groups (gr : gset nat) (s : tree) : tree := upd (t_tick s) (t_objs s) (t_arrays s) gr s.
Definition set_tick (n : nat) (s : tree) : tree := upd n (t_objs s) (t_arrays s) (t_groups s) s.
(** The pointers of the driver. *)
Definition set_ptrs (l : gset nat) (h : option nat) (k : option (nat * list nat))
  (e : gt_id -> option (nat * list nat)) (s : tree) : tree := {|
  t_tick := t_tick s; t_objs := t_objs s; t_arrays := t_arrays s; t_groups := t_groups s; t_links := l; t_home := h;
  t_kobjs := k; t_entries := e; t_bad := t_bad s |}.
Definition set_links (l : gset nat) (s : tree) : tree := set_ptrs l (t_home s) (t_kobjs s) (t_entries s) s.
Definition set_home (h : option nat) (s : tree) : tree := set_ptrs (t_links s) h (t_kobjs s) (t_entries s) s.
Definition set_kobjs (k : option (nat * list nat)) (s : tree) : tree :=
  set_ptrs (t_links s) (t_home s) k (t_entries s) s.
Definition set_entries (g : gt_id) (e : option (nat * list nat)) (s : tree) : tree :=
  set_ptrs (t_links s) (t_home s) (t_kobjs s) (fun g' => if decide (g' = g) then e else t_entries s g') s.
Definition set_bad (s : tree) : tree := {|
  t_tick := t_tick s; t_objs := t_objs s; t_arrays := t_arrays s; t_groups := t_groups s; t_links := t_links s;
  t_home := t_home s; t_kobjs := t_kobjs s; t_entries := t_entries s; t_bad := true |}.

(** The result of the n-th call that can fail: an allocation (nonzero: there is no memory),
    [kobject_init_and_add], [sysfs_create_groups], [sysfs_create_link] or an injected error. *)
Class TreeEnv := { outcome : nat -> Z }.
Class TreeEnvLaws (T : TreeEnv) : Prop := { outcome_err n : outcome n <= 0 }.

(** [kobject_put]: the last reference to an object frees it and drops its reference to the parent;
    [None] if the object was freed before. Three steps are enough, as deep as the tree is. *)
Fixpoint put_objs (fuel k : nat) (m : gmap nat kobj) : option (gmap nat kobj) :=
  match fuel with
  | O => None
  | S fuel =>
      match m !! k with
      | None => None
      | Some o =>
          if (1 <? k_refs o)%nat then Some (<[k := unbump o]> m) else
          match k_parent o with None => Some (delete k m) | Some p => put_objs fuel p (delete k m) end
      end
  end.

Section ops.
Context `{E : Env} `{T : TreeEnv}.

Definition attempt : st tree Z := fun s => (outcome (t_tick s), set_tick (S (t_tick s)) s).
Definition touch (k : nat) : st tree unit :=
  modify (fun s => match t_objs s !! k with Some _ => s | None => set_bad s end).
Definition kobject_put (k : nat) : st tree unit :=
  modify (fun s => match put_objs 3 k (t_objs s) with Some m => set_objs m s | None => set_bad s end).

(** [kzalloc] of an object and, before it can fail, the [kobject_init] that follows everywhere. *)
Definition kobj_alloc : st tree (option nat) :=
  k ← gets t_tick;
  err ← attempt;
  if negb (err =? 0) then mret None else
  modify (fun s => set_objs (<[k := orphan]> (t_objs s)) s) ≫= fun _ => mret (Some k).
(** [kobject_init_and_add]; the parent of the home node, the device, is not the driver's. *)
Definition kobject_init_and_add (k : nat) (parent : option nat) : st tree Z :=
  match parent with Some p => touch p | None => mret tt end ≫= fun _ =>
  err ← attempt;
  if negb (err =? 0) then mret err else
  match parent with
  | Some p => modify (fun s => set_objs (<[k := kid p]> (alter bump p (t_objs s))) s)
  | None => mret tt
  end ≫= fun _ => mret 0.
Definition kcalloc_array : st tree (option nat) :=
  a ← gets t_tick;
  err ← attempt;
  if negb (err =? 0) then mret None else
  modify (fun s => set_arrays ({[a]} ∪ t_arrays s) s) ≫= fun _ => mret (Some a).
Definition kfree_array (a : nat) : st tree unit := modify (fun s => set_arrays (t_arrays s ∖ {[a]}) s).

Definition sysfs_create_groups (k : nat) : st tree Z :=
  touch k ≫= fun _ =>
  err ← attempt;
  if negb (err =? 0) then mret err else
  modify (fun s => set_groups ({[k]} ∪ t_groups s) s) ≫= fun _ => mret 0.
Definition sysfs_remove_groups (k : nat) : st tree unit :=
  touch k ≫= fun _ => modify (fun s => set_groups (t_groups s ∖ {[k]}) s).

Fixpoint for_objs (f : nat -> st tree unit) (ks : list nat) : st tree unit :=
  match ks with [] => mret tt | k :: ks => f k ≫= fun _ => for_objs f ks end.

(** ** The nodes of the device (i915_sriov_sysfs.c) *)

Definition pf_nodes_count (d : dev) : nat := 1 + d_totalvfs d.
Definition i915_inject_probe_error : st tree Z := attempt.

Definition pf_setup_home : st tree Z :=
  err ← i915_inject_probe_error;
  if negb (err =? 0) then mret err else
  home ← kobj_alloc;
  match home with
  | None => mret (- ENOMEM)
  | Some home =>
      err ← kobject_init_and_add home None;
      if negb (err =? 0) then kobject_put home ≫= fun _ => mret err else
      modify (set_home (Some home)) ≫= fun _ => mret 0
  end.
Definition pf_teardown_home : st tree unit :=
  home ← gets t_home;
  modify (set_home None) ≫= fun _ =>
  match home with Some home => kobject_put home | None => mret tt end.

(** The loop of [pf_setup_tree] and its unwinding; [kobjs] are the nodes so far. *)
Fixpoint setup_nodes (home : nat) (todo : nat) (kobjs : list nat) : st tree (Z * list nat) :=
  match todo with
  | O => mret (0, kobjs)
  | S todo =>
      let failed (err : Z) : st tree (Z * list nat) :=
        for_objs kobject_put (rev kobjs) ≫= fun _ => mret (err, []) in
      kobj ← kobj_alloc;
      match kobj with
      | None => failed (- ENOMEM)
      | Some k =>
          err ← kobject_init_and_add k (Some home);
          if negb (err =? 0) then kobject_put k ≫= fun _ => failed err else
          err ← i915_inject_probe_error;
          if negb (err =? 0) then kobject_put k ≫= fun _ => failed err else
          setup_nodes home todo (kobjs ++ [k])
      end
  end.
Definition pf_setup_tree (d : dev) : st tree Z :=
  home ← gets t_home;
  err ← i915_inject_probe_error;
  if negb (err =? 0) then mret err else
  a ← kcalloc_array;
  match a with
  | None => mret (- ENOMEM)
  | Some a =>
      '(err, kobjs) ← setup_nodes (default 0%nat home) (pf_nodes_count d) [];
      if negb (err =? 0) then mret err else
      modify (set_kobjs (Some (a, kobjs))) ≫= fun _ => mret 0
  end.
Definition pf_teardown_tree : st tree unit :=
  kobjs ← gets t_kobjs;
  modify (set_kobjs None) ≫= fun _ =>
  match kobjs with
  | None => mret tt
  | Some (a, kobjs) => for_objs kobject_put kobjs ≫= fun _ => kfree_array a
  end.

Definition pf_node : st tree nat :=
  gets (fun s => match t_kobjs s with Some (_, k :: _) => k | _ => 0%nat end).
Definition pf_setup_device_link : st tree Z :=
  err ← i915_inject_probe_error;
  if negb (err =? 0) then mret err else
  k ← pf_node;
  touch k ≫= fun _ =>
  err ← attempt;
  if negb (err =? 0) then mret err else
  modify (fun s => set_links ({[k]} ∪ t_links s) s) ≫= fun _ => mret 0.
Definition pf_teardown_device_link : st tree unit :=
  k ← pf_node;
  touch k ≫= fun _ => modify (fun s => set_links (t_links s ∖ {[k]}) s).

Context `{Sv : SaveEnv}.

Definition i915_sriov_sysfs_setup (d : dev) : st tree Z :=
  if negb is_sriov_pf then mret 0 else
  if i915_sriov_pf_aborted d then mret 0 else
  err ← pf_setup_home;
  if negb (err =? 0) then mret err else
  err ← pf_setup_tree d;
  if negb (err =? 0) then pf_teardown_home ≫= fun _ => mret err else
  err ← pf_setup_device_link;
  if negb (err =? 0) then pf_teardown_tree ≫= fun _ => pf_teardown_home ≫= fun _ => mret err else
  mret 0.
Definition pf_initialized : st tree bool := gets (fun s => bool_decide (t_home s <> None)).
Definition i915_sriov_sysfs_teardown : st tree unit :=
  if negb is_sriov_pf then mret tt else
  init ← pf_initialized;
  if negb init then mret tt else
  pf_teardown_device_link ≫= fun _ => pf_teardown_tree ≫= fun _ => pf_teardown_home.

(** ** The nodes of a GT (gt/iov/intel_iov_sysfs.c) *)

Definition drop_entry (k : nat) : st tree unit := sysfs_remove_groups k ≫= fun _ => kobject_put k.

(** The loop of [pf_setup_provisioning], a node below each of [parents], and its unwinding. *)
Fixpoint setup_entries (parents kobjs : list nat) : st tree (Z * list nat) :=
  match parents with
  | [] => mret (0, kobjs)
  | parent :: parents =>
      let failed (err : Z) : st tree (Z * list nat) :=
        for_objs drop_entry (rev kobjs) ≫= fun _ => mret (err, []) in
      err ← i915_inject_probe_error;
      if negb (err =? 0) then failed err else
      kobj ← kobj_alloc;
      match kobj with
      | None => failed (- ENOMEM)
      | Some k =>
          err ← kobject_init_and_add k (Some parent);
          if negb (err =? 0) then kobject_put k ≫= fun _ => failed err else
          err ← i915_inject_probe_error;
          if negb (err =? 0) then kobject_put k ≫= fun _ => failed err else
          err ← sysfs_create_groups k;
          if negb (err =? 0) then kobject_put k ≫= fun _ => failed err else
          setup_entries parents (kobjs ++ [k])
      end
  end.
Definition pf_setup_provisioning (d : dev) (g : gt_id) : st tree Z :=
  parents ← gets t_kobjs;
  match parents with
  | None => mret (- ENODEV)
  | Some (_, parents) =>
      err ← i915_inject_probe_error;
      if negb (err =? 0) then mret err else
      a ← kcalloc_array;
      match a with
      | None => mret (- ENOMEM)
      | Some a =>
          '(err, kobjs) ← setup_entries (take (1 + d_totalvfs d) parents) [];
          if negb (err =? 0) then kfree_array a ≫= fun _ => mret err else
          modify (set_entries g (Some (a, kobjs))) ≫= fun _ => mret 0
      end
  end.
Definition pf_teardown_provisioning (g : gt_id) : st tree unit :=
  entries ← gets (fun s => t_entries s g);
  modify (set_entries g None) ≫= fun _ =>
  match entries with
  | None => mret tt
  | Some (a, kobjs) => for_objs drop_entry kobjs ≫= fun _ => kfree_array a
  end.

Definition intel_iov_sysfs_setup (d : dev) (g : gt_id) : st tree Z :=
  if negb is_sriov_pf then mret 0 else
  if i915_sriov_pf_aborted d then mret 0 else
  pf_setup_provisioning d g.
Definition intel_iov_sysfs_teardown (g : gt_id) : st tree unit :=
  if negb is_sriov_pf then mret tt else pf_teardown_provisioning g.

(** *** The driver's part in it: [i915_driver_register] and [i915_driver_unregister] *)

Fixpoint setup_gts (d : dev) (gs : list gt_id) : st tree (list Z) :=
  match gs with
  | [] => mret []
  | g :: gs => r ← intel_iov_sysfs_setup d g; rs ← setup_gts d gs; mret (r :: rs)
  end.
Fixpoint teardown_gts (unplugged : bool) (gs : list gt_id) : st tree unit :=
  match gs with
  | [] => mret tt
  | g :: gs => (if negb unplugged then intel_iov_sysfs_teardown g else mret tt) ≫= fun _ => teardown_gts unplugged gs
  end.
(** The results are for the theorems; the driver ignores them. *)
Definition driver_register (d : dev) : st tree (Z * list Z) :=
  r ← i915_sriov_sysfs_setup d; rs ← setup_gts d all_gts; mret (r, rs).
Definition driver_unregister (unplugged : bool) : st tree unit :=
  teardown_gts unplugged all_gts ≫= fun _ => i915_sriov_sysfs_teardown.
End ops.

(** ** Reference counts *)

(** [m] and the objects [l], pairs of a new object and its parent in [m]. *)
Definition with_kids (l : list (nat * nat)) (m : gmap nat kobj) : gmap nat kobj :=
  foldr (fun kp m => <[kp.1 := kid kp.2]> (alter bump kp.2 m)) m l.
Record kids_ok (l : list (nat * nat)) (m : gmap nat kobj) : Prop := {
  ko_nodup : NoDup l.*1;
  ko_new k p : (k, p) ∈ l -> m !! k = None;
  ko_parent k p : (k, p) ∈ l -> exists o, m !! p = Some o /\ (1 <= k_refs o)%nat;
}.

Lemma kids_ok_nil m : kids_ok [] m.
Proof. split; [constructor| |]; intros k p H; by apply not_elem_of_nil in H. Qed.
Lemma kids_ok_cons k p l m :
  kids_ok ((k, p) :: l) m <->
  (k ∉ l.*1) /\ m !! k = None /\ (exists o, m !! p = Some o /\ (1 <= k_refs o)%nat) /\ kids_ok l m.
Proof.
  split.
  - intros [N H1 H2]. cbn in N. apply NoDup_cons in N as [Hk N].
    split_and!; [done|by eapply H1, list_elem_of_here|by eapply H2, list_elem_of_here|].
    split; [done|..]; intros k' p' Hin; [eapply H1|eapply H2]; by apply list_elem_of_further.
  - intros (Hk & Hn & Hp & [N H1 H2]). split.
    + cbn. by apply NoDup_cons.
    + intros k' p' [[= -> ->]|Hin]%elem_of_cons; [done|by eapply H1].
    + intros k' p' [[= -> ->]|Hin]%elem_of_cons; [done|by eapply H2].
Qed.
Lemma kids_ok_perm l l' m : l ≡ₚ l' -> kids_ok l m -> kids_ok l' m.
Proof. intros Hp [N H1 H2]. split; [by rewrite <- Hp|..]; intros k p; rewrite <- Hp; [apply H1|apply H2]. Qed.
Lemma kids_ok_app l l' m : kids_ok (l ++ l') m -> kids_ok l' m.
Proof. induction l as [|[k p] l IH]; [done|]. intros (_ & _ & _ & H)%kids_ok_cons. by apply IH. Qed.

Lemma with_kids_cons k p l m : with_kids ((k, p) :: l) m = <[k := kid p]> (alter bump p (with_kids l m)).
Proof. done. Qed.
Lemma with_kids_none l m x : x ∉ l.*1 -> m !! x = None -> with_kids l m !! x = None.
Proof.
  induction l as [|[k p] l IH]; [done|]. intros [Hx Hl]%not_elem_of_cons Hm. cbn in Hx. rewrite with_kids_cons.
  rewrite lookup_insert_ne by congruence. by rewrite lookup_alter_None, IH.
Qed.
Lemma with_kids_some l m x o :
  x ∉ l.*1 -> m !! x = Some o ->
  exists o', with_kids l m !! x = Some o' /\ k_parent o' = k_parent o /\ (k_refs o <= k_refs o')%nat.
Proof.
  induction l as [|[k p] l IH]; [by eauto|]. intros [Hx Hl]%not_elem_of_cons Hm. cbn in Hx. rewrite with_kids_cons.
  destruct (IH Hl Hm) as (o1 & H1 & Hp & Hr). rewrite lookup_insert_ne by congruence.
  destruct (decide (p = x)) as [->|Hne].
  - rewrite lookup_alter_eq, H1. eexists. split; [done|]. cbn. by split; [|lia].
  - rewrite lookup_alter_ne by done. eauto.
Qed.
Lemma with_kids_perm l l' m : l ≡ₚ l' -> kids_ok l m -> with_kids l m = with_kids l' m.
Proof.
  induction 1 as [|[k p] l l' _ IH|[k p] [k' p'] l|l1 l2 l3 H1 IH1 _ IH2]; intros Ok; [done|..].
  - apply kids_ok_cons in Ok as (_ & _ & _ & Ok). by rewrite !with_kids_cons, IH.
  - apply kids_ok_cons in Ok as (Hk & Hn & (o & Ho & _) & Ok). apply kids_ok_cons in Ok as (Hk' & Hn' & (o' & Ho' & _) & Ok).
    apply not_elem_of_cons in Hk as [Hkk Hk]. cbn in Hkk. rewrite !with_kids_cons.
    assert (p <> k') by congruence. assert (p' <> k) by congruence.
    rewrite !alter_insert_ne by congruence. rewrite insert_insert_ne by congruence. do 2 f_equal.
    destruct (decide (p = p')) as [->|]; [done|]. by rewrite alter_alter_ne by done.
  - rewrite IH1 by done. apply IH2. by eapply kids_ok_perm.
Qed.

Lemma unbump_bump o : unbump (bump o) = o.
Proof. by destruct o. Qed.

(** The put of an object undoes its making. *)
Lemma put_kid k p l l' m :
  l ≡ₚ (k, p) :: l' -> kids_ok l m -> put_objs 3 k (with_kids l m) = Some (with_kids l' m).
Proof.
  intros Hl Ok. rewrite (with_kids_perm _ _ _ Hl Ok). apply (kids_ok_perm _ _ _ Hl) in Ok.
  apply kids_ok_cons in Ok as (Hk & Hn & (o & Ho & Hr) & Ok).
  pose proof (with_kids_none l' m k Hk Hn) as Hnone.
  assert (p ∉ l'.*1) as Hp.
  { intros ((k' & p') & Heq & Hin)%list_elem_of_fmap. cbn in Heq. subst p. by rewrite (ko_new _ _ Ok _ _ Hin) in Ho. }
  destruct (with_kids_some l' m p o Hp Ho) as (o' & Ho' & _ & Hr').
  assert (k <> p) as Hne by congruence.
  rewrite with_kids_cons. set (Y := with_kids l' m) in *. clearbody Y.
  assert (alter bump p Y !! k = None) as Ha by (by apply lookup_alter_None).
  assert (alter bump p Y !! p = Some (bump o')) as Hb by (by rewrite lookup_alter_eq, Ho').
  assert ((1 <? k_refs (bump o'))%nat = true) as Hlt by (apply Nat.ltb_lt; cbn; lia).
  cbn [put_objs]. rewrite lookup_insert_eq. change (1 <? k_refs (kid p))%nat with false. cbn [kid k_parent].
  rewrite (delete_insert_id _ _ _ Ha), Hb, Hlt, unbump_bump. f_equal. apply (map_eq (M := gmap nat)). intros x.
  destruct (decide (x = p)) as [->|]; [by rewrite lookup_insert_eq|]. by rewrite lookup_insert_ne, lookup_alter_ne by done.
Qed.
Lemma put_orphan k m : m !! k = None -> put_objs 3 k (<[k := orphan]> m) = Some m.
Proof. intros Hn. cbn. rewrite lookup_insert_eq. cbn. by rewrite delete_insert_id. Qed.

(** Everything allocated so far has a number below [n]. *)
Record below (n : nat) (l : list (nat * nat)) (m : gmap nat kobj) : Prop := {
  be_base x : (n <= x)%nat -> m !! x = None;
  be_kids k : k ∈ l.*1 -> (k < n)%nat;
}.
Lemma below_mono n n' l m : (n <= n')%nat -> below n l m -> below n' l m.
Proof. intros Hn [H1 H2]. split; [intros x Hx; apply H1; lia|]. intros k Hk. specialize (H2 k Hk). lia. Qed.
Lemma below_perm n l l' m : l ≡ₚ l' -> below n l m -> below n l' m.
Proof. intros Hp [H1 H2]. split; [done|]. intros k. rewrite <- Hp. apply H2. Qed.
Lemma below_app n l l' m : below n (l ++ l') m -> below n l' m.
Proof. intros [H1 H2]. split; [done|]. intros k Hk. apply H2. rewrite fmap_app. apply elem_of_app. by right. Qed.
Lemma below_new n p l m : below n l m -> below (S n) ((n, p) :: l) m.
Proof.
  intros [H1 H2]. split; [intros x Hx; apply H1; lia|]. intros k [->|Hk]%elem_of_cons; [cbn; lia|].
  specialize (H2 k Hk). lia.
Qed.
Lemma below_none n l m : below n l m -> with_kids l m !! n = None.
Proof. intros [H1 H2]. apply with_kids_none; [|by apply H1]. intros Hn%H2. lia. Qed.
Lemma kids_new n p l m o :
  below n l m -> kids_ok l m -> m !! p = Some o -> (1 <= k_refs o)%nat -> kids_ok ((n, p) :: l) m.
Proof.
  intros Hb Ok Hp Hr. apply kids_ok_cons. split_and!; [|by apply (be_base _ _ _ Hb)|by exists o|done].
  intros Hn%(be_kids _ _ _ Hb). lia.
Qed.
Lemma kids_parent p l m o : kids_ok l m -> m !! p = Some o -> is_Some (with_kids l m !! p).
Proof.
  intros Ok Hp. destruct (with_kids_some l m p o) as (o' & -> & _); [|done|done].
  intros ((k & q) & Heq & Hin)%list_elem_of_fmap. cbn in Heq. subst. by rewrite (ko_new _ _ Ok _ _ Hin) in Hp.
Qed.
Lemma kids_live k p l l' m : l ≡ₚ (k, p) :: l' -> kids_ok l m -> is_Some (with_kids l m !! k).
Proof. intros Hp Ok. rewrite (with_kids_perm _ _ _ Hp Ok), with_kids_cons, lookup_insert_eq. done. Qed.

(** ** The steps *)

Section steps.
Context `{T : TreeEnv} `{!TreeEnvLaws T}.
Implicit Types (n k p : nat) (o m : gmap nat kobj) (a gr : gset nat) (s : tree).

Lemma wp_attempt n o a gr s (Q : Z -> tree -> Prop) :
  (forall r, r <= 0 -> Q r (upd (S n) o a gr s)) -> wp attempt Q (upd n o a gr s).
Proof using TreeEnvLaws0. intros H. apply H, outcome_err. Qed.
Lemma wp_kobj_alloc n o a gr s (Q : option nat -> tree -> Prop) :
  Q None (upd (S n) o a gr s) -> Q (Some n) (upd (S n) (<[n := orphan]> o) a gr s) ->
  wp kobj_alloc Q (upd n o a gr s).
Proof using TreeEnvLaws0.
  intros H0 H1. apply wp_bind, wp_gets, wp_bind, wp_attempt. intros r _. by apply wp_if; intros _.
Qed.
Lemma wp_kcalloc n o a gr s (Q : option nat -> tree -> Prop) :
  Q None (upd (S n) o a gr s) -> Q (Some n) (upd (S n) o ({[n]} ∪ a) gr s) -> wp kcalloc_array Q (upd n o a gr s).
Proof using TreeEnvLaws0.
  intros H0 H1. apply wp_bind, wp_gets, wp_bind, wp_attempt. intros r _. by apply wp_if; intros _.
Qed.
Lemma wp_touch k n o a gr s (Q : unit -> tree -> Prop) :
  is_Some (o !! k) -> Q tt (upd n o a gr s) -> wp (touch k) Q (upd n o a gr s).
Proof using Type. intros [x Hx] H. apply wp_modify. cbn [upd t_objs]. by rewrite Hx. Qed.
Lemma wp_kobject_put k n o o' a gr s (Q : unit -> tree -> Prop) :
  put_objs 3 k o = Some o' -> Q tt (upd n o' a gr s) -> wp (kobject_put k) Q (upd n o a gr s).
Proof using Type. intros Hp H. apply wp_modify. cbn [upd t_objs]. by rewrite Hp. Qed.
Lemma wp_init_add k p n o a gr s (Q : Z -> tree -> Prop) :
  k <> p -> is_Some (o !! p) -> (forall err, err < 0 -> Q err (upd (S n) (<[k := orphan]> o) a gr s)) ->
  Q 0 (upd (S n) (<[k := kid p]> (alter bump p o)) a gr s) ->
  wp (kobject_init_and_add k (Some p)) Q (upd n (<[k := orphan]> o) a gr s).
Proof using TreeEnvLaws0.
  intros Hne Hp He H0. apply wp_bind, wp_touch; [by rewrite lookup_insert_ne|].
  apply wp_bind, wp_attempt. intros r Hr. apply wp_if; intros Hb; propify; [apply wp_ret, He; lia|].
  apply wp_bind, wp_modify, wp_ret. unfold set_objs. cbn [upd t_objs t_tick t_arrays t_groups].
  rewrite alter_insert_ne, insert_insert_eq by done. exact H0.
Qed.
Lemma wp_create_groups k n o a gr s (Q : Z -> tree -> Prop) :
  is_Some (o !! k) -> (forall err, err < 0 -> Q err (upd (S n) o a gr s)) -> Q 0 (upd (S n) o a ({[k]} ∪ gr) s) ->
  wp (sysfs_create_groups k) Q (upd n o a gr s).
Proof using TreeEnvLaws0.
  intros Hk He H0. apply wp_bind, wp_touch; [done|]. apply wp_bind, wp_attempt. intros r Hr.
  apply wp_if; intros Hb; propify; [apply wp_ret, He; lia|]. by apply wp_bind, wp_modify, wp_ret.
Qed.

(** Putting all objects [ks] of a level. *)
Lemma wp_put_all ks ps n l l' m a gr s (Q : unit -> tree -> Prop) :
  length ks = length ps -> l ≡ₚ zip ks ps ++ l' -> kids_ok l m ->
  Q tt (upd n (with_kids l' m) a gr s) -> wp (for_objs kobject_put ks) Q (upd n (with_kids l m) a gr s).
Proof using Type.
  revert ps l. induction ks as [|k ks IH]; intros [|p ps] l [=] Hl Ok HQ.
  - rewrite (with_kids_perm _ _ _ Hl Ok). exact HQ.
  - cbn [for_objs zip zip_with app] in *. apply wp_bind. eapply wp_kobject_put; [by apply (put_kid _ _ _ _ _ Hl Ok)|].
    apply (IH ps); [done|done| |done]. apply (kids_ok_perm _ _ _ Hl), kids_ok_cons in Ok. apply Ok.
Qed.
Lemma wp_drop_all ks ps n l l' m a gr s (Q : unit -> tree -> Prop) :
  length ks = length ps -> l ≡ₚ zip ks ps ++ l' -> kids_ok l m ->
  Q tt (upd n (with_kids l' m) a (gr ∖ list_to_set ks) s) ->
  wp (for_objs drop_entry ks) Q (upd n (with_kids l m) a gr s).
Proof using Type.
  revert ps l gr. induction ks as [|k ks IH]; intros [|p ps] l gr [=] Hl Ok HQ.
  - rewrite (with_kids_perm _ _ _ Hl Ok). cbn in HQ. rewrite difference_empty_L in HQ. exact HQ.
  - cbn [for_objs zip zip_with app] in *. apply wp_bind, wp_bind, wp_bind, wp_touch; [by eapply kids_live|]. apply wp_modify.
    eapply wp_kobject_put; [by apply (put_kid _ _ _ _ _ Hl Ok)|].
    apply (IH ps); [done|done| |].
    + apply (kids_ok_perm _ _ _ Hl), kids_ok_cons in Ok. apply Ok.
    + cbn [upd t_groups]. rewrite list_to_set_cons in HQ. by rewrite difference_difference_l_L.
Qed.
Lemma zip_snoc {A C} (xs : list A) (ys : list C) x y :
  length xs = length ys -> zip (xs ++ [x]) (ys ++ [y]) ≡ₚ (x, y) :: zip xs ys.
Proof using Type. intros Hl. rewrite zip_with_app by done. cbn. by rewrite Permutation_app_comm. Qed.
Lemma zip_rev {A C} (xs : list A) (ys : list C) : length xs = length ys -> zip (rev xs) (rev ys) ≡ₚ zip xs ys.
Proof using Type.
  revert ys. induction xs as [|x xs IH]; intros [|y ys] [=] ; [done|]. cbn [rev].
  rewrite zip_snoc by (by rewrite !length_rev). cbn. by rewrite IH.
Qed.

Lemma groups_snoc ks k gr : {[k]} ∪ (list_to_set ks ∪ gr) = list_to_set (ks ++ [k]) ∪ gr :> gset nat.
Proof using Type. rewrite list_to_set_app_L. cbn. by rewrite union_empty_r_L, (assoc_L _), (comm_L _ {[k]}). Qed.

(** A new object of [p] with the others, and without it again. *)
Lemma wp_put_new k p n l m a gr s (Q : unit -> tree -> Prop) :
  kids_ok ((k, p) :: l) m -> Q tt (upd n (with_kids l m) a gr s) ->
  wp (kobject_put k) Q (upd n (<[k := kid p]> (alter bump p (with_kids l m))) a gr s).
Proof using Type. intros Ok HQ. eapply wp_kobject_put; [|exact HQ]. rewrite <- with_kids_cons. by apply (put_kid k p). Qed.
Lemma wp_put_orphan k n o a gr s (Q : unit -> tree -> Prop) :
  o !! k = None -> Q tt (upd n o a gr s) -> wp (kobject_put k) Q (upd n (<[k := orphan]> o) a gr s).
Proof using Type. intros Hk HQ. eapply wp_kobject_put; [|exact HQ]. by apply put_orphan. Qed.

(** The loop of [pf_setup_tree] makes all the nodes or leaves none. *)
Lemma wp_setup_nodes home m a gr s oh (Q : Z * list nat -> tree -> Prop) todo : forall ks l n,
  m !! home = Some oh -> (1 <= k_refs oh)%nat ->
  l ≡ₚ zip ks (replicate (length ks) home) -> kids_ok l m -> below n l m ->
  (forall r n', r < 0 -> (n <= n')%nat -> Q (r, []) (upd n' m a gr s)) ->
  (forall ks' l' n', (n <= n')%nat -> length ks' = (length ks + todo)%nat ->
     l' ≡ₚ zip ks' (replicate (length ks') home) -> kids_ok l' m -> below n' l' m ->
     Q (0, ks') (upd n' (with_kids l' m) a gr s)) ->
  wp (setup_nodes home todo ks) Q (upd n (with_kids l m) a gr s).
Proof using TreeEnvLaws0.
  induction todo as [|todo IH]; intros ks l n Hh Hr Hl Ok Hb HF HQ.
  { apply wp_ret, HQ; [lia|lia|done..]. }
  assert (forall n' r, r < 0 -> (n <= n')%nat ->
    wp (for_objs kobject_put (rev ks) ≫= fun _ => mret (r, [])) Q (upd n' (with_kids l m) a gr s)) as Hfail.
  { intros n' r Hr' Hn. apply wp_bind.
    apply (wp_put_all (rev ks) (rev (replicate (length ks) home)) n' l []); [by rewrite !length_rev, length_replicate| |done|].
    - by rewrite app_nil_r, zip_rev by (by rewrite length_replicate).
    - apply wp_ret, HF; [done|lia]. }
  pose proof (below_none _ _ _ Hb) as Hnone. pose proof (kids_parent _ _ _ _ Ok Hh) as Hp.
  pose proof (kids_new _ _ _ _ _ Hb Ok Hh Hr) as Ok'.
  assert (n <> home) as Hne by (intros ->; by rewrite (be_base _ _ _ Hb _ (le_n _)) in Hh).
  cbn [setup_nodes]. apply wp_bind, wp_kobj_alloc; [apply Hfail; [done|lia]|]. cbv beta iota.
  apply wp_bind, wp_init_add; [done|done| |].
  - intros err He. rewrite (proj2 (Z.eqb_neq err 0)) by lia. cbn [negb]. apply wp_bind, wp_put_orphan; [done|].
    apply Hfail; [done|lia].
  - change (negb (0 =? 0)) with false. cbv iota. apply wp_bind, wp_attempt. intros r Hr'. apply wp_if; intros Hb'; propify.
    + apply wp_bind, wp_put_new; [done|]. apply Hfail; lia.
    + rewrite <- with_kids_cons. apply IH; [done|done| |done|by apply below_mono with (S n), below_new; [lia|]| |].
      * rewrite length_app. cbn. rewrite Nat.add_1_r, replicate_S_end, zip_snoc by (by rewrite length_replicate). by rewrite Hl.
      * intros. apply HF; [done|lia].
      * intros ks' l' n' Hn' Hlen. apply HQ; [lia|]. rewrite Hlen, length_app. cbn. lia.
Qed.

(** The loop of [pf_setup_provisioning] makes an entry below each node or leaves none; [l0] are
    the entries of the other GT, [gr] has their groups. *)
Lemma wp_setup_entries m a gr l0 s (Q : Z * list nat -> tree -> Prop) ps : forall done_ps ks l n,
  (forall p, p ∈ done_ps ++ ps -> exists op, m !! p = Some op /\ (1 <= k_refs op)%nat) ->
  (forall k, k ∈ gr -> k ∈ l0.*1) -> length ks = length done_ps ->
  l ≡ₚ zip ks done_ps ++ l0 -> kids_ok l m -> below n l m ->
  (forall r n', r < 0 -> (n <= n')%nat -> Q (r, []) (upd n' (with_kids l0 m) a gr s)) ->
  (forall ks' l' n', (n <= n')%nat -> length ks' = length (done_ps ++ ps) ->
     l' ≡ₚ zip ks' (done_ps ++ ps) ++ l0 -> kids_ok l' m -> below n' l' m ->
     Q (0, ks') (upd n' (with_kids l' m) a (list_to_set ks' ∪ gr) s)) ->
  wp (setup_entries ps ks) Q (upd n (with_kids l m) a (list_to_set ks ∪ gr) s).
Proof using TreeEnvLaws0.
  induction ps as [|p ps IH]; intros dps ks l n Hps Hgr Hlen Hl Ok Hb HF HQ.
  { rewrite app_nil_r in HQ. apply wp_ret, HQ; [lia|done..]. }
  assert (l.*1 ≡ₚ ks ++ l0.*1) as Hkeys.
  { rewrite Hl, fmap_app. by rewrite fst_zip by lia. }
  assert (forall n' r, r < 0 -> (n <= n')%nat ->
    wp (for_objs drop_entry (rev ks) ≫= fun _ => mret (r, [])) Q
      (upd n' (with_kids l m) a (list_to_set ks ∪ gr) s)) as Hfail.
  { intros n' r Hr' Hn. apply wp_bind.
    apply (wp_drop_all (rev ks) (rev dps) n' l l0); [by rewrite !length_rev| |done|].
    - by rewrite zip_rev.
    - replace ((list_to_set ks ∪ gr) ∖ list_to_set (rev ks) : gset nat) with gr; [apply wp_ret, HF; [done|lia]|].
      pose proof (ko_nodup _ _ Ok) as N. rewrite Hkeys in N. apply NoDup_app in N as (_ & N & _).
      rewrite (list_to_set_perm_L (rev ks) ks) by (symmetry; apply Permutation_rev).
      apply sets.set_eq. intros x. rewrite elem_of_difference, elem_of_union, !elem_of_list_to_set.
      split; [|tauto]. intros Hx. split; [by right|]. intros Hk. by apply (N x Hk), Hgr. }
  destruct (Hps p) as (op & Hop & Hrp); [apply elem_of_app; right; by left|].
  pose proof (below_none _ _ _ Hb) as Hnone. pose proof (kids_parent _ _ _ _ Ok Hop) as Hp.
  assert (n <> p) as Hne by (intros ->; by rewrite (be_base _ _ _ Hb _ (le_n _)) in Hop).
  cbn [setup_entries]. apply wp_bind, wp_attempt. intros r0 Hr0. apply wp_if; intros Hb0; propify; [apply Hfail; lia|].
  apply (below_mono _ (S n)) in Hb; [|lia]. clear Hnone Hne.
  pose proof (below_none _ _ _ Hb) as Hnone. pose proof (kids_new _ _ _ _ _ Hb Ok Hop Hrp) as Ok'.
  assert (S n <> p) as Hne by (intros <-; by rewrite (be_base _ _ _ Hb _ (le_n _)) in Hop).
  apply wp_bind, wp_kobj_alloc; [apply Hfail; [done|lia]|]. cbv beta iota.
  apply wp_bind, wp_init_add; [done|done| |].
  - intros err He. rewrite (proj2 (Z.eqb_neq err 0)) by lia. cbn [negb]. apply wp_bind, wp_put_orphan; [done|].
    apply Hfail; [done|lia].
  - change (negb (0 =? 0)) with false. cbv iota. apply wp_bind, wp_attempt. intros r Hr'. apply wp_if; intros Hb'; propify.
    { apply wp_bind, wp_put_new; [done|]. apply Hfail; lia. }
    apply wp_bind, wp_create_groups; [by rewrite lookup_insert_eq| |].
    + intros err He. rewrite (proj2 (Z.eqb_neq err 0)) by lia. cbn [negb]. apply wp_bind, wp_put_new; [done|]. apply Hfail; [done|lia].
    + change (negb (0 =? 0)) with false. cbv iota. rewrite <- with_kids_cons.
      rewrite groups_snoc.
      apply (IH (dps ++ [p])).
      * intros q. rewrite <- app_assoc. apply Hps.
      * done.
      * rewrite !length_app. cbn. lia.
      * rewrite zip_snoc by done. by rewrite Hl.
      * done.
      * apply below_mono with (S (S n)); [lia|]. by apply below_new.
      * intros. apply HF; [done|lia].
      * intros ks' l' n' Hn'. rewrite <- app_assoc. apply HQ. lia.
Qed.
End steps.

(** ** The whole tree *)

(** No node is left; [leak] are the arrays that nobody frees any more. *)
Record bare (leak : gset nat) (s : tree) : Prop := {
  ba_objs : t_objs s = ∅;
  ba_arrays : t_arrays s = leak;
  ba_groups : t_groups s = ∅;
  ba_links : t_links s = ∅;
  ba_home : t_home s = None;
  ba_kobjs : t_kobjs s = None;
  ba_entries g : t_entries s g = None;
  ba_bad : t_bad s = false;
}.

Definition entry_pairs (nodes : list nat) (e : option (nat * list nat)) : list (nat * nat) :=
  match e with Some (_, es) => zip es nodes | None => [] end.
Definition entry_arrays (e : option (nat * list nat)) : list nat := match e with Some (a, _) => [a] | None => [] end.
(** The GTs' nodes with their parents, and the arrays of all. *)
Definition gt_pairs (nodes : list nat) (e : gt_id -> option (nat * list nat)) : list (nat * nat) :=
  entry_pairs nodes (e GT_PRIMARY) ++ entry_pairs nodes (e GT_MEDIA).
Definition all_arrays (a : nat) (e : gt_id -> option (nat * list nat)) : list nat :=
  a :: entry_arrays (e GT_PRIMARY) ++ entry_arrays (e GT_MEDIA).
(** The home node [h] and the device's nodes. *)
Definition device_objs (h : nat) (nodes : list nat) : gmap nat kobj :=
  with_kids (zip nodes (replicate (length nodes) h)) {[h := orphan]}.

(** The device's nodes exist, and below them those of the GTs that have entries; nothing else. *)
Record full `{E : Env} (d : dev) (h a : nat) (nodes : list nat) (l : list (nat * nat)) (s : tree) : Prop := {
  fu_home : t_home s = Some h;
  fu_kobjs : t_kobjs s = Some (a, nodes);
  fu_len : length nodes = pf_nodes_count d;
  fu_links : t_links s = {[default 0%nat (head nodes)]};
  fu_pairs : l ≡ₚ gt_pairs nodes (t_entries s);
  fu_each g b es : t_entries s g = Some (b, es) -> length es = length nodes;
  fu_nodes : kids_ok (zip nodes (replicate (length nodes) h)) {[h := orphan]};
  fu_ok : kids_ok l (device_objs h nodes);
  fu_objs : t_objs s = with_kids l (device_objs h nodes);
  fu_below : below (t_tick s) l (device_objs h nodes);
  fu_arrays : t_arrays s = list_to_set (all_arrays a (t_entries s));
  fu_arrays_new : NoDup (all_arrays a (t_entries s)) /\ forall x, x ∈ all_arrays a (t_entries s) -> (x < t_tick s)%nat;
  fu_groups : t_groups s = list_to_set l.*1;
  fu_bad : t_bad s = false;
}.

Section whole.
Context `{E : Env} `{T : TreeEnv} `{!TreeEnvLaws T} `{Sv : SaveEnv}.

Lemma upd_self s : s = upd (t_tick s) (t_objs s) (t_arrays s) (t_groups s) s.
Proof. by destruct s. Qed.

Definition gt_other (g : gt_id) : gt_id := match g with GT_PRIMARY => GT_MEDIA | GT_MEDIA => GT_PRIMARY end.
Lemma gt_pairs_split g nodes e : gt_pairs nodes e ≡ₚ entry_pairs nodes (e g) ++ entry_pairs nodes (e (gt_other g)).
Proof. destruct g; [done|]. apply Permutation_app_comm. Qed.
Lemma all_arrays_split g a e : all_arrays a e ≡ₚ entry_arrays (e g) ++ a :: entry_arrays (e (gt_other g)).
Proof. unfold all_arrays. destruct g; cbn [gt_other]; [|rewrite (Permutation_app_comm (entry_arrays (e GT_PRIMARY)))]; apply Permutation_middle. Qed.
Lemma gt_other_ne g : gt_other g <> g.
Proof. by destruct g. Qed.

Lemma device_node h nodes p :
  kids_ok (zip nodes (replicate (length nodes) h)) {[h := orphan]} -> p ∈ nodes ->
  exists op, device_objs h nodes !! p = Some op /\ (1 <= k_refs op)%nat.
Proof.
  intros Ok Hp. assert (exists q, (p, q) ∈ zip nodes (replicate (length nodes) h)) as [q Hq].
  { apply list_elem_of_lookup in Hp as [i Hi]. exists h. apply (list_elem_of_lookup_2 _ i). apply lookup_zip_Some.
    split; [done|]. apply lookup_replicate_2. by eapply lookup_lt_Some. }
  apply elem_of_Permutation in Hq as [l' Hl]. exists (kid q). split; [|done].
  unfold device_objs. rewrite (with_kids_perm _ _ _ Hl Ok), with_kids_cons, lookup_insert_eq. done.
Qed.

(** The nodes of a GT are set up completely or not at all. *)
Lemma wp_gt_setup d h a nodes l s g (Q : Z -> tree -> Prop) :
  full d h a nodes l s -> t_entries s g = None ->
  (forall r n, r < 0 -> (t_tick s <= n)%nat -> Q r (set_tick n s)) ->
  (forall b es l' n, l' ≡ₚ zip es nodes ++ l -> length es = length nodes -> kids_ok l' (device_objs h nodes) ->
     below n l' (device_objs h nodes) -> b ∉ t_arrays s -> (t_tick s <= n)%nat -> (b < n)%nat ->
     Q 0 (set_entries g (Some (b, es)) (upd n (with_kids l' (device_objs h nodes)) ({[b]} ∪ t_arrays s) (list_to_set l'.*1) s))) ->
  wp (pf_setup_provisioning d g) Q s.
Proof using TreeEnvLaws0.
  intros F Hg HF HQ. apply wp_bind, wp_gets. rewrite (fu_kobjs _ _ _ _ _ _ F). cbv beta iota.
  rewrite (upd_self s), (fu_objs _ _ _ _ _ _ F). apply wp_bind, wp_attempt. intros r0 Hr0.
  assert (forall r n, r < 0 -> (t_tick s <= n)%nat ->
    Q r (upd n (with_kids l (device_objs h nodes)) (t_arrays s) (t_groups s) s)) as HF'.
  { intros r n Hr Hn. rewrite <- (fu_objs _ _ _ _ _ _ F). by apply HF. }
  apply wp_if; intros Hb0; propify; [apply wp_ret, HF'; lia|].
  apply wp_bind, wp_kcalloc; [apply wp_ret, HF'; [done|lia]|]. cbv beta iota. set (n := t_tick s) in *.
  assert (S n ∉ t_arrays s) as Hnew.
  { rewrite (fu_arrays _ _ _ _ _ _ F), elem_of_list_to_set. intros Hin%(fu_arrays_new _ _ _ _ _ _ F). fold n in Hin. lia. }
  assert (take (1 + d_totalvfs d) nodes = nodes) as -> by (apply take_ge; by rewrite (fu_len _ _ _ _ _ _ F)).
  rewrite <- (union_empty_l_L (t_groups s)). apply wp_bind.
  apply (wp_setup_entries (device_objs h nodes) _ (t_groups s) l s _ nodes [] [] l); try done.
  - intros p Hp. apply device_node; [apply F|done].
  - intros k. by rewrite (fu_groups _ _ _ _ _ _ F), elem_of_list_to_set.
  - apply F.
  - apply below_mono with n; [lia|apply F].
  - intros r n' Hr Hn'. rewrite (proj2 (Z.eqb_neq r 0)) by lia. cbn [negb]. apply wp_bind, wp_modify, wp_ret.
    unfold set_arrays. cbn [upd t_tick t_objs t_arrays t_groups].
    replace (({[S n]} ∪ t_arrays s) ∖ {[S n]} : gset nat) with (t_arrays s); [apply HF'; [done|lia]|].
    apply sets.set_eq. intros x. rewrite elem_of_difference, elem_of_union, elem_of_singleton. split; [|tauto].
    intros Hx. split; [by right|congruence].
  - intros es l' n' Hn' Hlen Hl' Ok' Hb'. cbn [app] in *. change (negb (0 =? 0)) with false. cbv iota.
    apply wp_bind, wp_modify, wp_ret.
    replace (list_to_set es ∪ t_groups s : gset nat) with (list_to_set l'.*1 : gset nat); [apply HQ; try done; lia|].
    rewrite (fu_groups _ _ _ _ _ _ F). rewrite (list_to_set_perm_L l'.*1 (es ++ l.*1)); [apply list_to_set_app_L|].
    rewrite Hl', fmap_app. by rewrite fst_zip by lia.
Qed.
Lemma set_entries_at g e s : t_entries (set_entries g e s) g = e.
Proof. cbn. by rewrite decide_True. Qed.
Lemma set_entries_other g g' e s : g' <> g -> t_entries (set_entries g e s) g' = t_entries s g'.
Proof. intros Hne. cbn. by rewrite decide_False. Qed.

Lemma full_tick d h a nodes l s n : (t_tick s <= n)%nat -> full d h a nodes l s -> full d h a nodes l (set_tick n s).
Proof.
  intros Hn []. constructor; try done.
  - cbn. by apply below_mono with (t_tick s).
  - cbn. split; [apply fu_arrays_new0|]. intros x Hx%fu_arrays_new0. lia.
Qed.
Lemma full_up d h a nodes l s g b es l' n :
  full d h a nodes l s -> t_entries s g = None -> l' ≡ₚ zip es nodes ++ l -> length es = length nodes ->
  kids_ok l' (device_objs h nodes) -> below n l' (device_objs h nodes) -> b ∉ t_arrays s -> (t_tick s <= n)%nat -> (b < n)%nat ->
  full d h a nodes l' (set_entries g (Some (b, es)) (upd n (with_kids l' (device_objs h nodes)) ({[b]} ∪ t_arrays s) (list_to_set l'.*1) s)).
Proof.
  intros [] Hg Hl' Hlen Ok Hb Hnew Hn Hbn. set (s' := set_entries _ _ _).
  assert (t_entries s' g = Some (b, es)) as Hat by apply set_entries_at.
  assert (t_entries s' (gt_other g) = t_entries s (gt_other g)) as Ho.
  { unfold s'. by rewrite set_entries_other by apply gt_other_ne. }
  assert (all_arrays a (t_entries s') ≡ₚ b :: all_arrays a (t_entries s)) as Harr.
  { rewrite !(all_arrays_split g), Hat, Ho, Hg. done. }
  constructor; try done.
  - rewrite (gt_pairs_split g), Hat, Ho, Hl', fu_pairs0, (gt_pairs_split g), Hg. done.
  - intros g' b' es'. destruct (decide (g' = g)) as [->|Hne].
    + rewrite Hat. by intros [= <- <-].
    + unfold s'. rewrite set_entries_other by done. apply fu_each0.
  - rewrite (list_to_set_perm_L _ _ Harr), list_to_set_cons, <- fu_arrays0. done.
  - destruct fu_arrays_new0 as [N Hlt]. split.
    + rewrite Harr. apply NoDup_cons. split; [|done]. by rewrite fu_arrays0, elem_of_list_to_set in Hnew.
    + intros x. rewrite Harr. intros [->|Hx]%elem_of_cons; [done|]. cbn. specialize (Hlt x Hx). lia.
Qed.

Lemma wp_gt_teardown d h a nodes l s g (Q : unit -> tree -> Prop) :
  full d h a nodes l s ->
  (forall l' s', full d h a nodes l' s' -> t_entries s' g = None ->
     (forall g', g' <> g -> t_entries s' g' = t_entries s g') -> Q tt s') ->
  wp (pf_teardown_provisioning g) Q s.
Proof using Type.
  intros F HQ. destruct F. apply wp_bind, wp_gets, wp_bind, wp_modify.
  assert (forall l' s' e, t_entries s' = (fun g' => if decide (g' = g) then None else t_entries s g') ->
    t_entries s g = e -> entry_pairs nodes e ++ l' ≡ₚ l ->
    s' = set_entries g None (upd (t_tick s) (with_kids l' (device_objs h nodes))
      (t_arrays s ∖ list_to_set (entry_arrays e)) (list_to_set l'.*1) s) -> Q tt s') as Hdone.
  { intros l' s' e Hen He Hl Hs'. apply (HQ l').
    2: { rewrite Hen. by rewrite decide_True. }
    2: { intros g' Hne. rewrite Hen. by rewrite decide_False. }
    assert (t_entries s' g = None) as Hat by (rewrite Hen; by rewrite decide_True).
    assert (t_entries s' (gt_other g) = t_entries s (gt_other g)) as Ho
      by (rewrite Hen; rewrite decide_False by apply gt_other_ne; done).
    assert (all_arrays a (t_entries s) ≡ₚ entry_arrays e ++ all_arrays a (t_entries s')) as Harr.
    { rewrite !(all_arrays_split g), Hat, Ho, He. done. }
    assert (kids_ok l' (device_objs h nodes)) as Ok'.
    { apply (kids_ok_app (entry_pairs nodes e)). apply (kids_ok_perm l); [by symmetry|done]. }
    destruct fu_arrays_new0 as [N Hlt]. rewrite Harr in N. apply NoDup_app in N as (N1 & N2 & N3).
    constructor; try done; try (by rewrite Hs').
    - apply (Permutation_app_inv_l (entry_pairs nodes e)). rewrite Hl, fu_pairs0, !(gt_pairs_split g), Hat, Ho, He. done.
    - intros g' b es. rewrite Hen. case_decide; [done|apply fu_each0].
    - replace (t_tick s') with (t_tick s) by (by rewrite Hs').
      apply (below_app _ (entry_pairs nodes e)), (below_perm _ l); [by symmetry|done].
    - replace (t_arrays s') with (t_arrays s ∖ list_to_set (entry_arrays e) : gset nat) by (by rewrite Hs').
      rewrite fu_arrays0, (list_to_set_perm_L _ _ Harr).
      apply sets.set_eq. intros x. rewrite elem_of_difference, !elem_of_list_to_set, elem_of_app. split; [tauto|].
      intros Hx. split; [by right|]. intros Hx'. by apply (N2 x).
    - replace (t_tick s') with (t_tick s) by (by rewrite Hs'). split; [done|]. intros x Hx. apply Hlt.
      rewrite Harr. apply elem_of_app. by right. }
  destruct (t_entries s g) as [[b es]|] eqn:Hg.
  - pose proof (fu_each0 _ _ _ Hg) as Hlen. rewrite (gt_pairs_split g), Hg in fu_pairs0. cbn [entry_pairs] in fu_pairs0.
    apply wp_bind. change (set_entries g None s) with (set_entries g None (upd (t_tick s) (t_objs s) (t_arrays s) (t_groups s) s)).
    rewrite fu_objs0. apply (wp_drop_all es nodes (t_tick s) l (entry_pairs nodes (t_entries s (gt_other g))) (device_objs h nodes) _ _ (set_entries g None s)); try done.
    assert (t_groups s ∖ list_to_set es = (list_to_set (entry_pairs nodes (t_entries s (gt_other g))).*1 : gset nat)) as Hgr.
    { rewrite fu_groups0, (list_to_set_perm_L l.*1 (es ++ (entry_pairs nodes (t_entries s (gt_other g))).*1)), list_to_set_app_L.
      2: { rewrite fu_pairs0, fmap_app. by rewrite fst_zip by lia. }
      pose proof (ko_nodup _ _ fu_ok0) as N. rewrite fu_pairs0, fmap_app, fst_zip in N by lia. apply NoDup_app in N as (_ & N & _).
      apply sets.set_eq. intros x. rewrite elem_of_difference, elem_of_union, !elem_of_list_to_set. split; [tauto|].
      intros Hx. split; [by right|]. intros Hx'. by apply (N x). }
    apply wp_modify. eapply Hdone; [done|exact eq_refl|by rewrite fu_pairs0|].
    assert (list_to_set (entry_arrays (Some (b, es))) = ({[b]} : gset nat)) as -> by (cbn; by rewrite union_empty_r_L).
    by rewrite <- Hgr.
  - apply wp_ret. apply (Hdone l _ None); [done|done|done|]. rewrite <- fu_objs0, <- fu_groups0. cbn [entry_arrays].
    change (list_to_set [] : gset nat) with (∅ : gset nat). rewrite difference_empty_L. by rewrite <- upd_self.
Qed.
(** *** The device's nodes *)

Definition blank (n : nat) (a : gset nat) : tree := upd n ∅ a ∅ fresh_tree.
Lemma bare_blank n a : bare a (blank n a).
Proof. by split. Qed.

(** What is left when a set up failed: at most one array. *)
Definition few (leak : gset nat) : Prop := leak = ∅ \/ exists x, leak = {[x]}.

Lemma wp_setup_home n (Q : Z -> tree -> Prop) :
  (forall r n', r < 0 -> Q r (blank n' ∅)) ->
  (forall h n', (h < n')%nat -> Q 0 (set_home (Some h) (upd n' {[h := orphan]} ∅ ∅ fresh_tree))) ->
  wp pf_setup_home Q (blank n ∅).
Proof using TreeEnvLaws0.
  intros HF HQ. apply wp_bind, wp_attempt. intros r Hr. apply wp_if; intros Hb; propify; [apply wp_ret, HF; lia|].
  apply wp_bind, wp_kobj_alloc; [by apply wp_ret, HF|]. cbv beta iota. apply wp_bind, wp_bind, wp_ret, wp_bind, wp_attempt.
  intros r2 Hr2. destruct (Z.eqb_spec r2 0) as [->|Hne]; cbn [negb].
  - apply wp_bind, wp_ret, wp_ret. change (negb (0 =? 0)) with false. cbv iota. apply wp_bind, wp_modify, wp_ret.
    apply HQ. lia.
  - apply wp_ret. rewrite (proj2 (Z.eqb_neq r2 0)) by done. cbn [negb]. apply wp_bind, wp_put_orphan; [done|].
    apply wp_ret, HF. lia.
Qed.

Lemma single_home h : kids_ok [] {[h := orphan]}.
Proof. apply kids_ok_nil. Qed.

(** After the home node: the nodes of the functions and the link. *)
Lemma wp_setup_tree d h n (Q : Z -> tree -> Prop) :
  (h < n)%nat ->
  (forall r n' leak, r < 0 -> few leak -> Q r (set_home (Some h) (upd n' {[h := orphan]} leak ∅ fresh_tree))) ->
  (forall a nodes n', (a < n')%nat -> length nodes = pf_nodes_count d ->
     kids_ok (zip nodes (replicate (length nodes) h)) {[h := orphan]} -> below n' [] (device_objs h nodes) ->
     Q 0 (set_kobjs (Some (a, nodes)) (set_home (Some h) (upd n' (device_objs h nodes) {[a]} ∅ fresh_tree)))) ->
  wp (pf_setup_tree d) Q (set_home (Some h) (upd n {[h := orphan]} ∅ ∅ fresh_tree)).
Proof using TreeEnvLaws0.
  intros Hh HF HQ. set (s0 := set_home (Some h) fresh_tree).
  change (wp (pf_setup_tree d) Q (upd n {[h := orphan]} ∅ ∅ s0)).
  apply wp_bind, wp_gets. cbn [t_home upd s0 set_home set_ptrs default from_option]. change (id h) with h. fold s0.
  apply wp_bind, wp_attempt. intros r Hr. apply wp_if; intros Hb; propify; [apply wp_ret, (HF r); [lia|by left]|].
  apply wp_bind, wp_kcalloc; [apply wp_ret, (HF (- ENOMEM)); [done|by left]|]. cbv beta iota.
  rewrite (union_empty_r_L {[S n]}). apply wp_bind.
  change (upd (S (S n)) {[h := orphan]} {[S n]} ∅ s0) with (upd (S (S n)) (with_kids [] {[h := orphan]}) {[S n]} ∅ s0).
  apply (wp_setup_nodes h {[h := orphan]} {[S n]} ∅ s0 orphan _ _ [] []); try done.
  - by rewrite lookup_singleton_eq.
  - apply kids_ok_nil.
  - split; [intros x Hx; apply lookup_singleton_ne; lia|]. intros k Hk. by apply not_elem_of_nil in Hk.
  - intros r' n' Hr' Hn'. rewrite (proj2 (Z.eqb_neq r' 0)) by lia. cbn [negb]. apply wp_ret, (HF r'); [done|right; by exists (S n)].
  - intros nodes l n' Hn' Hlen Hl Ok Hb'. change (negb (0 =? 0)) with false. cbv iota. apply wp_bind, wp_modify, wp_ret.
    rewrite (with_kids_perm _ _ _ Hl Ok). apply (HQ (S n) nodes n'); [lia|done|by eapply kids_ok_perm|].
    split; [|intros k Hk; by apply not_elem_of_nil in Hk]. intros x Hx.
    pose proof (below_perm _ _ _ _ Hl Hb') as [B1 B2]. unfold device_objs. apply with_kids_none; [|by apply B1].
    intros Hk%B2. lia.
Qed.

(** The way back: the nodes, their array, the home node. *)
Lemma wp_teardown_tree h a nodes n k gr (s : tree) (Q : unit -> tree -> Prop) :
  t_kobjs s = Some (a, nodes) -> s = upd n (device_objs h nodes) {[a]} gr k ->
  kids_ok (zip nodes (replicate (length nodes) h)) {[h := orphan]} ->
  Q tt (set_kobjs None (upd n {[h := orphan]} ∅ gr k)) -> wp pf_teardown_tree Q s.
Proof using Type.
  intros Hk Hs Ok HQ. apply wp_bind, wp_gets, wp_bind, wp_modify. rewrite Hk. apply wp_bind. rewrite Hs.
  apply (wp_put_all nodes (replicate (length nodes) h) n _ [] {[h := orphan]} {[a]} gr (set_kobjs None k));
    [by rewrite length_replicate|by rewrite app_nil_r|done|].
  apply wp_modify. unfold set_arrays. cbn [upd t_tick t_objs t_arrays t_groups].
  rewrite difference_diag_L. exact HQ.
Qed.
Lemma wp_teardown_home h n a gr (k s : tree) (Q : unit -> tree -> Prop) :
  t_home s = Some h -> s = upd n {[h := orphan]} a gr k -> Q tt (set_home None (upd n ∅ a gr k)) ->
  wp pf_teardown_home Q s.
Proof using Type.
  intros Hh Hs HQ. apply wp_bind, wp_gets, wp_bind, wp_modify. rewrite Hh, Hs.
  change (set_home None (upd n {[h := orphan]} a gr k)) with (upd n (<[h := orphan]> ∅) a gr (set_home None k)).
  apply wp_put_orphan; [done|exact HQ].
Qed.

Lemma wp_root_setup d n (Q : Z -> tree -> Prop) :
  is_sriov_pf = true -> i915_sriov_pf_aborted d = false ->
  (forall r n' leak, r < 0 -> few leak -> Q r (blank n' leak)) ->
  (forall h a nodes s, full d h a nodes [] s -> (forall g, t_entries s g = None) -> Q 0 s) ->
  wp (i915_sriov_sysfs_setup d) Q (blank n ∅).
Proof using TreeEnvLaws0.
  intros Hpf Hab HF HQ. unfold i915_sriov_sysfs_setup. rewrite Hpf, Hab. cbn [negb].
  apply wp_bind, wp_setup_home.
  { intros r n' Hr. rewrite (proj2 (Z.eqb_neq r 0)) by lia. cbn [negb]. apply wp_ret, HF; [done|by left]. }
  intros h n1 Hh. change (negb (0 =? 0)) with false. cbv iota. apply wp_bind, wp_setup_tree; [done|..].
  { intros r n' leak Hr Hf. rewrite (proj2 (Z.eqb_neq r 0)) by lia. cbn [negb]. apply wp_bind.
    eapply (wp_teardown_home h n' leak ∅ (set_home (Some h) fresh_tree)); [done|done|]. by apply wp_ret, (HF r n' leak). }
  intros a nodes n2 Ha Hlen Ok Hb. change (negb (0 =? 0)) with false. cbv iota.
  set (s1 := set_kobjs (Some (a, nodes)) (set_home (Some h) fresh_tree)).
  change (set_kobjs (Some (a, nodes)) (set_home (Some h) (upd n2 (device_objs h nodes) {[a]} ∅ fresh_tree)))
    with (upd n2 (device_objs h nodes) {[a]} ∅ s1).
  assert (is_Some (device_objs h nodes !! default 0%nat (head nodes))) as Hnode.
  { destruct nodes as [|k nodes]; [done|]. destruct (device_node h (k :: nodes) k Ok) as (op & Ho & _); [by left|by exists op]. }
  assert (forall n3 r, r < 0 ->
    wp (pf_teardown_tree ≫= fun _ => pf_teardown_home ≫= fun _ => mret r) Q (upd n3 (device_objs h nodes) {[a]} ∅ s1)) as Hundo.
  { intros n3 r Hr. apply wp_bind. eapply (wp_teardown_tree h a nodes n3 s1 ∅); [done|done|done|].
    apply wp_bind. eapply (wp_teardown_home h n3 ∅ ∅ (set_kobjs None s1)); [done|done|]. apply wp_ret, (HF r n3 ∅); [done|by left]. }
  apply wp_bind, wp_bind, wp_attempt. intros r Hr. apply wp_if; intros Hb1; propify.
  { apply wp_ret. rewrite (proj2 (Z.eqb_neq r 0)) by lia. cbn [negb]. apply Hundo. lia. }
  apply wp_bind, wp_gets. cbn [t_kobjs upd s1 set_kobjs set_ptrs]. fold s1.
  replace (match nodes with [] => 0%nat | k :: _ => k end) with (default 0%nat (head nodes)) by (by destruct nodes).
  apply wp_bind, wp_touch; [done|]. apply wp_bind, wp_attempt. intros r2 Hr2. apply wp_if; intros Hb2; propify.
  { apply wp_ret. rewrite (proj2 (Z.eqb_neq r2 0)) by lia. cbn [negb]. apply Hundo. lia. }
  apply wp_bind, wp_modify, wp_ret. change (negb (0 =? 0)) with false. cbv iota. apply wp_ret.
  apply (HQ h a nodes); [|done]. constructor; try done.
  - cbn. by rewrite union_empty_r_L.
  - apply kids_ok_nil.
  - cbn [set_links set_ptrs upd t_tick]. apply below_mono with n2; [lia|done].
  - cbn. by rewrite union_empty_r_L.
  - cbn. split; [by repeat constructor; apply not_elem_of_nil|]. intros x Hx%list_elem_of_singleton. subst. lia.
Qed.

Lemma wp_root_teardown d h a nodes s (Q : unit -> tree -> Prop) :
  full d h a nodes [] s -> (forall g, t_entries s g = None) -> is_sriov_pf = true ->
  (forall s', bare ∅ s' -> Q tt s') -> wp i915_sriov_sysfs_teardown Q s.
Proof using Type.
  intros F Hnone Hpf HQ. destruct F. unfold i915_sriov_sysfs_teardown. rewrite Hpf. cbn [negb].
  apply wp_bind, wp_gets. rewrite fu_home0. cbn [negb bool_decide]. change (negb (bool_decide (Some h <> None))) with false. cbv iota.
  apply wp_bind, wp_bind, wp_gets. rewrite fu_kobjs0.
  assert (t_arrays s = {[a]}) as Harr by (rewrite fu_arrays0; unfold all_arrays; rewrite !Hnone; cbn; by rewrite union_empty_r_L).
  assert (is_Some (device_objs h nodes !! default 0%nat (head nodes))) as Hnode.
  { destruct nodes as [|k nodes]; [done|]. destruct (device_node h (k :: nodes) k fu_nodes0) as (op & Ho & _); [by left|by exists op]. }
  replace (match nodes with [] => 0%nat | k :: _ => k end) with (default 0%nat (head nodes)) by (by destruct nodes).
  rewrite (upd_self s), fu_objs0, Harr, fu_groups0. cbn [with_kids foldr fmap list_fmap].
  apply wp_bind, wp_touch; [done|]. apply wp_modify.
  apply wp_bind. set (k := set_links (t_links s ∖ {[default 0%nat (head nodes)]}) s).
  eapply (wp_teardown_tree h a nodes (t_tick s) k ∅); [done|done|done|].
  eapply (wp_teardown_home h (t_tick s) ∅ ∅ (set_kobjs None k)); [done|done|]. apply HQ. constructor; try done.
  cbn. rewrite fu_links0. by rewrite difference_diag_L.
Qed.
(** *** Together *)

(** [g] has an entry with its groups of files below every node. *)
Definition gt_ready (nodes : list nat) (g : gt_id) (s : tree) : Prop :=
  exists b es, t_entries s g = Some (b, es) /\ length es = length nodes /\
    forall i k p, es !! i = Some k -> nodes !! i = Some p -> t_objs s !! k = Some (kid p) /\ k ∈ t_groups s.
Definition gt_outcome (nodes : list nat) (s : tree) (g : gt_id) (r : Z) : Prop :=
  if decide (r = 0) then gt_ready nodes g s else t_entries s g = None.

Lemma full_ready d h a nodes l s g b es : full d h a nodes l s -> t_entries s g = Some (b, es) -> gt_ready nodes g s.
Proof using Type.
  intros [] Hg. exists b, es. split; [done|]. split; [by eapply fu_each0|]. intros i k p Hk Hp.
  assert ((k, p) ∈ l) as Hin.
  { rewrite fu_pairs0, (gt_pairs_split g), Hg. apply elem_of_app. left. apply (list_elem_of_lookup_2 _ i). by apply lookup_zip_Some. }
  split.
  - apply elem_of_Permutation in Hin as [l' Hl]. by rewrite fu_objs0, (with_kids_perm _ _ _ Hl fu_ok0), with_kids_cons, lookup_insert_eq.
  - rewrite fu_groups0, elem_of_list_to_set. apply list_elem_of_fmap. by exists (k, p).
Qed.
Lemma full_node d h a nodes l s k :
  full d h a nodes l s -> k ∈ nodes -> exists o, t_objs s !! k = Some o /\ k_parent o = Some h.
Proof using Type.
  intros [] Hk. apply list_elem_of_lookup in Hk as [i Hi].
  assert ((k, h) ∈ zip nodes (replicate (length nodes) h)) as Hin.
  { apply (list_elem_of_lookup_2 _ i). apply lookup_zip_Some. split; [done|]. apply lookup_replicate_2. by eapply lookup_lt_Some. }
  apply elem_of_Permutation in Hin as [l' Hl].
  assert (device_objs h nodes !! k = Some (kid h)) as Hd
    by (unfold device_objs; by rewrite (with_kids_perm _ _ _ Hl fu_nodes0), with_kids_cons, lookup_insert_eq).
  destruct (with_kids_some l (device_objs h nodes) k (kid h)) as (o & Ho & Hpo & _); [|done|].
  - intros ((k' & q) & Heq & Hin)%list_elem_of_fmap. cbn in Heq. subst. by rewrite (ko_new _ _ fu_ok0 _ _ Hin) in Hd.
  - exists o. by rewrite fu_objs0.
Qed.

Lemma wp_setup_gts d h a nodes gs : forall l s (Q : list Z -> tree -> Prop),
  is_sriov_pf = true -> i915_sriov_pf_aborted d = false -> NoDup gs ->
  full d h a nodes l s -> (forall g, g ∈ gs -> t_entries s g = None) ->
  (forall l' s' rs, full d h a nodes l' s' -> Forall2 (fun g r => r = 0 <-> t_entries s' g <> None) gs rs ->
     (forall g, g ∉ gs -> t_entries s' g = t_entries s g) -> Q rs s') ->
  wp (setup_gts d gs) Q s.
Proof using TreeEnvLaws0.
  induction gs as [|g gs IH]; intros l s Q Hpf Hab N F Hnone HQ.
  { apply wp_ret, (HQ l); [done|constructor|done]. }
  apply NoDup_cons in N as [Hg N]. cbn [setup_gts]. apply wp_bind. unfold intel_iov_sysfs_setup. rewrite Hpf, Hab. cbn [negb].
  assert (forall l1 s1 r, full d h a nodes l1 s1 -> (r = 0 <-> t_entries s1 g <> None) ->
    (forall g', g' <> g -> t_entries s1 g' = t_entries s g') ->
    wp (rs ← setup_gts d gs; mret (r :: rs)) Q s1) as Hnext.
  { intros l1 s1 r F1 Hr Hs1. apply wp_bind, (IH l1 s1); try done.
    - intros g' Hg'. rewrite Hs1 by congruence. apply Hnone. by right.
    - intros l2 s2 rs F2 Hrs Hs2. apply wp_ret, (HQ l2); [done|constructor; [by rewrite (Hs2 g Hg)|done]|].
      intros g' [Hg1 Hg2]%not_elem_of_cons. by rewrite Hs2, Hs1. }
  apply (wp_gt_setup d h a nodes l); [done|apply Hnone; by left|..].
  - intros r n Hr Hn. apply (Hnext l); [by apply full_tick| |done].
    cbn. rewrite (Hnone g) by (by left). split; [lia|done].
  - intros b es l' n Hl' Hlen Ok Hb Hnew Hn Hbn. apply (Hnext l').
    + apply (full_up d h a nodes l); try done. apply Hnone. by left.
    + rewrite set_entries_at. by split.
    + intros g' Hne. by rewrite set_entries_other.
Qed.
Lemma wp_teardown_gts d h a nodes (Q : unit -> tree -> Prop) gs : forall l s,
  is_sriov_pf = true -> full d h a nodes l s ->
  (forall l' s', full d h a nodes l' s' -> (forall g, g ∈ gs -> t_entries s' g = None) ->
     (forall g, t_entries s g = None -> t_entries s' g = None) -> Q tt s') ->
  wp (teardown_gts false gs) Q s.
Proof using Type.
  induction gs as [|g gs IH]; intros l s Hpf F HQ.
  { apply wp_ret, (HQ l); [done| |done]. intros g Hg. by apply not_elem_of_nil in Hg. }
  cbn [teardown_gts negb]. apply wp_bind. unfold intel_iov_sysfs_teardown. rewrite Hpf. cbn [negb].
  apply (wp_gt_teardown d h a nodes l); [done|]. intros l1 s1 F1 Hg1 Hs1. apply (IH l1); [done|done|].
  intros l2 s2 F2 Hin Hs2. apply (HQ l2); [done|..].
  - intros g' [->|Hg']%elem_of_cons; [by apply Hs2|by apply Hin].
  - intros g' Hg'. apply Hs2. destruct (decide (g' = g)) as [->|Hne]; [done|by rewrite Hs1].
Qed.

(** Without the device's nodes the GTs get none, and there is nothing to tear down. *)
Lemma bare_setup_gts d leak s gs :
  bare leak s ->
  setup_gts d gs s = (replicate (length gs) (if negb is_sriov_pf || i915_sriov_pf_aborted d then 0 else - ENODEV), s).
Proof using Type.
  intros Hs. induction gs as [|g gs IH]; [done|]. cbn [setup_gts length replicate].
  assert (intel_iov_sysfs_setup d g s = (if negb is_sriov_pf || i915_sriov_pf_aborted d then 0 else - ENODEV, s)) as Hr.
  { unfold intel_iov_sysfs_setup. destruct is_sriov_pf; [|done]. destruct (i915_sriov_pf_aborted d); [done|]. cbn.
    unfold pf_setup_provisioning, mbind, st_bind, gets. by rewrite (ba_kobjs _ _ Hs). }
  rewrite (bind_run _ _ _ _ _ Hr), (bind_run _ _ _ _ _ IH). done.
Qed.
Lemma wp_bare_unregister leak s (Q : unit -> tree -> Prop) :
  bare leak s -> (forall s', bare leak s' -> Q tt s') -> wp (driver_unregister false) Q s.
Proof using Type.
  intros Hs HQ. apply wp_bind. revert s Hs. generalize all_gts. intros gs. induction gs as [|g gs IH]; intros s Hs.
  - apply wp_ret. unfold i915_sriov_sysfs_teardown. destruct is_sriov_pf; [|by apply HQ]. cbn [negb].
    apply wp_bind, wp_gets. rewrite (ba_home _ _ Hs). by apply HQ.
  - cbn [teardown_gts negb]. apply wp_bind. unfold intel_iov_sysfs_teardown. destruct is_sriov_pf eqn:Hpf; cbn [negb]; [|by apply wp_ret, IH].
    apply wp_bind, wp_gets, wp_bind, wp_modify. rewrite (ba_entries _ _ Hs). apply wp_ret, IH.
    destruct Hs. constructor; try done. intros g'. cbn. by case_decide.
Qed.

(** What the theorem below says of the results and the states after both parts. *)
Definition tree_promise (d : dev) (r : Z) (rs : list Z) (s s' : tree) : Prop :=
  (is_sriov_pf = true -> i915_sriov_pf_aborted d = false -> r = 0 ->
     exists h a nodes, t_home s = Some h /\ t_kobjs s = Some (a, nodes) /\ length nodes = (1 + d_totalvfs d)%nat /\
       (forall k, k ∈ nodes -> exists o, t_objs s !! k = Some o /\ k_parent o = Some h) /\
       Forall2 (gt_outcome nodes s) all_gts rs) /\
  (r <> 0 -> t_objs s = ∅ /\ Forall (fun r => r = - ENODEV) rs) /\
  bare (t_arrays s') s' /\ few (t_arrays s') /\ (r = 0 -> t_arrays s' = ∅).
Definition tree_kept (d : dev) : Prop :=
  let '((r, rs), s) := driver_register d fresh_tree in
  let '(_, s') := driver_unregister false s in tree_promise d r rs s s'.

Lemma tree_without_nodes d r n leak :
  few leak -> (r = 0 -> leak = ∅ /\ negb is_sriov_pf || i915_sriov_pf_aborted d = true) ->
  (r <> 0 -> negb is_sriov_pf || i915_sriov_pf_aborted d = false) ->
  i915_sriov_sysfs_setup d fresh_tree = (r, blank n leak) -> tree_kept d.
Proof using Type.
  intros Hfew H0 H1 Hrun. unfold tree_kept, driver_register. rewrite (bind_run _ _ _ _ _ Hrun).
  rewrite (bind_run _ _ _ _ _ (bare_setup_gts d leak _ all_gts (bare_blank n leak))). cbn [mret st_ret].
  apply wp_let, (wp_bare_unregister leak); [apply bare_blank|]. intros s' Hs'. unfold tree_promise.
  rewrite (ba_arrays _ _ Hs'). split_and!; [|intros Hr|done|done|apply H0].
  - intros Hpf Hab Hr. apply H0 in Hr as [_ Hr]. by rewrite Hpf, Hab in Hr.
  - split; [done|]. rewrite (H1 Hr). by apply Forall_replicate.
Qed.

Lemma gt_outcomes d h a nodes l s rs :
  full d h a nodes l s -> Forall2 (fun g r => r = 0 <-> t_entries s g <> None) all_gts rs ->
  Forall2 (gt_outcome nodes s) all_gts rs.
Proof using Type.
  intros F Hrs. eapply Forall2_impl; [exact Hrs|]. intros g r Hg. unfold gt_outcome. case_decide as Hr.
  - destruct (t_entries s g) as [[b es]|] eqn:He; [by eapply full_ready|]. by destruct (proj1 Hg Hr).
  - destruct (t_entries s g) as [e|] eqn:He; [|done]. exfalso. apply Hr, (proj2 Hg). by rewrite He.
Qed.
Lemma tree_with_nodes d h a nodes s0 :
  is_sriov_pf = true -> i915_sriov_pf_aborted d = false ->
  full d h a nodes [] s0 -> (forall g, t_entries s0 g = None) -> i915_sriov_sysfs_setup d fresh_tree = (0, s0) -> tree_kept d.
Proof using TreeEnvLaws0.
  intros Hpf Hab F Hnone Hrun. unfold tree_kept, driver_register. rewrite (bind_run _ _ _ _ _ Hrun).
  assert (wp (rs ← setup_gts d all_gts; mret (0, rs)) (fun res s => exists l, full d h a nodes l s /\ fst res = 0 /\
    Forall2 (fun g r => r = 0 <-> t_entries s g <> None) all_gts (snd res) /\
    forall g, g ∉ all_gts -> t_entries s g = None) s0) as Hgts.
  { apply wp_bind, (wp_setup_gts d h a nodes all_gts [] s0); [done|done|apply all_gts_nodup|done|done|].
    intros l s rs F' Hrs Hs. apply wp_ret. exists l. split_and!; [done|done|done|]. intros g Hg. by rewrite Hs. }
  destruct ((rs ← setup_gts d all_gts; mret (0, rs)) s0) as [[r2 rs] s] eqn:Hrun2.
  destruct (wp_run _ _ _ _ _ Hrun2 Hgts) as (l & F1 & Hr & Hrs & Hother). cbn [fst snd] in Hr, Hrs. subst r2.
  apply wp_let, wp_bind, (wp_teardown_gts d h a nodes _ all_gts l); [done|done|].
  intros l' s1 F2 Hin Hkeep.
  assert (forall g, t_entries s1 g = None) as Hnone1.
  { intros g. destruct (decide (g ∈ all_gts)); [by apply Hin|by apply Hkeep, Hother]. }
  assert (l' = []) as ->.
  { apply Permutation_nil. pose proof (fu_pairs _ _ _ _ _ _ F2) as Hp. unfold gt_pairs in Hp. by rewrite !Hnone1 in Hp. }
  apply (wp_root_teardown d h a nodes); [done|done|done|]. intros s2 Hb. unfold tree_promise.
  rewrite (ba_arrays _ _ Hb). split_and!; [|done|done|by left|done].
  intros _ _ _. exists h, a, nodes. split_and!; [apply F1|apply F1|apply F1| |by eapply gt_outcomes].
  intros k Hk. by eapply full_node.
Qed.

(** C11: the driver's nodes in sysfs come and go together. Whatever allocation, [kobject_add] or
    creation of files fails while the driver registers: the device's nodes are all there (a home, a
    node of the PF and of every supported VF below it) or none is; each GT has an entry with its files below
    every one of these nodes or has none, and it has none when the device's nodes are
    missing. After the driver has unregistered no object is left, no object was used after it was freed, no
    files and links remain, and the memory is freed, but for one array when the first set up failed. *)
Theorem sysfs_tree_balanced d :
  let '((r, rs), s) := driver_register d fresh_tree in
  let '(_, s') := driver_unregister false s in
  (is_sriov_pf = true -> i915_sriov_pf_aborted d = false -> r = 0 ->
     exists h a nodes, t_home s = Some h /\ t_kobjs s = Some (a, nodes) /\ length nodes = (1 + d_totalvfs d)%nat /\
       (forall k, k ∈ nodes -> exists o, t_objs s !! k = Some o /\ k_parent o = Some h) /\
       Forall2 (gt_outcome nodes s) all_gts rs) /\
  (r <> 0 -> t_objs s = ∅ /\ Forall (fun r => r = - ENODEV) rs) /\
  bare (t_arrays s') s' /\ few (t_arrays s') /\ (r = 0 -> t_arrays s' = ∅).
Proof using TreeEnvLaws0.
  change (tree_kept d). destruct (negb is_sriov_pf || i915_sriov_pf_aborted d) eqn:Hon.
  { apply (tree_without_nodes d 0 0%nat ∅); [by left|done|done|]. unfold i915_sriov_sysfs_setup.
    destruct is_sriov_pf; [|done]. cbn in Hon. by rewrite Hon. }
  apply orb_false_iff in Hon as [Hpf%negb_false_iff Hab].
  destruct (i915_sriov_sysfs_setup d fresh_tree) as [r s0] eqn:Hrun.
  assert ((r < 0 /\ exists n leak, few leak /\ s0 = blank n leak) \/
    (r = 0 /\ exists h a nodes, full d h a nodes [] s0 /\ forall g, t_entries s0 g = None)) as [H|H].
  { apply (wp_run _ (fun r s0 => _) _ _ _ Hrun), (wp_root_setup d 0); [done|done|..].
    - intros r' n leak Hr Hf. left. split; [done|]. by exists n, leak.
    - intros h a nodes s F Hn. right. split; [done|]. by exists h, a, nodes. }
  - destruct H as (Hr & n & leak & Hf & ->). apply (tree_without_nodes d r n leak); [done|lia|by rewrite Hpf, Hab|done].
  - destruct H as (-> & h & a & nodes & F & Hnone). by apply (tree_with_nodes d h a nodes s0).
Qed.
End whole.

(** ** Samples *)

(** Everything works but the [n]-th call. *)
Definition sample_tree_env (n : nat) : TreeEnv := {| outcome i := if (i =? n)%nat then - ENOMEM else 0 |}.
#[export] Instance sample_tree_laws n : TreeEnvLaws (sample_tree_env n).
Proof. split. intros i. cbn. by destruct (i =? n)%nat. Qed.

(** The files of the first GT's third entry cannot be created: the other GT has all of its. *)
Lemma sysfs_tree_balanced_witness :
  let s := snd (driver_register (E := sample_env) (T := sample_tree_env 38) sample_dev fresh_tree) in
  t_entries s GT_PRIMARY = None /\ t_entries s GT_MEDIA <> None /\
  t_objs (snd (driver_unregister (E := sample_env) false s)) = ∅ /\
  t_arrays (snd (driver_unregister (E := sample_env) false s)) = ∅.
Proof.
  intros s. split; [by vm_compute|]. split; [by vm_compute|].
  assert (fst (fst (driver_register (E := sample_env) (T := sample_tree_env 38) sample_dev fresh_tree)) = 0) as Hr by (by vm_compute).
  pose proof (sysfs_tree_balanced (E := sample_env) (T := sample_tree_env 38) sample_dev) as H.
  unfold s. clear s. destruct (driver_register (E := sample_env) (T := sample_tree_env 38) sample_dev fresh_tree) as [[r rs] s].
  cbn [fst snd] in *. destruct (driver_unregister (E := sample_env) false s) as [u s'].
  destruct H as (_ & _ & B & _ & Ha). split; [apply (ba_objs _ _ B)|by apply Ha].
Defined.

(** There is no memory for the second node: the array of the nodes is never freed. *)
Lemma tree_array_lost :
  let s := snd (driver_register (E := sample_env) (T := sample_tree_env 8) sample_dev fresh_tree) in
  t_arrays (snd (driver_unregister (E := sample_env) false s)) = {[ 4%nat ]}.
Proof. by vm_compute. Qed.
