(* ===== verification/GucIds.v ===== *)
(** * The ids of the driver's own contexts

    gt/uc/intel_guc_submission.c: a context of the driver has a GuC id while requests of it are
    in flight, and one that it keeps afterwards may be stolen when ids run out. The ids come from
    the share of contexts that provisioning left to this function ([num_guc_ids]): a part for
    single contexts, one sixteenth for blocks of parallel contexts. *)

From stdpp Require Import gmap sets.
From S2P Require Export Ctxs Threads Ctb.

Definition GUC_INVALID_CONTEXT_ID : Z := GUC_MAX_CONTEXT_ID.

(** A context exists, is given up but still known to GuC ([destroyed_contexts] and until GuC has
    deregistered it), or its memory is freed. *)
Inductive life := Alive | Doomed | Freed.
#[export] Instance life_eq_dec : EqDecision life.
Proof. solve_decision. Defined.

(** [struct intel_context]: [cx_id], [cx_ref] are [guc_id.id], [guc_id.ref], the flags those of
    [guc_state.sched_state]; a parent has [cx_children] children with the ids [cx_child_ids]. *)
Record intel_context := {
  cx_children : nat;
  cx_id : Z;
  cx_child_ids : list Z;
  cx_ref : Z;
  cx_registered : bool;
  cx_wait_deregister : bool;
  cx_destroyed : bool;
  cx_life : life;
}.
(** [guc->submission_state] with [context_lookup] and all contexts, which are numbered. The
    single ids that are taken, the bits of the blocks, [guc_id_list] and [destroyed_contexts];
    [gs_calls] counts the calls of the kernel's allocators and of GuC. *)
Record submission_state := {
  num_guc_ids : Z;
  guc_ids : gset Z;
  guc_ids_bitmap : gset Z;
  guc_ids_in_use : Z;
  guc_id_list : list nat;
  destroyed_contexts : list nat;
  context_lookup : gmap Z nat;
  gs_disabled : bool;
  gs_ctx : nat -> intel_context;
  gs_calls : nat;
}.

Section setters.
Implicit Types (s : submission_state) (c : intel_context).

Definition with_id (x : Z) c : intel_context := {| cx_children := cx_children c; cx_id := x;
  cx_child_ids := cx_child_ids c; cx_ref := cx_ref c; cx_registered := cx_registered c;
  cx_wait_deregister := cx_wait_deregister c; cx_destroyed := cx_destroyed c; cx_life := cx_life c |}.
Definition with_child_ids (l : list Z) c : intel_context := {| cx_children := cx_children c; cx_id := cx_id c;
  cx_child_ids := l; cx_ref := cx_ref c; cx_registered := cx_registered c;
  cx_wait_deregister := cx_wait_deregister c; cx_destroyed := cx_destroyed c; cx_life := cx_life c |}.
Definition with_ref (x : Z) c : intel_context := {| cx_children := cx_children c; cx_id := cx_id c;
  cx_child_ids := cx_child_ids c; cx_ref := x; cx_registered := cx_registered c;
  cx_wait_deregister := cx_wait_deregister c; cx_destroyed := cx_destroyed c; cx_life := cx_life c |}.
Definition with_flags (reg wait destroyed : bool) c : intel_context := {| cx_children := cx_children c; cx_id := cx_id c;
  cx_child_ids := cx_child_ids c; cx_ref := cx_ref c; cx_registered := reg; cx_wait_deregister := wait;
  cx_destroyed := destroyed; cx_life := cx_life c |}.
Definition with_life (x : life) c : intel_context := {| cx_children := cx_children c; cx_id := cx_id c;
  cx_child_ids := cx_child_ids c; cx_ref := cx_ref c; cx_registered := cx_registered c;
  cx_wait_deregister := cx_wait_deregister c; cx_destroyed := cx_destroyed c; cx_life := x |}.

Definition with_children (n : nat) c : intel_context := {| cx_children := n; cx_id := cx_id c;
  cx_child_ids := cx_child_ids c; cx_ref := cx_ref c; cx_registered := cx_registered c;
  cx_wait_deregister := cx_wait_deregister c; cx_destroyed := cx_destroyed c; cx_life := cx_life c |}.

(** The number of ids; the allocators; a context; the lists; what has nothing to do with the allocation of ids. *)
Definition set_num (n : Z) s : submission_state := {|
  num_guc_ids := n; guc_ids := guc_ids s; guc_ids_bitmap := guc_ids_bitmap s; guc_ids_in_use := guc_ids_in_use s;
  guc_id_list := guc_id_list s; destroyed_contexts := destroyed_contexts s; context_lookup := context_lookup s;
  gs_disabled := gs_disabled s; gs_ctx := gs_ctx s; gs_calls := gs_calls s |}.
Definition set_pools (ida bitmap : gset Z) (in_use : Z) s : submission_state := {|
  num_guc_ids := num_guc_ids s; guc_ids := ida; guc_ids_bitmap := bitmap; guc_ids_in_use := in_use;
  guc_id_list := guc_id_list s; destroyed_contexts := destroyed_contexts s; context_lookup := context_lookup s;
  gs_disabled := gs_disabled s; gs_ctx := gs_ctx s; gs_calls := gs_calls s |}.
Definition upd_ctx (ce : nat) (f : intel_context -> intel_context) s : submission_state := {|
  num_guc_ids := num_guc_ids s; guc_ids := guc_ids s; guc_ids_bitmap := guc_ids_bitmap s; guc_ids_in_use := guc_ids_in_use s;
  guc_id_list := guc_id_list s; destroyed_contexts := destroyed_contexts s; context_lookup := context_lookup s;
  gs_disabled := gs_disabled s; gs_ctx k := if decide (k = ce) then f (gs_ctx s ce) else gs_ctx s k; gs_calls := gs_calls s |}.
Definition set_lists (l doomed : list nat) s : submission_state := {|
  num_guc_ids := num_guc_ids s; guc_ids := guc_ids s; guc_ids_bitmap := guc_ids_bitmap s; guc_ids_in_use := guc_ids_in_use s;
  guc_id_list := l; destroyed_contexts := doomed; context_lookup := context_lookup s;
  gs_disabled := gs_disabled s; gs_ctx := gs_ctx s; gs_calls := gs_calls s |}.
Definition set_rest (m : gmap Z nat) (disabled : bool) (n : nat) s : submission_state := {|
  num_guc_ids := num_guc_ids s; guc_ids := guc_ids s; guc_ids_bitmap := guc_ids_bitmap s; guc_ids_in_use := guc_ids_in_use s;
  guc_id_list := guc_id_list s; destroyed_contexts := destroyed_contexts s; context_lookup := m;
  gs_disabled := disabled; gs_ctx := gs_ctx s; gs_calls := n |}.
End setters.

(** The kernel's allocators: an id below a bound, an aligned block of free bits; what the n-th
    message to GuC about a context returns; whether the n-th look finds the context's image dirty. *)
Class IdEnv := {
  ida_simple_get : nat -> gset Z -> Z -> Z;
  bitmap_find_free_region : gset Z -> Z -> Z -> Z;
  context_send : nat -> Z;
  context_lrca_dirty : nat -> bool;
}.
Definition block (start order : Z) : gset Z := list_to_set (seqZ start (2 ^ order)).
Class IdEnvLaws (J : IdEnv) : Prop := {
  ida_range n ida bound x : ida_simple_get n ida bound = x -> 0 <= x -> x < bound /\ x ∉ ida;
  region_range bm bits order x : bitmap_find_free_region bm bits order = x -> 0 <= x -> 0 <= order ->
    x + 2 ^ order <= bits /\ block x order ## bm;
}.

#[local] Abbreviation gs A := (st submission_state A).
#[local] Abbreviation gp A := (prog submission_state A).

Section ops.
Context `{J : IdEnv}.
Implicit Types s : submission_state.

Definition the_ctx (ce : nat) : gs intel_context := gets (fun s => gs_ctx s ce).
Definition mod_ctx (ce : nat) (f : intel_context -> intel_context) : gs unit := modify (upd_ctx ce f).
Definition tick : gs nat := fun s => (gs_calls s, set_rest (context_lookup s) (gs_disabled s) (S (gs_calls s)) s).

Definition intel_context_is_parent (c : intel_context) : bool := negb (cx_children c =? 0)%nat.
Definition context_guc_id_invalid (c : intel_context) : bool := cx_id c =? GUC_INVALID_CONTEXT_ID.
Definition set_context_guc_id_invalid (ce : nat) : gs unit := mod_ctx ce (with_id GUC_INVALID_CONTEXT_ID).

Definition ctx_id_mapped (id : Z) (s : submission_state) : bool := bool_decide (context_lookup s !! id <> None).
Definition set_ctx_id_mapping (id : Z) (ce : nat) : gs unit :=
  modify (fun s => set_rest (<[id := ce]> (context_lookup s)) (gs_disabled s) (gs_calls s) s).
(** Submission is initialised: [context_lookup] exists. *)
Definition clr_ctx_id_mapping (id : Z) : gs unit :=
  modify (fun s => set_rest (delete id (context_lookup s)) (gs_disabled s) (gs_calls s) s).

(** ** Allocating an id *)

Definition MLRC_GUC_ID_RATIO : Z := 16.
Definition number_mlrc_guc_id (s : submission_state) : Z := num_guc_ids s / MLRC_GUC_ID_RATIO.
Definition number_slrc_guc_id (s : submission_state) : Z := num_guc_ids s - number_mlrc_guc_id s.
Definition mlrc_guc_id_base (s : submission_state) : Z := number_slrc_guc_id s.

Definition order_base_2 (n : Z) : Z := Z.log2_up n.
Definition mlrc_order (c : intel_context) : Z := order_base_2 (Z.of_nat (cx_children c) + 1).

Definition new_mlrc_guc_id (ce : nat) : gs Z :=
  c ← the_ctx ce;
  s ← gets id;
  let ret := bitmap_find_free_region (guc_ids_bitmap s) (number_mlrc_guc_id s) (mlrc_order c) in
  if ret <? 0 then mret ret else
  modify (set_pools (guc_ids s) (block ret (mlrc_order c) ∪ guc_ids_bitmap s) (guc_ids_in_use s)) ≫= fun _ =>
  mret (ret + mlrc_guc_id_base s).
Definition new_slrc_guc_id (ce : nat) : gs Z :=
  n ← tick;
  s ← gets id;
  let ret := ida_simple_get n (guc_ids s) (number_slrc_guc_id s) in
  if ret <? 0 then mret ret else
  modify (set_pools ({[ret]} ∪ guc_ids s) (guc_ids_bitmap s) (guc_ids_in_use s)) ≫= fun _ => mret ret.
Definition new_guc_id (ce : nat) : gs Z :=
  c ← the_ctx ce;
  ret ← (if intel_context_is_parent c then new_mlrc_guc_id ce else new_slrc_guc_id ce);
  if ret <? 0 then mret ret else
  (if negb (intel_context_is_parent c)
   then modify (fun s => set_pools (guc_ids s) (guc_ids_bitmap s) (guc_ids_in_use s + 1) s) else mret tt) ≫= fun _ =>
  mod_ctx ce (with_id ret) ≫= fun _ => mret 0.

(** [list_del_init] *)
Definition unlist (ce : nat) : gs unit :=
  modify (fun s => set_lists (filter (fun c => c <> ce) (guc_id_list s)) (destroyed_contexts s) s).

Definition __release_guc_id (ce : nat) : gs unit :=
  c ← the_ctx ce;
  (if negb (context_guc_id_invalid c) then
     s ← gets id;
     (if intel_context_is_parent c
      then modify (set_pools (guc_ids s) (guc_ids_bitmap s ∖ block (cx_id c - mlrc_guc_id_base s) (mlrc_order c)) (guc_ids_in_use s))
      else modify (set_pools (guc_ids s ∖ {[cx_id c]}) (guc_ids_bitmap s) (guc_ids_in_use s - 1))) ≫= fun _ =>
     clr_ctx_id_mapping (cx_id c) ≫= fun _ => set_context_guc_id_invalid ce
   else mret tt) ≫= fun _ => unlist ce.
Definition release_guc_id (ce : nat) : gs unit := __release_guc_id ce.

Definition steal_guc_id (ce : nat) : gs Z :=
  l ← gets guc_id_list;
  match l with
  | cn :: l =>
      victim ← the_ctx cn;
      modify (fun s => set_lists l (destroyed_contexts s) s) ≫= fun _ =>
      mod_ctx ce (with_id (cx_id victim)) ≫= fun _ =>
      mod_ctx cn (fun c => with_flags false (cx_wait_deregister c) (cx_destroyed c) c) ≫= fun _ =>
      set_context_guc_id_invalid cn ≫= fun _ => mret 0
  | [] => mret (- EAGAIN)
  end.

Definition assign_guc_id (ce : nat) : gs Z :=
  c ← the_ctx ce;
  ret ← new_guc_id ce;
  ret ← (if ret <? 0 then if intel_context_is_parent c then mret (- ENOSPC) else steal_guc_id ce else mret 0);
  if ret <? 0 then mret ret else
  (if intel_context_is_parent c
   then mod_ctx ce (fun c => with_child_ids (seqZ (cx_id c + 1) (Z.of_nat (cx_children c))) c) else mret tt) ≫= fun _ =>
  mret 0.

(** What [pin_guc_id] does under the lock. *)
Definition pin_locked (ce : nat) : gs Z :=
  c ← the_ctx ce;
  ret ← (if context_guc_id_invalid c then err ← assign_guc_id ce; mret (if negb (err =? 0) then err else 1) else mret 0);
  if ret <? 0 then mret ret else
  unlist ce ≫= fun _ => mod_ctx ce (fun c => with_ref (cx_ref c + 1) c) ≫= fun _ => mret ret.

Definition PIN_GUC_ID_TRIES : nat := 4.
Fixpoint pin_tries (ce : nat) (tries : nat) : gp Z :=
  ret ← atom (pin_locked ce);
  match tries with
  | S tries => if ret =? - EAGAIN then pin_tries ce tries else mret ret
  | O => mret ret
  end.
(** Between the tries the thread sleeps and retires requests: steps of others. *)
Definition pin_guc_id (ce : nat) : gp Z := pin_tries ce (PIN_GUC_ID_TRIES - 1).

Definition unpin_locked (ce : nat) : gs unit :=
  c ← the_ctx ce;
  l ← gets guc_id_list;
  if negb (context_guc_id_invalid c) && bool_decide (ce ∉ l) && (cx_ref c =? 0)
  then modify (fun s => set_lists (guc_id_list s ++ [ce]) (destroyed_contexts s) s) else mret tt.
Definition unpin_guc_id (ce : nat) : gp unit :=
  c ← atom (the_ctx ce);
  if context_guc_id_invalid c || intel_context_is_parent c then mret tt else atom (unpin_locked ce).

(** ** Requests *)

(** [atomic_add_unless(&ce->guc_id.ref, 1, 0)] *)
Definition add_ref_unless_0 (ce : nat) : gs bool :=
  c ← the_ctx ce;
  if cx_ref c =? 0 then mret false else mod_ctx ce (fun c => with_ref (cx_ref c + 1) c) ≫= fun _ => mret true.
(** [atomic_dec], also at the end of a request ([remove_from_context]) *)
Definition dec_ref (ce : nat) : gs unit := mod_ctx ce (fun c => with_ref (cx_ref c - 1) c).

Definition context_needs_register (ce : nat) (new_guc_id : bool) : gs bool :=
  n ← tick;
  c ← the_ctx ce;
  s ← gets id;
  mret ((new_guc_id || context_lrca_dirty n || negb (ctx_id_mapped (cx_id c) s)) && negb (gs_disabled s)).
Definition disable_submission : gs unit :=
  modify (fun s => set_rest (context_lookup s) true (gs_calls s) s).

Definition send_context : gs Z := n ← tick; mret (context_send n).
Definition register_context (ce : nat) : gp Z :=
  ret ← atom send_context;
  (if ret =? 0 then atom (mod_ctx ce (fun c => with_flags true (cx_wait_deregister c) (cx_destroyed c) c)) else mret tt) ≫= fun _ =>
  mret ret.
Definition try_context_registration (ce : nat) : gp Z :=
  c ← atom (the_ctx ce);
  let ctx_id := cx_id c in
  registered ← atom (gets (ctx_id_mapped ctx_id));
  atom (clr_ctx_id_mapping ctx_id) ≫= fun _ =>
  atom (set_ctx_id_mapping ctx_id ce) ≫= fun _ =>
  if registered : bool then
    disabled ← atom (disabled ← gets gs_disabled;
                     if disabled : bool then mret true else
                     mod_ctx ce (fun c => with_flags (cx_registered c) true (cx_destroyed c) c) ≫= fun _ => mret false);
    if disabled : bool then atom (clr_ctx_id_mapping ctx_id) ≫= fun _ => mret 0 else
    ret ← atom send_context;
    mret (if ret =? - ENODEV then 0 else ret)
  else
    ret ← register_context ce;
    if ret =? - EBUSY then atom (clr_ctx_id_mapping ctx_id) ≫= fun _ => mret ret else
    if ret =? - ENODEV then atom (clr_ctx_id_mapping ctx_id) ≫= fun _ => mret 0 else
    mret ret.

(** The part of [guc_request_alloc] that gets an id for the context of a request. *)
Definition request_guc_id (ce : nat) : gp Z :=
  pinned ← atom (add_ref_unless_0 ce);
  if pinned : bool then mret 0 else
  ret ← pin_guc_id ce;
  if ret <? 0 then mret ret else
  needs ← atom (context_needs_register ce (negb (ret =? 0)));
  if negb needs then mret 0 else
  ret ← try_context_registration ce;
  if ret =? 0 then mret 0 else
  if ret =? - EPIPE then atom disable_submission ≫= fun _ => mret 0 else
  atom (dec_ref ce) ≫= fun _ => unpin_guc_id ce ≫= fun _ => mret ret.

(** ** The life of a context *)

(** [intel_context_init]; [intel_context_bind_parent_child] *)
Definition intel_context_init (ce : nat) : gs unit :=
  mod_ctx ce (fun _ => {| cx_children := 0; cx_id := GUC_INVALID_CONTEXT_ID; cx_child_ids := []; cx_ref := 0;
    cx_registered := false; cx_wait_deregister := false; cx_destroyed := false; cx_life := Alive |}).
Definition intel_context_bind_parent_child (parent : nat) : gs unit :=
  mod_ctx parent (fun c => with_children (S (cx_children c)) c).

(** [intel_guc_submission_limit_ids] *)
Definition submission_limit_ids (limit : Z) : gs Z :=
  ids ← gets guc_ids;
  if limit >? GUC_MAX_CONTEXT_ID then mret (- E2BIG) else
  if negb (bool_decide (ids = ∅)) then mret (- ETXTBSY) else
  modify (set_num limit) ≫= fun _ => mret 0.

(** [guc_context_destroy]; the memory is freed right behind the lock when GuC does not know the
    context. *)
Definition guc_context_destroy (ce : nat) : gs unit :=
  c ← the_ctx ce;
  s ← gets id;
  let destroy := gs_disabled s || context_guc_id_invalid c || negb (ctx_id_mapped (cx_id c) s) in
  if destroy
  then __release_guc_id ce ≫= fun _ => mod_ctx ce (with_life Freed)
  else unlist ce ≫= fun _ =>
       modify (fun s => set_lists (guc_id_list s) (destroyed_contexts s ++ [ce]) s) ≫= fun _ =>
       mod_ctx ce (with_life Doomed).
Definition pop_destroyed : gs (option nat) :=
  l ← gets destroyed_contexts;
  match l with
  | ce :: l => modify (fun s => set_lists (guc_id_list s) l s) ≫= fun _ => mret (Some ce)
  | [] => mret None
  end.
(** [__guc_context_destroy] *)
Definition free_context (ce : nat) : gs unit := mod_ctx ce (with_life Freed).

Definition guc_lrc_desc_unpin (ce : nat) : gp unit :=
  disabled ← atom (disabled ← gets gs_disabled;
                   if disabled : bool then mret true else
                   mod_ctx ce (fun c => with_flags false (cx_wait_deregister c) true c) ≫= fun _ => mret false);
  if disabled : bool then atom (release_guc_id ce) ≫= fun _ => atom (free_context ce)
  else atom send_context ≫= fun _ => mret tt.
(** One round of the loop of [deregister_destroyed_contexts] and of [guc_flush_destroyed_contexts]. *)
Definition deregister_destroyed_context : gp bool :=
  ce ← atom pop_destroyed;
  match ce with None => mret false | Some ce => guc_lrc_desc_unpin ce ≫= fun _ => mret true end.
Definition guc_flush_destroyed_context : gp bool :=
  ce ← atom pop_destroyed;
  match ce with
  | None => mret false
  | Some ce => atom (release_guc_id ce) ≫= fun _ => atom (free_context ce) ≫= fun _ => mret true
  end.

(** The fence that waits for the deregistration is signalled, and [wait] cleared, when the context
    is registered. *)
Definition intel_guc_deregister_done_process_msg (msg : list Z) : gp Z :=
  match msg with
  | [] => mret (- EPROTO)
  | ctx_id :: _ =>
      ce ← atom (gets (fun s => context_lookup s !! ctx_id));
      match ce with
      | None => mret (- EPROTO)
      | Some ce =>
          c ← atom (the_ctx ce);
          if cx_wait_deregister c then
            register_context ce ≫= fun _ =>
            atom (mod_ctx ce (fun c => with_flags (cx_registered c) false (cx_destroyed c) c)) ≫= fun _ => mret 0
          else if cx_destroyed c then atom (release_guc_id ce) ≫= fun _ => atom (free_context ce) ≫= fun _ => mret 0
          else mret 0
      end
  end.
End ops.

(** ** Which ids a context has *)

Section ids.
Implicit Types (s : submission_state) (c k : nat).

Definition has_id s c : Prop := cx_id (gs_ctx s c) <> GUC_INVALID_CONTEXT_ID.
Definition is_parent s c : Prop := cx_children (gs_ctx s c) <> 0%nat.
(** The bits of a parent's block. *)
Definition ctx_block s c : gset Z := block (cx_id (gs_ctx s c) - mlrc_guc_id_base s) (mlrc_order (gs_ctx s c)).

(** What the ids of all contexts are at every moment. *)
Record ids_inv s : Prop := {
  iv_num : 0 <= num_guc_ids s <= GUC_MAX_CONTEXT_ID;
  iv_ref c : 0 <= cx_ref (gs_ctx s c);
  iv_pinned c : 0 < cx_ref (gs_ctx s c) -> has_id s c /\ cx_life (gs_ctx s c) = Alive;
  iv_single c : has_id s c -> ~ is_parent s c ->
    0 <= cx_id (gs_ctx s c) < number_slrc_guc_id s /\ cx_id (gs_ctx s c) ∈ guc_ids s;
  iv_taken x : x ∈ guc_ids s -> exists c, has_id s c /\ ~ is_parent s c /\ cx_id (gs_ctx s c) = x;
  iv_distinct c k : has_id s c -> has_id s k -> ~ is_parent s c -> ~ is_parent s k ->
    cx_id (gs_ctx s c) = cx_id (gs_ctx s k) -> c = k;
  iv_parent c : has_id s c -> is_parent s c ->
    mlrc_guc_id_base s <= cx_id (gs_ctx s c) /\
    cx_id (gs_ctx s c) + 2 ^ mlrc_order (gs_ctx s c) <= num_guc_ids s /\
    ctx_block s c ⊆ guc_ids_bitmap s;
  iv_blocks c k : has_id s c -> has_id s k -> is_parent s c -> is_parent s k -> c <> k ->
    ctx_block s c ## ctx_block s k;
  iv_bits x : x ∈ guc_ids_bitmap s -> exists c, has_id s c /\ is_parent s c /\ x ∈ ctx_block s c;
  iv_nodup : NoDup (guc_id_list s);
  iv_listed c : c ∈ guc_id_list s ->
    has_id s c /\ ~ is_parent s c /\ cx_ref (gs_ctx s c) = 0 /\ cx_life (gs_ctx s c) = Alive;
  iv_freed c : cx_life (gs_ctx s c) = Freed -> ~ has_id s c;
  iv_in_use : guc_ids_in_use s = Z.of_nat (size (guc_ids s));
}.

(** The contexts differ in nothing that the invariant speaks of. *)
Record same_ids s s' : Prop := {
  si_num : num_guc_ids s' = num_guc_ids s;
  si_ids : guc_ids s' = guc_ids s;
  si_bitmap : guc_ids_bitmap s' = guc_ids_bitmap s;
  si_in_use : guc_ids_in_use s' = guc_ids_in_use s;
  si_list : guc_id_list s' = guc_id_list s;
  si_children c : cx_children (gs_ctx s' c) = cx_children (gs_ctx s c);
  si_id c : cx_id (gs_ctx s' c) = cx_id (gs_ctx s c);
  si_ref c : cx_ref (gs_ctx s' c) = cx_ref (gs_ctx s c);
  si_life c : cx_life (gs_ctx s' c) = cx_life (gs_ctx s c) \/
    cx_life (gs_ctx s' c) = Doomed /\ cx_ref (gs_ctx s c) = 0 /\ (c ∉ guc_id_list s) \/
    cx_life (gs_ctx s' c) = Freed /\ cx_ref (gs_ctx s c) = 0 /\ (c ∉ guc_id_list s) /\ ~ has_id s c;
}.
Lemma block_same s s' c : num_guc_ids s' = num_guc_ids s -> cx_children (gs_ctx s' c) = cx_children (gs_ctx s c) ->
  cx_id (gs_ctx s' c) = cx_id (gs_ctx s c) -> ctx_block s' c = ctx_block s c.
Proof. intros Hn Hc Hi. unfold ctx_block, mlrc_guc_id_base, number_slrc_guc_id, number_mlrc_guc_id, mlrc_order. by rewrite Hn, Hc, Hi. Qed.

Lemma ids_inv_same s s' : same_ids s s' -> ids_inv s -> ids_inv s'.
Proof.
  intros [] []. assert (forall c, ctx_block s' c = ctx_block s c) as Hb by (intros c; by apply block_same).
  assert (forall c, has_id s' c <-> has_id s c) as Hh by (intros c; unfold has_id; by rewrite si_id0).
  assert (forall c, is_parent s' c <-> is_parent s c) as Hp by (intros c; unfold is_parent; by rewrite si_children0).
  constructor; unfold mlrc_guc_id_base, number_slrc_guc_id, number_mlrc_guc_id in *; rewrite ?si_num0, ?si_ids0, ?si_bitmap0, ?si_in_use0, ?si_list0; try done.
  - intros c. by rewrite si_ref0.
  - intros c. rewrite si_ref0, Hh. intros Hr. destruct (iv_pinned0 c Hr) as [Hc Hl]. split; [done|].
    destruct (si_life0 c) as [->|[(_ & Hz & _)|(_ & Hz & _)]]; [done|lia|lia].
  - intros c. rewrite Hh, Hp, si_id0. apply iv_single0.
  - intros x Hx. destruct (iv_taken0 x Hx) as (c & H). exists c. by rewrite Hh, Hp, si_id0.
  - intros c k. rewrite !Hh, !Hp, !si_id0. apply iv_distinct0.
  - intros c. rewrite Hh, Hp, si_id0, Hb. unfold mlrc_order. rewrite si_children0. apply iv_parent0.
  - intros c k. rewrite !Hh, !Hp, !Hb. apply iv_blocks0.
  - intros x Hx. destruct (iv_bits0 x Hx) as (c & H). exists c. by rewrite Hh, Hp, Hb.
  - intros c Hc. rewrite Hh, Hp, si_ref0. destruct (iv_listed0 c Hc) as (? & ? & ? & ?). split_and!; try done.
    destruct (si_life0 c) as [->|[(_ & _ & Hz)|(_ & _ & Hz & _)]]; done.
  - intros c. rewrite Hh. destruct (si_life0 c) as [->|[(-> & _)|(_ & _ & _ & Hz)]]; [apply iv_freed0|done|done].
Qed.

Lemma slrc_range s : 0 <= num_guc_ids s -> 0 <= number_slrc_guc_id s <= num_guc_ids s.
Proof. unfold number_slrc_guc_id, number_mlrc_guc_id, MLRC_GUC_ID_RATIO. intros Hn. dlia. Qed.
Lemma order_nonneg (c : intel_context) : 0 <= mlrc_order c.
Proof. apply Z.log2_up_nonneg. Qed.
Lemma order_fits (c : intel_context) : Z.of_nat (cx_children c) + 1 <= 2 ^ mlrc_order c.
Proof.
  unfold mlrc_order, order_base_2. destruct (Z.eq_dec (Z.of_nat (cx_children c)) 0) as [->|Hne]; [done|].
  apply Z.log2_up_spec. lia.
Qed.
Lemma elem_block x start order : x ∈ block start order <-> start <= x < start + 2 ^ order.
Proof. unfold block. rewrite elem_of_list_to_set. apply elem_of_seqZ. Qed.

(** [s'] is [s] with other pools, another list and a new [ce]. *)
Record ctx_changed ce s s' : Prop := {
  cc_num : num_guc_ids s' = num_guc_ids s;
  cc_other c : c <> ce -> gs_ctx s' c = gs_ctx s c;
  cc_children : cx_children (gs_ctx s' ce) = cx_children (gs_ctx s ce);
}.
Lemma cc_has ce s s' c : ctx_changed ce s s' -> c <> ce -> has_id s' c <-> has_id s c.
Proof. intros [] Hc. unfold has_id. by rewrite cc_other0. Qed.
Lemma cc_parent ce s s' c : ctx_changed ce s s' -> is_parent s' c <-> is_parent s c.
Proof. intros []. unfold is_parent. destruct (decide (c = ce)) as [->|]; [by rewrite cc_children0|by rewrite cc_other0]. Qed.
Lemma cc_block ce s s' c : ctx_changed ce s s' -> c <> ce -> ctx_block s' c = ctx_block s c.
Proof. intros [] Hc. apply block_same; [done|by rewrite cc_other0..]. Qed.
Lemma cc_bounds ce s s' : ctx_changed ce s s' -> number_slrc_guc_id s' = number_slrc_guc_id s.
Proof. intros []. unfold number_slrc_guc_id, number_mlrc_guc_id. by rewrite cc_num0. Qed.

(** A change of one context keeps the invariant when the pools follow it: what it had is given
    back, what it has now was free. *)
Record well_changed ce s s' : Prop := {
  wc_ctx : ctx_changed ce s s';
  wc_ref : 0 <= cx_ref (gs_ctx s' ce);
  wc_pinned : 0 < cx_ref (gs_ctx s' ce) -> has_id s' ce /\ cx_life (gs_ctx s' ce) = Alive;
  wc_freed : cx_life (gs_ctx s' ce) = Freed -> ~ has_id s' ce;
  wc_ids x : x ∈ guc_ids s' <->
    (x ∈ guc_ids s /\ ~ (has_id s ce /\ ~ is_parent s ce /\ x = cx_id (gs_ctx s ce))) \/
    (has_id s' ce /\ ~ is_parent s ce /\ x = cx_id (gs_ctx s' ce));
  wc_single : has_id s' ce -> ~ is_parent s ce -> 0 <= cx_id (gs_ctx s' ce) < number_slrc_guc_id s /\
    (cx_id (gs_ctx s' ce) ∈ guc_ids s -> has_id s ce /\ cx_id (gs_ctx s' ce) = cx_id (gs_ctx s ce));
  wc_bits x : x ∈ guc_ids_bitmap s' <->
    (x ∈ guc_ids_bitmap s /\ ~ (has_id s ce /\ is_parent s ce /\ x ∈ ctx_block s ce)) \/
    (has_id s' ce /\ is_parent s ce /\ x ∈ ctx_block s' ce);
  wc_parent : has_id s' ce -> is_parent s ce ->
    mlrc_guc_id_base s <= cx_id (gs_ctx s' ce) /\ cx_id (gs_ctx s' ce) + 2 ^ mlrc_order (gs_ctx s ce) <= num_guc_ids s /\
    (ctx_block s' ce ## guc_ids_bitmap s \/ has_id s ce /\ ctx_block s' ce = ctx_block s ce);
  wc_nodup : NoDup (guc_id_list s');
  wc_listed c : c ∈ guc_id_list s' -> (c ∈ guc_id_list s /\ c <> ce) \/
    (c = ce /\ has_id s' ce /\ ~ is_parent s ce /\ cx_ref (gs_ctx s' ce) = 0 /\ cx_life (gs_ctx s' ce) = Alive);
  wc_in_use : guc_ids_in_use s' = Z.of_nat (size (guc_ids s'));
}.

Lemma inv_changed ce s s' : ids_inv s -> well_changed ce s s' -> ids_inv s'.
Proof.
  intros [] [C Hr Hpin Hfr Hids Hsing Hbits Hpar Hnd Hlist Huse]. pose proof (cc_bounds _ _ _ C) as Hsl.
  assert (forall c, c <> ce -> has_id s c -> ~ is_parent s c -> cx_id (gs_ctx s c) ∈ guc_ids s') as Hkeep.
  { intros c Hne Hh Hp. apply Hids. left. split; [by apply iv_single0|]. intros (Hh' & Hp' & Heq). by apply Hne, iv_distinct0. }
  assert (forall c, c <> ce -> has_id s c -> ~ is_parent s c -> has_id s' ce -> ~ is_parent s ce ->
    cx_id (gs_ctx s' ce) <> cx_id (gs_ctx s c)) as Hnew.
  { intros c Hne Hh Hp Hh' Hp' Heq. destruct (Hsing Hh' Hp') as [_ Hold]. rewrite Heq in Hold.
    destruct Hold as [Hh2 Heq2]; [by apply iv_single0|]. by apply Hne, iv_distinct0. }
  assert (forall c, c <> ce -> has_id s c -> is_parent s c -> has_id s' ce -> is_parent s ce ->
    ctx_block s' ce ## ctx_block s c) as Hapart.
  { intros c Hne Hh Hp Hh' Hp'. destruct (Hpar Hh' Hp') as (_ & _ & [Hd|[Hh2 ->]]).
    - destruct (iv_parent0 c Hh Hp) as (_ & _ & Hsub). intros x Hx Hx'. by apply (Hd x Hx), Hsub.
    - by apply iv_blocks0; [..|by apply not_eq_sym]. }
  constructor; unfold mlrc_guc_id_base in *; rewrite ?Hsl, ?(cc_num _ _ _ C); try done.
  - intros c. destruct (decide (c = ce)) as [->|]; [done|]. rewrite (cc_other _ _ _ C) by done. apply iv_ref0.
  - intros c. destruct (decide (c = ce)) as [->|]; [done|]. rewrite (cc_has _ _ _ _ C), (cc_other _ _ _ C) by done. apply iv_pinned0.
  - intros c. rewrite (cc_parent _ _ _ _ C). destruct (decide (c = ce)) as [->|Hne].
    + intros Hh Hp. split; [by apply Hsing|]. apply Hids. by right.
    + rewrite (cc_has _ _ _ _ C), (cc_other _ _ _ C) by done. intros Hh Hp. split; [by apply iv_single0|by apply Hkeep].
  - intros x [[Hx Hno]|(Hh & Hp & ->)]%Hids.
    + destruct (iv_taken0 x Hx) as (c & Hh & Hp & Hi). destruct (decide (c = ce)) as [->|Hne]; [by destruct Hno|].
      exists c. by rewrite (cc_parent _ _ _ _ C), (cc_has _ _ _ _ C), (cc_other _ _ _ C).
    + exists ce. by rewrite (cc_parent _ _ _ _ C).
  - intros c k. rewrite !(cc_parent _ _ _ _ C). destruct (decide (c = ce)) as [->|Hc], (decide (k = ce)) as [->|Hk]; [done|..].
    + rewrite (cc_has _ _ _ k C), (cc_other _ _ _ C k) by done. intros Hh Hh' Hp Hp' Heq. by destruct (Hnew k Hk Hh' Hp' Hh Hp).
    + rewrite (cc_has _ _ _ c C), (cc_other _ _ _ C c) by done. intros Hh Hh' Hp Hp' Heq. by destruct (Hnew c Hc Hh Hp Hh' Hp').
    + rewrite !(cc_has _ _ _ _ C), !(cc_other _ _ _ C) by done. apply iv_distinct0.
  - intros c. rewrite (cc_parent _ _ _ _ C). destruct (decide (c = ce)) as [->|Hne].
    + intros Hh Hp. unfold mlrc_order. rewrite (cc_children _ _ _ C). destruct (Hpar Hh Hp) as (? & ? & _). split_and!; [done|done|].
      intros x Hx. apply Hbits. by right.
    + rewrite (cc_has _ _ _ _ C), (cc_other _ _ _ C), (cc_block _ _ _ _ C) by done. intros Hh Hp.
      destruct (iv_parent0 c Hh Hp) as (? & ? & Hsub). split_and!; [done|done|]. intros x Hx. apply Hbits. left.
      split; [by apply Hsub|]. intros (Hh' & Hp' & Hx'). by apply (iv_blocks0 c ce Hh Hh' Hp Hp' Hne x).
  - intros c k. rewrite !(cc_parent _ _ _ _ C). destruct (decide (c = ce)) as [->|Hc], (decide (k = ce)) as [->|Hk]; [done|..].
    + rewrite (cc_has _ _ _ k C), (cc_block _ _ _ k C) by done. intros Hh Hh' Hp Hp' _. by apply Hapart.
    + rewrite (cc_has _ _ _ c C), (cc_block _ _ _ c C) by done. intros Hh Hh' Hp Hp' _. symmetry. by apply Hapart.
    + rewrite !(cc_has _ _ _ _ C), !(cc_block _ _ _ _ C) by done. apply iv_blocks0.
  - intros x [[Hx Hno]|(Hh & Hp & Hx)]%Hbits.
    + destruct (iv_bits0 x Hx) as (c & Hh & Hp & Hb). destruct (decide (c = ce)) as [->|Hne]; [by destruct Hno|].
      exists c. by rewrite (cc_parent _ _ _ _ C), (cc_has _ _ _ _ C), (cc_block _ _ _ _ C).
    + exists ce. by rewrite (cc_parent _ _ _ _ C).
  - intros c [[Hc Hne]|(-> & ? & ? & ? & ?)]%Hlist; [|by rewrite (cc_parent _ _ _ _ C)].
    rewrite (cc_parent _ _ _ _ C), (cc_has _ _ _ _ C), (cc_other _ _ _ C) by done. by apply iv_listed0.
  - intros c. destruct (decide (c = ce)) as [->|Hne]; [done|]. rewrite (cc_has _ _ _ _ C), (cc_other _ _ _ C) by done. apply iv_freed0.
Qed.
End ids.

(** ** Every operation keeps the invariant *)

Section keep.
Context `{J : IdEnv} `{!IdEnvLaws J}.
Implicit Types (s : submission_state) (c k ce cn : nat).

Lemma upd_at ce f s : gs_ctx (upd_ctx ce f s) ce = f (gs_ctx s ce).
Proof using Type. cbn. by rewrite decide_True. Qed.
Lemma upd_ne ce f s c : c <> ce -> gs_ctx (upd_ctx ce f s) c = gs_ctx s c.
Proof using Type. intros Hne. cbn. by rewrite decide_False. Qed.

Lemma rest_same m b n s : same_ids s (set_rest m b n s).
Proof using Type. constructor; try done. by left. Qed.
Lemma flags_same ce f s :
  (forall c : intel_context, cx_children (f c) = cx_children c /\ cx_id (f c) = cx_id c /\
     cx_child_ids (f c) = cx_child_ids c /\ cx_ref (f c) = cx_ref c /\ cx_life (f c) = cx_life c) ->
  same_ids s (upd_ctx ce f s).
Proof using Type.
  intros Hf. constructor; try done; intros c; (destruct (decide (c = ce)) as [->|]; [rewrite upd_at|by rewrite upd_ne; auto]).
  all: destruct (Hf (gs_ctx s ce)) as (? & ? & ? & ? & ?); auto.
Qed.

Lemma has_id_false s ce : context_guc_id_invalid (gs_ctx s ce) = negb (bool_decide (has_id s ce)).
Proof using Type.
  unfold context_guc_id_invalid, has_id. destruct (Z.eqb_spec (cx_id (gs_ctx s ce)) GUC_INVALID_CONTEXT_ID) as [->|Hne].
  - by rewrite bool_decide_eq_false_2 by (intros H; by apply H).
  - by rewrite bool_decide_eq_true_2.
Qed.
Lemma parent_false s ce : intel_context_is_parent (gs_ctx s ce) = bool_decide (is_parent s ce).
Proof using Type. unfold intel_context_is_parent, is_parent. destruct (Nat.eqb_spec (cx_children (gs_ctx s ce)) 0); by case_bool_decide. Qed.
Lemma no_id_no_ref s ce : ids_inv s -> ~ has_id s ce -> cx_ref (gs_ctx s ce) = 0.
Proof using Type.
  intros I Hno. pose proof (iv_ref s I ce). destruct (decide (0 < cx_ref (gs_ctx s ce))) as [Hp|]; [|lia].
  by destruct (iv_pinned s I ce Hp).
Qed.
Lemma no_id_not_listed s ce : ids_inv s -> ~ has_id s ce -> ce ∉ guc_id_list s.
Proof using Type. intros I Hno Hin. by destruct (iv_listed s I ce Hin). Qed.

(** An id from the pool of single ids: [s'] may have another list and other ids in the pool than
    [s], as long as [x] is the only difference. *)
Lemma single_given ce x s s' :
  ids_inv s -> ctx_changed ce s s' -> ~ has_id s ce -> ~ is_parent s ce -> cx_life (gs_ctx s ce) = Alive ->
  0 <= x < number_slrc_guc_id s -> x ∉ guc_ids s ->
  gs_ctx s' ce = with_id x (gs_ctx s ce) -> guc_ids s' = {[x]} ∪ guc_ids s -> guc_ids_bitmap s' = guc_ids_bitmap s ->
  guc_ids_in_use s' = guc_ids_in_use s + 1 -> guc_id_list s' = guc_id_list s -> ids_inv s' /\ has_id s' ce.
Proof using Type.
  intros I C Hno Hnp Hlife Hx Hfresh Hce Hids Hbm Huse Hl. pose proof (slrc_range s ltac:(apply I)) as Hr.
  pose proof (iv_num s I) as Hnum. pose proof (no_id_no_ref s ce I Hno) as Href.
  assert (has_id s' ce) as Hyes by (unfold has_id, GUC_INVALID_CONTEXT_ID; rewrite Hce; cbn; lia).
  split; [|done]. apply (inv_changed ce s); [done|]. constructor; rewrite ?Hce, ?Hids, ?Hbm, ?Hl; try done.
  - cbn. lia.
  - by cbn; rewrite Hlife.
  - intros y. cbn. rewrite elem_of_union, elem_of_singleton. split; [intros [->|Hy]; [by right|left; split; [done|tauto]]|].
    intros [[Hy _]|(_ & _ & ->)]; [by right|by left].
  - intros y. split; [intros Hy; left; split; [done|tauto]|]. intros [[Hy _]|(_ & Hp & _)]; [done|by destruct Hnp].
  - apply I.
  - intros c Hc. left. split; [done|]. intros ->. by apply (no_id_not_listed s ce).
  - rewrite Huse, size_union, size_singleton, (iv_in_use s I); [lia|]. by apply disjoint_singleton_l.
Qed.

Lemma block_given ce b s s' :
  ids_inv s -> ctx_changed ce s s' -> ~ has_id s ce -> is_parent s ce -> cx_life (gs_ctx s ce) = Alive ->
  0 <= b -> b + 2 ^ mlrc_order (gs_ctx s ce) <= number_mlrc_guc_id s -> block b (mlrc_order (gs_ctx s ce)) ## guc_ids_bitmap s ->
  gs_ctx s' ce = with_id (b + mlrc_guc_id_base s) (gs_ctx s ce) -> guc_ids s' = guc_ids s ->
  guc_ids_bitmap s' = block b (mlrc_order (gs_ctx s ce)) ∪ guc_ids_bitmap s ->
  guc_ids_in_use s' = guc_ids_in_use s -> guc_id_list s' = guc_id_list s -> ids_inv s' /\ has_id s' ce.
Proof using Type.
  intros I C Hno Hp Hlife Hb Hend Hfree Hce Hids Hbm Huse Hl. pose proof (slrc_range s ltac:(apply I)) as Hr.
  pose proof (iv_num s I) as Hnum. pose proof (no_id_no_ref s ce I Hno) as Href. pose proof (order_fits (gs_ctx s ce)) as Hfit.
  assert (mlrc_guc_id_base s = num_guc_ids s - number_mlrc_guc_id s) as Hbase by done.
  assert (mlrc_guc_id_base s = number_slrc_guc_id s) as Hbase2 by done.
  assert (has_id s' ce) as Hyes by (unfold has_id, GUC_INVALID_CONTEXT_ID; rewrite Hce; cbn; lia).
  assert (ctx_block s' ce = block b (mlrc_order (gs_ctx s ce))) as Hblk.
  { unfold ctx_block. rewrite Hce. unfold mlrc_guc_id_base. rewrite (cc_bounds _ _ _ C). cbn. unfold mlrc_order. cbn. f_equal. unfold mlrc_guc_id_base. lia. }
  split; [|done]. apply (inv_changed ce s); [done|]. constructor; rewrite ?Hblk, ?Hce, ?Hids, ?Hbm, ?Hl; try done.
  - cbn. lia.
  - by cbn; rewrite Hlife.
  - intros y. split; [intros Hy; left; split; [done|tauto]|]. intros [[Hy _]|(_ & Hq & _)]; [done|by destruct Hq].
  - intros y. rewrite elem_of_union. split; [intros [Hy|Hy]; [by right|left; split; [done|tauto]]|].
    intros [[Hy _]|(_ & _ & Hy)]; [by right|by left].
  - intros _ _. cbn. split_and!; [lia|lia|by left].
  - apply I.
  - intros c Hc. left. split; [done|]. intros ->. by apply (no_id_not_listed s ce).
  - by rewrite Huse, (iv_in_use s I).
Qed.

(** A context without references loses its id, back to the pools. *)
Lemma id_taken ce s s' :
  ids_inv s -> ctx_changed ce s s' -> has_id s ce -> cx_ref (gs_ctx s ce) = 0 ->
  cx_ref (gs_ctx s' ce) = 0 -> ~ has_id s' ce ->
  (if decide (is_parent s ce) then guc_ids s' = guc_ids s /\ guc_ids_bitmap s' = guc_ids_bitmap s ∖ ctx_block s ce /\
     guc_ids_in_use s' = guc_ids_in_use s
   else guc_ids s' = guc_ids s ∖ {[cx_id (gs_ctx s ce)]} /\ guc_ids_bitmap s' = guc_ids_bitmap s /\
     guc_ids_in_use s' = guc_ids_in_use s - 1) ->
  NoDup (guc_id_list s') -> (forall c, c ∈ guc_id_list s' -> c ∈ guc_id_list s /\ c <> ce) -> ids_inv s'.
Proof using Type.
  intros I C Hh Hr Hr' Hno Hpools Hnd Hl. apply (inv_changed ce s); [done|].
  assert (forall x, x ∈ guc_ids s' <-> x ∈ guc_ids s /\ ~ (~ is_parent s ce /\ x = cx_id (gs_ctx s ce))) as Hids.
  { intros x. case_decide as Hp; destruct Hpools as (-> & _ & _); [tauto|]. rewrite elem_of_difference, elem_of_singleton. tauto. }
  assert (forall x, x ∈ guc_ids_bitmap s' <-> x ∈ guc_ids_bitmap s /\ ~ (is_parent s ce /\ x ∈ ctx_block s ce)) as Hbits.
  { intros x. case_decide as Hp; destruct Hpools as (_ & -> & _); [rewrite elem_of_difference|]; tauto. }
  constructor; try done.
  - lia.
  - lia.
  - intros x. rewrite Hids. tauto.
  - intros x. rewrite Hbits. tauto.
  - intros c Hc. left. by apply Hl.
  - case_decide as Hp; destruct Hpools as (-> & _ & ->); [apply I|]. rewrite (iv_in_use s I).
    destruct (iv_single s I ce Hh Hp) as [_ Hin]. rewrite size_difference by (intros y ->%elem_of_singleton; done).
    rewrite size_singleton. assert (size (guc_ids s) <> 0%nat); [|lia].
    intros Hz%size_empty_inv. by apply (Hz (cx_id (gs_ctx s ce))) in Hin.
Qed.

(** The references and the list change, nothing else. *)
Lemma ref_changed ce s s' :
  ids_inv s -> ctx_changed ce s s' -> has_id s ce -> cx_id (gs_ctx s' ce) = cx_id (gs_ctx s ce) ->
  cx_life (gs_ctx s' ce) = Alive -> 0 <= cx_ref (gs_ctx s' ce) ->
  guc_ids s' = guc_ids s -> guc_ids_bitmap s' = guc_ids_bitmap s -> guc_ids_in_use s' = guc_ids_in_use s ->
  NoDup (guc_id_list s') ->
  (forall c, c ∈ guc_id_list s' -> c ∈ guc_id_list s /\ c <> ce \/ c = ce /\ ~ is_parent s ce /\ cx_ref (gs_ctx s' ce) = 0) ->
  ids_inv s'.
Proof using Type.
  intros I C Hh Hid Hlf Hr Hids Hbm Huse Hnd Hl.
  assert (has_id s' ce) as Hh' by (unfold has_id; by rewrite Hid).
  assert (ctx_block s' ce = ctx_block s ce) as Hb by (apply block_same; [apply C|apply C|done]).
  assert (~ is_parent s ce -> cx_id (gs_ctx s ce) ∈ guc_ids s) as Hin by (intros Hp; by apply (iv_single s I ce)).
  assert (is_parent s ce -> ctx_block s ce ⊆ guc_ids_bitmap s) as Hsub by (intros Hp; by apply (iv_parent s I ce)).
  apply (inv_changed ce s); [done|]. constructor; rewrite ?Hid, ?Hids, ?Hbm, ?Huse, ?Hb; try done.
  - by rewrite Hlf.
  - intros x. split; [|intros [[Hx _]|(_ & Hp & ->)]; [done|by apply Hin]].
    intros Hx. destruct (decide (x = cx_id (gs_ctx s ce) /\ ~ is_parent s ce)) as [[-> Hp]|Hne]; [by right|left; tauto].
  - intros _ Hp. split; [by apply (iv_single s I ce)|done].
  - intros x. split; [|intros [[Hx _]|(_ & Hp & Hx)]; [done|by apply (Hsub Hp)]].
    intros Hx. destruct (decide (is_parent s ce)) as [Hp|Hp]; [|left; tauto].
    destruct (decide (x ∈ ctx_block s ce)); [by right|left; tauto].
  - intros _ Hp. destruct (iv_parent s I ce Hh Hp) as (? & ? & _). split_and!; [done|done|by right].
  - intros c Hc. destruct (Hl c Hc) as [?|(-> & ? & ?)]; [by left|by right].
  - apply I.
Qed.

(** What no operation on [ce] does to the others: their references and lives are theirs, and one
    that is pinned keeps its ids. *)
Record outside ce s s' : Prop := {
  ou_num : num_guc_ids s' = num_guc_ids s;
  ou_children c : cx_children (gs_ctx s' c) = cx_children (gs_ctx s c);
  ou_ref c : c <> ce -> cx_ref (gs_ctx s' c) = cx_ref (gs_ctx s c);
  ou_life c : c <> ce -> cx_life (gs_ctx s' c) = cx_life (gs_ctx s c);
  ou_pinned c : c <> ce -> 0 < cx_ref (gs_ctx s c) ->
    cx_id (gs_ctx s' c) = cx_id (gs_ctx s c) /\ cx_child_ids (gs_ctx s' c) = cx_child_ids (gs_ctx s c);
}.
#[export] Instance outside_preorder ce : PreOrder (outside ce).
Proof using Type.
  split; [by constructor|]. intros s1 s2 s3 [] []. constructor; try congruence.
  - intros c Hc. by rewrite ou_ref1, ou_ref0.
  - intros c Hc. by rewrite ou_life1, ou_life0.
  - intros c Hc Hp. destruct (ou_pinned0 c Hc Hp). destruct (ou_pinned1 c Hc); [by rewrite ou_ref0|]. split; congruence.
Qed.

(** The children of a parent have the ids behind its own. *)
Definition child_ids_ok s c : Prop := has_id s c -> is_parent s c ->
  cx_child_ids (gs_ctx s c) = seqZ (cx_id (gs_ctx s c) + 1) (Z.of_nat (cx_children (gs_ctx s c))).
Definition ids_ok s : Prop := ids_inv s /\ forall c, child_ids_ok s c.
Lemma ids_ok_same s s' :
  same_ids s s' -> (forall c, cx_child_ids (gs_ctx s' c) = cx_child_ids (gs_ctx s c)) -> ids_ok s -> ids_ok s'.
Proof using Type.
  intros Hs Hk [I K]. split; [by apply (ids_inv_same s)|]. intros c. specialize (K c). destruct Hs.
  unfold child_ids_ok, has_id, is_parent in *. by rewrite si_id0, si_children0, Hk.
Qed.

Lemma tick_same s : same_ids s (snd (tick s)).
Proof using Type. apply rest_same. Qed.

Lemma wp_new_guc_id ce s (Q : Z -> submission_state -> Prop) :
  ids_inv s -> ~ has_id s ce -> cx_life (gs_ctx s ce) = Alive ->
  (forall r s', r < 0 -> same_ids s s' -> gs_ctx s' = gs_ctx s -> Q r s') ->
  (forall s' x, ids_inv s' -> has_id s' ce -> gs_ctx s' ce = with_id x (gs_ctx s ce) ->
     (forall c, c <> ce -> gs_ctx s' c = gs_ctx s c) -> num_guc_ids s' = num_guc_ids s ->
     guc_id_list s' = guc_id_list s -> Q 0 s') ->
  wp (new_guc_id ce) Q s.
Proof using IdEnvLaws0.
  intros I Hno Hlf HF HQ. apply wp_bind, wp_gets. rewrite parent_false. apply wp_bind. case_bool_decide as Hp; cbn [negb].
  - apply wp_bind, wp_gets, wp_bind, wp_gets. cbv zeta. cbn [id].
    destruct (Z.ltb_spec (bitmap_find_free_region (guc_ids_bitmap s) (number_mlrc_guc_id s) (mlrc_order (gs_ctx s ce))) 0) as [Hb|Hb].
    { apply wp_ret. rewrite (proj2 (Z.ltb_lt _ _)) by done. apply wp_ret, HF; [done| |done]. constructor; try done. by left. }
    destruct (region_range _ _ _ _ eq_refl Hb (order_nonneg (gs_ctx s ce))) as [Hend Hfree].
    pose proof (slrc_range s ltac:(apply I)). assert (mlrc_guc_id_base s = number_slrc_guc_id s) as Hbase by done.
    apply wp_bind, wp_modify, wp_ret. rewrite (proj2 (Z.ltb_ge _ _)) by lia. apply wp_bind, wp_ret, wp_bind, wp_modify, wp_ret.
    set (b := bitmap_find_free_region _ _ _) in *. set (s' := upd_ctx ce _ _).
    assert (ids_inv s' /\ has_id s' ce) as [I' Hh'].
    { apply (block_given ce b s); try done; [|unfold s'; by rewrite upd_at].
      constructor; [done|intros c Hc; unfold s'; by rewrite upd_ne|by unfold s'; rewrite upd_at]. }
    eapply HQ; [done|done|unfold s'; by rewrite upd_at|intros c Hc; unfold s'; by rewrite upd_ne|done|done].
  - apply wp_bind. unfold tick. unfold wp at 1. cbn [fst snd]. set (s1 := set_rest _ _ _ s).
    apply wp_bind, wp_gets. cbv zeta. cbn [id].
    destruct (Z.ltb_spec (ida_simple_get (gs_calls s) (guc_ids s1) (number_slrc_guc_id s1)) 0) as [Hb|Hb].
    { apply wp_ret. rewrite (proj2 (Z.ltb_lt _ _)) by done. apply wp_ret, HF; [done|apply rest_same|done]. }
    destruct (ida_range _ _ _ _ eq_refl Hb) as [Hend Hfree].
    apply wp_bind, wp_modify, wp_ret. rewrite (proj2 (Z.ltb_ge _ _)) by lia. apply wp_bind, wp_modify, wp_bind, wp_modify, wp_ret.
    set (x := ida_simple_get _ _ _) in *. set (s' := upd_ctx ce _ _).
    assert (ids_inv s' /\ has_id s' ce) as [I' Hh'].
    { apply (single_given ce x s1); try done; [apply (ids_inv_same s); [apply rest_same|done]| |unfold s'; by rewrite upd_at].
      constructor; [done|intros c Hc; unfold s'; by rewrite upd_ne|by unfold s'; rewrite upd_at]. }
    eapply HQ; [done|done|unfold s'; by rewrite upd_at|intros c Hc; unfold s'; by rewrite upd_ne|done|done].
Qed.

Lemma wp_steal ce s (Q : Z -> submission_state -> Prop) :
  ids_ok s -> ~ has_id s ce -> ~ is_parent s ce -> cx_life (gs_ctx s ce) = Alive ->
  (guc_id_list s = [] -> Q (- EAGAIN) s) ->
  (forall s', ids_ok s' -> has_id s' ce -> outside ce s s' ->
     cx_life (gs_ctx s' ce) = Alive -> cx_ref (gs_ctx s' ce) = cx_ref (gs_ctx s ce) -> ce ∉ guc_id_list s' -> Q 0 s') ->
  wp (steal_guc_id ce) Q s.
Proof using Type.
  intros [I K] Hno Hnp Hlf HF HQ. apply wp_bind, wp_gets. destruct (guc_id_list s) as [|cn l] eqn:Hl; [by apply wp_ret, HF|].
  assert (cn ∈ guc_id_list s) as Hin by (rewrite Hl; apply list_elem_of_here).
  destruct (iv_listed s I cn Hin) as (Hh & Hp & Hr & Hlife). assert (ce <> cn) as Hne by (by intros ->).
  pose proof (iv_nodup s I) as N. rewrite Hl in N. apply NoDup_cons in N as [Hcn N].
  set (x := cx_id (gs_ctx s cn)). set (flags := fun c : intel_context => with_flags false (cx_wait_deregister c) (cx_destroyed c) c).
  set (s1 := upd_ctx cn (with_id GUC_INVALID_CONTEXT_ID) (upd_ctx cn flags
    (set_lists l (destroyed_contexts s) (set_pools (guc_ids s ∖ {[x]}) (guc_ids_bitmap s) (guc_ids_in_use s - 1) s)))).
  assert (gs_ctx s1 cn = with_id GUC_INVALID_CONTEXT_ID (flags (gs_ctx s cn))) as H1 by (unfold s1; by rewrite !upd_at).
  assert (forall c, c <> cn -> gs_ctx s1 c = gs_ctx s c) as H1' by (intros c Hc; unfold s1; by rewrite !upd_ne).
  assert (~ has_id s1 cn) as Hno1 by (unfold has_id; rewrite H1; cbn; tauto).
  assert (ids_inv s1) as I1.
  { apply (id_taken cn s); try done; [by constructor; rewrite ?H1|by rewrite H1|by rewrite decide_False|].
    intros c Hc. rewrite Hl. split; [by apply list_elem_of_further|]. intros ->. done. }
  assert (x ∈ guc_ids s /\ 0 <= x < number_slrc_guc_id s) as [Hx Hxr] by (by destruct (iv_single s I cn Hh Hp)).
  apply wp_bind, wp_gets, wp_bind, wp_modify, wp_bind, wp_modify, wp_bind, wp_modify, wp_bind, wp_modify, wp_ret.
  set (s' := upd_ctx cn _ _).
  assert (gs_ctx s' ce = with_id x (gs_ctx s ce)) as H2 by (unfold s'; by rewrite upd_ne, upd_ne, upd_at).
  assert (forall c, c <> ce -> gs_ctx s' c = gs_ctx s1 c) as H2'.
  { intros c Hc. destruct (decide (c = cn)) as [->|Hc']; [rewrite H1|rewrite H1' by done]; unfold s'.
    - by rewrite !upd_at, upd_ne by done.
    - by rewrite !upd_ne by done. }
  assert (~ has_id s1 ce) as Hno2 by (unfold has_id; by rewrite H1').
  destruct (single_given ce x s1 s') as [I2 Hh2]; try done.
  - constructor; [done|done|by rewrite H2, H1'].
  - unfold is_parent. by rewrite H1'.
  - by rewrite H1'.
  - cbn. rewrite elem_of_difference, elem_of_singleton. tauto.
  - by rewrite H2, H1'.
  - cbn. apply sets.set_eq. intros y. rewrite elem_of_union, elem_of_difference, elem_of_singleton.
    destruct (decide (y = x)) as [->|]; tauto.
  - cbn. lia.
  - assert (forall c, c <> ce -> c <> cn -> gs_ctx s' c = gs_ctx s c) as H3 by (intros c Hc Hc'; by rewrite H2', H1').
    apply HQ; try done; [split; [done|]|constructor; [done|..]|by rewrite H2|by rewrite H2|].
    + intros c. destruct (decide (c = ce)) as [->|Hc]; [|destruct (decide (c = cn)) as [->|Hc']].
      * intros _ Hpar. exfalso. apply Hnp. unfold is_parent in *. by rewrite H2 in Hpar.
      * intros Hh'. exfalso. unfold has_id in Hh'. rewrite H2', H1 in Hh' by done. by cbn in Hh'.
      * unfold child_ids_ok, has_id, is_parent. rewrite H3 by done. apply K.
    + intros c. destruct (decide (c = ce)) as [->|Hc]; [by rewrite H2|]. destruct (decide (c = cn)) as [->|Hc']; [by rewrite H2', H1|by rewrite H3].
    + intros c Hc. destruct (decide (c = cn)) as [->|Hc']; [by rewrite H2', H1|by rewrite H3].
    + intros c Hc. destruct (decide (c = cn)) as [->|Hc']; [by rewrite H2', H1|by rewrite H3].
    + intros c Hc Hpin. destruct (decide (c = cn)) as [->|Hc']; [lia|by rewrite H3].
    + intros Hce. apply (no_id_not_listed s ce I Hno). rewrite Hl. by apply list_elem_of_further.
Qed.

(** The result of [pin_guc_id]'s attempts: the context has an id of its own, or there is none. *)
Definition no_id_error s ce : Z := if bool_decide (is_parent s ce) then - ENOSPC else - EAGAIN.

Lemma wp_assign ce s (Q : Z -> submission_state -> Prop) :
  ids_ok s -> ~ has_id s ce -> cx_life (gs_ctx s ce) = Alive ->
  (forall s', same_ids s s' -> gs_ctx s' = gs_ctx s -> is_parent s ce \/ guc_id_list s = [] -> Q (no_id_error s ce) s') ->
  (forall s', ids_ok s' -> has_id s' ce -> outside ce s s' ->
     cx_life (gs_ctx s' ce) = Alive -> cx_ref (gs_ctx s' ce) = cx_ref (gs_ctx s ce) -> ce ∉ guc_id_list s' -> Q 0 s') ->
  wp (assign_guc_id ce) Q s.
Proof using IdEnvLaws0.
  intros [I K] Hno Hlf HF HQ. apply wp_bind, wp_gets, wp_bind, wp_new_guc_id; [done|done|done|..].
  - intros r s1 Hr Hs Hctx. rewrite (proj2 (Z.ltb_lt _ _)) by done. rewrite parent_false.
    pose proof (HF s1 Hs Hctx) as HF1. unfold no_id_error in HF1. apply wp_bind. case_bool_decide as Hp; [apply wp_ret, wp_ret, HF1; by left|].
    apply wp_steal; [by apply (ids_ok_same s); [|by rewrite Hctx|]|unfold has_id|unfold is_parent|..]; rewrite ?Hctx; try done.
    { rewrite (si_list _ _ Hs). intros Hl. apply wp_ret, HF1. by right. }
    intros s2 Ok Hh Ho Hlf2 Hr2 Hnl. cbn. apply wp_bind, wp_ret, wp_ret. apply HQ; try done.
    destruct Ho. constructor; rewrite <- ?Hctx; try done. by rewrite <- (si_num _ _ Hs).
  - intros s1 x I1 Hh1 Hce Hoth Hn Hl. change (0 <? 0) with false. cbv iota. apply wp_bind, wp_ret. rewrite parent_false.
    assert (forall s2, (gs_ctx s2 ce = gs_ctx s1 ce \/ is_parent s ce /\
      gs_ctx s2 ce = with_child_ids (seqZ (x + 1) (Z.of_nat (cx_children (gs_ctx s ce)))) (gs_ctx s1 ce)) ->
      (is_parent s ce -> cx_child_ids (gs_ctx s2 ce) = seqZ (x + 1) (Z.of_nat (cx_children (gs_ctx s ce)))) ->
      (forall c, c <> ce -> gs_ctx s2 c = gs_ctx s1 c) ->
      num_guc_ids s2 = num_guc_ids s1 -> guc_ids s2 = guc_ids s1 -> guc_ids_bitmap s2 = guc_ids_bitmap s1 ->
      guc_ids_in_use s2 = guc_ids_in_use s1 -> guc_id_list s2 = guc_id_list s1 -> Q 0 s2) as Hdone.
    { intros s2 Hce2 Hkids Hoth2 Hn2 Hid2 Hbm2 Hu2 Hl2.
      assert (cx_children (gs_ctx s2 ce) = cx_children (gs_ctx s ce) /\ cx_id (gs_ctx s2 ce) = x /\
        cx_ref (gs_ctx s2 ce) = cx_ref (gs_ctx s ce) /\ cx_life (gs_ctx s2 ce) = cx_life (gs_ctx s ce)) as (Hc2 & Hi2 & Hr2 & Hlf2).
      { destruct Hce2 as [->|[_ ->]]; by rewrite Hce. }
      assert (ids_inv s2) as I2.
      { apply (ids_inv_same s1); [|done]. constructor; try done; intros c.
        all: destruct (decide (c = ce)) as [->|Hne]; [destruct Hce2 as [->|[_ ->]]; auto|rewrite (Hoth2 c Hne); auto]. }
      apply HQ; [split; [done|]|by unfold has_id in *; rewrite Hi2; rewrite Hce in Hh1|constructor|by rewrite Hlf2|done|].
      - intros c. destruct (decide (c = ce)) as [->|Hne].
        + intros _ Hp. rewrite Hi2, Hc2. apply Hkids. unfold is_parent in *. by rewrite Hc2 in Hp.
        + unfold child_ids_ok, has_id, is_parent. rewrite Hoth2, Hoth by done. apply K.
      - by rewrite Hn2.
      - intros c. destruct (decide (c = ce)) as [->|Hne]; [done|by rewrite Hoth2, Hoth].
      - intros c Hne. by rewrite Hoth2, Hoth.
      - intros c Hne. by rewrite Hoth2, Hoth.
      - intros c Hne _. by rewrite Hoth2, Hoth.
      - rewrite Hl2, Hl. by apply no_id_not_listed. }
    case_bool_decide as Hp.
    + apply wp_bind, wp_modify, wp_ret. apply Hdone; try done.
      * right. split; [done|]. by rewrite upd_at, Hce.
      * intros _. by rewrite upd_at, Hce.
      * intros c Hne. by rewrite upd_ne.
    + apply wp_bind, wp_ret, wp_ret. apply Hdone; try done. by left.
Qed.

Lemma filter_other (ce : nat) (l : list nat) : ce ∉ l -> filter (fun c => c <> ce) l = l.
Proof using Type.
  induction l as [|c l IH]; [done|]. intros [Hne Hl]%not_elem_of_cons. rewrite filter_cons_True by congruence. by rewrite IH.
Qed.

(** What [pin_guc_id] leaves: a reference and an id, or nothing changed. *)
Definition pin_post ce s (r : Z) s' : Prop :=
  if decide (r < 0) then r = no_id_error s ce /\ ~ has_id s ce /\ (is_parent s ce \/ guc_id_list s = []) /\ gs_ctx s' = gs_ctx s
  else has_id s' ce /\ cx_ref (gs_ctx s' ce) = cx_ref (gs_ctx s ce) + 1 /\ cx_life (gs_ctx s' ce) = Alive /\
    r = (if decide (has_id s ce) then 0 else 1) /\
    (has_id s ce -> cx_id (gs_ctx s' ce) = cx_id (gs_ctx s ce) /\ cx_child_ids (gs_ctx s' ce) = cx_child_ids (gs_ctx s ce)).

Lemma wp_add_ref ce s s1 (r : Z) (Q : Z -> submission_state -> Prop) :
  ids_ok s1 -> has_id s1 ce -> cx_life (gs_ctx s1 ce) = Alive -> outside ce s s1 -> cx_ref (gs_ctx s1 ce) = cx_ref (gs_ctx s ce) ->
  (r = if decide (has_id s ce) then 0 else 1) -> 
  (has_id s ce -> cx_id (gs_ctx s1 ce) = cx_id (gs_ctx s ce) /\ cx_child_ids (gs_ctx s1 ce) = cx_child_ids (gs_ctx s ce)) ->
  (forall s', ids_ok s' -> outside ce s s' -> pin_post ce s r s' -> Q r s') ->
  wp (unlist ce ≫= fun _ => mod_ctx ce (fun c : intel_context => with_ref (cx_ref c + 1) c) ≫= fun _ => mret r) Q s1.
Proof using Type.
  intros [I K] Hh Hlf Ho Hr Hres Hid HQ. apply wp_bind, wp_modify, wp_bind, wp_modify, wp_ret.
  set (s2 := set_lists _ _ s1). set (s3 := upd_ctx ce _ s2).
  assert (gs_ctx s3 ce = with_ref (cx_ref (gs_ctx s1 ce) + 1) (gs_ctx s1 ce)) as H3 by (unfold s3; by rewrite upd_at).
  assert (forall c, c <> ce -> gs_ctx s3 c = gs_ctx s1 c) as H3' by (intros c Hc; unfold s3; by rewrite upd_ne).
  pose proof (iv_ref s1 I ce) as Hr0.
  apply HQ.
  - split.
    + apply (ref_changed ce s1); try done; rewrite ?H3; try done; [constructor; [done|done|by rewrite H3]|cbn; lia|..].
      * apply list.NoDup_filter, I.
      * intros c [Hne Hc]%list_elem_of_filter. by left.
    + intros c. unfold child_ids_ok, has_id, is_parent. destruct (decide (c = ce)) as [->|Hne]; [rewrite H3|rewrite H3' by done]; apply K.
  - etransitivity; [exact Ho|]. constructor; try done.
    + intros c. destruct (decide (c = ce)) as [->|Hne]; [by rewrite H3|by rewrite H3'].
    + intros c Hne. by rewrite H3'.
    + intros c Hne. by rewrite H3'.
    + intros c Hne _. by rewrite H3'.
  - unfold pin_post. rewrite decide_False by (case_decide; lia). unfold has_id at 1. rewrite H3. cbn. rewrite Hr. split_and!; done.
Qed.

Lemma wp_pin_locked ce s (Q : Z -> submission_state -> Prop) :
  ids_ok s -> cx_life (gs_ctx s ce) = Alive ->
  (forall r s', ids_ok s' -> outside ce s s' -> pin_post ce s r s' -> Q r s') ->
  wp (pin_locked ce) Q s.
Proof using IdEnvLaws0.
  intros Ok Hlf HQ. pose proof Ok as [I K]. apply wp_bind, wp_gets. rewrite has_id_false. apply wp_bind. case_bool_decide as Hh; cbn [negb].
  - apply wp_ret. change (0 <? 0) with false. cbv iota.
    apply (wp_add_ref ce s); [done|done|done|done|done|by rewrite decide_True|done|by apply HQ].
  - apply wp_bind, wp_assign; [done|done|done|..].
    + intros s1 Hs Hctx Hnone. assert (no_id_error s ce < 0) as Hneg by (unfold no_id_error; by case_bool_decide).
      rewrite (proj2 (Z.eqb_neq _ 0)) by lia. cbn [negb]. apply wp_ret. rewrite (proj2 (Z.ltb_lt _ _)) by done. apply wp_ret. apply HQ.
      * apply (ids_ok_same s); [done|by rewrite Hctx|done].
      * constructor; rewrite ?Hctx; try done. apply (si_num _ _ Hs).
      * unfold pin_post. by rewrite decide_True.
    + intros s1 Ok1 Hh1 Ho Hlf1 Hr1 Hl1. change (negb (0 =? 0)) with false. cbv iota. apply wp_ret.
      change (1 <? 0) with false. cbv iota. apply (wp_add_ref ce s); [done|done|done|done|done|by rewrite decide_False|done|by apply HQ].
Qed.

Lemma wp_unpin_locked ce s (Q : unit -> submission_state -> Prop) :
  ids_ok s -> cx_life (gs_ctx s ce) = Alive -> ~ is_parent s ce ->
  (forall s', ids_ok s' -> gs_ctx s' = gs_ctx s -> num_guc_ids s' = num_guc_ids s -> Q tt s') ->
  wp (unpin_locked ce) Q s.
Proof using Type.
  intros [I K] Hlf Hp HQ. apply wp_bind, wp_gets, wp_bind, wp_gets. rewrite has_id_false. apply wp_if; intros Hb; [|by apply wp_ret, HQ].
  rewrite negb_involutive in Hb. propify. match goal with H : bool_decide (has_id s ce) = true |- _ => apply bool_decide_eq_true in H as Hh end.
  match goal with H : bool_decide (ce ∉ _) = true |- _ => apply bool_decide_eq_true in H as Hnl end.
  apply wp_modify, HQ; [|done|done]. split; [|exact K]. apply (ref_changed ce s); try done.
  - cbn. lia.
  - cbn. apply NoDup_app. split; [apply I|]. split; [|apply NoDup_singleton]. intros c Hc ->%list_elem_of_singleton. done.
  - intros c [Hc | ->%list_elem_of_singleton]%elem_of_app; [left; split; [done|by intros ->]|by right].
Qed.

Lemma wp_release ce s (Q : unit -> submission_state -> Prop) :
  ids_ok s -> cx_ref (gs_ctx s ce) = 0 ->
  (forall s', ids_ok s' -> outside ce s s' -> ~ has_id s' ce -> ce ∉ guc_id_list s' -> cx_ref (gs_ctx s' ce) = 0 ->
     cx_life (gs_ctx s' ce) = cx_life (gs_ctx s ce) -> Q tt s') ->
  wp (__release_guc_id ce) Q s.
Proof using Type.
  intros [I K] Hr HQ. apply wp_bind, wp_gets. rewrite has_id_false, negb_involutive, parent_false. apply wp_bind.
  assert (forall s1, ctx_changed ce s s1 -> ~ has_id s1 ce -> gs_ctx s1 ce = with_id GUC_INVALID_CONTEXT_ID (gs_ctx s ce) \/ gs_ctx s1 ce = gs_ctx s ce ->
    guc_id_list s1 = guc_id_list s ->
    (forall l, NoDup l -> (forall c, c ∈ l -> c ∈ guc_id_list s /\ c <> ce) -> ids_inv (set_lists l (destroyed_contexts s1) s1)) ->
    wp (unlist ce) Q s1) as Hdone.
  { intros s1 C Hno Hce Hl Hinv. apply wp_modify. apply HQ.
    - split; [apply Hinv; rewrite Hl; [apply list.NoDup_filter, I|]|].
      + intros c [Hne Hc]%list_elem_of_filter. done.
      + intros c. destruct (decide (c = ce)) as [->|Hne]; [by intros Hx|]. unfold child_ids_ok, has_id, is_parent. cbn. rewrite (cc_other _ _ _ C) by done. apply K.
    - constructor; cbn; [apply C| |intros c Hne; by rewrite (cc_other _ _ _ C)..|intros c Hne _; by rewrite (cc_other _ _ _ C)].
      intros c. destruct (decide (c = ce)) as [->|Hne]; [apply C|by rewrite (cc_other _ _ _ C)].
    - done.
    - cbn. intros [Hne _]%list_elem_of_filter. done.
    - cbn. by destruct Hce as [->| ->].
    - cbn. by destruct Hce as [->| ->]. }
  case_bool_decide as Hh.
  - apply wp_bind, wp_gets, wp_bind. cbn [id].
    assert (forall s1, gs_ctx s1 = gs_ctx s -> num_guc_ids s1 = num_guc_ids s -> guc_id_list s1 = guc_id_list s ->
      (if decide (is_parent s ce) then guc_ids s1 = guc_ids s /\ guc_ids_bitmap s1 = guc_ids_bitmap s ∖ ctx_block s ce /\
         guc_ids_in_use s1 = guc_ids_in_use s
       else guc_ids s1 = guc_ids s ∖ {[cx_id (gs_ctx s ce)]} /\ guc_ids_bitmap s1 = guc_ids_bitmap s /\
         guc_ids_in_use s1 = guc_ids_in_use s - 1) ->
      wp (clr_ctx_id_mapping (cx_id (gs_ctx s ce)) ≫= fun _ => set_context_guc_id_invalid ce) (fun _ s' => wp (unlist ce) Q s') s1) as Hgo.
    { intros s1 Hctx Hn Hl Hpools. apply wp_bind, wp_modify, wp_modify. set (s2 := upd_ctx ce _ _).
      assert (gs_ctx s2 ce = with_id GUC_INVALID_CONTEXT_ID (gs_ctx s ce)) as H2 by (unfold s2; rewrite upd_at; cbn; by rewrite Hctx).
      assert (ctx_changed ce s s2) as C.
      { constructor; [done|intros c Hc; unfold s2; rewrite upd_ne by done; cbn; by rewrite Hctx|by rewrite H2]. }
      assert (~ has_id s2 ce) as Hno by (unfold has_id; rewrite H2; cbn; tauto).
      apply Hdone; [done|done|by left|done|]. intros l N Hsub. apply (id_taken ce s); try done.
      - destruct C. by constructor.
      - change (cx_ref (gs_ctx s2 ce) = 0). by rewrite H2. }
    case_bool_decide as Hp; apply wp_modify, Hgo; try done; [by rewrite decide_True|by rewrite decide_False].
  - apply wp_ret, Hdone; [by constructor|done|by right|done|]. intros l N Hsub. destruct I. constructor; try done.
    intros c Hc. apply iv_listed0. by apply Hsub.
Qed.

(** The rest: references, and contexts that have no id. *)

Lemma wp_dec_ref ce s (Q : unit -> submission_state -> Prop) :
  ids_ok s -> 0 < cx_ref (gs_ctx s ce) ->
  (forall s', ids_ok s' -> outside ce s s' -> gs_ctx s' ce = with_ref (cx_ref (gs_ctx s ce) - 1) (gs_ctx s ce) -> Q tt s') ->
  wp (dec_ref ce) Q s.
Proof using Type.
  intros [I K] Hr HQ. apply wp_modify. set (s' := upd_ctx ce _ s).
  assert (gs_ctx s' ce = with_ref (cx_ref (gs_ctx s ce) - 1) (gs_ctx s ce)) as H by (unfold s'; by rewrite upd_at).
  assert (forall c, c <> ce -> gs_ctx s' c = gs_ctx s c) as H' by (intros c Hc; unfold s'; by rewrite upd_ne).
  destruct (iv_pinned s I ce Hr) as [Hh Hlf]. apply HQ; [split| |done].
  - apply (ref_changed ce s); try done; rewrite ?H; try done; [by constructor; rewrite ?H|cbn; lia|apply I|].
    intros c Hc. left. split; [done|]. intros ->. destruct (iv_listed s I ce Hc) as (_ & _ & Hz & _). lia.
  - intros c. unfold child_ids_ok, has_id, is_parent. destruct (decide (c = ce)) as [->|Hne]; [rewrite H|rewrite H' by done]; apply K.
  - constructor; try done; [|intros c Hc; by rewrite H'..|intros c Hc _; by rewrite H'].
    intros c. destruct (decide (c = ce)) as [->|Hne]; [by rewrite H|by rewrite H'].
Qed.

Lemma wp_add_ref_unless_0 ce s (Q : bool -> submission_state -> Prop) :
  ids_ok s ->
  (cx_ref (gs_ctx s ce) = 0 -> Q false s) ->
  (forall s', ids_ok s' -> outside ce s s' -> 0 < cx_ref (gs_ctx s ce) ->
     gs_ctx s' ce = with_ref (cx_ref (gs_ctx s ce) + 1) (gs_ctx s ce) -> Q true s') ->
  wp (add_ref_unless_0 ce) Q s.
Proof using Type.
  intros [I K] HF HQ. apply wp_bind, wp_gets. apply wp_if; intros Hz; propify; [by apply wp_ret, HF|].
  pose proof (iv_ref s I ce) as Hr. apply wp_bind, wp_modify, wp_ret. set (s' := upd_ctx ce _ s).
  assert (gs_ctx s' ce = with_ref (cx_ref (gs_ctx s ce) + 1) (gs_ctx s ce)) as H by (unfold s'; by rewrite upd_at).
  assert (forall c, c <> ce -> gs_ctx s' c = gs_ctx s c) as H' by (intros c Hc; unfold s'; by rewrite upd_ne).
  destruct (iv_pinned s I ce ltac:(lia)) as [Hh Hlf]. apply HQ; [split| |lia|done].
  - apply (ref_changed ce s); try done; rewrite ?H; try done; [by constructor; rewrite ?H|cbn; lia|apply I|].
    intros c Hc. left. split; [done|]. intros ->. destruct (iv_listed s I ce Hc) as (_ & _ & Hz' & _). lia.
  - intros c. unfold child_ids_ok, has_id, is_parent. destruct (decide (c = ce)) as [->|Hne]; [rewrite H|rewrite H' by done]; apply K.
  - constructor; try done; [|intros c Hc; by rewrite H'..|intros c Hc _; by rewrite H'].
    intros c. destruct (decide (c = ce)) as [->|Hne]; [by rewrite H|by rewrite H'].
Qed.

(** A context without an id changes as it likes as long as it gets neither one nor a reference. *)
Lemma idle_changed ce s s' :
  ids_ok s -> (forall c, c <> ce -> gs_ctx s' c = gs_ctx s c) -> ~ has_id s ce -> ~ has_id s' ce -> cx_ref (gs_ctx s' ce) = 0 ->
  num_guc_ids s' = num_guc_ids s -> guc_ids s' = guc_ids s -> guc_ids_bitmap s' = guc_ids_bitmap s ->
  guc_ids_in_use s' = guc_ids_in_use s -> guc_id_list s' = guc_id_list s -> ids_ok s'.
Proof using Type.
  intros [[] K] Hoth Hno Hno' Hr Hn Hids Hbm Hu Hl.
  assert (forall c, has_id s c \/ has_id s' c -> c <> ce) as Hne by (intros c [Hc|Hc] ->; done).
  assert (forall c, has_id s c \/ has_id s' c -> gs_ctx s' c = gs_ctx s c) as Heq by (intros c Hc; by apply Hoth, Hne).
  assert (forall c, has_id s' c <-> has_id s c) as Hh.
  { intros c. unfold has_id. split; intros Hc; [rewrite <- (Heq c) by (by right)|rewrite (Heq c) by (by left)]; done. }
  assert (forall c, has_id s c -> is_parent s' c <-> is_parent s c) as Hp by (intros c Hc; unfold is_parent; by rewrite Heq by (by left)).
  assert (forall c, has_id s c -> ctx_block s' c = ctx_block s c) as Hb by (intros c Hc; apply block_same; by rewrite ?Heq by (by left)).
  split; [|intros c Hc Hp']. 2:{ apply Hh in Hc as Hc'. rewrite Heq by (by right). apply K; [done|by apply Hp]. }
  constructor; unfold mlrc_guc_id_base, number_slrc_guc_id, number_mlrc_guc_id in *; rewrite ?Hn, ?Hids, ?Hbm, ?Hu, ?Hl; try done.
  - intros c. destruct (decide (c = ce)) as [->|Hc]; [by rewrite Hr|rewrite Hoth by done; apply iv_ref0].
  - intros c. destruct (decide (c = ce)) as [->|Hc]; [rewrite Hr; by intros|rewrite Hh, Hoth by done; apply iv_pinned0].
  - intros c Hc Hp'. apply Hh in Hc as Hc'. rewrite Heq by (by right). apply iv_single0; [done|by rewrite <- Hp].
  - intros x Hx. destruct (iv_taken0 x Hx) as (c & Hc & Hp' & Hi). exists c. by rewrite Hh, Hp, Heq by (first [done|by left]).
  - intros c k Hc Hk. rewrite !Heq by (by right). rewrite !Hp by (by apply Hh). apply Hh in Hc, Hk. by apply iv_distinct0.
  - intros c Hc. apply Hh in Hc as Hc'. rewrite Hp, Hb, Heq by (first [done|by right]). by apply iv_parent0.
  - intros c k Hc Hk. apply Hh in Hc, Hk. rewrite !Hp, !Hb by done. by apply iv_blocks0.
  - intros x Hx. destruct (iv_bits0 x Hx) as (c & Hc & Hp' & Hi). exists c. by rewrite Hh, Hp, Hb by (first [done|by left]).
  - intros c Hc. destruct (iv_listed0 c Hc) as (Hc' & ? & ? & ?). by rewrite Hh, Hp, Heq by (first [done|by left]).
  - intros c. destruct (decide (c = ce)) as [->|Hc]; [done|]. rewrite Hh, Hoth by done. apply iv_freed0.
Qed.

Lemma wp_limit_ids limit s (Q : Z -> submission_state -> Prop) :
  ids_ok s -> 0 <= limit -> (forall c, has_id s c -> ~ is_parent s c) ->
  (forall r s', ids_ok s' -> (r = 0 -> num_guc_ids s' = limit /\ forall c, ~ has_id s' c) -> (r <> 0 -> s' = s) -> gs_ctx s' = gs_ctx s -> Q r s') ->
  wp (submission_limit_ids limit) Q s.
Proof using Type.
  intros [[] K] Hl Hnp HQ. apply wp_bind, wp_gets. apply wp_if; intros H1; propify; [by apply wp_ret, HQ|].
  apply wp_if; intros H2; propify; [by apply wp_ret, HQ|].
  assert (forall c, ~ has_id s c) as Hno.
  { intros c Hc. destruct (iv_single0 c Hc (Hnp c Hc)) as [_ Hin]. match type of H2 with context [bool_decide ?P] => destruct (decide P) as [He|]; [|by rewrite bool_decide_eq_false_2 in H2] end. rewrite He in Hin. by apply not_elem_of_empty in Hin. }
  apply wp_bind, wp_modify, wp_ret. apply HQ; try done. split; [|intros c Hc; by destruct (Hno c)]. constructor; try done.
  - intros c Hc. by destruct (Hno c).
  - intros c Hc. by destruct (Hno c).
  - intros c k Hc. by destruct (Hno c).
  - intros x Hx. destruct (iv_bits0 x Hx) as (c & Hc & _). by destruct (Hno c).
Qed.

(** The end of a context: what destroys it and what frees it leave the invariant. *)
Lemma life_same ce x s : ids_ok s -> cx_ref (gs_ctx s ce) = 0 -> ce ∉ guc_id_list s ->
  x = Doomed \/ x = Freed /\ ~ has_id s ce -> ids_ok (upd_ctx ce (with_life x) s) /\ outside ce s (upd_ctx ce (with_life x) s).
Proof using Type.
  intros Ok Hr Hl Hx.
  assert (forall c, gs_ctx (upd_ctx ce (with_life x) s) c = gs_ctx s c \/ c = ce /\ gs_ctx (upd_ctx ce (with_life x) s) c = with_life x (gs_ctx s c)) as H.
  { intros c. destruct (decide (c = ce)) as [->|Hc]; [rewrite upd_at; by right|rewrite upd_ne by done; by left]. }
  split.
  - apply (ids_ok_same s); [|intros c; by destruct (H c) as [->|[_ ->]]|done]. constructor; try done; intros c.
    4:{ destruct (H c) as [->|[-> ->]]; [by left|]. right. destruct Hx as [->|[-> Hno]]; [by left|by right]. }
    all: by destruct (H c) as [->|[_ ->]].
  - constructor; [done|intros c; by destruct (H c) as [->|[_ ->]]|..]; intros c Hc; [..|intros _]; by rewrite upd_ne.
Qed.

Lemma wp_free_context ce s (Q : unit -> submission_state -> Prop) :
  ids_ok s -> cx_ref (gs_ctx s ce) = 0 -> ~ has_id s ce ->
  (forall s', ids_ok s' -> outside ce s s' -> ~ has_id s' ce -> cx_life (gs_ctx s' ce) = Freed -> Q tt s') ->
  wp (free_context ce) Q s.
Proof using Type.
  intros Ok Hr Hno HQ. apply wp_modify. destruct (life_same ce Freed s Ok Hr) as [Ok' Ho]; [by apply no_id_not_listed; [apply Ok|]|by right|].
  apply HQ; [done|done|unfold has_id|]; by rewrite upd_at.
Qed.

Lemma wp_destroy ce s (Q : unit -> submission_state -> Prop) :
  ids_ok s -> cx_ref (gs_ctx s ce) = 0 ->
  (forall s', ids_ok s' -> outside ce s s' ->
     (cx_life (gs_ctx s' ce) = Freed /\ ~ has_id s' ce \/
      cx_life (gs_ctx s' ce) = Doomed /\ cx_id (gs_ctx s' ce) = cx_id (gs_ctx s ce) /\ has_id s ce /\ context_lookup s' !! cx_id (gs_ctx s ce) <> None) -> Q tt s') ->
  wp (guc_context_destroy ce) Q s.
Proof using Type.
  intros Ok Hr HQ. apply wp_bind, wp_gets, wp_bind, wp_gets. cbn [id]. cbv zeta. apply wp_if; intros Hd.
  - apply wp_bind, wp_release; [done|done|]. intros s1 Ok1 Ho1 Hno1 Hl1 Hr1 Hlf1.
    apply wp_free_context; [done|done|done|]. intros s2 Ok2 Ho2 Hno2 Hlf2. apply HQ; [done|by etransitivity|by left].
  - rewrite !orb_false_iff, has_id_false, negb_false_iff, negb_false_iff, bool_decide_eq_true in Hd. destruct Hd as [[_ Hh] Hm].
    apply wp_bind, wp_modify, wp_bind, wp_modify, wp_modify. set (s1 := set_lists _ _ s). set (s2 := set_lists _ _ s1).
    assert (ids_ok s2) as Ok2.
    { destruct Ok as [[] K]. split; [|exact K]. constructor; try done; [by apply list.NoDup_filter|].
      intros c [_ Hc]%list_elem_of_filter. by apply iv_listed0. }
    destruct (life_same ce Doomed s2 Ok2 Hr) as [Ok3 Ho]; [|by left|].
    { cbn. intros [Hne _]%list_elem_of_filter. done. }
    apply HQ; [done| |right; rewrite upd_at; split_and!; try done].
    + destruct Ho. by constructor.
    + by apply bool_decide_eq_true in Hm.
Qed.
End keep.
