(* ===== verification/GucRuns.v ===== *)
(** * Runs of the allocator of context ids

    The locked sections of GucIds, each with what its callers guarantee, are the steps of a
    system that any number of threads take in any order; a thread that gets an id for a request
    is a program that others interrupt. At the end the ids meet the provisioning of contexts:
    what the driver of the PF hands out never belongs to a VF. *)

From stdpp Require Import gmap sets relations.
From S2P Require Export GucIds.

#[local] Abbreviation gs A := (st submission_state A).
#[local] Abbreviation gp A := (prog submission_state A).

(** ** The ids of a context *)

Section owns.
Implicit Types (s : submission_state) (c k : nat).

(** [x] is the id of [c] or of one of its children. *)
Definition owns_id s c x : Prop :=
  has_id s c /\ (x = cx_id (gs_ctx s c) \/ is_parent s c /\ x ∈ cx_child_ids (gs_ctx s c)).

Lemma owns_single s c x : ~ is_parent s c -> owns_id s c x -> x = cx_id (gs_ctx s c).
Proof. intros Hp [_ [Hx|[Hp' _]]]; [done|by destruct Hp]. Qed.
Lemma owns_parent s c x : ids_ok s -> is_parent s c -> owns_id s c x ->
  x - mlrc_guc_id_base s ∈ ctx_block s c /\ mlrc_guc_id_base s <= x < num_guc_ids s.
Proof.
  intros [I K] Hp [Hh Hx]. destruct (iv_parent s I c Hh Hp) as (Hb & He & _). pose proof (order_fits (gs_ctx s c)) as Hfit.
  assert (cx_id (gs_ctx s c) <= x <= cx_id (gs_ctx s c) + Z.of_nat (cx_children (gs_ctx s c))) as Hr.
  { destruct Hx as [->|[_ Hx]]; [lia|]. rewrite (K c Hh Hp) in Hx. apply elem_of_seqZ in Hx. lia. }
  split; [|lia]. apply elem_block. lia.
Qed.

Lemma owns_range s c x : ids_ok s -> owns_id s c x -> 0 <= x < num_guc_ids s.
Proof.
  intros Ok Ho. pose proof Ok as [I K]. pose proof (slrc_range s ltac:(apply I)) as Hr. destruct (decide (is_parent s c)) as [Hp|Hp].
  - destruct (owns_parent s c x Ok Hp Ho) as [_ Hx]. unfold mlrc_guc_id_base in Hx. lia.
  - rewrite (owns_single s c x Hp Ho). destruct (iv_single s I c (proj1 Ho) Hp). lia.
Qed.
Lemma owns_unique s c k x : ids_ok s -> owns_id s c x -> owns_id s k x -> c = k.
Proof.
  intros Ok Hc Hk. pose proof Ok as [I K]. destruct (decide (is_parent s c)) as [Pc|Pc], (decide (is_parent s k)) as [Pk|Pk].
  - destruct (decide (c = k)) as [|Hne]; [done|]. destruct (owns_parent s c x Ok Pc Hc) as [Hx _], (owns_parent s k x Ok Pk Hk) as [Hx' _].
    by destruct (iv_blocks s I c k (proj1 Hc) (proj1 Hk) Pc Pk Hne _ Hx).
  - destruct (owns_parent s c x Ok Pc Hc) as [_ Hx]. rewrite (owns_single s k x Pk Hk) in Hx.
    destruct (iv_single s I k (proj1 Hk) Pk). unfold mlrc_guc_id_base in Hx. lia.
  - destruct (owns_parent s k x Ok Pk Hk) as [_ Hx]. rewrite (owns_single s c x Pc Hc) in Hx.
    destruct (iv_single s I c (proj1 Hc) Pc). unfold mlrc_guc_id_base in Hx. lia.
  - apply (iv_distinct s I); [apply Hc|apply Hk|done|done|]. by rewrite <- (owns_single s c x), <- (owns_single s k x).
Qed.

(** The pools hold nothing that no context owns. *)
Lemma pool_owned s x : ids_ok s -> x ∈ guc_ids s -> exists c, owns_id s c x.
Proof. intros [I _] Hx. destruct (iv_taken s I x Hx) as (c & Hh & _ & <-). exists c. split; [done|by left]. Qed.
End owns.

(** ** Changes that have nothing to do with ids *)

Record neutral (s s' : submission_state) : Prop := {
  qu_num : num_guc_ids s' = num_guc_ids s;
  qu_ids : guc_ids s' = guc_ids s;
  qu_bitmap : guc_ids_bitmap s' = guc_ids_bitmap s;
  qu_in_use : guc_ids_in_use s' = guc_ids_in_use s;
  qu_list : guc_id_list s' = guc_id_list s;
  qu_ctx c : let a := gs_ctx s c in let b := gs_ctx s' c in cx_children b = cx_children a /\ cx_id b = cx_id a /\
    cx_child_ids b = cx_child_ids a /\ cx_ref b = cx_ref a /\ cx_life b = cx_life a;
}.
Definition quiet_action (A : Type) (m : gs A) : Prop := forall s, neutral s (snd (m s)).

(** What other threads do to [ce] while a thread works on it: they neither give it its first
    reference nor take its last, nor the ids it has then. With [still] no request of it retires. *)
Record other_threads (still : bool) (ce : nat) (s s' : submission_state) : Prop := {
  ot_children : cx_children (gs_ctx s' ce) = cx_children (gs_ctx s ce);
  ot_life : cx_life (gs_ctx s' ce) = cx_life (gs_ctx s ce);
  ot_zero : cx_ref (gs_ctx s' ce) = 0 <-> cx_ref (gs_ctx s ce) = 0;
  ot_pinned : cx_ref (gs_ctx s ce) <> 0 ->
    cx_id (gs_ctx s' ce) = cx_id (gs_ctx s ce) /\ cx_child_ids (gs_ctx s' ce) = cx_child_ids (gs_ctx s ce);
  ot_still : still = true -> cx_ref (gs_ctx s' ce) = cx_ref (gs_ctx s ce);
}.

(** ** The steps of the system *)

Section steps.
Context `{J : IdEnv}.
Implicit Types s : submission_state.

Inductive id_step s : submission_state -> Prop :=
| SInit ce : cx_life (gs_ctx s ce) = Freed -> id_step s (snd (intel_context_init ce s))
| SBind ce : cx_life (gs_ctx s ce) = Alive -> ~ has_id s ce -> id_step s (snd (intel_context_bind_parent_child ce s))
| SAddRef ce : id_step s (snd (add_ref_unless_0 ce s))
| SPin ce : cx_life (gs_ctx s ce) = Alive -> id_step s (snd (pin_locked ce s))
| SDec ce : 0 < cx_ref (gs_ctx s ce) -> id_step s (snd (dec_ref ce s))
| SUnpin ce : cx_life (gs_ctx s ce) = Alive -> ~ is_parent s ce -> id_step s (snd (unpin_locked ce s))
| SDestroy ce : cx_life (gs_ctx s ce) = Alive -> cx_ref (gs_ctx s ce) = 0 -> id_step s (snd (guc_context_destroy ce s))
| SPop : id_step s (snd (pop_destroyed s))
| SRelease ce : cx_life (gs_ctx s ce) = Doomed -> id_step s (snd (release_guc_id ce s))
| SFree ce : cx_life (gs_ctx s ce) = Doomed -> ~ has_id s ce -> id_step s (snd (free_context ce s))
| SLimit limit : 0 <= limit -> (forall c, has_id s c -> ~ is_parent s c) ->
    id_step s (snd (submission_limit_ids limit s))
| SQuiet A (m : gs A) : quiet_action A m -> id_step s (snd (m s)).
End steps.

Section runs.
Context `{J : IdEnv} `{!IdEnvLaws J}.
Implicit Types (s : submission_state) (c k ce : nat).

Lemma quiet_same s s' : neutral s s' -> same_ids s s'.
Proof using Type.
  intros []. constructor; try done; intros c; destruct (qu_ctx0 c) as (? & ? & ? & ? & ?); auto.
Qed.
Lemma quiet_ok s s' : neutral s s' -> ids_ok s -> ids_ok s'.
Proof using Type. intros Hq. apply ids_ok_same; [by apply quiet_same|]. intros c. apply (qu_ctx _ _ Hq c). Qed.
Lemma quiet_outside ce s s' : neutral s s' -> outside ce s s'.
Proof using Type.
  intros [Hn _ _ _ _ H]. constructor; [done|intros c; apply (H c)|intros c _; apply (H c)..|].
  intros c _ _. split; apply (H c).
Qed.

(** References are all that the operations on another context leave to a context, and the ids
    that go with them. *)
Definition keeps_pinned s s' : Prop := forall c, 0 < cx_ref (gs_ctx s c) -> 0 < cx_ref (gs_ctx s' c) ->
  forall x, owns_id s' c x <-> owns_id s c x.
Lemma outside_keeps ce s s' : outside ce s s' ->
  (0 < cx_ref (gs_ctx s ce) -> 0 < cx_ref (gs_ctx s' ce) ->
   cx_id (gs_ctx s' ce) = cx_id (gs_ctx s ce) /\ cx_child_ids (gs_ctx s' ce) = cx_child_ids (gs_ctx s ce)) -> keeps_pinned s s'.
Proof using Type.
  intros [] Hce c Hr Hr' x. unfold owns_id, has_id, is_parent. rewrite ou_children.
  destruct (decide (c = ce)) as [->|Hne]; [destruct (Hce Hr Hr') as [-> ->]|destruct (ou_pinned c Hne Hr) as [-> ->]]; done.
Qed.

Lemma wp_snd {A} (m : gs A) (P : submission_state -> Prop) s : wp m (fun _ s' => P s') s -> P (snd (m s)).
Proof using Type. done. Qed.

Lemma step_ok s s' : id_step s s' -> ids_ok s -> ids_ok s' /\ keeps_pinned s s'.
Proof using IdEnvLaws0.
  intros Hst Ok. pose proof Ok as [I K]. assert (forall ce, cx_life (gs_ctx s ce) <> Alive -> cx_ref (gs_ctx s ce) = 0) as Hdead.
  { intros ce Hl. pose proof (iv_ref s I ce). destruct (decide (0 < cx_ref (gs_ctx s ce))) as [Hp|]; [|lia]. by destruct (iv_pinned s I ce Hp). }
  assert (forall ce s', ids_ok s' /\ outside ce s s' -> cx_ref (gs_ctx s ce) = 0 -> ids_ok s' /\ keeps_pinned s s') as Hidle.
  { intros ce s1 [Ok1 Ho] Hr. split; [done|]. apply (outside_keeps ce); [done|]. lia. }
  destruct Hst as [ce Hl|ce Hl Hno|ce|ce Hl|ce Hr|ce Hl Hp|ce Hl Hr| |ce Hl|ce Hl Hno|limit Hl Hnp|A m Hq].
  - assert (~ has_id s ce) as Hno by (by apply I). apply wp_snd, wp_modify. split.
    + apply (idle_changed ce s); try done; [intros c Hc; by rewrite upd_ne|unfold has_id; rewrite upd_at; cbn; tauto|by rewrite upd_at].
    + intros c Hr Hr' x. destruct (decide (c = ce)) as [->|Hc]; [rewrite upd_at in Hr'; done|].
      unfold owns_id, has_id, is_parent. by rewrite !upd_ne.
  - apply wp_snd, wp_modify. pose proof (no_id_no_ref s ce I Hno) as Hr0. split.
    + apply (idle_changed ce s); try done; [intros c Hc; by rewrite upd_ne|unfold has_id; by rewrite upd_at|by rewrite upd_at].
    + intros c Hr Hr' x. destruct (decide (c = ce)) as [->|Hc]; [lia|]. unfold owns_id, has_id, is_parent. by rewrite !upd_ne.
  - apply wp_snd, wp_add_ref_unless_0; [done|done|]. intros s1 Ok1 Ho Hr H1. split; [done|]. apply (outside_keeps ce); [done|]. by rewrite H1.
  - apply wp_snd, wp_pin_locked; [done|done|]. intros r s1 Ok1 Ho Hpost. split; [done|]. apply (outside_keeps ce); [done|].
    unfold pin_post in Hpost. intros Hr Hr'. destruct (iv_pinned s I ce Hr) as [Hh _]. case_decide as Hneg.
    + destruct Hpost as (_ & Hno & _). done.
    + destruct Hpost as (_ & _ & _ & _ & Hi). auto.
  - apply wp_snd, wp_dec_ref; [done|done|]. intros s1 Ok1 Ho H1. split; [done|]. apply (outside_keeps ce); [done|]. by rewrite H1.
  - apply wp_snd, wp_unpin_locked; [done|done|done|]. intros s1 Ok1 Hc Hn. split; [done|]. intros c _ _ x. unfold owns_id, has_id, is_parent. by rewrite Hc.
  - apply wp_snd, wp_destroy; [done|done|]. intros s1 Ok1 Ho _. by apply (Hidle ce).
  - apply wp_snd, wp_bind, wp_gets. destruct (destroyed_contexts s) as [|ce l]; [by split|]. apply wp_bind, wp_modify, wp_ret.
    split; [|done]. split; [|exact K]. destruct I. by constructor.
  - apply wp_snd, wp_release; [done|by apply Hdead; rewrite Hl|]. intros s1 Ok1 Ho _ _ _ _. apply (Hidle ce); [done|]. apply Hdead. by rewrite Hl.
  - apply wp_snd, wp_free_context; [done|by apply Hdead; rewrite Hl|done|]. intros s1 Ok1 Ho _ _. apply (Hidle ce); [done|]. apply Hdead. by rewrite Hl.
  - apply wp_snd, wp_limit_ids; [done|done|done|]. intros r s1 Ok1 _ _ Hc. split; [done|]. intros c _ _ x. unfold owns_id, has_id, is_parent. by rewrite Hc.
  - split; [by apply (quiet_ok s)|]. apply (outside_keeps 0%nat); [by apply quiet_outside|]. intros _ _. split; apply (Hq s).
Qed.

Lemma steps_ok s s' : rtc id_step s s' -> ids_ok s -> ids_ok s'.
Proof using IdEnvLaws0. induction 1 as [s|s s1 s2 Hst _ IH]; [done|]. intros Ok. by apply IH, (step_ok s). Qed.

(** ** A thread that gets an id for a request *)

#[export] Instance neutral_preorder : PreOrder neutral.
Proof using Type.
  split; [by constructor|]. intros s1 s2 s3 [? ? ? ? ? H] [? ? ? ? ? H']. constructor; try congruence.
  intros c. cbv zeta. destruct (H c) as (? & ? & ? & ? & ?), (H' c) as (? & ? & ? & ? & ?). split_and!; congruence.
Qed.
#[export] Instance threads_preorder still ce : PreOrder (other_threads still ce).
Proof using Type.
  split; [by constructor|]. intros s1 s2 s3 [? ? Hz Hp Hs] [? ? Hz' Hp' Hs']. constructor; [congruence|congruence|by rewrite Hz'| |].
  - intros Hr. assert (cx_ref (gs_ctx s2 ce) <> 0) as Hr2 by (by rewrite Hz). destruct (Hp Hr), (Hp' Hr2). split; congruence.
  - intros Ht. by rewrite Hs', Hs.
Qed.

Lemma outside_others still ce c s s' : outside c s s' -> c <> ce -> ids_ok s -> other_threads still ce s s'.
Proof using Type.
  intros [] Hne [I _]. constructor; auto; [by rewrite ou_ref|]. intros Hr. apply ou_pinned; [auto|]. pose proof (iv_ref s I ce). lia.
Qed.

Lemma quiet_bind {A B} (m : gs A) (k : A -> gs B) : quiet_action A m -> (forall a, quiet_action B (k a)) -> quiet_action B (m ≫= k).
Proof using Type.
  intros Hm Hk s. specialize (Hm s). unfold mbind, st_bind. destruct (m s) as [a s1]. etransitivity; [exact Hm|apply Hk].
Qed.
Lemma quiet_gets {A} (f : submission_state -> A) : quiet_action A (gets f).
Proof using Type. intros s. by constructor. Qed.
Lemma quiet_ret {A} (a : A) : quiet_action A (mret a).
Proof using Type. intros s. by constructor. Qed.
Lemma quiet_rest (f : submission_state -> gmap Z nat) (b : submission_state -> bool) (n : submission_state -> nat) :
  quiet_action unit (modify (fun s => set_rest (f s) (b s) (n s) s)).
Proof using Type. intros s. by constructor. Qed.
Lemma quiet_tick : quiet_action nat tick.
Proof using Type. intros s. by constructor. Qed.
Lemma quiet_flags ce (reg wait destroyed : intel_context -> bool) :
  quiet_action unit (mod_ctx ce (fun c : intel_context => with_flags (reg c) (wait c) (destroyed c) c)).
Proof using Type.
  intros s. constructor; try done. intros c. cbv zeta. change (snd (mod_ctx ce ?f s)) with (upd_ctx ce f s).
  destruct (decide (c = ce)) as [->|Hc]; [by rewrite upd_at|by rewrite upd_ne].
Qed.
Lemma quiet_send : quiet_action Z send_context.
Proof using Type. apply quiet_bind; [apply quiet_tick|intros n; apply quiet_ret]. Qed.
Lemma quiet_needs ce b : quiet_action bool (context_needs_register ce b).
Proof using Type.
  apply quiet_bind; [apply quiet_tick|intros n]. apply quiet_bind; [apply quiet_gets|intros c].
  apply quiet_bind; [apply quiet_gets|intros s; apply quiet_ret].
Qed.

Lemma register_quiet ce : all_acts quiet_action (register_context ce).
Proof using Type.
  apply all_acts_bind; [apply all_acts_atom, quiet_send|intros r]. apply all_acts_bind; [|done].
  apply all_acts_if; [apply all_acts_atom, (quiet_flags ce (fun _ => true))|done].
Qed.
Lemma registration_quiet ce : all_acts quiet_action (try_context_registration ce).
Proof using Type.
  apply all_acts_bind; [apply all_acts_atom, quiet_gets|intros c]. cbv zeta.
  apply all_acts_bind; [apply all_acts_atom, quiet_gets|intros registered].
  apply all_acts_bind; [apply all_acts_atom, quiet_rest|intros _]. apply all_acts_bind; [apply all_acts_atom, quiet_rest|intros _].
  destruct registered.
  - apply all_acts_bind; [apply all_acts_atom|].
    { apply quiet_bind; [apply quiet_gets|intros []; [apply quiet_ret|]]. apply quiet_bind; [|intros _; apply quiet_ret].
      apply (quiet_flags ce cx_registered (fun _ => true)). }
    intros []; [apply all_acts_bind; [apply all_acts_atom, quiet_rest|done]|].
    apply all_acts_bind; [apply all_acts_atom, quiet_send|done].
  - apply all_acts_bind; [apply register_quiet|intros ret].
    repeat apply all_acts_if; [..|done]; (apply all_acts_bind; [apply all_acts_atom, quiet_rest|done]).
Qed.

(** The context has references, and without interference [n] of them; or it has none. *)
Definition has_ref still ce (n : Z) s : Prop :=
  cx_ref (gs_ctx s ce) <> 0 /\ cx_life (gs_ctx s ce) = Alive /\ (still = true -> cx_ref (gs_ctx s ce) = n).
Definition alive still ce (n : Z) s : Prop := cx_life (gs_ctx s ce) = Alive /\ (still = true -> cx_ref (gs_ctx s ce) = n).

Lemma held_others still ce n s s' : other_threads still ce s s' -> has_ref still ce n s -> has_ref still ce n s'.
Proof using Type. intros [? Hl Hz _ Hs] (Hr & Hl' & Hn). split; [by rewrite Hz|]. split; [by rewrite Hl|]. intros Ht. rewrite Hs; auto. Qed.
Lemma alive_others still ce n s s' : other_threads still ce s s' -> alive still ce n s -> alive still ce n s'.
Proof using Type. intros [? Hl Hz _ Hs] (Hl' & Hn). split; [by rewrite Hl|]. intros Ht. rewrite Hs; auto. Qed.

Lemma safe_neutral still ce n {A} (p : gp A) (P : submission_state -> Prop) s :
  (forall s s', other_threads still ce s s' -> P s -> P s') ->
  (forall s s', neutral s s' -> P s -> P s') ->
  all_acts quiet_action p -> P s -> safe ids_ok (other_threads still ce) (outside n) p (fun _ => P) s.
Proof using Type.
  intros HR HQ. apply safe_all_acts; [apply threads_preorder| |done].
  intros B m s1 Hm Ok HP. specialize (Hm s1). split_and!; [by apply quiet_outside|by apply (quiet_ok s1)|by apply (HQ s1)].
Qed.
Lemma held_quiet still ce n s s' : neutral s s' -> has_ref still ce n s -> has_ref still ce n s'.
Proof using Type. intros Hq. destruct (qu_ctx _ _ Hq ce) as (_ & _ & _ & Hr & Hl). unfold has_ref. by rewrite Hr, Hl. Qed.

Lemma safe_pin still ce tries (Q : Z -> submission_state -> Prop) s :
  ids_ok s -> cx_ref (gs_ctx s ce) = 0 -> cx_life (gs_ctx s ce) = Alive ->
  (forall r s', ids_ok s' -> (r < 0 -> alive still ce 0 s') -> (0 <= r -> has_ref still ce 1 s') -> Q r s') ->
  safe ids_ok (other_threads still ce) (outside ce) (pin_tries ce tries) Q s.
Proof using IdEnvLaws0.
  intros Ok Hr Hl HQ. revert s Ok Hr Hl. induction tries as [|tries IH]; intros s Ok Hr Hl.
  all: cbn [pin_tries]; apply safe_act; intros s1 Ho Ok1; apply wp_pin_locked; [done|by rewrite (ot_life _ _ _ _ Ho)|].
  all: intros r s2 Ok2 Ho2 Hpost; split_and!; [done|done|].
  all: assert (cx_ref (gs_ctx s1 ce) = 0) as Hr1 by (by apply (ot_zero _ _ _ _ Ho)).
  all: assert (cx_life (gs_ctx s1 ce) = Alive) as Hl1 by (by rewrite (ot_life _ _ _ _ Ho)).
  all: assert ((r < 0 -> cx_ref (gs_ctx s2 ce) = 0 /\ cx_life (gs_ctx s2 ce) = Alive) /\ (0 <= r -> has_ref still ce 1 s2)) as [HF HT]
    by (unfold pin_post in Hpost; case_decide as Hneg; (split; [intros H|intros H]);
        [destruct Hpost as (_ & _ & _ & ->); done|lia|lia|]; unfold has_ref; destruct Hpost as (_ & -> & -> & _); rewrite Hr1; split_and!; done).
  all: assert (safe ids_ok (other_threads still ce) (outside ce) (mret r) Q s2) as Hdone
    by (apply safe_ret; intros s3 Ho3 Ok3; apply HQ; [done|intros H; apply (alive_others _ _ _ s2); [done|]; destruct (HF H); by split|
        intros H; by apply (held_others _ _ _ s2), HT]).
  - done.
  - case_match eqn:He; [|done]. apply Z.eqb_eq in He. destruct HF as [Hr2 Hl2]; [by rewrite He|]. by apply IH.
Qed.

Lemma safe_unpin still ce n s :
  ids_ok s -> alive still ce n s -> safe ids_ok (other_threads still ce) (outside ce) (unpin_guc_id ce) (fun _ => alive still ce n) s.
Proof using Type.
  intros Ok Ha. apply safe_act. intros s1 Ho1 Ok1. apply wp_gets. split_and!; [done|done|].
  apply (alive_others _ _ _ _ _ Ho1) in Ha as Ha1.
  case_match eqn:Hb; [apply safe_ret; intros s2 Ho2 _; by apply (alive_others _ _ _ s1)|].
  apply orb_false_iff in Hb as [_ Hp]. rewrite parent_false in Hp. apply bool_decide_eq_false in Hp.
  apply safe_atom. intros s2 Ho2 Ok2. apply (alive_others _ _ _ _ _ Ho2) in Ha1 as Ha2. apply wp_let, wp_unpin_locked; [done|apply Ha2|..].
  - unfold is_parent in *. by rewrite (ot_children _ _ _ _ Ho2).
  - intros s3 Ok3 Hc Hn. split_and!; [|done|].
    + constructor; [done|intros c; by rewrite Hc..|intros c _ _; by rewrite Hc].
    + intros s4 Ho4 _. apply (alive_others _ _ _ s3); [done|]. unfold alive. by rewrite Hc.
Qed.

(** What [guc_request_alloc] has of the id when it goes on ([ret = 0]) or gives up. *)
Definition request_post still ce (n : Z) (ret : Z) s' : Prop :=
  if decide (ret = 0) then has_ref still ce (n + 1) s' else alive still ce n s'.

Lemma safe_request still ce s :
  ids_ok s -> cx_life (gs_ctx s ce) = Alive ->
  safe ids_ok (other_threads still ce) (outside ce) (request_guc_id ce) (request_post still ce (cx_ref (gs_ctx s ce))) s.
Proof using IdEnvLaws0.
  intros Ok Hl. set (n := cx_ref (gs_ctx s ce)). assert (alive still ce n s) as Ha by done. clearbody n. clear Hl.
  assert (forall s1, has_ref still ce (n + 1) s1 ->
    safe ids_ok (other_threads still ce) (outside ce) (mret 0) (request_post still ce n) s1) as Hgo.
  { intros s1 H1. apply safe_ret. intros s2 Ho _. unfold request_post. rewrite decide_True by done. by apply (held_others _ _ _ s1). }
  apply safe_act. intros s1 Ho1 Ok1. apply (alive_others _ _ _ _ _ Ho1) in Ha as [Hl1 Hn1]. apply wp_add_ref_unless_0; [done|..].
  2:{ intros s2 Ok2 Ho2 Hr H2. split_and!; [done|done|]. apply Hgo. unfold has_ref. rewrite H2. cbn. split_and!; [lia|done|].
      intros Ht. by rewrite (Hn1 Ht). }
  intros Hr1. split_and!; [done|done|]. assert (still = true -> n = 0) as Hn0 by (intros Ht; by rewrite <- (Hn1 Ht)).
  apply safe_bind; [apply threads_preorder|done|]. apply safe_pin; [done|done|done|]. intros r s2 Ok2 HF HT.
  destruct (Z.ltb_spec r 0) as [Hneg|Hpos].
  { apply safe_ret. intros s3 Ho3 _. unfold request_post. rewrite decide_False by lia. destruct (HF Hneg) as [Hl2 Hn2].
    apply (alive_others _ _ _ s2); [done|]. split; [done|]. intros Ht. rewrite (Hn0 Ht). auto. }
  assert (has_ref still ce (n + 1) s2) as H2.
  { destruct (HT Hpos) as (? & ? & Hn2). split_and!; [done|done|]. intros Ht. rewrite (Hn0 Ht). auto. }
  clear HF HT Hn0. apply safe_act. intros s3 Ho3 Ok3. apply (held_others _ _ _ _ _ Ho3) in H2 as H3.
  pose proof (quiet_needs ce (negb (r =? 0)) s3) as Hq. apply run_wp. intros needs s4 Hrun. rewrite Hrun in Hq. cbn [snd] in Hq.
  apply (held_quiet _ _ _ _ _ Hq) in H3 as H4. split_and!; [by apply quiet_outside|by apply (quiet_ok s3)|].
  destruct needs; cbn [negb]; [|by apply Hgo].
  eapply safe_then; [apply threads_preorder|apply (safe_neutral still ce ce _ (has_ref still ce (n + 1)));
    [apply held_others|apply held_quiet|apply registration_quiet|done]| |by apply (quiet_ok s3)].
  intros ret s5 Ok5 H5. destruct (Z.eqb_spec ret 0) as [->|Hret]; [by apply Hgo|]. destruct (Z.eqb_spec ret (- EPIPE)).
  { apply safe_act. intros s6 Ho6 Ok6. apply (held_others _ _ _ _ _ Ho6) in H5 as H6. apply wp_modify.
    pose proof (quiet_rest context_lookup (fun _ => true) gs_calls s6) as Hq6. cbn [snd modify] in Hq6.
    split_and!; [by apply quiet_outside|by apply (quiet_ok s6)|]. by apply Hgo, (held_quiet _ _ _ s6). }
  apply safe_act. intros s6 Ho6 Ok6. apply (held_others _ _ _ _ _ Ho6) in H5 as (Hr6 & Hl6 & Hn6).
  apply wp_dec_ref; [done|pose proof (iv_ref s6 (proj1 Ok6) ce); lia|]. intros s7 Ok7 Ho7 H7. split_and!; [done|done|].
  assert (alive still ce n s7) as Ha7 by (split; rewrite H7; [done|cbn; intros Ht; rewrite (Hn6 Ht); lia]).
  apply safe_bind; [apply threads_preorder|done|]. eapply safe_mono; [by apply safe_unpin|].
  intros [] s8 Ha8. cbv beta. apply safe_ret. intros s9 Ho9 _. unfold request_post. rewrite decide_False by done. by apply (alive_others _ _ _ s8).
Qed.
End runs.

(** ** A sample *)

Definition first_of (l : list Z) : Z := default (- ENOSPC) (head l).
#[export] Instance sample_ids : IdEnv := {|
  ida_simple_get _ ida bound := first_of (filter (fun x => x ∉ ida) (seqZ 0 bound));
  bitmap_find_free_region bm bits order :=
    first_of (filter (fun x => x mod 2 ^ order = 0 /\ x + 2 ^ order <= bits /\ block x order ∩ bm = ∅) (seqZ 0 bits));
  context_send _ := 0;
  context_lrca_dirty _ := false;
|}.
Lemma first_of_in l x : first_of l = x -> 0 <= x -> x ∈ l.
Proof. unfold first_of. destruct l; cbn; intros <-; [done|]. intros _. apply list_elem_of_here. Qed.
#[export] Instance sample_ids_laws : IdEnvLaws sample_ids.
Proof.
  constructor.
  - intros n ida bound x Hx Hp. apply first_of_in in Hx as [Hni Hx]%list_elem_of_filter; [|done]. apply elem_of_seqZ in Hx. split; [lia|done].
  - intros bm bits order x Hx Hp _. apply first_of_in in Hx as [(_ & ? & Hd) _]%list_elem_of_filter; [|done]. split; [done|]. by apply disjoint_intersection_L.
Qed.

(** [n] ids and the contexts 0, 1, 2, of which 2 is a parent of one child. *)
Definition idle_context (children : nat) : intel_context := {| cx_children := children; cx_id := GUC_INVALID_CONTEXT_ID;
  cx_child_ids := []; cx_ref := 0; cx_registered := false; cx_wait_deregister := false; cx_destroyed := false; cx_life := Alive |}.
Definition sample_submission (n : Z) : submission_state := {| num_guc_ids := n; guc_ids := ∅; guc_ids_bitmap := ∅; guc_ids_in_use := 0;
  guc_id_list := []; destroyed_contexts := []; context_lookup := ∅; gs_disabled := false;
  gs_ctx c := idle_context (if decide (c = 2)%nat then 1 else 0); gs_calls := 0 |}.
Lemma sample_submission_ok n : 0 <= n <= GUC_MAX_CONTEXT_ID -> ids_ok (sample_submission n).
Proof.
  intros Hn. assert (forall c, ~ has_id (sample_submission n) c) as Hno by (intros c Hc; by apply Hc). split; [constructor|intros c Hc; by destruct (Hno c)].
  all: first [done | by intros c H; destruct (Hno c) | by intros c k H; destruct (Hno c) | by intros x H%not_elem_of_empty | idtac].
  - constructor.
  - by intros c H%not_elem_of_nil.
Qed.

(** ** Properties *)

(** The PF hands out the first contexts; the ids below [num_guc_ids] are its own. *)
Lemma pf_owns_below `{E : Env} g d x : ctxs_inv g d -> 0 <= x < num_ctxs (cfg d g PFID) -> owns_ctx d g PFID x.
Proof.
  intros I Hx. destruct (ci_cfg g d I PFID ltac:(unfold PFID; lia)) as [Hn|(n & k & _ & _ & _ & Hb & _)]; [by destruct (ci_pf g d I)|].
  unfold owns_ctx. rewrite Hb. lia.
Qed.

Section properties.
Context `{E : Env} `{J : IdEnv} `{!IdEnvLaws J}.
Implicit Types (s : submission_state) (c k ce : nat).

(** C14: Whatever threads do to the context ids in whatever order - new contexts, ids for
    requests, retirement, idle contexts whose id is stolen, destruction - an id (also that of a
    child) belongs to one context, is below [num_guc_ids], and is never lost: what the pool counts
    as taken somebody owns. A context with requests keeps its ids over every step, a freed one
    has none. An attempt to get an id fails only for a parent, or when nobody idle can be robbed.
    With the limit that provisioning sets, no id belongs to a VF. *)
Theorem guc_ids_exclusive s s' :
  ids_ok s -> rtc id_step s s' ->
  (forall c x, owns_id s' c x -> 0 <= x < num_guc_ids s' /\ forall k, owns_id s' k x -> k = c) /\
  (forall x, x ∈ guc_ids s' -> exists c, owns_id s' c x) /\
  (forall c, cx_ref (gs_ctx s' c) <> 0 -> owns_id s' c (cx_id (gs_ctx s' c)) /\ cx_life (gs_ctx s' c) = Alive) /\
  (forall c x, cx_life (gs_ctx s' c) = Freed -> ~ owns_id s' c x) /\
  (forall s'' c x, id_step s' s'' -> cx_ref (gs_ctx s' c) <> 0 -> cx_ref (gs_ctx s'' c) <> 0 -> owns_id s'' c x <-> owns_id s' c x) /\
  (forall ce, cx_life (gs_ctx s' ce) = Alive ->
     let '(ret, s'') := pin_locked ce s' in
     if decide (ret < 0) then ~ has_id s' ce /\ (is_parent s' ce \/ guc_id_list s' = [])
     else owns_id s'' ce (cx_id (gs_ctx s'' ce)) /\ cx_ref (gs_ctx s'' ce) = cx_ref (gs_ctx s' ce) + 1) /\
  (forall g (d : dev) vf c x, ctxs_inv g d -> num_guc_ids s' = num_ctxs (cfg d g PFID) -> (0 < vf <= d_totalvfs d)%nat ->
     owns_id s' c x -> ~ owns_ctx d g vf x).
Proof using Type*.
  intros Ok0 Hrun. pose proof (steps_ok _ _ Hrun Ok0) as Ok. pose proof Ok as [I K].
  assert (forall c, cx_ref (gs_ctx s' c) <> 0 -> 0 < cx_ref (gs_ctx s' c)) as Hpos by (intros c Hr; pose proof (iv_ref s' I c); lia).
  split_and!.
  - intros c x Hx. split; [by apply owns_range with c|]. intros k Hk. by apply owns_unique with s' x.
  - intros x. by apply pool_owned.
  - intros c Hr. destruct (iv_pinned s' I c (Hpos c Hr)). split; [|done]. split; [done|by left].
  - intros c x Hf [Hh _]. by apply (iv_freed s' I c).
  - intros s'' c x Hst Hr Hr'. destruct (step_ok s' s'' Hst Ok) as [[I' _] Hk]. apply Hk; [by apply Hpos|].
    pose proof (iv_ref s'' I' c). lia.
  - intros ce Hl. apply wp_let, wp_pin_locked; [done|done|]. intros r s1 _ _ Hpost. unfold pin_post in Hpost. case_decide.
    + by destruct Hpost as (_ & ? & ? & _).
    + destruct Hpost as (? & ? & _). split; [split; [done|by left]|done].
  - intros g d vf c x Id Hn Hvf Hx Hown. apply (owns_range s' c x Ok) in Hx. rewrite Hn in Hx. apply (pf_owns_below g d x Id) in Hx.
    destruct (ctxs_inv_exclusive g d Id PFID x) as [_ Hu]; [unfold PFID; lia|done|].
    specialize (Hu vf ltac:(lia) Hown). unfold PFID in Hu. lia.
Qed.

(** C15: The part of [guc_request_alloc] that gets a context an id, while other threads work on
    other contexts and retire requests of this one: at every moment the ids are as they should
    be, and it does nothing to other contexts that they could notice. When it goes on, the
    context has a reference and an id of its own; when it gives up - no id after the four
    attempts, or GuC refuses the context - it keeps no reference. *)
Theorem request_guc_id_safe still ce s p1 s1 :
  ids_ok s -> cx_life (gs_ctx s ce) = Alive ->
  rtc (among ids_ok (other_threads still ce)) (request_guc_id ce, s) (p1, s1) ->
  ids_ok s1 /\
  (forall c, c <> ce -> other_threads still c s1 (snd (step_prog p1 s1))) /\
  forall ret, p1 = Ret ret ->
    (ret = 0 -> cx_ref (gs_ctx s1 ce) <> 0 /\ owns_id s1 ce (cx_id (gs_ctx s1 ce))) /\
    (still = true -> cx_ref (gs_ctx s1 ce) = cx_ref (gs_ctx s ce) + (if decide (ret = 0) then 1 else 0)).
Proof using IdEnvLaws0.
  intros Ok Hl Hrun. pose proof (safe_request still ce s Ok Hl) as Hs.
  pose proof (among_safe _ _ _ _ _ _ Hrun Ok Hs) as [Ok1 _]. cbn [snd] in Ok1.
  split_and!; [done| |].
  - intros c Hne. apply (outside_others still c ce); [|done|done]. by apply (among_step ids_ok (other_threads still ce) (outside ce) _ _ _ _ _ Hrun Ok Hs).
  - intros ret ->. pose proof (among_result _ _ _ _ _ _ _ _ Hrun Ok Hs) as Hpost. unfold request_post in Hpost. split.
    + intros ->. rewrite decide_True in Hpost by done. destruct Hpost as (Hr & _ & _). split; [done|].
      pose proof (iv_ref s1 (proj1 Ok1) ce). destruct (iv_pinned s1 (proj1 Ok1) ce); [lia|]. split; [done|by left].
    + intros Ht. case_decide; [by apply Hpost|]. destruct Hpost as [_ Hn]. rewrite (Hn Ht). lia.
Qed.
End properties.

(** ** What is not as it should be *)

(** The mapping of a stolen id goes on naming the robbed context until the thief registers; the
    robbed one has no id, so its destruction frees it at once: GuC's messages and the resets,
    which go through [context_lookup], then meet a freed context. *)
Lemma freed_in_lookup : exists s x c,
  rtc id_step (sample_submission 1) s /\ context_lookup s !! x = Some c /\ cx_life (gs_ctx s c) = Freed.
Proof.
  exists (snd (guc_context_destroy 0 (snd (pin_locked 1 (snd (unpin_locked 0 (snd (dec_ref 0 (snd (set_ctx_id_mapping 0 0
    (snd (pin_locked 0 (sample_submission 1))))))))))))), 0, 0%nat. split; [|split; reflexivity].
  eapply rtc_l; [apply (SPin _ 0%nat); reflexivity|]. eapply rtc_l.
  { apply (SQuiet _ _ (set_ctx_id_mapping 0 0)), (quiet_rest (fun s => <[0 := 0%nat]> (context_lookup s)) gs_disabled gs_calls). }
 
  eapply rtc_l; [apply (SDec _ 0%nat); reflexivity|]. eapply rtc_l; [apply (SUnpin _ 0%nat); [reflexivity|intros H; apply H; reflexivity]|].
  eapply rtc_l; [apply (SPin _ 1%nat); reflexivity|]. eapply rtc_l; [apply (SDestroy _ 0%nat); reflexivity|]. apply rtc_refl.
Qed.

(** [intel_guc_submission_limit_ids] looks at the single ids only: with the block of a parent in
    use it goes through and leaves the block outside the ids. *)
Lemma limit_with_blocks :
  let s := snd (pin_locked 2 (sample_submission 32)) in
  let '(ret, s') := submission_limit_ids 16 s in
  ids_ok s /\ ret = 0 /\ owns_id s' 2 30 /\ num_guc_ids s' = 16.
Proof.
  cbv zeta. split; [|split; [reflexivity|split; [|reflexivity]]].
  - apply (wp_pin_locked (J := sample_ids) 2 _ (fun _ => ids_ok)); [apply sample_submission_ok; by unfold GUC_MAX_CONTEXT_ID|done|done].
  - split; [intros H; discriminate H|by left].
Qed.

(** ** Witnesses *)

Section witnesses.
(** One id: context 0 has had it and is idle, context 1 gets it. *)
Lemma guc_ids_exclusive_witness :
  let s := snd (pin_locked 1 (snd (unpin_locked 0 (snd (dec_ref 0 (snd (pin_locked 0 (sample_submission 1)))))))) in
  cx_id (gs_ctx s 1) = 0 /\ forall k, owns_id s k 0 -> k = 1%nat.
Proof.
  cbv zeta. split; [reflexivity|]. eapply (guc_ids_exclusive (E := sample_env) (sample_submission 1)).
  - apply sample_submission_ok. by unfold GUC_MAX_CONTEXT_ID.
  - eapply rtc_l; [apply (SPin _ 0%nat); reflexivity|]. eapply rtc_l; [apply (SDec _ 0%nat); reflexivity|].
    eapply rtc_l; [apply (SUnpin _ 0%nat); [reflexivity|intros H; apply H; reflexivity]|]. eapply rtc_l; [apply (SPin _ 1%nat); reflexivity|]. reflexivity.
  - split; [intros H; discriminate H|left; reflexivity].
Defined.

Lemma request_guc_id_safe_witness :
  let x := own_steps 20 (request_guc_id 0, sample_submission 32) in
  x.1 = Ret 0 /\ cx_ref (gs_ctx x.2 0) = 1.
Proof.
  cbv zeta. split; [reflexivity|].
  set (x := own_steps 20 _).
  assert (rtc (among ids_ok (other_threads true 0)) (request_guc_id 0, sample_submission 32) (x.1, x.2)) as Hrun
    by (rewrite <- surjective_pairing; apply (among_own ids_ok (other_threads true 0) 20 (request_guc_id 0, sample_submission 32))).
  destruct (request_guc_id_safe true 0 (sample_submission 32) x.1 x.2) as (_ & _ & H).
  - apply sample_submission_ok. by unfold GUC_MAX_CONTEXT_ID.
  - reflexivity.
  - exact Hrun.
  - destruct (H 0) as [_ Hr]; [reflexivity|]. rewrite (Hr eq_refl). reflexivity.
Defined.
End witnesses.
